(* ===== verification/_CoqProject ===== *)
-Q . S2P
Prelude.v
Posix.v
Bitmap.v
LinkList.v
UdbfsTypes.v
BitmapSpec.v
BlockLoad.v
InodeBlocks.v
InodeIO.v
Mount.v
Layout.v
Content.v
Paths.v
ExtendProofs.v
Files.v
Persist.v
Sample.v
UdbfsSpec.v
PersistSpec.v
MountSpec.v
MkTypes.v
MkFile.v
MkTable.v
Mkfs.v
MkWrite.v
MkClose.v
MkColumns.v
MkFormat.v
MkVolume.v
MkRun.v
MkSpec.v
Bimage.v
BimageSections.v
BimageSpec.v
Instboot.v
InstbootSpec.v
CSort.v
CSortProofs.v
CSortSpec.v
CAlloc.v
CHeap.v
CAllocSpec.v
CNumber.v
CNumberSpec.v
CTime.v
CTimeSpec.v
CString.v
CStringSpec.v
Md5.v
Md5Rfc.v
Md5Spec.v
Md5Crypt.v
Md5CryptSpec.v
CMemory.v
Xdr.v
XdrMemory.v
XdrCodec.v
XdrScalars.v
XdrStrings.v
XdrAggregates.v
XdrArrays.v
XdrTypes.v
XdrMem.v
XdrRec.v
XdrRecProofs.v
XdrSpec.v
Pmap.v
RpcMsg.v
RpcReply.v
RpcSpec.v
EvtTypes.v
Evt.v
EvtApi.v
EvtQueue.v
EvtSafe.v
EvtNext.v
EvtKeys.v
EvtSpec.v
CPrintf.v
CPrintfSpec.v
