(* ===== verification/Prelude.v ===== *)
(** * Unununium: the file system tools, the C library's core, the events

    A verification of the C programs and libraries of the Unununium
    operating system that carry logic of their own: the UDBFS library and
    its formatter, the boot image maker, the boot loader installer
    ([toolchain/]) and, of the C library ([uuu/lib/c/]), sorting, allocation,
    number conversion, strings, the calendar, pattern matching, password
    hashing and the external data representation with the messages of remote
    procedure calls; and of the graphics library ([snap/]) the event queue
    with its interrupt handlers.  This file is the prelude the others share: machine integers,
    the state monad, byte encodings, and generic lemmas and tactics.

    ** The program and its model

    A C function is a Gallina function in the monad [M S] of this file: it
    takes a state and gives [Ok] with a value and a state, [Exit] when the
    process ends, [Stuck] for undefined behaviour (a null, wild or freed
    pointer, an index out of bounds) or [NoFuel].  Integers are [Z], with the
    conversions [u8] ... [i64] written where C converts.  Bytes are [Z] from
    0 to 255, structures are records, a pointer to a structure with identity
    is an address in a [gmap] store or a [ptr].

    - [Posix.v]: the device behind a file descriptor and [malloc].  The
      classes [HasDevice] and [HasHeap] are the interface; the states of the
      library, the formatter and the image maker are its instances.

    UDBFS library, [toolchain/udbfslib/]:
    - [Bitmap.v]: [allocate_bit.c], [udbfslib_deallocate_bit];
      [LinkList.v]: [link.c], [unlink.c]; [UdbfsTypes.v]: [udbfs.h],
      [udbfslib.h], the state [world]; [BlockLoad.v]: block
      memory, loading and unloading of index blocks; [InodeBlocks.v]:
      [select_active_inode_block.c], extension in [write_to_inode.c];
      [InodeIO.v]: read, write, create, open, close; [Mount.v]: [mount.c].
    - [Layout.v], [Content.v], [Paths.v]: the abstract view.
      A [layout] is the tree of block numbers of a file, [ext_layout] the
      specification of its growth, [content] the bytes it holds on a device,
      [logical_path] the reference mapping from block numbers to slots.
    - [ExtendProofs.v], [Files.v], [Persist.v]: the refinement.  [file_ok]
      says an opened inode represents a layout on the device, [mount_ok] that
      a mount can create files, [disk_layout] that closed index trees are on
      the device.
    - [BitmapSpec.v], [UdbfsSpec.v], [PersistSpec.v], [MountSpec.v]: the
      contracts.  Writing overwrites the content at the cursor and leaves the
      other files alone, reading gives it back, closing and opening keep it,
      extension refines [ext_layout], block selection is [logical_path],
      mounting establishes the invariant; and the places where the code
      breaks its contract.

    Formatter, [toolchain/mkudbfs/]:
    - [MkTypes.v], [MkFile.v], [MkTable.v], [Mkfs.v]: the structures, files
      under construction, tables, [mkfs] and [main].
    - [MkWrite.v], [MkClose.v], [MkColumns.v]: bitmaps against
      the library's, the content of a file, its layout on the device, the
      sorting of columns.  [MkFormat.v], [MkVolume.v], [MkRun.v]: the
      invariant [fmt] of the formatter and the run from start to end.
    - [MkSpec.v]: the volume [mkfs] writes is one [udbfs_mount] of the
      library accepts, with the file invariant established: the two programs
      agree through the device alone.

    Image maker, [toolchain/mkuuubimage/]: [Bimage.v] is the program, with
    zlib as a parameter; [BimageSections.v] states what it relies on of zlib
    ([zlib_ok]), proves the compression loop and keeps the accounts behind
    [clean_level]; [BimageSpec.v] the image as a whole.

    Boot loader installer, [toolchain/udbfstools/]: [Instboot.v], a client of
    the library model, and [InstbootSpec.v].

    C library, [uuu/lib/c/lib/] and its neighbours: [CSort.v] ([qsort.c],
    [bsearch.c]) with [CSortProofs.v] and [CSortSpec.v];
    [CAlloc.v] ([alloc.c]) with [CHeap.v] (the invariant
    [heap_ok]) and [CAllocSpec.v]; [CNumber.v] ([strtoul.c], [strtol.c],
    [__lltostr.c]) with [CNumberSpec.v]; [CPrintf.v] ([__v_printf.c],
    [vsnprintf.c], [__ltostr.c]) with [CPrintfSpec.v] ([iso_text], what the
    standard says a format prints, that the code prints it for the directives
    of [directive_ok], and examples where it prints something else); [CTime.v] ([libugly/gmtime_r.c],
    [mktime.c], [timegm.c]) with [CTimeSpec.v]; [CString.v]
    ([libshell/fnmatch.c], [strlcpy.c], [strlcat.c]) with [CStringSpec.v];
    [Md5.v] and [Md5Crypt.v] ([libcrypt/md5.c], [md5crypt.c]), with [Md5Rfc.v]
    (RFC 1321 as a reference definition), [Md5Spec.v] and [Md5CryptSpec.v].

    External data representation, [uuu/lib/c/librpc/]:
    - [CMemory.v]: a memory of bytes and allocated blocks, and [splits], a
      memory as the union of disjoint pieces, for which the lemmas are kept
      modulo permutation.
    - [Xdr.v]: the filters of [xdr.c], [xdr_array.c] and [xdr_reference.c],
      over any stream (class [XdrOps], the operations vector of a handle) and
      any [Allocator].  [XdrMemory.v]: what a stream promises ([XdrStream]).
    - [XdrCodec.v]: a [codec] is a filter with the values it is for, their
      representation in memory and their encoding; [CodecOk] is its contract:
      encoding writes the encoding, decoding it gives the value back or was
      refused memory, decoding anything else leaves an object [xdr_free] can
      take.  [XdrScalars.v], [XdrStrings.v], [XdrAggregates.v] and
      [XdrArrays.v] are its instances, [XdrTypes.v] unions and the language of
      types they generate.
    - [XdrMem.v] ([xdr_mem.c]) and [XdrRec.v] ([xdr_rec.c]) are the streams;
      [XdrRecProofs.v] states the record-marking standard and shows that the
      buffers on both sides implement it.  [XdrSpec.v]: round trips over both streams, safety on
      arbitrary input, and records that arrive whatever the network does to
      the pieces.
    - [Pmap.v] ([pmap_prot.c], [pmap_prot2.c]), [RpcMsg.v] ([rpc_prot.c],
      [authunix_prot.c]) with [RpcReply.v] and [RpcSpec.v]:
      messages of the protocol and what a client makes of a reply.

    Event library, [snap/src/pm/], the DOS version:
    - [EvtTypes.v] ([snap/include/event.h], the table [EVT], the code page
      [codepage/us_eng.c]); [Evt.v] ([common/keyboard.c], [dos/event.c] and
      the static part of [gevent.c]: the queue and the handlers of keyboard
      and mouse); [EvtApi.v] (the functions of [gevent.c] that programs
      call).  An interrupt handler is a command like any other; the
      interrupts still to come are part of the state, and [interrupts] serves
      the next batch of them wherever the code runs with interrupts on: between
      two uses of the queue, and between any two statements of
      [initEventQueue] and of the [addKeyEvent] that [EVT_init] calls, whose
      definitions ([..._with]) take as an argument what happens there.
    - [EvtQueue.v]: the two lists threaded through one array ([queue_ok]) and
      the waiting events as a list ([pending]).  [EvtSafe.v]: what every
      handler and call keeps ([evt_ok]) and that later states have the events
      of earlier ones in front ([later]).  [EvtNext.v]: taking and awaiting
      events, starting, joystick, merging of mouse movements; [same_run]
      carries what holds with the interrupts off over to the points where they
      are on but none comes.  [EvtKeys.v]:
      the halving search of a code page against a search of all of it, keys
      from the scan code to the character.
    - [EvtSpec.v]: safety of calls and interrupts, under the conditions
      [starts] and [allowed], by induction on the states that can be reached,
      the event that is taken, the wait that ends, movements that add up,
      typed text that is read back, and the places where the library goes
      wrong without these conditions.

    ** Fuel and bounds

    A loop without a structural measure takes fuel.  Where a definition
    chooses it, the measure is in sight: the bytes left of a buffer, the
    number of structures in a store, the bits of a word; its theorem shows
    that the result is [Ok], so the fuel is enough.  [deflate_loop] takes fuel
    from its caller: more than the section's size and its compressed bound is
    enough.  [xdr_pmaplist] takes one more than the elements of the list, the
    loops of a record stream the bytes and pieces still to come.  The search
    of the event queue has the length of its array, that of a code page the
    length of the table; [EVT_halt] and [EVT_flush] wait for what others do
    and take fuel from their caller: for [EVT_halt] more than the number of
    events in front of one in its mask is enough.  Theorems about volumes assume blocks of 128 bytes to 2^18 and
    devices below 2^62 bytes; the formatter's are for 16 KB to 2 GB, the
    range its [int] counters allow.

    ** Hypotheses about what is not in the repository

    [zlib_ok]: what zlib's manual says of [deflateInit], [deflate],
    [deflateReset] and [deflateBound], for the calls it allows: after a call
    with [Z_FINISH] only that call again, with the input it left, until the end
    of the stream; an instance that keeps its input until then shows it can
    hold.
    [kernel_ready]: [mmap] gives unused pages or [MAP_FAILED].  [Allocator]:
    an allocation is refused or placed on bytes not in use, away from the end
    of the address space.  [filter_ok]: a user's event filter keeps the events
    that are changed while they wait, with their kind; without it the handlers
    change free spots of the queue.  The readings of clocks, joysticks and
    ports are any.  A comparison
    function passed to [qsort] or [bsearch] is a total preorder.

    ** Not modelled

    The kernel ([uuu/sys], [uuu/fs], [uuu/lib/hash], [uuu/lib/queue]) is x86
    assembly.  The rest of [snap/] is hardware access, driver loaders,
    operating-system bindings and generated headers; of the event library the
    versions for other systems and the calls of the mouse driver that change no
    state of the library.
    The rest of the C library
    is system-call glue, stdio, sockets, floating point and per-architecture
    assembly; of [printf] the directives f and g are left out, and an argument
    list has no floating-point values.  Of the remote procedure calls the
    message formats are modelled,
    the clients, servers and transports around them are socket calls.
    The table functions of the UDBFS library are stubs that return NULL or -1.
    Messages to [stderr] and [stdout] are left out of every state. *)
From stdpp Require Export base tactics numbers list gmap.
From Stdlib Require Export ZArith Lia.
#[global] Set Default Goal Selector "!".
Local Open Scope Z_scope.

(** ** Machine integers

    A C integer of width [w] is a [Z]; each function below is the conversion
    to that type, with its wrap-around. *)

Definition u8 (z : Z) : Z := z mod 2 ^ 8.
Definition u16 (z : Z) : Z := z mod 2 ^ 16.
Definition u32 (z : Z) : Z := z mod 2 ^ 32.
Definition u64 (z : Z) : Z := z mod 2 ^ 64.
Definition i32 (z : Z) : Z := (z + 2 ^ 31) mod 2 ^ 32 - 2 ^ 31.
Definition i64 (z : Z) : Z := (z + 2 ^ 63) mod 2 ^ 64 - 2 ^ 63.

(** ** Outcomes and the state monad

    A C function over a state [S] either returns a value and a new state,
    ends the process through [exit], runs into undefined behaviour (a null,
    wild or freed pointer is followed, an array is read out of bounds), or
    has used up the fuel of one of its loops. *)

Inductive result (S A : Type) : Type :=
| Ok (a : A) (s : S)
| Exit (code : Z) (s : S)
| Stuck
| NoFuel.
Arguments Ok {S A} a s.
Arguments Exit {S A} code s.
Arguments Stuck {S A}.
Arguments NoFuel {S A}.

Definition M (S A : Type) : Type := S → result S A.

#[export] Instance M_ret (S : Type) : MRet (M S) := λ A a s, Ok a s.
#[export] Instance M_bind (S : Type) : MBind (M S) := λ A B f c s,
  match c s with
  | Ok a s' => f a s'
  | Exit code s' => Exit code s'
  | Stuck => Stuck
  | NoFuel => NoFuel
  end.

Definition gets {S A : Type} (f : S → A) : M S A := λ s, Ok (f s) s.
Definition modify {S : Type} (f : S → S) : M S unit := λ s, Ok tt (f s).
Definition stuck {S A : Type} : M S A := λ _, Stuck.
Definition no_fuel {S A : Type} : M S A := λ _, NoFuel.
Definition exit_with {S A : Type} (code : Z) : M S A := λ s, Exit code s.

(** An access that is undefined when the option is [None]. *)
Definition deref {S A : Type} (o : option A) : M S A :=
  match o with Some a => mret a | None => stuck end.

(** ** Pointers to owned data

    A pointer field of a structure that owns its target: null, never
    initialised, or valid. *)

Inductive ptr (A : Type) : Type :=
| Null
| Wild
| Ptr (a : A).
Arguments Null {A}.
Arguments Wild {A}.
Arguments Ptr {A} a.

Definition load {S A : Type} (p : ptr A) : M S A :=
  match p with Ptr a => mret a | _ => stuck end.

(** [p == NULL]: comparing an indeterminate pointer is undefined. *)
Definition is_null {S A : Type} (p : ptr A) : M S bool :=
  match p with Null => mret true | Wild => stuck | Ptr _ => mret false end.

(** ** Little-endian encodings *)

Fixpoint le_bytes (n : nat) (z : Z) : list Z :=
  match n with
  | O => []
  | S n => z mod 256 :: le_bytes n (z / 256)
  end.

Fixpoint le_value (bs : list Z) : Z :=
  match bs with
  | [] => 0
  | b :: bs => b + 256 * le_value bs
  end.

(** Consecutive 64-bit words. *)
Definition le_words (ws : list Z) : list Z := ws ≫= le_bytes 8.

(** The 64-bit word at index [i] of a byte buffer. *)
Definition word_at (bs : list Z) (i : nat) : Z :=
  le_value (take 8 (drop (8 * i) bs)).

Definition byte_ok (b : Z) : Prop := 0 ≤ b < 256.

(** ** Lemmas: machine integers *)

Section wraps.
Implicit Types z : Z.

Lemma u8_small z : 0 ≤ z < 2 ^ 8 → u8 z = z.
Proof. apply Z.mod_small. Qed.
Lemma u16_small z : 0 ≤ z < 2 ^ 16 → u16 z = z.
Proof. apply Z.mod_small. Qed.
Lemma u32_small z : 0 ≤ z < 2 ^ 32 → u32 z = z.
Proof. apply Z.mod_small. Qed.
Lemma u64_small z : 0 ≤ z < 2 ^ 64 → u64 z = z.
Proof. apply Z.mod_small. Qed.
Lemma i32_small z : - 2 ^ 31 ≤ z < 2 ^ 31 → i32 z = z.
Proof. intros ?. unfold i32. rewrite Z.mod_small; lia. Qed.
Lemma i64_small z : - 2 ^ 63 ≤ z < 2 ^ 63 → i64 z = z.
Proof. intros ?. unfold i64. rewrite Z.mod_small; lia. Qed.

Lemma u8_range z : 0 ≤ u8 z < 2 ^ 8.
Proof. by apply Z.mod_pos_bound. Qed.
Lemma u32_range z : 0 ≤ u32 z < 2 ^ 32.
Proof. by apply Z.mod_pos_bound. Qed.
Lemma u64_range z : 0 ≤ u64 z < 2 ^ 64.
Proof. by apply Z.mod_pos_bound. Qed.
Lemma i32_range z : - 2 ^ 31 ≤ i32 z < 2 ^ 31.
Proof.
  unfold i32. pose proof (Z.mod_pos_bound (z + 2 ^ 31) (2 ^ 32)). lia.
Qed.

Lemma u32_i32 z : u32 (i32 z) = u32 z.
Proof. unfold u32, i32. rewrite Zminus_mod, Z.mod_mod, <- Zminus_mod by lia. f_equal. lia. Qed.
Lemma u64_i64 z : u64 (i64 z) = u64 z.
Proof. unfold u64, i64. rewrite Zminus_mod, Z.mod_mod, <- Zminus_mod by lia. f_equal. lia. Qed.
End wraps.

Create Rewrite HintDb cint.
#[export] Hint Rewrite u8_small u16_small u32_small u64_small i32_small i64_small
  using lia : cint.

(** Erase the wrap-arounds that linear arithmetic shows harmless. *)
Ltac wrap :=
  repeat first
    [ rewrite u64_small by lia | rewrite i32_small by lia
    | rewrite u32_small by lia | rewrite i64_small by lia
    | rewrite u8_small by lia | rewrite u16_small by lia ].

(** ** Lemmas: the monad *)

Section monad.
Context {S A B : Type}.

Lemma bind_ext (c : M S A) (f g : A → M S B) s : (∀ a s', f a s' = g a s') → (c ≫= f) s = (c ≫= g) s.
Proof. intros Hf. unfold mbind, M_bind. by destruct (c s). Qed.

Lemma bind_Ok (c : M S A) (f : A → M S B) s a s' :
  c s = Ok a s' → (c ≫= f) s = f a s'.
Proof. intros H. unfold mbind, M_bind. by rewrite H. Qed.

Lemma bind_Stuck (c : M S A) (f : A → M S B) s :
  c s = Stuck → (c ≫= f) s = Stuck.
Proof. intros H. unfold mbind, M_bind. by rewrite H. Qed.

Lemma bind_Ok_inv (c : M S A) (f : A → M S B) s b s'' :
  (c ≫= f) s = Ok b s'' → ∃ a s', c s = Ok a s' ∧ f a s' = Ok b s''.
Proof. unfold mbind, M_bind. destruct (c s); naive_solver. Qed.

Lemma bind_ret (a : A) (f : A → M S B) s : (mret a ≫= f) s = f a s.
Proof. done. Qed.
Lemma bind_gets (g : S → A) (f : A → M S B) s : (gets g ≫= f) s = f (g s) s.
Proof. done. Qed.
Lemma bind_modify (g : S → S) (f : unit → M S B) s :
  (modify g ≫= f) s = f tt (g s).
Proof. done. Qed.
Lemma bind_deref (a : A) (f : A → M S B) s : (deref (Some a) ≫= f) s = f a s.
Proof. done. Qed.
Lemma bind_load (a : A) (f : A → M S B) s : (load (Ptr a) ≫= f) s = f a s.
Proof. done. Qed.
End monad.

Lemma bind_assoc {S A B C} (c : M S A) (f : A → M S B) (g : B → M S C) s :
  ((c ≫= f) ≫= g) s = (c ≫= (λ a, f a ≫= g)) s.
Proof. unfold mbind, M_bind. by destruct (c s). Qed.

(** Run the head command of a monadic goal with an equation for it. *)
Ltac step_with H := rewrite (bind_Ok _ _ _ _ _ H).
Ltac steps :=
  repeat first
    [ rewrite bind_ret | rewrite bind_gets | rewrite bind_modify
    | rewrite bind_deref | rewrite bind_load ].

(** ** Lemmas: lists *)

Section lists.
Context {A : Type}.
Implicit Types l k : list A.

Lemma lookup_take_drop l o n i :
  (take n (drop o l)) !! i = if decide (i < n)%nat then l !! (o + i)%nat else None.
Proof.
  case_decide as Hi.
  - rewrite lookup_take_lt by lia. by rewrite lookup_drop.
  - apply lookup_take_ge. lia.
Qed.

Lemma drop_replicate_cons n (x : A) i :
  (i < n)%nat → drop i (replicate n x) = x :: replicate (n - S i) x.
Proof.
  intros Hi. rewrite drop_replicate.
  replace (n - i)%nat with (S (n - S i)) by lia. done.
Qed.

Lemma list_lookup_middle' l k x i :
  i = length l → (l ++ x :: k) !! i = Some x.
Proof. intros ->. by apply list_lookup_middle. Qed.

Lemma insert_app_here l k x y i :
  i = length l → <[i := y]> (l ++ x :: k) = l ++ y :: k.
Proof. intros ->. rewrite insert_app_r_alt by lia. by rewrite Nat.sub_diag. Qed.
End lists.

(** ** Lemmas: little-endian encodings *)

Lemma length_le_bytes n z : length (le_bytes n z) = n.
Proof. revert z; induction n as [|n IH]; intros z; simpl; [done|by rewrite IH]. Qed.

Lemma le_bytes_byte_ok n z : Forall byte_ok (le_bytes n z).
Proof.
  revert z; induction n as [|n IH]; intros z; simpl; constructor; [|done].
  unfold byte_ok. pose proof (Z.mod_pos_bound z 256). lia.
Qed.

Lemma le_value_bytes n z : le_value (le_bytes n z) = z mod 256 ^ Z.of_nat n.
Proof.
  revert z; induction n as [|n IH]; intros z; simpl le_bytes; simpl le_value.
  { by rewrite Z.mod_1_r. }
  rewrite IH, Nat2Z.inj_succ, Z.pow_succ_r by lia.
  rewrite Z.rem_mul_r; [lia|lia|]. apply Z.pow_pos_nonneg; lia.
Qed.

Lemma le_value_bytes_small n z :
  0 ≤ z < 256 ^ Z.of_nat n → le_value (le_bytes n z) = z.
Proof. intros Hz. rewrite le_value_bytes. by apply Z.mod_small. Qed.

Lemma le_value_bound bs :
  Forall byte_ok bs → 0 ≤ le_value bs < 256 ^ Z.of_nat (length bs).
Proof.
  induction 1 as [|b bs Hb _ IH]; simpl length; simpl le_value; [lia|].
  rewrite Nat2Z.inj_succ, Z.pow_succ_r by lia. unfold byte_ok in Hb. lia.
Qed.

Lemma le_bytes_value bs :
  Forall byte_ok bs → le_bytes (length bs) (le_value bs) = bs.
Proof.
  induction 1 as [|b bs Hb _ IH]; [done|]. simpl. unfold byte_ok in Hb. f_equal.
  - rewrite Z.mul_comm, Z.mod_add by lia. by apply Z.mod_small.
  - transitivity (le_bytes (length bs) (le_value bs)); [|done]. f_equal.
    rewrite Z.mul_comm, Z.div_add by lia. rewrite Z.div_small; lia.
Qed.

Lemma le_bytes_split n m z : le_bytes (n + m) z = le_bytes n z ++ le_bytes m (z / 256 ^ Z.of_nat n).
Proof.
  revert z; induction n as [|n IH]; intros z; cbn [Nat.add le_bytes app].
  { by rewrite Z.div_1_r. }
  rewrite IH. do 3 f_equal. rewrite Nat2Z.inj_succ, Z.pow_succ_r, Z.div_div by lia. done.
Qed.

Lemma le_bytes_mod n z : le_bytes n (z mod 256 ^ Z.of_nat n) = le_bytes n z.
Proof.
  rewrite <- le_value_bytes, <- (length_le_bytes n z) at 1. apply le_bytes_value, le_bytes_byte_ok.
Qed.

Lemma length_le_words ws : length (le_words ws) = (8 * length ws)%nat.
Proof.
  unfold le_words. induction ws as [|w ws IH]; [done|].
  rewrite bind_cons, length_app, length_le_bytes, IH. simpl. lia.
Qed.

Lemma le_words_app ws vs : le_words (ws ++ vs) = le_words ws ++ le_words vs.
Proof. apply bind_app. Qed.

Lemma word_at_le_words ws rest i w :
  ws !! i = Some w → 0 ≤ w < 2 ^ 64 → word_at (le_words ws ++ rest) i = w.
Proof.
  intros Hi Hw. unfold word_at.
  rewrite <- (take_drop_middle ws i w Hi), le_words_app.
  pose proof (lookup_lt_Some _ _ _ Hi).
  rewrite <- app_assoc, drop_app_length'.
  2:{ rewrite length_le_words, length_take. lia. }
  unfold le_words. rewrite bind_cons, <- app_assoc, take_app_length'.
  2:{ by rewrite length_le_bytes. }
  by apply le_value_bytes_small.
Qed.
