(* ===== verification/Posix.v ===== *)
(** * The block device and the allocator, as the programs use them

    Both formatters and the UDBFS library reach the disk through a file
    descriptor ([lseek], [read], [write], [close]) and memory through
    [malloc].  A device is a fixed-size array of bytes with a file position.
    Whether an allocation succeeds is decided by an oracle kept in the
    state: a list of answers, success once it is used up.

    The classes [HasDevice] and [HasHeap] are the interface: a component
    whose state holds a device, an allocator oracle, gets the operations and
    their laws. *)
From S2P Require Import Prelude.
Local Open Scope Z_scope.

(** ** Devices *)

Record device : Type := Device {
  d_bytes : list Z;
  d_pos : Z;
  d_open : bool
}.

(** Overwrite the bytes of [l] from offset [off]; never extends [l]. *)
Definition dsplice (off : Z) (bs l : list Z) : list Z :=
  take (Z.to_nat off) l ++ take (length l - Z.to_nat off) bs
    ++ drop (Z.to_nat off + length bs) l.

Definition dread (l : list Z) (off n : Z) : list Z :=
  take (Z.to_nat n) (drop (Z.to_nat off) l).

Definition byte_at (l : list Z) (p : Z) : option Z := l !! Z.to_nat p.

Definition zlen (l : list Z) : Z := Z.of_nat (length l).

(** [lseek(fd, off, SEEK_SET)]: the new position, or -1. *)
Definition sys_lseek (off : Z) (d : device) : Z * device :=
  let off := i64 off in
  if d_open d && (0 <=? off)
  then (off, Device (d_bytes d) off (d_open d))
  else (-1, d).

(** [read(fd, buf, n)]: the count and the bytes read. *)
Definition sys_read (n : Z) (d : device) : Z * list Z * device :=
  if d_open d then
    let bs := dread (d_bytes d) (d_pos d) n in
    (zlen bs, bs, Device (d_bytes d) (d_pos d + zlen bs) true)
  else (-1, [], d).

(** [write(fd, bs, n)]: the count; nothing is written past the end. *)
Definition sys_write (bs : list Z) (d : device) : Z * device :=
  if d_open d then
    let room := Z.max 0 (zlen (d_bytes d) - d_pos d) in
    let k := Z.min (zlen bs) room in
    if (k =? 0) && (0 <? zlen bs) then (-1, d)
    else (k, Device (dsplice (d_pos d) bs (d_bytes d)) (d_pos d + k) true)
  else (-1, d).

Definition sys_close (d : device) : device := Device (d_bytes d) (d_pos d) false.

(** ** Interfaces *)

Class HasDevice (S : Type) := {
  get_dev : S → device;
  put_dev : device → S → S;
  get_put_dev d s : get_dev (put_dev d s) = d;
  put_get_dev s : put_dev (get_dev s) s = s;
  put_put_dev d d' s : put_dev d (put_dev d' s) = put_dev d s
}.

Class HasHeap (S : Type) := {
  get_mallocs : S → list bool;
  put_mallocs : list bool → S → S
}.

Section operations.
Context {S : Type} `{HasDevice S} `{HasHeap S}.

Definition lseek (off : Z) : M S Z := λ s,
  let '(r, d) := sys_lseek off (get_dev s) in Ok r (put_dev d s).

Definition read (n : Z) : M S (Z * list Z) := λ s,
  let '(r, bs, d) := sys_read n (get_dev s) in Ok (r, bs) (put_dev d s).

Definition write (bs : list Z) : M S Z := λ s,
  let '(r, d) := sys_write bs (get_dev s) in Ok r (put_dev d s).

Definition close_fd : M S unit :=
  modify (λ s, put_dev (sys_close (get_dev s)) s).

(** [(lseek(fd, off, SEEK_SET) != off) || (read(fd, buf, n) != n)], the
    error test of the sources; [None] is the error. *)
Definition read_at (off n : Z) : M S (option (list Z)) :=
  pos ← lseek off;
  if u64 pos =? u64 off then
    r ← read n;
    mret (if u64 r.1 =? u64 n then Some r.2 else None)
  else mret None.

(** [(lseek(fd, off, SEEK_SET) != off) || (write(fd, bs, n) != n)];
    [false] is the error. *)
Definition write_at (off : Z) (bs : list Z) : M S bool :=
  pos ← lseek off;
  if u64 pos =? u64 off then
    r ← write bs;
    mret (u64 r =? u64 (zlen bs))
  else mret false.

(** [malloc(n) != NULL] *)
Definition malloc : M S bool := λ s,
  match get_mallocs s with
  | [] => Ok true s
  | b :: bs => Ok b (put_mallocs bs s)
  end.
End operations.

(** ** Byte-array lemmas *)

Section bytes.
Implicit Types l bs : list Z.

Lemma zlen_nonneg l : 0 ≤ zlen l.
Proof. unfold zlen. lia. Qed.

Lemma zlen_app l bs : zlen (l ++ bs) = zlen l + zlen bs.
Proof. unfold zlen. rewrite length_app. lia. Qed.

Lemma length_dsplice off bs l : length (dsplice off bs l) = length l.
Proof.
  unfold dsplice. rewrite !length_app, !length_take, length_drop. lia.
Qed.

Lemma zlen_dsplice off bs l : zlen (dsplice off bs l) = zlen l.
Proof. unfold zlen. by rewrite length_dsplice. Qed.

Lemma dsplice_nil off l : dsplice off [] l = l.
Proof.
  unfold dsplice. rewrite take_nil. simpl.
  rewrite Nat.add_0_r. apply take_drop.
Qed.

Lemma byte_at_dsplice_in off bs l p :
  0 ≤ off → off ≤ p < off + zlen bs → off + zlen bs ≤ zlen l →
  byte_at (dsplice off bs l) p = bs !! Z.to_nat (p - off).
Proof.
  unfold byte_at, dsplice, zlen. intros Hoff Hp Hl.
  rewrite lookup_app_r; rewrite length_take; [|lia].
  rewrite lookup_app_l; [|rewrite length_take; lia].
  rewrite lookup_take_lt by lia. f_equal. lia.
Qed.

Lemma byte_at_dsplice_out off bs l p :
  0 ≤ off → 0 ≤ p → p < off ∨ off + zlen bs ≤ p →
  byte_at (dsplice off bs l) p = byte_at l p.
Proof.
  unfold byte_at, dsplice, zlen. intros Hoff Hp Ho.
  destruct (decide (length l ≤ Z.to_nat p)%nat) as [Hge|Hlt].
  { rewrite !lookup_ge_None_2; [done|lia|].
    rewrite !length_app, !length_take, length_drop. lia. }
  destruct Ho as [Ho|Ho].
  - rewrite lookup_app_l by (rewrite length_take; lia).
    by rewrite lookup_take_lt by lia.
  - rewrite lookup_app_r; rewrite length_take; [|lia].
    rewrite lookup_app_r; rewrite length_take; [|lia].
    rewrite lookup_drop. f_equal. lia.
Qed.

Lemma lookup_dread l off n i :
  0 ≤ off → (i < Z.to_nat n)%nat →
  dread l off n !! i = byte_at l (off + Z.of_nat i).
Proof.
  intros Hoff Hi. unfold dread, byte_at.
  rewrite lookup_take_drop, decide_True by done. f_equal. lia.
Qed.

Lemma length_dread l off n :
  0 ≤ off → 0 ≤ n → off + n ≤ zlen l → length (dread l off n) = Z.to_nat n.
Proof.
  unfold zlen, dread. intros. rewrite length_take, length_drop. lia.
Qed.

Lemma zlen_dread l off n :
  0 ≤ off → 0 ≤ n → off + n ≤ zlen l → zlen (dread l off n) = n.
Proof. intros. unfold zlen. rewrite length_dread; lia. Qed.

Lemma dread_ext l l' off n :
  0 ≤ off → length l = length l' →
  (∀ p, off ≤ p < off + n → byte_at l p = byte_at l' p) →
  dread l off n = dread l' off n.
Proof.
  intros Hoff Hlen Heq. apply list_eq. intros i.
  destruct (decide (i < Z.to_nat n)%nat) as [Hi|Hi].
  - rewrite !lookup_dread by done. apply Heq. lia.
  - unfold dread. rewrite !lookup_take_ge by lia. done.
Qed.

Lemma dread_dsplice_same off bs l :
  0 ≤ off → off + zlen bs ≤ zlen l →
  dread (dsplice off bs l) off (zlen bs) = bs.
Proof.
  intros Hoff Hl. apply list_eq. intros i.
  destruct (decide (i < length bs)%nat) as [Hi|Hi].
  - rewrite lookup_dread by (unfold zlen; lia).
    rewrite byte_at_dsplice_in by (unfold zlen in *; lia). f_equal. lia.
  - unfold dread. rewrite lookup_take_ge by (unfold zlen; lia).
    symmetry. apply lookup_ge_None_2. lia.
Qed.

Lemma dread_dsplice_disjoint off bs l o n :
  0 ≤ off → 0 ≤ o → o + n ≤ off ∨ off + zlen bs ≤ o →
  dread (dsplice off bs l) o n = dread l o n.
Proof.
  intros Hoff Ho Hd. apply dread_ext; [done|apply length_dsplice|].
  intros p Hp. apply byte_at_dsplice_out; lia.
Qed.

Lemma dread_app l off n m :
  0 ≤ off → 0 ≤ n → 0 ≤ m →
  dread l off (n + m) = dread l off n ++ dread l (off + n) m.
Proof.
  intros. unfold dread. rewrite !Z2Nat.inj_add by lia.
  rewrite <- drop_drop, <- take_take_drop. done.
Qed.

Lemma dread_all l : dread l 0 (zlen l) = l.
Proof. unfold dread, zlen. simpl. rewrite Nat2Z.id. by apply take_ge. Qed.
End bytes.

(** ** Laws of the operations *)

Section laws.
Context {S : Type} `{HasDevice S} `{HasHeap S}.
Implicit Types s : S.

Lemma malloc_ok s : get_mallocs s = [] → malloc s = Ok true s.
Proof. intros Hm. unfold malloc. by rewrite Hm. Qed.

(** Positions that [off_t] can hold. *)
Definition dev_ok (d : device) : Prop :=
  d_open d = true ∧ zlen (d_bytes d) < 2 ^ 62.

Lemma lseek_ok off s :
  dev_ok (get_dev s) → 0 ≤ off ≤ 2 ^ 62 →
  lseek off s = Ok off (put_dev (Device (d_bytes (get_dev s)) off true) s).
Proof.
  intros [Ho _] Hoff. unfold lseek, sys_lseek. wrap. rewrite Ho.
  replace (0 <=? off) with true by lia. done.
Qed.

Lemma read_at_ok off n s :
  dev_ok (get_dev s) → 0 ≤ off → 0 ≤ n →
  off + n ≤ zlen (d_bytes (get_dev s)) →
  read_at off n s =
    Ok (Some (dread (d_bytes (get_dev s)) off n))
       (put_dev (Device (d_bytes (get_dev s)) (off + n) true) s).
Proof.
  intros Hd Hoff Hn Hl. pose proof Hd as [Ho Hz].
  unfold read_at. step_with (lseek_ok off s Hd ltac:(lia)). rewrite Z.eqb_refl.
  unfold mbind, M_bind, read, sys_read. rewrite get_put_dev. simpl.
  rewrite put_put_dev, zlen_dread, Z.eqb_refl by done. done.
Qed.

Lemma read_at_short off n s :
  dev_ok (get_dev s) → 0 ≤ off ≤ 2 ^ 62 → 0 ≤ n < 2 ^ 63 →
  zlen (d_bytes (get_dev s)) < off + n → 0 < n →
  ∃ p, read_at off n s =
    Ok None (put_dev (Device (d_bytes (get_dev s)) p true) s).
Proof.
  intros Hd Hoff Hn Hl Hn0. pose proof Hd as [Ho Hz].
  unfold read_at. step_with (lseek_ok off s Hd ltac:(lia)). rewrite Z.eqb_refl.
  unfold mbind, M_bind, read, sys_read. rewrite get_put_dev. simpl.
  rewrite put_put_dev. eexists.
  assert (zlen (dread (d_bytes (get_dev s)) off n) < n).
  { unfold zlen, dread in *. rewrite length_take, length_drop. lia. }
  pose proof (zlen_nonneg (dread (d_bytes (get_dev s)) off n)).
  wrap. replace (_ =? n) with false by lia. done.
Qed.

Lemma write_at_ok off bs s :
  dev_ok (get_dev s) → 0 ≤ off →
  off + zlen bs ≤ zlen (d_bytes (get_dev s)) →
  write_at off bs s =
    Ok true (put_dev (Device (dsplice off bs (d_bytes (get_dev s)))
                             (off + zlen bs) true) s).
Proof.
  intros Hd Hoff Hl. pose proof Hd as [Ho Hz]. pose proof (zlen_nonneg bs).
  unfold write_at. step_with (lseek_ok off s Hd ltac:(lia)). rewrite Z.eqb_refl.
  unfold mbind, M_bind, write, sys_write. rewrite get_put_dev. simpl.
  rewrite Z.min_l by lia.
  replace ((zlen bs =? 0) && (0 <? zlen bs)) with false by lia.
  rewrite put_put_dev, Z.eqb_refl. done.
Qed.

Lemma write_ok bs s :
  dev_ok (get_dev s) → 0 ≤ d_pos (get_dev s) →
  d_pos (get_dev s) + zlen bs ≤ zlen (d_bytes (get_dev s)) →
  write bs s =
    Ok (zlen bs) (put_dev (Device (dsplice (d_pos (get_dev s)) bs (d_bytes (get_dev s)))
                             (d_pos (get_dev s) + zlen bs) true) s).
Proof.
  intros [Ho Hz] Hp Hl. pose proof (zlen_nonneg bs).
  unfold write, sys_write. rewrite Ho, Z.min_l by lia.
  by replace ((zlen bs =? 0) && (0 <? zlen bs)) with false by lia.
Qed.

(** Nothing is read or written through a closed descriptor. *)
Lemma write_at_closed off bs s :
  d_open (get_dev s) = false → 0 ≤ off < 2 ^ 63 →
  write_at off bs s = Ok false s.
Proof.
  intros Hc Hoff. unfold write_at, lseek, sys_lseek, mbind, M_bind.
  rewrite Hc. cbn [andb]. rewrite put_get_dev.
  assert ((u64 (-1) =? u64 off) = false) as ->; [|done].
  replace (u64 (-1)) with (2 ^ 64 - 1) by done. wrap. lia.
Qed.
End laws.

Create HintDb device.
#[export] Hint Resolve zlen_nonneg length_dsplice zlen_dsplice : device.
