(* ===== verification/Bitmap.v ===== *)
(** * Allocation bitmaps of UDBFS

    [udbfslib/allocate_bit.c] and the static [udbfslib_deallocate_bit] of
    [udbfslib/free_inode.c].  A bitmap is an array of bytes in which a set
    bit is a free block (or inode).  The abstraction of a bitmap is
    [free_bits], the increasing list of the free numbers: allocation takes
    its head. *)
From S2P Require Import Prelude Posix.
Local Open Scope Z_scope.

(** ** Operations *)

(** [while( (byte < bitmap_size) && (bitmap[byte] == 0) ) byte++;]
    [None]: the array ends before [bitmap_size]. *)
Fixpoint scan_bytes (fuel : nat) (bitmap : list Z) (bitmap_size byte : Z) : option Z :=
  match fuel with
  | O => Some byte
  | S fuel =>
      if byte <? bitmap_size then
        match bitmap !! Z.to_nat byte with
        | None => None
        | Some v => if v =? 0 then scan_bytes fuel bitmap bitmap_size (byte + 1)
                    else Some byte
        end
      else Some byte
  end.

(** [while( ((1<<bit) & bitmap[byte]) == 0x00 ) bit++;] *)
Fixpoint scan_bits (fuel : nat) (v bit : Z) : Z :=
  match fuel with
  | O => bit
  | S fuel => if Z.land (Z.shiftl 1 bit) v =? 0 then scan_bits fuel v (bit + 1) else bit
  end.

(** The result, the new bitmap and the new free count. *)
Definition udbfslib_allocate_bit (bitmap : list Z) (bitmap_size free_count : Z)
    : option (Z * list Z * Z) :=
  if u64 (Z.shiftl bitmap_size 3) <? free_count then Some (0, bitmap, free_count)
  else if free_count =? 0 then Some (0, bitmap, free_count)
  else
    byte ← scan_bytes (S (Z.to_nat bitmap_size)) bitmap bitmap_size 0;
    if byte =? bitmap_size then Some (0, bitmap, free_count)
    else
      v ← bitmap !! Z.to_nat byte;
      let bit := scan_bits 8 v 0 in
      Some (u64 (Z.shiftl byte 3 + bit),
            <[Z.to_nat byte := u8 (Z.lxor v (Z.shiftl 1 bit))]> bitmap,
            u64 (free_count - 1)).

(** The return code, the new bitmap and the new free count. *)
Definition udbfslib_deallocate_bit (bitmap : list Z) (bitmap_size free_count bit_id : Z)
    : option (Z * list Z * Z) :=
  if u64 (Z.shiftl bitmap_size 3) <? u64 (free_count + 1) then Some (-1, bitmap, free_count)
  else
    let byte := Z.shiftr bit_id 3 in
    let bit := u8 (Z.land bit_id 3) in
    v ← bitmap !! Z.to_nat byte;
    if negb (Z.land v (Z.shiftl 1 bit) =? 0) then Some (-1, bitmap, free_count)
    else Some (0, <[Z.to_nat byte := u8 (Z.lor v (Z.shiftl 1 bit))]> bitmap, free_count).

(** ** Abstraction *)

Definition bit_set (bitmap : list Z) (i : Z) : bool :=
  match bitmap !! Z.to_nat (i / 8) with
  | Some v => Z.testbit v (i mod 8)
  | None => false
  end.

Definition free_bits (bitmap : list Z) : list Z :=
  filter (λ i, bit_set bitmap i = true) (seqZ 0 (8 * zlen bitmap)).

Definition bitmap_ok (bitmap : list Z) : Prop :=
  Forall byte_ok bitmap ∧ zlen bitmap < 2 ^ 56.

(** ** Bits of a byte *)

Lemma byte_testbit_high v k : byte_ok v → 8 ≤ k → Z.testbit v k = false.
Proof.
  intros Hv Hk. destruct (decide (v = 0)) as [->|]; [apply Z.testbit_0_l|].
  unfold byte_ok in Hv. apply Z.bits_above_log2; [lia|].
  apply Z.log2_lt_pow2; [lia|].
  apply Z.lt_le_trans with (2 ^ 8); [lia|]. apply Z.pow_le_mono_r; lia.
Qed.

Lemma byte_ok_testbit v :
  (∀ k, 8 ≤ k → Z.testbit v k = false) → 0 ≤ v → byte_ok v.
Proof.
  intros Hk Hv. unfold byte_ok. split; [done|].
  destruct (decide (v = 0)); [lia|].
  change 256 with (2 ^ 8). apply Z.log2_lt_pow2; [lia|].
  destruct (decide (Z.log2 v < 8)) as [|Hge]; [done|].
  pose proof (Z.bit_log2 v ltac:(lia)) as Hb. rewrite Hk in Hb by lia. done.
Qed.

Lemma byte_nonzero_bit v : byte_ok v → v ≠ 0 → ∃ k, 0 ≤ k < 8 ∧ Z.testbit v k = true.
Proof.
  unfold byte_ok. intros Hv Hnz. exists (Z.log2 v). split.
  - split; [apply Z.log2_nonneg|]. apply Z.log2_lt_pow2; lia.
  - apply Z.bit_log2. lia.
Qed.

Lemma land_bit_zero v k : 0 ≤ k → (Z.land (Z.shiftl 1 k) v =? 0) = negb (Z.testbit v k).
Proof.
  intros Hk. rewrite Z.shiftl_1_l.
  destruct (Z.testbit v k) eqn:E; simpl.
  - apply Z.eqb_neq. intros H0.
    assert (Z.testbit (Z.land (2 ^ k) v) k = false) as Hf by (rewrite H0; apply Z.testbit_0_l).
    rewrite Z.land_spec, E, Z.pow2_bits_true in Hf by done. done.
  - apply Z.eqb_eq. apply Z.bits_inj_0. intros n. rewrite Z.land_spec.
    destruct (decide (n = k)) as [->|Hn]; [by rewrite E, andb_false_r|].
    by rewrite Z.pow2_bits_false by congruence.
Qed.

Lemma lxor_bit v k n :
  0 ≤ k → Z.testbit v k = true →
  Z.testbit (Z.lxor v (Z.shiftl 1 k)) n = bool_decide (n ≠ k) && Z.testbit v n.
Proof.
  intros Hk Hb. rewrite Z.lxor_spec, Z.shiftl_1_l. case_bool_decide as Hn; simpl.
  - rewrite Z.pow2_bits_false by congruence. by rewrite xorb_false_r.
  - assert (n = k) as -> by (destruct (decide (n = k)); naive_solver).
    by rewrite Hb, Z.pow2_bits_true.
Qed.

Lemma lor_bit v k n :
  0 ≤ k →
  Z.testbit (Z.lor v (Z.shiftl 1 k)) n = bool_decide (n = k) || Z.testbit v n.
Proof.
  intros Hk. rewrite Z.lor_spec, Z.shiftl_1_l, orb_comm. f_equal.
  case_bool_decide as Hn; [subst; by apply Z.pow2_bits_true|].
  apply Z.pow2_bits_false. congruence.
Qed.

Lemma byte_ok_lxor v k :
  byte_ok v → 0 ≤ k < 8 → Z.testbit v k = true → byte_ok (Z.lxor v (Z.shiftl 1 k)).
Proof.
  intros Hv Hk Hb. apply byte_ok_testbit.
  - intros n Hn. rewrite lxor_bit by (done || lia).
    rewrite byte_testbit_high by done. apply andb_false_r.
  - unfold byte_ok in Hv. apply Z.lxor_nonneg. rewrite Z.shiftl_1_l.
    pose proof (Z.pow_pos_nonneg 2 k). lia.
Qed.

Lemma byte_ok_lor v k :
  byte_ok v → 0 ≤ k < 8 → byte_ok (Z.lor v (Z.shiftl 1 k)).
Proof.
  intros Hv Hk. apply byte_ok_testbit.
  - intros n Hn. rewrite lor_bit by lia.
    rewrite byte_testbit_high, bool_decide_eq_false_2 by (done || lia). done.
  - unfold byte_ok in Hv. apply Z.lor_nonneg. rewrite Z.shiftl_1_l.
    pose proof (Z.pow_pos_nonneg 2 k). lia.
Qed.

(** ** The scanning loops *)

(** Enough fuel: the loop stops at the first non-zero byte, or at the end. *)
Lemma scan_bytes_spec fuel bitmap b :
  0 ≤ b ≤ zlen bitmap → zlen bitmap - b < Z.of_nat fuel →
  ∃ b', scan_bytes fuel bitmap (zlen bitmap) b = Some b' ∧
    b ≤ b' ≤ zlen bitmap ∧
    (∀ k, b ≤ k < b' → bitmap !! Z.to_nat k = Some 0) ∧
    (b' = zlen bitmap ∨ ∃ v, bitmap !! Z.to_nat b' = Some v ∧ v ≠ 0).
Proof.
  revert b; induction fuel as [|fuel IH]; intros b Hb Hf; [lia|]. simpl.
  destruct (b <? zlen bitmap) eqn:Hlt.
  - destruct (bitmap !! Z.to_nat b) as [v|] eqn:Hv.
    2:{ apply lookup_ge_None in Hv. unfold zlen in *. lia. }
    destruct (v =? 0) eqn:Hv0.
    + apply Z.eqb_eq in Hv0 as ->.
      destruct (IH (b + 1)) as (b' & -> & Hr & Hz & He); [lia|lia|].
      exists b'. split; [done|]. split; [lia|]. split; [|done].
      intros k Hk. destruct (decide (k = b)) as [->|]; [done|]. apply Hz. lia.
    + exists b. split_and!; [done|lia|lia|lia|].
      right. exists v. split; [done|lia].
  - exists b. split_and!; [done|lia|lia|lia|]. left. lia.
Qed.

Lemma scan_bits_spec fuel v b :
  0 ≤ b → (∃ k, b ≤ k < b + Z.of_nat fuel ∧ Z.testbit v k = true) →
  b ≤ scan_bits fuel v b < b + Z.of_nat fuel ∧
  Z.testbit v (scan_bits fuel v b) = true ∧
  ∀ k, b ≤ k < scan_bits fuel v b → Z.testbit v k = false.
Proof.
  revert b; induction fuel as [|fuel IH]; intros b Hb (k & Hk & Hv); [lia|].
  simpl. rewrite land_bit_zero by done.
  destruct (Z.testbit v b) eqn:E; simpl; [split_and!; (done || lia)|].
  destruct (IH (b + 1)) as (H1 & H2 & H3); [lia| |].
  { exists k. split; [|done]. destruct (decide (k = b)); [congruence|lia]. }
  split_and!; [lia|lia|done|]. intros j Hj.
  destruct (decide (j = b)) as [->|]; [done|]. apply H3. lia.
Qed.

(** ** Allocation *)

Lemma bit_set_split bitmap byte bit :
  0 ≤ bit < 8 → 0 ≤ byte →
  bit_set bitmap (8 * byte + bit) =
    match bitmap !! Z.to_nat byte with Some v => Z.testbit v bit | None => false end.
Proof.
  intros Hbit Hb. unfold bit_set.
  replace ((8 * byte + bit) / 8) with byte by (Z.div_mod_to_equations; lia).
  by replace ((8 * byte + bit) mod 8) with bit by (Z.div_mod_to_equations; lia).
Qed.

Lemma elem_of_free_bits bitmap i :
  i ∈ free_bits bitmap ↔ bit_set bitmap i = true ∧ 0 ≤ i < 8 * zlen bitmap.
Proof. unfold free_bits. rewrite list_elem_of_filter, elem_of_seqZ. naive_solver lia. Qed.

Lemma NoDup_free_bits bitmap : NoDup (free_bits bitmap).
Proof. unfold free_bits. apply NoDup_filter, NoDup_seqZ. Qed.

Lemma bit_set_range bitmap i :
  0 ≤ i → bit_set bitmap i = true → i < 8 * zlen bitmap.
Proof.
  intros Hi. unfold bit_set.
  destruct (bitmap !! _) as [v|] eqn:Hv; [|done]. intros _.
  apply lookup_lt_Some in Hv. unfold zlen. Z.div_mod_to_equations. lia.
Qed.

Lemma filter_none {A} (P : A → Prop) `{!∀ x, Decision (P x)} (l : list A) :
  (∀ x, x ∈ l → ¬ P x) → filter P l = [].
Proof.
  induction l as [|x l IH]; intros Hn; [done|].
  rewrite filter_cons_False by (apply Hn; left). apply IH. intros y Hy. apply Hn. by right.
Qed.

Lemma filter_ext_in {A} (P Q : A → Prop) `{!∀ x, Decision (P x)} `{!∀ x, Decision (Q x)} (l : list A) :
  (∀ x, x ∈ l → P x ↔ Q x) → filter P l = filter Q l.
Proof.
  induction l as [|x l IH]; intros He; [done|].
  assert (filter P l = filter Q l) as IH' by (apply IH; intros y Hy; apply He; by right).
  assert (P x ↔ Q x) as Hx by (apply He; left).
  destruct (decide (P x)).
  - rewrite !filter_cons_True by tauto. by rewrite IH'.
  - rewrite !filter_cons_False by tauto. done.
Qed.

(** Removing the least free number. *)
Lemma free_bits_clear bitmap bitmap' i :
  0 ≤ i → bit_set bitmap i = true → (∀ j, 0 ≤ j < i → bit_set bitmap j = false) →
  length bitmap' = length bitmap →
  (∀ j, 0 ≤ j → bit_set bitmap' j = bool_decide (j ≠ i) && bit_set bitmap j) →
  free_bits bitmap = i :: free_bits bitmap'.
Proof.
  intros Hi Hset Hlow Hlen Hnew.
  pose proof (bit_set_range _ _ Hi Hset) as Hr.
  assert (seqZ 0 (8 * zlen bitmap) =
    seqZ 0 i ++ i :: seqZ (i + 1) (8 * zlen bitmap - i - 1)) as Hseq.
  { replace (8 * zlen bitmap) with (i + (8 * zlen bitmap - i)) at 1 by lia.
    rewrite seqZ_app by lia. f_equal. rewrite Z.add_0_l, seqZ_cons by lia.
    f_equal; f_equal; lia. }
  unfold free_bits. unfold zlen in *. rewrite Hlen, Hseq, !filter_app.
  rewrite filter_none, filter_cons_True by
    (try done; intros j Hj%elem_of_seqZ; rewrite Hlow by lia; done).
  rewrite (filter_none _ (seqZ 0 i)), filter_cons_False.
  - simpl. f_equal. apply filter_ext_in. intros j Hj%elem_of_seqZ.
    rewrite Hnew by lia. by rewrite bool_decide_eq_true_2 by lia.
  - rewrite Hnew by lia. by rewrite bool_decide_eq_false_2 by lia.
  - intros j Hj%elem_of_seqZ. rewrite Hnew, Hlow by lia. by rewrite andb_false_r.
Qed.

Section update.
Context (bitmap : list Z) (byte bit v : Z).
Hypothesis Hv : bitmap !! Z.to_nat byte = Some v.
Hypothesis Hbyte : 0 ≤ byte.
Hypothesis Hbit : 0 ≤ bit < 8.

Lemma bit_set_update f j :
  0 ≤ j →
  bit_set (<[Z.to_nat byte := f]> bitmap) j =
    if decide (j / 8 = byte) then Z.testbit f (j mod 8) else bit_set bitmap j.
Proof using Hv Hbyte.
  intros Hj. unfold bit_set. pose proof (Z.div_pos j 8).
  case_decide as Hd.
  - rewrite Hd, list_lookup_insert_eq; [done|]. by eapply lookup_lt_Some.
  - rewrite list_lookup_insert_ne by lia. done.
Qed.

Lemma bit_set_lxor j :
  0 ≤ j → Z.testbit v bit = true →
  bit_set (<[Z.to_nat byte := Z.lxor v (Z.shiftl 1 bit)]> bitmap) j =
    bool_decide (j ≠ 8 * byte + bit) && bit_set bitmap j.
Proof using Hv Hbyte Hbit.
  intros Hj Ht. rewrite bit_set_update by done. case_decide as Hd.
  - rewrite lxor_bit by (done || lia). unfold bit_set. rewrite Hd, Hv. f_equal.
    apply bool_decide_ext. Z.div_mod_to_equations. lia.
  - rewrite bool_decide_eq_true_2; [done|]. Z.div_mod_to_equations. lia.
Qed.

Lemma bit_set_lor j :
  0 ≤ j →
  bit_set (<[Z.to_nat byte := Z.lor v (Z.shiftl 1 bit)]> bitmap) j =
    bool_decide (j = 8 * byte + bit) || bit_set bitmap j.
Proof using Hv Hbyte Hbit.
  intros Hj. rewrite bit_set_update by done. case_decide as Hd.
  - rewrite lor_bit by lia. unfold bit_set. rewrite Hd, Hv. f_equal.
    apply bool_decide_ext. Z.div_mod_to_equations. lia.
  - rewrite bool_decide_eq_false_2; [done|]. Z.div_mod_to_equations. lia.
Qed.
End update.

Lemma length_free_bits bitmap : zlen (free_bits bitmap) ≤ 8 * zlen bitmap.
Proof.
  unfold free_bits, zlen.
  pose proof (length_filter (λ i, bit_set bitmap i = true) (seqZ 0 (8 * zlen bitmap))) as Hl.
  rewrite length_seqZ in Hl. unfold zlen in Hl. lia.
Qed.

Section allocate.
Context (bitmap : list Z) (free_count : Z).
Hypothesis Hok : bitmap_ok bitmap.

Local Abbreviation size := (zlen bitmap).

Lemma size_shift : u64 (Z.shiftl size 3) = 8 * size.
Proof using Hok.
  destruct Hok as [_ Hz]. pose proof (zlen_nonneg bitmap).
  rewrite Z.shiftl_mul_pow2 by lia. wrap. lia.
Qed.

(** A count above the capacity of the bitmap is reported as a failure. *)
Lemma allocate_bit_overcount :
  8 * size < free_count →
  udbfslib_allocate_bit bitmap size free_count = Some (0, bitmap, free_count).
Proof using Hok.
  intros Hf. unfold udbfslib_allocate_bit. rewrite size_shift.
  by replace (8 * size <? free_count) with true by lia.
Qed.

Lemma allocate_bit_exhausted :
  udbfslib_allocate_bit bitmap size 0 = Some (0, bitmap, 0).
Proof using Hok.
  unfold udbfslib_allocate_bit. rewrite size_shift.
  pose proof (zlen_nonneg bitmap).
  by replace (8 * zlen bitmap <? 0) with false by lia.
Qed.

Lemma nonzero_byte_bit i :
  0 ≤ i → bit_set bitmap i = true →
  ∃ v, bitmap !! Z.to_nat (i / 8) = Some v ∧ Z.testbit v (i mod 8) = true ∧ v ≠ 0.
Proof.
  unfold bit_set. intros Hi Hb. destruct (bitmap !! _) as [v|]; [|done].
  exists v. split_and!; [done|done|]. intros ->. by rewrite Z.testbit_0_l in Hb.
Qed.

(** The count is positive but no bit is set: reported, nothing changes. *)
Lemma allocate_bit_mismatch :
  0 < free_count ≤ 8 * size → free_bits bitmap = [] →
  udbfslib_allocate_bit bitmap size free_count = Some (0, bitmap, free_count).
Proof using Hok.
  intros Hf Hnil. unfold udbfslib_allocate_bit. rewrite size_shift.
  replace (8 * size <? free_count) with false by lia.
  replace (free_count =? 0) with false by lia.
  pose proof (zlen_nonneg bitmap).
  destruct (scan_bytes_spec (S (Z.to_nat size)) bitmap 0) as (b & -> & Hr & _ & He);
    [lia|lia|].
  cbn [mbind option_bind].
  destruct He as [->|(v & Hv & Hnz)]; [by rewrite Z.eqb_refl|].
  destruct Hok as [Hbytes _].
  destruct (byte_nonzero_bit v) as (k & Hk & Hvk);
    [by eapply Forall_lookup_1|done|].
  assert (8 * b + k ∈ free_bits bitmap) as Hin; [|rewrite Hnil in Hin; by apply not_elem_of_nil in Hin].
  assert (bit_set bitmap (8 * b + k) = true) as Hs
    by (rewrite bit_set_split by lia; by rewrite Hv).
  apply elem_of_free_bits. split; [done|].
  pose proof (bit_set_range bitmap (8 * b + k) ltac:(lia) Hs). lia.
Qed.

(** Allocation takes the least free number. *)
Lemma allocate_bit_ok i rest :
  0 < free_count ≤ 8 * size → free_bits bitmap = i :: rest →
  ∃ bitmap', udbfslib_allocate_bit bitmap size free_count
      = Some (i, bitmap', free_count - 1) ∧
    bitmap_ok bitmap' ∧ length bitmap' = length bitmap ∧
    free_bits bitmap' = rest ∧
    ∀ j, 0 ≤ j → bit_set bitmap' j = bool_decide (j ≠ i) && bit_set bitmap j.
Proof using Hok.
  intros Hf Hfree.
  assert (i ∈ free_bits bitmap) as [Hi Hir]%elem_of_free_bits by (rewrite Hfree; left).
  pose proof Hok as [Hbytes Hz].
  unfold udbfslib_allocate_bit. rewrite size_shift.
  replace (8 * size <? free_count) with false by lia.
  replace (free_count =? 0) with false by lia.
  destruct (scan_bytes_spec (S (Z.to_nat size)) bitmap 0) as (b & -> & Hr & Hzero & He);
    [lia|lia|].
  cbn [mbind option_bind].
  destruct (nonzero_byte_bit i) as (w & Hw & Hwb & Hwnz); [lia|done|].
  assert (b ≤ i / 8) as Hbi.
  { destruct (decide (b ≤ i / 8)); [done|]. rewrite Hzero in Hw; [congruence|].
    Z.div_mod_to_equations. lia. }
  destruct He as [->|(v & Hv & Hnz)].
  { Z.div_mod_to_equations. lia. }
  assert (b < size) as Hbs by (apply lookup_lt_Some in Hv; unfold zlen; lia).
  replace (b =? size) with false by lia. rewrite Hv. cbn [mbind option_bind].
  assert (byte_ok v) as Hvok by (by eapply Forall_lookup_1).
  destruct (byte_nonzero_bit v Hvok Hnz) as (k0 & Hk0 & Hvk0).
  destruct (scan_bits_spec 8 v 0) as (Hk & Hvk & Hklow); [lia|by exists k0|].
  set (k := scan_bits 8 v 0) in *.
  (* the number found is the least one *)
  assert (free_bits bitmap = (8 * b + k) :: free_bits
    (<[Z.to_nat b := Z.lxor v (Z.shiftl 1 k)]> bitmap)) as Hcons.
  { apply free_bits_clear; [lia| | |apply length_insert|].
    - rewrite bit_set_split by lia. by rewrite Hv.
    - intros j Hj. unfold bit_set. destruct (decide (j / 8 < b)).
      + rewrite Hzero by (Z.div_mod_to_equations; lia). apply Z.testbit_0_l.
      + assert (j / 8 = b) as -> by (Z.div_mod_to_equations; lia). rewrite Hv.
        apply Hklow. Z.div_mod_to_equations. lia.
    - intros j Hj. by apply (bit_set_lxor bitmap b k v); try lia. }
  rewrite Hfree in Hcons. injection Hcons as Heqi Hrest.
  pose proof (byte_ok_lxor v k Hvok ltac:(lia) Hvk) as Hx. unfold byte_ok in Hx.
  rewrite Z.shiftl_mul_pow2 by lia. wrap.
  eexists. split; [do 2 f_equal; f_equal; lia|]. split_and!.
  - split; [by apply Forall_insert|]. unfold zlen in *. by rewrite length_insert.
  - apply length_insert.
  - by rewrite Hrest.
  - intros j Hj. rewrite Heqi. by apply (bit_set_lxor bitmap b k v); try lia.
Qed.
End allocate.

(** ** Deallocation *)

Section deallocate.
Context (bitmap : list Z) (free_count bit_id : Z).
Hypothesis Hok : bitmap_ok bitmap.
Hypothesis Hid : 0 ≤ bit_id < 8 * zlen bitmap.
Hypothesis Hcount : 0 ≤ free_count < 8 * zlen bitmap.

(** The bit the code works on: the mask is 3, not 7. *)
Definition freed_bit : Z := 8 * (bit_id / 8) + bit_id mod 4.

Lemma deallocate_bit_eq :
  ∃ v, bitmap !! Z.to_nat (bit_id / 8) = Some v ∧ byte_ok v ∧
  udbfslib_deallocate_bit bitmap (zlen bitmap) free_count bit_id =
    if bit_set bitmap freed_bit then Some (-1, bitmap, free_count)
    else Some (0, <[Z.to_nat (bit_id / 8) := Z.lor v (Z.shiftl 1 (bit_id mod 4))]> bitmap,
               free_count).
Proof using Hok Hid Hcount.
  destruct Hok as [Hbytes Hz].
  destruct (lookup_lt_is_Some_2 bitmap (Z.to_nat (bit_id / 8))) as [v Hv].
  { unfold zlen in *. Z.div_mod_to_equations. lia. }
  assert (byte_ok v) as Hvok by (by eapply Forall_lookup_1).
  exists v. split_and!; [done|done|].
  unfold udbfslib_deallocate_bit. rewrite size_shift by done. wrap.
  replace (8 * zlen bitmap <? free_count + 1) with false by lia.
  rewrite Z.shiftr_div_pow2 by lia. change (2 ^ 3) with 8. rewrite Hv.
  cbn [mbind option_bind].
  replace (Z.land bit_id 3) with (bit_id mod 4)
    by (symmetry; apply (Z.land_ones bit_id 2); lia).
  pose proof (Z.mod_pos_bound bit_id 4). rewrite (u8_small (bit_id mod 4)) by lia.
  rewrite Z.land_comm, land_bit_zero, negb_involutive by lia.
  unfold freed_bit. rewrite bit_set_split by (Z.div_mod_to_equations; lia).
  rewrite Hv. destruct (Z.testbit v (bit_id mod 4)); [done|].
  pose proof (byte_ok_lor v (bit_id mod 4) Hvok ltac:(lia)) as Hx. unfold byte_ok in Hx.
  by rewrite u8_small by lia.
Qed.
End deallocate.
