(* ===== verification/LinkList.v ===== *)
(** * The intrusive doubly linked lists of udbfslib

    [udbfslib/link.c] and [udbfslib/unlink.c]: the list of opened inodes of
    a mount and the list of mounted devices.  Every listed structure begins
    with its [next] and [previous] pointers; the store maps an address to
    that pair, and an address that is absent is memory that was freed (or
    never allocated).  [None] as the result of an operation is undefined
    behaviour: such an address was followed. *)
From S2P Require Import Prelude.

Abbreviation loc := positive.

Record node : Type := Node { n_next : option loc; n_prev : option loc }.

#[export] Instance node_eq_dec : EqDecision node.
Proof. solve_decision. Defined.

Implicit Types (h : gmap loc node) (l : list loc).

(** ** Operations *)

(** [udbfslib_link( &root, new_node )] *)
Definition udbfslib_link (root : option loc) (new_node : loc) h
    : option (option loc * gmap loc node) :=
  link_node ← h !! new_node;
  if negb (bool_decide (n_prev link_node = None)) || negb (bool_decide (n_next link_node = None))
  then Some (root, h)
  else
    let h := <[new_node := Node root None]> h in
    match root with
    | None => Some (Some new_node, h)
    | Some next =>
        n ← h !! next;
        Some (Some new_node, <[next := Node (n_next n) (Some new_node)]> h)
    end.

(** [udbfslib_unlink( &root, node_to_remove )]: the assignments are the
    source's, in its order; the [list_out_of_sync] exits keep what was
    assigned before. *)
Definition udbfslib_unlink (root : option loc) (node_to_remove : loc) h
    : option (option loc * gmap loc node) :=
  link_node ← h !! node_to_remove;
  match n_prev link_node with
  | None =>
      if negb (bool_decide (root = Some node_to_remove)) then Some (root, h)
      else Some (n_next link_node, <[node_to_remove := Node None None]> h)
  | Some previous =>
      p ← h !! previous;
      if negb (bool_decide (n_next p = Some node_to_remove)) then Some (root, h)
      else
        let h := <[node_to_remove := Node (n_next link_node) (n_next link_node)]> h in
        match n_next link_node with
        | None => Some (root, <[node_to_remove := Node None None]> h)
        | Some next =>
            n ← h !! next;
            if negb (bool_decide (n_prev n = Some node_to_remove)) then Some (root, h)
            else
              let h := <[next := Node (n_next n) (n_next link_node)]> h in
              Some (root, <[node_to_remove := Node None None]> h)
        end
  end.

(** The fields set by [inode->next = NULL; inode->previous = NULL;]. *)
Definition fresh_node : node := Node None None.

(** ** Representation *)

(** From [cur], whose back pointer is [prev], the nodes of [l] follow. *)
Fixpoint dseg h (prev cur : option loc) l : Prop :=
  match l with
  | [] => cur = None
  | x :: l => cur = Some x ∧ ∃ nx, h !! x = Some (Node nx prev) ∧ dseg h (Some x) nx l
  end.

Definition dll h (root : option loc) l : Prop := dseg h None root l ∧ NoDup l.

(** The forward pointers alone. *)
Fixpoint chain h (cur : option loc) l : Prop :=
  match l with
  | [] => cur = None
  | x :: l => cur = Some x ∧ ∃ n, h !! x = Some n ∧ chain h (n_next n) l
  end.

(** Evaluate the option binds and the projections of the operations. *)
Local Ltac srun := cbn [mbind option_bind n_next n_prev negb orb].

(** ** Lemmas *)

Lemma dseg_frame h h' prev cur l :
  (∀ x, x ∈ l → h' !! x = h !! x) → dseg h prev cur l → dseg h' prev cur l.
Proof.
  revert prev cur; induction l as [|x l IH]; intros prev cur Hf; [done|].
  intros (-> & nx & Hx & Hl). split; [done|]. exists nx. split.
  - rewrite Hf; [done|left].
  - apply IH; [|done]. intros y Hy. apply Hf. by right.
Qed.

Lemma dseg_chain h prev cur l : dseg h prev cur l → chain h cur l.
Proof.
  revert prev cur; induction l as [|x l IH]; intros prev cur; [done|].
  intros (-> & nx & Hx & Hl). split; [done|]. eexists; split; [done|]. by eapply IH.
Qed.

Lemma chain_frame h h' cur l :
  (∀ x, x ∈ l → h' !! x = h !! x) → chain h cur l → chain h' cur l.
Proof.
  revert cur; induction l as [|x l IH]; intros cur Hf; [done|].
  intros (-> & n & Hx & Hl). split; [done|]. exists n. split.
  - rewrite Hf; [done|left].
  - apply IH; [|done]. intros y Hy. apply Hf. by right.
Qed.

(** Linking a fresh node puts it in front and keeps the list well formed. *)
Lemma link_dll h root l x :
  dll h root l → h !! x = Some fresh_node → x ∉ l →
  ∃ h', udbfslib_link root x h = Some (Some x, h') ∧ dll h' (Some x) (x :: l) ∧
    ∀ y, y ≠ x → root ≠ Some y → h' !! y = h !! y.
Proof.
  intros [Hseg Hnd] Hx Hni. unfold udbfslib_link. rewrite Hx. simpl.
  destruct l as [|y l]; simpl in Hseg.
  - subst root. eexists. split_and!; [done| |].
    + split; [|by apply NoDup_singleton]. simpl. split; [done|].
      exists None. by rewrite lookup_insert_eq.
    + intros y Hy _. by rewrite lookup_insert_ne.
  - destruct Hseg as (-> & nx & Hy & Hl).
    apply not_elem_of_cons in Hni as [Hxy Hni]. apply NoDup_cons in Hnd as [Hyl Hnd].
    rewrite lookup_insert_ne, Hy by done. simpl. eexists. split_and!; [done| |].
    + split; [|rewrite NoDup_cons, NoDup_cons, not_elem_of_cons; done].
      simpl. split; [done|]. exists (Some y). split.
      { by rewrite lookup_insert_ne, lookup_insert_eq by done. }
      split; [done|]. exists nx. split; [by rewrite lookup_insert_eq|].
      eapply dseg_frame; [|done]. intros z Hz.
      rewrite !lookup_insert_ne by set_solver. done.
    + intros z Hz Hr. rewrite !lookup_insert_ne by congruence. done.
Qed.

(** A node that is already linked is left alone. *)
Lemma link_linked h root x n :
  h !! x = Some n → n ≠ fresh_node → udbfslib_link root x h = Some (root, h).
Proof.
  intros Hx Hn. unfold udbfslib_link. rewrite Hx. simpl.
  destruct n as [[?|] [?|]]; try done.
Qed.

(** Removing the only node. *)
Lemma unlink_sole h x :
  dll h (Some x) [x] →
  udbfslib_unlink (Some x) x h = Some (None, <[x := fresh_node]> h).
Proof.
  intros [(_ & nx & Hx & Hnx) _]. simpl in Hnx. subst nx.
  unfold udbfslib_unlink. rewrite Hx. simpl. by rewrite bool_decide_eq_true_2.
Qed.

(** Removing the first node of several: the forward list is right, the new
    head keeps its back pointer to the removed node. *)
Lemma unlink_head h x y l :
  dll h (Some x) (x :: y :: l) →
  ∃ h', udbfslib_unlink (Some x) x h = Some (Some y, h') ∧ chain h' (Some y) (y :: l) ∧
    ∃ nx, h' !! y = Some (Node nx (Some x)).
Proof.
  intros [(_ & nx & Hx & Hnx) Hnd]. apply NoDup_cons in Hnd as [Hni _].
  pose proof Hnx as (-> & ny & Hy & Hl).
  unfold udbfslib_unlink. rewrite Hx. srun. rewrite bool_decide_eq_true_2 by done. srun.
  eexists. split; [done|]. split.
  - eapply (chain_frame h); [|by eapply dseg_chain].
    intros z Hz. rewrite lookup_insert_ne; [done|]. set_solver.
  - exists ny. rewrite lookup_insert_ne; [done|]. set_solver.
Qed.

Lemma dseg_app_inv h prev cur l1 x l2 :
  dseg h prev cur (l1 ++ x :: l2) →
  ∃ nx, h !! x = Some (Node nx (default prev (Some <$> last l1))) ∧ dseg h (Some x) nx l2.
Proof.
  revert prev cur; induction l1 as [|y l1 IH]; intros prev cur.
  - intros (-> & nx & Hx & Hl). by exists nx.
  - intros (-> & ny & Hy & Hl). destruct (IH _ _ Hl) as (nx & Hx & Hl2).
    exists nx. split; [|done]. rewrite Hx. f_equal. f_equal.
    destruct l1 as [|z l1]; [done|]. rewrite last_cons_cons.
    by destruct (last (z :: l1)) eqn:E; [|apply last_None in E].
Qed.

Lemma chain_replace h cur l1 x l2 h' nx :
  NoDup (l1 ++ x :: l2) → chain h cur (l1 ++ x :: l2) →
  (∀ y, y ∈ l1 → n_next <$> h' !! y = n_next <$> h !! y) →
  h' !! x = Some (Node None nx) → chain h' cur (l1 ++ [x]).
Proof.
  revert cur; induction l1 as [|y l1 IH]; intros cur Hnd Hc Hf Hx; simpl in *.
  - destruct Hc as (-> & n & _ & _). split; [done|]. eexists. split; [done|]. done.
  - destruct Hc as (-> & n & Hy & Hc). split; [done|]. apply NoDup_cons in Hnd as [? Hnd].
    pose proof (Hf y ltac:(left)) as Hy'. rewrite Hy in Hy'.
    destruct (h' !! y) as [n'|] eqn:E; simplify_eq/=. exists n'. split; [done|].
    rewrite Hy'. apply IH; [done|done| |done]. intros z Hz. apply Hf. by right.
Qed.

(** Removing a node that is not the first does not remove it: its
    predecessor still points to it, and what followed it is lost. *)
Lemma unlink_not_head h root z l1 x l2 :
  dll h root (z :: l1 ++ x :: l2) →
  ∃ h', udbfslib_unlink root x h = Some (root, h') ∧
    chain h' root (z :: l1 ++ [x]) ∧ h' !! x = Some fresh_node.
Proof.
  intros [Hseg Hnd].
  destruct (dseg_app_inv h None root (z :: l1) x l2 Hseg) as (nx & Hx & Hl2).
  assert (∃ p, last (z :: l1) = Some p) as [p Hp].
  { destruct (last (z :: l1)) eqn:E; [by eexists|]. by apply last_None in E. }
  rewrite Hp in Hx. simpl in Hx.
  assert (p ∈ z :: l1) as Hpl by (apply last_Some in Hp as [l' ->]; set_solver).
  assert (∃ pp, h !! p = Some (Node (Some x) pp)) as [pp Hpp].
  { apply last_Some in Hp as [l' Hl']. rewrite app_comm_cons, Hl', <- app_assoc in Hseg.
    destruct (dseg_app_inv _ _ _ _ _ _ Hseg) as (nx' & Hp' & Hx' & _).
    rewrite Hx' in Hp'. by eexists. }
  change (z :: l1 ++ x :: l2) with ((z :: l1) ++ x :: l2) in Hnd.
  pose proof Hnd as Hnd'. apply NoDup_app in Hnd' as (Hnd1 & Hdisj & Hnd2).
  apply NoDup_cons in Hnd2 as [Hxl2 _].
  assert (p ≠ x) as Hne by (intros ->; apply (Hdisj x Hpl); left).
  unfold udbfslib_unlink. rewrite Hx. srun. rewrite Hpp. srun.
  rewrite bool_decide_eq_true_2 by done. srun.
  destruct l2 as [|y l2]; simpl in Hl2.
  - subst nx. eexists. split; [done|]. split; [|by rewrite lookup_insert_eq].
    eapply (chain_replace h _ (z :: l1)); [done|by eapply dseg_chain| |by rewrite lookup_insert_eq].
    intros w Hw. rewrite !lookup_insert_ne by (intros ->; apply (Hdisj w Hw); set_solver). done.
  - destruct Hl2 as (-> & ny & Hy & Hl2).
    assert (x ≠ y) by set_solver.
    rewrite lookup_insert_ne, Hy by done. srun.
    rewrite bool_decide_eq_true_2 by done. srun.
    eexists. split; [done|]. split; [|by rewrite lookup_insert_eq].
    eapply (chain_replace h _ (z :: l1)); [done|by eapply dseg_chain| |by rewrite lookup_insert_eq].
    intros w Hw. rewrite !lookup_insert_ne by (intros ->; apply (Hdisj w Hw); set_solver). done.
Qed.

(** Once the head of a two-element list is unlinked and freed, unlinking the
    other node follows the freed one. *)
Lemma unlink_after_free h x y :
  dll h (Some x) [x; y] →
  ∃ root' h', udbfslib_unlink (Some x) x h = Some (root', h') ∧
    udbfslib_unlink root' y (delete x h') = None.
Proof.
  intros Hd. destruct (unlink_head h x y [] Hd) as (h' & Hu & _ & nx & Hy).
  exists (Some y), h'. split; [done|].
  destruct Hd as [_ Hnd]. assert (x ≠ y) by (inversion Hnd; set_solver).
  unfold udbfslib_unlink. rewrite lookup_delete_ne, Hy by done. srun.
  by rewrite lookup_delete_eq.
Qed.
