(* ===== verification/UdbfsTypes.v ===== *)
(** * Data of the UDBFS library

    The on-disk structures of [udbfslib/udbfs.h] with their byte layout, the
    in-memory structures of [udbfslib/udbfslib.h], and the state the library
    functions run in. *)
From S2P Require Import Prelude Posix LinkList.
Local Open Scope Z_scope.

(** ** On-disk structures *)

Definition UDBFS_MAGIC : Z := 0x75646221.

(** [struct udbfs_superblock], packed: 14 64-bit words, then 6 bytes. *)
Record superblock : Type := Superblock {
  sb_boot_loader_inode : Z;
  sb_inode_first_block : Z;
  sb_unique_fs_signature : Z;
  sb_block_count : Z;
  sb_inode_count : Z;
  sb_free_block_count : Z;
  sb_free_inode_count : Z;
  sb_bitmaps_block : Z;
  sb_journal_inode : Z;
  sb_bad_block_inode : Z;
  sb_magic_number : Z;
  sb_last_check : Z;
  sb_max_interval : Z;
  sb_last_mount : Z;
  sb_mount_count : Z;
  sb_max_mount_count : Z;
  sb_creator_os : Z;
  sb_superblock_version : Z;
  sb_block_size : Z;
  sb_inode_format : Z
}.

Definition sizeof_superblock : Z := 118.

Definition encode_superblock (sb : superblock) : list Z :=
  le_words [sb_boot_loader_inode sb; sb_inode_first_block sb;
    sb_unique_fs_signature sb; sb_block_count sb; sb_inode_count sb;
    sb_free_block_count sb; sb_free_inode_count sb; sb_bitmaps_block sb;
    sb_journal_inode sb; sb_bad_block_inode sb; sb_magic_number sb;
    sb_last_check sb; sb_max_interval sb; sb_last_mount sb]
  ++ map u8 [sb_mount_count sb; sb_max_mount_count sb; sb_creator_os sb;
    sb_superblock_version sb; sb_block_size sb; sb_inode_format sb].

Definition decode_superblock (bs : list Z) : superblock :=
  Superblock (word_at bs 0) (word_at bs 1) (word_at bs 2) (word_at bs 3)
    (word_at bs 4) (word_at bs 5) (word_at bs 6) (word_at bs 7) (word_at bs 8)
    (word_at bs 9) (word_at bs 10) (word_at bs 11) (word_at bs 12) (word_at bs 13)
    (nth 112 bs 0) (nth 113 bs 0) (nth 114 bs 0) (nth 115 bs 0) (nth 116 bs 0)
    (nth 117 bs 0).

(** [struct udbfs_inode]; [block] is an array of 4. *)
Record udbfs_inode : Type := UdbfsInode {
  pi_size : Z;
  pi_block : list Z;
  pi_ind_block : Z;
  pi_bind_block : Z;
  pi_tind_block : Z
}.

Definition sizeof_inode : Z := 64.

Definition encode_inode (pi : udbfs_inode) : list Z :=
  le_words (pi_size pi :: pi_block pi ++ [pi_ind_block pi; pi_bind_block pi; pi_tind_block pi]).

Definition decode_inode (bs : list Z) : udbfs_inode :=
  UdbfsInode (word_at bs 0) [word_at bs 1; word_at bs 2; word_at bs 3; word_at bs 4]
    (word_at bs 5) (word_at bs 6) (word_at bs 7).

(** ** In-memory structures

    [inode->next], [inode->previous] (and the mount's) live in the link
    stores of the world below; every other field is here. *)

(** [struct udbfslib_block] *)
Record block : Type := Block {
  b_id : Z;
  b_offset_start : Z;
  b_offset_end : Z;
  b_device_offset : Z;
  b_inode : loc
}.

Definition set_b_offset_start (v : Z) (r : block) : block :=
  Block (b_id r) v (b_offset_end r) (b_device_offset r) (b_inode r).

(** [struct udbfslib_indblock]: the array has [block_size >> 3] entries. *)
Record indblock : Type := Indblock {
  ib_id : Z;
  ib_device_offset : Z;
  ib_block : list (ptr block)
}.

Definition set_ib_block (v : list (ptr block)) (r : indblock) : indblock :=
  Indblock (ib_id r) (ib_device_offset r) v.

(** [struct udbfslib_bindblock] *)
Record bindblock : Type := Bindblock {
  bb_id : Z;
  bb_device_offset : Z;
  bb_indblock : list (ptr indblock)
}.

Definition set_bb_indblock (v : list (ptr indblock)) (r : bindblock) : bindblock :=
  Bindblock (bb_id r) (bb_device_offset r) v.

(** [struct udbfslib_tindblock] *)
Record tindblock : Type := Tindblock {
  tb_id : Z;
  tb_device_offset : Z;
  tb_bindblock : list (ptr bindblock)
}.

Definition set_tb_bindblock (v : list (ptr bindblock)) (r : tindblock) : tindblock :=
  Tindblock (tb_id r) (tb_device_offset r) v.

(** [struct udbfslib_inode] *)
Record inode : Type := Inode {
  i_id : Z;
  i_cursor : Z;
  i_size : Z;
  i_physical_offset : Z;
  i_block : list (ptr block);
  i_ind_block : ptr indblock;
  i_bind_block : ptr bindblock;
  i_tind_block : ptr tindblock
}.

Definition set_i_id (v : Z) (r : inode) : inode :=
  Inode v (i_cursor r) (i_size r) (i_physical_offset r) (i_block r) (i_ind_block r)
    (i_bind_block r) (i_tind_block r).
Definition set_i_cursor (v : Z) (r : inode) : inode :=
  Inode (i_id r) v (i_size r) (i_physical_offset r) (i_block r) (i_ind_block r)
    (i_bind_block r) (i_tind_block r).
Definition set_i_size (v : Z) (r : inode) : inode :=
  Inode (i_id r) (i_cursor r) v (i_physical_offset r) (i_block r) (i_ind_block r)
    (i_bind_block r) (i_tind_block r).
Definition set_i_physical_offset (v : Z) (r : inode) : inode :=
  Inode (i_id r) (i_cursor r) (i_size r) v (i_block r) (i_ind_block r) (i_bind_block
    r) (i_tind_block r).
Definition set_i_block (v : list (ptr block)) (r : inode) : inode :=
  Inode (i_id r) (i_cursor r) (i_size r) (i_physical_offset r) v (i_ind_block r)
    (i_bind_block r) (i_tind_block r).
Definition set_i_ind_block (v : ptr indblock) (r : inode) : inode :=
  Inode (i_id r) (i_cursor r) (i_size r) (i_physical_offset r) (i_block r) v
    (i_bind_block r) (i_tind_block r).
Definition set_i_bind_block (v : ptr bindblock) (r : inode) : inode :=
  Inode (i_id r) (i_cursor r) (i_size r) (i_physical_offset r) (i_block r)
    (i_ind_block r) v (i_tind_block r).
Definition set_i_tind_block (v : ptr tindblock) (r : inode) : inode :=
  Inode (i_id r) (i_cursor r) (i_size r) (i_physical_offset r) (i_block r)
    (i_ind_block r) (i_bind_block r) v.

(** [struct udbfslib_mount] *)
Record mount : Type := Mount {
  m_block_device : Z;
  m_block_bitmap : option (list Z);
  m_inode_bitmap : option (list Z);
  m_mount_count : Z;
  m_max_mount_count : Z;
  m_creator_os : Z;
  m_superblock_version : Z;
  m_log_block_size : Z;
  m_inode_format : Z;
  m_block_size : Z;
  m_block_count : Z;
  m_inode_count : Z;
  m_free_block_count : Z;
  m_free_inode_count : Z;
  m_block_bitmap_offset : Z;
  m_block_bitmap_size : Z;
  m_inode_bitmap_offset : Z;
  m_inode_bitmap_size : Z;
  m_inode_table_offset : Z;
  m_dir_storage : Z;
  m_ind_storage : Z;
  m_bind_storage : Z;
  m_tind_storage : Z;
  m_boot_loader_inode : Z;
  m_inode_first_block : Z;
  m_unique_fs_signature : Z;
  m_bitmaps_block : Z;
  m_journal_inode : Z;
  m_bad_block_inode : Z;
  m_magic_number : Z;
  m_last_check : Z;
  m_last_mount : Z;
  m_max_interval : Z;
  m_opened_inodes : option loc
}.

Definition set_m_block_device (v : Z) (r : mount) : mount :=
  Mount v (m_block_bitmap r) (m_inode_bitmap r) (m_mount_count r) (m_max_mount_count
    r) (m_creator_os r) (m_superblock_version r) (m_log_block_size r)
    (m_inode_format r) (m_block_size r) (m_block_count r) (m_inode_count r)
    (m_free_block_count r) (m_free_inode_count r) (m_block_bitmap_offset r)
    (m_block_bitmap_size r) (m_inode_bitmap_offset r) (m_inode_bitmap_size r)
    (m_inode_table_offset r) (m_dir_storage r) (m_ind_storage r) (m_bind_storage r)
    (m_tind_storage r) (m_boot_loader_inode r) (m_inode_first_block r)
    (m_unique_fs_signature r) (m_bitmaps_block r) (m_journal_inode r)
    (m_bad_block_inode r) (m_magic_number r) (m_last_check r) (m_last_mount r)
    (m_max_interval r) (m_opened_inodes r).
Definition set_m_block_bitmap (v : option (list Z)) (r : mount) : mount :=
  Mount (m_block_device r) v (m_inode_bitmap r) (m_mount_count r) (m_max_mount_count
    r) (m_creator_os r) (m_superblock_version r) (m_log_block_size r)
    (m_inode_format r) (m_block_size r) (m_block_count r) (m_inode_count r)
    (m_free_block_count r) (m_free_inode_count r) (m_block_bitmap_offset r)
    (m_block_bitmap_size r) (m_inode_bitmap_offset r) (m_inode_bitmap_size r)
    (m_inode_table_offset r) (m_dir_storage r) (m_ind_storage r) (m_bind_storage r)
    (m_tind_storage r) (m_boot_loader_inode r) (m_inode_first_block r)
    (m_unique_fs_signature r) (m_bitmaps_block r) (m_journal_inode r)
    (m_bad_block_inode r) (m_magic_number r) (m_last_check r) (m_last_mount r)
    (m_max_interval r) (m_opened_inodes r).
Definition set_m_inode_bitmap (v : option (list Z)) (r : mount) : mount :=
  Mount (m_block_device r) (m_block_bitmap r) v (m_mount_count r) (m_max_mount_count
    r) (m_creator_os r) (m_superblock_version r) (m_log_block_size r)
    (m_inode_format r) (m_block_size r) (m_block_count r) (m_inode_count r)
    (m_free_block_count r) (m_free_inode_count r) (m_block_bitmap_offset r)
    (m_block_bitmap_size r) (m_inode_bitmap_offset r) (m_inode_bitmap_size r)
    (m_inode_table_offset r) (m_dir_storage r) (m_ind_storage r) (m_bind_storage r)
    (m_tind_storage r) (m_boot_loader_inode r) (m_inode_first_block r)
    (m_unique_fs_signature r) (m_bitmaps_block r) (m_journal_inode r)
    (m_bad_block_inode r) (m_magic_number r) (m_last_check r) (m_last_mount r)
    (m_max_interval r) (m_opened_inodes r).
Definition set_m_free_block_count (v : Z) (r : mount) : mount :=
  Mount (m_block_device r) (m_block_bitmap r) (m_inode_bitmap r) (m_mount_count r)
    (m_max_mount_count r) (m_creator_os r) (m_superblock_version r)
    (m_log_block_size r) (m_inode_format r) (m_block_size r) (m_block_count r)
    (m_inode_count r) v (m_free_inode_count r) (m_block_bitmap_offset r)
    (m_block_bitmap_size r) (m_inode_bitmap_offset r) (m_inode_bitmap_size r)
    (m_inode_table_offset r) (m_dir_storage r) (m_ind_storage r) (m_bind_storage r)
    (m_tind_storage r) (m_boot_loader_inode r) (m_inode_first_block r)
    (m_unique_fs_signature r) (m_bitmaps_block r) (m_journal_inode r)
    (m_bad_block_inode r) (m_magic_number r) (m_last_check r) (m_last_mount r)
    (m_max_interval r) (m_opened_inodes r).
Definition set_m_free_inode_count (v : Z) (r : mount) : mount :=
  Mount (m_block_device r) (m_block_bitmap r) (m_inode_bitmap r) (m_mount_count r)
    (m_max_mount_count r) (m_creator_os r) (m_superblock_version r)
    (m_log_block_size r) (m_inode_format r) (m_block_size r) (m_block_count r)
    (m_inode_count r) (m_free_block_count r) v (m_block_bitmap_offset r)
    (m_block_bitmap_size r) (m_inode_bitmap_offset r) (m_inode_bitmap_size r)
    (m_inode_table_offset r) (m_dir_storage r) (m_ind_storage r) (m_bind_storage r)
    (m_tind_storage r) (m_boot_loader_inode r) (m_inode_first_block r)
    (m_unique_fs_signature r) (m_bitmaps_block r) (m_journal_inode r)
    (m_bad_block_inode r) (m_magic_number r) (m_last_check r) (m_last_mount r)
    (m_max_interval r) (m_opened_inodes r).
Definition set_m_boot_loader_inode (v : Z) (r : mount) : mount :=
  Mount (m_block_device r) (m_block_bitmap r) (m_inode_bitmap r) (m_mount_count r)
    (m_max_mount_count r) (m_creator_os r) (m_superblock_version r)
    (m_log_block_size r) (m_inode_format r) (m_block_size r) (m_block_count r)
    (m_inode_count r) (m_free_block_count r) (m_free_inode_count r)
    (m_block_bitmap_offset r) (m_block_bitmap_size r) (m_inode_bitmap_offset r)
    (m_inode_bitmap_size r) (m_inode_table_offset r) (m_dir_storage r)
    (m_ind_storage r) (m_bind_storage r) (m_tind_storage r) v (m_inode_first_block
    r) (m_unique_fs_signature r) (m_bitmaps_block r) (m_journal_inode r)
    (m_bad_block_inode r) (m_magic_number r) (m_last_check r) (m_last_mount r)
    (m_max_interval r) (m_opened_inodes r).
Definition set_m_opened_inodes (v : option loc) (r : mount) : mount :=
  Mount (m_block_device r) (m_block_bitmap r) (m_inode_bitmap r) (m_mount_count r)
    (m_max_mount_count r) (m_creator_os r) (m_superblock_version r)
    (m_log_block_size r) (m_inode_format r) (m_block_size r) (m_block_count r)
    (m_inode_count r) (m_free_block_count r) (m_free_inode_count r)
    (m_block_bitmap_offset r) (m_block_bitmap_size r) (m_inode_bitmap_offset r)
    (m_inode_bitmap_size r) (m_inode_table_offset r) (m_dir_storage r)
    (m_ind_storage r) (m_bind_storage r) (m_tind_storage r) (m_boot_loader_inode r)
    (m_inode_first_block r) (m_unique_fs_signature r) (m_bitmaps_block r)
    (m_journal_inode r) (m_bad_block_inode r) (m_magic_number r) (m_last_check r)
    (m_last_mount r) (m_max_interval r) v.
Definition set_m_dir_storage (v : Z) (r : mount) : mount :=
  Mount (m_block_device r) (m_block_bitmap r) (m_inode_bitmap r) (m_mount_count r)
    (m_max_mount_count r) (m_creator_os r) (m_superblock_version r)
    (m_log_block_size r) (m_inode_format r) (m_block_size r) (m_block_count r)
    (m_inode_count r) (m_free_block_count r) (m_free_inode_count r)
    (m_block_bitmap_offset r) (m_block_bitmap_size r) (m_inode_bitmap_offset r)
    (m_inode_bitmap_size r) (m_inode_table_offset r) v (m_ind_storage r)
    (m_bind_storage r) (m_tind_storage r) (m_boot_loader_inode r)
    (m_inode_first_block r) (m_unique_fs_signature r) (m_bitmaps_block r)
    (m_journal_inode r) (m_bad_block_inode r) (m_magic_number r) (m_last_check r)
    (m_last_mount r) (m_max_interval r) (m_opened_inodes r).
Definition set_m_ind_storage (v : Z) (r : mount) : mount :=
  Mount (m_block_device r) (m_block_bitmap r) (m_inode_bitmap r) (m_mount_count r)
    (m_max_mount_count r) (m_creator_os r) (m_superblock_version r)
    (m_log_block_size r) (m_inode_format r) (m_block_size r) (m_block_count r)
    (m_inode_count r) (m_free_block_count r) (m_free_inode_count r)
    (m_block_bitmap_offset r) (m_block_bitmap_size r) (m_inode_bitmap_offset r)
    (m_inode_bitmap_size r) (m_inode_table_offset r) (m_dir_storage r) v
    (m_bind_storage r) (m_tind_storage r) (m_boot_loader_inode r)
    (m_inode_first_block r) (m_unique_fs_signature r) (m_bitmaps_block r)
    (m_journal_inode r) (m_bad_block_inode r) (m_magic_number r) (m_last_check r)
    (m_last_mount r) (m_max_interval r) (m_opened_inodes r).
Definition set_m_bind_storage (v : Z) (r : mount) : mount :=
  Mount (m_block_device r) (m_block_bitmap r) (m_inode_bitmap r) (m_mount_count r)
    (m_max_mount_count r) (m_creator_os r) (m_superblock_version r)
    (m_log_block_size r) (m_inode_format r) (m_block_size r) (m_block_count r)
    (m_inode_count r) (m_free_block_count r) (m_free_inode_count r)
    (m_block_bitmap_offset r) (m_block_bitmap_size r) (m_inode_bitmap_offset r)
    (m_inode_bitmap_size r) (m_inode_table_offset r) (m_dir_storage r)
    (m_ind_storage r) v (m_tind_storage r) (m_boot_loader_inode r)
    (m_inode_first_block r) (m_unique_fs_signature r) (m_bitmaps_block r)
    (m_journal_inode r) (m_bad_block_inode r) (m_magic_number r) (m_last_check r)
    (m_last_mount r) (m_max_interval r) (m_opened_inodes r).
Definition set_m_tind_storage (v : Z) (r : mount) : mount :=
  Mount (m_block_device r) (m_block_bitmap r) (m_inode_bitmap r) (m_mount_count r)
    (m_max_mount_count r) (m_creator_os r) (m_superblock_version r)
    (m_log_block_size r) (m_inode_format r) (m_block_size r) (m_block_count r)
    (m_inode_count r) (m_free_block_count r) (m_free_inode_count r)
    (m_block_bitmap_offset r) (m_block_bitmap_size r) (m_inode_bitmap_offset r)
    (m_inode_bitmap_size r) (m_inode_table_offset r) (m_dir_storage r)
    (m_ind_storage r) (m_bind_storage r) v (m_boot_loader_inode r)
    (m_inode_first_block r) (m_unique_fs_signature r) (m_bitmaps_block r)
    (m_journal_inode r) (m_bad_block_inode r) (m_magic_number r) (m_last_check r)
    (m_last_mount r) (m_max_interval r) (m_opened_inodes r).

(** ** The state

    One mounted device.  [w_dev] is the descriptor [m_block_device] stands
    for and [w_host_fd] the number [open] answers with.  [w_mnt] is the
    mount structure at address [w_mloc]; before [udbfs_mount] fills it, it
    is whatever [malloc] returned.  [w_inodes] and [w_ilinks] hold the live
    inode structures, [w_next_loc] the next address [malloc] gives out and
    [w_junk] the content of uninitialised words.  [w_mlinks] links all
    mounted devices, [w_mounted_devices] being the list's root. *)
Record world : Type := World {
  w_dev : device;
  w_host_fd : Z;
  w_mallocs : list bool;
  w_mnt : mount;
  w_mloc : loc;
  w_mounted_devices : option loc;
  w_mlinks : gmap loc node;
  w_inodes : gmap loc inode;
  w_ilinks : gmap loc node;
  w_next_loc : loc;
  w_junk : Z
}.

Definition set_w_dev (v : device) (r : world) : world :=
  World v (w_host_fd r) (w_mallocs r) (w_mnt r) (w_mloc r) (w_mounted_devices r)
    (w_mlinks r) (w_inodes r) (w_ilinks r) (w_next_loc r) (w_junk r).
Definition set_w_mallocs (v : list bool) (r : world) : world :=
  World (w_dev r) (w_host_fd r) v (w_mnt r) (w_mloc r) (w_mounted_devices r)
    (w_mlinks r) (w_inodes r) (w_ilinks r) (w_next_loc r) (w_junk r).
Definition set_w_mnt (v : mount) (r : world) : world :=
  World (w_dev r) (w_host_fd r) (w_mallocs r) v (w_mloc r) (w_mounted_devices r)
    (w_mlinks r) (w_inodes r) (w_ilinks r) (w_next_loc r) (w_junk r).
Definition set_w_mloc (v : loc) (r : world) : world :=
  World (w_dev r) (w_host_fd r) (w_mallocs r) (w_mnt r) v (w_mounted_devices r)
    (w_mlinks r) (w_inodes r) (w_ilinks r) (w_next_loc r) (w_junk r).
Definition set_w_mounted_devices (v : option loc) (r : world) : world :=
  World (w_dev r) (w_host_fd r) (w_mallocs r) (w_mnt r) (w_mloc r) v (w_mlinks r)
    (w_inodes r) (w_ilinks r) (w_next_loc r) (w_junk r).
Definition set_w_mlinks (v : gmap loc node) (r : world) : world :=
  World (w_dev r) (w_host_fd r) (w_mallocs r) (w_mnt r) (w_mloc r)
    (w_mounted_devices r) v (w_inodes r) (w_ilinks r) (w_next_loc r) (w_junk r).
Definition set_w_inodes (v : gmap loc inode) (r : world) : world :=
  World (w_dev r) (w_host_fd r) (w_mallocs r) (w_mnt r) (w_mloc r)
    (w_mounted_devices r) (w_mlinks r) v (w_ilinks r) (w_next_loc r) (w_junk r).
Definition set_w_ilinks (v : gmap loc node) (r : world) : world :=
  World (w_dev r) (w_host_fd r) (w_mallocs r) (w_mnt r) (w_mloc r)
    (w_mounted_devices r) (w_mlinks r) (w_inodes r) v (w_next_loc r) (w_junk r).
Definition set_w_next_loc (v : loc) (r : world) : world :=
  World (w_dev r) (w_host_fd r) (w_mallocs r) (w_mnt r) (w_mloc r)
    (w_mounted_devices r) (w_mlinks r) (w_inodes r) (w_ilinks r) v (w_junk r).

#[export] Program Instance world_device : HasDevice world := {|
  get_dev := w_dev;
  put_dev := set_w_dev
|}.
Next Obligation. done. Qed.
Next Obligation. by intros []. Qed.
Next Obligation. done. Qed.

#[export] Instance world_heap : HasHeap world := {|
  get_mallocs := w_mallocs;
  put_mallocs := set_w_mallocs
|}.

(** ** Access *)

(** [a[i]] for an [int] index; [None] outside of the array. *)
Definition array_at {A : Type} (a : list A) (i : Z) : option A :=
  if i <? 0 then None else a !! Z.to_nat i.

Definition array_set {A : Type} (a : list A) (i : Z) (x : A) : list A :=
  <[Z.to_nat i := x]> a.

(** Division of unsigned integers; by zero it is undefined. *)
Definition udiv {S : Type} (a b : Z) : M S Z :=
  if b =? 0 then stuck else mret (a / b).
Definition umod {S : Type} (a b : Z) : M S Z :=
  if b =? 0 then stuck else mret (a mod b).

Definition get_inode (l : loc) : M world inode := λ w,
  match w_inodes w !! l with Some i => Ok i w | None => Stuck end.

Definition put_inode (l : loc) (i : inode) : M world unit :=
  modify (λ w, set_w_inodes (<[l := i]> (w_inodes w)) w).

(** [free(inode)] *)
Definition free_inode_memory (l : loc) : M world unit :=
  modify (λ w, set_w_ilinks (delete l (w_ilinks w))
               (set_w_inodes (delete l (w_inodes w)) w)).

(** A pointer to a [UDBFSLIB_BLOCK] of an inode: the path to it. *)
Inductive bref : Type :=
| BDirect (i : Z)
| BInd (i : Z)
| BBind (j i : Z)
| BTind (k j i : Z).

#[export] Instance bref_eq_dec : EqDecision bref.
Proof. solve_decision. Defined.

(** What the pointer expression of a path evaluates to; an index out of an
    array or a wild pointer on the way is [Wild], a null one [Null]. *)
Definition slot {A : Type} (a : list (ptr A)) (i : Z) : ptr A :=
  default Wild (array_at a i).

Definition ptr_bind {A B : Type} (f : A → ptr B) (p : ptr A) : ptr B :=
  match p with Null => Null | Wild => Wild | Ptr a => f a end.

Definition slot_at (n : inode) (r : bref) : ptr block :=
  match r with
  | BDirect i => slot (i_block n) i
  | BInd i => ptr_bind (λ ib, slot (ib_block ib) i) (i_ind_block n)
  | BBind j i =>
      ptr_bind (λ bb, ptr_bind (λ ib, slot (ib_block ib) i) (slot (bb_indblock bb) j))
        (i_bind_block n)
  | BTind k j i =>
      ptr_bind (λ tb, ptr_bind (λ bb, ptr_bind (λ ib, slot (ib_block ib) i)
          (slot (bb_indblock bb) j)) (slot (tb_bindblock tb) k))
        (i_tind_block n)
  end.

Definition ptr_map {A : Type} (f : A → A) (p : ptr A) : ptr A :=
  match p with Null => Null | Wild => Wild | Ptr a => Ptr (f a) end.

Definition slot_update {A : Type} (f : A → A) (i : Z) (a : list (ptr A)) : list (ptr A) :=
  alter (ptr_map f) (Z.to_nat i) a.

Definition ind_update (f : block → block) (i : Z) (ib : indblock) : indblock :=
  set_ib_block (slot_update f i (ib_block ib)) ib.
Definition bind_update (f : block → block) (j i : Z) (bb : bindblock) : bindblock :=
  set_bb_indblock (slot_update (ind_update f i) j (bb_indblock bb)) bb.
Definition tind_update (f : block → block) (k j i : Z) (tb : tindblock) : tindblock :=
  set_tb_bindblock (slot_update (bind_update f j i) k (tb_bindblock tb)) tb.

(** Assign through a pointer to a block. *)
Definition block_update (f : block → block) (r : bref) (n : inode) : inode :=
  match r with
  | BDirect i => set_i_block (slot_update f i (i_block n)) n
  | BInd i => set_i_ind_block (ptr_map (ind_update f i) (i_ind_block n)) n
  | BBind j i => set_i_bind_block (ptr_map (bind_update f j i) (i_bind_block n)) n
  | BTind k j i => set_i_tind_block (ptr_map (tind_update f k j i) (i_tind_block n)) n
  end.

(** ** Codec lemmas *)

Definition superblock_ok (sb : superblock) : Prop :=
  Forall (λ z, 0 ≤ z < 2 ^ 64)
    [sb_boot_loader_inode sb; sb_inode_first_block sb;
    sb_unique_fs_signature sb; sb_block_count sb; sb_inode_count sb;
    sb_free_block_count sb; sb_free_inode_count sb; sb_bitmaps_block sb;
    sb_journal_inode sb; sb_bad_block_inode sb; sb_magic_number sb;
    sb_last_check sb; sb_max_interval sb; sb_last_mount sb] ∧
  Forall (λ z, 0 ≤ z < 2 ^ 8)
    [sb_mount_count sb; sb_max_mount_count sb; sb_creator_os sb;
    sb_superblock_version sb; sb_block_size sb; sb_inode_format sb].

Lemma length_encode_superblock sb : zlen (encode_superblock sb) = sizeof_superblock.
Proof. unfold zlen, encode_superblock. by rewrite length_app, length_le_words. Qed.

Lemma decode_encode_superblock sb rest :
  superblock_ok sb → decode_superblock (encode_superblock sb ++ rest) = sb.
Proof.
  intros [Hw Hb]. unfold decode_superblock, encode_superblock.
  repeat match goal with
  | H : Forall _ (_ :: _) |- _ => apply Forall_cons in H as [? H]
  end.
  rewrite <- app_assoc.
  repeat (erewrite word_at_le_words; [|reflexivity|assumption]).
  rewrite !app_nth2 by (rewrite length_le_words; simpl; lia).
  rewrite length_le_words. simpl. rewrite !u8_small by assumption.
  by destruct sb.
Qed.

Definition pinode_ok (pi : udbfs_inode) : Prop :=
  length (pi_block pi) = 4%nat ∧
  Forall (λ z, 0 ≤ z < 2 ^ 64)
    (pi_size pi :: pi_block pi ++ [pi_ind_block pi; pi_bind_block pi; pi_tind_block pi]).

Lemma length_encode_inode pi :
  length (pi_block pi) = 4%nat → zlen (encode_inode pi) = sizeof_inode.
Proof.
  intros Hl. unfold zlen, encode_inode, sizeof_inode.
  rewrite length_le_words, length_cons, length_app, Hl. done.
Qed.

Lemma decode_encode_inode pi : pinode_ok pi → decode_inode (encode_inode pi) = pi.
Proof.
  destruct pi as [size blk ind bind tind]. intros [Hl Hw]. simpl in *.
  destruct blk as [|b0 [|b1 [|b2 [|b3 [|]]]]]; try done. simpl in Hw.
  repeat match goal with
  | H : Forall _ (_ :: _) |- _ => apply Forall_cons in H as [? H]
  end.
  unfold decode_inode, encode_inode.
  cbn [pi_size pi_block pi_ind_block pi_bind_block pi_tind_block app].
  rewrite <- (app_nil_r (le_words _)).
  repeat (erewrite word_at_le_words; [|reflexivity|assumption]). done.
Qed.

(** ** Access lemmas *)

Lemma array_at_lookup {A} (a : list A) (i : nat) : array_at a (Z.of_nat i) = a !! i.
Proof. unfold array_at. destruct (Z.ltb_spec (Z.of_nat i) 0); [lia|]. by rewrite Nat2Z.id. Qed.

Lemma get_inode_ok l i w : w_inodes w !! l = Some i → get_inode l w = Ok i w.
Proof. intros Hl. unfold get_inode. by rewrite Hl. Qed.
