(* ===== verification/BitmapSpec.v ===== *)
(** * Allocation and lists: the contracts

    What the bitmap allocator, its inverse and the intrusive lists promise,
    and where the code does not keep it. *)
From S2P Require Import Prelude Posix Bitmap LinkList UdbfsTypes.
Local Open Scope Z_scope.

(** ** The allocator *)

(** on a bitmap of [size] bytes, [udbfslib_allocate_bit] refuses a free
    count larger than the bitmap, reports 0 when the count is 0 or no bit is
    set, and otherwise hands out the smallest free number, clears exactly
    its bit and decrements the count. *)
Theorem allocate_bit_takes_first_free bitmap free_count :
  bitmap_ok bitmap → 0 ≤ free_count →
  if (8 * zlen bitmap <? free_count) || (free_count =? 0) then
    udbfslib_allocate_bit bitmap (zlen bitmap) free_count = Some (0, bitmap, free_count)
  else match free_bits bitmap with
  | [] => udbfslib_allocate_bit bitmap (zlen bitmap) free_count = Some (0, bitmap, free_count)
  | i :: rest => ∃ bitmap',
      udbfslib_allocate_bit bitmap (zlen bitmap) free_count = Some (i, bitmap', free_count - 1) ∧
      bitmap_ok bitmap' ∧ length bitmap' = length bitmap ∧ free_bits bitmap' = rest ∧
      ∀ j, 0 ≤ j → bit_set bitmap' j = bool_decide (j ≠ i) && bit_set bitmap j
  end.
Proof.
  intros Hok Hc. destruct (Z.ltb_spec (8 * zlen bitmap) free_count); cbn [orb].
  { by apply allocate_bit_overcount. }
  destruct (Z.eqb_spec free_count 0) as [->|Hne]; [by apply allocate_bit_exhausted|].
  destruct (free_bits bitmap) as [|i rest] eqn:Hfree.
  - apply allocate_bit_mismatch; [done|lia|done].
  - apply allocate_bit_ok; [done|lia|done].
Qed.

Lemma allocate_bit_takes_first_free_witness :
  bitmap_ok [0; 160] ∧ ∃ bitmap',
    udbfslib_allocate_bit [0; 160] (zlen [0; 160]) 2 = Some (13, bitmap', 2 - 1) ∧
    bitmap_ok bitmap' ∧ length bitmap' = length [0; 160] ∧ free_bits bitmap' = [15] ∧
    ∀ j, 0 ≤ j → bit_set bitmap' j = bool_decide (j ≠ 13) && bit_set [0; 160] j.
Proof.
  assert (bitmap_ok [0; 160]) as Hok by (split; [repeat constructor; done|done]).
  split; [exact Hok|].
  exact (allocate_bit_takes_first_free [0; 160] 2 Hok ltac:(lia)).
Defined.

(** [n] allocations in a row. *)
Fixpoint allocate_bits (n : nat) (bitmap : list Z) (free_count : Z)
    : option (list Z * list Z * Z) :=
  match n with
  | O => Some ([], bitmap, free_count)
  | S n =>
      r ← udbfslib_allocate_bit bitmap (zlen bitmap) free_count;
      r' ← allocate_bits n r.1.2 r.2;
      Some (r.1.1 :: r'.1.1, r'.1.2, r'.2)
  end.

Lemma allocate_bits_ok n : ∀ bitmap,
  bitmap_ok bitmap → (n ≤ length (free_bits bitmap))%nat →
  ∃ bitmap', allocate_bits n bitmap (zlen (free_bits bitmap)) =
      Some (take n (free_bits bitmap), bitmap', zlen (free_bits bitmap')) ∧
    length bitmap' = length bitmap ∧ free_bits bitmap' = drop n (free_bits bitmap).
Proof.
  induction n as [|n IH]; intros bitmap Hok Hn; [by exists bitmap|].
  destruct (free_bits bitmap) as [|i rest] eqn:Hfree; [simpl in Hn; lia|].
  pose proof (length_free_bits bitmap) as Hl. rewrite Hfree in Hl.
  destruct (allocate_bit_ok bitmap (zlen (i :: rest)) Hok i rest) as
    (bm1 & E1 & Hok1 & Hl1 & Hf1 & _); [unfold zlen in *; simpl in *; lia|done|].
  destruct (IH bm1 Hok1) as (bm2 & E2 & Hl2 & Hf2); [rewrite Hf1; simpl in Hn; lia|].
  exists bm2. rewrite Hf1 in *. cbn [allocate_bits]. rewrite E1. cbn [mbind option_bind fst snd].
  replace (zlen (i :: rest) - 1) with (zlen rest) by (unfold zlen; simpl; lia).
  rewrite E2. split; [done|]. split; [congruence|done].
Qed.

(** Allocations in a row hand out the free numbers in increasing order,
    each once; none of them is free afterwards and the count stays the
    number of free bits. *)
Lemma allocations_are_distinct n bitmap :
  bitmap_ok bitmap → (n ≤ length (free_bits bitmap))%nat →
  ∃ bitmap', allocate_bits n bitmap (zlen (free_bits bitmap)) =
      Some (take n (free_bits bitmap), bitmap', zlen (free_bits bitmap')) ∧
    NoDup (take n (free_bits bitmap)) ∧ free_bits bitmap' = drop n (free_bits bitmap) ∧
    ∀ i, i ∈ take n (free_bits bitmap) → bit_set bitmap' i = false.
Proof.
  intros Hok Hn. destruct (allocate_bits_ok n bitmap Hok Hn) as (bm' & E & Hl & Hf).
  exists bm'. split; [done|]. pose proof (NoDup_free_bits bitmap) as Hnd.
  rewrite <- (take_drop n (free_bits bitmap)) in Hnd. apply NoDup_app in Hnd as (H1 & H2 & _).
  split; [done|]. split; [done|]. intros i Hi. apply not_true_iff_false. intros Hs.
  apply (H2 i Hi). rewrite <- Hf. apply elem_of_free_bits. split; [done|].
  assert (i ∈ free_bits bitmap) as [_ Hr]%elem_of_free_bits
    by (rewrite <- (take_drop n); apply elem_of_app; by left).
  unfold zlen in *. by rewrite Hl.
Qed.

(** ** Deallocation *)

(** [udbfslib_deallocate_bit] masks the bit number with 3 instead of 7:
    it works on bit [id mod 4] of the right byte.  Freeing an allocated
    number whose value modulo 8 is at least 4 leaves that number allocated,
    either with an error or by freeing a number four below it; the free
    count never changes. *)
Theorem deallocate_misses_high_bits bitmap free_count id :
  bitmap_ok bitmap → 0 ≤ id < 8 * zlen bitmap → 0 ≤ free_count < 8 * zlen bitmap →
  4 ≤ id mod 8 → bit_set bitmap id = false →
  ∃ code bitmap', udbfslib_deallocate_bit bitmap (zlen bitmap) free_count id =
      Some (code, bitmap', free_count) ∧
    bit_set bitmap' id = false ∧
    (bit_set bitmap (id - 4) = false → code = 0 ∧ bit_set bitmap' (id - 4) = true) ∧
    (bit_set bitmap (id - 4) = true → code = -1 ∧ bitmap' = bitmap).
Proof.
  intros Hok Hid Hc Hmod Hset.
  destruct (deallocate_bit_eq bitmap free_count id Hok Hid Hc) as (v & Hv & Hvok & ->).
  assert (freed_bit id = id - 4) as Hfb by (unfold freed_bit; Z.div_mod_to_equations; lia).
  rewrite Hfb. destruct (bit_set bitmap (id - 4)) eqn:E.
  - by exists (-1), bitmap.
  - eexists 0, _. split; [done|].
    assert (∀ j, 0 ≤ j → bit_set (<[Z.to_nat (id / 8):=Z.lor v (Z.shiftl 1 (id mod 4))]> bitmap) j =
      bool_decide (j = 8 * (id / 8) + id mod 4) || bit_set bitmap j) as Hb.
    { intros j Hj. apply (bit_set_lor bitmap _ _ v); [done|..]; Z.div_mod_to_equations; lia. }
    assert (8 * (id / 8) + id mod 4 = id - 4) as He by exact Hfb.
    split; [|split; [|done]].
    + rewrite Hb, He by lia. rewrite bool_decide_false by lia. done.
    + intros _. split; [done|]. rewrite Hb, He by (Z.div_mod_to_equations; lia).
      by rewrite bool_decide_true.
Qed.

Lemma deallocate_misses_high_bits_witness :
  ∃ code bitmap', udbfslib_deallocate_bit [0] (zlen [0]) 3 5 = Some (code, bitmap', 3) ∧
    bit_set bitmap' 5 = false ∧
    (bit_set [0] (5 - 4) = false → code = 0 ∧ bit_set bitmap' (5 - 4) = true) ∧
    (bit_set [0] (5 - 4) = true → code = -1 ∧ bitmap' = [0]).
Proof.
  apply (deallocate_misses_high_bits [0] 3 5).
  - split; [repeat constructor; done|done].
  - by vm_compute.
  - by vm_compute.
  - by vm_compute.
  - by vm_compute.
Defined.

(** ** Lists of opened inodes and of mounts *)

(** linking a fresh node puts it at the head of a well-formed list and
    touches no node but it and the old head; linking a node that is already
    linked changes nothing. *)
Lemma link_prepends h root l x :
  dll h root l → h !! x = Some fresh_node → x ∉ l →
  ∃ h', udbfslib_link root x h = Some (Some x, h') ∧ dll h' (Some x) (x :: l) ∧
    (∀ y, y ≠ x → root ≠ Some y → h' !! y = h !! y) ∧
    (l ≠ [] → udbfslib_link (Some x) x h' = Some (Some x, h')).
Proof.
  intros Hd Hx Hni. destruct (link_dll h root l x Hd Hx Hni) as (h' & E & Hd' & Hf).
  exists h'. split; [done|]. split; [done|]. split; [done|]. intros Hl.
  destruct Hd' as [(_ & nx & Hx' & Hl') _]. apply (link_linked h' (Some x) x _ Hx').
  destruct l as [|y l]; [done|]. destruct Hl' as [-> _]. done.
Qed.

(** [udbfslib_unlink] of a node that is not the head leaves it reachable
    from the root and cuts off every node behind it, because it assigns the
    removed node's [previous] instead of its predecessor's [next]. *)
Theorem unlink_keeps_the_node h root z l1 x l2 :
  dll h root (z :: l1 ++ x :: l2) →
  ∃ h', udbfslib_unlink root x h = Some (root, h') ∧
    chain h' root (z :: l1 ++ [x]) ∧ h' !! x = Some fresh_node.
Proof. apply unlink_not_head. Qed.

Lemma unlink_keeps_the_node_witness :
  let h : gmap loc node := <[3%positive := Node None (Some 2%positive)]>
    (<[2%positive := Node (Some 3%positive) (Some 1%positive)]>
      (<[1%positive := Node (Some 2%positive) None]> ∅)) in
  ∃ h', udbfslib_unlink (Some 1%positive) 2 h = Some (Some 1%positive, h') ∧
    chain h' (Some 1%positive) [1%positive; 2%positive] ∧ h' !! 2%positive = Some fresh_node.
Proof.
  intros h. apply (unlink_keeps_the_node h (Some 1%positive) 1 [] 2 [3%positive]).
  split; [|repeat constructor; set_solver].
  split; [done|]. exists (Some 2%positive). split; [done|]. split; [done|].
  exists (Some 3%positive). split; [done|]. split; [done|]. by exists None.
Defined.

(** Closing the two inodes of a list one after the other follows freed
    memory: after the head is unlinked and freed the new head still points
    back to it. *)
Lemma unlink_second_follows_freed h x y :
  dll h (Some x) [x; y] →
  ∃ root' h', udbfslib_unlink (Some x) x h = Some (root', h') ∧
    udbfslib_unlink root' y (delete x h') = None.
Proof. apply unlink_after_free. Qed.

(** ** On-disk records *)

(** The superblock is 118 bytes on disk and reading them back, whatever
    follows, gives the same record. *)
Lemma superblock_roundtrip sb rest :
  superblock_ok sb →
  zlen (encode_superblock sb) = sizeof_superblock ∧
  decode_superblock (encode_superblock sb ++ rest) = sb.
Proof.
  intros Hok. split; [apply length_encode_superblock|by apply decode_encode_superblock].
Qed.

(** an inode is 64 bytes on disk and is read back unchanged. *)
Lemma inode_roundtrip pi :
  pinode_ok pi → zlen (encode_inode pi) = sizeof_inode ∧ decode_inode (encode_inode pi) = pi.
Proof. intros Hok. split; [apply length_encode_inode, Hok|by apply decode_encode_inode]. Qed.
