(* ===== verification/BlockLoad.v ===== *)
(** * Allocation of blocks, inodes and their memory

    [udbfslib/allocate_memory_block.c], [allocate_memory_inode.c],
    [allocate_block_id.c], [allocate_inode_id.c], [load_block.c] and the
    memory allocators of [write_to_inode.c].  A structure argument of record
    type is a non-null pointer; a pointer the source may pass as NULL is an
    [option]. *)
From S2P Require Import Prelude Posix Bitmap LinkList UdbfsTypes.
Local Open Scope Z_scope.

(** ** Bit allocation on the mount *)

(** [udbfslib_allocate_bit( mount->block_bitmap, mount->block_bitmap_size,
    &mount->free_block_count )] *)
Definition udbfs_allocate_block_id : M world Z :=
  m ← gets w_mnt;
  bitmap ← deref (m_block_bitmap m);
  r ← deref (udbfslib_allocate_bit bitmap (m_block_bitmap_size m) (m_free_block_count m));
  let '(id, bitmap, free_count) := r in
  modify (set_w_mnt (set_m_free_block_count free_count
    (set_m_block_bitmap (Some bitmap) m)));;
  mret id.

Definition udbfslib_allocate_inode_id : M world Z :=
  m ← gets w_mnt;
  bitmap ← deref (m_inode_bitmap m);
  r ← deref (udbfslib_allocate_bit bitmap (m_inode_bitmap_size m) (m_free_inode_count m));
  let '(id, bitmap, free_count) := r in
  modify (set_w_mnt (set_m_free_inode_count free_count
    (set_m_inode_bitmap (Some bitmap) m)));;
  mret id.

(** ** Structures *)

(** The result is the structure the link point then points to; with [None]
    the link point is unchanged. *)
Definition udbfslib_allocate_memory_block (inode : loc) : M world (option block) :=
  ok ← malloc;
  mret (if (ok : bool) then Some (Block 0 0 0 0 inode) else None).

Definition block_links : M world Z :=
  m ← gets w_mnt;
  mret (i32 (Z.shiftr (m_block_size m) 3)).

(** The three allocators of [write_to_inode.c]: all entries are NULL. *)
Definition udbfslib_allocate_memory_indblock : M world (option indblock) :=
  blocks ← block_links;
  ok ← malloc;
  mret (if (ok : bool) then Some (Indblock 0 0 (replicate (Z.to_nat blocks) Null)) else None).

Definition udbfslib_allocate_memory_bindblock : M world (option bindblock) :=
  blocks ← block_links;
  ok ← malloc;
  mret (if (ok : bool) then Some (Bindblock 0 0 (replicate (Z.to_nat blocks) Null)) else None).

Definition udbfslib_allocate_memory_tindblock : M world (option tindblock) :=
  blocks ← block_links;
  ok ← malloc;
  mret (if (ok : bool) then Some (Tindblock 0 0 (replicate (Z.to_nat blocks) Null)) else None).

(** [udbfslib_link( &mount->opened_inodes, inode )] on the world. *)
Definition link_opened_inode (l : loc) : M world unit :=
  w ← gets id;
  r ← deref (udbfslib_link (m_opened_inodes (w_mnt w)) l (w_ilinks w));
  modify (λ w, set_w_ilinks r.2 (set_w_mnt (set_m_opened_inodes r.1 (w_mnt w)) w)).

(** [udbfslib_unlink( &inode->mount->opened_inodes, inode )] *)
Definition unlink_opened_inode (l : loc) : M world unit :=
  w ← gets id;
  r ← deref (udbfslib_unlink (m_opened_inodes (w_mnt w)) l (w_ilinks w));
  modify (λ w, set_w_ilinks r.2 (set_w_mnt (set_m_opened_inodes r.1 (w_mnt w)) w)).

(** [physical_offset] is left as [malloc] returned it. *)
Definition udbfslib_allocate_memory_inode : M world (option loc) :=
  ok ← malloc;
  if (ok : bool) then
    l ← gets w_next_loc;
    junk ← gets w_junk;
    modify (λ w, set_w_next_loc (Pos.succ l) w);;
    modify (λ w, set_w_inodes
      (<[l := Inode 0 0 0 junk [Null; Null; Null; Null] Null Null Null]> (w_inodes w)) w);;
    modify (λ w, set_w_ilinks (<[l := fresh_node]> (w_ilinks w)) w);;
    link_opened_inode l;;
    mret (Some l)
  else mret None.

(** 0 and the block the hook points to, or -1. *)
Definition udbfslib_load_block (inode : loc) (block_id file_offset : Z)
    : M world (Z * option block) :=
  m ← gets w_mnt;
  block ← udbfslib_allocate_memory_block inode;
  match block with
  | None => mret (-1, None)
  | Some b =>
      mret (0, Some (Block block_id file_offset (u64 (file_offset + m_block_size m))
                           (u64 (m_block_size m * block_id)) inode))
  end.

(** * Loading and unloading the index blocks of an inode

    [udbfslib/load_ind_block.c], [load_bind_block.c], [load_tind_block.c]
    and [unload_block.c]. *)

(** ** Loading *)

(** The words of the index block in [tmp_block]. *)
Definition tmp_words (tmp_block : list Z) (ind_links : Z) : list Z :=
  map (word_at tmp_block) (seq 0 (Z.to_nat ind_links)).

(** The [for] loop of [udbfslib_load_ind_block].  The entries that a failure
    leaves unassigned are wild. *)
Fixpoint load_ind_entries (inode : loc) (words : list Z) (offset_modifier : Z)
    : M world (Z * list (ptr block)) :=
  match words with
  | [] => mret (0, [])
  | w :: words =>
      m ← gets w_mnt;
      let next_modifier := u64 (offset_modifier + m_block_size m) in
      if w =? 0 then
        r ← load_ind_entries inode words next_modifier;
        mret (r.1, Null :: r.2)
      else
        b ← udbfslib_load_block inode w offset_modifier;
        if negb (b.1 =? 0) then
          mret (-1, replicate (S (length words)) Wild)
        else
          r ← load_ind_entries inode words next_modifier;
          mret (r.1, from_option Ptr Wild b.2 :: r.2)
  end.

(** Result code and new value of [*linkpoint]. *)
Definition udbfslib_load_ind_block (inode : loc) (block_id offset_modifier : Z)
    (linkpoint : ptr indblock) : M world (Z * ptr indblock) :=
  if block_id =? 0 then mret (0, linkpoint) else
  m ← gets w_mnt;
  ind_links ← block_links;
  ok ← malloc;
  if negb ok then mret (-1, linkpoint) else
  ok ← malloc;
  if negb ok then mret (-1, linkpoint) else
  let device_offset := u64 (block_id * m_block_size m) in
  tmp ← read_at device_offset (m_block_size m);
  match tmp with
  | None => mret (-1, linkpoint)
  | Some tmp_block =>
      r ← load_ind_entries inode (tmp_words tmp_block ind_links) offset_modifier;
      mret (r.1, Ptr (Indblock block_id device_offset r.2))
  end.

Fixpoint load_bind_entries (inode : loc) (words : list Z) (offset_modifier : Z)
    : M world (Z * list (ptr indblock)) :=
  match words with
  | [] => mret (0, [])
  | w :: words =>
      m ← gets w_mnt;
      let next_modifier := u64 (offset_modifier + m_ind_storage m) in
      if w =? 0 then
        r ← load_bind_entries inode words next_modifier;
        mret (r.1, Null :: r.2)
      else
        b ← udbfslib_load_ind_block inode w offset_modifier Wild;
        if negb (b.1 =? 0) then
          mret (-1, b.2 :: replicate (length words) Wild)
        else
          r ← load_bind_entries inode words next_modifier;
          mret (r.1, b.2 :: r.2)
  end.

Definition udbfslib_load_bind_block (inode : loc) (block_id offset_modifier : Z)
    (linkpoint : ptr bindblock) : M world (Z * ptr bindblock) :=
  if block_id =? 0 then mret (0, linkpoint) else
  m ← gets w_mnt;
  ind_links ← block_links;
  ok ← malloc;
  if negb ok then mret (-1, linkpoint) else
  ok ← malloc;
  if negb ok then mret (-1, linkpoint) else
  let device_offset := u64 (block_id * m_block_size m) in
  tmp ← read_at device_offset (m_block_size m);
  match tmp with
  | None => mret (-1, linkpoint)
  | Some tmp_block =>
      r ← load_bind_entries inode (tmp_words tmp_block ind_links) offset_modifier;
      mret (r.1, Ptr (Bindblock block_id device_offset r.2))
  end.

Fixpoint load_tind_entries (inode : loc) (words : list Z) (offset_modifier : Z)
    : M world (Z * list (ptr bindblock)) :=
  match words with
  | [] => mret (0, [])
  | w :: words =>
      m ← gets w_mnt;
      let next_modifier := u64 (offset_modifier + m_bind_storage m) in
      if w =? 0 then
        r ← load_tind_entries inode words next_modifier;
        mret (r.1, Null :: r.2)
      else
        b ← udbfslib_load_bind_block inode w offset_modifier Wild;
        if negb (b.1 =? 0) then
          mret (-1, b.2 :: replicate (length words) Wild)
        else
          r ← load_tind_entries inode words next_modifier;
          mret (r.1, b.2 :: r.2)
  end.

Definition udbfslib_load_tind_block (inode : loc) (block_id offset_modifier : Z)
    (linkpoint : ptr tindblock) : M world (Z * ptr tindblock) :=
  if block_id =? 0 then mret (0, linkpoint) else
  m ← gets w_mnt;
  ind_links ← block_links;
  ok ← malloc;
  if negb ok then mret (-1, linkpoint) else
  ok ← malloc;
  if negb ok then mret (-1, linkpoint) else
  let device_offset := u64 (block_id * m_block_size m) in
  tmp ← read_at device_offset (m_block_size m);
  match tmp with
  | None => mret (-1, linkpoint)
  | Some tmp_block =>
      r ← load_tind_entries inode (tmp_words tmp_block ind_links) offset_modifier;
      mret (r.1, Ptr (Tindblock block_id device_offset r.2))
  end.

(** ** Unloading *)

(** [udbfslib_unload_block]: the memory is released and the hook cleared. *)
Definition udbfslib_unload_block (block_hook : ptr block) : M world (ptr block) :=
  null ← is_null block_hook;
  mret Null.

(** The [for] loop of [udbfslib_unload_ind_block] over the entries left;
    the results of [write] are not looked at. *)
Fixpoint unload_ind_entries (entries : list (ptr block)) : M world unit :=
  match entries with
  | [] => mret tt
  | e :: entries =>
      null ← is_null e;
      block_id ← (if (null : bool) then mret 0
                  else b ← load e; udbfslib_unload_block e;; mret (b_id b));
      write (le_bytes 8 block_id);;
      unload_ind_entries entries
  end.

(** The entries [0 .. ind_links-1] of an array; reading more than it holds
    is undefined. *)
Definition array_prefix {A : Type} (a : list A) (n : Z) : M world (list A) :=
  if Z.of_nat (length a) <? n then stuck else mret (take (Z.to_nat n) a).

Definition udbfslib_unload_ind_block (indblock_hook : ptr indblock) : M world unit :=
  ind_links ← block_links;
  null ← is_null indblock_hook;
  if (null : bool) then mret tt else
  ib ← load indblock_hook;
  lseek (ib_device_offset ib);;
  entries ← array_prefix (ib_block ib) ind_links;
  unload_ind_entries entries.

(** The [for] loop of [udbfslib_unload_bind_block]. *)
Fixpoint unload_bind_entries (entries : list (ptr indblock)) (device_offset : Z) : M world unit :=
  match entries with
  | [] => mret tt
  | e :: entries =>
      null ← is_null e;
      block_id ← (if (null : bool) then mret 0
                  else ib ← load e; udbfslib_unload_ind_block e;; mret (ib_id ib));
      write_at device_offset (le_bytes 8 block_id);;
      unload_bind_entries entries (u64 (device_offset + 8))
  end.

Definition udbfslib_unload_bind_block (bindblock_hook : ptr bindblock) : M world unit :=
  ind_links ← block_links;
  null ← is_null bindblock_hook;
  if (null : bool) then mret tt else
  bb ← load bindblock_hook;
  entries ← array_prefix (bb_indblock bb) ind_links;
  unload_bind_entries entries (bb_device_offset bb).

(** The [for] loop of [udbfslib_unload_tind_block]. *)
Fixpoint unload_tind_entries (entries : list (ptr bindblock)) (device_offset : Z) : M world unit :=
  match entries with
  | [] => mret tt
  | e :: entries =>
      null ← is_null e;
      block_id ← (if (null : bool) then mret 0
                  else bb ← load e; udbfslib_unload_bind_block e;; mret (bb_id bb));
      write_at device_offset (le_bytes 8 block_id);;
      unload_tind_entries entries (u64 (device_offset + 8))
  end.

Definition udbfslib_unload_tind_block (tindblock_hook : ptr tindblock) : M world unit :=
  ind_links ← block_links;
  null ← is_null tindblock_hook;
  if (null : bool) then mret tt else
  tb ← load tindblock_hook;
  entries ← array_prefix (tb_bindblock tb) ind_links;
  unload_tind_entries entries (tb_device_offset tb).
