(* ===== verification/InodeBlocks.v ===== *)
(** * Finding and adding the blocks of an inode

    [udbfslib/select_active_inode_block.c] and the extension functions of
    [udbfslib/write_to_inode.c].  A returned [UDBFSLIB_BLOCK *] is the path
    to the block, [None] being NULL. *)
From S2P Require Import Prelude Posix Bitmap LinkList UdbfsTypes BlockLoad.
Local Open Scope Z_scope.

(** ** udbfslib_select_active_inode_block *)

(** [return( a->block[id] )]: the path when it is not NULL. *)
Definition return_slot {S : Type} (n : inode) (r : bref) : M S (option bref) :=
  match slot_at n r with
  | Null => mret None
  | Wild => stuck
  | Ptr _ => mret (Some r)
  end.

Definition udbfslib_select_active_inode_block {S : Type} (m : mount) (n : inode)
    : M S (option bref) :=
  let cursor := i_cursor n in
  if cursor <? m_dir_storage m then
    q ← udiv cursor (m_block_size m);
    return_slot n (BDirect (i32 q))
  else
  let adjusted_offset := u64 (cursor - m_dir_storage m) in
  if cursor <? u64 (m_ind_storage m + m_dir_storage m) then
    q ← udiv adjusted_offset (m_block_size m);
    return_slot n (BInd (i32 q))
  else
  let adjusted_offset := u64 (adjusted_offset - m_ind_storage m) in
  if cursor <? u64 (u64 (m_bind_storage m + m_ind_storage m) + m_dir_storage m) then
    ind_id ← udiv adjusted_offset (m_ind_storage m);
    r ← umod adjusted_offset (m_ind_storage m);
    id ← udiv r (m_block_size m);
    return_slot n (BBind (i32 ind_id) (i32 id))
  else
  let adjusted_offset := u64 (adjusted_offset - m_bind_storage m) in
  if cursor <? u64 (u64 (u64 (m_tind_storage m + m_bind_storage m) + m_ind_storage m)
                    + m_dir_storage m) then
    bind_id ← udiv adjusted_offset (m_bind_storage m);
    ind_adjusted_offset ← umod adjusted_offset (m_bind_storage m);
    ind_id ← udiv ind_adjusted_offset (m_ind_storage m);
    r ← umod ind_adjusted_offset (m_ind_storage m);
    id ← udiv r (m_block_size m);
    return_slot n (BTind (i32 bind_id) (i32 ind_id) (i32 id))
  else mret None.

(** ** Extension

    Each function returns the structure it was given, as it leaves it, and
    the path of the new block inside of it. *)

(** The body of the [for] loop at index [i], [fuel] iterations being left. *)
Fixpoint extend_indblock_loop (fuel : nat) (i : Z) (indblock : indblock) (inode : loc)
    (modifier_offset : Z) : M world (UdbfsTypes.indblock * option Z) :=
  match fuel with
  | O => mret (indblock, None)
  | S fuel =>
      entry ← deref (array_at (ib_block indblock) i);
      null ← is_null entry;
      if (null : bool) then
        m ← gets w_mnt;
        b ← udbfslib_allocate_memory_block inode;
        b ← deref b;
        let b := set_b_offset_start (u64 (modifier_offset + u64 (i * m_block_size m))) b in
        mret (set_ib_block (array_set (ib_block indblock) i (Ptr b)) indblock, Some i)
      else extend_indblock_loop fuel (i + 1) indblock inode modifier_offset
  end.

Definition udbfslib_extend_indblock (indblock : indblock) (inode : loc) (modifier_offset : Z)
    : M world (UdbfsTypes.indblock * option Z) :=
  blocks ← block_links;
  extend_indblock_loop (Z.to_nat blocks) 0 indblock inode modifier_offset.

Fixpoint extend_bindblock_loop (fuel : nat) (i : Z) (bindblock : bindblock) (inode : loc)
    (modifier_offset : Z) : M world (UdbfsTypes.bindblock * option (Z * Z)) :=
  match fuel with
  | O => mret (bindblock, None)
  | S fuel =>
      m ← gets w_mnt;
      entry ← deref (array_at (bb_indblock bindblock) i);
      null ← is_null entry;
      if (null : bool) then
        ib ← udbfslib_allocate_memory_indblock;
        ib ← deref ib;
        id ← udbfs_allocate_block_id;
        let ib := Indblock id (u64 (id * m_block_size m)) (ib_block ib) in
        r ← udbfslib_extend_indblock ib inode modifier_offset;
        mret (set_bb_indblock (array_set (bb_indblock bindblock) i (Ptr r.1)) bindblock,
              pair i <$> r.2)
      else
        ib ← load entry;
        r ← udbfslib_extend_indblock ib inode modifier_offset;
        let bindblock :=
          set_bb_indblock (array_set (bb_indblock bindblock) i (Ptr r.1)) bindblock in
        match r.2 with
        | Some j => mret (bindblock, Some (i, j))
        | None => extend_bindblock_loop fuel (i + 1) bindblock inode
                    (u64 (modifier_offset + m_ind_storage m))
        end
  end.

Definition udbfslib_extend_bindblock (bindblock : bindblock) (inode : loc) (modifier_offset : Z)
    : M world (UdbfsTypes.bindblock * option (Z * Z)) :=
  indblocks ← block_links;
  extend_bindblock_loop (Z.to_nat indblocks) 0 bindblock inode modifier_offset.

Fixpoint extend_tindblock_loop (fuel : nat) (i : Z) (tindblock : tindblock) (inode : loc)
    (modifier_offset : Z) : M world (UdbfsTypes.tindblock * option (Z * (Z * Z))) :=
  match fuel with
  | O => mret (tindblock, None)
  | S fuel =>
      m ← gets w_mnt;
      entry ← deref (array_at (tb_bindblock tindblock) i);
      null ← is_null entry;
      if (null : bool) then
        bb ← udbfslib_allocate_memory_bindblock;
        bb ← deref bb;
        id ← udbfs_allocate_block_id;
        let bb := Bindblock id (u64 (id * m_block_size m)) (bb_indblock bb) in
        r ← udbfslib_extend_bindblock bb inode modifier_offset;
        mret (set_tb_bindblock (array_set (tb_bindblock tindblock) i (Ptr r.1)) tindblock,
              pair i <$> r.2)
      else
        bb ← load entry;
        r ← udbfslib_extend_bindblock bb inode modifier_offset;
        let tindblock :=
          set_tb_bindblock (array_set (tb_bindblock tindblock) i (Ptr r.1)) tindblock in
        match r.2 with
        | Some ji => mret (tindblock, Some (i, ji))
        | None => extend_tindblock_loop fuel (i + 1) tindblock inode
                    (u64 (modifier_offset + m_bind_storage m))
        end
  end.

Definition udbfslib_extend_tindblock (tindblock : tindblock) (inode : loc) (modifier_offset : Z)
    : M world (UdbfsTypes.tindblock * option (Z * (Z * Z))) :=
  bindblocks ← block_links;
  extend_tindblock_loop (Z.to_nat bindblocks) 0 tindblock inode modifier_offset.

(** [if( inode->block[j] == NULL ) { ... goto finalize; }], else [rest]. *)
Definition extend_direct (l : loc) (j : Z) (rest : M world (option bref))
    : M world (option bref) :=
  m ← gets w_mnt;
  n ← get_inode l;
  entry ← deref (array_at (i_block n) j);
  null ← is_null entry;
  if (null : bool) then
    b ← udbfslib_allocate_memory_block l;
    b ← deref b;
    let b := set_b_offset_start (u64 (m_block_size m * j)) b in
    put_inode l (set_i_block (array_set (i_block n) j (Ptr b)) n);;
    mret (Some (BDirect j))
  else rest.

Definition extend_ind (l : loc) (rest : M world (option bref)) : M world (option bref) :=
  m ← gets w_mnt;
  n ← get_inode l;
  null ← is_null (i_ind_block n);
  ib ← (if (null : bool) then
          ib ← udbfslib_allocate_memory_indblock;
          ib ← deref ib;
          id ← udbfs_allocate_block_id;
          mret (Indblock id (u64 (id * m_block_size m)) (ib_block ib))
        else load (i_ind_block n));
  r ← udbfslib_extend_indblock ib l (m_dir_storage m);
  put_inode l (set_i_ind_block (Ptr r.1) n);;
  match r.2 with
  | Some i => mret (Some (BInd i))
  | None => rest
  end.

Definition extend_bind (l : loc) (rest : M world (option bref)) : M world (option bref) :=
  m ← gets w_mnt;
  n ← get_inode l;
  null ← is_null (i_bind_block n);
  bb ← (if (null : bool) then
          bb ← udbfslib_allocate_memory_bindblock;
          bb ← deref bb;
          id ← udbfs_allocate_block_id;
          mret (Bindblock id (u64 (id * m_block_size m)) (bb_indblock bb))
        else load (i_bind_block n));
  r ← udbfslib_extend_bindblock bb l (u64 (m_dir_storage m + m_ind_storage m));
  put_inode l (set_i_bind_block (Ptr r.1) n);;
  match r.2 with
  | Some (j, i) => mret (Some (BBind j i))
  | None => rest
  end.

Definition extend_tind (l : loc) : M world (option bref) :=
  m ← gets w_mnt;
  n ← get_inode l;
  null ← is_null (i_tind_block n);
  tb ← (if (null : bool) then
          tb ← udbfslib_allocate_memory_tindblock;
          tb ← deref tb;
          id ← udbfs_allocate_block_id;
          mret (Tindblock id (u64 (id * m_block_size m)) (tb_bindblock tb))
        else load (i_tind_block n));
  r ← udbfslib_extend_tindblock tb l
        (u64 (u64 (m_dir_storage m + m_ind_storage m) + m_bind_storage m));
  put_inode l (set_i_tind_block (Ptr r.1) n);;
  match r.2 with
  | Some (k, (j, i)) => mret (Some (BTind k j i))
  | None => mret None
  end.

(** The [finalize:] label: the identity of the new block is filled in. *)
Definition finalize_block (m : mount) (block_id : Z) (b : block) : block :=
  Block block_id (b_offset_start b) (u64 (b_offset_start b + m_block_size m))
    (u64 (block_id * m_block_size m)) (b_inode b).

Definition udbfslib_extend_inode (l : loc) : M world (option bref) :=
  block_id ← udbfs_allocate_block_id;
  if block_id =? 0 then mret None else
  r ← extend_direct l 0 (extend_direct l 1 (extend_direct l 2 (extend_direct l 3
        (extend_ind l (extend_bind l (extend_tind l))))));
  match r with
  | None => mret None
  | Some path =>
      m ← gets w_mnt;
      n ← get_inode l;
      put_inode l (block_update (finalize_block m block_id) path n);;
      mret (Some path)
  end.
