(* ===== verification/InodeIO.v ===== *)
(** * Inode operations

    [udbfslib/write_to_inode.c] ([udbfs_write_to_inode]),
    [read_from_inode.c], [eoi.c], [create_inode.c], [open_inode.c],
    [close_inode.c], [free_inode.c] and [set_boot_loader_inode.c]. *)
From S2P Require Import Prelude Posix Bitmap LinkList UdbfsTypes BlockLoad.
From S2P Require Import InodeBlocks.
Local Open Scope Z_scope.

(** ** Writing and reading *)

(** [&data[data_offset]], [n] bytes; past the end of the caller's buffer the
    access is undefined, and so is a negative length. *)
Definition data_slice {S : Type} (data : list Z) (data_offset n : Z) : M S (list Z) :=
  if (0 <=? data_offset) && (0 <=? n) && (data_offset + n <=? zlen data)
  then mret (dread data data_offset n) else stuck.

(** One iteration of the loop of [udbfs_write_to_inode] moves
    [partial_write_size] bytes; [fuel] bounds the iterations. *)
Fixpoint write_to_inode_loop (fuel : nat) (l : loc) (data : list Z) (size data_offset : Z)
    : M world Z :=
  match fuel with
  | O => no_fuel
  | S fuel =>
      if negb (0 <? size) then mret data_offset else
      m ← gets w_mnt;
      n ← get_inode l;
      path ← udbfslib_select_active_inode_block m n;
      path ← match path with
             | Some path => mret (Some path)
             | None => udbfslib_extend_inode l
             end;
      match path with
      | None => mret data_offset
      | Some path =>
          n ← get_inode l;
          b ← load (slot_at n path);
          let partial := i32 (u64 (b_offset_end b - i_cursor n)) in
          let partial := if size <? u32 partial then i32 size else partial in
          let physical_offset :=
            u64 (b_device_offset b + u64 (i_cursor n - b_offset_start b)) in
          chunk ← data_slice data data_offset partial;
          ok ← write_at physical_offset chunk;
          if negb ok then mret data_offset else
          let cursor := u64 (i_cursor n + partial) in
          let n := set_i_cursor cursor n in
          put_inode l (if i_size n <? cursor then set_i_size cursor n else n);;
          write_to_inode_loop fuel l data (u32 (size - partial)) (i32 (data_offset + partial))
      end
  end.

Definition udbfs_write_to_inode (inode : option loc) (data : list Z) (size : Z) : M world Z :=
  match inode with
  | None => mret 0
  | Some l => write_to_inode_loop (S (Z.to_nat size)) l data size 0
  end.

(** The result is the count and the bytes stored in the caller's buffer. *)
Fixpoint read_from_inode_loop (fuel : nat) (l : loc) (data : list Z) (size data_offset : Z)
    : M world (Z * list Z) :=
  match fuel with
  | O => no_fuel
  | S fuel =>
      if negb (0 <? size) then mret (data_offset, data) else
      m ← gets w_mnt;
      n ← get_inode l;
      path ← udbfslib_select_active_inode_block m n;
      path ← deref path;
      b ← load (slot_at n path);
      let partial := i32 (u64 (b_offset_end b - i_cursor n)) in
      let partial := if size <? u32 partial then i32 size else partial in
      let physical_offset :=
        u64 (u64 (b_device_offset b + i_cursor n) - b_offset_start b) in
      if partial <? 0 then stuck else
      chunk ← read_at physical_offset partial;
      match chunk with
      | None => mret (data_offset, data)
      | Some chunk =>
          put_inode l (set_i_cursor (u64 (i_cursor n + partial)) n);;
          read_from_inode_loop fuel l (data ++ chunk) (u32 (size - partial))
            (i32 (data_offset + partial))
      end
  end.

Definition udbfs_read_from_inode (inode : option loc) (size : Z) : M world (Z * list Z) :=
  match inode with
  | None => mret (0, [])
  | Some l =>
      n ← get_inode l;
      let partial := i32 (u64 (i_size n - i_cursor n)) in
      let size := if size <? u32 partial then size else u32 partial in
      read_from_inode_loop (S (Z.to_nat size)) l [] size 0
  end.

Definition udbfs_eoi (l : loc) : M world Z :=
  n ← get_inode l;
  mret (if i_cursor n =? i_size n then 1 else 0).

(** ** Creating, opening, closing, freeing *)

Definition udbfs_create_inode : M world (option loc) :=
  inode ← udbfslib_allocate_memory_inode;
  match inode with
  | None => mret None
  | Some l =>
      id ← udbfslib_allocate_inode_id;
      n ← get_inode l;
      put_inode l (set_i_id id n);;
      if id =? 0 then
        free_inode_memory l;;
        mret None
      else
        m ← gets w_mnt;
        n ← get_inode l;
        put_inode l (set_i_physical_offset
          (u64 (m_inode_table_offset m + u64 (sizeof_inode * id))) n);;
        mret (Some l)
  end.

(** [if( inode->block[j] != NULL ) { ... }] of [udbfs_close_inode]: the word
    for the physical inode. *)
Definition close_direct (l : loc) (j : Z) : M world Z :=
  n ← get_inode l;
  entry ← deref (array_at (i_block n) j);
  null ← is_null entry;
  if (null : bool) then mret 0 else
  b ← load entry;
  entry ← udbfslib_unload_block entry;
  put_inode l (set_i_block (array_set (i_block n) j entry) n);;
  mret (b_id b).

Definition udbfs_close_inode (inode : option loc) : M world Z :=
  match inode with
  | None => mret 0
  | Some l =>
      n ← get_inode l;
      unlink_opened_inode l;;
      b0 ← close_direct l 0;
      b1 ← close_direct l 1;
      b2 ← close_direct l 2;
      b3 ← close_direct l 3;
      null ← is_null (i_ind_block n);
      ind ← (if (null : bool) then mret 0 else
               ib ← load (i_ind_block n);
               udbfslib_unload_ind_block (i_ind_block n);; mret (ib_id ib));
      null ← is_null (i_bind_block n);
      bind ← (if (null : bool) then mret 0 else
                bb ← load (i_bind_block n);
                udbfslib_unload_bind_block (i_bind_block n);; mret (bb_id bb));
      null ← is_null (i_tind_block n);
      tind ← (if (null : bool) then mret 0 else
                tb ← load (i_tind_block n);
                udbfslib_unload_tind_block (i_tind_block n);; mret (tb_id tb));
      write_at (i_physical_offset n)
        (encode_inode (UdbfsInode (i_size n) [b0; b1; b2; b3] ind bind tind));;
      free_inode_memory l;;
      mret 0
  end.

(** [udbfslib_load_block( inode, id, offset, &inode->block[j] )] *)
Definition open_direct (l : loc) (j id offset : Z) : M world Z :=
  r ← udbfslib_load_block l id offset;
  n ← get_inode l;
  match r.2 with
  | Some b => put_inode l (set_i_block (array_set (i_block n) j (Ptr b)) n);; mret r.1
  | None => mret r.1
  end.

(** The chain of loads of [udbfs_open_inode], cut at the first failure. *)
Definition open_blocks (l : loc) (pi : udbfs_inode) : M world unit :=
  m ← gets w_mnt;
  let id j := nth j (pi_block pi) 0 in
  let bs := m_block_size m in
  let dir := m_dir_storage m in
  let ind := m_ind_storage m in
  let bind := m_bind_storage m in
  c ← open_direct l 0 (id 0%nat) 0;
  if negb (c =? 0) then mret tt else
  c ← open_direct l 1 (id 1%nat) bs;
  if negb (c =? 0) then mret tt else
  c ← open_direct l 2 (id 2%nat) (u64 (bs * 2));
  if negb (c =? 0) then mret tt else
  c ← open_direct l 3 (id 3%nat) (u64 (bs * 3));
  if negb (c =? 0) then mret tt else
  n ← get_inode l;
  r ← udbfslib_load_ind_block l (pi_ind_block pi) dir (i_ind_block n);
  put_inode l (set_i_ind_block r.2 n);;
  if negb (r.1 =? 0) then mret tt else
  n ← get_inode l;
  r ← udbfslib_load_bind_block l (pi_bind_block pi) (u64 (dir + ind)) (i_bind_block n);
  put_inode l (set_i_bind_block r.2 n);;
  if negb (r.1 =? 0) then mret tt else
  n ← get_inode l;
  r ← udbfslib_load_tind_block l (pi_tind_block pi) (u64 (u64 (dir + ind) + bind))
        (i_tind_block n);
  put_inode l (set_i_tind_block r.2 n).

Definition udbfs_open_inode (inode_id : Z) : M world (option loc) :=
  inode ← udbfslib_allocate_memory_inode;
  match inode with
  | None => mret None
  | Some l =>
      m ← gets w_mnt;
      n ← get_inode l;
      let physical_offset := u64 (m_inode_table_offset m + u64 (sizeof_inode * inode_id)) in
      put_inode l (set_i_physical_offset physical_offset (set_i_id inode_id n));;
      bytes ← read_at physical_offset sizeof_inode;
      match bytes with
      | None => udbfs_close_inode (Some l);; mret None
      | Some bytes =>
          let pi := decode_inode bytes in
          n ← get_inode l;
          put_inode l (set_i_size (pi_size pi) n);;
          open_blocks l pi;;
          mret (Some l)
      end
  end.

(** The [while( inode )] loop of [udbfs_free_inode]: is the inode opened?
    Following a freed inode is undefined. *)
Fixpoint find_opened (fuel : nat) (inode : option loc) (inode_id : Z) : M world bool :=
  match fuel with
  | O => no_fuel
  | S fuel =>
      match inode with
      | None => mret false
      | Some l =>
          n ← get_inode l;
          if i_id n =? inode_id then mret true else
          links ← gets w_ilinks;
          node ← deref (links !! l);
          find_opened fuel (n_next node) inode_id
      end
  end.

Definition udbfs_free_inode (inode_id : Z) : M world Z :=
  m ← gets w_mnt;
  count ← gets (λ w, size (w_inodes w));
  opened ← find_opened (S count) (m_opened_inodes m) inode_id;
  if (opened : bool) then mret (-1) else
  bitmap ← deref (m_inode_bitmap m);
  r ← deref (udbfslib_deallocate_bit bitmap (m_inode_bitmap_size m)
               (m_free_inode_count m) inode_id);
  let '(code, bitmap, free_count) := r in
  modify (λ w, set_w_mnt (set_m_free_inode_count free_count
    (set_m_inode_bitmap (Some bitmap) (w_mnt w))) w);;
  mret code.

Definition udbfs_set_boot_loader_inode (inode_id : Z) : M world Z :=
  m ← gets w_mnt;
  if inode_id <? m_inode_count m then
    modify (λ w, set_w_mnt (set_m_boot_loader_inode inode_id (w_mnt w)) w);;
    mret 0
  else mret 1.
