(* ===== verification/Mount.v ===== *)
(** * Mounting and unmounting

    [udbfslib/mount.c]. *)
From S2P Require Import Prelude Posix Bitmap LinkList UdbfsTypes BlockLoad.
From S2P Require Import InodeBlocks InodeIO.
Local Open Scope Z_scope.

(** ** udbfslib_validate_superblock *)

(** The tests on the content of the superblock. *)
Definition superblock_valid (sb : superblock) : bool :=
  if negb (sb_magic_number sb =? UDBFS_MAGIC) then false
  else if sb_superblock_version sb =? 1 then
    if 20 <? sb_block_size sb then false
    else if sb_inode_count sb <? sb_free_inode_count sb then false
    else if sb_block_count sb <? sb_free_block_count sb then false
    else true
  else false.

Definition udbfslib_validate_superblock : M world (option superblock) :=
  ok ← malloc;
  if negb ok then mret None else
  bytes ← read_at 1024 sizeof_superblock;
  match bytes with
  | None => mret None
  | Some bytes =>
      let sb := decode_superblock bytes in
      mret (if superblock_valid sb then Some sb else None)
  end.

(** ** udbfs_unmount *)

(** The loop closing the inodes left open. *)
Fixpoint close_opened (fuel : nat) (inode : option loc) : M world unit :=
  match fuel with
  | O => no_fuel
  | S fuel =>
      match inode with
      | None => mret tt
      | Some l =>
          get_inode l;;
          links ← gets w_ilinks;
          node ← deref (links !! l);
          udbfs_close_inode (Some l);;
          close_opened fuel (n_next node)
      end
  end.

(** The superblock written back; [log_block_size - 7] is stored in a byte. *)
Definition mount_superblock (m : mount) : superblock := {|
  sb_boot_loader_inode := m_boot_loader_inode m;
  sb_inode_first_block := m_inode_first_block m;
  sb_unique_fs_signature := m_unique_fs_signature m;
  sb_block_count := m_block_count m;
  sb_inode_count := m_inode_count m;
  sb_free_block_count := m_free_block_count m;
  sb_free_inode_count := m_free_inode_count m;
  sb_bitmaps_block := m_bitmaps_block m;
  sb_journal_inode := m_journal_inode m;
  sb_bad_block_inode := m_bad_block_inode m;
  sb_magic_number := m_magic_number m;
  sb_last_check := m_last_check m;
  sb_max_interval := m_max_interval m;
  sb_last_mount := m_last_mount m;
  sb_mount_count := m_mount_count m;
  sb_max_mount_count := m_max_mount_count m;
  sb_creator_os := m_creator_os m;
  sb_superblock_version := m_superblock_version m;
  sb_block_size := u8 (m_log_block_size m - 7);
  sb_inode_format := m_inode_format m
|}.

Definition save_block_bitmap : M world unit :=
  m ← gets w_mnt;
  match m_block_bitmap m with
  | None => mret tt
  | Some bitmap =>
      write_at (m_block_bitmap_offset m) bitmap;;
      modify (λ w, set_w_mnt (set_m_block_bitmap None (w_mnt w)) w)
  end.

Definition save_inode_bitmap : M world unit :=
  m ← gets w_mnt;
  match m_inode_bitmap m with
  | None => mret tt
  | Some bitmap =>
      write_at (m_inode_bitmap_offset m) bitmap;;
      modify (λ w, set_w_mnt (set_m_inode_bitmap None (w_mnt w)) w)
  end.

(** [udbfslib_unlink( &mounted_devices, mount ); free( mount );] *)
Definition drop_mount (l : loc) : M world unit :=
  w ← gets id;
  r ← deref (udbfslib_unlink (w_mounted_devices w) l (w_mlinks w));
  modify (λ w, set_w_mlinks (delete l r.2) (set_w_mounted_devices r.1 w)).

Definition udbfs_unmount (mount : option loc) : M world unit :=
  match mount with
  | None => mret tt
  | Some l =>
      m ← gets w_mnt;
      count ← gets (λ w, size (w_inodes w));
      close_opened (S count) (m_opened_inodes m);;
      save_block_bitmap;;
      save_inode_bitmap;;
      m ← gets w_mnt;
      write_at 1024 (encode_superblock (mount_superblock m));;
      (if m_block_device m =? 0 then mret tt
       else close_fd;; modify (λ w, set_w_mnt (set_m_block_device 0 (w_mnt w)) w));;
      drop_mount l
  end.

(** ** udbfs_mount *)

(** The structure as first initialised; the fields the source does not
    assign are those of [junk], the memory [malloc] returned. *)
Definition default_mount (mount_fd : Z) (junk : mount) : mount := {|
  m_block_device := mount_fd;
  m_block_bitmap := None;
  m_inode_bitmap := None;
  m_mount_count := m_mount_count junk;
  m_max_mount_count := m_max_mount_count junk;
  m_creator_os := m_creator_os junk;
  m_superblock_version := m_superblock_version junk;
  m_log_block_size := m_log_block_size junk;
  m_inode_format := m_inode_format junk;
  m_block_size := 0;
  m_block_count := 0;
  m_inode_count := 0;
  m_free_block_count := 0;
  m_free_inode_count := 0;
  m_block_bitmap_offset := 0;
  m_block_bitmap_size := 0;
  m_inode_bitmap_offset := 0;
  m_inode_bitmap_size := 0;
  m_inode_table_offset := 0;
  m_dir_storage := 0;
  m_ind_storage := 0;
  m_bind_storage := 0;
  m_tind_storage := 0;
  m_boot_loader_inode := 0;
  m_inode_first_block := m_inode_first_block junk;
  m_unique_fs_signature := m_unique_fs_signature junk;
  m_bitmaps_block := m_bitmaps_block junk;
  m_journal_inode := m_journal_inode junk;
  m_bad_block_inode := m_bad_block_inode junk;
  m_magic_number := m_magic_number junk;
  m_last_check := m_last_check junk;
  m_last_mount := m_last_mount junk;
  m_max_interval := m_max_interval junk;
  m_opened_inodes := m_opened_inodes junk
|}.

(** The fields taken from the superblock. *)
Definition fill_mount (sb : superblock) (m : mount) : mount :=
  let log_block_size := u8 (sb_block_size sb + 7) in
  let block_size := u64 (i32 (Z.shiftl 1 log_block_size)) in
  let block_bitmap_offset := u64 (sb_bitmaps_block sb * block_size) in
  let block_bitmap_size := Z.shiftr (u64 (sb_block_count sb + 7)) 3 in
  {|
  m_block_device := m_block_device m;
  m_block_bitmap := m_block_bitmap m;
  m_inode_bitmap := m_inode_bitmap m;
  m_mount_count := sb_mount_count sb;
  m_max_mount_count := sb_max_mount_count sb;
  m_creator_os := sb_creator_os sb;
  m_superblock_version := sb_superblock_version sb;
  m_log_block_size := log_block_size;
  m_inode_format := sb_inode_format sb;
  m_block_size := block_size;
  m_block_count := sb_block_count sb;
  m_inode_count := sb_inode_count sb;
  m_free_block_count := sb_free_block_count sb;
  m_free_inode_count := sb_free_inode_count sb;
  m_block_bitmap_offset := block_bitmap_offset;
  m_block_bitmap_size := block_bitmap_size;
  m_inode_bitmap_offset := u64 (block_bitmap_offset + block_bitmap_size);
  m_inode_bitmap_size := Z.shiftr (u64 (sb_inode_count sb + 7)) 3;
  m_inode_table_offset := u64 (sb_inode_first_block sb * block_size);
  m_dir_storage := m_dir_storage m;
  m_ind_storage := m_ind_storage m;
  m_bind_storage := m_bind_storage m;
  m_tind_storage := m_tind_storage m;
  m_boot_loader_inode := sb_boot_loader_inode sb;
  m_inode_first_block := sb_inode_first_block sb;
  m_unique_fs_signature := m_unique_fs_signature m;
  m_bitmaps_block := sb_bitmaps_block sb;
  m_journal_inode := sb_journal_inode sb;
  m_bad_block_inode := sb_bad_block_inode sb;
  m_magic_number := sb_magic_number sb;
  m_last_check := sb_last_check sb;
  m_last_mount := sb_last_mount sb;
  m_max_interval := sb_max_interval sb;
  m_opened_inodes := None
|}.

(** The storage covered by each level of indirection. *)
Definition set_storages (m : mount) : mount :=
  let bs := m_block_size m in
  let links := Z.shiftr bs 3 in
  let dir := u64 (Z.shiftl bs 2) in
  let ind := u64 (links * bs) in
  let bind := u64 (links * ind) in
  let tind := u64 (links * bind) in
  set_m_tind_storage tind (set_m_bind_storage bind (set_m_ind_storage ind
    (set_m_dir_storage dir m))).

(** [failed_mount:] *)
Definition failed_mount (mount_fd : Z) (mount : option loc) : M world (option loc) :=
  (if mount_fd =? 0 then mret tt else close_fd);;
  udbfs_unmount mount;;
  mret None.

Definition open_device : M world Z := λ w,
  if w_host_fd w =? -1 then Ok (-1) w
  else Ok (w_host_fd w) (set_w_dev (Device (d_bytes (w_dev w)) 0 true) w).

(** [malloc( size )] for a bitmap: its content is indeterminate. *)
Definition malloc_bitmap (size : Z) : M world (option (list Z)) :=
  ok ← malloc;
  junk ← gets w_junk;
  mret (if (ok : bool) then Some (replicate (Z.to_nat size) (u8 junk)) else None).

(** Allocation and loading of the two bitmaps; [false] on any failure. *)
Definition load_bitmaps : M world bool :=
  m ← gets w_mnt;
  block_bitmap ← malloc_bitmap (m_block_bitmap_size m);
  modify (λ w, set_w_mnt (set_m_block_bitmap block_bitmap (w_mnt w)) w);;
  if bool_decide (block_bitmap = None) then mret false else
  inode_bitmap ← malloc_bitmap (m_inode_bitmap_size m);
  modify (λ w, set_w_mnt (set_m_inode_bitmap inode_bitmap (w_mnt w)) w);;
  if bool_decide (inode_bitmap = None) then mret false else
  bytes ← read_at (m_block_bitmap_offset m) (m_block_bitmap_size m);
  match bytes with
  | None => mret false
  | Some bytes =>
      modify (λ w, set_w_mnt (set_m_block_bitmap (Some bytes) (w_mnt w)) w);;
      bytes ← read_at (m_inode_bitmap_offset m) (m_inode_bitmap_size m);
      match bytes with
      | None => mret false
      | Some bytes =>
          modify (λ w, set_w_mnt (set_m_inode_bitmap (Some bytes) (w_mnt w)) w);;
          mret true
      end
  end.

(** [udbfslib_link( &mounted_devices, mount )] *)
Definition link_mount (l : loc) : M world unit :=
  w ← gets id;
  r ← deref (udbfslib_link (w_mounted_devices w) l (w_mlinks w));
  modify (λ w, set_w_mlinks r.2 (set_w_mounted_devices r.1 w)).

Definition udbfs_mount : M world (option loc) :=
  mount_fd ← open_device;
  if mount_fd =? -1 then failed_mount mount_fd None else
  ok ← malloc;
  if negb ok then failed_mount mount_fd None else
  l ← gets w_next_loc;
  modify (λ w, set_w_next_loc (Pos.succ l) (set_w_mloc l
    (set_w_mlinks (<[l := fresh_node]> (w_mlinks w)) w)));;
  modify (λ w, set_w_mnt (default_mount mount_fd (w_mnt w)) w);;
  sb ← udbfslib_validate_superblock;
  match sb with
  | None => failed_mount mount_fd (Some l)
  | Some sb =>
      modify (λ w, set_w_mnt (fill_mount sb (w_mnt w)) w);;
      ok ← load_bitmaps;
      if negb ok then failed_mount mount_fd (Some l) else
      modify (λ w, set_w_mnt (set_storages (w_mnt w)) w);;
      link_mount l;;
      mret (Some l)
  end.
