(* ===== verification/Layout.v ===== *)
(** * Block layouts: the abstraction of an inode's index trees

    A layout lists the numbers of the data blocks and of the index blocks of
    a file, level by level; [conc_inode] is the in-memory tree the library
    keeps for it.  [ext_layout] is the specification of adding one block.
    [Ln] is the number of links in an index block, so that a block has
    [8 * Ln] bytes. *)
From S2P Require Import Prelude Posix LinkList UdbfsTypes.
Local Open Scope Z_scope.

(** An index block: its number and what it refers to. *)
Abbreviation lind := (Z * list Z)%type.
Abbreviation lbind := (Z * list lind)%type.
Abbreviation ltind := (Z * list lbind)%type.

Record layout : Type := Layout {
  ly_direct : list Z;
  ly_ind : option lind;
  ly_bind : option lbind;
  ly_tind : option ltind
}.

Definition empty_layout : layout := Layout [] None None None.

(** ** Data and index blocks *)

Definition bind_data (b : lbind) : list Z := b.2 ≫= snd.
Definition tind_data (t : ltind) : list Z := t.2 ≫= bind_data.

Definition opt_list {A B : Type} (f : A → list B) (o : option A) : list B :=
  from_option f [] o.

(** The data blocks, in file order. *)
Definition ly_data (ly : layout) : list Z :=
  ly_direct ly ++ opt_list snd (ly_ind ly) ++ opt_list bind_data (ly_bind ly)
    ++ opt_list tind_data (ly_tind ly).

Definition ind_meta (i : lind) : list Z := [i.1].
Definition bind_meta (b : lbind) : list Z := b.1 :: (b.2 ≫= ind_meta).
Definition tind_meta (t : ltind) : list Z := t.1 :: (t.2 ≫= bind_meta).

(** The index blocks. *)
Definition ly_meta (ly : layout) : list Z :=
  opt_list ind_meta (ly_ind ly) ++ opt_list bind_meta (ly_bind ly)
    ++ opt_list tind_meta (ly_tind ly).

(** ** Extension by one block

    [d] is the new data block and [fs] the free numbers index blocks are
    taken from; [None]: no room, or no free number left. *)
Section extension.
Context (Ln : nat).

Definition ext_ind (ids : list Z) (d : Z) : option (list Z) :=
  if decide (length ids < Ln)%nat then Some (ids ++ [d]) else None.

Fixpoint ext_bind (cap : nat) (cs : list lind) (d : Z) (fs : list Z)
    : option (list lind * list Z) :=
  match cap, cs with
  | O, _ => None
  | S _, [] => match fs with m :: fs => Some ([(m, [d])], fs) | [] => None end
  | S cap, c :: cs =>
      match ext_ind c.2 d with
      | Some ids => Some ((c.1, ids) :: cs, fs)
      | None => r ← ext_bind cap cs d fs; Some (c :: r.1, r.2)
      end
  end.

Definition new_bind (d : Z) (fs : list Z) : option (lbind * list Z) :=
  match fs with
  | m :: fs => r ← ext_bind Ln [] d fs; Some ((m, r.1), r.2)
  | [] => None
  end.

Definition bind_fullb (b : lbind) : bool := (Ln * Ln <=? length (bind_data b))%nat.

Fixpoint ext_tind (cap : nat) (cs : list lbind) (d : Z) (fs : list Z)
    : option (list lbind * list Z) :=
  match cap, cs with
  | O, _ => None
  | S _, [] => r ← new_bind d fs; Some ([r.1], r.2)
  | S cap, c :: cs =>
      if bind_fullb c then r ← ext_tind cap cs d fs; Some (c :: r.1, r.2)
      else r ← ext_bind Ln c.2 d fs; Some ((c.1, r.1) :: cs, r.2)
  end.

Definition ext_layout (ly : layout) (d : Z) (fs : list Z) : option (layout * list Z) :=
  if decide (length (ly_direct ly) < 4)%nat then
    Some (Layout (ly_direct ly ++ [d]) (ly_ind ly) (ly_bind ly) (ly_tind ly), fs)
  else if decide (length (opt_list snd (ly_ind ly)) < Ln)%nat then
    match ly_ind ly, fs with
    | Some (m, ids), _ =>
        Some (Layout (ly_direct ly) (Some (m, ids ++ [d])) (ly_bind ly) (ly_tind ly), fs)
    | None, m :: fs =>
        Some (Layout (ly_direct ly) (Some (m, [d])) (ly_bind ly) (ly_tind ly), fs)
    | None, [] => None
    end
  else if decide (length (opt_list bind_data (ly_bind ly)) < Ln * Ln)%nat then
    r ← match ly_bind ly with
        | Some (m, cs) => r ← ext_bind Ln cs d fs; Some ((m, r.1), r.2)
        | None => new_bind d fs
        end;
    Some (Layout (ly_direct ly) (ly_ind ly) (Some r.1) (ly_tind ly), r.2)
  else
    r ← match ly_tind ly, fs with
        | Some (m, cs), _ => r ← ext_tind Ln cs d fs; Some ((m, r.1), r.2)
        | None, m :: fs => r ← ext_tind Ln [] d fs; Some ((m, r.1), r.2)
        | None, [] => None
        end;
    Some (Layout (ly_direct ly) (ly_ind ly) (ly_bind ly) (Some r.1), r.2).

(** ** Well-formed layouts: each level is filled in order *)

(** All children but the last hold [S] blocks; the last is not empty. *)
Fixpoint packed {A : Type} (size : A → nat) (S : nat) (cs : list A) : Prop :=
  match cs with
  | [] => True
  | [c] => (0 < size c ≤ S)%nat
  | c :: cs => size c = S ∧ packed size S cs
  end.

Definition bind_ok (b : lbind) : Prop :=
  (0 < length b.2 ≤ Ln)%nat ∧ packed (λ c, length c.2) Ln b.2.

Definition tind_ok (t : ltind) : Prop :=
  (0 < length t.2 ≤ Ln)%nat ∧ Forall bind_ok t.2 ∧
  packed (λ b, length (bind_data b)) (Ln * Ln) t.2.

Record layout_ok (ly : layout) : Prop := {
  lok_direct : (length (ly_direct ly) ≤ 4)%nat;
  lok_ind : ∀ i, ly_ind ly = Some i →
    length (ly_direct ly) = 4%nat ∧ (0 < length i.2 ≤ Ln)%nat;
  lok_bind : ∀ b, ly_bind ly = Some b →
    length (opt_list snd (ly_ind ly)) = Ln ∧ bind_ok b;
  lok_tind : ∀ t, ly_tind ly = Some t →
    length (opt_list bind_data (ly_bind ly)) = (Ln * Ln)%nat ∧ tind_ok t
}.

(** The largest number of blocks of a file. *)
Definition max_blocks : nat := 4 + Ln + Ln * Ln + Ln * Ln * Ln.
End extension.

(** ** The tree of a layout *)

Section conc.
Context (Ln : nat) (mk : Z → Z → block).

Definition bsize : Z := 8 * Z.of_nat Ln.

Fixpoint conc_list {A C : Type} (conc : Z → A → C) (stride off : Z) (xs : list A)
    : list (ptr C) :=
  match xs with
  | [] => []
  | x :: xs => Ptr (conc off x) :: conc_list conc stride (off + stride) xs
  end.

Definition pad {C : Type} (n : nat) (xs : list (ptr C)) : list (ptr C) :=
  xs ++ replicate (n - length xs) Null.

Definition conc_ind (off : Z) (i : lind) : indblock :=
  Indblock i.1 (i.1 * bsize) (pad Ln (conc_list (λ o id, mk id o) bsize off i.2)).

Definition conc_bind (off : Z) (b : lbind) : bindblock :=
  Bindblock b.1 (b.1 * bsize)
    (pad Ln (conc_list conc_ind (Z.of_nat Ln * bsize) off b.2)).

Definition conc_tind (off : Z) (t : ltind) : tindblock :=
  Tindblock t.1 (t.1 * bsize)
    (pad Ln (conc_list conc_bind (Z.of_nat Ln * Z.of_nat Ln * bsize) off t.2)).

Definition conc_opt {A C : Type} (conc : Z → A → C) (off : Z) (o : option A) : ptr C :=
  from_option (λ x, Ptr (conc off x)) Null o.

Definition ind_base : Z := 4 * bsize.
Definition bind_base : Z := ind_base + Z.of_nat Ln * bsize.
Definition tind_base : Z := bind_base + Z.of_nat Ln * Z.of_nat Ln * bsize.

Definition conc_direct (ids : list Z) : list (ptr block) :=
  pad 4 (conc_list (λ o id, mk id o) bsize 0 ids).

(** The inode [n] has the tree of [ly]. *)
Record has_layout (n : inode) (ly : layout) : Prop := {
  hl_direct : i_block n = conc_direct (ly_direct ly);
  hl_ind : i_ind_block n = conc_opt conc_ind ind_base (ly_ind ly);
  hl_bind : i_bind_block n = conc_opt conc_bind bind_base (ly_bind ly);
  hl_tind : i_tind_block n = conc_opt conc_tind tind_base (ly_tind ly)
}.
End conc.

(** The block structure of block [id] holding the file offset [off]. *)
Definition mkblock (Ln : nat) (l : loc) (id off : Z) : block :=
  Block id off (off + bsize Ln) (id * bsize Ln) l.

(** ** Lemmas on [conc_list] and [pad] *)

Section conc_lemmas.
Context {A C : Type}.
Implicit Types (conc : Z → A → C) (xs : list A).

Lemma length_conc_list conc st off xs : length (conc_list conc st off xs) = length xs.
Proof. revert off; induction xs as [|x xs IH]; intros off; simpl; [done|by rewrite IH]. Qed.

Lemma conc_list_app conc st off xs ys :
  conc_list conc st off (xs ++ ys) =
    conc_list conc st off xs ++ conc_list conc st (off + st * Z.of_nat (length xs)) ys.
Proof.
  revert off; induction xs as [|x xs IH]; intros off; simpl.
  - f_equal. lia.
  - rewrite IH. do 3 f_equal. lia.
Qed.

Lemma conc_list_lookup conc st off xs i :
  conc_list conc st off xs !! i =
    (λ x, Ptr (conc (off + st * Z.of_nat i) x)) <$> xs !! i.
Proof.
  revert off i; induction xs as [|x xs IH]; intros off [|i]; simpl; [done|done| |].
  - do 2 f_equal. f_equal. lia.
  - rewrite IH. destruct (xs !! i); [|done]. simpl. do 3 f_equal. lia.
Qed.

Lemma conc_list_ext conc conc' st off xs :
  (∀ x o, x ∈ xs → conc o x = conc' o x) →
  conc_list conc st off xs = conc_list conc' st off xs.
Proof.
  revert off; induction xs as [|x xs IH]; intros off He; simpl; [done|].
  f_equal; [f_equal; apply He; left|]. apply IH. intros y o Hy. apply He. by right.
Qed.

Lemma length_pad n (ps : list (ptr C)) : (length ps ≤ n)%nat → length (pad n ps) = n.
Proof. intros Hl. unfold pad. rewrite length_app, length_replicate. lia. Qed.

Lemma pad_lookup_l n (ps : list (ptr C)) i :
  (i < length ps)%nat → pad n ps !! i = ps !! i.
Proof. intros Hi. unfold pad. by apply lookup_app_l. Qed.

Lemma pad_lookup_r n (ps : list (ptr C)) i :
  (length ps ≤ i < n)%nat → pad n ps !! i = Some Null.
Proof.
  intros Hi. unfold pad. rewrite lookup_app_r by lia.
  apply lookup_replicate_2. lia.
Qed.

Lemma pad_insert n (ps : list (ptr C)) p :
  (length ps < n)%nat → <[length ps := p]> (pad n ps) = pad n (ps ++ [p]).
Proof.
  intros Hl. unfold pad. rewrite length_app. simpl.
  replace (n - length ps)%nat with (S (n - (length ps + 1))) by lia. simpl.
  rewrite insert_app_here by done. by rewrite <- app_assoc.
Qed.
End conc_lemmas.

(** ** Lookup in packed children *)

Section packed.
Context {A : Type} (data : A → list Z) (St : nat).
Hypothesis HSt : (0 < St)%nat.
Abbreviation psize := (λ c : A, length (data c)).

Lemma packed_cons_inv c cs :
  packed psize St (c :: cs) →
  (0 < psize c ≤ St)%nat ∧ (cs ≠ [] → psize c = St) ∧ packed psize St cs.
Proof using HSt. destruct cs as [|c' cs]; simpl; [naive_solver|]. intros [-> ?]. naive_solver lia. Qed.

(** Block [n] is entry [n mod St] of child [n / St]. *)
Lemma packed_lookup cs n :
  packed psize St cs →
  (cs ≫= data) !! n = (cs !! (n / St)%nat) ≫= (λ c, data c !! (n mod St)%nat).
Proof using HSt.
  revert n; induction cs as [|c cs IH]; intros n Hp.
  - simpl. by rewrite !lookup_nil.
  - apply packed_cons_inv in Hp as (Hc & Hfull & Hp). rewrite bind_cons.
    destruct (decide (n < St)%nat) as [Hn|Hn].
    + rewrite Nat.div_small, Nat.mod_small by done. simpl.
      destruct cs as [|c' cs']; [simpl; by rewrite app_nil_r|].
      rewrite lookup_app_l; [done|]. rewrite Hfull by done. done.
    + destruct cs as [|c' cs'].
      * simpl. rewrite app_nil_r, lookup_ge_None_2 by lia.
        assert (n / St ≠ 0)%nat as Hd by (rewrite Nat.div_small_iff; lia).
        destruct (n / St)%nat; [done|]. done.
      * rewrite lookup_app_r by lia. rewrite Hfull, IH by done.
        assert (n / St = S ((n - St) / St))%nat as ->.
        { replace n with ((n - St) + 1 * St)%nat at 1 by lia. rewrite Nat.div_add by lia. lia. }
        replace (n mod St)%nat with ((n - St) mod St)%nat; [done|].
        replace n with ((n - St) + 1 * St)%nat at 2 by lia. by rewrite Nat.Div0.mod_add.
Qed.

Lemma packed_length cs :
  packed psize St cs → (length (cs ≫= data) ≤ length cs * St)%nat.
Proof using HSt.
  induction cs as [|c cs IH]; intros Hp; [simpl; lia|].
  apply packed_cons_inv in Hp as (Hc & _ & Hp). rewrite bind_cons, length_app.
  specialize (IH Hp). simpl. lia.
Qed.

(** Fewer blocks than the children can hold: the last one has room, or
    there is none. *)
Lemma packed_snoc_full cs c :
  packed psize St (cs ++ [c]) →
  Forall (λ c, psize c = St) cs ∧ (0 < psize c ≤ St)%nat.
Proof using HSt.
  induction cs as [|c' cs IH]; intros Hp; simpl app in Hp.
  - simpl in Hp. by split; [constructor|].
  - apply packed_cons_inv in Hp as (_ & Hf & Hp). destruct (IH Hp) as [HF Hc].
    split; [|done]. constructor; [|done]. apply Hf. by destruct cs.
Qed.

Lemma packed_snoc cs c :
  Forall (λ c, psize c = St) cs → (0 < psize c ≤ St)%nat → packed psize St (cs ++ [c]).
Proof.
  clear HSt. induction 1 as [|c' cs Hc' HF IH]; intros Hc; simpl; [done|].
  destruct cs; simpl in *; naive_solver.
Qed.

Lemma packed_full_length cs :
  Forall (λ c, psize c = St) cs → length (cs ≫= data) = (length cs * St)%nat.
Proof.
  clear HSt. induction 1 as [|c cs Hc HF IH]; [done|].
  rewrite bind_cons, length_app, IH. simpl. lia.
Qed.

Lemma packed_cases cs :
  packed psize St cs →
  Forall (λ c, psize c = St) cs ∨
  ∃ cs' c, cs = cs' ++ [c] ∧ Forall (λ c, psize c = St) cs' ∧ (0 < psize c < St)%nat.
Proof using HSt.
  destruct cs as [|c cs _] using rev_ind; intros Hp; [by left|].
  apply packed_snoc_full in Hp as [HF Hc].
  destruct (decide (psize c = St)).
  - left. apply Forall_app. split; [done|]. by constructor.
  - right. exists cs, c. split_and!; try done; lia.
Qed.
End packed.

(** * Extending a layout

    [ext_layout] appends one data block at the end of the file and consumes
    at most three index blocks; well-formed layouts stay well-formed.  The
    block number of a file offset determines its path in the index tree. *)

Section ext.
Context (Ln : nat).
Hypothesis HLn : (0 < Ln)%nat.

Lemma ext_ind_room ids d :
  (length ids < Ln)%nat → ext_ind Ln ids d = Some (ids ++ [d]).
Proof. intros Hl. unfold ext_ind. by rewrite decide_True. Qed.

Lemma ext_ind_full ids d : length ids = Ln → ext_ind Ln ids d = None.
Proof. intros Hl. unfold ext_ind. by rewrite decide_False by lia. Qed.

(** Full children are skipped. *)
Lemma ext_bind_skip cs cap cs2 d fs :
  Forall (λ c : lind, length c.2 = Ln) cs →
  ext_bind Ln (length cs + cap) (cs ++ cs2) d fs =
    r ← ext_bind Ln cap cs2 d fs; Some (cs ++ r.1, r.2).
Proof.
  induction 1 as [|c cs Hc _ IH]; simpl.
  - by destruct (ext_bind Ln cap cs2 d fs) as [[]|].
  - rewrite ext_ind_full by done. rewrite IH.
    by destruct (ext_bind Ln cap cs2 d fs) as [[]|].
Qed.

Lemma ext_bind_spec cap cs d m fs :
  packed (λ c : lind, length c.2) Ln cs → (length cs ≤ cap)%nat →
  (length (cs ≫= snd) < cap * Ln)%nat →
  ∃ cs' used fs', ext_bind Ln cap cs d (m :: fs) = Some (cs', fs') ∧
    m :: fs = used ++ fs' ∧ (length used ≤ 1)%nat ∧
    cs' ≫= snd = (cs ≫= snd) ++ [d] ∧
    cs' ≫= ind_meta = (cs ≫= ind_meta) ++ used ∧
    packed (λ c : lind, length c.2) Ln cs' ∧ (0 < length cs' ≤ cap)%nat.
Proof using HLn.
  intros Hp Hcap Hl.
  destruct (packed_cases snd Ln HLn cs Hp) as [HF|(cs0 & c & -> & HF & Hc)].
  - rewrite (packed_full_length snd Ln) in Hl by done.
    assert (length cs < cap)%nat as Hlt by nia.
    pose proof (ext_bind_skip cs (cap - length cs) [] d (m :: fs) HF) as He.
    rewrite app_nil_r in He. replace (length cs + (cap - length cs))%nat with cap in He by lia.
    destruct (cap - length cs)%nat as [|cap'] eqn:Ec; [lia|]. simpl in He.
    exists (cs ++ [(m, [d])]), [m], fs. rewrite He, !bind_app, length_app. simpl.
    split_and!; try done; try lia. apply (packed_snoc snd); [done|]. simpl. lia.
  - rewrite length_app in Hcap. simpl in Hcap.
    pose proof (ext_bind_skip cs0 (cap - length cs0) [c] d (m :: fs) HF) as He.
    replace (length cs0 + (cap - length cs0))%nat with cap in He by lia.
    destruct (cap - length cs0)%nat as [|cap'] eqn:Ec; [lia|]. simpl in He.
    rewrite ext_ind_room in He by lia. simpl in He.
    exists (cs0 ++ [(c.1, c.2 ++ [d])]), [], (m :: fs).
    rewrite He, !bind_app, length_app. simpl. rewrite !app_nil_r.
    split_and!; try done; try lia; [by rewrite app_assoc|].
    apply (packed_snoc snd); [done|]. simpl. rewrite length_app. simpl. lia.
Qed.

Lemma new_bind_spec d m1 m2 fs :
  new_bind Ln d (m1 :: m2 :: fs) = Some ((m1, [(m2, [d])]), fs).
Proof using HLn. unfold new_bind. by destruct Ln; [lia|]. Qed.

Lemma new_bind_ok m1 m2 d : bind_ok Ln (m1, [(m2, [d])]).
Proof using HLn. split; simpl; lia. Qed.

Lemma bind_ok_length b : bind_ok Ln b → (0 < length (bind_data b) ≤ Ln * Ln)%nat.
Proof using HLn.
  intros [Hl Hp]. split.
  - unfold bind_data. destruct (b.2) as [|c cs]; [simpl in *; lia|].
    apply (packed_cons_inv snd Ln HLn) in Hp as (Hc & _ & _).
    rewrite bind_cons, length_app. lia.
  - pose proof (packed_length snd Ln HLn _ Hp). unfold bind_data. nia.
Qed.

Lemma ext_tind_skip cs cap cs2 d fs :
  Forall (λ b, length (bind_data b) = (Ln * Ln)%nat) cs →
  ext_tind Ln (length cs + cap) (cs ++ cs2) d fs =
    r ← ext_tind Ln cap cs2 d fs; Some (cs ++ r.1, r.2).
Proof.
  induction 1 as [|c cs Hc _ IH]; simpl.
  - by destruct (ext_tind Ln cap cs2 d fs) as [[]|].
  - unfold bind_fullb. rewrite Hc, Nat.leb_refl. rewrite IH.
    by destruct (ext_tind Ln cap cs2 d fs) as [[]|].
Qed.

Lemma ext_tind_spec cap cs d m1 m2 fs :
  packed (λ b, length (bind_data b)) (Ln * Ln) cs → Forall (bind_ok Ln) cs →
  (length cs ≤ cap)%nat → (length (cs ≫= bind_data) < cap * (Ln * Ln))%nat →
  ∃ cs' used fs', ext_tind Ln cap cs d (m1 :: m2 :: fs) = Some (cs', fs') ∧
    m1 :: m2 :: fs = used ++ fs' ∧ (length used ≤ 2)%nat ∧
    cs' ≫= bind_data = (cs ≫= bind_data) ++ [d] ∧
    cs' ≫= bind_meta = (cs ≫= bind_meta) ++ used ∧
    packed (λ b, length (bind_data b)) (Ln * Ln) cs' ∧ Forall (bind_ok Ln) cs' ∧
    (0 < length cs' ≤ cap)%nat.
Proof using HLn.
  intros Hp Hok Hcap Hl. assert (0 < Ln * Ln)%nat as HL2 by nia.
  destruct (packed_cases bind_data (Ln * Ln) HL2 cs Hp) as [HF|(cs0 & c & -> & HF & Hc)].
  - rewrite (packed_full_length bind_data (Ln * Ln)) in Hl by done.
    assert (length cs < cap)%nat as Hlt by nia.
    pose proof (ext_tind_skip cs (cap - length cs) [] d (m1 :: m2 :: fs) HF) as He.
    rewrite app_nil_r in He. replace (length cs + (cap - length cs))%nat with cap in He by lia.
    destruct (cap - length cs)%nat as [|cap'] eqn:Ec; [lia|]. cbn [ext_tind] in He.
    rewrite new_bind_spec in He. simpl in He.
    exists (cs ++ [(m1, [(m2, [d])])]), [m1; m2], fs. rewrite He, !bind_app, length_app. simpl.
    split_and!; try done; try lia.
    + apply (packed_snoc bind_data); [done|]. simpl. lia.
    + apply Forall_app. split; [done|]. constructor; [apply new_bind_ok|done].
  - rewrite length_app in Hcap. simpl in Hcap.
    pose proof (ext_tind_skip cs0 (cap - length cs0) [c] d (m1 :: m2 :: fs) HF) as He.
    replace (length cs0 + (cap - length cs0))%nat with cap in He by lia.
    destruct (cap - length cs0)%nat as [|cap'] eqn:Ec; [lia|]. cbn [ext_tind] in He.
    unfold bind_fullb in He.
    destruct (Nat.leb_spec (Ln * Ln) (length (bind_data c))); [lia|].
    apply Forall_app in Hok as [Hok0 Hokc]. apply Forall_cons in Hokc as [[Hcl Hcp] _].
    destruct (ext_bind_spec Ln c.2 d m1 (m2 :: fs)) as
      (cs' & used & fs' & Hext & Hfs & Hused & Hdata & Hmeta & Hpk & Hlen);
      [done|lia|unfold bind_data in *; lia|].
    rewrite Hext in He. simpl in He.
    exists (cs0 ++ [(c.1, cs')]), used, fs'.
    rewrite He, !bind_app, length_app. simpl. unfold bind_data, bind_meta. simpl.
    rewrite !app_nil_r, Hdata, Hmeta.
    split_and!; try done; try lia.
    + by rewrite app_assoc.
    + by rewrite <- !app_assoc.
    + apply (packed_snoc bind_data); [done|]. unfold bind_data in *. simpl.
      rewrite Hdata, length_app. simpl. lia.
    + apply Forall_app. split; [done|]. constructor; [|done]. by split.
Qed.

Lemma tind_ok_length t : tind_ok Ln t → (0 < length (tind_data t) ≤ Ln * (Ln * Ln))%nat.
Proof using HLn.
  intros (Hl & Hok & Hp). assert (0 < Ln * Ln)%nat as HL2 by nia. split.
  - unfold tind_data. destruct (t.2) as [|c cs]; [simpl in *; lia|].
    apply Forall_cons in Hok as [Hc _]. apply bind_ok_length in Hc.
    rewrite bind_cons, length_app. lia.
  - pose proof (packed_length bind_data (Ln * Ln) HL2 _ Hp). unfold tind_data. nia.
Qed.

(** Block counts of the levels of a well-formed layout. *)
Lemma layout_lengths ly :
  layout_ok Ln ly →
  (length (ly_direct ly) ≤ 4)%nat ∧
  (length (opt_list snd (ly_ind ly)) ≤ Ln)%nat ∧
  (length (opt_list bind_data (ly_bind ly)) ≤ Ln * Ln)%nat ∧
  (length (opt_list tind_data (ly_tind ly)) ≤ Ln * (Ln * Ln))%nat ∧
  (length (ly_direct ly) < 4 → ly_ind ly = None)%nat ∧
  (length (opt_list snd (ly_ind ly)) < Ln → ly_bind ly = None)%nat ∧
  (length (opt_list bind_data (ly_bind ly)) < Ln * Ln → ly_tind ly = None)%nat.
Proof using HLn.
  intros [Hd Hi Hb Ht]. split; [done|]. split.
  { destruct (ly_ind ly) as [i|]; simpl; [|lia]. by apply Hi. }
  split.
  { destruct (ly_bind ly) as [b|]; simpl; [|lia].
    destruct (Hb b eq_refl) as [_ Hok]. apply bind_ok_length in Hok. lia. }
  split.
  { destruct (ly_tind ly) as [t|]; simpl; [|lia].
    destruct (Ht t eq_refl) as [_ Hok]. apply tind_ok_length in Hok. lia. }
  split_and!; intros Hlt.
  - destruct (ly_ind ly) as [i|]; [|done]. destruct (Hi i eq_refl). lia.
  - destruct (ly_bind ly) as [b|]; [|done]. destruct (Hb b eq_refl). lia.
  - destruct (ly_tind ly) as [t|]; [|done]. destruct (Ht t eq_refl). lia.
Qed.

Definition ext_result (ly : layout) (d : Z) (fs : list Z) (ly' : layout) (used fs' : list Z)
    : Prop :=
  ext_layout Ln ly d fs = Some (ly', fs') ∧ fs = used ++ fs' ∧ (length used ≤ 3)%nat ∧
  ly_data ly' = ly_data ly ++ [d] ∧ ly_meta ly' = ly_meta ly ++ used ∧ layout_ok Ln ly'.

Section steps.
Context (ly : layout) (d : Z).
Hypothesis Hok : layout_ok Ln ly.

Lemma ext_direct_spec fs :
  (length (ly_direct ly) < 4)%nat → ∃ ly', ext_result ly d fs ly' [] fs.
Proof using Hok HLn.
  intros Hd. destruct (layout_lengths ly Hok) as (_ & _ & _ & _ & Hi & Hb & Ht).
  specialize (Hi Hd). rewrite Hi in Hb. specialize (Hb HLn). rewrite Hb in Ht.
  specialize (Ht ltac:(simpl; nia)).
  eexists. unfold ext_result, ext_layout. rewrite decide_True by done.
  split_and!; [done|done|simpl; lia| | |].
  - unfold ly_data. simpl. rewrite Hi, Hb, Ht. simpl. by rewrite !app_nil_r.
  - unfold ly_meta. simpl. by rewrite app_nil_r.
  - split; simpl; rewrite ?Hi, ?Hb, ?Ht; try done. rewrite length_app. simpl. lia.
Qed.

Lemma ext_ind_spec m fs :
  length (ly_direct ly) = 4%nat → (length (opt_list snd (ly_ind ly)) < Ln)%nat →
  ∃ ly' used fs', ext_result ly d (m :: fs) ly' used fs'.
Proof using Hok HLn.
  intros Hd Hi. destruct (layout_lengths ly Hok) as (_ & _ & _ & _ & _ & Hb & Ht).
  specialize (Hb Hi). rewrite Hb in Ht. specialize (Ht ltac:(simpl; nia)).
  unfold ext_result, ext_layout. rewrite decide_False, decide_True by (done || lia).
  destruct (ly_ind ly) as [[mi ids]|] eqn:E; simpl in Hi.
  - eexists _, [], _. split_and!; [done|done|simpl; lia| | |].
    + unfold ly_data. rewrite E, Hb, Ht. simpl. by rewrite !app_nil_r, app_assoc.
    + unfold ly_meta. rewrite E, Hb, Ht. done.
    + split; simpl; rewrite ?Hb, ?Ht; try done; [lia|].
      intros i [= <-]. simpl. rewrite length_app. simpl. lia.
  - eexists _, [m], _. split_and!; [done|done|simpl; lia| | |].
    + unfold ly_data. rewrite E, Hb, Ht. simpl. by rewrite !app_nil_r.
    + unfold ly_meta. rewrite E, Hb, Ht. done.
    + split; simpl; rewrite ?Hb, ?Ht; try done; [lia|].
      intros i [= <-]. simpl. lia.
Qed.

Lemma ext_bind_layout_spec m1 m2 fs :
  length (ly_direct ly) = 4%nat → length (opt_list snd (ly_ind ly)) = Ln →
  (length (opt_list bind_data (ly_bind ly)) < Ln * Ln)%nat →
  ∃ ly' used fs', ext_result ly d (m1 :: m2 :: fs) ly' used fs'.
Proof using Hok HLn.
  intros Hd Hi Hb. destruct (layout_lengths ly Hok) as (_ & _ & _ & _ & _ & _ & Ht).
  specialize (Ht Hb). destruct Hok as [_ Hli Hlb _].
  unfold ext_result, ext_layout.
  rewrite decide_False, decide_False, decide_True by (done || lia).
  destruct (ly_bind ly) as [[mb cs]|] eqn:E; simpl in Hb.
  - destruct (Hlb _ eq_refl) as [_ [Hcl Hcp]]. simpl in Hcl, Hcp.
    destruct (ext_bind_spec Ln cs d m1 (m2 :: fs)) as
      (cs' & used & fs' & Hext & Hfs & Hused & Hdata & Hmeta & Hpk & Hlen);
      [done|lia|unfold bind_data in *; simpl in *; lia|].
    rewrite Hext. simpl. eexists _, used, fs'. split_and!; [done|done|lia| | |].
    + unfold ly_data, bind_data. rewrite E, Ht. simpl. unfold bind_data. simpl.
      by rewrite Hdata, !app_nil_r, !app_assoc.
    + unfold ly_meta. rewrite E, Ht. simpl. unfold bind_meta. simpl.
      by rewrite Hmeta, !app_nil_r, <- app_assoc.
    + split; simpl; rewrite ?Ht; try done; [lia|].
      intros b [= <-]. by split.
  - rewrite new_bind_spec. simpl.
    eexists _, [m1; m2], fs. split_and!; [done|done|simpl; lia| | |].
    + unfold ly_data. rewrite E, Ht. simpl. by rewrite !app_nil_r, app_assoc.
    + unfold ly_meta. rewrite E, Ht. simpl. by rewrite !app_nil_r.
    + split; simpl; rewrite ?Ht; try done; [lia|].
      intros b [= <-]. split; [done|]. apply new_bind_ok.
Qed.

Lemma ext_tind_layout_spec m1 m2 m3 fs :
  length (ly_direct ly) = 4%nat → length (opt_list snd (ly_ind ly)) = Ln →
  length (opt_list bind_data (ly_bind ly)) = (Ln * Ln)%nat →
  (length (opt_list tind_data (ly_tind ly)) < Ln * (Ln * Ln))%nat →
  ∃ ly' used fs', ext_result ly d (m1 :: m2 :: m3 :: fs) ly' used fs'.
Proof using Hok HLn.
  intros Hd Hi Hb Ht. destruct Hok as [_ Hli Hlb Hlt].
  unfold ext_result, ext_layout.
  rewrite decide_False, decide_False, decide_False by (done || lia).
  destruct (ly_tind ly) as [[mt cs]|] eqn:E; simpl in Ht.
  - destruct (Hlt _ eq_refl) as [_ (Hcl & Hco & Hcp)]. simpl in Hcl, Hco, Hcp.
    destruct (ext_tind_spec Ln cs d m1 m2 (m3 :: fs)) as
      (cs' & used & fs' & Hext & Hfs & Hused & Hdata & Hmeta & Hpk & Hco' & Hlen);
      [done|done|lia|unfold tind_data in *; simpl in *; lia|].
    rewrite Hext. simpl. eexists _, used, fs'. split_and!; [done|done|lia| | |].
    + unfold ly_data. rewrite E. simpl. unfold tind_data. simpl.
      by rewrite Hdata, !app_assoc.
    + unfold ly_meta. rewrite E. simpl. unfold tind_meta. simpl.
      rewrite Hmeta. rewrite <- !app_assoc. simpl. done.
    + split; simpl; try done; [lia|].
      intros t [= <-]. by split.
  - destruct (ext_tind_spec Ln [] d m2 m3 fs) as
      (cs' & used & fs' & Hext & Hfs & Hused & Hdata & Hmeta & Hpk & Hco' & Hlen);
      [done|done|simpl; lia|simpl; nia|].
    rewrite Hext. simpl. eexists _, (m1 :: used), fs'.
    split_and!; [done|by rewrite Hfs|simpl; lia| | |].
    + unfold ly_data. rewrite E. simpl. unfold tind_data. simpl.
      rewrite Hdata. simpl. by rewrite ?app_nil_r, <- ?app_assoc.
    + unfold ly_meta. rewrite E. simpl. unfold tind_meta. simpl.
      rewrite Hmeta. simpl. by rewrite ?app_nil_r, <- ?app_assoc.
    + split; simpl; try done; [lia|].
      intros t [= <-]. by split.
Qed.
End steps.

Lemma length_ly_data ly :
  length (ly_data ly) =
    (length (ly_direct ly) + length (opt_list snd (ly_ind ly))
     + length (opt_list bind_data (ly_bind ly)) + length (opt_list tind_data (ly_tind ly)))%nat.
Proof. unfold ly_data. rewrite !length_app. lia. Qed.

(** The level a block number falls in. *)
Lemma ly_data_lookup ly j :
  layout_ok Ln ly →
  ly_data ly !! j =
    if decide (j < 4)%nat then ly_direct ly !! j
    else if decide (j < 4 + Ln)%nat then opt_list snd (ly_ind ly) !! (j - 4)%nat
    else if decide (j < 4 + Ln + Ln * Ln)%nat then
      opt_list bind_data (ly_bind ly) !! (j - 4 - Ln)%nat
    else opt_list tind_data (ly_tind ly) !! (j - 4 - Ln - Ln * Ln)%nat.
Proof using HLn.
  intros Hok. destruct (layout_lengths ly Hok) as (H1 & H2 & H3 & H4 & E1 & E2 & E3).
  unfold ly_data. destruct (decide (length (ly_direct ly) < 4)%nat) as [C1|C1].
  { rewrite E1 in * by done. rewrite E2 in * by (simpl; lia).
    rewrite E3 in * by (simpl; nia). simpl. rewrite !app_nil_r, !lookup_nil.
    repeat case_decide; try done. all: apply lookup_ge_None; lia. }
  destruct (decide (length (opt_list snd (ly_ind ly)) < Ln)%nat) as [C2|C2].
  { rewrite E2 in * by done. rewrite E3 in * by (simpl; nia).
    cbn [opt_list from_option]. rewrite !app_nil_r, !lookup_nil.
    repeat case_decide.
    - apply lookup_app_l. lia.
    - rewrite lookup_app_r by lia. f_equal. lia.
    - apply lookup_ge_None. rewrite length_app. lia.
    - apply lookup_ge_None. rewrite length_app. lia. }
  destruct (decide (length (opt_list bind_data (ly_bind ly)) < Ln * Ln)%nat) as [C3|C3].
  { rewrite E3 in * by done. cbn [opt_list from_option]. rewrite !app_nil_r, !lookup_nil.
    repeat case_decide.
    - apply lookup_app_l. lia.
    - rewrite lookup_app_r, lookup_app_l by lia. f_equal. lia.
    - rewrite !lookup_app_r by lia. f_equal. lia.
    - apply lookup_ge_None. rewrite !length_app. lia. }
  repeat case_decide.
  - apply lookup_app_l. lia.
  - rewrite lookup_app_r, lookup_app_l by lia. f_equal. lia.
  - rewrite lookup_app_r, lookup_app_r, lookup_app_l by lia. f_equal. lia.
  - rewrite !lookup_app_r by lia. f_equal. lia.
Qed.

(** One more block can always be appended, below the size limit. *)
Lemma ext_layout_spec ly d fs :
  layout_ok Ln ly → (length (ly_data ly) < max_blocks Ln)%nat → (3 ≤ length fs)%nat →
  ∃ ly' used fs', ext_result ly d fs ly' used fs'.
Proof using HLn.
  intros Hok Hl Hfs. destruct fs as [|m1 [|m2 [|m3 fs]]]; simpl in Hfs; [lia..|].
  destruct (layout_lengths ly Hok) as (H1 & H2 & H3 & H4 & _ & _ & _).
  rewrite length_ly_data in Hl. unfold max_blocks in Hl.
  destruct (decide (length (ly_direct ly) < 4)%nat).
  { destruct (ext_direct_spec ly d Hok (m1 :: m2 :: m3 :: fs)) as [ly' Hr]; [done|]. by do 3 eexists. }
  destruct (decide (length (opt_list snd (ly_ind ly)) < Ln)%nat).
  { apply ext_ind_spec; [done|lia|done]. }
  destruct (decide (length (opt_list bind_data (ly_bind ly)) < Ln * Ln)%nat).
  { apply ext_bind_layout_spec; [done|lia..|done]. }
  apply ext_tind_layout_spec; [done|lia..|nia].
Qed.
End ext.
