(* ===== verification/Content.v ===== *)
(** * The content of a file

    The bytes a list of data blocks holds on the device, and what writing
    inside one block does to them. *)
From S2P Require Import Prelude Posix LinkList UdbfsTypes Layout.
Local Open Scope Z_scope.

Definition block_bytes (Ln : nat) (dev : list Z) (id : Z) : list Z :=
  dread dev (id * bsize Ln) (bsize Ln).

Definition file_bytes (Ln : nat) (dev : list Z) (ids : list Z) : list Z :=
  ids ≫= block_bytes Ln dev.

(** A file of [size] bytes in the data blocks [ids]. *)
Definition content (Ln : nat) (dev : list Z) (ids : list Z) (size : Z) : list Z :=
  take (Z.to_nat size) (file_bytes Ln dev ids).

(** [data] written at position [c], which is at most the length. *)
Definition overwrite (c : Z) (data old : list Z) : list Z :=
  take (Z.to_nat c) old ++ data ++ drop (Z.to_nat c + length data) old.

(** The block lies on the device; block 0 is never a data block. *)
Definition on_device (Ln : nat) (dev : list Z) (id : Z) : Prop :=
  0 < id ∧ (id + 1) * bsize Ln ≤ zlen dev.

(** ** Overwriting *)

Lemma overwrite_nil c old : overwrite c [] old = old.
Proof. unfold overwrite. simpl. rewrite Nat.add_0_r. apply take_drop. Qed.

Lemma overwrite_end c data old : c = zlen old → overwrite c data old = old ++ data.
Proof.
  intros ->. unfold overwrite, zlen. rewrite take_ge, drop_ge by lia. by rewrite app_nil_r.
Qed.

Lemma zlen_overwrite c data old :
  0 ≤ c ≤ zlen old → zlen (overwrite c data old) = Z.max (zlen old) (c + zlen data).
Proof.
  unfold overwrite, zlen. intros. rewrite !length_app, length_take, length_drop. lia.
Qed.

Lemma overwrite_app c d1 d2 old :
  0 ≤ c ≤ zlen old →
  overwrite (c + zlen d1) d2 (overwrite c d1 old) = overwrite c (d1 ++ d2) old.
Proof.
  unfold overwrite, zlen. intros Hc.
  assert (length (take (Z.to_nat c) old) = Z.to_nat c) as Hl by (rewrite length_take; lia).
  replace (Z.to_nat (c + Z.of_nat (length d1))) with (Z.to_nat c + length d1)%nat by lia.
  rewrite take_app_ge by lia. rewrite Hl.
  replace (Z.to_nat c + length d1 - Z.to_nat c)%nat with (length d1) by lia.
  rewrite take_app_length. rewrite drop_app_ge by lia. rewrite Hl.
  rewrite drop_app_ge by lia. rewrite drop_drop, length_app, <- !app_assoc.
  do 3 f_equal. f_equal. lia.
Qed.

Lemma take_overwrite_prefix c data old :
  0 ≤ c ≤ zlen old → take (Z.to_nat c) (overwrite c data old) = take (Z.to_nat c) old.
Proof.
  unfold overwrite, zlen. intros Hc. rewrite take_app_le by (rewrite length_take; lia).
  rewrite take_take. f_equal. lia.
Qed.

(** A splice inside the allocated bytes, seen on the first [size]. *)
Lemma take_dsplice_overwrite c data fb size :
  0 ≤ c ≤ size → size ≤ zlen fb → c + zlen data ≤ zlen fb →
  take (Z.to_nat (Z.max size (c + zlen data))) (dsplice c data fb) =
    overwrite c data (take (Z.to_nat size) fb).
Proof.
  unfold dsplice, overwrite, zlen. intros H1 H2 H3.
  rewrite (take_ge data) by lia.
  rewrite take_take, Nat.min_l by lia.
  assert (length (take (Z.to_nat c) fb) = Z.to_nat c) as Hl by (rewrite length_take; lia).
  rewrite take_app_ge by lia. f_equal. rewrite Hl.
  rewrite take_app_ge by lia. f_equal.
  rewrite take_drop_commute.
  destruct (decide (c + Z.of_nat (length data) ≤ size)).
  - do 2 f_equal. lia.
  - rewrite !drop_ge; [done|rewrite length_take; lia..].
Qed.

(** ** Splicing one block *)

Section blocks.
Context (Ln : nat).
Abbreviation B := (bsize Ln).

Lemma zlen_block_bytes dev id : on_device Ln dev id → zlen (block_bytes Ln dev id) = B.
Proof. intros [H1 H2]. unfold block_bytes. apply zlen_dread; unfold bsize in *; nia. Qed.

Lemma zlen_file_bytes dev ids :
  Forall (on_device Ln dev) ids → zlen (file_bytes Ln dev ids) = B * zlen ids.
Proof.
  induction 1 as [|id ids Hid _ IH]; [simpl; unfold zlen; simpl; lia|].
  unfold file_bytes in *. rewrite bind_cons, zlen_app, zlen_block_bytes, IH by done.
  unfold zlen. simpl. lia.
Qed.

Lemma on_device_dsplice o chunk dev id :
  on_device Ln (dsplice o chunk dev) id ↔ on_device Ln dev id.
Proof. unfold on_device. by rewrite zlen_dsplice. Qed.

Lemma blocks_disjoint id id' r : id ≠ id' → 0 ≤ r ≤ B →
  id' * B + B ≤ id * B ∨ id * B + B ≤ id' * B.
Proof. unfold bsize. intros. nia. Qed.

Lemma block_bytes_other id r chunk dev id' :
  0 ≤ id → 0 ≤ id' → id ≠ id' → 0 ≤ r → r + zlen chunk ≤ B →
  block_bytes Ln (dsplice (id * B + r) chunk dev) id' = block_bytes Ln dev id'.
Proof.
  intros Hid Hid' Hne Hr Hk. pose proof (zlen_nonneg chunk).
  destruct (blocks_disjoint id id' r Hne ltac:(lia)) as [Hlt|Hlt];
    apply dread_dsplice_disjoint; unfold bsize in *; nia.
Qed.

Lemma file_bytes_other id r chunk dev ids :
  0 ≤ id → Forall (λ i, 0 ≤ i) ids → id ∉ ids → 0 ≤ r → r + zlen chunk ≤ B →
  file_bytes Ln (dsplice (id * B + r) chunk dev) ids = file_bytes Ln dev ids.
Proof.
  intros Hid Hids Hni Hr Hk. induction ids as [|i ids IH]; [done|].
  apply Forall_cons in Hids as [Hi Hids]. apply not_elem_of_cons in Hni as [Hne Hni].
  unfold file_bytes in *. rewrite !bind_cons, IH by done. by rewrite block_bytes_other.
Qed.

Lemma block_bytes_same id r chunk dev :
  on_device Ln dev id → 0 ≤ r → r + zlen chunk ≤ B →
  block_bytes Ln (dsplice (id * B + r) chunk dev) id = dsplice r chunk (block_bytes Ln dev id).
Proof.
  intros Hid Hr Hk. pose proof (zlen_nonneg chunk).
  pose proof (zlen_block_bytes dev id Hid) as Hl. destruct Hid as [H1 H2].
  assert (0 ≤ id * B) as H3 by (unfold bsize; nia).
  unfold block_bytes in *. apply list_eq. intros i.
  destruct (decide (i < Z.to_nat B)%nat) as [Hi|Hi].
  - rewrite lookup_dread by lia.
    replace i with (Z.to_nat (Z.of_nat i)) at 2 by lia.
    change (dsplice r chunk (dread dev (id * B) B) !! Z.to_nat (Z.of_nat i)) with
      (byte_at (dsplice r chunk (dread dev (id * B) B)) (Z.of_nat i)).
    destruct (decide (r ≤ Z.of_nat i < r + zlen chunk)).
    + rewrite !byte_at_dsplice_in by lia. f_equal. lia.
    + rewrite !byte_at_dsplice_out by lia.
      unfold byte_at at 2. rewrite lookup_dread by lia. f_equal. lia.
  - rewrite !lookup_ge_None_2; [done| |].
    + rewrite length_dsplice. unfold zlen in *. lia.
    + unfold dread. rewrite length_take. lia.
Qed.

Lemma dsplice_mid r chunk (a b c : list Z) :
  0 ≤ r → r + zlen chunk ≤ zlen b →
  dsplice (zlen a + r) chunk (a ++ b ++ c) = a ++ dsplice r chunk b ++ c.
Proof.
  unfold dsplice, zlen. intros Hr Hk.
  rewrite !length_app. rewrite !(take_ge chunk) by lia.
  replace (Z.to_nat (Z.of_nat (length a) + r)) with (length a + Z.to_nat r)%nat by lia.
  rewrite take_app_add. rewrite take_app_le by lia.
  rewrite <- !app_assoc. do 3 f_equal.
  replace (length a + Z.to_nat r + length chunk)%nat
    with (length a + (Z.to_nat r + length chunk))%nat by lia.
  rewrite drop_app_add. rewrite drop_app_le by lia. done.
Qed.

(** Writing into block [j] of a file whose blocks are distinct writes the
    file's bytes at [j * B + r]. *)
Lemma file_bytes_dsplice ids j id r chunk dev :
  NoDup ids → Forall (on_device Ln dev) ids → ids !! j = Some id →
  0 ≤ r → r + zlen chunk ≤ B →
  file_bytes Ln (dsplice (id * B + r) chunk dev) ids =
    dsplice (Z.of_nat j * B + r) chunk (file_bytes Ln dev ids).
Proof.
  intros Hnd Hon Hj Hr Hk.
  destruct (list_elem_of_split_length ids j id Hj) as (pre & post & -> & ->).
  apply NoDup_app in Hnd as (_ & Hpre & Hpost). apply NoDup_cons in Hpost as [Hpost _].
  apply Forall_app in Hon as [Hon1 Hon2]. apply Forall_cons in Hon2 as [Hon Hon2].
  assert (∀ ids, Forall (on_device Ln dev) ids → Forall (λ i, 0 ≤ i) ids) as Hnn.
  { intros ids Hf. eapply Forall_impl; [exact Hf|]. intros x [? ?]. lia. }
  assert (0 ≤ id) by (destruct Hon; lia).
  unfold file_bytes. rewrite !bind_app, !bind_cons.
  fold (file_bytes Ln dev pre) (file_bytes Ln dev post).
  fold (file_bytes Ln (dsplice (id * B + r) chunk dev) pre)
    (file_bytes Ln (dsplice (id * B + r) chunk dev) post).
  assert (id ∉ pre) as Hni by (intros Hin; apply (Hpre id Hin); left).
  rewrite (file_bytes_other id r chunk dev pre) by (done || by apply Hnn).
  rewrite (file_bytes_other id r chunk dev post) by (done || by apply Hnn).
  rewrite block_bytes_same by done.
  replace (Z.of_nat (length pre) * B) with (zlen (file_bytes Ln dev pre))
    by (rewrite zlen_file_bytes by done; unfold zlen; lia).
  by rewrite dsplice_mid by (rewrite ?zlen_block_bytes by done; lia).
Qed.

Lemma file_bytes_app dev ids1 ids2 :
  file_bytes Ln dev (ids1 ++ ids2) = file_bytes Ln dev ids1 ++ file_bytes Ln dev ids2.
Proof. apply bind_app. Qed.

(** Blocks past the end of the file do not matter. *)
Lemma content_app dev ids1 ids2 size :
  size ≤ zlen (file_bytes Ln dev ids1) →
  content Ln dev (ids1 ++ ids2) size = content Ln dev ids1 size.
Proof.
  intros Hs. unfold content. rewrite file_bytes_app. apply take_app_le. unfold zlen in Hs. lia.
Qed.

Lemma zlen_content dev ids size :
  Forall (on_device Ln dev) ids → 0 ≤ size ≤ B * zlen ids →
  zlen (content Ln dev ids size) = size.
Proof.
  intros Hon Hs. unfold content. pose proof (zlen_file_bytes dev ids Hon) as Hl.
  unfold zlen in *. rewrite length_take. lia.
Qed.

(** Reading inside block [j]. *)
Lemma file_bytes_dread ids j id r k dev :
  Forall (on_device Ln dev) ids → ids !! j = Some id →
  0 ≤ r → 0 ≤ k → r + k ≤ B →
  dread (file_bytes Ln dev ids) (Z.of_nat j * B + r) k = dread dev (id * B + r) k.
Proof.
  intros Hon Hj Hr Hk0 Hk.
  destruct (list_elem_of_split_length ids j id Hj) as (pre & post & -> & ->).
  apply Forall_app in Hon as [Hon1 Hon2]. apply Forall_cons in Hon2 as [Hon Hon2].
  unfold file_bytes. rewrite bind_app, bind_cons. fold (file_bytes Ln dev pre).
  pose proof (zlen_file_bytes dev pre Hon1) as Hl. pose proof (zlen_block_bytes dev id Hon) as Hb.
  assert (0 ≤ Z.of_nat (length pre) * B) by (unfold bsize; lia).
  destruct Hon as [H1 H2]. assert (0 ≤ id * B) by (unfold bsize; nia).
  unfold dread at 1. unfold zlen in *.
  replace (Z.to_nat (Z.of_nat (length pre) * B + r))
    with (length (file_bytes Ln dev pre) + Z.to_nat r)%nat by lia.
  rewrite drop_app_add. rewrite drop_app_le by lia.
  rewrite take_app_le by (rewrite length_drop; lia).
  unfold block_bytes, dread. rewrite take_drop_commute, take_take.
  replace (Z.to_nat r + Z.to_nat k)%nat with (Z.to_nat r + Z.to_nat k)%nat by lia.
  rewrite Nat.min_l by lia. rewrite <- take_drop_commute, drop_drop. do 2 f_equal. lia.
Qed.
End blocks.
