(* ===== verification/Paths.v ===== *)
(** * From file offsets to blocks

    [logical_path] is the reference mapping from the number of a block in a
    file to the path of its slot in the inode's index trees;
    [udbfslib_select_active_inode_block] computes it from the cursor, and in
    the tree of a well-formed layout the slot holds the block of that
    number. *)
From S2P Require Import Prelude Posix LinkList UdbfsTypes BlockLoad InodeBlocks Layout.
Local Open Scope Z_scope.

Definition logical_path (Ln : nat) (j : Z) : option bref :=
  let L := Z.of_nat Ln in
  if j <? 4 then Some (BDirect j)
  else if j <? 4 + L then Some (BInd (j - 4))
  else if j <? 4 + L + L * L then
    let r := j - 4 - L in Some (BBind (r / L) (r mod L))
  else if j <? 4 + L + L * L + L * L * L then
    let r := j - 4 - L - L * L in
    Some (BTind (r / (L * L)) ((r mod (L * L)) / L) (r mod L))
  else None.

Lemma logical_path_bound Ln j r :
  logical_path Ln j = Some r → j < Z.of_nat (max_blocks Ln).
Proof.
  unfold logical_path, max_blocks. intros H.
  assert (0 ≤ Z.of_nat Ln * Z.of_nat Ln) by lia.
  assert (0 ≤ Z.of_nat Ln * Z.of_nat Ln * Z.of_nat Ln) by lia.
  destruct (Z.ltb_spec j 4); [lia|].
  destruct (Z.ltb_spec j (4 + Z.of_nat Ln)); [lia|].
  destruct (Z.ltb_spec j (4 + Z.of_nat Ln + Z.of_nat Ln * Z.of_nat Ln)); [lia|].
  destruct (Z.ltb_spec j (4 + Z.of_nat Ln + Z.of_nat Ln * Z.of_nat Ln
    + Z.of_nat Ln * Z.of_nat Ln * Z.of_nat Ln)); [lia|done].
Qed.

(** ** Geometry of a mount

    The storage figures [udbfs_mount] computes, without wrap-around: index
    blocks of [Ln] links, up to 2^15. *)
Record geometry (m : mount) (Ln : nat) : Prop := {
  geo_links : 16 ≤ Z.of_nat Ln ≤ 2 ^ 15;
  geo_block : m_block_size m = bsize Ln;
  geo_dir : m_dir_storage m = 4 * bsize Ln;
  geo_ind : m_ind_storage m = Z.of_nat Ln * bsize Ln;
  geo_bind : m_bind_storage m = Z.of_nat Ln * Z.of_nat Ln * bsize Ln;
  geo_tind : m_tind_storage m = Z.of_nat Ln * Z.of_nat Ln * Z.of_nat Ln * bsize Ln
}.

(** Bounds of the products that occur. *)
Lemma geometry_bounds Ln :
  16 ≤ Z.of_nat Ln ≤ 2 ^ 15 →
  let L := Z.of_nat Ln in
  128 ≤ bsize Ln ≤ 2 ^ 18 ∧ bsize Ln = 8 * L ∧
  0 < L * bsize Ln ≤ 2 ^ 33 ∧ 0 < L * L * bsize Ln ≤ 2 ^ 48 ∧
  0 < L * L * L * bsize Ln ≤ 2 ^ 63 ∧ 0 < L * L ≤ 2 ^ 30 ∧ 0 < L * L * L ≤ 2 ^ 45.
Proof.
  intros HL L. unfold bsize. fold L in HL |- *.
  assert (0 < L * L ≤ 2 ^ 15 * 2 ^ 15) as H2.
  { split; [lia|]. apply Z.mul_le_mono_nonneg; lia. }
  assert (0 < L * L * L ≤ 2 ^ 30 * 2 ^ 15) as H3.
  { split; [lia|]. apply Z.mul_le_mono_nonneg; lia. }
  assert (0 < L * L * (L * L) ≤ 2 ^ 30 * 2 ^ 30) as H4.
  { split; [lia|]. apply Z.mul_le_mono_nonneg; lia. }
  split_and!; lia.
Qed.

Lemma mod_mul_div a b c :
  0 < b → 0 < c → (a mod (b * c)) / c = (a / c) mod b.
Proof.
  intros Hb Hc. rewrite (Z.mul_comm b c), Z.rem_mul_r by lia.
  rewrite (Z.mul_comm c), Z.div_add by lia.
  rewrite Z.div_small; [lia|]. by apply Z.mod_pos_bound.
Qed.

Lemma mod_mul_mod a b : 0 < b → (a mod (b * b)) mod b = a mod b.
Proof.
  intros Hb. rewrite Z.rem_mul_r by lia.
  rewrite (Z.mul_comm b (a / b mod b)), Z.mod_add by lia. apply Z.mod_mod. lia.
Qed.

Section select.
Context (m : mount) (Ln : nat) {S : Type}.
Hypothesis Hgeo : geometry m Ln.

(** The selection is the reference mapping of the cursor's block number. *)
Lemma select_logical_path (n : inode) (s : S) :
  0 ≤ i_cursor n < 2 ^ 64 →
  udbfslib_select_active_inode_block m n s =
    match logical_path Ln (i_cursor n / bsize Ln) with
    | Some r => return_slot n r s
    | None => Ok None s
    end.
Proof using Hgeo.
  intros Hc. destruct Hgeo as [Hl Hb Hd Hi Hbi Ht].
  destruct (geometry_bounds Ln Hl) as (B1 & B2 & B3 & B4 & B5 & B6 & B7).
  set (L := Z.of_nat Ln) in *. set (B := bsize Ln) in *. set (c := i_cursor n) in *.
  unfold udbfslib_select_active_inode_block, logical_path. fold c L.
  rewrite Hb, Hd, Hi, Hbi, Ht. clear Hb Hd Hi Hbi Ht.
  assert (L * L * B = L * (L * B)) as E2 by lia.
  assert (L * L * L * B = L * L * (L * B)) as E3 by lia.
  set (LB := L * B) in *. set (LLB := L * L * B) in *. set (LLLB := L * L * L * B) in *.
  assert (∀ k, 0 ≤ k → (c / B <? k) = (c <? k * B)) as Hcmp.
  { intros k Hk. destruct (Z.ltb_spec c (k * B)) as [H1|H1].
    - apply Z.ltb_lt. apply Z.div_lt_upper_bound; lia.
    - apply Z.ltb_ge. apply Z.div_le_lower_bound; lia. }
  rewrite !Hcmp by nia. clear Hcmp.
  replace ((4 + L) * B) with (LB + 4 * B) by (unfold LB; lia).
  replace ((4 + L + L * L) * B) with (LLB + LB + 4 * B) by (unfold LB, LLB; lia).
  replace ((4 + L + L * L + L * L * L) * B) with (LLLB + LLB + LB + 4 * B)
    by (unfold LB, LLB, LLLB; lia).
  rewrite !(u64_small (LB + 4 * B)) by lia.
  rewrite !(u64_small (LLB + LB)), !(u64_small (LLB + LB + 4 * B)) by lia.
  rewrite !(u64_small (LLLB + LLB)), !(u64_small (LLLB + LLB + LB)),
    !(u64_small (LLLB + LLB + LB + 4 * B)) by lia.
  unfold udiv, umod.
  replace (B =? 0) with false by lia. replace (LB =? 0) with false by lia.
  replace (LLB =? 0) with false by lia.
  assert (c / B - 4 = (c - 4 * B) / B) as D4.
  { replace (c - 4 * B) with (c + -4 * B) by lia. rewrite Z.div_add by lia. lia. }
  assert (c / B - 4 - L = (c - 4 * B - LB) / B) as D5.
  { replace (c - 4 * B - LB) with (c + (-4 - L) * B) by (unfold LB; lia).
    rewrite Z.div_add by lia. lia. }
  assert (c / B - 4 - L - L * L = (c - 4 * B - LB - LLB) / B) as D6.
  { replace (c - 4 * B - LB - LLB) with (c + (-4 - L - L * L) * B) by (unfold LB, LLB; lia).
    rewrite Z.div_add by lia. lia. }
  rewrite D6, D5, D4.
  destruct (Z.ltb_spec c (4 * B)) as [H1|H1].
  { steps. rewrite i32_small; [done|].
    assert (0 ≤ c / B < 4) by (split; [apply Z.div_pos; lia|apply Z.div_lt_upper_bound; lia]). lia. }
  rewrite (u64_small (c - 4 * B)) by lia.
  destruct (Z.ltb_spec c (LB + 4 * B)) as [H2|H2].
  { steps. rewrite i32_small; [done|].
    assert (0 ≤ (c - 4 * B) / B < L); [|lia].
    split; [apply Z.div_pos; lia|apply Z.div_lt_upper_bound; lia]. }
  rewrite (u64_small (c - 4 * B - LB)) by lia.
  destruct (Z.ltb_spec c (LLB + LB + 4 * B)) as [H3|H3].
  { steps. set (a := c - 4 * B - LB) in *. unfold LB. rewrite mod_mul_div by lia.
    replace (a / (L * B)) with (a / B / L) by (rewrite Z.mul_comm; apply Z.div_div; lia).
    rewrite !i32_small; [done| |].
    - pose proof (Z.mod_pos_bound (a / B) L). lia.
    - assert (0 ≤ a / B / L < L); [|lia]. rewrite Z.div_div by lia.
      split; [apply Z.div_pos; lia|apply Z.div_lt_upper_bound; lia]. }
  rewrite (u64_small (c - 4 * B - LB - LLB)) by lia.
  destruct (Z.ltb_spec c (LLLB + LLB + LB + 4 * B)) as [H4|H4]; [|done].
  steps. set (a := c - 4 * B - LB - LLB) in *.
  assert (a mod LLB / LB = (a / B) mod (L * L) / L) as ->.
  { rewrite <- (mod_mul_div a (L * L) B) by lia. rewrite Z.div_div by lia.
    by replace (B * L) with LB by (unfold LB; lia). }
  assert (a mod LLB mod LB / B = (a / B) mod L) as ->.
  { unfold LB at 1. rewrite mod_mul_div by lia. unfold LLB.
    rewrite <- (mod_mul_mod (a / B) L) by lia. f_equal. apply mod_mul_div; lia. }
  replace (a / LLB) with (a / B / (L * L))
    by (rewrite Z.div_div by lia; f_equal; unfold LLB; lia).
  rewrite !i32_small; [done| | |].
  - pose proof (Z.mod_pos_bound (a / B) L). lia.
  - rewrite mod_mul_div by lia. pose proof (Z.mod_pos_bound (a / B / L) L). lia.
  - assert (0 ≤ a / B / (L * L) < L); [|lia]. rewrite Z.div_div by lia.
    split; [apply Z.div_pos; lia|apply Z.div_lt_upper_bound; lia].
Qed.
End select.

(** ** The slot of a block number *)

Section slots.
Context (Ln : nat) (mk : Z → Z → block).
Hypothesis HLn : (0 < Ln)%nat.
Abbreviation B := (bsize Ln).

Definition slot_of (id : option Z) (off : Z) : ptr block :=
  from_option (λ id, Ptr (mk id off)) Null id.

Lemma slot_pad {A C} (conc : Z → A → C) st off xs n (i : Z) :
  (length xs ≤ n)%nat → 0 ≤ i < Z.of_nat n →
  slot (pad n (conc_list conc st off xs)) i =
    from_option (λ x, Ptr (conc (off + st * i) x)) Null (xs !! Z.to_nat i).
Proof.
  intros Hl Hi. unfold slot, array_at. replace (i <? 0) with false by lia.
  destruct (xs !! Z.to_nat i) as [x|] eqn:E.
  - pose proof (lookup_lt_Some _ _ _ E).
    rewrite pad_lookup_l by (rewrite length_conc_list; lia).
    rewrite conc_list_lookup, E. simpl. by rewrite Z2Nat.id by lia.
  - apply lookup_ge_None in E. rewrite pad_lookup_r; [done|]. rewrite length_conc_list. lia.
Qed.

Lemma slot_conc_ind off (c : lind) i :
  (length c.2 ≤ Ln)%nat → 0 ≤ i < Z.of_nat Ln →
  slot (ib_block (conc_ind Ln mk off c)) i = slot_of (c.2 !! Z.to_nat i) (off + B * i).
Proof. intros Hl Hi. simpl. by rewrite slot_pad. Qed.

Lemma packed_Forall_length (cs : list lind) :
  packed (λ c : lind, length c.2) Ln cs → Forall (λ c : lind, (length c.2 ≤ Ln)%nat) cs.
Proof using HLn.
  induction cs as [|c cs IH]; intros Hp; [constructor|].
  apply (packed_cons_inv snd Ln HLn) in Hp as (? & _ & Hp). constructor; [lia|by apply IH].
Qed.

Lemma slot_conc_bind off b r :
  bind_ok Ln b → 0 ≤ r < Z.of_nat Ln * Z.of_nat Ln →
  ptr_bind (λ ib, slot (ib_block ib) (r mod Z.of_nat Ln))
    (slot (bb_indblock (conc_bind Ln mk off b)) (r / Z.of_nat Ln)) =
  slot_of (bind_data b !! Z.to_nat r) (off + B * r).
Proof using HLn.
  intros [Hl Hp] Hr. set (L := Z.of_nat Ln) in *.
  assert (0 ≤ r / L < L) as Hq
    by (split; [apply Z.div_pos; lia|apply Z.div_lt_upper_bound; lia]).
  pose proof (Z.mod_pos_bound r L) as Hm. simpl. rewrite slot_pad by lia.
  unfold bind_data. rewrite (packed_lookup snd Ln HLn) by done.
  replace (Z.to_nat r / Ln)%nat with (Z.to_nat (r / L))
    by (rewrite Z2Nat.inj_div by lia; unfold L; by rewrite Nat2Z.id).
  replace (Z.to_nat r mod Ln)%nat with (Z.to_nat (r mod L))
    by (rewrite Z2Nat.inj_mod by lia; unfold L; by rewrite Nat2Z.id).
  destruct (b.2 !! Z.to_nat (r / L)) as [c|] eqn:E; simpl; [|done].
  assert (length c.2 ≤ Ln)%nat as Hc.
  { apply packed_Forall_length in Hp. by eapply (Forall_lookup_1 _ _ _ _ Hp). }
  rewrite slot_pad by lia. unfold slot_of.
  destruct (c.2 !! _); [|done]. simpl. do 2 f_equal.
  pose proof (Z.div_mod r L ltac:(lia)) as Hdm. fold L. rewrite Hdm at 3. ring.
Qed.

Lemma slot_conc_tind off t r :
  tind_ok Ln t → 0 ≤ r < Z.of_nat Ln * Z.of_nat Ln * Z.of_nat Ln →
  ptr_bind (λ bb, ptr_bind (λ ib, slot (ib_block ib) (r mod Z.of_nat Ln))
      (slot (bb_indblock bb) (r mod (Z.of_nat Ln * Z.of_nat Ln) / Z.of_nat Ln)))
    (slot (tb_bindblock (conc_tind Ln mk off t)) (r / (Z.of_nat Ln * Z.of_nat Ln))) =
  slot_of (tind_data t !! Z.to_nat r) (off + B * r).
Proof using HLn.
  intros (Hl & Hok & Hp) Hr. set (L := Z.of_nat Ln) in *.
  assert (0 ≤ r / (L * L) < L) as Hq
    by (split; [apply Z.div_pos; lia|apply Z.div_lt_upper_bound; lia]).
  pose proof (Z.mod_pos_bound r (L * L) ltac:(nia)) as Hm.
  cbn [conc_tind tb_bindblock]. rewrite slot_pad by lia.
  unfold tind_data. rewrite (packed_lookup bind_data (Ln * Ln)) by (done || nia).
  replace (Z.to_nat r / (Ln * Ln))%nat with (Z.to_nat (r / (L * L)))
    by (rewrite Z2Nat.inj_div by lia; f_equal; unfold L; lia).
  replace (Z.to_nat r mod (Ln * Ln))%nat with (Z.to_nat (r mod (L * L)))
    by (rewrite Z2Nat.inj_mod by lia; f_equal; unfold L; lia).
  destruct (t.2 !! Z.to_nat (r / (L * L))) as [b|] eqn:E; [|done].
  assert (bind_ok Ln b) as Hb by (by eapply (Forall_lookup_1 _ _ _ _ Hok)).
  cbn [mbind option_bind from_option ptr_bind].
  rewrite <- (mod_mul_mod r L) by lia. unfold L.
  rewrite slot_conc_bind by done. fold L. unfold slot_of.
  destruct (bind_data b !! _); [|done]. simpl. do 2 f_equal.
  pose proof (Z.div_mod r (L * L) ltac:(nia)) as Hdm. fold L. rewrite Hdm at 3. ring.
Qed.

(** Every block number below the limit has a slot, which holds the block
    of that number, or nothing past the end of the file. *)
Lemma logical_path_slot n ly j :
  layout_ok Ln ly → has_layout Ln mk n ly → 0 ≤ j < Z.of_nat (max_blocks Ln) →
  ∃ r, logical_path Ln j = Some r ∧
    slot_at n r = slot_of (ly_data ly !! Z.to_nat j) (B * j).
Proof using HLn.
  intros Hok [Hhd Hhi Hhb Hht] Hj. unfold max_blocks in Hj.
  pose proof Hok as [Hld Hli Hlb Hlt].
  rewrite (ly_data_lookup Ln HLn) by done. unfold logical_path.
  set (L := Z.of_nat Ln) in *.
  destruct (Z.ltb_spec j 4) as [C1|C1].
  { rewrite decide_True by lia. eexists. split; [done|]. simpl. rewrite Hhd.
    unfold conc_direct. by rewrite slot_pad by lia. }
  rewrite decide_False by lia. destruct (Z.ltb_spec j (4 + L)) as [C2|C2].
  { rewrite decide_True by lia. eexists. split; [done|]. cbn [slot_at]. rewrite Hhi.
    destruct (ly_ind ly) as [i|]; [|done]. cbn [conc_opt from_option ptr_bind opt_list].
    destruct (Hli i eq_refl) as [_ Hi]. rewrite slot_conc_ind by lia.
    f_equal; [f_equal; lia|]. unfold ind_base. lia. }
  rewrite decide_False by lia. destruct (Z.ltb_spec j (4 + L + L * L)) as [C3|C3].
  { rewrite decide_True by lia. eexists. split; [done|]. cbn [slot_at]. rewrite Hhb.
    destruct (ly_bind ly) as [b|]; [|done].
    cbn [conc_opt from_option opt_list]. unfold ptr_bind at 1.
    destruct (Hlb b eq_refl) as [_ Hb]. unfold L. rewrite slot_conc_bind by first [done|fold L; lia].
    f_equal; [f_equal; lia|]. unfold bind_base, ind_base. lia. }
  rewrite decide_False by lia. rewrite (proj2 (Z.ltb_lt _ _)) by lia.
  eexists. split; [done|]. cbn [slot_at]. rewrite Hht.
  destruct (ly_tind ly) as [t|]; [|done].
  cbn [conc_opt from_option opt_list]. unfold ptr_bind at 1.
  destruct (Hlt t eq_refl) as [_ Ht]. unfold L. rewrite slot_conc_tind by first [done|fold L; lia].
  f_equal; [f_equal; lia|]. unfold tind_base, bind_base, ind_base. lia.
Qed.

Lemma slot_ptr_range {A} (a : list (ptr A)) i x :
  slot a i = Ptr x → 0 ≤ i < Z.of_nat (length a).
Proof.
  unfold slot, array_at. destruct (Z.ltb_spec i 0); [done|].
  destruct (a !! Z.to_nat i) eqn:E; [|done]. apply lookup_lt_Some in E. lia.
Qed.

Lemma div_mod_pair a b c : 0 ≤ b < c → (a * c + b) / c = a ∧ (a * c + b) mod c = b.
Proof.
  intros H. rewrite Z.add_comm, Z.div_add, Z.mod_add by lia.
  rewrite Z.div_small, Z.mod_small by lia. lia.
Qed.

(** A path to a block is the path of a block number. *)
Lemma logical_path_inv n ly r b :
  layout_ok Ln ly → has_layout Ln mk n ly → slot_at n r = Ptr b →
  ∃ j, 0 ≤ j < Z.of_nat (max_blocks Ln) ∧ logical_path Ln j = Some r.
Proof using HLn.
  intros Hok [Hhd Hhi Hhb Hht]. pose proof (lok_direct _ _ Hok) as Hld.
  pose proof (lok_ind _ _ Hok) as Hli. pose proof (lok_bind _ _ Hok) as Hlb.
  pose proof (lok_tind _ _ Hok) as Hlt. unfold max_blocks, logical_path.
  destruct r as [i|i|j i|k j i]; cbn [slot_at].
  - intros Hs%slot_ptr_range. rewrite Hhd in Hs. unfold conc_direct in Hs.
    rewrite length_pad in Hs by (rewrite length_conc_list; lia).
    exists i. split; [lia|]. by replace (i <? 4) with true by lia.
  - rewrite Hhi. destruct (ly_ind ly) as [c|]; [|done].
    destruct (Hli _ eq_refl) as [_ Hc]. simpl. intros Hs%slot_ptr_range.
    rewrite length_pad in Hs by (rewrite length_conc_list; lia).
    exists (4 + i). split; [lia|].
    replace (4 + i <? 4) with false by lia. replace (4 + i <? 4 + Z.of_nat Ln) with true by lia.
    do 2 f_equal. lia.
  - rewrite Hhb. destruct (ly_bind ly) as [c|]; [|done].
    destruct (Hlb _ eq_refl) as [_ [Hc Hp]]. simpl.
    destruct (slot _ j) as [| |ib] eqn:Ej; simpl; try done. intros Hs.
    pose proof (slot_ptr_range _ _ _ Ej) as Hj.
    rewrite length_pad in Hj by (rewrite length_conc_list; lia).
    rewrite slot_pad in Ej by lia.
    destruct (c.2 !! Z.to_nat j) as [ci|] eqn:Eci; simplify_eq/=.
    pose proof (packed_Forall_length _ Hp) as Hcl.
    pose proof (Forall_lookup_1 _ _ _ _ Hcl Eci) as Hci. simpl in Hci.
    apply slot_ptr_range in Hs. rewrite length_pad in Hs by (rewrite length_conc_list; lia).
    set (L := Z.of_nat Ln) in *. exists (4 + L + (j * L + i)).
    replace (4 + L + (j * L + i) <? 4) with false by nia.
    replace (4 + L + (j * L + i) <? 4 + L) with false by nia.
    replace (4 + L + (j * L + i) <? 4 + L + L * L) with true by nia.
    replace (4 + L + (j * L + i) - 4 - L) with (j * L + i) by lia.
    destruct (div_mod_pair j i L Hs) as [-> ->]. split; [nia|done].
  - rewrite Hht. destruct (ly_tind ly) as [c|]; [|done].
    destruct (Hlt _ eq_refl) as [_ (Hc & Hbo & Hp)]. simpl.
    destruct (slot _ k) as [| |bb] eqn:Ek; simpl; try done.
    destruct (slot (bb_indblock bb) j) as [| |ib] eqn:Ej; simpl; try done. intros Hs.
    pose proof (slot_ptr_range _ _ _ Ek) as Hk.
    rewrite length_pad in Hk by (rewrite length_conc_list; lia).
    rewrite slot_pad in Ek by lia.
    destruct (c.2 !! Z.to_nat k) as [cb|] eqn:Ecb; simplify_eq/=.
    destruct (Forall_lookup_1 _ _ _ _ Hbo Ecb) as [Hcb Hcp].
    pose proof (slot_ptr_range _ _ _ Ej) as Hj. cbn [conc_bind bb_indblock] in Hj.
    rewrite length_pad in Hj by (rewrite length_conc_list; lia).
    rewrite slot_pad in Ej by lia.
    destruct (cb.2 !! Z.to_nat j) as [ci|] eqn:Eci; simplify_eq/=.
    pose proof (packed_Forall_length _ Hcp) as Hcl.
    pose proof (Forall_lookup_1 _ _ _ _ Hcl Eci) as Hci. simpl in Hci.
    apply slot_ptr_range in Hs. rewrite length_pad in Hs by (rewrite length_conc_list; lia).
    set (L := Z.of_nat Ln) in *. exists (4 + L + L * L + (k * (L * L) + (j * L + i))).
    assert (0 ≤ j * L + i < L * L) as Hji by nia.
    assert (0 ≤ k * (L * L) + (j * L + i) < L * L * L) as Hkji by nia.
    set (x := k * (L * L) + (j * L + i)) in *.
    replace (4 + L + L * L + x <? 4) with false by nia.
    replace (4 + L + L * L + x <? 4 + L) with false by nia.
    replace (4 + L + L * L + x <? 4 + L + L * L) with false by lia.
    replace (4 + L + L * L + x <? 4 + L + L * L + L * L * L) with true by lia.
    replace (4 + L + L * L + x - 4 - L - L * L) with x by lia.
    destruct (div_mod_pair k (j * L + i) (L * L) Hji) as [Hd Hm]. fold x in Hd, Hm.
    destruct (div_mod_pair j i L Hs) as [Hd' Hm'].
    rewrite Hd, Hm, Hd'. rewrite <- (mod_mul_mod x L), Hm, Hm' by lia. split; [nia|done].
Qed.

(** The blocks of the tree are those of the layout. *)
Lemma slot_at_data n ly r b :
  layout_ok Ln ly → has_layout Ln mk n ly → slot_at n r = Ptr b →
  ∃ j id, logical_path Ln (Z.of_nat j) = Some r ∧ ly_data ly !! j = Some id ∧
    b = mk id (B * Z.of_nat j).
Proof using HLn.
  intros Hok Hly Hs. destruct (logical_path_inv n ly r b Hok Hly Hs) as (j & Hj & Hp).
  destruct (logical_path_slot n ly j Hok Hly Hj) as (r' & Hp' & Hs').
  rewrite Hp in Hp'. injection Hp' as <-. rewrite Hs in Hs'.
  destruct (ly_data ly !! Z.to_nat j) as [id|] eqn:E; simplify_eq/=.
  exists (Z.to_nat j), id. rewrite Z2Nat.id by lia. done.
Qed.
End slots.
