(* ===== verification/ExtendProofs.v ===== *)
(** * [udbfslib_extend_inode] refines [ext_layout]

    With free blocks left and below the size limit, extending an inode whose
    index tree is that of a layout gives the tree of the extended layout:
    the new data block and the index blocks it needs are the first free
    block numbers, in the order the code allocates them. *)
From S2P Require Import Prelude Posix Bitmap LinkList UdbfsTypes BlockLoad InodeBlocks.
From S2P Require Import Layout Paths.
Local Open Scope Z_scope.

(** ** Free blocks of a world *)

(** The numbers the allocator hands out next: as many free bits as the free
    count allows, which is at most the number of set bits. *)
Definition alloc_ok (w : world) (fs : list Z) : Prop :=
  ∃ bitmap, m_block_bitmap (w_mnt w) = Some bitmap ∧ bitmap_ok bitmap ∧
    m_block_bitmap_size (w_mnt w) = zlen bitmap ∧
    0 ≤ m_free_block_count (w_mnt w) ≤ zlen (free_bits bitmap) ∧
    fs = take (Z.to_nat (m_free_block_count (w_mnt w))) (free_bits bitmap).

(** Only the block bitmap and its count differ. *)
Definition alloc_rel (w w' : world) : Prop :=
  ∃ bitmap count, w' = set_w_mnt (set_m_free_block_count count
    (set_m_block_bitmap bitmap (w_mnt w))) w.

#[export] Instance alloc_rel_preorder : PreOrder alloc_rel.
Proof.
  split.
  - intros w. exists (m_block_bitmap (w_mnt w)), (m_free_block_count (w_mnt w)).
    by destruct w as [? ? ? [] ? ? ? ? ? ? ?].
  - intros w1 w2 w3 (b2 & c2 & ->) (b3 & c3 & ->). by exists b3, c3.
Qed.

(** Block numbers whose byte range is addressable. *)
Definition id_ok (Ln : nat) (id : Z) : Prop := 0 < id ∧ (id + 1) * bsize Ln ≤ 2 ^ 62.

Record ext_env (w : world) (Ln : nat) : Prop := {
  env_geo : geometry (w_mnt w) Ln;
  env_mallocs : w_mallocs w = []
}.

Lemma alloc_rel_geometry w w' Ln :
  alloc_rel w w' → geometry (w_mnt w) Ln → geometry (w_mnt w') Ln.
Proof. intros (b & c & ->) []. by split. Qed.

Lemma alloc_rel_env w w' Ln : alloc_rel w w' → ext_env w Ln → ext_env w' Ln.
Proof.
  intros Hr [Hg Hm]. split; [by eapply alloc_rel_geometry|]. by destruct Hr as (? & ? & ->).
Qed.

Lemma allocate_block_id_ok w id fs :
  alloc_ok w (id :: fs) →
  ∃ w', udbfs_allocate_block_id w = Ok id w' ∧ alloc_rel w w' ∧ alloc_ok w' fs.
Proof.
  intros (bm & Hbm & Hok & Hsz & Hc & Hfs).
  destruct (free_bits bm) as [|i rest] eqn:Hfree; [by rewrite take_nil in Hfs|].
  destruct (decide (m_free_block_count (w_mnt w) = 0)) as [H0|H0].
  { rewrite H0 in Hfs. done. }
  pose proof (length_free_bits bm) as Hlen. rewrite Hfree in Hlen.
  destruct (allocate_bit_ok bm (m_free_block_count (w_mnt w)) Hok i rest)
    as (bm' & Hal & Hok' & Hl' & Hrest & _); [lia|done|].
  unfold udbfs_allocate_block_id. steps. rewrite Hbm. steps. rewrite Hsz, Hal. steps.
  replace (Z.to_nat (m_free_block_count (w_mnt w)))
    with (S (Z.to_nat (m_free_block_count (w_mnt w) - 1))) in Hfs by lia.
  simpl in Hfs. injection Hfs as -> ->.
  eexists. split; [done|]. split; [by eexists _, _|].
  exists bm'. simpl. split; [done|]. split; [done|].
  split; [unfold zlen in *; by rewrite Hl'|].
  rewrite Hrest. split; [|done]. unfold zlen in *. simpl in Hc. lia.
Qed.

Lemma block_links_ok w Ln : geometry (w_mnt w) Ln → block_links w = Ok (Z.of_nat Ln) w.
Proof.
  intros [Hl Hb _ _ _ _]. unfold block_links. steps. rewrite Hb.
  unfold bsize. rewrite Z.shiftr_div_pow2 by lia. change (2 ^ 3) with 8.
  rewrite Z.mul_comm, Z.div_mul, i32_small by lia. done.
Qed.

(** ** The loops *)

Section extend.
Context (Ln : nat) (l : loc) (d : Z).
Hypothesis HLn : 16 ≤ Z.of_nat Ln ≤ 2 ^ 15.
Hypothesis Hd : id_ok Ln d.
Context (m0 : mount).
Hypothesis Hm0 : geometry m0 Ln.

Abbreviation B := (bsize Ln).
Abbreviation L := (Z.of_nat Ln).
Abbreviation mk := (mkblock Ln l).
Abbreviation fin := (finalize_block m0 d).

(** The new block before [finalize]. *)
Definition raw_block (off : Z) : block := Block 0 off 0 0 l.

Lemma finalize_raw off :
  0 ≤ off → off + B < 2 ^ 64 → fin (raw_block off) = mk d off.
Proof using Hd HLn Hm0.
  destruct Hm0 as [_ Hb _ _ _ _]. intros H1 H2. destruct Hd as [Hd1 Hd2].
  unfold finalize_block, mkblock, raw_block. simpl. rewrite Hb. unfold bsize in *.
  by rewrite !u64_small by lia.
Qed.

(** The path leads to the new block. *)
Definition points (p : ptr block) : Prop := ∃ o, p = Ptr (raw_block o).

Lemma slot_mid {A} (pre : list (ptr A)) p post i :
  i = Z.of_nat (length pre) → slot (pre ++ p :: post) i = p.
Proof. intros ->. unfold slot. rewrite array_at_lookup. by rewrite list_lookup_middle. Qed.

Lemma allocate_memory_block_ok w :
  w_mallocs w = [] → udbfslib_allocate_memory_block l w = Ok (Some (raw_block 0)) w.
Proof. intros Hm. unfold udbfslib_allocate_memory_block. by step_with (malloc_ok w Hm). Qed.

Lemma allocate_memory_indblock_ok w :
  ext_env w Ln →
  udbfslib_allocate_memory_indblock w = Ok (Some (Indblock 0 0 (replicate Ln Null))) w.
Proof.
  intros [Hg Hm]. unfold udbfslib_allocate_memory_indblock.
  step_with (block_links_ok w Ln Hg). step_with (malloc_ok w Hm). by rewrite Nat2Z.id.
Qed.

Lemma allocate_memory_bindblock_ok w :
  ext_env w Ln →
  udbfslib_allocate_memory_bindblock w = Ok (Some (Bindblock 0 0 (replicate Ln Null))) w.
Proof.
  intros [Hg Hm]. unfold udbfslib_allocate_memory_bindblock.
  step_with (block_links_ok w Ln Hg). step_with (malloc_ok w Hm). by rewrite Nat2Z.id.
Qed.

Lemma allocate_memory_tindblock_ok w :
  ext_env w Ln →
  udbfslib_allocate_memory_tindblock w = Ok (Some (Tindblock 0 0 (replicate Ln Null))) w.
Proof.
  intros [Hg Hm]. unfold udbfslib_allocate_memory_tindblock.
  step_with (block_links_ok w Ln Hg). step_with (malloc_ok w Hm). by rewrite Nat2Z.id.
Qed.

(** Updating the first entry after [pre]. *)
Lemma slot_update_mid {A} (f : A → A) (pre : list (ptr A)) p post i :
  i = Z.of_nat (length pre) →
  slot_update f i (pre ++ p :: post) = pre ++ ptr_map f p :: post.
Proof.
  intros ->. unfold slot_update. rewrite Nat2Z.id, alter_app_r_alt by lia.
  by rewrite Nat.sub_diag.
Qed.

Lemma array_at_mid {A} (pre : list A) p post :
  array_at (pre ++ p :: post) (Z.of_nat (length pre)) = Some p.
Proof. rewrite array_at_lookup. by rewrite list_lookup_middle. Qed.

Lemma array_set_mid {A} (pre : list A) p q post :
  array_set (pre ++ p :: post) (Z.of_nat (length pre)) q = pre ++ q :: post.
Proof. unfold array_set. rewrite Nat2Z.id. by rewrite insert_app_here. Qed.

Lemma pad_cons {A} n (p : ptr A) ps : pad (S n) (p :: ps) = p :: pad n ps.
Proof. done. Qed.

Lemma pad_nil_S {A} n : pad (S n) ([] : list (ptr A)) = Null :: pad n [].
Proof. unfold pad. simpl. by rewrite Nat.sub_0_r. Qed.

Lemma snoc_mid {A} (pre : list A) p post : pre ++ p :: post = (pre ++ [p]) ++ post.
Proof. by rewrite <- app_assoc. Qed.

Lemma of_nat_snoc {A} (pre : list A) p :
  Z.of_nat (length pre) + 1 = Z.of_nat (length (pre ++ [p])).
Proof. rewrite length_app. simpl. lia. Qed.

Abbreviation conc_ids := (conc_list (λ o id, mk id o) B).

Lemma is_null_ptr {S A} (a : A) (s : S) : is_null (Ptr a) s = Ok false s.
Proof. done. Qed.
Lemma is_null_null {S A} (s : S) : is_null (@Null A) s = Ok true s.
Proof. done. Qed.

Lemma extend_indblock_loop_ok w id dev off ids pre fuel :
  ext_env w Ln → 0 ≤ off → off + L * B < 2 ^ 64 → (length pre + fuel = Ln)%nat →
  (length ids ≤ fuel)%nat →
  extend_indblock_loop fuel (Z.of_nat (length pre))
      (Indblock id dev (pre ++ pad fuel (conc_ids (off + B * Z.of_nat (length pre)) ids)))
      l off w =
    if (length ids <? fuel)%nat then
      let o := off + B * Z.of_nat (length pre + length ids) in
      Ok (Indblock id dev (pre ++
           pad fuel (conc_ids (off + B * Z.of_nat (length pre)) ids ++ [Ptr (raw_block o)])),
          Some (Z.of_nat (length pre + length ids))) w
    else
      Ok (Indblock id dev (pre ++ pad fuel (conc_ids (off + B * Z.of_nat (length pre)) ids)),
          None) w.
Proof using HLn.
  intros [Hg Hm] Hoff Hoff'. revert ids pre.
  induction fuel as [|fuel IH]; intros ids pre Hf Hids.
  { destruct (Nat.ltb_spec (length ids) 0); [lia|done]. }
  cbn [extend_indblock_loop ib_block]. destruct ids as [|x ids]; simpl conc_list.
  - rewrite pad_nil_S, array_at_mid. steps.
    step_with (is_null_null (A := block) w). steps.
    step_with (allocate_memory_block_ok w Hm). steps.
    destruct Hg as [_ Hb _ _ _ _]. rewrite Hb.
    unfold set_ib_block, set_b_offset_start. cbn [ib_id ib_device_offset ib_block].
    rewrite array_set_mid. simpl length. rewrite Nat.add_0_r. simpl app. rewrite pad_cons.
    assert (0 ≤ Z.of_nat (length pre) * B ≤ L * B) by (unfold bsize; nia).
    rewrite !u64_small by (rewrite ?u64_small by lia; lia).
    unfold raw_block. simpl. by rewrite (Z.mul_comm B).
  - rewrite pad_cons, array_at_mid. steps. step_with (is_null_ptr (mk x (off + B * Z.of_nat (length pre))) w).
    rewrite snoc_mid. rewrite (of_nat_snoc pre (Ptr (mk x (off + B * Z.of_nat (length pre))))).
    replace (off + B * Z.of_nat (length pre) + B) with
      (off + B * Z.of_nat (length (pre ++ [Ptr (mk x (off + B * Z.of_nat (length pre)))])))
      by (rewrite length_app; simpl; lia).
    rewrite IH by (rewrite ?length_app; simpl in *; lia). simpl length.
    replace (length (pre ++ [Ptr (mk x (off + B * Z.of_nat (length pre)))]) + length ids)%nat
      with (length pre + S (length ids))%nat by (rewrite length_app; simpl; lia).
    change (S (length ids) <? S fuel)%nat with (length ids <? fuel)%nat.
    destruct (length ids <? fuel)%nat; cbv zeta; rewrite <- !app_assoc; done.
Qed.

Definition ind_extended off (c : lind) (r : indblock * option Z) : Prop :=
  match ext_ind Ln c.2 d with
  | Some ids => ∃ i, r.2 = Some i ∧ points (slot (ib_block r.1) i) ∧
      ind_update fin i r.1 = conc_ind Ln mk off (c.1, ids)
  | None => r = (conc_ind Ln mk off c, None)
  end.

(** [udbfslib_extend_indblock] refines [ext_ind]. *)
Lemma extend_indblock_ok w off (c : lind) :
  ext_env w Ln → 0 ≤ off → off + L * B < 2 ^ 64 → (length c.2 ≤ Ln)%nat →
  ∃ r, udbfslib_extend_indblock (conc_ind Ln mk off c) l off w = Ok r w ∧
    ind_extended off c r.
Proof using HLn Hd Hm0.
  intros Henv Hoff Hoff' Hc. pose proof Henv as [Hg Hm].
  unfold udbfslib_extend_indblock. step_with (block_links_ok w Ln Hg). rewrite Nat2Z.id.
  pose proof (extend_indblock_loop_ok w c.1 (c.1 * B) off c.2 [] Ln Henv Hoff Hoff') as He.
  cbn [length app] in He. change (Z.of_nat 0) with 0 in He.
  replace (off + B * 0) with off in He by lia.
  unfold conc_ind. rewrite He by lia. unfold ind_extended, ext_ind. clear He.
  destruct (Nat.ltb_spec (length c.2) Ln); [rewrite decide_True by done|
    rewrite decide_False by lia; by eexists].
  eexists. split; [done|]. eexists. split; [done|]. cbn [fst snd]. split.
  { eexists. cbn [ib_block]. unfold pad. rewrite <- app_assoc. simpl app.
    apply slot_mid. rewrite length_conc_list. lia. }
  unfold ind_update, set_ib_block. cbn [ib_id ib_device_offset ib_block conc_ind]. f_equal.
  unfold conc_ind, pad. cbn [snd]. rewrite length_app, length_conc_list, <- app_assoc. simpl app.
  rewrite slot_update_mid by (by rewrite length_conc_list).
  simpl. rewrite finalize_raw.
  2: unfold bsize; nia. 2: unfold bsize in *; nia.
  rewrite conc_list_app, length_app, length_conc_list, <- app_assoc. done.
Qed.

(** An index block is numbered. *)
Lemma new_index_ok w m fs :
  ext_env w Ln → alloc_ok w (m :: fs) → id_ok Ln m →
  ∃ w', udbfs_allocate_block_id w = Ok m w' ∧ alloc_rel w w' ∧ alloc_ok w' fs ∧
    ext_env w' Ln ∧ u64 (m * m_block_size (w_mnt w)) = m * B.
Proof.
  intros Henv Hal [Hm1 Hm2]. destruct (allocate_block_id_ok w m fs Hal) as (w' & ? & ? & ?).
  exists w'. split_and!; try done; [by eapply alloc_rel_env|].
  destruct Henv as [[_ Hb _ _ _ _] _]. rewrite Hb.
  unfold bsize in *. by rewrite u64_small by lia.
Qed.

Abbreviation conc_inds := (conc_list (conc_ind Ln mk) (L * B)).

Lemma extend_bindblock_loop_ok id dev fuel : ∀ cs w off fs pre cs' fs',
  ext_env w Ln → 0 ≤ off → off + Z.of_nat fuel * (L * B) < 2 ^ 64 →
  alloc_ok w fs → Forall (id_ok Ln) fs → Forall (λ c : lind, (length c.2 ≤ Ln)%nat) cs →
  ext_bind Ln fuel cs d fs = Some (cs', fs') →
  ∃ w' es i j,
    extend_bindblock_loop fuel (Z.of_nat (length pre))
      (Bindblock id dev (pre ++ pad fuel (conc_inds off cs))) l off w =
      Ok (Bindblock id dev (pre ++ es), Some (i, j)) w' ∧
    alloc_rel w w' ∧ alloc_ok w' fs' ∧
    points (ptr_bind (λ ib, slot (ib_block ib) j) (slot (pre ++ es) i)) ∧
    slot_update (ind_update fin j) i (pre ++ es) = pre ++ pad fuel (conc_inds off cs').
Proof using HLn Hd Hm0.
  induction fuel as [|fuel IH]; intros cs w off fs pre cs' fs' Henv Hoff Hoff' Hal Hids Hcs Hext;
    [done|].
  pose proof (geometry_bounds Ln HLn) as (B1 & B2 & B3 & B4 & B5 & B6 & B7).
  assert (off + L * B < 2 ^ 64) as Hoff2 by nia.
  cbn [extend_bindblock_loop bb_indblock]. destruct cs as [|c cs]; simpl conc_list.
  - simpl in Hext. destruct fs as [|m fs]; [done|]. injection Hext as <- <-.
    apply Forall_cons in Hids as [Hid _].
    rewrite pad_nil_S, array_at_mid. steps. step_with (is_null_null (A := indblock) w).
    step_with (allocate_memory_indblock_ok w Henv). steps.
    destruct (new_index_ok w m fs Henv Hal Hid) as (w1 & E1 & Hr1 & Hal1 & Henv1 & Hu).
    step_with E1. rewrite Hu. cbn [ib_block].
    destruct (extend_indblock_ok w1 off (m, []) Henv1 Hoff Hoff2) as (r & Hr & He); [simpl; lia|].
    replace (Indblock m (m * B) (replicate Ln Null)) with (conc_ind Ln mk off (m, []))
      by (unfold conc_ind, pad; simpl; by rewrite Nat.sub_0_r).
    step_with Hr. unfold ind_extended, ext_ind in He. simpl in He.
    rewrite decide_True in He by lia. destruct He as (i & Hi & Hpt & He). rewrite Hi. simpl.
    unfold set_bb_indblock. cbn [bb_id bb_device_offset bb_indblock]. rewrite array_set_mid.
    eexists w1, _, _, i. split; [done|]. split; [done|]. split; [done|].
    rewrite slot_mid by done. split; [done|]. rewrite slot_update_mid by done. simpl. by rewrite He, pad_cons.
  - apply Forall_cons in Hcs as [Hc Hcs].
    rewrite pad_cons, array_at_mid. steps.
    step_with (is_null_ptr (conc_ind Ln mk off c) w). steps.
    destruct (extend_indblock_ok w off c Henv Hoff Hoff2 Hc) as (r & Hr & He).
    step_with Hr. unfold set_bb_indblock. cbn [bb_id bb_device_offset bb_indblock].
    rewrite array_set_mid. unfold ind_extended in He. cbn [ext_bind] in Hext.
    destruct (ext_ind Ln c.2 d) as [ids|].
    + injection Hext as <- <-. destruct He as (i & Hi & Hpt & He). rewrite Hi.
      eexists w, _, _, i. split; [done|]. split; [done|]. split; [done|].
      rewrite slot_mid by done. split; [done|]. rewrite slot_update_mid by done. simpl. by rewrite He, pad_cons.
    + subst r. cbn [snd fst].
      destruct (ext_bind Ln fuel cs d fs) as [[cs1 fs1]|] eqn:E; [|done].
      injection Hext as <- <-. cbn [fst snd].
      destruct Henv as [Hg Hm]. rewrite (geo_ind _ _ Hg), u64_small by lia.
      rewrite snoc_mid, (of_nat_snoc pre (Ptr (conc_ind Ln mk off c))).
      destruct (IH cs w (off + L * B) fs (pre ++ [Ptr (conc_ind Ln mk off c)]) cs1 fs1)
        as (w' & es & i & j & H1 & H2 & H3 & Hpt & H4); try done; [lia|nia|].
      rewrite H1. exists w', (Ptr (conc_ind Ln mk off c) :: es), i, j.
      rewrite <- !app_assoc in *. simpl. done.
Qed.

Lemma extend_bindblock_loop_full id dev fuel : ∀ cs w off pre,
  ext_env w Ln → 0 ≤ off → off + Z.of_nat fuel * (L * B) < 2 ^ 64 →
  length cs = fuel → Forall (λ c : lind, length c.2 = Ln) cs →
  extend_bindblock_loop fuel (Z.of_nat (length pre))
      (Bindblock id dev (pre ++ pad fuel (conc_inds off cs))) l off w =
    Ok (Bindblock id dev (pre ++ pad fuel (conc_inds off cs)), None) w.
Proof using HLn Hd Hm0.
  induction fuel as [|fuel IH]; intros cs w off pre Henv Hoff Hoff' Hl Hcs; [done|].
  pose proof (geometry_bounds Ln HLn) as (B1 & B2 & B3 & B4 & B5 & B6 & B7).
  destruct Hcs as [|c cs Hc Hcs]; [done|]. injection Hl as Hl.
  cbn [extend_bindblock_loop bb_indblock]. simpl conc_list.
  rewrite pad_cons, array_at_mid. steps.
  step_with (is_null_ptr (conc_ind Ln mk off c) w). steps.
  destruct (extend_indblock_ok w off c) as (r & Hr & He); [done|done|nia|lia|].
  step_with Hr. unfold set_bb_indblock. cbn [bb_id bb_device_offset bb_indblock].
  rewrite array_set_mid. unfold ind_extended, ext_ind in He.
  rewrite decide_False in He by lia. subst r. cbn [fst snd].
  rewrite (geo_ind _ _ (env_geo _ _ Henv)), u64_small by lia.
  rewrite snoc_mid, (of_nat_snoc pre (Ptr (conc_ind Ln mk off c))).
  rewrite IH; try done; [lia|nia].
Qed.

(** [udbfslib_extend_bindblock] refines [ext_bind]. *)
Lemma extend_bindblock_ok w off (b : lbind) fs cs' fs' :
  ext_env w Ln → 0 ≤ off → off + L * L * B < 2 ^ 64 →
  alloc_ok w fs → Forall (id_ok Ln) fs → Forall (λ c : lind, (length c.2 ≤ Ln)%nat) b.2 →
  ext_bind Ln Ln b.2 d fs = Some (cs', fs') →
  ∃ w' r i j, udbfslib_extend_bindblock (conc_bind Ln mk off b) l off w =
      Ok (r, Some (i, j)) w' ∧
    alloc_rel w w' ∧ alloc_ok w' fs' ∧
    points (ptr_bind (λ ib, slot (ib_block ib) j) (slot (bb_indblock r) i)) ∧
    bind_update fin i j r = conc_bind Ln mk off (b.1, cs').
Proof using HLn Hd Hm0.
  intros Henv Hoff Hoff' Hal Hids Hcs Hext.
  destruct (extend_bindblock_loop_ok b.1 (b.1 * B) Ln b.2 w off fs [] cs' fs')
    as (w' & es & i & j & H1 & H2 & H3 & Hpt & H4); try done; [nia|].
  unfold udbfslib_extend_bindblock. step_with (block_links_ok w Ln (env_geo _ _ Henv)).
  rewrite Nat2Z.id. eexists w', _, i, j. split; [exact H1|]. split; [done|]. split; [done|].
  split; [done|]. unfold bind_update, set_bb_indblock. simpl. simpl in H4. by rewrite H4.
Qed.

Lemma bind_ok_full b :
  bind_ok Ln b → length (bind_data b) = (Ln * Ln)%nat →
  length b.2 = Ln ∧ Forall (λ c : lind, length c.2 = Ln) b.2.
Proof using HLn.
  intros [Hl Hp] Hf. assert (0 < Ln)%nat as H0 by lia.
  unfold bind_data in Hf.
  destruct (packed_cases snd Ln H0 _ Hp) as [HF|(cs & c & Hb & HF & Hc)].
  - split; [|done]. rewrite (packed_full_length snd Ln) in Hf by done. nia.
  - rewrite Hb in Hf, Hl. rewrite bind_app, length_app in Hf.
    rewrite (packed_full_length snd Ln) in Hf by done.
    rewrite length_app in Hl. simpl in *. rewrite app_nil_r in Hf. nia.
Qed.

Lemma bind_ok_bounds b : bind_ok Ln b → Forall (λ c : lind, (length c.2 ≤ Ln)%nat) b.2.
Proof using HLn. intros [_ Hp]. apply packed_Forall_length; [lia|done]. Qed.

Lemma extend_bindblock_full w off b :
  ext_env w Ln → 0 ≤ off → off + L * L * B < 2 ^ 64 → bind_ok Ln b →
  length (bind_data b) = (Ln * Ln)%nat →
  udbfslib_extend_bindblock (conc_bind Ln mk off b) l off w =
    Ok (conc_bind Ln mk off b, None) w.
Proof using HLn Hd Hm0.
  intros Henv Hoff Hoff' Hok Hf. destruct (bind_ok_full b Hok Hf) as [Hl HF].
  unfold udbfslib_extend_bindblock. step_with (block_links_ok w Ln (env_geo _ _ Henv)).
  rewrite Nat2Z.id. apply (extend_bindblock_loop_full b.1 (b.1 * B) Ln b.2 w off []);
    try done; nia.
Qed.

Abbreviation conc_binds := (conc_list (conc_bind Ln mk) (L * L * B)).

Lemma extend_tindblock_loop_ok id dev fuel : ∀ cs w off fs pre cs' fs',
  ext_env w Ln → 0 ≤ off → off + Z.of_nat fuel * (L * L * B) < 2 ^ 64 →
  alloc_ok w fs → Forall (id_ok Ln) fs → Forall (bind_ok Ln) cs →
  ext_tind Ln fuel cs d fs = Some (cs', fs') →
  ∃ w' es k j i,
    extend_tindblock_loop fuel (Z.of_nat (length pre))
      (Tindblock id dev (pre ++ pad fuel (conc_binds off cs))) l off w =
      Ok (Tindblock id dev (pre ++ es), Some (k, (j, i))) w' ∧
    alloc_rel w w' ∧ alloc_ok w' fs' ∧
    points (ptr_bind (λ bb, ptr_bind (λ ib, slot (ib_block ib) i) (slot (bb_indblock bb) j))
      (slot (pre ++ es) k)) ∧
    slot_update (bind_update fin j i) k (pre ++ es) = pre ++ pad fuel (conc_binds off cs').
Proof using HLn Hd Hm0.
  induction fuel as [|fuel IH]; intros cs w off fs pre cs' fs' Henv Hoff Hoff' Hal Hids Hcs Hext;
    [done|].
  pose proof (geometry_bounds Ln HLn) as (B1 & B2 & B3 & B4 & B5 & B6 & B7).
  assert (off + L * L * B < 2 ^ 64) as Hoff2 by nia.
  cbn [extend_tindblock_loop tb_bindblock]. destruct cs as [|c cs]; simpl conc_list.
  - unfold ext_tind, new_bind in Hext. destruct fs as [|m fs]; [done|].
    destruct (ext_bind Ln Ln [] d fs) as [[cs1 fs1]|] eqn:E; [|done].
    injection Hext as <- <-. apply Forall_cons in Hids as [Hid Hids].
    rewrite pad_nil_S, array_at_mid. steps. step_with (is_null_null (A := bindblock) w).
    step_with (allocate_memory_bindblock_ok w Henv). steps.
    destruct (new_index_ok w m fs Henv Hal Hid) as (w1 & E1 & Hr1 & Hal1 & Henv1 & Hu).
    step_with E1. rewrite Hu. cbn [bb_indblock].
    destruct (extend_bindblock_ok w1 off (m, []) fs cs1 fs1) as (w2 & r & j & i & H1 & H2 & H3 & Hpt & H4);
      try done.
    replace (Bindblock m (m * B) (replicate Ln Null)) with (conc_bind Ln mk off (m, []))
      by (unfold conc_bind, pad; simpl; by rewrite Nat.sub_0_r).
    step_with H1. unfold set_tb_bindblock. simpl. rewrite array_set_mid.
    eexists w2, _, _, j, i. split; [done|]. split; [by etrans|]. split; [done|].
    rewrite slot_mid by done. split; [done|]. rewrite slot_update_mid by done. simpl in *. by rewrite H4, pad_cons.
  - apply Forall_cons in Hcs as [Hc Hcs].
    rewrite pad_cons, array_at_mid. steps.
    step_with (is_null_ptr (conc_bind Ln mk off c) w). steps. cbn [ext_tind] in Hext.
    unfold bind_fullb in Hext. destruct (Nat.leb_spec (Ln * Ln) (length (bind_data c))) as [Hf|Hf].
    + pose proof (bind_ok_length Ln ltac:(lia) c Hc).
      step_with (extend_bindblock_full w off c Henv Hoff Hoff2 Hc ltac:(lia)).
      unfold set_tb_bindblock. cbn [fst snd tb_id tb_device_offset tb_bindblock].
      rewrite array_set_mid.
      destruct (ext_tind Ln fuel cs d fs) as [[cs1 fs1]|] eqn:E; [|done].
      injection Hext as <- <-. cbn [fst snd].
      destruct Henv as [Hg Hm]. rewrite (geo_bind _ _ Hg), u64_small by lia.
      rewrite snoc_mid, (of_nat_snoc pre (Ptr (conc_bind Ln mk off c))).
      destruct (IH cs w (off + L * L * B) fs (pre ++ [Ptr (conc_bind Ln mk off c)]) cs1 fs1)
        as (w' & es & k & j & i & H1 & H2 & H3 & Hpt & H4); try done; [lia|nia|].
      rewrite H1. exists w', (Ptr (conc_bind Ln mk off c) :: es), k, j, i.
      rewrite <- !app_assoc in *. simpl. done.
    + destruct (ext_bind Ln Ln c.2 d fs) as [[cs1 fs1]|] eqn:E; [|done].
      injection Hext as <- <-.
      destruct (extend_bindblock_ok w off c fs cs1 fs1) as (w2 & r & j & i & H1 & H2 & H3 & Hpt & H4);
        try done; [by apply bind_ok_bounds|].
      step_with H1. unfold set_tb_bindblock. cbn [fst snd tb_id tb_device_offset tb_bindblock].
      rewrite array_set_mid.
      eexists w2, _, _, j, i. split; [done|]. split; [done|]. split; [done|].
      rewrite slot_mid by done. split; [done|]. rewrite slot_update_mid by done. simpl. by rewrite H4, pad_cons.
Qed.

(** [udbfslib_extend_tindblock] refines [ext_tind]. *)
Lemma extend_tindblock_ok w off (t : ltind) fs cs' fs' :
  ext_env w Ln → 0 ≤ off → off + L * L * L * B < 2 ^ 64 →
  alloc_ok w fs → Forall (id_ok Ln) fs → Forall (bind_ok Ln) t.2 →
  ext_tind Ln Ln t.2 d fs = Some (cs', fs') →
  ∃ w' r k j i, udbfslib_extend_tindblock (conc_tind Ln mk off t) l off w =
      Ok (r, Some (k, (j, i))) w' ∧
    alloc_rel w w' ∧ alloc_ok w' fs' ∧
    points (ptr_bind (λ bb, ptr_bind (λ ib, slot (ib_block ib) i) (slot (bb_indblock bb) j))
      (slot (tb_bindblock r) k)) ∧
    tind_update fin k j i r = conc_tind Ln mk off (t.1, cs').
Proof using HLn Hd Hm0.
  intros Henv Hoff Hoff' Hal Hids Hcs Hext.
  destruct (extend_tindblock_loop_ok t.1 (t.1 * B) Ln t.2 w off fs [] cs' fs')
    as (w' & es & k & j & i & H1 & H2 & H3 & Hpt & H4); try done; [nia|].
  unfold udbfslib_extend_tindblock. step_with (block_links_ok w Ln (env_geo _ _ Henv)).
  rewrite Nat2Z.id. eexists w', _, k, j, i. split; [exact H1|]. split; [done|]. split; [done|].
  split; [done|]. unfold tind_update, set_tb_bindblock. simpl. simpl in H4. by rewrite H4.
Qed.
End extend.

(** ** The inode *)

Lemma cons_case {A} (xs : list A) : xs = [] ∨ ∃ y ys, xs = y :: ys.
Proof. destruct xs; eauto. Qed.

(** Everything but the trees. *)
Definition same_file (n n' : inode) : Prop :=
  i_id n' = i_id n ∧ i_size n' = i_size n ∧ i_cursor n' = i_cursor n ∧
  i_physical_offset n' = i_physical_offset n.

(** Extension changes the block bitmap and inode [l]. *)
Definition ext_rel (l : loc) (n' : inode) (w w' : world) : Prop :=
  ∃ w1, alloc_rel w w1 ∧ w' = set_w_inodes (<[l := n']> (w_inodes w)) w1.

Lemma put_inode_ok l n w : put_inode l n w = Ok tt (set_w_inodes (<[l := n]> (w_inodes w)) w).
Proof. done. Qed.

Lemma put_inode_same l n w :
  w_inodes w !! l = Some n → put_inode l n w = Ok tt w.
Proof.
  intros Hl. unfold put_inode, modify. rewrite insert_id by done. by destruct w.
Qed.

Lemma alloc_rel_inodes w w' : alloc_rel w w' → w_inodes w' = w_inodes w.
Proof. by intros (? & ? & ->). Qed.

Section inode.
Context (Ln : nat) (l : loc) (d : Z) (m0 : mount) (w : world) (n : inode) (ly : layout).
Context (fs : list Z).
Hypothesis Henv : ext_env w Ln.
Hypothesis Hm0 : geometry m0 Ln.
Hypothesis Hid : id_ok Ln d.
Hypothesis Hal : alloc_ok w fs.
Hypothesis Hids : Forall (id_ok Ln) fs.
Hypothesis Hn : w_inodes w !! l = Some n.
Hypothesis Hly : has_layout Ln (mkblock Ln l) n ly.
Hypothesis Hok : layout_ok Ln ly.

Abbreviation B := (bsize Ln).
Abbreviation L := (Z.of_nat Ln).
Abbreviation mk := (mkblock Ln l).
Abbreviation fin := (finalize_block m0 d).

Definition staged (c : M world (option bref)) (ly' : layout) (fs' : list Z) : Prop :=
  ∃ w' n' path, c w = Ok (Some path) w' ∧ alloc_ok w' fs' ∧ ext_rel l n' w w' ∧
    same_file n n' ∧ points l (slot_at n' path) ∧
    has_layout Ln mk (block_update fin path n') ly'.

Let HLn : 16 ≤ L ≤ 2 ^ 15 := geo_links _ _ (env_geo _ _ Henv).

Lemma extend_direct_skip j rest :
  0 ≤ j < zlen (ly_direct ly) → extend_direct l j rest w = rest w.
Proof using Hly Hok Hn.
  intros Hj. unfold zlen in Hj. pose proof (lok_direct _ _ Hok).
  unfold extend_direct. steps. step_with (get_inode_ok l n w Hn).
  rewrite (hl_direct _ _ _ _ Hly). unfold conc_direct.
  replace j with (Z.of_nat (Z.to_nat j)) by lia. rewrite array_at_lookup.
  rewrite pad_lookup_l, conc_list_lookup by (rewrite length_conc_list; lia).
  destruct (lookup_lt_is_Some_2 (ly_direct ly) (Z.to_nat j)) as [x ->]; [lia|].
  simpl. steps. by step_with (is_null_ptr (mk x (0 + B * Z.of_nat (Z.to_nat j))) w).
Qed.

Lemma extend_direct_here rest :
  zlen (ly_direct ly) < 4 →
  staged (extend_direct l (zlen (ly_direct ly)) rest)
    (Layout (ly_direct ly ++ [d]) (ly_ind ly) (ly_bind ly) (ly_tind ly)) fs.
Proof using Hly Hok Hn Hal Henv Hm0 Hid.
  intros Hj. unfold zlen in *. destruct Hly as [H1 H2 H3 H4].
  pose proof (geometry_bounds Ln HLn) as (B1 & B2 & B3 & B4 & B5 & B6 & B7).
  assert (∃ k, 4 = length (ly_direct ly) + S k)%nat as [k Hk]
    by (exists (3 - length (ly_direct ly))%nat; lia).
  assert (i_block n = conc_list (λ o id, mk id o) B 0 (ly_direct ly) ++
    Null :: replicate k Null) as Hb.
  { rewrite H1. unfold conc_direct, pad. rewrite length_conc_list.
    by replace (4 - _)%nat with (S k) by lia. }
  assert (length (conc_list (λ o id, mk id o) B 0 (ly_direct ly)) = length (ly_direct ly)) as Hl
    by apply length_conc_list.
  unfold staged, extend_direct. steps. step_with (get_inode_ok l n w Hn).
  rewrite Hb, <- Hl, array_at_mid. steps.
  step_with (is_null_null (A := block) w).
  step_with (allocate_memory_block_ok l w (env_mallocs _ _ Henv)). steps.
  step_with (put_inode_ok l (set_i_block (array_set
    (conc_list (λ o id, mk id o) B 0 (ly_direct ly) ++ Null :: replicate k Null)
    (Z.of_nat (length (conc_list (λ o id, mk id o) B 0 (ly_direct ly)))) (Ptr (set_b_offset_start
      (u64 (m_block_size (w_mnt w) * Z.of_nat (length (conc_list (λ o id, mk id o) B 0 (ly_direct ly)))))
      (raw_block l 0)))) n) w).
  eexists _, _, _. split; [done|]. split; [done|].
  split; [by exists w|]. split; [done|].
  rewrite array_set_mid. split.
  { eexists. cbn [slot_at i_block set_i_block]. by rewrite slot_mid by done. }
  unfold block_update. cbn [i_block set_i_block].
  rewrite slot_update_mid by done. rewrite Hl. cbn [ptr_map].
  rewrite (geo_block _ _ (env_geo _ _ Henv)), u64_small by lia.
  change (set_b_offset_start (B * Z.of_nat (length (ly_direct ly))) (raw_block l 0))
    with (raw_block l (B * Z.of_nat (length (ly_direct ly)))).
  rewrite (finalize_raw Ln) by (done || lia).
  split; simpl; try done. unfold conc_direct. rewrite conc_list_app. unfold pad.
  rewrite length_app, Hl. simpl. rewrite <- app_assoc. simpl.
  by replace (4 - _)%nat with k by lia.
Qed.

Lemma alloc_rel_get w1 : alloc_rel w w1 → w_inodes w1 !! l = Some n.
Proof using Hn. intros Hr. by rewrite (alloc_rel_inodes _ _ Hr). Qed.

Lemma extend_ind_skip i rest :
  ly_ind ly = Some i → length i.2 = Ln → extend_ind l rest w = rest w.
Proof using Hly Hn Henv Hm0 Hid.
  intros Hi Hf. unfold extend_ind. steps. step_with (get_inode_ok l n w Hn).
  pose proof (geometry_bounds Ln HLn) as (B1 & B2 & B3 & B4 & B5 & B6 & B7).
  pose proof (hl_ind _ _ _ _ Hly) as Hc. rewrite Hi in Hc. simpl in Hc. rewrite Hc.
  step_with (is_null_ptr (conc_ind Ln mk (ind_base Ln) i) w). steps.
  rewrite (geo_dir _ _ (env_geo _ _ Henv)).
  destruct (extend_indblock_ok Ln l d HLn Hid m0 Hm0 w (ind_base Ln) i Henv) as (r & Hr & He);
    [unfold ind_base; lia|unfold ind_base; lia|lia|].
  step_with Hr. unfold ind_extended, ext_ind in He. rewrite decide_False in He by lia.
  subst r. cbn [fst snd].
  replace (set_i_ind_block (Ptr (conc_ind Ln mk (ind_base Ln) i)) n) with n
    by (rewrite <- Hc; by destruct n).
  by step_with (put_inode_same l n w Hn).
Qed.

Lemma extend_ind_here c fs1 rest :
  (length c.2 < Ln)%nat →
  (ly_ind ly = Some c ∧ fs1 = fs) ∨ (ly_ind ly = None ∧ c.2 = [] ∧ fs = c.1 :: fs1) →
  staged (extend_ind l rest)
    (Layout (ly_direct ly) (Some (c.1, c.2 ++ [d])) (ly_bind ly) (ly_tind ly)) fs1.
Proof using Hly Hn Hal Henv Hm0 Hid Hids.
  intros Hf Hc.
  pose proof (geometry_bounds Ln HLn) as (B1 & B2 & B3 & B4 & B5 & B6 & B7).
  destruct Hly as [H1 H2 H3 H4]. unfold staged.
  assert (∃ w1, alloc_rel w w1 ∧ alloc_ok w1 fs1 ∧ ext_env w1 Ln ∧
    extend_ind l rest w = (r ← udbfslib_extend_indblock (conc_ind Ln mk (ind_base Ln) c) l
        (ind_base Ln);
      put_inode l (set_i_ind_block (Ptr r.1) n);;
      match r.2 with Some i => mret (Some (BInd i)) | None => rest end) w1)
    as (w1 & Hr1 & Hal1 & Henv1 & ->).
  { unfold extend_ind. steps. step_with (get_inode_ok l n w Hn). rewrite H2.
    rewrite (geo_dir _ _ (env_geo _ _ Henv)).
    destruct Hc as [[-> ->]|(-> & Hc & ->)]; simpl conc_opt.
    - exists w. split; [done|]. split; [done|]. split; [done|].
      step_with (is_null_ptr (conc_ind Ln mk (ind_base Ln) c) w). by steps.
    - step_with (is_null_null (A := indblock) w).
      apply Forall_cons in Hids as [Hid1 _].
      destruct (new_index_ok Ln HLn w c.1 fs1 Henv Hal Hid1) as (w1 & E1 & ? & ? & ? & Hu).
      exists w1. split; [done|]. split; [done|]. split; [done|].
      rewrite bind_assoc. step_with (allocate_memory_indblock_ok Ln w Henv).
      rewrite bind_assoc. steps. rewrite bind_assoc. step_with E1. steps.
      rewrite Hu. cbn [ib_block].
      replace (Indblock c.1 (c.1 * B) (replicate Ln Null)) with (conc_ind Ln mk (ind_base Ln) c);
        [done|].
      unfold conc_ind, pad. rewrite Hc. simpl. by rewrite Nat.sub_0_r. }
  destruct (extend_indblock_ok Ln l d HLn Hid m0 Hm0 w1 (ind_base Ln) c Henv1) as (r & Hr & He);
    [unfold ind_base; lia|unfold ind_base; lia|lia|].
  unfold ind_extended, ext_ind in He. rewrite decide_True in He by done.
  destruct He as (i & Hi & Hpt & He).
  step_with Hr. step_with (put_inode_ok l (set_i_ind_block (Ptr r.1) n) w1).
  rewrite Hi. eexists _, _, _. split; [done|]. split; [done|]. split.
  { exists w1. by rewrite (alloc_rel_inodes _ _ Hr1). }
  split; [done|]. split; [done|]. split; simpl; try done. by rewrite He.
Qed.

Lemma extend_bind_skip b rest :
  ly_bind ly = Some b → bind_ok Ln b → length (bind_data b) = (Ln * Ln)%nat →
  extend_bind l rest w = rest w.
Proof using Hly Hn Henv Hm0 Hid.
  intros Hb Hbok Hf. unfold extend_bind. steps. step_with (get_inode_ok l n w Hn).
  pose proof (geometry_bounds Ln HLn) as (B1 & B2 & B3 & B4 & B5 & B6 & B7).
  pose proof (hl_bind _ _ _ _ Hly) as Hc. rewrite Hb in Hc. simpl in Hc. rewrite Hc.
  step_with (is_null_ptr (conc_bind Ln mk (bind_base Ln) b) w). steps.
  rewrite (geo_dir _ _ (env_geo _ _ Henv)), (geo_ind _ _ (env_geo _ _ Henv)).
  rewrite u64_small by lia. change (4 * B + L * B) with (bind_base Ln).
  step_with (extend_bindblock_full Ln l d HLn Hid m0 Hm0 w (bind_base Ln) b Henv
    ltac:(unfold bind_base, ind_base; lia) ltac:(unfold bind_base, ind_base; lia) Hbok Hf).
  cbn [fst snd].
  replace (set_i_bind_block (Ptr (conc_bind Ln mk (bind_base Ln) b)) n) with n
    by (rewrite <- Hc; by destruct n).
  by step_with (put_inode_same l n w Hn).
Qed.

Lemma extend_bind_here b fs1 cs' fs' rest :
  Forall (λ c : lind, (length c.2 ≤ Ln)%nat) b.2 →
  (ly_bind ly = Some b ∧ fs1 = fs) ∨ (ly_bind ly = None ∧ b.2 = [] ∧ fs = b.1 :: fs1) →
  ext_bind Ln Ln b.2 d fs1 = Some (cs', fs') →
  staged (extend_bind l rest)
    (Layout (ly_direct ly) (ly_ind ly) (Some (b.1, cs')) (ly_tind ly)) fs'.
Proof using Hly Hn Hal Henv Hm0 Hid Hids.
  intros Hbok Hc Hext. unfold staged.
  pose proof (geometry_bounds Ln HLn) as (B1 & B2 & B3 & B4 & B5 & B6 & B7).
  destruct Hly as [H1 H2 H3 H4].
  assert (∃ w1, alloc_rel w w1 ∧ alloc_ok w1 fs1 ∧ Forall (id_ok Ln) fs1 ∧ ext_env w1 Ln ∧
    extend_bind l rest w = (r ← udbfslib_extend_bindblock (conc_bind Ln mk (bind_base Ln) b) l
        (bind_base Ln);
      put_inode l (set_i_bind_block (Ptr r.1) n);;
      match r.2 with Some (j, i) => mret (Some (BBind j i)) | None => rest end) w1)
    as (w1 & Hr1 & Hal1 & Hids1 & Henv1 & ->).
  { unfold extend_bind. steps. step_with (get_inode_ok l n w Hn). rewrite H3.
    rewrite (geo_dir _ _ (env_geo _ _ Henv)), (geo_ind _ _ (env_geo _ _ Henv)).
    rewrite u64_small by lia. change (4 * B + L * B) with (bind_base Ln).
    destruct Hc as [[-> ->]|(-> & Hc & ->)]; simpl conc_opt.
    - exists w. split; [done|]. split; [done|]. split; [done|]. split; [done|].
      step_with (is_null_ptr (conc_bind Ln mk (bind_base Ln) b) w). by steps.
    - step_with (is_null_null (A := bindblock) w).
      apply Forall_cons in Hids as [Hid1 Hids'].
      destruct (new_index_ok Ln HLn w b.1 fs1 Henv Hal Hid1) as (w1 & E1 & ? & ? & ? & Hu).
      exists w1. split; [done|]. split; [done|]. split; [done|]. split; [done|].
      rewrite bind_assoc. step_with (allocate_memory_bindblock_ok Ln w Henv).
      rewrite bind_assoc. steps. rewrite bind_assoc. step_with E1. steps.
      rewrite Hu. cbn [bb_indblock].
      replace (Bindblock b.1 (b.1 * B) (replicate Ln Null))
        with (conc_bind Ln mk (bind_base Ln) b); [done|].
      unfold conc_bind, pad. rewrite Hc. simpl. by rewrite Nat.sub_0_r. }
  destruct (extend_bindblock_ok Ln l d HLn Hid m0 Hm0 w1 (bind_base Ln) b fs1 cs' fs')
    as (w2 & r & j & i & Hr & Hr2 & Hal2 & Hpt & He); try done;
    [unfold bind_base, ind_base; lia|unfold bind_base, ind_base; lia|].
  assert (alloc_rel w w2) as Hrel by (by etrans).
  step_with Hr. step_with (put_inode_ok l (set_i_bind_block (Ptr r) n) w2).
  eexists _, _, _. split; [done|]. split; [done|]. split.
  { exists w2. by rewrite (alloc_rel_inodes _ _ Hrel). }
  split; [done|]. split; [done|]. split; simpl; try done. by rewrite He.
Qed.

Lemma extend_tind_here t fs1 cs' fs' :
  Forall (bind_ok Ln) t.2 →
  (ly_tind ly = Some t ∧ fs1 = fs) ∨ (ly_tind ly = None ∧ t.2 = [] ∧ fs = t.1 :: fs1) →
  ext_tind Ln Ln t.2 d fs1 = Some (cs', fs') →
  staged (extend_tind l)
    (Layout (ly_direct ly) (ly_ind ly) (ly_bind ly) (Some (t.1, cs'))) fs'.
Proof using Hly Hn Hal Henv Hm0 Hid Hids.
  intros Htok Hc Hext. unfold staged.
  pose proof (geometry_bounds Ln HLn) as (B1 & B2 & B3 & B4 & B5 & B6 & B7).
  destruct Hly as [H1 H2 H3 H4].
  assert (∃ w1, alloc_rel w w1 ∧ alloc_ok w1 fs1 ∧ Forall (id_ok Ln) fs1 ∧ ext_env w1 Ln ∧
    extend_tind l w = (r ← udbfslib_extend_tindblock (conc_tind Ln mk (tind_base Ln) t) l
        (tind_base Ln);
      put_inode l (set_i_tind_block (Ptr r.1) n);;
      match r.2 with Some (k, (j, i)) => mret (Some (BTind k j i)) | None => mret None end) w1)
    as (w1 & Hr1 & Hal1 & Hids1 & Henv1 & ->).
  { unfold extend_tind. steps. step_with (get_inode_ok l n w Hn). rewrite H4.
    rewrite (geo_dir _ _ (env_geo _ _ Henv)), (geo_ind _ _ (env_geo _ _ Henv)),
      (geo_bind _ _ (env_geo _ _ Henv)).
    rewrite (u64_small (4 * B + L * B)), u64_small by lia.
    change (4 * B + L * B + L * L * B) with (tind_base Ln).
    destruct Hc as [[-> ->]|(-> & Hc & ->)]; simpl conc_opt.
    - exists w. split; [done|]. split; [done|]. split; [done|]. split; [done|].
      step_with (is_null_ptr (conc_tind Ln mk (tind_base Ln) t) w). by steps.
    - step_with (is_null_null (A := tindblock) w).
      apply Forall_cons in Hids as [Hid1 Hids'].
      destruct (new_index_ok Ln HLn w t.1 fs1 Henv Hal Hid1) as (w1 & E1 & ? & ? & ? & Hu).
      exists w1. split; [done|]. split; [done|]. split; [done|]. split; [done|].
      rewrite bind_assoc. step_with (allocate_memory_tindblock_ok Ln w Henv).
      rewrite bind_assoc. steps. rewrite bind_assoc. step_with E1. steps.
      rewrite Hu. cbn [tb_bindblock].
      replace (Tindblock t.1 (t.1 * B) (replicate Ln Null))
        with (conc_tind Ln mk (tind_base Ln) t); [done|].
      unfold conc_tind, pad. rewrite Hc. simpl. by rewrite Nat.sub_0_r. }
  destruct (extend_tindblock_ok Ln l d HLn Hid m0 Hm0 w1 (tind_base Ln) t fs1 cs' fs')
    as (w2 & r & k & j & i & Hr & Hr2 & Hal2 & Hpt & He); try done;
    [unfold tind_base, bind_base, ind_base; lia|unfold tind_base, bind_base, ind_base; lia|].
  assert (alloc_rel w w2) as Hrel by (by etrans).
  step_with Hr. step_with (put_inode_ok l (set_i_tind_block (Ptr r) n) w2).
  eexists _, _, _. split; [done|]. split; [done|]. split.
  { exists w2. by rewrite (alloc_rel_inodes _ _ Hrel). }
  split; [done|]. split; [done|]. split; simpl; try done. by rewrite He.
Qed.

Abbreviation stages := (extend_direct l 0 (extend_direct l 1 (extend_direct l 2
  (extend_direct l 3 (extend_ind l (extend_bind l (extend_tind l))))))).

(** The direct blocks, then the rest. *)
Lemma stages_direct :
  zlen (ly_direct ly) < 4 → staged stages
    (Layout (ly_direct ly ++ [d]) (ly_ind ly) (ly_bind ly) (ly_tind ly)) fs.
Proof using Hly Hok Hn Hal Henv Hm0 Hid.
  intros Hl. pose proof extend_direct_here as Hh. pose proof extend_direct_skip as Hs.
  unfold zlen in *. unfold staged in *.
  assert (length (ly_direct ly) = 0 ∨ length (ly_direct ly) = 1 ∨ length (ly_direct ly) = 2
    ∨ length (ly_direct ly) = 3)%nat as [E|[E|[E|E]]] by lia; rewrite E in *;
    rewrite ?Hs by lia; apply Hh; lia.
Qed.

Lemma stages_skip :
  zlen (ly_direct ly) = 4 → stages w = extend_ind l (extend_bind l (extend_tind l)) w.
Proof using Hly Hok Hn. intros Hl. by rewrite !extend_direct_skip by lia. Qed.

Lemma stages_ok ly' fs' :
  ext_layout Ln ly d fs = Some (ly', fs') → staged stages ly' fs'.
Proof using Hly Hok Hn Hal Henv Hm0 Hid Hids.
  intros Hext. assert (0 < Ln)%nat as H0 by lia.
  destruct (layout_lengths Ln H0 ly Hok) as (Hl1 & Hl2 & Hl3 & Hl4 & _).
  pose proof (lok_ind _ _ Hok) as Hi. pose proof (lok_bind _ _ Hok) as Hb.
  pose proof (lok_tind _ _ Hok) as Ht.
  unfold ext_layout in Hext. repeat case_decide.
  - injection Hext as <- <-. apply stages_direct. unfold zlen. lia.
  - unfold staged. rewrite stages_skip by (unfold zlen; lia).
    destruct (ly_ind ly) as [[m ids]|] eqn:E.
    + injection Hext as <- <-. apply (extend_ind_here (m, ids)); [done|]. by left.
    + destruct (cons_case fs) as [Ef|(m & fs1 & Ef)]; rewrite Ef in Hext; [done|].
      injection Hext as <- <-. apply (extend_ind_here (m, [])); [simpl; lia|]. by right.
  - destruct (ly_ind ly) as [i|] eqn:E; [|simpl in *; lia]. simpl in *.
    unfold staged. rewrite stages_skip by (unfold zlen; lia).
    rewrite (extend_ind_skip i) by (done || lia).
    destruct (ly_bind ly) as [[m cs]|] eqn:Eb.
    + destruct (ext_bind Ln Ln cs d fs) as [[cs1 fs1]|] eqn:Ee; [|done].
      injection Hext as <- <-. rewrite <- E. apply (extend_bind_here (m, cs) fs); try done.
      * apply bind_ok_bounds; [done|]. by apply Hb.
      * by left.
    + unfold new_bind in Hext. destruct (cons_case fs) as [Ef|(m & fs0 & Ef)]; rewrite Ef in Hext; [done|].
      destruct (ext_bind Ln Ln [] d fs0) as [[cs1 fs1]|] eqn:Ee; [|done].
      injection Hext as <- <-. rewrite <- E. apply (extend_bind_here (m, []) fs0); try done.
      by right.
  - destruct (ly_ind ly) as [i|] eqn:E; [|simpl in *; lia]. simpl in *.
    destruct (ly_bind ly) as [b|] eqn:Eb; [|simpl in *; nia]. simpl in *.
    unfold staged. rewrite stages_skip by (unfold zlen; lia).
    rewrite (extend_ind_skip i), (extend_bind_skip b); try done; try lia; [|by apply Hb].
    destruct (ly_tind ly) as [[m cs]|] eqn:Et.
    + destruct (ext_tind Ln Ln cs d fs) as [[cs1 fs1]|] eqn:Ee; [|done].
      injection Hext as <- <-. rewrite <- E, <- Eb. apply (extend_tind_here (m, cs) fs); try done.
      * by apply (Ht _ eq_refl).
      * by left.
    + destruct (cons_case fs) as [Ef|(m & fs0 & Ef)]; rewrite Ef in Hext; [done|].
      destruct (ext_tind Ln Ln [] d fs0) as [[cs1 fs1]|] eqn:Ee; [|done].
      injection Hext as <- <-. rewrite <- E, <- Eb. apply (extend_tind_here (m, []) fs0); try done.
      by right.
Qed.
End inode.

Lemma finalize_block_ext m m' d :
  m_block_size m = m_block_size m' → finalize_block m d = finalize_block m' d.
Proof. intros H. unfold finalize_block. by rewrite H. Qed.

Lemma slot_slot_update {A} (f : A → A) a i (x : A) :
  slot a i = Ptr x → slot (slot_update f i a) i = Ptr (f x).
Proof.
  unfold slot, slot_update, array_at. destruct (Z.ltb_spec i 0); [done|].
  destruct (a !! Z.to_nat i) as [p|] eqn:E; simpl; [|done]. intros ->.
  rewrite list_lookup_alter_eq, E. done.
Qed.

Lemma slot_at_update f r n b :
  slot_at n r = Ptr b → slot_at (block_update f r n) r = Ptr (f b).
Proof.
  destruct r as [i|i|j i|k j i]; simpl.
  - apply slot_slot_update.
  - destruct (i_ind_block n) as [| |ib]; simpl; try done. apply slot_slot_update.
  - destruct (i_bind_block n) as [| |bb]; simpl; try done.
    destruct (slot (bb_indblock bb) j) as [| |ib] eqn:E; simpl; try done. intros Hs.
    rewrite (slot_slot_update _ _ _ _ E). simpl. by apply slot_slot_update.
  - destruct (i_tind_block n) as [| |tb]; simpl; try done.
    destruct (slot (tb_bindblock tb) k) as [| |bb] eqn:Eb; simpl; try done.
    destruct (slot (bb_indblock bb) j) as [| |ib] eqn:E; simpl; try done. intros Hs.
    rewrite (slot_slot_update _ _ _ _ Eb). simpl.
    rewrite (slot_slot_update _ _ _ _ E). simpl. by apply slot_slot_update.
Qed.

(** [udbfslib_extend_inode] refines [ext_layout]. *)
Lemma extend_inode_ok Ln l w n ly d fs ly' fs' :
  ext_env w Ln → alloc_ok w (d :: fs) → Forall (id_ok Ln) (d :: fs) →
  w_inodes w !! l = Some n → has_layout Ln (mkblock Ln l) n ly → layout_ok Ln ly →
  ext_layout Ln ly d fs = Some (ly', fs') →
  ∃ w' n' path, udbfslib_extend_inode l w = Ok (Some path) w' ∧ alloc_ok w' fs' ∧
    ext_rel l n' w w' ∧ same_file n n' ∧ has_layout Ln (mkblock Ln l) n' ly' ∧
    ∃ b, slot_at n' path = Ptr b ∧ b_id b = d.
Proof.
  intros Henv Hal [Hid Hids]%Forall_cons Hn Hly Hok Hext.
  destruct (allocate_block_id_ok w d fs Hal) as (w1 & E1 & Hr1 & Hal1).
  pose proof (alloc_rel_env _ _ _ Hr1 Henv) as Henv1.
  assert (w_inodes w1 !! l = Some n) as Hn1 by (by rewrite (alloc_rel_inodes _ _ Hr1)).
  destruct (stages_ok Ln l d (w_mnt w) w1 n ly fs Henv1 (env_geo _ _ Henv) Hid Hal1 Hids
    Hn1 Hly Hok ly' fs' Hext) as (w2 & n2 & path & E2 & Hal2 & (w3 & Hr3 & ->) & Hsame & [o Hpt] & Hly').
  unfold udbfslib_extend_inode. step_with E1.
  replace (d =? 0) with false by (destruct Hid; lia).
  step_with E2. steps. step_with (get_inode_ok l n2 (set_w_inodes (<[l:=n2]> (w_inodes w1)) w3)
    (lookup_insert_eq _ _ _)).
  assert (m_block_size (w_mnt w3) = m_block_size (w_mnt w)) as Hb.
  { destruct Hr1 as (? & ? & ->), Hr3 as (? & ? & ->). done. }
  change (w_mnt (set_w_inodes (<[l:=n2]> (w_inodes w1)) w3)) with (w_mnt w3).
  rewrite (finalize_block_ext _ (w_mnt w) d Hb).
  step_with (put_inode_ok l (block_update (finalize_block (w_mnt w) d) path n2)
    (set_w_inodes (<[l:=n2]> (w_inodes w1)) w3)).
  eexists _, (block_update (finalize_block (w_mnt w) d) path n2), path.
  split; [done|]. split; [done|]. split.
  { exists w3. split; [by etrans|]. simpl. rewrite insert_insert_eq.
    rewrite (alloc_rel_inodes _ _ Hr1). by destruct w3. }
  split; [destruct path; exact Hsame|]. split; [done|].
  rewrite (slot_at_update _ _ _ _ Hpt). by eexists.
Qed.

(** Out of blocks: nothing changes. *)
Lemma allocate_block_id_none w :
  alloc_ok w [] → udbfs_allocate_block_id w = Ok 0 w.
Proof.
  intros (bm & Hbm & Hok & Hsz & Hc & Hfs).
  assert (m_free_block_count (w_mnt w) = 0) as H0.
  { destruct (free_bits bm) as [|x xs] eqn:E; [by unfold zlen in Hc; simpl in Hc; lia|].
    destruct (Z.to_nat (m_free_block_count (w_mnt w))) eqn:Ec; [lia|done]. }
  unfold udbfs_allocate_block_id. steps. rewrite Hbm. steps.
  rewrite Hsz, H0, (allocate_bit_exhausted bm Hok). steps.
  destruct w as [? ? ? [] ? ? ? ? ? ? ?]. simpl in *. subst. done.
Qed.

Lemma extend_inode_none l w :
  alloc_ok w [] → udbfslib_extend_inode l w = Ok None w.
Proof.
  intros Hal. unfold udbfslib_extend_inode. by step_with (allocate_block_id_none w Hal).
Qed.
