(* ===== verification/Files.v ===== *)
(** * Reading and writing files

    An opened inode that satisfies [file_ok] is a byte sequence with a
    cursor: [udbfs_write_to_inode] overwrites it at the cursor, extending it
    as needed, and [udbfs_read_from_inode] reads it. *)
From S2P Require Import Prelude Posix Bitmap LinkList UdbfsTypes BlockLoad InodeBlocks InodeIO.
From S2P Require Import Layout Content Paths ExtendProofs.
Local Open Scope Z_scope.

Abbreviation dev_bytes w := (d_bytes (w_dev w)).

(** ** Reading *)

(** What reading relies on: block [j] of the file is found at its path. *)
Record file_view (Ln : nat) (w : world) (l : loc) (n : inode) (ids : list Z) : Prop := {
  fv_geo : geometry (w_mnt w) Ln;
  fv_dev : dev_ok (w_dev w);
  fv_inode : w_inodes w !! l = Some n;
  fv_blocks : ∀ j id, ids !! j = Some id → ∃ r,
    logical_path Ln (Z.of_nat j) = Some r ∧
    slot_at n r = Ptr (mkblock Ln l id (bsize Ln * Z.of_nat j));
  fv_ids : Forall (on_device Ln (dev_bytes w)) ids;
  fv_size : 0 ≤ i_cursor n ≤ i_size n ∧ i_size n ≤ bsize Ln * zlen ids
}.

Definition set_cursor_at (l : loc) (n : inode) (c pos : Z) (w : world) : world :=
  set_w_inodes (<[l := set_i_cursor c n]> (w_inodes w))
    (set_w_dev (Device (dev_bytes w) pos true) w).

Section file.
Context (Ln : nat) (l : loc).
Hypothesis HLn : 16 ≤ Z.of_nat Ln ≤ 2 ^ 15.
Abbreviation B := (bsize Ln).
Abbreviation mk := (mkblock Ln l).

Lemma on_device_bounds w id :
  dev_ok (w_dev w) → on_device Ln (dev_bytes w) id → 0 < id ∧ (id + 1) * B < 2 ^ 62.
Proof using HLn. intros [_ Hd] [H1 H2]. lia. Qed.

(** Where the cursor points: block [j], [r] bytes into it. *)
Lemma cursor_split c len :
  0 ≤ c → c < B * len →
  ∃ j r, c = B * Z.of_nat j + r ∧ 0 ≤ r < B ∧ c / B = Z.of_nat j ∧ Z.of_nat j < len.
Proof using HLn.
  intros Hc Hlt. assert (0 < B) by (unfold bsize; lia).
  pose proof (Z.div_mod c B ltac:(lia)). pose proof (Z.mod_pos_bound c B ltac:(lia)).
  assert (0 ≤ c / B) by (by apply Z.div_pos).
  assert (c / B < len) by (by apply Z.div_lt_upper_bound).
  exists (Z.to_nat (c / B)), (c mod B). rewrite Z2Nat.id by done. lia.
Qed.

Lemma path_offset_bound j path :
  logical_path Ln (Z.of_nat j) = Some path → B * Z.of_nat j + B < 2 ^ 64 - 2 ^ 62.
Proof using HLn.
  intros Hp. pose proof (logical_path_bound Ln _ _ Hp) as Hj. unfold max_blocks in Hj.
  destruct (geometry_bounds Ln HLn) as (B1 & B2 & B3 & B4 & B5 & B6 & B7).
  set (L := Z.of_nat Ln) in *.
  assert (Z.of_nat j ≤ 3 + L + L * L + L * L * L) as Hj' by lia.
  apply (Z.mul_le_mono_nonneg_l _ _ B) in Hj'; [|lia].
  replace (B * (3 + L + L * L + L * L * L)) with
    (3 * B + L * B + L * L * B + L * L * L * B) in Hj' by ring. lia.
Qed.

(** The block under the cursor and what the code computes from it. *)
Lemma select_view w n ids :
  file_view Ln w l n ids → i_cursor n < i_size n →
  ∃ j r id path, i_cursor n = B * Z.of_nat j + r ∧ 0 ≤ r < B ∧ ids !! j = Some id ∧
    udbfslib_select_active_inode_block (w_mnt w) n w = Ok (Some path) w ∧
    slot_at n path = Ptr (mk id (B * Z.of_nat j)) ∧
    0 < id ∧ (id + 1) * B ≤ zlen (dev_bytes w) ∧ B * Z.of_nat j + B < 2 ^ 64 - 2 ^ 62.
Proof using HLn.
  intros [Hg Hd Hn Hbl Hon [Hc Hs]] Hlt. pose proof (zlen_file_bytes Ln _ ids Hon) as Hz.
  destruct (cursor_split (i_cursor n) (zlen ids)) as (j & r & Hj & Hr & Hdiv & Hjl); [lia..|].
  destruct (lookup_lt_is_Some_2 ids j) as [id Hid]; [unfold zlen in Hjl; lia|].
  destruct (Hbl j id Hid) as (path & Hp & Hslot).
  assert (on_device Ln (dev_bytes w) id) as [Hid1 Hid2]
    by (by eapply (Forall_lookup_1 _ _ _ _ Hon)).
  pose proof (path_offset_bound j path Hp) as Hjb.
  destruct (geometry_bounds Ln HLn) as (B1 & B2 & _).
  exists j, r, id, path. split; [done|]. split; [done|]. split; [done|]. split.
  - rewrite (select_logical_path (w_mnt w) Ln Hg) by lia. rewrite Hdiv, Hp.
    unfold return_slot. by rewrite Hslot.
  - split; [done|]. split; [done|]. split; [done|]. lia.
Qed.

Lemma file_view_advance w n ids k pos :
  file_view Ln w l n ids → 0 ≤ k ≤ i_size n - i_cursor n →
  file_view Ln (set_cursor_at l n (i_cursor n + k) pos w) l
    (set_i_cursor (i_cursor n + k) n) ids.
Proof.
  intros [Hg Hd Hn Hbl Hon [Hc Hs]] Hk. destruct Hd.
  split; simpl; try done; [by rewrite lookup_insert_eq|lia].
Qed.

Lemma read_loop w n ids data size off fuel :
  file_view Ln w l n ids → 0 ≤ size ≤ i_size n - i_cursor n → 0 ≤ off →
  off + size < 2 ^ 31 → (Z.to_nat size < fuel)%nat →
  ∃ pos, read_from_inode_loop fuel l data size off w =
    Ok (off + size,
        data ++ dread (file_bytes Ln (dev_bytes w) ids) (i_cursor n) size)
       (set_cursor_at l n (i_cursor n + size) pos w).
Proof using HLn.
  revert w n data size off. induction fuel as [|fuel IH];
    intros w n data size off Hv Hsize Hoff Hoff' Hf; [lia|].
  cbn [read_from_inode_loop]. destruct (Z.ltb_spec 0 size) as [Hlt|Hge]; cbn [negb]; cbv iota.
  - destruct (select_view w n ids Hv ltac:(lia))
      as (j & r & id & path & Hc & Hr & Hid & Hsel & Hslot & Hid1 & Hid2 & Hjb).
    steps. step_with (get_inode_ok l n w (fv_inode _ _ _ _ _ Hv)).
    step_with Hsel. steps. rewrite Hslot. steps.
    destruct (geometry_bounds Ln HLn) as (B1 & B2 & _).
    pose proof (fv_dev _ _ _ _ _ Hv) as Hd. pose proof (proj2 Hd) as Hdz.
    cbn [mkblock b_offset_end b_device_offset b_offset_start]. rewrite Hc.
    replace (B * Z.of_nat j + B - (B * Z.of_nat j + r)) with (B - r) by lia.
    rewrite (u64_small (B - r)), (i32_small (B - r)), (u32_small (B - r)) by lia.
    rewrite (i32_small size) by lia.
    set (k := if size <? B - r then size else B - r).
    assert (k = Z.min size (B - r)) as Hk by (subst k; destruct (Z.ltb_spec size (B - r)); lia).
    rewrite (u64_small (id * B + (B * Z.of_nat j + r))) by lia.
    rewrite (u64_small (id * B + (B * Z.of_nat j + r) - B * Z.of_nat j)) by lia.
    replace (id * B + (B * Z.of_nat j + r) - B * Z.of_nat j) with (id * B + r) by lia.
    replace (k <? 0) with false by lia.
    step_with (read_at_ok (id * B + r) k w Hd ltac:(lia) ltac:(lia)
      ltac:(change (get_dev w) with (w_dev w); lia)).
    cbn [get_dev put_dev world_device]. rewrite (u64_small (B * Z.of_nat j + r + k)) by lia.
    step_with (put_inode_ok l (set_i_cursor (B * Z.of_nat j + r + k) n)
      (set_w_dev (Device (dev_bytes w) (id * B + r + k) true) w)).
    rewrite u32_small, (i32_small (off + k)) by lia.
    change (set_w_inodes _ _) with
      (set_cursor_at l n (B * Z.of_nat j + r + k) (id * B + r + k) w). rewrite <- Hc.
    destruct (IH (set_cursor_at l n (i_cursor n + k) (id * B + r + k) w)
      (set_i_cursor (i_cursor n + k) n) (data ++ dread (dev_bytes w) (id * B + r) k)
      (size - k) (off + k)) as (pos & Hp).
    { apply file_view_advance; [done|lia]. }
    1-4: simpl; lia.
    exists pos. rewrite Hp. f_equal.
    + f_equal; [lia|]. rewrite <- app_assoc. f_equal.
      replace size with (k + (size - k)) at 2 by lia.
      rewrite dread_app by lia. f_equal. rewrite Hc, (Z.mul_comm B).
      symmetry. apply file_bytes_dread; try done; try lia. by destruct Hv.
    + unfold set_cursor_at. simpl. rewrite insert_insert_eq.
      by replace (i_cursor n + k + (size - k)) with (i_cursor n + size) by lia.
  - assert (size = 0) as -> by lia. exists (d_pos (w_dev w)).
    rewrite !Z.add_0_r. unfold dread. simpl. rewrite app_nil_r.
    unfold mret, M_ret. f_equal.
    unfold set_cursor_at. destruct Hv as [_ [Ho _] Hn _ _ _].
    replace (set_i_cursor (i_cursor n) n) with n by (by destruct n).
    rewrite insert_id by done. destruct w as [[? ? ?] ? ? ? ? ? ? ? ? ? ?]. simpl in *. by subst.
Qed.
End file.

(** [udbfs_read_from_inode] returns the next bytes of the file, as many as
    asked for and left, and advances the cursor. *)
Lemma read_from_inode_ok Ln l w n ids size :
  file_view Ln w l n ids → 0 ≤ size < 2 ^ 32 →
  i_size n - i_cursor n < 2 ^ 31 →
  let k := Z.min size (i_size n - i_cursor n) in
  ∃ pos, udbfs_read_from_inode (Some l) size w =
    Ok (k, take (Z.to_nat k)
             (drop (Z.to_nat (i_cursor n)) (content Ln (dev_bytes w) ids (i_size n))))
       (set_cursor_at l n (i_cursor n + k) pos w).
Proof.
  intros Hv Hsize Hrem k. pose proof Hv as [Hg Hd Hn Hbl Hon [Hc Hs]].
  pose proof (geo_links _ _ Hg) as HLn.
  unfold udbfs_read_from_inode. step_with (get_inode_ok l n w Hn).
  assert (0 ≤ i_size n - i_cursor n) by lia.
  rewrite (u64_small (i_size n - i_cursor n)), i32_small, u32_small by lia.
  replace (if size <? i_size n - i_cursor n then size else i_size n - i_cursor n) with k
    by (unfold k; destruct (Z.ltb_spec size (i_size n - i_cursor n)); lia).
  destruct (read_loop Ln l HLn w n ids [] k 0 (S (Z.to_nat k)) Hv) as (pos & Hp);
    [lia..|]. exists pos. rewrite Hp. f_equal. f_equal. simpl.
  unfold content, dread. rewrite !take_drop_commute, take_take.
  by rewrite Nat.min_l by (unfold k; lia).
Qed.

(** ** Writing *)

(** Everything a write may change: the device, the block bitmap with its
    count, and the inode [l]. *)
Definition write_rel (l : loc) (w w' : world) : Prop :=
  ∃ dev bitmap count n', w' = set_w_inodes (<[l := n']> (w_inodes w))
    (set_w_dev dev (set_w_mnt (set_m_free_block_count count
      (set_m_block_bitmap bitmap (w_mnt w))) w)).

Lemma write_rel_refl l n w : w_inodes w !! l = Some n → write_rel l w w.
Proof.
  intros Hn. exists (w_dev w), (m_block_bitmap (w_mnt w)), (m_free_block_count (w_mnt w)), n.
  rewrite insert_id by done. by destruct w as [? ? ? [] ? ? ? ? ? ? ?].
Qed.

Lemma write_rel_trans l w1 w2 w3 : write_rel l w1 w2 → write_rel l w2 w3 → write_rel l w1 w3.
Proof.
  intros (? & ? & ? & ? & ->) (dev & b & c & n & ->). exists dev, b, c, n. simpl.
  by rewrite insert_insert_eq.
Qed.

Record file_ok (Ln : nat) (w : world) (l : loc) (n : inode) (ly : layout) (fs : list Z)
    : Prop := {
  fo_env : ext_env w Ln;
  fo_dev : dev_ok (w_dev w);
  fo_alloc : alloc_ok w fs;
  fo_inode : w_inodes w !! l = Some n;
  fo_layout : has_layout Ln (mkblock Ln l) n ly;
  fo_lok : layout_ok Ln ly;
  fo_nodup : NoDup (ly_data ly ++ ly_meta ly ++ fs);
  fo_ids : Forall (on_device Ln (dev_bytes w)) (ly_data ly ++ ly_meta ly ++ fs);
  fo_cursor : 0 ≤ i_cursor n ≤ i_size n;
  fo_blocks : i_size n ≤ bsize Ln * zlen (ly_data ly)
}.

Lemma layout_ok_max Ln ly :
  (0 < Ln)%nat → layout_ok Ln ly → (length (ly_data ly) ≤ max_blocks Ln)%nat.
Proof.
  intros H0 Hok. destruct (layout_lengths Ln H0 ly Hok) as (H1 & H2 & H3 & H4 & _).
  rewrite (length_ly_data Ln H0). unfold max_blocks. lia.
Qed.

Lemma file_ok_view Ln w l n ly fs :
  file_ok Ln w l n ly fs → file_view Ln w l n (ly_data ly).
Proof.
  intros [[Hg Hm] Hd Hal Hn Hly Hok Hnd Hids Hc Hb].
  assert (0 < Ln)%nat as H0 by (destruct Hg; lia).
  split; try done.
  - intros j id Hj. pose proof (lookup_lt_Some _ _ _ Hj) as Hlt.
    pose proof (layout_ok_max Ln ly H0 Hok).
    destruct (logical_path_slot Ln (mkblock Ln l) H0 n ly (Z.of_nat j) Hok Hly) as (r & Hr & Hs);
      [lia|]. exists r. split; [done|]. rewrite Hs, Nat2Z.id, Hj. done.
  - by apply Forall_app in Hids as [? _].
Qed.


(** Blocks only move from the free list to the file, whose data blocks are
    appended to. *)
Definition grows (ly ly' : layout) (fs fs' : list Z) : Prop :=
  ly_data ly `prefix_of` ly_data ly' ∧
  ly_data ly' ++ ly_meta ly' ++ fs' ≡ₚ ly_data ly ++ ly_meta ly ++ fs.

Lemma grows_refl ly fs : grows ly ly fs fs.
Proof. by split. Qed.

Lemma grows_trans ly1 ly2 ly3 fs1 fs2 fs3 :
  grows ly1 ly2 fs1 fs2 → grows ly2 ly3 fs2 fs3 → grows ly1 ly3 fs1 fs3.
Proof. intros [H1 H2] [H3 H4]. split; by etrans. Qed.

Lemma ext_result_grows Ln ly d fs ly' used fs' :
  ext_result Ln ly d fs ly' used fs' → grows ly ly' (d :: fs) fs'.
Proof.
  intros (_ & -> & _ & Hd & Hm & _). split; [by exists [d]|].
  rewrite Hd, Hm. rewrite <- !app_assoc. solve_Permutation.
Qed.

Lemma on_device_id_ok Ln dev ids :
  zlen dev < 2 ^ 62 → Forall (on_device Ln dev) ids → Forall (id_ok Ln) ids.
Proof. intros Hz HF. eapply Forall_impl; [done|]. intros id [H1 H2]. split; lia. Qed.

Lemma alloc_rel_write_rel l n w w1 :
  alloc_rel w w1 → write_rel l w (set_w_inodes (<[l := n]> (w_inodes w)) w1).
Proof. intros (b & c & ->). exists (w_dev w), b, c, n. by destruct w. Qed.

(** Adding a block to a file. *)
Lemma file_ok_extend Ln w l n ly d fs :
  file_ok Ln w l n ly (d :: fs) → (3 ≤ length fs)%nat →
  (length (ly_data ly) < max_blocks Ln)%nat →
  ∃ w1 n1 path ly1 fs1, udbfslib_extend_inode l w = Ok (Some path) w1 ∧
    file_ok Ln w1 l n1 ly1 fs1 ∧ write_rel l w w1 ∧ same_file n n1 ∧ w_dev w1 = w_dev w ∧
    grows ly ly1 (d :: fs) fs1 ∧ ly_data ly1 = ly_data ly ++ [d] ∧
    (length fs ≤ 3 + length fs1)%nat ∧
    slot_at n1 path = Ptr (mkblock Ln l d (bsize Ln * Z.of_nat (length (ly_data ly)))).
Proof.
  intros [Henv Hd Hal Hn Hly Hok Hnd Hids Hc Hb] Hfs Hmax.
  pose proof Henv as [Hg _]. assert (0 < Ln)%nat as H0 by (destruct Hg; lia).
  destruct (ext_layout_spec Ln H0 ly d fs Hok Hmax Hfs) as (ly1 & used & fs1 & Hres).
  pose proof (ext_result_grows _ _ _ _ _ _ _ Hres) as Hgr.
  pose proof Hres as (Hext & Hused & Hlen & Hdata & Hmeta & Hok1).
  destruct (extend_inode_ok Ln l w n ly d fs ly1 fs1 Henv Hal) as
    (w1 & n1 & path & E1 & Hal1 & (w2 & Hr & ->) & Hsame & Hly1 & b & Hslot & Hbid); try done.
  { apply (on_device_id_ok Ln (dev_bytes w)); [by destruct Hd|].
    by apply Forall_app in Hids as [_ [_ ?]%Forall_app]. }
  assert (NoDup (ly_data ly1 ++ ly_meta ly1 ++ fs1)) as Hnd1.
  { destruct Hgr as [_ ->]. done. }
  assert (w_dev w2 = w_dev w) as Hdev by (by destruct Hr as (? & ? & ->)).
  eexists _, n1, path, ly1, fs1. split; [exact E1|]. split.
  - destruct Hsame as (Hs1 & Hs2 & Hs3 & Hs4). split; try done.
    + by eapply alloc_rel_env in Hr as [? ?].
    + simpl. by rewrite Hdev.
    + apply lookup_insert_eq.
    + simpl. rewrite Hdev. by destruct Hgr as [_ ->].
    + by rewrite Hs2, Hs3.
    + rewrite Hs2, Hdata, zlen_app. unfold zlen at 2. simpl. unfold bsize in *. lia.
  - split; [by apply alloc_rel_write_rel|]. split; [done|]. split; [done|].
    split; [done|]. split; [done|]. split; [rewrite Hused, length_app; lia|].
    destruct (slot_at_data Ln (mkblock Ln l) H0 n1 ly1 path b Hok1 Hly1 Hslot)
      as (j & id & _ & Hj & ->). simpl in Hbid. subst id.
    rewrite Hslot. do 2 f_equal.
    assert (NoDup (ly_data ly1)) as Hnd2 by (by apply NoDup_app in Hnd1 as [? _]).
    assert (ly_data ly1 !! length (ly_data ly) = Some d) as Hj'.
    { rewrite Hdata. by apply list_lookup_middle. }
    rewrite (NoDup_lookup _ _ _ _ Hnd2 Hj Hj'). done.
Qed.

(** At the end of the last block there is no block yet. *)
Lemma select_past_end Ln w l n ly fs :
  file_ok Ln w l n ly fs → i_cursor n = bsize Ln * zlen (ly_data ly) →
  udbfslib_select_active_inode_block (w_mnt w) n w = Ok None w.
Proof.
  intros Hf Hcur. pose proof Hf as [[Hg _] Hd Hal Hn Hly Hok Hnd Hids Hc Hb].
  pose proof (geo_links _ _ Hg) as HLn. pose proof (layout_ok_max Ln ly ltac:(lia) Hok) as Hlm.
  destruct (geometry_bounds Ln HLn) as (B1 & B2 & B3 & B4 & B5 & B6 & B7).
  assert (0 < bsize Ln) as HB by (unfold bsize; lia).
  assert (i_cursor n < 2 ^ 64) as Hc64.
  { rewrite Hcur. unfold max_blocks, zlen in *. set (L := Z.of_nat Ln) in *.
    assert (bsize Ln * Z.of_nat (length (ly_data ly)) ≤ bsize Ln * (4 + L + L * L + L * L * L)) as Hx
      by (apply Z.mul_le_mono_nonneg_l; lia).
    replace (bsize Ln * (4 + L + L * L + L * L * L)) with
      (4 * bsize Ln + L * bsize Ln + L * L * bsize Ln + L * L * L * bsize Ln) in Hx by ring. lia. }
  rewrite (select_logical_path (w_mnt w) Ln Hg) by lia.
  rewrite Hcur, Z.mul_comm, Z.div_mul by lia. unfold zlen in *.
  destruct (logical_path Ln (Z.of_nat (length (ly_data ly)))) as [path|] eqn:Hp; [|done].
  destruct (logical_path_slot Ln (mkblock Ln l) ltac:(lia) n ly (Z.of_nat (length (ly_data ly))) Hok Hly)
    as (path' & Hp' & Hslot).
  { split; [lia|]. by apply logical_path_bound in Hp. }
  rewrite Hp in Hp'. injection Hp' as <-. unfold return_slot. rewrite Hslot.
  by rewrite (lookup_ge_None_2 (ly_data ly)) by lia.
Qed.

(** The head of the write loop: the block under the cursor, allocated when
    the cursor is past the last one. *)
Lemma write_locate {A} Ln w l n ly fs q size (K : option bref → M world A) :
  file_ok Ln w l n ly fs → 0 < size →
  i_cursor n + size ≤ bsize Ln * (zlen (ly_data ly) + Z.of_nat q) →
  (4 * q ≤ length fs)%nat → i_cursor n + size ≤ bsize Ln * Z.of_nat (max_blocks Ln) →
  ∃ w1 n1 ly1 fs1 q1 path j r id,
    (path ← udbfslib_select_active_inode_block (w_mnt w) n;
     path ← match path with Some path => mret (Some path) | None => udbfslib_extend_inode l end;
     K path) w = K (Some path) w1 ∧
    file_ok Ln w1 l n1 ly1 fs1 ∧ write_rel l w w1 ∧ same_file n n1 ∧ w_dev w1 = w_dev w ∧
    grows ly ly1 fs fs1 ∧
    i_cursor n + size ≤ bsize Ln * (zlen (ly_data ly1) + Z.of_nat q1) ∧
    (4 * q1 ≤ length fs1)%nat ∧
    i_cursor n = bsize Ln * Z.of_nat j + r ∧ 0 ≤ r < bsize Ln ∧
    ly_data ly1 !! j = Some id ∧
    slot_at n1 path = Ptr (mkblock Ln l id (bsize Ln * Z.of_nat j)) ∧
    bsize Ln * Z.of_nat j + bsize Ln < 2 ^ 64 - 2 ^ 62 ∧
    (i_cursor n < bsize Ln * zlen (ly_data ly) → ly1 = ly ∧ fs1 = fs).
Proof.
  intros Hf Hsize Hq Hq4 Hmax. pose proof Hf as [Henv Hd Hal Hn Hly Hok Hnd Hids Hc Hb].
  pose proof Henv as [Hg _]. pose proof (geo_links _ _ Hg) as HLn.
  assert (0 < Ln)%nat as H0 by lia. pose proof (layout_ok_max Ln ly H0 Hok) as Hlm.
  assert (0 < bsize Ln) as HB by (unfold bsize; lia).
  set (len := zlen (ly_data ly)) in *.
  destruct (decide (i_cursor n < bsize Ln * len)) as [Hin|Hout].
  - destruct (cursor_split Ln HLn (i_cursor n) len) as (j & r & Hj & Hr & Hdiv & Hjl); [lia..|].
    destruct (lookup_lt_is_Some_2 (ly_data ly) j) as [id Hid]; [unfold len, zlen in Hjl; lia|].
    destruct (logical_path_slot Ln (mkblock Ln l) H0 n ly (Z.of_nat j) Hok Hly)
      as (path & Hp & Hslot); [unfold len, zlen in Hjl; lia|].
    rewrite Nat2Z.id, Hid in Hslot. simpl in Hslot.
    pose proof (path_offset_bound Ln HLn j path Hp) as Hjb.
    exists w, n, ly, fs, q, path, j, r, id. split.
    { assert (udbfslib_select_active_inode_block (w_mnt w) n w = Ok (Some path) w) as Hsel.
      { rewrite (select_logical_path (w_mnt w) Ln Hg) by lia. rewrite Hdiv, Hp.
        unfold return_slot. by rewrite Hslot. }
      by step_with Hsel. }
    split; [done|]. split; [by eapply write_rel_refl|]. split; [by split_and!|].
    split; [done|]. split; [apply grows_refl|]. split_and!; done || lia.
  - assert (i_cursor n = bsize Ln * len) as Hcur by lia.
    assert (0 < q)%nat as Hq0 by nia.
    assert (length (ly_data ly) < max_blocks Ln)%nat as Hlt by (unfold len, zlen in *; nia).
    destruct fs as [|d fs]; [simpl in Hq4; lia|].
    destruct (file_ok_extend Ln w l n ly d fs Hf) as
      (w1 & n1 & path & ly1 & fs1 & E1 & Hf1 & Hw1 & Hs1 & Hd1 & Hgr & Hdata & Hl1 & Hslot);
      [simpl in Hq4; lia|done|].
    assert (ly_data ly1 !! length (ly_data ly) = Some d) as Hj'.
    { rewrite Hdata. by apply list_lookup_middle. }
    destruct (logical_path_slot Ln (mkblock Ln l) H0 n ly len Hok Hly) as (path0 & Hp0 & Hslot0);
      [unfold len, zlen; lia|].
    assert (bsize Ln * Z.of_nat (length (ly_data ly)) + bsize Ln < 2 ^ 64 - 2 ^ 62) as Hjb.
    { apply (path_offset_bound Ln HLn _ path0). exact Hp0. }
    exists w1, n1, ly1, fs1, (q - 1)%nat, path, (length (ly_data ly)), 0, d. split.
    { pose proof (select_past_end Ln w l n ly (d :: fs) Hf Hcur) as Hsel. step_with Hsel. by step_with E1. }
    split; [done|]. split; [done|]. split; [done|]. split; [done|]. split; [done|].
    split; [rewrite Hdata, zlen_app; unfold zlen at 2; simpl; unfold len in *; nia|].
    split; [simpl in Hq4; lia|]. split; [unfold len, zlen in Hcur; lia|].
    split; [done|]. split; [done|]. split; [done|]. split; [done|]. unfold len in *. lia.
Qed.

(** Only the blocks [ids] of the device may differ. *)
Definition dev_frame (Ln : nat) (ids : list Z) (dev dev' : list Z) : Prop :=
  length dev' = length dev ∧
  ∀ p, 0 ≤ p → p / bsize Ln ∉ ids → byte_at dev' p = byte_at dev p.

Lemma dev_frame_refl Ln ids dev : dev_frame Ln ids dev dev.
Proof. done. Qed.

Lemma dev_frame_trans Ln ids1 ids2 d1 d2 d3 :
  dev_frame Ln ids1 d1 d2 → dev_frame Ln ids2 d2 d3 → ids1 `prefix_of` ids2 →
  dev_frame Ln ids2 d1 d3.
Proof.
  intros [L1 F1] [L2 F2] [ds ->]. split; [congruence|]. intros p Hp Hn.
  rewrite F2, F1; [done|done| |done..]. intros Hin. apply Hn. apply elem_of_app. by left.
Qed.

Lemma dev_frame_dsplice Ln ids id r chunk dev :
  0 < bsize Ln → id ∈ ids → 0 ≤ id → 0 ≤ r → r + zlen chunk ≤ bsize Ln →
  dev_frame Ln ids dev (dsplice (id * bsize Ln + r) chunk dev).
Proof.
  intros HB Hin Hid Hr Hk. split; [apply length_dsplice|]. intros p Hp Hn.
  apply byte_at_dsplice_out; [nia|done|].
  destruct (decide (p < id * bsize Ln + r)); [by left|].
  destruct (decide (id * bsize Ln + r + zlen chunk ≤ p)); [by right|].
  exfalso. apply Hn. assert (p / bsize Ln = id) as ->; [|done].
  symmetry. apply Z.div_unique with (p - id * bsize Ln); lia.
Qed.

(** Bytes written by the loop's body. *)
Definition write_chunk (l : loc) (n : inode) (c pos : Z) (bytes : list Z) (w : world) : world :=
  set_w_inodes (<[l := set_i_size (Z.max (i_size n) c) (set_i_cursor c n)]> (w_inodes w))
    (set_w_dev (Device bytes pos true) w).

Lemma write_chunk_ok Ln w l n ly fs j r id chunk :
  file_ok Ln w l n ly fs → i_cursor n = bsize Ln * Z.of_nat j + r → 0 ≤ r →
  r + zlen chunk ≤ bsize Ln → ly_data ly !! j = Some id →
  let bytes := dsplice (id * bsize Ln + r) chunk (dev_bytes w) in
  let c := i_cursor n + zlen chunk in
  let w' := write_chunk l n c (id * bsize Ln + r + zlen chunk) bytes w in
  let n' := set_i_size (Z.max (i_size n) c) (set_i_cursor c n) in
  file_ok Ln w' l n' ly fs ∧ write_rel l w w' ∧
  dev_frame Ln (ly_data ly) (dev_bytes w) (dev_bytes w') ∧
  content Ln (dev_bytes w') (ly_data ly) (i_size n') =
    overwrite (i_cursor n) chunk (content Ln (dev_bytes w) (ly_data ly) (i_size n)).
Proof.
  intros [[Hg Hm] [Ho Hz] Hal Hn Hly Hok Hnd Hids Hc Hb] Hcur Hr Hk Hid bytes c w' n'.
  pose proof (geo_links _ _ Hg) as HLn. pose proof (zlen_nonneg chunk) as Hc0.
  assert (0 < bsize Ln) as HB by (unfold bsize; lia).
  pose proof (lookup_lt_Some _ _ _ Hid) as Hj.
  assert (Forall (on_device Ln (dev_bytes w)) (ly_data ly)) as Hdids
    by (by apply Forall_app in Hids as [? _]).
  assert (NoDup (ly_data ly)) as Hdnd by (by apply NoDup_app in Hnd as [? _]).
  assert (c ≤ bsize Ln * zlen (ly_data ly)) as Hcb.
  { unfold c, zlen in *. nia. }
  pose proof (Forall_lookup_1 _ _ _ _ Hdids Hid) as [Hid0 Hid1].
  split; [|split; [|split]].
  - split; try done.
    + split; [done|]. unfold w', bytes. simpl. by rewrite zlen_dsplice.
    + apply lookup_insert_eq.
    + by destruct Hly.
    + unfold w', bytes. simpl. eapply Forall_impl; [exact Hids|].
      intros x Hx. by apply on_device_dsplice.
    + unfold n'. simpl. lia.
    + unfold n'. simpl. lia.
  - exists (Device bytes (id * bsize Ln + r + zlen chunk) true), (m_block_bitmap (w_mnt w)),
      (m_free_block_count (w_mnt w)), n'. by destruct w as [? ? ? [] ? ? ? ? ? ? ?].
  - apply dev_frame_dsplice; try done; [by eapply list_elem_of_lookup_2|lia].
  - simpl. unfold content, bytes.
    rewrite (file_bytes_dsplice Ln _ j) by done.
    replace (Z.of_nat j * bsize Ln + r) with (i_cursor n) by lia.
    apply take_dsplice_overwrite; rewrite ?zlen_file_bytes by done; lia.
Qed.

(** ** The write loop *)

Lemma write_step Ln w l n ly fs q data size room off fuel :
  file_ok Ln w l n ly fs → 0 < size → 0 < room → 0 ≤ off → off + size ≤ zlen data → zlen data < 2 ^ 31 →
  i_cursor n + room ≤ bsize Ln * (zlen (ly_data ly) + Z.of_nat q) →
  (4 * q ≤ length fs)%nat → i_cursor n + room ≤ bsize Ln * Z.of_nat (max_blocks Ln) →
  ∃ k w' n' ly' fs' q', 0 < k ≤ size ∧
    write_to_inode_loop (S fuel) l data size off w =
      write_to_inode_loop fuel l data (size - k) (off + k) w' ∧
    file_ok Ln w' l n' ly' fs' ∧ write_rel l w w' ∧ grows ly ly' fs fs' ∧
    i_cursor n' = i_cursor n + k ∧ i_size n' = Z.max (i_size n) (i_cursor n + k) ∧
    i_physical_offset n' = i_physical_offset n ∧
    i_cursor n + room ≤ bsize Ln * (zlen (ly_data ly') + Z.of_nat q') ∧ (4 * q' ≤ length fs')%nat ∧
    dev_frame Ln (ly_data ly') (dev_bytes w) (dev_bytes w') ∧
    content Ln (dev_bytes w') (ly_data ly') (i_size n') =
      overwrite (i_cursor n) (dread data off k) (content Ln (dev_bytes w) (ly_data ly) (i_size n)) ∧
    (i_cursor n < bsize Ln * zlen (ly_data ly) → ly' = ly ∧ fs' = fs).
Proof.
  intros Hf Hsize Hroom Hoff Hlen Hlen' Hq Hq4 Hmax. cbn [write_to_inode_loop].
  replace (0 <? size) with true by lia. cbn [negb]. steps.
  step_with (get_inode_ok l n w (fo_inode _ _ _ _ _ _ Hf)).
  match goal with |- context [?sel ≫= λ path, _ ≫= ?K] =>
    destruct (write_locate Ln w l n ly fs q room K Hf Hroom Hq Hq4 Hmax) as
      (w1 & n1 & ly1 & fs1 & q1 & path & j & r & id & E & Hf1 & Hw1 & (Hs1 & Hs2 & Hs3 & Hs4)
       & Hd1 & Hgr & Hq1 & Hq41 & Hcur & Hr & Hid & Hslot & Hjb & Hstay) end.
  rewrite E. clear E. pose proof Hf1 as [[Hg Hm] Hd Hal Hn Hly Hok Hnd Hids Hc Hb].
  destruct (geometry_bounds Ln (geo_links _ _ Hg)) as (B1 & B2 & _).
  set (B := bsize Ln) in *.
  assert (on_device Ln (dev_bytes w1) id) as [Hid0 Hid1].
  { apply Forall_app in Hids as [Hids _]. by eapply (Forall_lookup_1 _ _ _ _ Hids). }
  fold B in Hid1. pose proof (proj2 Hd) as Hdz.
  steps. step_with (get_inode_ok l n1 w1 Hn). rewrite Hslot. steps.
  cbn [mkblock b_offset_end b_device_offset b_offset_start]. rewrite Hs3, Hcur. fold B.
  replace (B * Z.of_nat j + B - (B * Z.of_nat j + r)) with (B - r) by lia.
  rewrite (u64_small (B - r)), (i32_small (B - r)), (u32_small (B - r)), (i32_small size) by lia.
  set (k := if size <? B - r then size else B - r).
  assert (k = Z.min size (B - r)) as Hk by (subst k; destruct (Z.ltb_spec size (B - r)); lia).
  replace (B * Z.of_nat j + r - B * Z.of_nat j) with r by lia.
  rewrite (u64_small r), (u64_small (id * B + r)) by lia.
  assert (data_slice (S := world) data off k w1 = Ok (dread data off k) w1) as Hsl.
  { unfold data_slice. by replace ((0 <=? off) && (0 <=? k) && (off + k <=? zlen data))
      with true by lia. }
  step_with Hsl. assert (zlen (dread data off k) = k) as Hzk by (apply zlen_dread; lia).
  step_with (write_at_ok (id * B + r) (dread data off k) w1 Hd ltac:(lia)
    ltac:(change (get_dev w1) with (w_dev w1); lia)).
  cbn [negb get_dev put_dev world_device]. rewrite Hzk.
  rewrite (u64_small (B * Z.of_nat j + r + k)) by lia. rewrite <- Hcur.
  change (i_size (set_i_cursor (i_cursor n + k) n1)) with (i_size n1). rewrite Hs2.
  assert ((if i_size n <? i_cursor n + k
           then set_i_size (i_cursor n + k) (set_i_cursor (i_cursor n + k) n1)
           else set_i_cursor (i_cursor n + k) n1) =
          set_i_size (Z.max (i_size n1) (i_cursor n + k)) (set_i_cursor (i_cursor n + k) n1)) as ->.
  { rewrite Hs2. destruct (Z.ltb_spec (i_size n) (i_cursor n + k)); [by rewrite Z.max_r by lia|].
    rewrite Z.max_l by lia. rewrite <- Hs2. by destruct n1. }
  rewrite <- Hs3 in Hcur.
  destruct (write_chunk_ok Ln w1 l n1 ly1 fs1 j r id (dread data off k) Hf1 Hcur)
    as (Hf2 & Hw2 & Hfr & Hct); [lia|unfold B in *; lia|done|].
  rewrite Hzk, Hs3 in *. fold B in Hf2, Hw2, Hfr, Hct.
  rewrite u32_small, (i32_small (off + k)) by lia.
  eexists k, _, _, ly1, fs1, q1. split; [lia|]. split; [reflexivity|].
  split; [exact Hf2|]. split; [by eapply write_rel_trans|]. split; [done|].
  split; [done|]. split; [cbn [set_i_size i_size]; by rewrite Hs2|].
  split; [done|].
  split; [done|]. split; [done|]. split; [rewrite <- Hd1; exact Hfr|].
  split; [|done]. etrans; [exact Hct|]. rewrite Hs2, Hd1. f_equal.
  destruct Hgr as [[ds ->] _]. apply content_app.
  apply Forall_app in Hids as [Hids _]. rewrite zlen_file_bytes.
  - apply fo_blocks in Hf. done.
  - apply fo_ids in Hf. by apply Forall_app in Hf as [? _].
Qed.

(** With room for everything, every byte is written; [room] may be more than
    this write needs, and what is left of it is there for the next. *)
Lemma write_loop_room Ln l data fuel : ∀ w n ly fs q size room off,
  file_ok Ln w l n ly fs → 0 ≤ size ≤ room → 0 ≤ off → off + size ≤ zlen data → zlen data < 2 ^ 31 →
  (Z.to_nat size < fuel)%nat →
  i_cursor n + room ≤ bsize Ln * (zlen (ly_data ly) + Z.of_nat q) →
  (4 * q ≤ length fs)%nat → i_cursor n + room ≤ bsize Ln * Z.of_nat (max_blocks Ln) →
  ∃ w' n' ly' fs' q', write_to_inode_loop fuel l data size off w = Ok (off + size) w' ∧
    file_ok Ln w' l n' ly' fs' ∧ write_rel l w w' ∧ grows ly ly' fs fs' ∧
    i_cursor n' = i_cursor n + size ∧ i_size n' = Z.max (i_size n) (i_cursor n + size) ∧
    i_physical_offset n' = i_physical_offset n ∧
    i_cursor n + room ≤ bsize Ln * (zlen (ly_data ly') + Z.of_nat q') ∧ (4 * q' ≤ length fs')%nat ∧
    dev_frame Ln (ly_data ly') (dev_bytes w) (dev_bytes w') ∧
    content Ln (dev_bytes w') (ly_data ly') (i_size n') =
      overwrite (i_cursor n) (dread data off size)
        (content Ln (dev_bytes w) (ly_data ly) (i_size n)).
Proof.
  induction fuel as [|fuel IH]; intros w n ly fs q size room off Hf Hs Ho Hl Hl' Hfu Hq Hq4 Hm; [lia|].
  pose proof (fo_cursor _ _ _ _ _ _ Hf) as Hc.
  destruct (decide (size = 0)) as [->|Hne].
  - exists w, n, ly, fs, q. rewrite Z.add_0_r. split; [done|]. split; [done|].
    split; [eapply write_rel_refl, (fo_inode _ _ _ _ _ _ Hf)|]. split; [apply grows_refl|].
    split; [lia|]. split; [lia|]. split; [done|]. split; [done|]. split; [done|]. split; [done|]. by rewrite overwrite_nil.
  - destruct (write_step Ln w l n ly fs q data size room off fuel Hf) as
      (k & w1 & n1 & ly1 & fs1 & q1 & Hk & -> & Hf1 & Hw1 & Hg1 & Hc1 & Hs1 & Hp1 & Hq1 & Hq41 & Hd1 & Hct1 & Hst1);
      try done; [lia|lia|].
    destruct (IH w1 n1 ly1 fs1 q1 (size - k) (room - k) (off + k) Hf1) as
      (w2 & n2 & ly2 & fs2 & q2 & -> & Hf2 & Hw2 & Hg2 & Hc2 & Hs2 & Hp2 & Hq2 & Hq42 & Hd2 & Hct2);
      try lia.
    exists w2, n2, ly2, fs2, q2. split; [f_equal; lia|]. split; [done|].
    split; [by eapply write_rel_trans|]. split; [by eapply grows_trans|].
    split; [lia|]. split; [lia|]. split; [congruence|]. split; [lia|]. split; [done|].
    split; [eapply dev_frame_trans; [done..|]; by destruct Hg2|].
    rewrite Hct2, Hct1, Hc1. replace size with (k + (size - k)) at 2 by lia.
    assert (zlen (dread data off k) = k) as Hzk by (apply zlen_dread; lia).
    rewrite dread_app by lia. rewrite <- overwrite_app; [by rewrite Hzk|].
    rewrite zlen_content; [lia| |].
    + apply fo_ids in Hf. by apply Forall_app in Hf as [? _].
    + apply fo_blocks in Hf. lia.
Qed.

Lemma write_loop Ln l data fuel w n ly fs q size off :
  file_ok Ln w l n ly fs → 0 ≤ size → 0 ≤ off → off + size ≤ zlen data → zlen data < 2 ^ 31 →
  (Z.to_nat size < fuel)%nat →
  i_cursor n + size ≤ bsize Ln * (zlen (ly_data ly) + Z.of_nat q) →
  (4 * q ≤ length fs)%nat → i_cursor n + size ≤ bsize Ln * Z.of_nat (max_blocks Ln) →
  ∃ w' n' ly' fs', write_to_inode_loop fuel l data size off w = Ok (off + size) w' ∧
    file_ok Ln w' l n' ly' fs' ∧ write_rel l w w' ∧ grows ly ly' fs fs' ∧
    i_cursor n' = i_cursor n + size ∧ i_size n' = Z.max (i_size n) (i_cursor n + size) ∧
    dev_frame Ln (ly_data ly') (dev_bytes w) (dev_bytes w') ∧
    content Ln (dev_bytes w') (ly_data ly') (i_size n') =
      overwrite (i_cursor n) (dread data off size)
        (content Ln (dev_bytes w) (ly_data ly) (i_size n)).
Proof.
  intros Hf Hs Ho Hl Hl' Hfu Hq Hq4 Hm.
  destruct (write_loop_room Ln l data fuel w n ly fs q size size off Hf ltac:(lia) Ho Hl Hl' Hfu Hq Hq4 Hm)
    as (w' & n' & ly' & fs' & q' & ? & ? & ? & ? & ? & ? & _ & _ & _ & ?). by exists w', n', ly', fs'.
Qed.

(** Without a free block, what fits the allocated blocks is written. *)
Lemma write_loop_full Ln l data fuel : ∀ w n ly size off,
  file_ok Ln w l n ly [] → 0 ≤ size → 0 ≤ off → off + size ≤ zlen data → zlen data < 2 ^ 31 →
  (Z.to_nat size < fuel)%nat →
  let k := Z.min size (bsize Ln * zlen (ly_data ly) - i_cursor n) in
  ∃ w' n', write_to_inode_loop fuel l data size off w = Ok (off + k) w' ∧
    file_ok Ln w' l n' ly [] ∧ write_rel l w w' ∧
    i_cursor n' = i_cursor n + k ∧ i_size n' = Z.max (i_size n) (i_cursor n + k) ∧
    content Ln (dev_bytes w') (ly_data ly) (i_size n') =
      overwrite (i_cursor n) (dread data off k)
        (content Ln (dev_bytes w) (ly_data ly) (i_size n)).
Proof.
  induction fuel as [|fuel IH]; intros w n ly size off Hf Hs Ho Hl Hl' Hfu k; [lia|].
  pose proof (fo_cursor _ _ _ _ _ _ Hf) as Hc. pose proof (fo_blocks _ _ _ _ _ _ Hf) as Hb.
  pose proof (geo_links _ _ (env_geo _ _ (fo_env _ _ _ _ _ _ Hf))) as HLn.
  pose proof (layout_ok_max Ln ly ltac:(lia) (fo_lok _ _ _ _ _ _ Hf)) as Hmax.
  assert (0 < bsize Ln) as HB by (unfold bsize; lia).
  destruct (decide (k = 0)) as [Hk0|Hne].
  - exists w, n. rewrite Hk0, !Z.add_0_r. split.
    + destruct (decide (size = 0)) as [->|Hs0]; [done|].
      assert (i_cursor n = bsize Ln * zlen (ly_data ly)) as Hcur by lia.
      cbn [write_to_inode_loop]. replace (0 <? size) with true by lia. cbn [negb]. steps.
      step_with (get_inode_ok l n w (fo_inode _ _ _ _ _ _ Hf)).
      pose proof (select_past_end Ln w l n ly [] Hf Hcur) as Hsel. step_with Hsel.
      step_with (extend_inode_none l w (fo_alloc _ _ _ _ _ _ Hf)). done.
    + split; [done|]. split; [eapply write_rel_refl, (fo_inode _ _ _ _ _ _ Hf)|].
      split; [lia|]. split; [lia|]. by rewrite overwrite_nil.
  - destruct (write_step Ln w l n ly [] 0 data size k off fuel Hf) as
      (k1 & w1 & n1 & ly1 & fs1 & q1 & Hk & -> & Hf1 & Hw1 & Hg1 & Hc1 & Hs1 & _ & Hq1 & Hq41 & Hd1 & Hct1 & Hst1);
      try done; [lia|lia|lia|unfold zlen in *; nia|].
    destruct Hst1 as [-> ->]; [lia|].
    pose proof (fo_blocks _ _ _ _ _ _ Hf1) as Hb1.
    destruct (IH w1 n1 ly (size - k1) (off + k1) Hf1) as (w2 & n2 & -> & Hf2 & Hw2 & Hc2 & Hs2 & Hct2);
      try lia.
    replace (Z.min (size - k1) (bsize Ln * zlen (ly_data ly) - i_cursor n1)) with (k - k1) in * by lia.
    exists w2, n2. split; [f_equal; lia|]. split; [done|].
    split; [by eapply write_rel_trans|]. split; [lia|]. split; [lia|].
    rewrite Hct2, Hct1, Hc1. replace k with (k1 + (k - k1)) at 2 by lia.
    assert (zlen (dread data off k1) = k1) as Hzk by (apply zlen_dread; lia).
    rewrite dread_app by lia. rewrite <- overwrite_app; [by rewrite Hzk|].
    rewrite zlen_content; [lia| |lia].
    apply fo_ids in Hf. by apply Forall_app in Hf as [? _].
Qed.

(** ** Other files *)

Lemma write_rel_env Ln l w w' : write_rel l w w' → ext_env w Ln → ext_env w' Ln.
Proof. intros (dev & b & c & n & ->) [[] ?]. by split. Qed.

Lemma content_frame Ln dev dev' ids0 ids size :
  0 < bsize Ln → dev_frame Ln ids0 dev dev' → Forall (λ id, 0 ≤ id) ids →
  (∀ id, id ∈ ids → id ∉ ids0) → content Ln dev' ids size = content Ln dev ids size.
Proof.
  intros HB [Hl Hf] Hids Hdisj. unfold content. f_equal.
  induction Hids as [|id ids Hid _ IH]; [done|]. unfold file_bytes in *. rewrite !bind_cons. f_equal.
  - unfold block_bytes. apply dread_ext; [nia|done|]. intros p Hp. apply Hf; [nia|].
    replace (p / bsize Ln) with id; [apply Hdisj; left|].
    apply Z.div_unique with (p - id * bsize Ln); lia.
  - apply IH. intros x Hx. apply Hdisj. by right.
Qed.

(** Another file opened on the same mount is not affected. *)
Lemma file_ok_frame Ln w w' l l' n n' ly ly' ly2 fs fs' n2 :
  l ≠ l' → write_rel l w w' → file_ok Ln w' l n' ly' fs' → grows ly ly' fs fs' →
  dev_frame Ln (ly_data ly') (dev_bytes w) (dev_bytes w') →
  file_ok Ln w l n ly fs → file_ok Ln w l' n2 ly2 fs →
  NoDup (ly_data ly2 ++ ly_meta ly2 ++ ly_data ly ++ ly_meta ly ++ fs) →
  file_ok Ln w' l' n2 ly2 fs' ∧
  NoDup (ly_data ly2 ++ ly_meta ly2 ++ ly_data ly' ++ ly_meta ly' ++ fs') ∧
  content Ln (dev_bytes w') (ly_data ly2) (i_size n2) =
    content Ln (dev_bytes w) (ly_data ly2) (i_size n2).
Proof.
  intros Hne Hrel Hf' [_ Hperm] Hframe Hf Hf2 Hnd.
  assert (NoDup (ly_data ly2 ++ ly_meta ly2 ++ ly_data ly' ++ ly_meta ly' ++ fs')) as Hnd'
    by (by rewrite Hperm).
  pose proof Hf' as [Henv' Hd' Hal' Hn' _ _ _ Hids' _ _].
  pose proof Hf2 as [Henv Hd Hal Hn Hly Hok Hnd2 Hids Hc Hb].
  assert (0 < bsize Ln) as HB.
  { pose proof (geo_links _ _ (env_geo _ _ Henv)). unfold bsize. lia. }
  split; [|split; [done|]].
  - split; try done.
    + destruct Hrel as (? & ? & ? & ? & ->). simpl. by rewrite lookup_insert_ne.
    + rewrite app_assoc in Hnd' |- *. apply NoDup_app in Hnd' as (H1 & H2 & H3).
      apply NoDup_app. split; [done|]. split.
      * intros x Hx Hx'. apply (H2 x Hx). rewrite app_assoc. apply elem_of_app. by right.
      * rewrite app_assoc in H3. by apply NoDup_app in H3 as (_ & _ & ?).
    + destruct Hframe as [Hl _]. rewrite app_assoc in Hids |- *.
      apply Forall_app in Hids as [Hids _]. apply Forall_app. split.
      * eapply Forall_impl; [exact Hids|]. intros x. unfold on_device, zlen. by rewrite Hl.
      * by apply Forall_app in Hids' as [_ [_ ?]%Forall_app].
  - apply (content_frame Ln _ _ (ly_data ly')); [done|done| |].
    + apply Forall_app in Hids as [Hids _]. eapply Forall_impl; [exact Hids|].
      intros x [? _]. lia.
    + intros x Hx Hx'. apply NoDup_app in Hnd' as (_ & H2 & _). apply (H2 x Hx).
      rewrite !elem_of_app. tauto.
Qed.

(** ** A new file *)

Lemma allocate_inode_id_ok w bitmap :
  m_inode_bitmap (w_mnt w) = Some bitmap → bitmap_ok bitmap →
  m_inode_bitmap_size (w_mnt w) = zlen bitmap →
  0 < m_free_inode_count (w_mnt w) ≤ 8 * zlen bitmap →
  ∀ id rest, free_bits bitmap = id :: rest →
  ∃ bitmap', udbfslib_allocate_inode_id w = Ok id (set_w_mnt
      (set_m_free_inode_count (m_free_inode_count (w_mnt w) - 1)
        (set_m_inode_bitmap (Some bitmap') (w_mnt w))) w) ∧
    bitmap_ok bitmap' ∧ free_bits bitmap' = rest ∧ length bitmap' = length bitmap.
Proof.
  intros Hbm Hok Hsz Hc id rest Hfree.
  destruct (allocate_bit_ok bitmap _ Hok id rest Hc Hfree) as (bm' & Hal & Hok' & Hl' & Hr & _).
  exists bm'. split; [|by split_and!].
  unfold udbfslib_allocate_inode_id. steps. rewrite Hbm. steps. rewrite Hsz, Hal. by steps.
Qed.

Lemma alloc_ok_NoDup w fs : alloc_ok w fs → NoDup fs.
Proof.
  intros (bm & _ & _ & _ & _ & ->). pose proof (NoDup_free_bits bm) as Hnd.
  rewrite <- (take_drop (Z.to_nat (m_free_block_count (w_mnt w)))) in Hnd.
  by apply NoDup_app in Hnd as [? _].
Qed.

(** The mount [udbfs_create_inode] needs: inode numbers [ids] are free, the
    opened inodes are the list [opened]. *)
Record mount_ok (Ln : nat) (w : world) (fs ids : list Z) (opened : list loc) : Prop := {
  mo_env : ext_env w Ln;
  mo_dev : dev_ok (w_dev w);
  mo_alloc : alloc_ok w fs;
  mo_fs : Forall (on_device Ln (dev_bytes w)) fs;
  mo_inodes : ∃ bitmap, m_inode_bitmap (w_mnt w) = Some bitmap ∧ bitmap_ok bitmap ∧
    m_inode_bitmap_size (w_mnt w) = zlen bitmap ∧
    0 ≤ m_free_inode_count (w_mnt w) ≤ zlen (free_bits bitmap) ∧
    ids = take (Z.to_nat (m_free_inode_count (w_mnt w))) (free_bits bitmap);
  mo_opened : dll (w_ilinks w) (m_opened_inodes (w_mnt w)) opened;
  mo_fresh : Forall (λ x, (x < w_next_loc w)%positive) opened
}.

(** Registering a new inode structure. *)
Lemma allocate_memory_inode_ok Ln w fs ids opened :
  mount_ok Ln w fs ids opened →
  let l := w_next_loc w in
  ∃ links, udbfslib_allocate_memory_inode w = Ok (Some l)
    (set_w_ilinks links (set_w_mnt (set_m_opened_inodes (Some l) (w_mnt w))
      (set_w_inodes (<[l := Inode 0 0 0 (w_junk w) [Null; Null; Null; Null] Null Null Null]>
        (w_inodes w)) (set_w_next_loc (Pos.succ l) w)))) ∧
    dll links (Some l) (l :: opened).
Proof.
  intros [[Hg Hm] Hd Hal Hfs Hi [Ho Hond] Hfr] l.
  assert (l ∉ opened) as Hni.
  { intros Hin. pose proof (proj1 (Forall_forall _ _) Hfr l Hin). simpl in *. lia. }
  destruct (link_dll (<[l := fresh_node]> (w_ilinks w)) (m_opened_inodes (w_mnt w)) opened l)
    as (links & Hlink & Hdll & _).
  - split; [|done]. eapply dseg_frame; [|exact Ho]. intros x Hx.
    apply lookup_insert_ne. intros <-. done.
  - apply lookup_insert_eq.
  - done.
  - exists links. split; [|done]. unfold udbfslib_allocate_memory_inode.
    step_with (malloc_ok w Hm). steps.
    unfold link_opened_inode. rewrite bind_assoc. steps.
    rewrite bind_assoc. cbn [w_mnt w_ilinks set_w_ilinks set_w_inodes set_w_next_loc id].
    fold l. rewrite Hlink. steps. done.
Qed.

Lemma create_inode_ok Ln w fs id ids opened :
  mount_ok Ln w fs (id :: ids) opened → 0 < id →
  m_inode_table_offset (w_mnt w) + 64 * id < 2 ^ 63 → 0 ≤ m_inode_table_offset (w_mnt w) →
  let l := w_next_loc w in
  ∃ w' n', udbfs_create_inode w = Ok (Some l) w' ∧
    file_ok Ln w' l n' empty_layout fs ∧ i_id n' = id ∧ i_size n' = 0 ∧ i_cursor n' = 0 ∧
    i_physical_offset n' = m_inode_table_offset (w_mnt w) + 64 * id ∧
    mount_ok Ln w' fs ids (l :: opened) ∧ w_dev w' = w_dev w ∧
    m_inode_count (w_mnt w') = m_inode_count (w_mnt w).
Proof.
  intros Hmo Hid Hoff Hoff0 l.
  destruct (allocate_memory_inode_ok Ln w fs (id :: ids) opened Hmo) as (links & E1 & Hdll).
  pose proof Hmo as [[Hg Hm] Hd Hal Hfs (bm & Hbm & Hbok & Hbsz & Hbc & Hids) Ho Hfr].
  destruct (free_bits bm) as [|i rest] eqn:Hfree; [by rewrite take_nil in Hids|].
  assert (0 < m_free_inode_count (w_mnt w)) as Hc0.
  { destruct (decide (m_free_inode_count (w_mnt w) = 0)) as [E|]; [|lia]. by rewrite E in Hids. }
  replace (Z.to_nat (m_free_inode_count (w_mnt w)))
    with (S (Z.to_nat (m_free_inode_count (w_mnt w) - 1))) in Hids by lia.
  simpl in Hids. injection Hids as -> Hids.
  pose proof (length_free_bits bm) as Hlb. rewrite Hfree in Hlb.
  unfold udbfs_create_inode. step_with E1.
  match goal with |- context [(udbfslib_allocate_inode_id ≫= _) ?w1] =>
    destruct (allocate_inode_id_ok w1 bm Hbm Hbok Hbsz ltac:(simpl; lia) i rest Hfree)
      as (bm' & E2 & Hbok' & Hfree' & Hlen'); step_with E2 end.
  cbn [w_mnt w_inodes set_w_ilinks set_w_mnt set_w_inodes set_w_next_loc].
  match goal with |- context [(get_inode ?l ≫= _) ?w2] =>
    step_with (get_inode_ok l _ w2 (lookup_insert_eq _ _ _)) end.
  match goal with |- context [(put_inode ?l ?n ≫= _) ?w2] => step_with (put_inode_ok l n w2) end.
  replace (i =? 0) with false by lia. steps.
  match goal with |- context [(get_inode ?l ≫= _) ?w2] =>
    step_with (get_inode_ok l _ w2 (lookup_insert_eq _ _ _)) end.
  match goal with |- context [(put_inode ?l ?n ≫= _) ?w2] => step_with (put_inode_ok l n w2) end.
  eexists _, _. split; [reflexivity|].
  assert (alloc_ok w fs) as Hal' by done.
  split; [split|].
  - split; [by destruct Hg|done].
  - done.
  - exact Hal.
  - apply lookup_insert_eq.
  - by split.
  - split; try done. simpl. lia.
  - simpl. by eapply alloc_ok_NoDup.
  - done.
  - done.
  - simpl. unfold zlen. simpl. lia.
  - split; [done|]. split; [done|]. split; [done|].
    split; [simpl; unfold sizeof_inode; by rewrite (u64_small (64 * i)), u64_small by lia|].
    split; [|done]. split; try done.
    + split; [by destruct Hg|done].
    + exists bm'. split; [done|]. split; [done|].
      split; [simpl; unfold zlen in *; by rewrite Hlen'|].
      rewrite Hfree'. simpl. unfold zlen in *. simpl in Hbc. split; [lia|done].
    + simpl. constructor; [lia|]. eapply Forall_impl; [exact Hfr|]. intros x Hx. simpl in *. lia.
Qed.

(** Moving the cursor inside the file. *)
Lemma file_ok_cursor Ln w l n ly fs c pos :
  file_ok Ln w l n ly fs → 0 ≤ c ≤ i_size n →
  file_ok Ln (set_cursor_at l n c pos w) l (set_i_cursor c n) ly fs.
Proof.
  intros [[Hg Hm] [Ho Hd] Hal Hn [] Hok Hnd Hids Hc Hb] Hcc.
  split; try done; [apply lookup_insert_eq].
Qed.

Lemma file_ok_rewind Ln w l n ly fs c :
  file_ok Ln w l n ly fs → 0 ≤ c ≤ i_size n →
  file_ok Ln (set_w_inodes (<[l := set_i_cursor c n]> (w_inodes w)) w) l
    (set_i_cursor c n) ly fs.
Proof.
  intros Hf Hc. pose proof (file_ok_cursor Ln w l n ly fs c (d_pos (w_dev w)) Hf Hc) as Hf'.
  unfold set_cursor_at in Hf'. pose proof (proj1 (fo_dev _ _ _ _ _ _ Hf)) as Ho.
  destruct w as [[b p o] ? ? ? ? ? ? ? ? ? ?]. simpl in *. by subst o.
Qed.
