(* ===== verification/Persist.v ===== *)
(** * Index blocks on the device

    What closing an inode writes and opening it reads: the words of the
    index blocks.  [disk_layout] relates the bytes of the device to a
    layout; unloading the trees of a layout establishes it, loading from it
    rebuilds the trees. *)
From S2P Require Import Prelude Posix Bitmap LinkList UdbfsTypes BlockLoad.
From S2P Require Import InodeBlocks InodeIO Layout Content Paths ExtendProofs Files.
Local Open Scope Z_scope.

(** The words of an index block: the numbers, then zeros. *)
Definition pad0 (n : nat) (ids : list Z) : list Z := ids ++ replicate (n - length ids) 0.

Lemma pad0_cons n id ids : pad0 (S n) (id :: ids) = id :: pad0 n ids.
Proof. done. Qed.

Lemma pad0_nil n : pad0 (S n) [] = 0 :: pad0 n [].
Proof. unfold pad0. simpl. by rewrite Nat.sub_0_r. Qed.

Lemma length_pad0 n ids : (length ids ≤ n)%nat → length (pad0 n ids) = n.
Proof. intros H. unfold pad0. rewrite length_app, length_replicate. lia. Qed.

Lemma dsplice_overwrite off bs l :
  off + zlen bs ≤ zlen l → 0 ≤ off → dsplice off bs l = overwrite off bs l.
Proof. unfold dsplice, overwrite, zlen. intros H H0. by rewrite (take_ge bs) by lia. Qed.

Lemma dsplice_app off a b l :
  0 ≤ off → off + zlen a + zlen b ≤ zlen l →
  dsplice (off + zlen a) b (dsplice off a l) = dsplice off (a ++ b) l.
Proof.
  intros H0 Hl. pose proof (zlen_nonneg a). pose proof (zlen_nonneg b).
  rewrite (dsplice_overwrite off a), (dsplice_overwrite off (a ++ b)) by (rewrite ?zlen_app; lia).
  rewrite dsplice_overwrite by (rewrite ?zlen_overwrite by lia; lia).
  apply overwrite_app. lia.
Qed.

(** The world with another device content. *)
Definition set_bytes (bytes : list Z) (pos : Z) (w : world) : world :=
  set_w_dev (Device bytes pos true) w.

Lemma set_bytes_set b p b' p' w : set_bytes b' p' (set_bytes b p w) = set_bytes b' p' w.
Proof. done. Qed.

Lemma dev_ok_set_bytes b p w :
  length b = length (dev_bytes w) → dev_ok (w_dev w) → dev_ok (w_dev (set_bytes b p w)).
Proof. intros Hl [_ Hz]. split; [done|]. unfold zlen in *. simpl. by rewrite Hl. Qed.

(** Bytes outside of the blocks [ids] and the range are unchanged. *)
Definition frame_but (Ln : nat) (ids : list Z) (o n : Z) (dev dev' : list Z) : Prop :=
  length dev' = length dev ∧
  ∀ p, 0 ≤ p → p / bsize Ln ∉ ids → ¬ (o ≤ p < o + n) → byte_at dev' p = byte_at dev p.

(** ** Unloading *)

Section persist.
Context (Ln : nat) (l : loc).
Hypothesis HLn : 16 ≤ Z.of_nat Ln ≤ 2 ^ 15.
Abbreviation B := (bsize Ln).
Abbreviation L := (Z.of_nat Ln).
Abbreviation mk := (mkblock Ln l).

Definition disk_ind (dev : list Z) (i : lind) : Prop :=
  block_bytes Ln dev i.1 = le_words (pad0 Ln i.2).

Definition disk_bind (dev : list Z) (b : lbind) : Prop :=
  block_bytes Ln dev b.1 = le_words (pad0 Ln (map fst b.2)) ∧ Forall (disk_ind dev) b.2.

Definition disk_tind (dev : list Z) (t : ltind) : Prop :=
  block_bytes Ln dev t.1 = le_words (pad0 Ln (map fst t.2)) ∧ Forall (disk_bind dev) t.2.

(** Agreement on a set of blocks. *)
Definition same_blocks (ids : list Z) (dev dev' : list Z) : Prop :=
  length dev' = length dev ∧ ∀ p, 0 ≤ p → p / B ∈ ids → byte_at dev' p = byte_at dev p.

Lemma block_div id p : 0 ≤ id → id * B ≤ p < id * B + B → p / B = id.
Proof. intros H1 H2. symmetry. apply Z.div_unique with (p - id * B); lia. Qed.

Lemma same_blocks_bytes ids dev dev' id :
  same_blocks ids dev dev' → 0 ≤ id → id ∈ ids → block_bytes Ln dev' id = block_bytes Ln dev id.
Proof using HLn.
  intros [Hl Hs] Hid Hin. unfold block_bytes.
  apply dread_ext; [unfold bsize; nia|done|]. intros p Hp. apply Hs; [unfold bsize in *; nia|].
  by rewrite (block_div id).
Qed.

Lemma same_blocks_sub ids ids' dev dev' :
  ids ⊆ ids' → same_blocks ids' dev dev' → same_blocks ids dev dev'.
Proof. intros Hsub [Hl Hs]. split; [done|]. intros p Hp Hin. apply Hs; [done|]. by apply Hsub. Qed.

Lemma disk_ind_stable dev dev' (i : lind) :
  0 ≤ i.1 → same_blocks (ind_meta i) dev dev' → disk_ind dev i → disk_ind dev' i.
Proof using HLn.
  intros Hi Hs Hd. unfold disk_ind. rewrite <- Hd.
  apply (same_blocks_bytes _ _ _ _ Hs Hi). by left.
Qed.

Lemma Forall_stable {A} (metas : A → list Z) (num : A → Z) (disk : list Z → A → Prop) xs dev dev' :
  (∀ x dev dev', Forall (λ id, 0 ≤ id) (metas x) → same_blocks (metas x) dev dev' →
     disk dev x → disk dev' x) →
  Forall (λ id, 0 ≤ id) (xs ≫= metas) → same_blocks (xs ≫= metas) dev dev' →
  Forall (disk dev) xs → Forall (disk dev') xs.
Proof.
  intros Hst Hids Hs HF. induction HF as [|x xs Hx _ IH]; [constructor|].
  rewrite bind_cons in *. apply Forall_app in Hids as [H1 H2]. constructor.
  - apply (Hst x dev dev'); [done| |done]. eapply same_blocks_sub; [|exact Hs].
    intros y Hy. apply elem_of_app. by left.
  - apply IH; [done|]. eapply same_blocks_sub; [|exact Hs].
    intros y Hy. apply elem_of_app. by right.
Qed.

Lemma disk_bind_stable dev dev' (b : lbind) :
  Forall (λ id, 0 ≤ id) (bind_meta b) → same_blocks (bind_meta b) dev dev' →
  disk_bind dev b → disk_bind dev' b.
Proof using HLn.
  intros [Hb Hids]%Forall_cons Hs [H1 H2]. split.
  - rewrite <- H1. apply (same_blocks_bytes _ _ _ _ Hs Hb). by left.
  - apply (Forall_stable ind_meta fst disk_ind b.2 dev dev'); [|done| |done].
    + intros x d d' [Hx _]%Forall_cons. by apply disk_ind_stable.
    + eapply same_blocks_sub; [|exact Hs]. intros y Hy. by right.
Qed.

Lemma disk_tind_stable dev dev' (t : ltind) :
  Forall (λ id, 0 ≤ id) (tind_meta t) → same_blocks (tind_meta t) dev dev' →
  disk_tind dev t → disk_tind dev' t.
Proof using HLn.
  intros [Hb Hids]%Forall_cons Hs [H1 H2]. split.
  - rewrite <- H1. apply (same_blocks_bytes _ _ _ _ Hs Hb). by left.
  - apply (Forall_stable bind_meta fst disk_bind t.2 dev dev'); [|done| |done].
    + intros x d d' Hx. by apply disk_bind_stable.
    + eapply same_blocks_sub; [|exact Hs]. intros y Hy. by right.
Qed.

Lemma write_pos_ok w bs :
  dev_ok (w_dev w) → 0 ≤ d_pos (w_dev w) → d_pos (w_dev w) + zlen bs ≤ zlen (dev_bytes w) →
  write bs w = Ok (zlen bs)
    (set_bytes (dsplice (d_pos (w_dev w)) bs (dev_bytes w)) (d_pos (w_dev w) + zlen bs) w).
Proof. intros H1 H2 H3. exact (write_ok bs w H1 H2 H3). Qed.

Lemma unload_ind_entries_ok n : ∀ ids off w,
  dev_ok (w_dev w) → 0 ≤ d_pos (w_dev w) →
  d_pos (w_dev w) + 8 * Z.of_nat n ≤ zlen (dev_bytes w) → (length ids ≤ n)%nat →
  unload_ind_entries (pad n (conc_list (λ o id, mk id o) B off ids)) w =
    Ok tt (set_bytes (dsplice (d_pos (w_dev w)) (le_words (pad0 n ids)) (dev_bytes w))
             (d_pos (w_dev w) + 8 * Z.of_nat n) w).
Proof.
  induction n as [|n IH]; intros ids off w Hd Hp Hl Hids.
  - destruct ids; [|simpl in Hids; lia]. simpl. rewrite dsplice_nil, Z.add_0_r.
    destruct Hd as [Ho _]. destruct w as [[b p o] ? ? ? ? ? ? ? ? ? ?]. simpl in *. by subst o.
  - assert (∀ x, zlen (le_bytes 8 x) = 8) as H8
      by (intros x; unfold zlen; by rewrite length_le_bytes).
    assert (∀ x e es ids', unload_ind_entries (e :: es) w =
        (write (le_bytes 8 x);; unload_ind_entries es) w →
      es = pad n (conc_list (λ o id, mk id o) B (off + B) ids') → (length ids' ≤ n)%nat →
      pad0 (S n) ids = x :: pad0 n ids' →
      unload_ind_entries (e :: es) w =
        Ok tt (set_bytes (dsplice (d_pos (w_dev w)) (le_words (pad0 (S n) ids)) (dev_bytes w))
          (d_pos (w_dev w) + 8 * Z.of_nat (S n)) w)) as Hstep.
    { intros x e es ids' -> -> Hl' ->.
      step_with (write_pos_ok w (le_bytes 8 x) Hd Hp ltac:(rewrite H8; lia)). rewrite H8.
      rewrite IH; try done.
      - rewrite set_bytes_set. cbn [set_bytes set_w_dev w_dev d_pos d_bytes].
        f_equal. replace (d_pos (w_dev w) + 8 + 8 * Z.of_nat n)
          with (d_pos (w_dev w) + 8 * Z.of_nat (S n)) by lia. f_equal.
        rewrite <- (H8 x) at 1. rewrite dsplice_app; [done|done|].
        rewrite H8. unfold zlen in *. rewrite length_le_words, length_pad0 by done. lia.
      - apply dev_ok_set_bytes; [apply length_dsplice|done].
      - simpl. lia.
      - simpl. rewrite zlen_dsplice. lia. }
    destruct ids as [|id ids].
    + change (conc_list (λ o id, mk id o) B off []) with (@nil (ptr block)).
      rewrite pad_nil_S. apply (Hstep 0 _ _ []); [done|done|simpl; lia|apply pad0_nil].
    + simpl conc_list. rewrite pad_cons.
      apply (Hstep id _ _ ids); [done|done|simpl in Hids; lia|done].
Qed.

Lemma seek_ok off w :
  dev_ok (w_dev w) → 0 ≤ off ≤ 2 ^ 62 → lseek off w = Ok off (set_bytes (dev_bytes w) off w).
Proof. intros H1 H2. exact (lseek_ok off w H1 H2). Qed.

Lemma array_prefix_all {A} (a : list A) n w :
  Z.of_nat (length a) = n → array_prefix a n w = Ok a w.
Proof.
  intros <-. unfold array_prefix. rewrite Z.ltb_irrefl, Nat2Z.id. by rewrite take_ge.
Qed.

(** An indirect block is written as its words. *)
Lemma unload_ind_block_ok w off (c : lind) :
  geometry (w_mnt w) Ln → dev_ok (w_dev w) → on_device Ln (dev_bytes w) c.1 →
  (length c.2 ≤ Ln)%nat →
  udbfslib_unload_ind_block (Ptr (conc_ind Ln mk off c)) w =
    Ok tt (set_bytes (dsplice (c.1 * B) (le_words (pad0 Ln c.2)) (dev_bytes w)) (c.1 * B + B) w).
Proof using HLn.
  intros Hg Hd [Hc1 Hc2] Hl. unfold udbfslib_unload_ind_block.
  step_with (block_links_ok w Ln Hg). step_with (is_null_ptr (conc_ind Ln mk off c) w). steps.
  pose proof (proj2 Hd) as Hz. assert (0 ≤ c.1 * B) by (unfold bsize; nia).
  cbn [conc_ind ib_device_offset ib_block].
  step_with (seek_ok (c.1 * B) w Hd ltac:(unfold bsize in *; lia)).
  set (es := pad Ln (conc_list (λ o id, mk id o) B off c.2)).
  assert (length es = Ln) as Hes by (apply length_pad; by rewrite length_conc_list).
  step_with (array_prefix_all es L (set_bytes (dev_bytes w) (c.1 * B) w) ltac:(lia)).
  unfold es. rewrite unload_ind_entries_ok; try done.
  simpl. unfold bsize in *. lia.
Qed.

(** What unloading a structure does to the device. *)
Definition unloaded {A} (metas : A → list Z) (disk : list Z → A → Prop) (x : A)
    (w : world) (r : result world unit) : Prop :=
  ∃ dev' pos, r = Ok tt (set_bytes dev' pos w) ∧
    frame_but Ln (metas x) 0 0 (dev_bytes w) dev' ∧ disk dev' x.

Lemma set_bytes_geometry b p w : geometry (w_mnt w) Ln → geometry (w_mnt (set_bytes b p w)) Ln.
Proof. done. Qed.

Lemma block_bytes_le_words dev id ws :
  on_device Ln dev id → length ws = Ln →
  block_bytes Ln (dsplice (id * B) (le_words ws) dev) id = le_words ws.
Proof using HLn.
  intros [H1 H2] Hl. unfold block_bytes.
  assert (zlen (le_words ws) = B) as Hz by (unfold zlen, bsize; rewrite length_le_words, Hl; lia).
  pose proof (dread_dsplice_same (id * B) (le_words ws) dev) as E. rewrite Hz in E.
  apply E; unfold bsize in *; nia.
Qed.

Lemma frame_dsplice_block dev id ws :
  0 ≤ id → length ws = Ln →
  frame_but Ln [id] 0 0 dev (dsplice (id * B) (le_words ws) dev).
Proof using HLn.
  intros Hid Hl. split; [apply length_dsplice|]. intros p Hp Hn _.
  assert (zlen (le_words ws) = B) as Hz by (unfold zlen, bsize; rewrite length_le_words, Hl; lia).
  apply byte_at_dsplice_out; [unfold bsize; nia|done|]. rewrite Hz.
  destruct (decide (p < id * B)); [by left|].
  destruct (decide (id * B + B ≤ p)); [by right|].
  exfalso. apply Hn. rewrite (block_div id) by lia. by left.
Qed.

Lemma unload_ind_ok w off (c : lind) :
  geometry (w_mnt w) Ln → dev_ok (w_dev w) → Forall (on_device Ln (dev_bytes w)) (ind_meta c) →
  (length c.2 ≤ Ln)%nat →
  unloaded ind_meta disk_ind c w (udbfslib_unload_ind_block (Ptr (conc_ind Ln mk off c)) w).
Proof using HLn.
  intros Hg Hd [Hon _]%Forall_cons Hl. pose proof Hon as [Hc1 Hc2].
  rewrite unload_ind_block_ok by done. eexists _, _. split; [done|]. split.
  - apply frame_dsplice_block; [lia|by apply length_pad0].
  - apply block_bytes_le_words; [done|by apply length_pad0].
Qed.

(** The loops over the entries of the two upper levels have one shape. *)
Section entries.
Context {A C : Type} (num : A → Z) (metas : A → list Z) (disk : list Z → A → Prop)
  (conc : Z → A → C) (st : Z) (cnum : C → Z) (unload : ptr C → M world unit)
  (good : A → Prop).
Context (loop : list (ptr C) → Z → M world unit).
Hypothesis loop_nil : ∀ o, loop [] o = mret tt.
Hypothesis loop_cons : ∀ e es o, loop (e :: es) o =
  (null ← is_null e;
   block_id ← (if (null : bool) then mret 0 else x ← load e; unload e;; mret (cnum x));
   write_at o (le_bytes 8 block_id);;
   loop es (u64 (o + 8))).
Hypothesis conc_num : ∀ off x, cnum (conc off x) = num x.
Hypothesis unload_ok : ∀ w off x, geometry (w_mnt w) Ln → dev_ok (w_dev w) →
  Forall (on_device Ln (dev_bytes w)) (metas x) → NoDup (metas x) → good x →
  unloaded metas disk x w (unload (Ptr (conc off x)) w).
Hypothesis disk_stable : ∀ x dev dev', Forall (λ id, 0 ≤ id) (metas x) →
  same_blocks (metas x) dev dev' → disk dev x → disk dev' x.

Lemma write_word_ok w o x :
  dev_ok (w_dev w) → 0 ≤ o → o + 8 ≤ zlen (dev_bytes w) →
  write_at o (le_bytes 8 x) w =
    Ok true (set_bytes (dsplice o (le_bytes 8 x) (dev_bytes w)) (o + 8) w).
Proof.
  intros Hd Ho Hl.
  assert (zlen (le_bytes 8 x) = 8) as H8 by (unfold zlen; by rewrite length_le_bytes).
  pose proof (write_at_ok o (le_bytes 8 x) w Hd Ho ltac:(rewrite H8; exact Hl)) as E.
  rewrite H8 in E. exact E.
Qed.

Lemma on_device_length dev dev' id :
  length dev' = length dev → on_device Ln dev id → on_device Ln dev' id.
Proof. intros Hl. unfold on_device, zlen. by rewrite Hl. Qed.

(** The bytes of the first word of a range. *)
Lemma word_in_block bid o p :
  0 ≤ bid → bid * B ≤ o → o + 8 ≤ bid * B + B → o ≤ p < o + 8 → p / B = bid.
Proof. intros. apply block_div; lia. Qed.

Lemma unload_entries_ok n : ∀ xs off o w bid,
  geometry (w_mnt w) Ln → dev_ok (w_dev w) → on_device Ln (dev_bytes w) bid →
  Forall (on_device Ln (dev_bytes w)) (xs ≫= metas) → NoDup (bid :: (xs ≫= metas)) →
  Forall good xs → (length xs ≤ n)%nat →
  bid * B ≤ o → o + 8 * Z.of_nat n = bid * B + B →
  ∃ dev' pos, loop (pad n (conc_list conc st off xs)) o w = Ok tt (set_bytes dev' pos w) ∧
    frame_but Ln (xs ≫= metas) o (8 * Z.of_nat n) (dev_bytes w) dev' ∧
    dread dev' o (8 * Z.of_nat n) = le_words (pad0 n (map num xs)) ∧ Forall (disk dev') xs.
Proof using HLn loop_nil loop_cons conc_num unload_ok disk_stable.
  assert (0 < B) as HB by (unfold bsize; lia).
  induction n as [|n IH]; intros xs off o w bid Hg Hd Hb Hm Hnd Hgood Hl Ho Ho'.
  { destruct xs; [|simpl in Hl; lia]. exists (dev_bytes w), (d_pos (w_dev w)).
    change (pad 0 (conc_list conc st off [])) with (@nil (ptr C)). rewrite loop_nil.
    split; [|split; [done|split; [by vm_compute|constructor]]].
    unfold mret, M_ret. f_equal. destruct Hd as [Hop _].
    destruct w as [[b p op] ? ? ? ? ? ? ? ? ? ?]. simpl in *. by subst op. }
  pose proof Hb as [Hb1 Hb2]. pose proof (proj2 Hd) as Hz.
  assert (0 ≤ o ∧ o + 8 ≤ zlen (dev_bytes w)) as [Ho0 Ho8] by (unfold bsize in *; nia).
  (* the head word [x], written over [dev1], then the rest [ys] *)
  assert (∀ x e es ys dev1 pos1,
    length dev1 = length (dev_bytes w) →
    loop (e :: es) o w = loop es (u64 (o + 8))
      (set_bytes (dsplice o (le_bytes 8 x) dev1) pos1 w) →
    es = pad n (conc_list conc st (off + st) ys) →
    Forall (on_device Ln (dev_bytes w)) (ys ≫= metas) → NoDup (bid :: (ys ≫= metas)) →
    Forall good ys → (length ys ≤ n)%nat → pad0 (S n) (map num xs) = x :: pad0 n (map num ys) →
    ∃ dev' pos, loop (e :: es) o w = Ok tt (set_bytes dev' pos w) ∧
      frame_but Ln (ys ≫= metas) o (8 * Z.of_nat (S n)) dev1 dev' ∧
      dread dev' o (8 * Z.of_nat (S n)) = le_words (pad0 (S n) (map num xs)) ∧
      Forall (disk dev') ys) as Hstep.
  { intros x e es ys dev1 pos1 Hl1 -> -> Hm' Hnd' Hgood' Hl' ->.
    assert (zlen (le_bytes 8 x) = 8) as H8 by (unfold zlen; by rewrite length_le_bytes).
    assert (length (dsplice o (le_bytes 8 x) dev1) = length (dev_bytes w)) as Hl2
      by (by rewrite length_dsplice).
    rewrite u64_small by lia.
    destruct (IH ys (off + st) (o + 8) (set_bytes (dsplice o (le_bytes 8 x) dev1) pos1 w) bid)
      as (dev' & pos & E & [Hfl Hf] & Hw & Hdk); try done; try lia.
    - by apply dev_ok_set_bytes.
    - by eapply on_device_length.
    - eapply Forall_impl; [exact Hm'|]. intros y Hy. by eapply on_device_length.
    - exists dev', pos. rewrite E. split; [done|].
      cbn [set_bytes set_w_dev w_dev d_bytes] in Hfl, Hf.
      split; [|split; [|done]].
      + split; [congruence|]. intros p Hp Hn Hr. rewrite Hf by (done || lia).
        apply byte_at_dsplice_out; [done|done|rewrite H8; lia].
      + replace (8 * Z.of_nat (S n)) with (8 + 8 * Z.of_nat n) by lia.
        rewrite dread_app, Hw by lia.
        change (le_words (x :: pad0 n (map num ys))) with
          (le_bytes 8 x ++ le_words (pad0 n (map num ys))). f_equal.
        pose proof (dread_dsplice_same o (le_bytes 8 x) dev1 Ho0) as Hsame. rewrite H8 in Hsame.
        etrans; [|apply Hsame; unfold zlen in *; lia]. apply dread_ext; [done|congruence|]. intros p Hp.
        apply Hf; [lia| |lia]. rewrite (word_in_block bid o p) by lia.
        by apply NoDup_cons in Hnd' as [? _]. }
  destruct xs as [|x xs].
  - change (conc_list conc st off []) with (@nil (ptr C)). rewrite pad_nil_S.
    destruct (Hstep 0 Null (pad n []) [] (dev_bytes w) (o + 8)) as (dev' & pos & E & Hf & Hw & _);
      try done; try constructor; try (simpl; lia); try apply pad0_nil.
    { rewrite loop_cons. step_with (is_null_null (A := C) w). steps.
      by step_with (write_word_ok w o 0 Hd Ho0 Ho8). }
    exists dev', pos. split; [done|]. split; [done|]. split; [done|constructor].
  - simpl conc_list. rewrite pad_cons. rewrite bind_cons in *.
    apply Forall_app in Hm as [Hm1 Hm2]. apply NoDup_cons in Hnd as [Hbn Hnd].
    apply NoDup_app in Hnd as (Hnd1 & Hdj & Hnd2). apply Forall_cons in Hgood as [Hg1 Hg2].
    destruct (unload_ok w off x Hg Hd Hm1 Hnd1 Hg1) as (dev1 & pos1 & E1 & [Hfl1 Hf1] & Hdk1).
    destruct (Hstep (num x) (Ptr (conc off x)) (pad n (conc_list conc st (off + st) xs)) xs dev1
      (o + 8)) as (dev' & pos & E & [Hfl Hf] & Hw & Hdk); try done.
    { rewrite loop_cons. step_with (is_null_ptr (conc off x) w).
      rewrite bind_assoc. steps. rewrite bind_assoc. step_with E1. steps. rewrite conc_num.
      assert (dev_ok (w_dev (set_bytes dev1 pos1 w))) as Hd1 by (by apply dev_ok_set_bytes).
      by step_with (write_word_ok (set_bytes dev1 pos1 w) o (num x) Hd1 Ho0
        ltac:(simpl; unfold zlen in *; rewrite Hfl1; done)). }
    { apply NoDup_cons. split; [|done]. intros Hin. apply Hbn. apply elem_of_app. by right. }
    { simpl in Hl. lia. }
    exists dev', pos. split; [done|]. split; [|split; [done|]].
    + split; [congruence|]. intros p Hp Hn Hr. rewrite not_elem_of_app in Hn. destruct Hn.
      rewrite Hf, Hf1; try done. lia.
    + constructor; [|done]. apply (disk_stable x dev1 dev'); [|split; [done|]|done].
      * eapply Forall_impl; [exact Hm1|]. intros y [? _]. lia.
      * intros p Hp Hin. apply Hf; [done| |].
        { intros Hin'. by apply (Hdj (p / B)). }
        { intros Hr. apply Hbn. apply elem_of_app. left.
          by rewrite <- (block_div bid p) by lia. }
Qed.
End entries.

Lemma Forall_on_device_nonneg dev ids : Forall (on_device Ln dev) ids → Forall (λ id, 0 ≤ id) ids.
Proof. intros HF. eapply Forall_impl; [exact HF|]. intros x [? _]. lia. Qed.

(** A block of which every word was written. *)
Lemma dread_block dev id : dread dev (id * B) (8 * L) = block_bytes Ln dev id.
Proof. done. Qed.

Lemma unload_bind_ok w off (b : lbind) :
  geometry (w_mnt w) Ln → dev_ok (w_dev w) → Forall (on_device Ln (dev_bytes w)) (bind_meta b) →
  NoDup (bind_meta b) → bind_ok Ln b →
  unloaded bind_meta disk_bind b w (udbfslib_unload_bind_block (Ptr (conc_bind Ln mk off b)) w).
Proof using HLn.
  intros Hg Hd [Hon Hm]%Forall_cons Hnd Hok. pose proof Hon as [Hb1 Hb2].
  pose proof (proj2 Hd) as Hz. destruct Hok as [Hl Hp].
  unfold udbfslib_unload_bind_block.
  step_with (block_links_ok w Ln Hg). step_with (is_null_ptr (conc_bind Ln mk off b) w). steps.
  cbn [conc_bind bb_indblock bb_device_offset].
  set (es := pad Ln (conc_list (conc_ind Ln mk) (L * B) off b.2)).
  assert (length es = Ln) as Hes by (apply length_pad; rewrite length_conc_list; lia).
  step_with (array_prefix_all es L w ltac:(lia)).
  destruct (unload_entries_ok fst ind_meta disk_ind (conc_ind Ln mk) (L * B) ib_id
    udbfslib_unload_ind_block (λ c : lind, (length c.2 ≤ Ln)%nat) unload_bind_entries
    (λ _, eq_refl) (λ _ _ _, eq_refl) (λ _ _, eq_refl)
    (λ w off x Hg Hd Hon _ Hx, unload_ind_ok w off x Hg Hd Hon Hx)
    (λ x d d' H, disk_ind_stable d d' x (Forall_inv H)) Ln b.2 off (b.1 * B) w b.1)
    as (dev' & pos & E & [Hfl Hf] & Hw & Hdk); try done; try lia.
  - apply packed_Forall_length; [lia|done].
  - exists dev', pos. split; [exact E|]. split; [|by split].
    split; [done|]. intros p Hp' Hn _. apply not_elem_of_cons in Hn as [Hn1 Hn2].
    apply Hf; [done|done|]. intros Hr. apply Hn1. apply block_div; unfold bsize in *; lia.
Qed.

Lemma unload_tind_ok w off (t : ltind) :
  geometry (w_mnt w) Ln → dev_ok (w_dev w) → Forall (on_device Ln (dev_bytes w)) (tind_meta t) →
  NoDup (tind_meta t) → tind_ok Ln t →
  unloaded tind_meta disk_tind t w (udbfslib_unload_tind_block (Ptr (conc_tind Ln mk off t)) w).
Proof using HLn.
  intros Hg Hd [Hon Hm]%Forall_cons Hnd Hok. pose proof Hon as [Hb1 Hb2].
  pose proof (proj2 Hd) as Hz. destruct Hok as (Hl & Hbo & Hp).
  unfold udbfslib_unload_tind_block.
  step_with (block_links_ok w Ln Hg). step_with (is_null_ptr (conc_tind Ln mk off t) w). steps.
  cbn [conc_tind tb_bindblock tb_device_offset].
  set (es := pad Ln (conc_list (conc_bind Ln mk) (L * L * B) off t.2)).
  assert (length es = Ln) as Hes by (apply length_pad; rewrite length_conc_list; lia).
  step_with (array_prefix_all es L w ltac:(lia)).
  destruct (unload_entries_ok fst bind_meta disk_bind (conc_bind Ln mk) (L * L * B) bb_id
    udbfslib_unload_bind_block (bind_ok Ln) unload_tind_entries
    (λ _, eq_refl) (λ _ _ _, eq_refl) (λ _ _, eq_refl) unload_bind_ok
    (λ x d d', disk_bind_stable d d' x) Ln t.2 off (t.1 * B) w t.1)
    as (dev' & pos & E & [Hfl Hf] & Hw & Hdk); try done; try lia.
  - exists dev', pos. split; [exact E|]. split; [|by split].
    split; [done|]. intros p Hp' Hn _. apply not_elem_of_cons in Hn as [Hn1 Hn2].
    apply Hf; [done|done|]. intros Hr. apply Hn1. apply block_div; unfold bsize in *; lia.
Qed.

(** ** The layout on the device *)

Definition opt_num {A} (num : A → Z) (o : option A) : Z := from_option num 0 o.

(** The words of the physical inode of a file. *)
Definition layout_inode (size : Z) (ly : layout) : udbfs_inode :=
  UdbfsInode size (pad0 4 (ly_direct ly)) (opt_num fst (ly_ind ly)) (opt_num fst (ly_bind ly))
    (opt_num fst (ly_tind ly)).

Record disk_layout (dev : list Z) (off size : Z) (ly : layout) : Prop := {
  dl_inode : dread dev off sizeof_inode = encode_inode (layout_inode size ly);
  dl_ind : ∀ i, ly_ind ly = Some i → disk_ind dev i;
  dl_bind : ∀ b, ly_bind ly = Some b → disk_bind dev b;
  dl_tind : ∀ t, ly_tind ly = Some t → disk_tind dev t
}.

(** ** udbfs_close_inode *)

(** Only inode [l] differs, and possibly the device. *)
Definition with_inode (n : inode) (w : world) : world :=
  set_w_inodes (<[l := n]> (w_inodes w)) w.

Lemma with_inode_get n w : get_inode l (with_inode n w) = Ok n (with_inode n w).
Proof. apply get_inode_ok. apply lookup_insert_eq. Qed.

Lemma with_inode_put n n' w : put_inode l n' (with_inode n w) = Ok tt (with_inode n' w).
Proof. unfold put_inode, modify, with_inode. simpl. by rewrite insert_insert_eq. Qed.

Lemma close_direct_ok n w pre p post :
  i_block n = pre ++ p :: post → p ≠ Wild →
  close_direct l (Z.of_nat (length pre)) (with_inode n w) =
    Ok (from_option b_id 0 (match p with Ptr b => Some b | _ => None end))
      (with_inode (set_i_block (pre ++ Null :: post) n) w).
Proof.
  intros Hb Hp. unfold close_direct. step_with (with_inode_get n w).
  rewrite Hb, array_at_mid. steps. destruct p as [| |b]; [|done|].
  - step_with (is_null_null (A := block) (with_inode n w)). rewrite <- Hb. by destruct n.
  - step_with (is_null_ptr b (with_inode n w)). steps. unfold udbfslib_unload_block.
    rewrite bind_assoc. step_with (is_null_ptr b (with_inode n w)). steps.
    rewrite array_set_mid. by step_with (with_inode_put n (set_i_block (pre ++ Null :: post) n) w).
Qed.

Definition entry_id (p : ptr block) : Z :=
  match p with Ptr b => b_id b | _ => 0 end.

(** The four direct entries. *)
Lemma close_directs_ok n w ps (K : Z → Z → Z → Z → M world Z) :
  i_block n = ps → length ps = 4%nat → Forall (λ p, p ≠ Wild) ps →
  ∃ n', (b0 ← close_direct l 0; b1 ← close_direct l 1; b2 ← close_direct l 2;
         b3 ← close_direct l 3; K b0 b1 b2 b3) (with_inode n w) =
    K (entry_id (nth 0 ps Null)) (entry_id (nth 1 ps Null)) (entry_id (nth 2 ps Null))
      (entry_id (nth 3 ps Null)) (with_inode n' w).
Proof.
  intros Hb Hl HF. destruct ps as [|p0 [|p1 [|p2 [|p3 [|]]]]]; try done.
  repeat match goal with H : Forall _ (_ :: _) |- _ => apply Forall_cons in H as [? H] end.
  assert (∀ p : ptr block, from_option b_id 0 (match p with Ptr b => Some b | _ => None end)
    = entry_id p) as He by (by intros []).
  step_with (close_direct_ok n w [] p0 [p1; p2; p3] Hb ltac:(done)).
  step_with (close_direct_ok (set_i_block (Null :: [p1; p2; p3]) n) w [Null] p1 [p2; p3] eq_refl ltac:(done)).
  cbn [app set_i_block].
  step_with (close_direct_ok (set_i_block ([Null; Null; p2; p3]) n) w [Null; Null] p2 [p3] eq_refl ltac:(done)).
  step_with (close_direct_ok (set_i_block ([Null; Null; Null; p3]) n) w [Null; Null; Null] p3 []
    eq_refl ltac:(done)).
  rewrite !He. by eexists.
Qed.

Lemma set_bytes_self w : d_open (w_dev w) = true → set_bytes (dev_bytes w) (d_pos (w_dev w)) w = w.
Proof. destruct w as [[b p o] ? ? ? ? ? ? ? ? ? ?]. simpl. by intros ->. Qed.

(** Unloading one of the three trees, if there is one. *)
Lemma unload_opt_ok {A C} (num : A → Z) metas disk (conc : Z → A → C) cnum
    (U : ptr C → M world unit) o off w (K : Z → M world Z) :
  dev_ok (w_dev w) →
  (∀ x, o = Some x → cnum (conc off x) = num x ∧
     unloaded metas disk x w (U (Ptr (conc off x)) w)) →
  ∃ dev' pos,
    (null ← is_null (conc_opt conc off o);
     id ← (if (null : bool) then mret 0
           else x ← load (conc_opt conc off o); U (conc_opt conc off o);; mret (cnum x));
     K id) w = K (opt_num num o) (set_bytes dev' pos w) ∧
    frame_but Ln (opt_list metas o) 0 0 (dev_bytes w) dev' ∧ ∀ x, o = Some x → disk dev' x.
Proof.
  intros Hd Hu. destruct o as [x|]; simpl conc_opt.
  - destruct (Hu x eq_refl) as [Hx (dev' & pos & E & Hf & Hdk)].
    exists dev', pos. step_with (is_null_ptr (conc off x) w).
    rewrite bind_assoc. steps. rewrite bind_assoc. step_with E. steps. rewrite Hx.
    split; [done|]. split; [done|]. by intros ? [= <-].
  - exists (dev_bytes w), (d_pos (w_dev w)). step_with (is_null_null (A := C) w). steps.
    rewrite set_bytes_self by (by destruct Hd). done.
Qed.

Lemma frame_but_blocks ids ids' o n dev dev' :
  frame_but Ln ids o n dev dev' → (∀ id, id ∈ ids' → id ∉ ids) →
  (∀ p, o ≤ p < o + n → p / B ∉ ids') → same_blocks ids' dev dev'.
Proof.
  intros [Hl Hf] Hdj Ho. split; [done|]. intros p Hp Hin. apply Hf; [done|by apply Hdj|].
  intros Hr. by apply (Ho p).
Qed.

Lemma entry_id_direct ids k :
  (length ids ≤ 4)%nat → (k < 4)%nat →
  entry_id (nth k (conc_direct Ln mk ids) Null) = nth k (pad0 4 ids) 0.
Proof.
  intros Hl Hk. destruct ids as [|a [|b [|c [|d [|]]]]]; simpl in Hl; try lia;
    destruct k as [|[|[|[|]]]]; try lia; done.
Qed.

Lemma conc_direct_not_wild ids : Forall (λ p, p ≠ Wild) (conc_direct Ln mk ids).
Proof.
  unfold conc_direct, pad. apply Forall_app. split.
  - apply Forall_forall. intros p Hp. apply list_elem_of_lookup in Hp as [i Hi].
    rewrite conc_list_lookup in Hi. destruct (ids !! i); simplify_eq/=. done.
  - apply Forall_forall. intros p Hp%elem_of_replicate. by destruct Hp as [-> _].
Qed.

(** Where the inode's slot of the inode table is. *)
Definition slot_free (off : Z) (ids : list Z) (dev : list Z) : Prop :=
  0 ≤ off ∧ off + sizeof_inode ≤ zlen dev ∧ ∀ p, off ≤ p < off + sizeof_inode → p / B ∉ ids.

Lemma close_inode_ok w n ly fs rest :
  file_ok Ln w l n ly fs → dll (w_ilinks w) (m_opened_inodes (w_mnt w)) (l :: rest) →
  slot_free (i_physical_offset n) (ly_data ly ++ ly_meta ly) (dev_bytes w) → i_size n < 2 ^ 64 →
  ∃ dev' pos root' links', udbfs_close_inode (Some l) w = Ok 0
      (set_w_ilinks (delete l links') (set_w_inodes (delete l (w_inodes w))
        (set_w_mnt (set_m_opened_inodes root' (w_mnt w)) (set_bytes dev' pos w)))) ∧
    udbfslib_unlink (m_opened_inodes (w_mnt w)) l (w_ilinks w) = Some (root', links') ∧
    disk_layout dev' (i_physical_offset n) (i_size n) ly ∧
    frame_but Ln (ly_meta ly) (i_physical_offset n) sizeof_inode (dev_bytes w) dev'.
Proof using HLn.
  intros Hf Hdll (Ho & Hoe & Hodj) Hsz. pose proof Hf as [[Hg Hm] Hd Hal Hn Hly Hok Hnd Hids Hc Hb].
  pose proof Hd as [Hop Hz].
  assert (∃ root' links', udbfslib_unlink (m_opened_inodes (w_mnt w)) l (w_ilinks w) =
    Some (root', links')) as (root' & links' & Hun).
  { assert (m_opened_inodes (w_mnt w) = Some l) as Hr by (by destruct Hdll as [[? _] _]).
    rewrite Hr in *. destruct rest as [|y rest]; [eexists _, _; by apply unlink_sole|].
    destruct (unlink_head _ _ _ _ Hdll) as (h' & E & _). by eexists _, _. }
  assert (NoDup (ly_meta ly) ∧ Forall (on_device Ln (dev_bytes w)) (ly_meta ly)) as [Hmnd Hmon].
  { apply NoDup_app in Hnd as (_ & _ & Hnd). apply NoDup_app in Hnd as (Hnd & _ & _).
    apply Forall_app in Hids as [_ Hids]. by apply Forall_app in Hids as [Hids _]. }
  unfold ly_meta in Hmnd, Hmon. apply NoDup_app in Hmnd as (Hnd1 & Hdj1 & Hnd2).
  apply NoDup_app in Hnd2 as (Hnd2 & Hdj2 & Hnd3).
  apply Forall_app in Hmon as [Hon1 Hmon]. apply Forall_app in Hmon as [Hon2 Hon3].
  set (wu := set_w_ilinks links' (set_w_mnt (set_m_opened_inodes root' (w_mnt w)) w)).
  assert (geometry (w_mnt wu) Ln) as Hgu by (by destruct Hg).
  unfold udbfs_close_inode. step_with (get_inode_ok l n w Hn).
  assert (unlink_opened_inode l w = Ok tt (with_inode n wu)) as Eu.
  { unfold unlink_opened_inode. steps. cbn [id]. rewrite Hun. steps. unfold modify. f_equal.
    unfold with_inode, wu. simpl. rewrite insert_id by done. by destruct w. }
  step_with Eu.
  rewrite (hl_ind _ _ _ _ Hly), (hl_bind _ _ _ _ Hly), (hl_tind _ _ _ _ Hly).
  match goal with |- context [(close_direct l 0 ≫= λ b0, close_direct l 1 ≫= λ b1,
      close_direct l 2 ≫= λ b2, close_direct l 3 ≫= λ b3, @?K b0 b1 b2 b3) _] =>
    destruct (close_directs_ok n wu (conc_direct Ln mk (ly_direct ly)) K) as (n' & E) end;
    [by rewrite (hl_direct _ _ _ _ Hly)
    |unfold conc_direct; apply length_pad; rewrite length_conc_list; apply Hok
    |apply conc_direct_not_wild|].
  rewrite E. clear E. rewrite !entry_id_direct by (apply Hok || lia).
  assert (∀ dev' pos, length dev' = length (dev_bytes w) →
    dev_ok (w_dev (set_bytes dev' pos (with_inode n' wu)))) as Hdv.
  { intros dev' pos Hl. split; [done|]. simpl. unfold zlen in *. by rewrite Hl. }
  match goal with |- context [(is_null (conc_opt ?conc ?off ?o) ≫= _) ?w1] =>
    match goal with |- context [(_ ≫= λ null, _ ≫= ?K) w1] =>
    destruct (unload_opt_ok fst ind_meta disk_ind conc ib_id udbfslib_unload_ind_block o off w1 K)
      as (dev1 & pos1 & E1 & [Hfl1 Hf1] & Hdk1) end end.
  { by split. }
  { intros x Hx. split; [done|]. destruct (lok_ind _ _ Hok x Hx) as [_ Hxl].
    apply unload_ind_ok; [done|by split| |lia]. rewrite Hx in Hon1. exact Hon1. }
  rewrite E1. clear E1. cbv beta.
  match goal with |- context [(is_null (conc_opt ?conc ?off ?o) ≫= _) ?w1] =>
    match goal with |- context [(_ ≫= λ null, _ ≫= ?K) w1] =>
    destruct (unload_opt_ok fst bind_meta disk_bind conc bb_id udbfslib_unload_bind_block o off w1 K)
      as (dev2 & pos2 & E2 & [Hfl2 Hf2] & Hdk2) end end.
  { by apply Hdv. }
  { intros x Hx. split; [done|]. destruct (lok_bind _ _ Hok x Hx) as [_ Hxl].
    apply unload_bind_ok; [done|by apply Hdv| |by rewrite Hx in Hnd2|done].
    rewrite Hx in Hon2. eapply Forall_impl; [exact Hon2|]. intros y. by apply on_device_length. }
  rewrite E2. clear E2. cbv beta.
  match goal with |- context [(is_null (conc_opt ?conc ?off ?o) ≫= _) ?w1] =>
    match goal with |- context [(_ ≫= λ null, _ ≫= ?K) w1] =>
    destruct (unload_opt_ok fst tind_meta disk_tind conc tb_id udbfslib_unload_tind_block o off w1 K)
      as (dev3 & pos3 & E3 & [Hfl3 Hf3] & Hdk3) end end.
  { apply Hdv. simpl in *. congruence. }
  { intros x Hx. split; [done|]. destruct (lok_tind _ _ Hok x Hx) as [_ Hxl].
    apply unload_tind_ok; [done|apply Hdv; simpl in *; congruence| |by rewrite Hx in Hnd3|done].
    rewrite Hx in Hon3. eapply Forall_impl; [exact Hon3|]. intros y.
    apply on_device_length. simpl in *. congruence. }
  rewrite E3. clear E3. cbv beta.
  cbn [set_bytes set_w_dev w_dev d_bytes with_inode set_w_inodes set_w_ilinks set_w_mnt wu] in *.
  set (off := i_physical_offset n) in *.
  set (pi := UdbfsInode _ _ _ _ _).
  assert (pi = layout_inode (i_size n) ly) as Hpi.
  { unfold pi, layout_inode. f_equal. pose proof (length_pad0 4 (ly_direct ly) ltac:(apply Hok)) as H4.
    destruct (pad0 4 (ly_direct ly)) as [|a [|b [|c [|d [|]]]]]; done. }
  assert (zlen (encode_inode pi) = sizeof_inode) as H64.
  { rewrite Hpi. apply length_encode_inode. by apply length_pad0, Hok. }
  assert (length dev3 = length (dev_bytes w)) as Hl3 by congruence.
  match goal with |- context [(write_at off (encode_inode pi) ≫= _) ?w1] =>
    step_with (write_at_ok off (encode_inode pi) w1 (Hdv dev3 pos3 Hl3) Ho
      ltac:(rewrite H64; simpl; unfold zlen in *; rewrite Hl3; exact Hoe)) end.
  cbn [get_dev put_dev world_device]. rewrite H64.
  set (dev4 := dsplice off (encode_inode pi) dev3).
  assert (length dev4 = length (dev_bytes w)) as Hl4 by (unfold dev4; by rewrite length_dsplice).
  (* the device after the writes, seen block by block *)
  assert (∀ p, 0 ≤ p → ¬ (off ≤ p < off + sizeof_inode) → byte_at dev4 p = byte_at dev3 p) as Hf4.
  { intros p Hp Hr. apply byte_at_dsplice_out; [done|done|rewrite H64; lia]. }
  assert (∀ ids : list Z, (∀ id, id ∈ ids → id ∈ ly_meta ly) → ∀ p, p / B ∈ ids →
    ¬ (off ≤ p < off + sizeof_inode)) as Hslot.
  { intros ids Hsub p Hin Hr. apply (Hodj p Hr). apply elem_of_app. right. by apply Hsub. }
  assert (∀ A (metas : A → list Z) (o : option A) x, o = Some x → opt_list metas o = metas x) as Hol
    by (by intros ? ? ? ? ->).
  eexists dev4, _, root', links'. split; [|split; [done|split]].
  - unfold free_inode_memory, modify, mret, M_ret, mbind, M_bind. f_equal. simpl.
    by rewrite delete_insert_eq.
  - split.
    + rewrite <- Hpi. unfold dev4. rewrite <- H64 at 1. apply dread_dsplice_same; [done|].
      rewrite H64. unfold zlen in *. rewrite Hl3. exact Hoe.
    + intros x Hx. specialize (Hdk1 x Hx).
      apply (disk_ind_stable dev1); [|split; [congruence|]|done].
      * rewrite Hx in Hon1. apply Forall_cons in Hon1 as [[? _] _]. lia.
      * intros p Hp Hin.
        assert (p / B ∈ opt_list ind_meta (ly_ind ly)) as Hin' by (by rewrite Hx).
        rewrite Hf4, Hf3, Hf2; try done; try lia.
        -- intros Hin2. apply (Hdj1 _ Hin'). apply elem_of_app. by left.
        -- intros Hin2. apply (Hdj1 _ Hin'). apply elem_of_app. by right.
        -- apply (Hslot (ind_meta x)); [|done]. intros y Hy. unfold ly_meta. rewrite Hx.
           apply elem_of_app. by left.
    + intros x Hx. specialize (Hdk2 x Hx).
      apply (disk_bind_stable dev2); [|split; [congruence|]|done].
      * rewrite Hx in Hon2. by eapply Forall_on_device_nonneg.
      * intros p Hp Hin.
        assert (p / B ∈ opt_list bind_meta (ly_bind ly)) as Hin' by (by rewrite Hx).
        rewrite Hf4, Hf3; try done; try lia.
        -- intros Hin2. by apply (Hdj2 _ Hin').
        -- apply (Hslot (bind_meta x)); [|done]. intros y Hy. unfold ly_meta. rewrite Hx.
           apply elem_of_app. right. apply elem_of_app. by left.
    + intros x Hx. specialize (Hdk3 x Hx).
      apply (disk_tind_stable dev3); [|split; [congruence|]|done].
      * rewrite Hx in Hon3. by eapply Forall_on_device_nonneg.
      * intros p Hp Hin. apply Hf4; [done|].
        apply (Hslot (tind_meta x)); [|done]. intros y Hy. unfold ly_meta. rewrite Hx.
        apply elem_of_app. right. apply elem_of_app. by right.
  - split; [done|]. intros p Hp Hni Hr. unfold ly_meta in Hni. rewrite !not_elem_of_app in Hni.
    destruct Hni as (? & ? & ?). rewrite Hf4, Hf3, Hf2, Hf1; try done; lia.
Qed.

(** ** Loading *)

(** Loading depends on the device, the geometry and free memory only. *)
Record load_env (w : world) : Prop := {
  le_geo : geometry (w_mnt w) Ln;
  le_mallocs : w_mallocs w = [];
  le_dev : dev_ok (w_dev w)
}.

Lemma load_env_set_bytes pos w : load_env w → load_env (set_bytes (dev_bytes w) pos w).
Proof. intros [Hg Hm [Ho Hz]]. by split. Qed.

Lemma tmp_words_le_words ws :
  Forall (λ z, 0 ≤ z < 2 ^ 64) ws → tmp_words (le_words ws) (Z.of_nat (length ws)) = ws.
Proof.
  intros HF. unfold tmp_words. rewrite Nat2Z.id. apply list_eq. intros i.
  rewrite list_lookup_fmap. destruct (decide (i < length ws)%nat) as [Hi|Hi].
  - rewrite lookup_seq_lt by done. simpl. destruct (lookup_lt_is_Some_2 ws i Hi) as [x Hx].
    rewrite Hx. f_equal. rewrite <- (app_nil_r (le_words ws)).
    apply (word_at_le_words ws [] i x Hx). by apply (Forall_lookup_1 _ _ _ _ HF Hx).
  - rewrite lookup_seq_ge by lia. by rewrite lookup_ge_None_2 by lia.
Qed.

Lemma pad0_words dev n ids :
  zlen dev < 2 ^ 62 → Forall (on_device Ln dev) ids → Forall (λ z, 0 ≤ z < 2 ^ 64) (pad0 n ids).
Proof using HLn.
  intros Hz HF. apply Forall_app. split.
  - assert (128 ≤ B) by (unfold bsize; lia).
    eapply Forall_impl; [exact HF|]. intros x [H1 H2]. nia.
  - apply Forall_forall. intros x Hx%elem_of_replicate. destruct Hx as [-> _]. lia.
Qed.

Lemma load_block_ok w id off :
  load_env w → on_device Ln (dev_bytes w) id ∨ id = 0 → 0 ≤ off → off + B < 2 ^ 64 →
  udbfslib_load_block l id off w = Ok (0, Some (mk id off)) w.
Proof using HLn.
  intros [Hg Hm Hd] Hid H0 H1. unfold udbfslib_load_block. steps.
  step_with (allocate_memory_block_ok l w Hm). rewrite (geo_block _ _ Hg).
  destruct Hd as [_ Hz].
  assert (0 < B) by (unfold bsize; lia).
  assert (0 ≤ B * id < 2 ^ 62) as Hb by (destruct Hid as [[? ?]| ->]; nia).
  rewrite !u64_small by lia. unfold mret, M_ret, mkblock. by rewrite (Z.mul_comm B id).
Qed.

Lemma load_ind_entries_ok n : ∀ ids off w,
  load_env w → Forall (on_device Ln (dev_bytes w)) ids → (length ids ≤ n)%nat →
  0 ≤ off → off + Z.of_nat n * B < 2 ^ 64 →
  load_ind_entries l (pad0 n ids) off w = Ok (0, pad n (conc_list (λ o id, mk id o) B off ids)) w.
Proof using HLn.
  assert (0 < B) as HB by (unfold bsize; lia).
  induction n as [|n IH]; intros ids off w He HF Hl H0 H1.
  { by destruct ids; [|simpl in Hl; lia]. }
  pose proof He as [Hg Hm Hd].
  assert (m_block_size (w_mnt w) = B) as Hbs by apply Hg.
  destruct ids as [|id ids].
  - change (conc_list (λ o id, mk id o) B off []) with (@nil (ptr block)).
    rewrite pad0_nil, pad_nil_S. cbn [load_ind_entries]. steps. rewrite Hbs.
    rewrite u64_small by nia. cbn [Z.eqb].
    step_with (IH [] (off + B) w He ltac:(constructor) ltac:(simpl; lia) ltac:(lia) ltac:(nia)).
    done.
  - apply Forall_cons in HF as [Hid HF]. simpl conc_list. rewrite pad0_cons, pad_cons.
    cbn [load_ind_entries]. steps. rewrite Hbs. rewrite u64_small by nia.
    replace (id =? 0) with false by (destruct Hid; lia).
    step_with (load_block_ok w id off He (or_introl Hid) H0 ltac:(nia)). cbn [fst snd Z.eqb negb].
    step_with (IH ids (off + B) w He HF ltac:(simpl in Hl; lia) ltac:(lia) ltac:(nia)).
    done.
Qed.

Lemma read_index_ok w id ws :
  load_env w → on_device Ln (dev_bytes w) id → block_bytes Ln (dev_bytes w) id = le_words ws →
  read_at (u64 (id * m_block_size (w_mnt w))) (m_block_size (w_mnt w)) w =
    Ok (Some (le_words ws)) (set_bytes (dev_bytes w) (id * B + B) w) ∧
  u64 (id * m_block_size (w_mnt w)) = id * B.
Proof using HLn.
  intros [Hg Hm Hd] [H1 H2] Hb. rewrite (geo_block _ _ Hg). pose proof (proj2 Hd) as Hz.
  assert (0 ≤ id * B) by (unfold bsize; nia). rewrite u64_small by (unfold bsize in *; lia).
  split; [|done].
  pose proof (read_at_ok (id * B) B w Hd ltac:(lia) ltac:(unfold bsize; lia)
    ltac:(change (get_dev w) with (w_dev w); lia)) as E.
  change (get_dev w) with (w_dev w) in E. unfold block_bytes in Hb. rewrite Hb in E. exact E.
Qed.

Lemma load_ind_block_ok w off (c : lind) lp :
  load_env w → on_device Ln (dev_bytes w) c.1 → Forall (on_device Ln (dev_bytes w)) c.2 →
  (length c.2 ≤ Ln)%nat → 0 ≤ off → off + L * B < 2 ^ 64 → disk_ind (dev_bytes w) c →
  ∃ pos, udbfslib_load_ind_block l c.1 off lp w =
    Ok (0, Ptr (conc_ind Ln mk off c)) (set_bytes (dev_bytes w) pos w).
Proof using HLn.
  intros He Hc HF Hl H0 H1 Hdk. pose proof He as [Hg Hm Hd].
  destruct (read_index_ok w c.1 (pad0 Ln c.2) He Hc Hdk) as [Er Eu].
  exists (c.1 * B + B). unfold udbfslib_load_ind_block.
  replace (c.1 =? 0) with false by (destruct Hc; lia). steps.
  step_with (block_links_ok w Ln Hg). step_with (malloc_ok w Hm). cbn [negb].
  step_with (malloc_ok w Hm). cbn [negb]. step_with Er. rewrite Eu.
  assert (tmp_words (le_words (pad0 Ln c.2)) L = pad0 Ln c.2) as Ht.
  { rewrite <- (length_pad0 Ln c.2 Hl) at 2. apply tmp_words_le_words.
    by apply (pad0_words (dev_bytes w)); [apply Hd|]. }
  rewrite Ht. by step_with (load_ind_entries_ok Ln c.2 off (set_bytes (dev_bytes w) (c.1 * B + B) w)
    (load_env_set_bytes _ _ He) HF Hl H0 H1).
Qed.

Section load_entries.
Context {A C : Type} (num : A → Z) (disk : list Z → A → Prop) (conc : Z → A → C) (st : Z)
  (good : list Z → A → Prop) (ld : Z → Z → M world (Z * ptr C))
  (loop : list Z → Z → M world (Z * list (ptr C))) (stride : mount → Z).
Hypothesis Hst : 0 < st.
Hypothesis stride_ok : ∀ m, geometry m Ln → stride m = st.
Hypothesis loop_nil : ∀ off, loop [] off = mret (0, []).
Hypothesis loop_cons : ∀ x ws off, loop (x :: ws) off =
  (m ← gets w_mnt;
   let next_modifier := u64 (off + stride m) in
   if x =? 0 then r ← loop ws next_modifier; mret (r.1, Null :: r.2)
   else
     b ← ld x off;
     if negb (b.1 =? 0) then mret (-1, b.2 :: replicate (length ws) Wild)
     else r ← loop ws next_modifier; mret (r.1, b.2 :: r.2)).
Hypothesis ld_ok : ∀ w off x, load_env w → good (dev_bytes w) x → disk (dev_bytes w) x →
  0 ≤ off → off + st < 2 ^ 64 →
  ∃ pos, ld (num x) off w = Ok (0, Ptr (conc off x)) (set_bytes (dev_bytes w) pos w).
Hypothesis num_nonzero : ∀ dev x, good dev x → num x ≠ 0.

Lemma load_entries_ok n : ∀ xs off w,
  load_env w → Forall (good (dev_bytes w)) xs → Forall (disk (dev_bytes w)) xs →
  (length xs ≤ n)%nat → 0 ≤ off → off + Z.of_nat n * st < 2 ^ 64 →
  ∃ pos, loop (pad0 n (map num xs)) off w =
    Ok (0, pad n (conc_list conc st off xs)) (set_bytes (dev_bytes w) pos w).
Proof using Hst stride_ok loop_nil loop_cons ld_ok num_nonzero.
  induction n as [|n IH]; intros xs off w He HF HD Hl H0 H1.
  { destruct xs; [|simpl in Hl; lia]. exists (d_pos (w_dev w)).
    change (loop (pad0 0 (map num [])) off w) with (loop [] off w). rewrite loop_nil.
    rewrite set_bytes_self by (by destruct He as [_ _ [? _]]). done. }
  pose proof He as [Hg Hm Hd].
  destruct xs as [|x xs].
  - change (conc_list conc st off []) with (@nil (ptr C)). change (map num []) with (@nil Z).
    rewrite pad0_nil, pad_nil_S, loop_cons. steps. cbv zeta. cbn [Z.eqb].
    rewrite (stride_ok _ Hg), u64_small by nia.
    destruct (IH [] (off + st) w He ltac:(constructor) ltac:(constructor) ltac:(simpl; lia)
      ltac:(lia) ltac:(nia)) as (pos & E).
    change (map num []) with (@nil Z) in E. exists pos. by step_with E.
  - apply Forall_cons in HF as [Hx HF]. apply Forall_cons in HD as [Hxd HD].
    simpl conc_list. cbn [map]. rewrite pad0_cons, pad_cons, loop_cons. steps. cbv zeta.
    replace (num x =? 0) with false by (pose proof (num_nonzero _ _ Hx); lia).
    destruct (ld_ok w off x He Hx Hxd H0 ltac:(nia)) as (pos1 & E1). step_with E1.
    cbn [fst snd Z.eqb negb]. rewrite (stride_ok _ Hg), u64_small by nia.
    destruct (IH xs (off + st) (set_bytes (dev_bytes w) pos1 w) (load_env_set_bytes _ _ He) HF HD
      ltac:(simpl in Hl; lia) ltac:(lia) ltac:(nia)) as (pos & E).
    exists pos. by step_with E.
Qed.
End load_entries.

Definition good_ind (dev : list Z) (c : lind) : Prop :=
  on_device Ln dev c.1 ∧ Forall (on_device Ln dev) c.2 ∧ (length c.2 ≤ Ln)%nat.
Definition good_bind (dev : list Z) (b : lbind) : Prop :=
  on_device Ln dev b.1 ∧ Forall (good_ind dev) b.2 ∧ (length b.2 ≤ Ln)%nat.
Definition good_tind (dev : list Z) (t : ltind) : Prop :=
  on_device Ln dev t.1 ∧ Forall (good_bind dev) t.2 ∧ (length t.2 ≤ Ln)%nat.

Lemma Forall_bind_good {A} (P : Z → Prop) (f : A → list Z) xs :
  Forall P (xs ≫= f) ↔ Forall (λ x, Forall P (f x)) xs.
Proof.
  induction xs as [|x xs IH]; [by split; constructor|].
  rewrite bind_cons, Forall_app, IH. split; [by intros []; constructor|].
  by intros [? ?]%Forall_cons.
Qed.

Lemma good_bind_ok dev b :
  Forall (on_device Ln dev) (bind_data b) → Forall (on_device Ln dev) (bind_meta b) →
  bind_ok Ln b → good_bind dev b.
Proof using HLn.
  intros Hdt [H1 Hm]%Forall_cons [Hl Hp]. split; [done|]. split; [|lia].
  apply Forall_bind_good in Hdt, Hm.
  apply packed_Forall_length in Hp; [|lia].
  apply Forall_forall. intros c Hc. rewrite Forall_forall in *.
  specialize (Hm c Hc). apply Forall_cons in Hm as [? _].
  by split_and!; [|apply Hdt|apply Hp].
Qed.

Lemma good_tind_ok dev t :
  Forall (on_device Ln dev) (tind_data t) → Forall (on_device Ln dev) (tind_meta t) →
  tind_ok Ln t → good_tind dev t.
Proof using HLn.
  intros Hdt [H1 Hm]%Forall_cons (Hl & Hbo & Hp). split; [done|]. split; [|lia].
  apply Forall_bind_good in Hdt, Hm.
  apply Forall_forall. intros c Hc. rewrite Forall_forall in *.
  by apply good_bind_ok; [apply Hdt|apply Hm|apply Hbo].
Qed.

Lemma load_bind_block_ok w off (b : lbind) lp :
  load_env w → good_bind (dev_bytes w) b → 0 ≤ off → off + L * L * B < 2 ^ 64 →
  disk_bind (dev_bytes w) b →
  ∃ pos, udbfslib_load_bind_block l b.1 off lp w =
    Ok (0, Ptr (conc_bind Ln mk off b)) (set_bytes (dev_bytes w) pos w).
Proof using HLn.
  intros He (Hb & HF & Hl) H0 H1 [Hw Hdk]. pose proof He as [Hg Hm Hd].
  destruct (geometry_bounds Ln HLn) as (B1 & B2 & B3 & B4 & _).
  destruct (read_index_ok w b.1 _ He Hb Hw) as [Er Eu].
  set (w1 := set_bytes (dev_bytes w) (b.1 * B + B) w) in *.
  destruct (load_entries_ok fst disk_ind (conc_ind Ln mk) (L * B) good_ind
    (λ id off, udbfslib_load_ind_block l id off Wild) (load_bind_entries l) m_ind_storage)
    with (n := Ln) (xs := b.2) (off := off) (w := w1) as (pos & E); try done; try lia.
  - intros m Hgm. apply Hgm.
  - intros w' off' x He' (Hx1 & Hx2 & Hx3) Hxd H0' H1'. by apply load_ind_block_ok.
  - intros dev x ([? ?] & _). lia.
  - by apply load_env_set_bytes.
  - exists pos. unfold udbfslib_load_bind_block.
    replace (b.1 =? 0) with false by (destruct Hb; lia). steps.
    step_with (block_links_ok w Ln Hg). step_with (malloc_ok w Hm). cbn [negb].
    step_with (malloc_ok w Hm). cbn [negb]. step_with Er. rewrite Eu.
    rewrite <- (length_pad0 Ln (map fst b.2)) at 2 by (rewrite length_map; lia).
    rewrite tmp_words_le_words; [by step_with E|].
    apply (pad0_words (dev_bytes w)); [apply Hd|].
    apply Forall_map. eapply Forall_impl; [exact HF|]. by intros x (? & _).
Qed.

Lemma load_tind_block_ok w off (t : ltind) lp :
  load_env w → good_tind (dev_bytes w) t → 0 ≤ off → off + L * L * L * B < 2 ^ 64 →
  disk_tind (dev_bytes w) t →
  ∃ pos, udbfslib_load_tind_block l t.1 off lp w =
    Ok (0, Ptr (conc_tind Ln mk off t)) (set_bytes (dev_bytes w) pos w).
Proof using HLn.
  intros He (Hb & HF & Hl) H0 H1 [Hw Hdk]. pose proof He as [Hg Hm Hd].
  destruct (geometry_bounds Ln HLn) as (B1 & B2 & B3 & B4 & _).
  destruct (read_index_ok w t.1 _ He Hb Hw) as [Er Eu].
  set (w1 := set_bytes (dev_bytes w) (t.1 * B + B) w) in *.
  destruct (load_entries_ok fst disk_bind (conc_bind Ln mk) (L * L * B) good_bind
    (λ id off, udbfslib_load_bind_block l id off Wild) (load_tind_entries l) m_bind_storage)
    with (n := Ln) (xs := t.2) (off := off) (w := w1) as (pos & E); try done; try lia.
  - intros m Hgm. apply Hgm.
  - intros w' off' x He' Hx Hxd H0' H1'. by apply load_bind_block_ok.
  - intros dev x ([? ?] & _). lia.
  - by apply load_env_set_bytes.
  - exists pos. unfold udbfslib_load_tind_block.
    replace (t.1 =? 0) with false by (destruct Hb; lia). steps.
    step_with (block_links_ok w Ln Hg). step_with (malloc_ok w Hm). cbn [negb].
    step_with (malloc_ok w Hm). cbn [negb]. step_with Er. rewrite Eu.
    rewrite <- (length_pad0 Ln (map fst t.2)) at 2 by (rewrite length_map; lia).
    rewrite tmp_words_le_words; [by step_with E|].
    apply (pad0_words (dev_bytes w)); [apply Hd|].
    apply Forall_map. eapply Forall_impl; [exact HF|]. by intros x (? & _).
Qed.

(** ** udbfs_open_inode *)

(** The direct entries as opened: a block for each of the four words, zero
    or not. *)
Definition opened_direct (ids : list Z) : list (ptr block) :=
  conc_list (λ o id, mk id o) B 0 (pad0 4 ids).

Lemma open_direct_ok n w j id off :
  load_env w → on_device Ln (dev_bytes w) id ∨ id = 0 → 0 ≤ off → off + B < 2 ^ 64 →
  open_direct l j id off (with_inode n w) =
    Ok 0 (with_inode (set_i_block (array_set (i_block n) j (Ptr (mk id off))) n) w).
Proof using HLn.
  intros [Hg Hm Hd] Hid H0 H1. unfold open_direct.
  step_with (load_block_ok (with_inode n w) id off ltac:(by split) Hid H0 H1). cbn [fst snd].
  step_with (with_inode_get n w).
  by step_with (with_inode_put n (set_i_block (array_set (i_block n) j (Ptr (mk id off))) n) w).
Qed.

(** What [file_ok] says about the blocks of a layout. *)
Record good_layout (dev : list Z) (ly : layout) : Prop := {
  gl_direct : Forall (on_device Ln dev) (ly_direct ly);
  gl_ind : ∀ i, ly_ind ly = Some i → good_ind dev i;
  gl_bind : ∀ b, ly_bind ly = Some b → good_bind dev b;
  gl_tind : ∀ t, ly_tind ly = Some t → good_tind dev t
}.

Lemma good_layout_ok dev ly :
  layout_ok Ln ly → Forall (on_device Ln dev) (ly_data ly ++ ly_meta ly) → good_layout dev ly.
Proof using HLn.
  intros Hok [Hdt Hmt]%Forall_app. unfold ly_data in Hdt. unfold ly_meta in Hmt.
  apply Forall_app in Hdt as [D1 D2]. apply Forall_app in D2 as [D2 D3].
  apply Forall_app in D3 as [D3 D4]. apply Forall_app in Hmt as [M2 M3].
  apply Forall_app in M3 as [M3 M4]. split; [done|..].
  - intros i Hi. rewrite Hi in *. apply Forall_cons in M2 as [? _]. split; [done|]. split; [done|].
    destruct (lok_ind _ _ Hok i Hi). lia.
  - intros b Hb. rewrite Hb in *. apply good_bind_ok; [done|done|]. by apply Hok.
  - intros t Ht. rewrite Ht in *. apply good_tind_ok; [done|done|]. by apply Hok.
Qed.

(** Loading a tree, if there is one. *)
Lemma load_ind_opt w o :
  load_env w → (∀ i, o = Some i → good_ind (dev_bytes w) i ∧ disk_ind (dev_bytes w) i) →
  ∃ pos, udbfslib_load_ind_block l (opt_num fst o) (4 * B) Null w =
    Ok (0, conc_opt (conc_ind Ln mk) (ind_base Ln) o) (set_bytes (dev_bytes w) pos w).
Proof using HLn.
  intros He Ho. destruct (geometry_bounds Ln HLn) as (B1 & B2 & B3 & _).
  destruct o as [i|].
  - destruct (Ho i eq_refl) as [(H1 & H2 & H3) H4]. apply load_ind_block_ok; try done; lia.
  - exists (d_pos (w_dev w)). rewrite set_bytes_self by (by destruct He as [_ _ [? _]]). done.
Qed.

Lemma load_bind_opt w o :
  load_env w → (∀ i, o = Some i → good_bind (dev_bytes w) i ∧ disk_bind (dev_bytes w) i) →
  ∃ pos, udbfslib_load_bind_block l (opt_num fst o) (4 * B + L * B) Null w =
    Ok (0, conc_opt (conc_bind Ln mk) (bind_base Ln) o) (set_bytes (dev_bytes w) pos w).
Proof using HLn.
  intros He Ho. destruct (geometry_bounds Ln HLn) as (B1 & B2 & B3 & B4 & _).
  destruct o as [i|].
  - destruct (Ho i eq_refl) as [H1 H4]. apply load_bind_block_ok; try done; lia.
  - exists (d_pos (w_dev w)). rewrite set_bytes_self by (by destruct He as [_ _ [? _]]). done.
Qed.

Lemma load_tind_opt w o :
  load_env w → (∀ i, o = Some i → good_tind (dev_bytes w) i ∧ disk_tind (dev_bytes w) i) →
  ∃ pos, udbfslib_load_tind_block l (opt_num fst o) (4 * B + L * B + L * L * B) Null w =
    Ok (0, conc_opt (conc_tind Ln mk) (tind_base Ln) o) (set_bytes (dev_bytes w) pos w).
Proof using HLn.
  intros He Ho. destruct (geometry_bounds Ln HLn) as (B1 & B2 & B3 & B4 & B5 & _).
  destruct o as [i|].
  - destruct (Ho i eq_refl) as [H1 H4]. apply load_tind_block_ok; try done; lia.
  - exists (d_pos (w_dev w)). rewrite set_bytes_self by (by destruct He as [_ _ [? _]]). done.
Qed.

Lemma load_env_with_inode n w : load_env w → load_env (with_inode n w).
Proof. by intros []. Qed.

Lemma open_blocks_ok n w size ly :
  load_env w → layout_ok Ln ly → good_layout (dev_bytes w) ly →
  (∀ i, ly_ind ly = Some i → disk_ind (dev_bytes w) i) →
  (∀ b, ly_bind ly = Some b → disk_bind (dev_bytes w) b) →
  (∀ t, ly_tind ly = Some t → disk_tind (dev_bytes w) t) →
  length (i_block n) = 4%nat →
  i_ind_block n = Null → i_bind_block n = Null → i_tind_block n = Null →
  ∃ pos, open_blocks l (layout_inode size ly) (with_inode n w) =
    Ok tt (with_inode (set_i_tind_block (conc_opt (conc_tind Ln mk) (tind_base Ln) (ly_tind ly))
      (set_i_bind_block (conc_opt (conc_bind Ln mk) (bind_base Ln) (ly_bind ly))
        (set_i_ind_block (conc_opt (conc_ind Ln mk) (ind_base Ln) (ly_ind ly))
          (set_i_block (opened_direct (ly_direct ly)) n)))) (set_bytes (dev_bytes w) pos w)).
Proof using HLn.
  intros He Hok Hgood Hdi Hdb Hdt H4 Hn1 Hn2 Hn3. pose proof He as [Hg Hm Hd].
  destruct (geometry_bounds Ln HLn) as (B1 & B2 & B3 & B4 & B5 & B6 & B7).
  assert (∀ k, on_device Ln (dev_bytes w) (nth k (pad0 4 (ly_direct ly)) 0) ∨
    nth k (pad0 4 (ly_direct ly)) 0 = 0) as Hids.
  { intros k. unfold pad0. destruct (decide (k < length (ly_direct ly))%nat).
    - left. rewrite app_nth1 by done.
      apply (proj1 (Forall_forall _ _) (gl_direct _ _ Hgood)). apply list_elem_of_In, nth_In. lia.
    - right. rewrite app_nth2, nth_lookup by lia.
      destruct (replicate _ _ !! _) eqn:E; [|done]. by apply lookup_replicate_1 in E as [-> _]. }
  pose proof (lok_direct _ _ Hok) as Hl4.
  pose proof (length_pad0 4 (ly_direct ly) Hl4) as Hp4.
  unfold opened_direct.
  destruct (pad0 4 (ly_direct ly)) as [|i0 [|i1 [|i2 [|i3 [|]]]]] eqn:Ep; try done.
  destruct (i_block n) as [|p0 [|p1 [|p2 [|p3 [|]]]]] eqn:Eb; try done.
  pose proof (Hids 0%nat) as Hi0. pose proof (Hids 1%nat) as Hi1.
  pose proof (Hids 2%nat) as Hi2. pose proof (Hids 3%nat) as Hi3. simpl in Hi0, Hi1, Hi2, Hi3.
  unfold open_blocks. steps. cbv zeta. unfold layout_inode. cbn [pi_block pi_ind_block
    pi_bind_block pi_tind_block]. rewrite Ep. cbn [nth].
  change (w_mnt (with_inode n w)) with (w_mnt w).
  rewrite (geo_block _ _ Hg), (geo_dir _ _ Hg), (geo_ind _ _ Hg), (geo_bind _ _ Hg).
  rewrite (u64_small (B * 2)), (u64_small (B * 3)), (u64_small (4 * B + L * B)),
    (u64_small (4 * B + L * B + L * L * B)) by lia.
  step_with (open_direct_ok n w 0 i0 0 He Hi0 ltac:(lia) ltac:(lia)). rewrite Eb. cbn [Z.eqb negb].
  do 3 match goal with |- context [(open_direct l ?j ?id ?off ≫= _) (with_inode ?n1 w)] =>
    step_with (open_direct_ok n1 w j id off He ltac:(first [exact Hi1|exact Hi2|exact Hi3])
      ltac:(lia) ltac:(lia)); cbn [Z.eqb negb] end.
  cbn [i_block set_i_block].
  set (n4 := set_i_block (array_set _ 3 _) _).
  set (nd := set_i_block (conc_list (λ o id, mk id o) B 0 [i0; i1; i2; i3]) n).
  assert (n4 = nd) as ->.
  { unfold n4, nd. cbn [conc_list]. unfold set_i_block, array_set. simpl.
    by replace (B * 2) with (0 + B + B) by lia; replace (B * 3) with (0 + B + B + B) by lia. }
  step_with (with_inode_get nd w). change (i_ind_block nd) with (i_ind_block n). rewrite Hn1.
  destruct (load_ind_opt (with_inode nd w) (ly_ind ly) (load_env_with_inode nd w He)) as (pos1 & E1).
  { intros x Hx. split; [by apply Hgood|by apply Hdi]. }
  step_with E1. cbn [fst snd Z.eqb negb].
  change (set_bytes (dev_bytes (with_inode nd w)) pos1 (with_inode nd w)) with
    (with_inode nd (set_bytes (dev_bytes w) pos1 w)).
  step_with (with_inode_put nd (set_i_ind_block
    (conc_opt (conc_ind Ln mk) (ind_base Ln) (ly_ind ly)) nd) (set_bytes (dev_bytes w) pos1 w)).
  set (ni := set_i_ind_block _ nd). set (w1 := set_bytes (dev_bytes w) pos1 w).
  assert (load_env w1) as He1 by (by apply load_env_set_bytes).
  step_with (with_inode_get ni w1). change (i_bind_block ni) with (i_bind_block n). rewrite Hn2.
  destruct (load_bind_opt (with_inode ni w1) (ly_bind ly) (load_env_with_inode ni w1 He1))
    as (pos2 & E2).
  { intros x Hx. split; [by apply Hgood|by apply Hdb]. }
  step_with E2. cbn [fst snd Z.eqb negb].
  change (set_bytes (dev_bytes (with_inode ni w1)) pos2 (with_inode ni w1)) with
    (with_inode ni (set_bytes (dev_bytes w) pos2 w)).
  step_with (with_inode_put ni (set_i_bind_block
    (conc_opt (conc_bind Ln mk) (bind_base Ln) (ly_bind ly)) ni) (set_bytes (dev_bytes w) pos2 w)).
  set (nb := set_i_bind_block _ ni). set (w2 := set_bytes (dev_bytes w) pos2 w).
  assert (load_env w2) as He2 by (by apply load_env_set_bytes).
  step_with (with_inode_get nb w2). change (i_tind_block nb) with (i_tind_block n). rewrite Hn3.
  destruct (load_tind_opt (with_inode nb w2) (ly_tind ly) (load_env_with_inode nb w2 He2))
    as (pos3 & E3).
  { intros x Hx. split; [by apply Hgood|by apply Hdt]. }
  step_with E3. cbn [fst snd].
  exists pos3. exact (with_inode_put nb (set_i_tind_block
    (conc_opt (conc_tind Ln mk) (tind_base Ln) (ly_tind ly)) nb) (set_bytes (dev_bytes w) pos3 w)).
Qed.

(** Linking succeeds when the list is empty or its head is live. *)
Definition head_live (w : world) (x : loc) : Prop :=
  match m_opened_inodes (w_mnt w) with
  | None => True
  | Some y => y ≠ x ∧ is_Some (w_ilinks w !! y)
  end.

Lemma allocate_inode_ok w :
  w_mallocs w = [] → l = w_next_loc w → head_live w l →
  ∃ links, udbfslib_allocate_memory_inode w = Ok (Some l)
    (set_w_ilinks links (set_w_mnt (set_m_opened_inodes (Some l) (w_mnt w))
      (with_inode (Inode 0 0 0 (w_junk w) [Null; Null; Null; Null] Null Null Null)
        (set_w_next_loc (Pos.succ l) w)))).
Proof.
  intros Hm Hl Hh. unfold udbfslib_allocate_memory_inode.
  step_with (malloc_ok w Hm). steps. rewrite <- Hl.
  unfold link_opened_inode. rewrite bind_assoc. steps. rewrite bind_assoc.
  cbn [w_mnt w_ilinks set_w_ilinks set_w_inodes set_w_next_loc id].
  assert (∃ links, udbfslib_link (m_opened_inodes (w_mnt w)) l
    (<[l := fresh_node]> (w_ilinks w)) = Some (Some l, links)) as (links & E).
  { unfold udbfslib_link. rewrite lookup_insert_eq. simpl. unfold head_live in Hh.
    destruct (m_opened_inodes (w_mnt w)) as [y|]; [|by eexists].
    destruct Hh as [Hne [nd Hnd]]. rewrite !lookup_insert_ne by done. rewrite Hnd. by eexists. }
  rewrite E. steps. by exists links.
Qed.

Lemma open_inode_ok w id off size ly :
  load_env w → l = w_next_loc w → head_live w l →
  off = m_inode_table_offset (w_mnt w) + 64 * id → 0 ≤ 64 * id < 2 ^ 64 → 0 ≤ off →
  off + sizeof_inode ≤ zlen (dev_bytes w) → 0 ≤ size < 2 ^ 64 →
  layout_ok Ln ly → Forall (on_device Ln (dev_bytes w)) (ly_data ly ++ ly_meta ly) →
  disk_layout (dev_bytes w) off size ly →
  ∃ pos n' links, udbfs_open_inode id w = Ok (Some l)
      (set_w_ilinks links (set_w_mnt (set_m_opened_inodes (Some l) (w_mnt w))
        (with_inode n' (set_w_next_loc (Pos.succ l) (set_bytes (dev_bytes w) pos w))))) ∧
    i_id n' = id ∧ i_size n' = size ∧ i_cursor n' = 0 ∧ i_physical_offset n' = off ∧
    i_block n' = opened_direct (ly_direct ly) ∧
    i_ind_block n' = conc_opt (conc_ind Ln mk) (ind_base Ln) (ly_ind ly) ∧
    i_bind_block n' = conc_opt (conc_bind Ln mk) (bind_base Ln) (ly_bind ly) ∧
    i_tind_block n' = conc_opt (conc_tind Ln mk) (tind_base Ln) (ly_tind ly).
Proof using HLn.
  intros He Hl Hh Hoff Hid Ho Hoe Hsz Hok Hon [Hdi D1 D2 D3]. pose proof He as [Hg Hm Hd].
  destruct (allocate_inode_ok w Hm Hl Hh) as (links & E).
  unfold udbfs_open_inode. step_with E. steps.
  set (w0 := set_w_next_loc (Pos.succ l) w).
  set (wa := set_w_ilinks links (set_w_mnt (set_m_opened_inodes (Some l) (w_mnt w)) w0)).
  set (n0 := Inode 0 0 0 (w_junk w) [Null; Null; Null; Null] Null Null Null).
  change (set_w_ilinks links _) with (with_inode n0 wa).
  assert (load_env wa) as Hea by (split; [by destruct Hg|done|done]).
  step_with (with_inode_get n0 wa). cbv zeta.
  change (m_inode_table_offset (w_mnt (with_inode n0 wa))) with (m_inode_table_offset (w_mnt w)).
  unfold sizeof_inode in *. pose proof (proj2 Hd) as Hz.
  rewrite (u64_small (64 * id)), u64_small by lia. rewrite <- Hoff.
  step_with (with_inode_put n0 (set_i_physical_offset off (set_i_id id n0)) wa).
  set (n1 := set_i_physical_offset off (set_i_id id n0)).
  assert (read_at off 64 (with_inode n1 wa) = Ok (Some (encode_inode (layout_inode size ly)))
    (with_inode n1 (set_bytes (dev_bytes w) (off + 64) wa))) as Er.
  { rewrite <- Hdi. exact (read_at_ok off 64 (with_inode n1 wa) Hd Ho ltac:(lia) Hoe). }
  step_with Er. set (w1 := set_bytes (dev_bytes w) (off + 64) wa).
  assert (load_env w1) as He1 by (by apply (load_env_set_bytes (off + 64) wa)).
  assert (pinode_ok (layout_inode size ly)) as Hpi.
  { pose proof (good_layout_ok _ _ Hok Hon) as [G1 G2 G3 G4].
    assert (∀ id, on_device Ln (dev_bytes w) id → 0 ≤ id < 2 ^ 64) as Hod.
    { intros x [? ?]. assert (128 ≤ B) by (unfold bsize; lia). nia. }
    split; [by apply length_pad0, Hok|]. cbn [layout_inode pi_size pi_block pi_ind_block
      pi_bind_block pi_tind_block]. constructor; [done|]. apply Forall_app. split.
    - by apply (pad0_words (dev_bytes w)).
    - repeat constructor.
      + destruct (ly_ind ly) as [i|] eqn:E1; simpl; [|lia]. apply Hod, (G2 i eq_refl).
      + destruct (ly_ind ly) as [i|] eqn:E1; simpl; [|lia]. apply Hod, (G2 i eq_refl).
      + destruct (ly_bind ly) as [i|] eqn:E1; simpl; [|lia]. apply Hod, (G3 i eq_refl).
      + destruct (ly_bind ly) as [i|] eqn:E1; simpl; [|lia]. apply Hod, (G3 i eq_refl).
      + destruct (ly_tind ly) as [i|] eqn:E1; simpl; [|lia]. apply Hod, (G4 i eq_refl).
      + destruct (ly_tind ly) as [i|] eqn:E1; simpl; [|lia]. apply Hod, (G4 i eq_refl). }
  rewrite decode_encode_inode by done. step_with (with_inode_get n1 w1).
  step_with (with_inode_put n1 (set_i_size (pi_size (layout_inode size ly)) n1) w1).
  set (n2 := set_i_size _ n1).
  destruct (open_blocks_ok n2 w1 size ly He1 Hok (good_layout_ok _ _ Hok Hon) D1 D2 D3)
    as (pos & Eo); try done.
  step_with Eo. eexists pos, _, links. split; [reflexivity|]. by split_and!.
Qed.

(** ** A reopened file *)

Lemma opened_direct_slot ids i :
  0 ≤ i < zlen ids → (length ids ≤ 4)%nat →
  slot (opened_direct ids) i = slot (conc_direct Ln mk ids) i.
Proof.
  unfold zlen. intros Hi Hl. unfold slot, array_at. replace (i <? 0) with false by lia.
  f_equal. unfold opened_direct, conc_direct, pad0. rewrite conc_list_app.
  rewrite lookup_app_l by (rewrite length_conc_list; lia).
  by rewrite pad_lookup_l by (rewrite length_conc_list; lia).
Qed.

Lemma opened_direct_full ids : length ids = 4%nat → opened_direct ids = conc_direct Ln mk ids.
Proof.
  intros Hl. unfold opened_direct, conc_direct, pad0, pad. rewrite length_conc_list, Hl.
  simpl. by rewrite !app_nil_r.
Qed.

(** Every block of the file is at its place again. *)
Lemma opened_blocks n ly j id :
  layout_ok Ln ly → i_block n = opened_direct (ly_direct ly) →
  i_ind_block n = conc_opt (conc_ind Ln mk) (ind_base Ln) (ly_ind ly) →
  i_bind_block n = conc_opt (conc_bind Ln mk) (bind_base Ln) (ly_bind ly) →
  i_tind_block n = conc_opt (conc_tind Ln mk) (tind_base Ln) (ly_tind ly) →
  ly_data ly !! j = Some id →
  ∃ r, logical_path Ln (Z.of_nat j) = Some r ∧ slot_at n r = Ptr (mk id (B * Z.of_nat j)).
Proof using HLn.
  intros Hok H1 H2 H3 H4 Hj. assert (0 < Ln)%nat as H0 by lia.
  pose proof (lookup_lt_Some _ _ _ Hj) as Hlt. pose proof (layout_ok_max Ln ly H0 Hok).
  assert (has_layout Ln mk (set_i_block (conc_direct Ln mk (ly_direct ly)) n) ly) as Hly by by split.
  destruct (logical_path_slot Ln mk H0 _ ly (Z.of_nat j) Hok Hly) as (r & Hr & Hs); [lia|].
  exists r. split; [done|]. rewrite Nat2Z.id, Hj in Hs.
  change (slot_of mk (Some id) (B * Z.of_nat j)) with (Ptr (mk id (B * Z.of_nat j))) in Hs.
  rewrite <- Hs. clear Hs.
  unfold logical_path in Hr. destruct (Z.ltb_spec (Z.of_nat j) 4).
  - injection Hr as <-. simpl. rewrite H1. apply opened_direct_slot; [|apply Hok].
    destruct (layout_lengths Ln H0 ly Hok) as (_ & _ & _ & _ & E1 & E2 & E3).
    rewrite (length_ly_data Ln H0) in Hlt. unfold zlen.
    destruct (decide (length (ly_direct ly) < 4)%nat) as [C|C]; [|lia].
    rewrite E1 in * by done. rewrite E2 in * by (simpl; lia).
    rewrite E3 in * by (simpl; nia). simpl in Hlt. lia.
  - repeat (case_match; simplify_eq; try done).
Qed.

Lemma content_same dev dev' ids size :
  Forall (λ id, 0 ≤ id) ids → same_blocks ids dev dev' →
  content Ln dev' ids size = content Ln dev ids size.
Proof using HLn.
  intros Hids Hs. unfold content. f_equal. unfold file_bytes.
  assert (∀ xs, (∀ x, x ∈ xs → x ∈ ids ∧ 0 ≤ x) →
    xs ≫= block_bytes Ln dev' = xs ≫= block_bytes Ln dev) as Hx.
  { induction xs as [|x xs IH]; intros Hin; [done|]. rewrite !bind_cons. f_equal.
    - destruct (Hin x) as [? ?]; [left|]. by apply (same_blocks_bytes ids).
    - apply IH. intros y Hy. apply Hin. by right. }
  apply Hx. intros x Hin. split; [done|]. by apply (proj1 (Forall_forall _ _) Hids).
Qed.

(** Closing the only opened file and opening it again. *)
Lemma reopen_ok w n ly fs :
  file_ok Ln w l n ly fs → dll (w_ilinks w) (m_opened_inodes (w_mnt w)) [l] →
  slot_free (i_physical_offset n) (ly_data ly ++ ly_meta ly) (dev_bytes w) →
  i_size n < 2 ^ 64 → w_mallocs w = [] →
  i_physical_offset n = m_inode_table_offset (w_mnt w) + 64 * i_id n → 0 ≤ 64 * i_id n < 2 ^ 64 →
  ∃ w1, udbfs_close_inode (Some l) w = Ok 0 w1 ∧ load_env w1 ∧
    w_next_loc w1 = w_next_loc w ∧ m_opened_inodes (w_mnt w1) = None ∧
    m_inode_table_offset (w_mnt w1) = m_inode_table_offset (w_mnt w) ∧
    alloc_ok w1 fs ∧ length (dev_bytes w1) = length (dev_bytes w) ∧
    disk_layout (dev_bytes w1) (i_physical_offset n) (i_size n) ly ∧
    content Ln (dev_bytes w1) (ly_data ly) (i_size n) =
      content Ln (dev_bytes w) (ly_data ly) (i_size n).
Proof using HLn.
  intros Hf Hdll Hslot Hsz Hm Hoff Hid.
  destruct (close_inode_ok w n ly fs [] Hf Hdll Hslot Hsz)
    as (dev' & pos & root' & links' & E & Hun & Hdl & Hfr).
  pose proof Hf as [[Hg _] Hd Hal Hn Hly Hok Hnd Hids Hc Hb].
  assert (root' = None) as ->.
  { assert (m_opened_inodes (w_mnt w) = Some l) as Hr by (by destruct Hdll as [[? _] _]).
    rewrite Hr in *. rewrite (unlink_sole _ _ Hdll) in Hun. by injection Hun as <- <-. }
  eexists. split; [exact E|].
  pose proof Hfr as [Hl _].
  split; [|split; [done|split; [done|split; [done|split; [done|split; [done|split; [done|]]]]]]].
  - split; [by destruct Hg|done|]. destruct Hd as [_ Hz]. split; [done|].
    unfold zlen in *. simpl. by rewrite Hl.
  - apply content_same.
    + apply Forall_app in Hids as [Hids _]. by eapply Forall_on_device_nonneg.
    + destruct Hslot as (_ & _ & Hsl). eapply frame_but_blocks; [exact Hfr| |].
      * intros x Hx Hx'. apply NoDup_app in Hnd as (_ & Hdj & _). apply (Hdj x Hx).
        apply elem_of_app. by left.
      * intros p Hp Hin. apply (Hsl p Hp). apply elem_of_app. by left.
Qed.
End persist.

(** ** Appending to a short file after it was reopened *)

Lemma write_block_zero Ln l w n ids data :
  geometry (w_mnt w) Ln → dev_ok (w_dev w) → w_inodes w !! l = Some n →
  i_block n = opened_direct Ln l ids → (length ids < 4)%nat →
  i_cursor n = bsize Ln * zlen ids → i_size n = i_cursor n →
  0 < zlen data ≤ bsize Ln → bsize Ln ≤ zlen (dev_bytes w) →
  ∃ w', udbfs_write_to_inode (Some l) data (zlen data) w = Ok (zlen data) w' ∧
    dev_bytes w' = dsplice 0 data (dev_bytes w).
Proof.
  intros Hg Hd Hn Hb Hids Hc Hs Hdata Hdev. pose proof (geo_links _ _ Hg) as HLn.
  destruct (geometry_bounds Ln HLn) as (B1 & B2 & B3 & B4 & _).
  pose proof (proj2 Hd) as Hz. unfold zlen in Hc at 1.
  set (B := bsize Ln) in *. set (k := Z.of_nat (length ids)) in *.
  assert (slot_at n (BDirect k) = Ptr (mkblock Ln l 0 (B * k))) as Hslot.
  { simpl. rewrite Hb. unfold slot, k. rewrite array_at_lookup. unfold opened_direct, pad0.
    rewrite conc_list_lookup, lookup_app_r, Nat.sub_diag by lia.
    destruct (4 - length ids)%nat eqn:E; [lia|]. simpl. do 2 f_equal. }
  assert (udbfslib_select_active_inode_block (w_mnt w) n w = Ok (Some (BDirect k)) w) as Hsel.
  { rewrite (select_logical_path (w_mnt w) Ln Hg) by (fold B; nia).
    fold B. rewrite Hc, (Z.mul_comm B), Z.div_mul by lia.
    unfold logical_path. replace (k <? 4) with true by lia.
    unfold return_slot. by rewrite Hslot. }
  unfold udbfs_write_to_inode. replace (Z.to_nat (zlen data)) with
    (S (Z.to_nat (zlen data - 1))) by lia.
  cbn [write_to_inode_loop]. replace (0 <? zlen data) with true by lia. cbn [negb]. steps.
  step_with (get_inode_ok l n w Hn). step_with Hsel. steps. step_with (get_inode_ok l n w Hn).
  rewrite Hslot. steps. cbn [mkblock b_offset_end b_device_offset b_offset_start].
  fold B. rewrite Hc. replace (B * k + B - B * k) with B by lia. rewrite Z.sub_diag, Z.mul_0_l.
  change (u64 (0 + u64 0)) with 0. rewrite (u64_small B), (i32_small B), (u32_small B),
    (i32_small (zlen data)) by lia.
  replace (if zlen data <? B then zlen data else B) with (zlen data)
    by (destruct (Z.ltb_spec (zlen data) B); lia).
  assert (data_slice (S := world) data 0 (zlen data) w = Ok data w) as Hsl.
  { unfold data_slice. replace ((0 <=? 0) && (0 <=? zlen data) && (0 + zlen data <=? zlen data))
      with true by lia. by rewrite dread_all. }
  step_with Hsl.
  step_with (write_at_ok 0 data w Hd ltac:(lia) ltac:(change (get_dev w) with (w_dev w); lia)).
  cbn [negb]. rewrite Z.sub_diag. change (u32 0) with 0. unfold put_inode. steps.
  replace (Z.to_nat (zlen data - 1)) with (Z.to_nat (zlen data - 1)) by done.
  cbn [Z.ltb Z.compare negb]. eexists. split; [|].
  { rewrite Z.add_0_l, i32_small by lia. done. }
  done.
Qed.
