(* ===== verification/Sample.v ===== *)
(** * A small formatted device

    64 blocks of 128 bytes, 16 inodes, blocks 32 to 63 free: the concrete
    states the theorems' witnesses run on. *)
From S2P Require Import Prelude Posix Bitmap LinkList UdbfsTypes BlockLoad.
From S2P Require Import InodeBlocks InodeIO Mount Layout Content Paths ExtendProofs Files.
Local Open Scope Z_scope.

Definition sample_superblock : superblock :=
  Superblock 0 16 77 64 16 31 15 12 0 0 UDBFS_MAGIC 0 0 0 0 0 0 1 0 1.

(** Bit 0 of the last byte is block 56, which is in use. *)
Definition sample_block_bitmap : list Z := [0; 0; 0; 0; 255; 255; 255; 254].
Definition sample_inode_bitmap : list Z := [254; 255].

Definition sample_image : list Z :=
  dsplice 1536 (sample_block_bitmap ++ sample_inode_bitmap)
    (dsplice 1024 (encode_superblock sample_superblock) (replicate (Z.to_nat 8192) 0)).

Definition junk_mount : mount :=
  Mount 0 None None 0 0 0 0 0 0 0 0 0 0 0 0 0 0 0 0 0 0 0 0 0 0 0 0 0 0 0 0 0 0 None.

Definition sample_boot : world :=
  World (Device sample_image 0 false) 3 [] junk_mount 1 None ∅ ∅ ∅ 1 99.

(** The state a program leaves. *)
Definition state_of {A : Type} (r : result world A) : world :=
  match r with Ok _ w => w | _ => sample_boot end.

(** Mounted, then with an empty file opened at address 2. *)
Definition sample_mounted : world := state_of (udbfs_mount sample_boot).
Definition sample_created : world := state_of (udbfs_create_inode sample_mounted).

Definition sample_inode (w : world) (l : loc) : inode :=
  default (Inode 0 0 0 0 [] Null Null Null) (w_inodes w !! l).

Definition sample_data (n : nat) : list Z := map (λ i, Z.of_nat i mod 251) (seq 0 n).

Definition sample_free : list Z := free_bits sample_block_bitmap.

#[export] Instance on_device_dec Ln dev id : Decision (on_device Ln dev id).
Proof. unfold on_device. apply _. Defined.

(** [file_ok] of a concrete state whose block bitmap is [bm]. *)
Ltac sample_file bm := split;
  [ split; [split; vm_compute; first [done|by split]|by vm_compute]
  | split; by vm_compute
  | exists bm; split; [by vm_compute|];
    split; [split; [|by vm_compute]; repeat constructor; done|];
    split; [by vm_compute|]; split; [by vm_compute|]; by vm_compute
  | by vm_compute
  | split; by vm_compute
  | split; [vm_compute; lia | intros ? [=]; subst; vm_compute; lia ..]
  | apply (bool_decide_unpack _); by vm_compute
  | apply (bool_decide_unpack _); by vm_compute
  | by vm_compute
  | by vm_compute ].

Lemma sample_created_ok :
  file_ok 16 sample_created 2 (sample_inode sample_created 2) empty_layout sample_free.
Proof. sample_file sample_block_bitmap. Qed.
