(* ===== verification/UdbfsSpec.v ===== *)
(** * The contract of the file operations

    What [udbfs_write_to_inode], [udbfs_read_from_inode],
    [udbfs_create_inode] and the block extension promise, for files that
    satisfy [file_ok]: a file is a byte sequence with a cursor.  Each theorem
    is followed by its application to the sample device. *)
From S2P Require Import Prelude Posix Bitmap LinkList UdbfsTypes BlockLoad.
From S2P Require Import InodeBlocks InodeIO Mount Layout Content Paths ExtendProofs.
From S2P Require Import Files Sample.
Local Open Scope Z_scope.

(** C1: a write of [zlen data] bytes that the file system has room for
    returns that count, and the file's content is the old one with the bytes
    at the cursor overwritten by [data], extended as needed; the cursor
    moves behind them and the result is again a well-formed file. *)
Theorem write_overwrites Ln w l n ly fs q data :
  file_ok Ln w l n ly fs → zlen data < 2 ^ 31 →
  i_cursor n + zlen data ≤ bsize Ln * (zlen (ly_data ly) + Z.of_nat q) →
  (4 * q ≤ length fs)%nat →
  i_cursor n + zlen data ≤ bsize Ln * Z.of_nat (max_blocks Ln) →
  ∃ w' n' ly' fs', udbfs_write_to_inode (Some l) data (zlen data) w = Ok (zlen data) w' ∧
    file_ok Ln w' l n' ly' fs' ∧
    i_cursor n' = i_cursor n + zlen data ∧
    i_size n' = Z.max (i_size n) (i_cursor n + zlen data) ∧
    content Ln (dev_bytes w') (ly_data ly') (i_size n') =
      overwrite (i_cursor n) data (content Ln (dev_bytes w) (ly_data ly) (i_size n)).
Proof.
  intros Hf Hl Hq Hq4 Hm. pose proof (zlen_nonneg data).
  destruct (write_loop Ln l data (S (Z.to_nat (zlen data))) w n ly fs q (zlen data) 0 Hf)
    as (w' & n' & ly' & fs' & E & Hf' & _ & _ & Hc & Hs & _ & Hct); try done; try lia.
  exists w', n', ly', fs'. split; [exact E|]. split; [done|]. split; [done|]. split; [done|].
  by rewrite dread_all in Hct.
Qed.

(** 800 bytes, seven blocks: four direct ones and three behind the
    single indirection. *)
Lemma write_overwrites_witness :
  ∃ w' n' ly' fs',
    udbfs_write_to_inode (Some 2%positive) (sample_data 800) 800 sample_created = Ok 800 w' ∧
    file_ok 16 w' 2 n' ly' fs' ∧
    i_cursor n' = 800 ∧ i_size n' = 800 ∧
    content 16 (dev_bytes w') (ly_data ly') (i_size n') =
      overwrite 0 (sample_data 800) (content 16 (dev_bytes sample_created) [] 0).
Proof.
  apply (write_overwrites 16 sample_created 2 (sample_inode sample_created 2) empty_layout
    sample_free 7 (sample_data 800)).
  - exact sample_created_ok.
  - by vm_compute.
  - by vm_compute.
  - vm_compute. lia.
  - by vm_compute.
Defined.

(** ** Reading *)

(** C2: a read returns the bytes of the file from the cursor on, as many as
    asked for and left, and advances the cursor behind them; the device is
    not changed. *)
Theorem read_returns_content Ln w l n ly fs size :
  file_ok Ln w l n ly fs → 0 ≤ size < 2 ^ 32 →
  i_size n - i_cursor n < 2 ^ 31 →
  let k := Z.min size (i_size n - i_cursor n) in
  ∃ w' n', udbfs_read_from_inode (Some l) size w =
      Ok (k, take (Z.to_nat k) (drop (Z.to_nat (i_cursor n))
               (content Ln (dev_bytes w) (ly_data ly) (i_size n)))) w' ∧
    file_ok Ln w' l n' ly fs ∧ i_cursor n' = i_cursor n + k ∧ i_size n' = i_size n ∧
    dev_bytes w' = dev_bytes w.
Proof.
  intros Hf Hs Hr k. pose proof (fo_cursor _ _ _ _ _ _ Hf).
  destruct (read_from_inode_ok Ln l w n (ly_data ly) size (file_ok_view _ _ _ _ _ _ Hf) Hs Hr)
    as (pos & E).
  eexists _, (set_i_cursor (i_cursor n + k) n). split; [exact E|].
  split; [|done]. apply file_ok_cursor; [done|unfold k; lia].
Qed.

(** The file of the write above, read again from the start. *)
Definition sample_written : world :=
  state_of (udbfs_write_to_inode (Some 2%positive) (sample_data 300) 300 sample_created).

Definition sample_written_layout : layout := Layout [32; 33; 34] None None None.

Lemma sample_written_ok :
  file_ok 16 sample_written 2 (sample_inode sample_written 2) sample_written_layout
    (drop 3 sample_free).
Proof. sample_file [0; 0; 0; 0; 248; 255; 255; 254]. Qed.

(** The same with the cursor moved back to position 100. *)
Definition sample_rewound_inode : inode := set_i_cursor 100 (sample_inode sample_written 2).
Definition sample_rewound : world :=
  set_w_inodes (<[2%positive := sample_rewound_inode]> (w_inodes sample_written)) sample_written.

Lemma sample_rewound_ok :
  file_ok 16 sample_rewound 2 sample_rewound_inode sample_written_layout (drop 3 sample_free).
Proof.
  apply (file_ok_rewind 16 sample_written 2 (sample_inode sample_written 2)).
  - exact sample_written_ok.
  - by vm_compute.
Qed.

Lemma read_returns_content_witness :
  let k := Z.min 1000 (i_size sample_rewound_inode - i_cursor sample_rewound_inode) in
  k = 200 ∧ ∃ w' n', udbfs_read_from_inode (Some 2%positive) 1000 sample_rewound =
      Ok (k, take (Z.to_nat k) (drop (Z.to_nat (i_cursor sample_rewound_inode))
        (content 16 (dev_bytes sample_rewound) (ly_data sample_written_layout)
          (i_size sample_rewound_inode)))) w' ∧
    file_ok 16 w' 2 n' sample_written_layout (drop 3 sample_free) ∧
    i_cursor n' = i_cursor sample_rewound_inode + k ∧
    i_size n' = i_size sample_rewound_inode ∧ dev_bytes w' = dev_bytes sample_rewound.
Proof.
  split; [by vm_compute|].
  apply (read_returns_content 16 sample_rewound 2 sample_rewound_inode sample_written_layout
    (drop 3 sample_free) 1000).
  - exact sample_rewound_ok.
  - by vm_compute.
  - by vm_compute.
Defined.

(** [udbfs_eoi] tells whether the cursor is at the end of the file, and a
    read at the end of the file returns nothing. *)
Lemma eoi_at_end Ln w l n ly fs size :
  file_ok Ln w l n ly fs → 0 ≤ size < 2 ^ 32 →
  udbfs_eoi l w = Ok (if i_size n - i_cursor n =? 0 then 1 else 0) w ∧
  (i_cursor n = i_size n → udbfs_read_from_inode (Some l) size w = Ok (0, []) w).
Proof.
  intros Hf Hs. pose proof (fo_inode _ _ _ _ _ _ Hf) as Hn. split.
  - unfold udbfs_eoi. step_with (get_inode_ok l n w Hn). unfold mret, M_ret. do 2 f_equal.
    destruct (Z.eqb_spec (i_cursor n) (i_size n)), (Z.eqb_spec (i_size n - i_cursor n) 0); lia.
  - intros He. unfold udbfs_read_from_inode. step_with (get_inode_ok l n w Hn).
    rewrite He, Z.sub_diag. change (u32 (i32 (u64 0))) with 0.
    replace (if size <? 0 then size else 0) with 0 by (destruct (Z.ltb_spec size 0); lia).
    done.
Qed.

(** ** Running out of blocks *)

(** C12: with no free block left a write stores what still fits into the
    file's last block and returns that count; the file stays well-formed. *)
Theorem write_no_space Ln w l n ly data :
  file_ok Ln w l n ly [] → zlen data < 2 ^ 31 →
  let k := Z.min (zlen data) (bsize Ln * zlen (ly_data ly) - i_cursor n) in
  ∃ w' n', udbfs_write_to_inode (Some l) data (zlen data) w = Ok k w' ∧
    file_ok Ln w' l n' ly [] ∧
    i_cursor n' = i_cursor n + k ∧ i_size n' = Z.max (i_size n) (i_cursor n + k) ∧
    content Ln (dev_bytes w') (ly_data ly) (i_size n') =
      overwrite (i_cursor n) (dread data 0 k)
        (content Ln (dev_bytes w) (ly_data ly) (i_size n)).
Proof.
  intros Hf Hl k. pose proof (zlen_nonneg data).
  destruct (write_loop_full Ln l data (S (Z.to_nat (zlen data))) w n ly (zlen data) 0 Hf)
    as (w' & n' & E & Hf' & _ & Hc & Hs & Hct); try done; try lia.
  by exists w', n'.
Qed.

(** The written file on a device whose last free block is gone. *)
Definition sample_full : world :=
  set_w_mnt (set_m_free_block_count 0 (w_mnt sample_written)) sample_written.

Lemma sample_full_ok :
  file_ok 16 sample_full 2 (sample_inode sample_full 2) sample_written_layout [].
Proof. sample_file [0; 0; 0; 0; 248; 255; 255; 254]. Qed.

Lemma write_no_space_witness :
  let n := sample_inode sample_full 2 in
  let k := Z.min (zlen (sample_data 200)) (bsize 16 * zlen (ly_data sample_written_layout)
                                          - i_cursor n) in
  k = 84 ∧ ∃ w' n',
    udbfs_write_to_inode (Some 2%positive) (sample_data 200) (zlen (sample_data 200)) sample_full =
      Ok k w' ∧ file_ok 16 w' 2 n' sample_written_layout [] ∧
    i_cursor n' = i_cursor n + k ∧ i_size n' = Z.max (i_size n) (i_cursor n + k) ∧
    content 16 (dev_bytes w') (ly_data sample_written_layout) (i_size n') =
      overwrite (i_cursor n) (dread (sample_data 200) 0 k)
        (content 16 (dev_bytes sample_full) (ly_data sample_written_layout) (i_size n)).
Proof.
  split; [by vm_compute|].
  apply (write_no_space 16 sample_full 2 (sample_inode sample_full 2) sample_written_layout
    (sample_data 200)).
  - exact sample_full_ok.
  - by vm_compute.
Defined.

(** ** Isolation *)

(** C4: writing one file changes no other opened file: its blocks, its
    content and its well-formedness stay, and the two files and the free
    list keep sharing no block; outside the data blocks of the written file
    every byte of the device, the superblock, the bitmaps and the inode
    table among them, is unchanged. *)
Theorem write_isolates Ln w l l' n n2 ly ly2 fs q data :
  file_ok Ln w l n ly fs → file_ok Ln w l' n2 ly2 fs → l ≠ l' →
  NoDup (ly_data ly2 ++ ly_meta ly2 ++ ly_data ly ++ ly_meta ly ++ fs) →
  zlen data < 2 ^ 31 →
  i_cursor n + zlen data ≤ bsize Ln * (zlen (ly_data ly) + Z.of_nat q) →
  (4 * q ≤ length fs)%nat →
  i_cursor n + zlen data ≤ bsize Ln * Z.of_nat (max_blocks Ln) →
  ∃ w' n' ly' fs', udbfs_write_to_inode (Some l) data (zlen data) w = Ok (zlen data) w' ∧
    file_ok Ln w' l n' ly' fs' ∧ file_ok Ln w' l' n2 ly2 fs' ∧
    NoDup (ly_data ly2 ++ ly_meta ly2 ++ ly_data ly' ++ ly_meta ly' ++ fs') ∧
    content Ln (dev_bytes w') (ly_data ly2) (i_size n2) =
      content Ln (dev_bytes w) (ly_data ly2) (i_size n2) ∧
    ∀ p, 0 ≤ p → p / bsize Ln ∉ ly_data ly' →
      byte_at (dev_bytes w') p = byte_at (dev_bytes w) p.
Proof.
  intros Hf Hf2 Hne Hnd Hl Hq Hq4 Hm. pose proof (zlen_nonneg data).
  destruct (write_loop Ln l data (S (Z.to_nat (zlen data))) w n ly fs q (zlen data) 0 Hf)
    as (w' & n' & ly' & fs' & E & Hf' & Hrel & Hgr & _ & _ & Hfr & _); try done; try lia.
  destruct (file_ok_frame Ln w w' l l' n n' ly ly' ly2 fs fs' n2 Hne Hrel Hf' Hgr Hfr Hf Hf2 Hnd)
    as (H1 & H2 & H3).
  exists w', n', ly', fs'. split; [exact E|]. split; [done|]. split; [done|]. split; [done|].
  split; [done|]. by destruct Hfr.
Qed.

(** A second, empty file next to the written one. *)
Definition sample_two : world := state_of (udbfs_create_inode sample_written).

Lemma sample_two_ok :
  file_ok 16 sample_two 2 (sample_inode sample_two 2) sample_written_layout (drop 3 sample_free) ∧
  file_ok 16 sample_two 3 (sample_inode sample_two 3) empty_layout (drop 3 sample_free).
Proof. split; sample_file [0; 0; 0; 0; 248; 255; 255; 254]. Qed.

Lemma write_isolates_witness :
  ∃ w' n' ly' fs',
    udbfs_write_to_inode (Some 3%positive) (sample_data 700) (zlen (sample_data 700)) sample_two =
      Ok (zlen (sample_data 700)) w' ∧
    file_ok 16 w' 3 n' ly' fs' ∧
    file_ok 16 w' 2 (sample_inode sample_two 2) sample_written_layout fs' ∧
    NoDup (ly_data sample_written_layout ++ ly_meta sample_written_layout ++
           ly_data ly' ++ ly_meta ly' ++ fs') ∧
    content 16 (dev_bytes w') (ly_data sample_written_layout) (i_size (sample_inode sample_two 2)) =
      content 16 (dev_bytes sample_two) (ly_data sample_written_layout)
        (i_size (sample_inode sample_two 2)) ∧
    ∀ p, 0 ≤ p → p / bsize 16 ∉ ly_data ly' →
      byte_at (dev_bytes w') p = byte_at (dev_bytes sample_two) p.
Proof.
  destruct sample_two_ok as [H1 H2].
  apply (write_isolates 16 sample_two 3 2 (sample_inode sample_two 3) (sample_inode sample_two 2)
    empty_layout sample_written_layout (drop 3 sample_free) 6 (sample_data 700)).
  - exact H2.
  - exact H1.
  - done.
  - apply (bool_decide_unpack _). by vm_compute.
  - by vm_compute.
  - by vm_compute.
  - vm_compute. lia.
  - by vm_compute.
Defined.

(** ** Blocks and their places *)

(** C5: extending a file appends the first free block to its data blocks,
    takes the index blocks it needs from the free blocks that follow, and
    leaves the index trees of the extended layout: the code refines
    [ext_layout]. *)
Theorem extend_refines_layout Ln l w n ly d fs ly' fs' :
  ext_env w Ln → alloc_ok w (d :: fs) → Forall (id_ok Ln) (d :: fs) →
  w_inodes w !! l = Some n → has_layout Ln (mkblock Ln l) n ly → layout_ok Ln ly →
  ext_layout Ln ly d fs = Some (ly', fs') →
  ∃ w' n' path b, udbfslib_extend_inode l w = Ok (Some path) w' ∧ alloc_ok w' fs' ∧
    w_inodes w' = <[l := n']> (w_inodes w) ∧ same_file n n' ∧
    has_layout Ln (mkblock Ln l) n' ly' ∧ slot_at n' path = Ptr b ∧ b_id b = d.
Proof.
  intros. destruct (extend_inode_ok Ln l w n ly d fs ly' fs')
    as (w' & n' & path & E & Hal & (w1 & Hr & ->) & Hs & Hly & b & Hb & Hid); try done.
  exists (set_w_inodes (<[l:=n']> (w_inodes w)) w1), n', path, b. by split_and!.
Qed.

(** The four direct blocks are in use. *)
Definition sample_full_direct : world :=
  state_of (udbfs_write_to_inode (Some 2%positive) (sample_data 512) 512 sample_created).

Lemma sample_full_direct_ok :
  file_ok 16 sample_full_direct 2 (sample_inode sample_full_direct 2)
    (Layout [32; 33; 34; 35] None None None) (drop 4 sample_free).
Proof. sample_file [0; 0; 0; 0; 240; 255; 255; 254]. Qed.

Lemma extend_refines_layout_witness :
  ∃ w' n' path b, udbfslib_extend_inode 2 sample_full_direct = Ok (Some path) w' ∧
    alloc_ok w' (drop 6 sample_free) ∧
    w_inodes w' = <[2%positive := n']> (w_inodes sample_full_direct) ∧
    same_file (sample_inode sample_full_direct 2) n' ∧
    has_layout 16 (mkblock 16 2) n' (Layout [32; 33; 34; 35] (Some (37, [36])) None None) ∧
    slot_at n' path = Ptr b ∧ b_id b = 36.
Proof.
  pose proof sample_full_direct_ok as [Henv Hd Hal Hn Hly Hok Hnd Hids Hc Hb].
  apply (extend_refines_layout 16 2 sample_full_direct (sample_inode sample_full_direct 2)
    (Layout [32; 33; 34; 35] None None None) 36 (drop 5 sample_free)).
  - exact Henv.
  - exact Hal.
  - eapply on_device_id_ok; [exact (proj2 Hd)|].
    apply Forall_app in Hids as [_ Hids]. exact Hids.
  - exact Hn.
  - exact Hly.
  - exact Hok.
  - by vm_compute.
Defined.

(** C6: the block the code selects for the cursor is the reference mapping
    from the cursor's block number to a place in the index trees; below the
    file's number of blocks that place holds exactly this block, and behind
    it a null pointer. *)
Theorem select_finds_block Ln w l n ly fs :
  file_ok Ln w l n ly fs →
  let j := i_cursor n / bsize Ln in
  j < Z.of_nat (max_blocks Ln) →
  ∃ path, logical_path Ln j = Some path ∧
    slot_at n path = slot_of (mkblock Ln l) (ly_data ly !! Z.to_nat j) (bsize Ln * j) ∧
    udbfslib_select_active_inode_block (w_mnt w) n w =
      Ok (if bool_decide (j < zlen (ly_data ly)) then Some path else None) w.
Proof.
  intros [[Hg _] Hd Hal Hn Hly Hok Hnd Hids Hc Hb] j Hj.
  pose proof (geo_links _ _ Hg) as HLn.
  destruct (geometry_bounds Ln HLn) as (B1 & B2 & B3 & B4 & B5 & B6 & B7).
  assert (0 ≤ j) as Hj0 by (apply Z.div_pos; lia).
  destruct (logical_path_slot Ln (mkblock Ln l) ltac:(lia) n ly j Hok Hly) as (path & Hp & Hs); [lia|].
  exists path. split; [done|]. split; [done|].
  assert (i_cursor n < 2 ^ 64) as Hc64.
  { replace j with (Z.of_nat (Z.to_nat j)) in Hp by lia.
    pose proof (path_offset_bound Ln HLn _ _ Hp) as Hx. rewrite Z2Nat.id in Hx by lia.
    pose proof (Z.mul_succ_div_gt (i_cursor n) (bsize Ln) ltac:(lia)). fold j in Hx |- *. unfold j in *. lia. }
  rewrite (select_logical_path (w_mnt w) Ln Hg) by lia. fold j. rewrite Hp.
  unfold return_slot. rewrite Hs. unfold zlen.
  destruct (ly_data ly !! Z.to_nat j) as [id|] eqn:E.
  - apply lookup_lt_Some in E. by rewrite bool_decide_true by lia.
  - apply lookup_ge_None in E. by rewrite bool_decide_false by lia.
Qed.

Lemma select_finds_block_witness :
  let j := i_cursor sample_rewound_inode / bsize 16 in
  ∃ path, logical_path 16 j = Some path ∧
    slot_at sample_rewound_inode path =
      slot_of (mkblock 16 2) (ly_data sample_written_layout !! Z.to_nat j) (bsize 16 * j) ∧
    udbfslib_select_active_inode_block (w_mnt sample_rewound) sample_rewound_inode sample_rewound =
      Ok (if bool_decide (j < zlen (ly_data sample_written_layout)) then Some path else None)
        sample_rewound.
Proof.
  apply (select_finds_block 16 sample_rewound 2 sample_rewound_inode sample_written_layout
    (drop 3 sample_free)).
  - exact sample_rewound_ok.
  - by vm_compute.
Defined.

(** ** Creating *)

(** C13: creating a file takes the first free inode number, registers the
    inode at the head of the opened ones, and yields an empty well-formed
    file whose slot in the inode table is [64 * id] bytes in. *)
Theorem create_makes_empty_file Ln w fs id ids opened :
  mount_ok Ln w fs (id :: ids) opened → 0 < id →
  0 ≤ m_inode_table_offset (w_mnt w) → m_inode_table_offset (w_mnt w) + 64 * id < 2 ^ 63 →
  let l := w_next_loc w in
  ∃ w' n', udbfs_create_inode w = Ok (Some l) w' ∧
    file_ok Ln w' l n' empty_layout fs ∧ i_id n' = id ∧ i_size n' = 0 ∧ i_cursor n' = 0 ∧
    i_physical_offset n' = m_inode_table_offset (w_mnt w) + 64 * id ∧
    mount_ok Ln w' fs ids (l :: opened) ∧ dev_bytes w' = dev_bytes w.
Proof.
  intros Hm Hid H0 H1 l. destruct (create_inode_ok Ln w fs id ids opened Hm Hid H1 H0)
    as (w' & n' & E & Hf & ? & ? & ? & ? & Hm' & Hd & _).
  exists w', n'. rewrite Hd. by split_and!.
Qed.

Lemma sample_mounted_ok :
  mount_ok 16 sample_mounted sample_free (free_bits sample_inode_bitmap) [].
Proof.
  split.
  - split; [split; vm_compute; first [done|by split]|by vm_compute].
  - split; by vm_compute.
  - exists sample_block_bitmap. split; [by vm_compute|].
    split; [split; [|by vm_compute]; repeat constructor; done|].
    split; [by vm_compute|]. split; [by vm_compute|]. by vm_compute.
  - apply (bool_decide_unpack _). by vm_compute.
  - exists sample_inode_bitmap. split; [by vm_compute|].
    split; [split; [|by vm_compute]; repeat constructor; done|].
    split; [by vm_compute|]. split; [by vm_compute|]. by vm_compute.
  - split; [by vm_compute|constructor].
  - constructor.
Qed.

Lemma create_makes_empty_file_witness :
  let l := w_next_loc sample_mounted in
  ∃ w' n', udbfs_create_inode sample_mounted = Ok (Some l) w' ∧
    file_ok 16 w' l n' empty_layout sample_free ∧ i_id n' = 1 ∧ i_size n' = 0 ∧
    i_cursor n' = 0 ∧
    i_physical_offset n' = m_inode_table_offset (w_mnt sample_mounted) + 64 * 1 ∧
    mount_ok 16 w' sample_free (tail (free_bits sample_inode_bitmap)) [l] ∧
    dev_bytes w' = dev_bytes sample_mounted.
Proof.
  apply (create_makes_empty_file 16 sample_mounted sample_free 1
    (tail (free_bits sample_inode_bitmap)) []).
  - exact sample_mounted_ok.
  - by vm_compute.
  - by vm_compute.
  - by vm_compute.
Defined.
