(* ===== verification/PersistSpec.v ===== *)
(** * The contract of closing and opening files

    Closing an inode puts its index trees and its record on the device;
    opening it rebuilds the trees and the content. *)
From S2P Require Import Prelude Posix Bitmap LinkList UdbfsTypes BlockLoad.
From S2P Require Import InodeBlocks InodeIO Mount Layout Content Paths ExtendProofs.
From S2P Require Import Files Persist Sample UdbfsSpec.
Local Open Scope Z_scope.

(** C7: closing the file at the head of the opened ones writes its 64-byte
    record into its slot of the inode table and every index block of its
    trees as the words of its entries; nothing else on the device changes
    and the inode's memory is released. *)
Theorem close_writes_layout Ln l w n ly fs rest :
  file_ok Ln w l n ly fs → dll (w_ilinks w) (m_opened_inodes (w_mnt w)) (l :: rest) →
  slot_free Ln (i_physical_offset n) (ly_data ly ++ ly_meta ly) (dev_bytes w) →
  i_size n < 2 ^ 64 →
  ∃ w', udbfs_close_inode (Some l) w = Ok 0 w' ∧
    disk_layout Ln (dev_bytes w') (i_physical_offset n) (i_size n) ly ∧
    frame_but Ln (ly_meta ly) (i_physical_offset n) sizeof_inode (dev_bytes w) (dev_bytes w') ∧
    w_inodes w' !! l = None ∧ w_ilinks w' !! l = None.
Proof.
  intros Hf Hd Hs Hz. pose proof (geo_links _ _ (env_geo _ _ (fo_env _ _ _ _ _ _ Hf))) as HLn.
  destruct (close_inode_ok Ln l HLn w n ly fs rest Hf Hd Hs Hz)
    as (dev' & pos & root' & links' & E & _ & H1 & H2).
  eexists. split; [exact E|]. split; [done|]. split; [done|].
  split; apply lookup_delete_eq.
Qed.

Lemma close_writes_layout_witness :
  ∃ w', udbfs_close_inode (Some 2%positive) sample_written = Ok 0 w' ∧
    disk_layout 16 (dev_bytes w') (i_physical_offset (sample_inode sample_written 2))
      (i_size (sample_inode sample_written 2)) sample_written_layout ∧
    frame_but 16 (ly_meta sample_written_layout)
      (i_physical_offset (sample_inode sample_written 2)) sizeof_inode
      (dev_bytes sample_written) (dev_bytes w') ∧
    w_inodes w' !! 2%positive = None ∧ w_ilinks w' !! 2%positive = None.
Proof.
  apply (close_writes_layout 16 2 sample_written (sample_inode sample_written 2)
    sample_written_layout (drop 3 sample_free) []).
  - exact sample_written_ok.
  - split; [|repeat constructor; set_solver]. split; [by vm_compute|].
    exists None. split; [by vm_compute|done].
  - split; [by vm_compute|]. split; [by vm_compute|]. intros p Hp.
    change (i_physical_offset (sample_inode sample_written 2)) with 2112 in Hp.
    unfold sizeof_inode in Hp. change (bsize 16) with 128.
    assert (p / 128 = 16) as -> by (symmetry; apply Z.div_unique with (p - 2048); lia).
    apply (bool_decide_unpack _). by vm_compute.
  - by vm_compute.
Defined.

(** C3: a file that is closed and opened again holds what it held: a read
    from the new inode returns the content the file had before it was
    closed.  When its four direct blocks are in use, the reopened file is
    well-formed in every respect, with the cursor at its start. *)
Theorem close_open_read Ln l w n ly fs size :
  file_ok Ln w l n ly fs → dll (w_ilinks w) (m_opened_inodes (w_mnt w)) [l] →
  slot_free Ln (i_physical_offset n) (ly_data ly ++ ly_meta ly) (dev_bytes w) →
  i_physical_offset n = m_inode_table_offset (w_mnt w) + 64 * i_id n →
  0 ≤ 64 * i_id n < 2 ^ 64 → i_size n < 2 ^ 31 → 0 ≤ size < 2 ^ 32 →
  let k := Z.min size (i_size n) in
  ∃ w1 l' w2 n' w3, udbfs_close_inode (Some l) w = Ok 0 w1 ∧
    udbfs_open_inode (i_id n) w1 = Ok (Some l') w2 ∧
    udbfs_read_from_inode (Some l') size w2 =
      Ok (k, take (Z.to_nat k) (content Ln (dev_bytes w) (ly_data ly) (i_size n))) w3 ∧
    (length (ly_direct ly) = 4%nat →
      file_ok Ln w2 l' n' ly fs ∧ i_cursor n' = 0 ∧ i_size n' = i_size n).
Proof.
  intros Hf Hd Hs Hoff Hid Hz Hsize k.
  pose proof Hf as [[Hg Hm] _ _ Hn _ Hok Hnd Hids Hc Hb]. pose proof (geo_links _ _ Hg) as HLn.
  destruct (reopen_ok Ln l HLn w n ly fs Hf Hd Hs ltac:(lia) Hm Hoff Hid)
    as (w1 & E1 & Hle & Hnl & Hno & Hto & Hal & Hlen & Hdl & Hct).
  destruct Hs as (Hs1 & Hs2 & _).
  assert (∀ ids, Forall (on_device Ln (dev_bytes w)) ids →
    Forall (on_device Ln (dev_bytes w1)) ids) as Hon.
  { intros ids H. eapply Forall_impl; [exact H|]. intros x. unfold on_device, zlen. by rewrite Hlen. }
  assert (Forall (on_device Ln (dev_bytes w1)) (ly_data ly ++ ly_meta ly)) as Hon1.
  { apply Hon. rewrite app_assoc in Hids. by apply Forall_app in Hids as [? _]. }
  destruct (open_inode_ok Ln (w_next_loc w1) HLn w1 (i_id n) (i_physical_offset n) (i_size n) ly Hle
    eq_refl) as (pos & n' & links & E2 & Hi & Hsz & Hcu & Hpo & H1 & H2 & H3 & H4); try done.
  { unfold head_live. by rewrite Hno. }
  { by rewrite Hto. }
  { unfold zlen. by rewrite Hlen. }
  { lia. }
  set (w2 := set_w_ilinks links _) in E2.
  assert (w_inodes w2 !! w_next_loc w1 = Some n') as Hn' by apply lookup_insert_eq.
  assert (geometry (w_mnt w2) Ln) as Hg2 by (by destruct Hle as [[] _ _]).
  assert (dev_ok (w_dev w2)) as Hd2 by (by destruct Hle as [_ _ []]).
  assert (file_view Ln w2 (w_next_loc w1) n' (ly_data ly)) as Hv.
  { split; try done.
    - intros j id Hj. by apply (opened_blocks Ln (w_next_loc w1) HLn n' ly).
    - by apply Forall_app in Hon1 as [? _].
    - rewrite Hcu, Hsz. lia. }
  destruct (read_from_inode_ok Ln (w_next_loc w1) w2 n' (ly_data ly) size Hv Hsize) as (pos3 & E3);
    [lia|].
  rewrite Hcu, Hsz, Z.sub_0_r in E3. fold k in E3.
  change (dev_bytes w2) with (dev_bytes w1) in E3. rewrite Hct in E3.
  eexists w1, (w_next_loc w1), w2, n', _. split; [done|]. split; [done|]. split; [exact E3|].
  intros H5. split; [|done]. split; try done.
  - split; [done|by destruct Hle].
  - rewrite opened_direct_full in H1 by done. by split.
  - by apply Hon.
  - lia.
  - lia.
Qed.

(** A file of seven blocks, three of them behind the single indirection. *)
Definition sample_indirect : world :=
  state_of (udbfs_write_to_inode (Some 2%positive) (sample_data 800) 800 sample_created).

Definition sample_indirect_layout : layout :=
  Layout [32; 33; 34; 35] (Some (37, [36; 38; 39])) None None.

Lemma sample_indirect_ok :
  file_ok 16 sample_indirect 2 (sample_inode sample_indirect 2) sample_indirect_layout
    (drop 8 sample_free).
Proof. sample_file [0; 0; 0; 0; 0; 255; 255; 254]. Qed.

Lemma close_open_read_witness :
  let n := sample_inode sample_indirect 2 in
  let k := Z.min 1000 (i_size n) in
  ∃ w1 l' w2 n' w3, udbfs_close_inode (Some 2%positive) sample_indirect = Ok 0 w1 ∧
    udbfs_open_inode (i_id n) w1 = Ok (Some l') w2 ∧
    udbfs_read_from_inode (Some l') 1000 w2 =
      Ok (k, take (Z.to_nat k) (content 16 (dev_bytes sample_indirect)
        (ly_data sample_indirect_layout) (i_size n))) w3 ∧
    (length (ly_direct sample_indirect_layout) = 4%nat →
      file_ok 16 w2 l' n' sample_indirect_layout (drop 8 sample_free) ∧
      i_cursor n' = 0 ∧ i_size n' = i_size n).
Proof.
  apply (close_open_read 16 2 sample_indirect (sample_inode sample_indirect 2)
    sample_indirect_layout (drop 8 sample_free) 1000).
  - exact sample_indirect_ok.
  - split; [|repeat constructor; set_solver]. split; [by vm_compute|].
    exists None. split; [by vm_compute|done].
  - split; [by vm_compute|]. split; [by vm_compute|]. intros p Hp.
    change (i_physical_offset (sample_inode sample_indirect 2)) with 2112 in Hp.
    unfold sizeof_inode in Hp. change (bsize 16) with 128.
    assert (p / 128 = 16) as -> by (symmetry; apply Z.div_unique with (p - 2048); lia).
    apply (bool_decide_unpack _). by vm_compute.
  - by vm_compute.
  - by vm_compute.
  - by vm_compute.
  - by vm_compute.
Defined.

(** a file of fewer than four blocks is opened with a block structure
    for each zero word of its record as well, so when its blocks are full
    and it is read to its end, the next append is not given a new block: it
    overwrites the first bytes of the device and reports success. *)
Theorem reopened_append_hits_block_zero Ln w id size ids data :
  let off := m_inode_table_offset (w_mnt w) + 64 * id in
  load_env Ln w → m_opened_inodes (w_mnt w) = None →
  0 ≤ 64 * id < 2 ^ 64 → 0 ≤ off → off + sizeof_inode ≤ zlen (dev_bytes w) →
  (length ids < 4)%nat → Forall (on_device Ln (dev_bytes w)) ids →
  size = bsize Ln * zlen ids →
  disk_layout Ln (dev_bytes w) off size (Layout ids None None None) →
  0 < zlen data ≤ bsize Ln → bsize Ln ≤ zlen (dev_bytes w) →
  ∃ l w1 got w2 w3, udbfs_open_inode id w = Ok (Some l) w1 ∧
    udbfs_read_from_inode (Some l) size w1 = Ok (size, got) w2 ∧
    udbfs_write_to_inode (Some l) data (zlen data) w2 = Ok (zlen data) w3 ∧
    dev_bytes w3 = dsplice 0 data (dev_bytes w).
Proof.
  intros off Hle Hno Hid Ho Hoe Hlen Hon Hsz Hdl Hdata Hdev.
  pose proof Hle as [Hg Hm Hd]. pose proof (geo_links _ _ Hg) as HLn.
  destruct (geometry_bounds Ln HLn) as (B1 & _).
  assert (0 ≤ size ≤ 3 * bsize Ln) as Hs3 by (unfold zlen in *; nia).
  assert (layout_ok Ln (Layout ids None None None)) as Hok.
  { split; simpl; try done; lia. }
  destruct (open_inode_ok Ln (w_next_loc w) HLn w id off size
    (Layout ids None None None) Hle eq_refl)
    as (pos & n' & links & E1 & Hi & Hsz' & Hcu & Hpo & H1 & H2 & H3 & H4); try done.
  { unfold head_live. by rewrite Hno. }
  { lia. }
  { unfold ly_data, ly_meta. simpl. by rewrite !app_nil_r. }
  set (w1 := set_w_ilinks links _) in E1.
  assert (w_inodes w1 !! w_next_loc w = Some n') as Hn' by apply lookup_insert_eq.
  assert (geometry (w_mnt w1) Ln) as Hg1 by (by destruct Hg).
  assert (dev_ok (w_dev w1)) as Hd1 by (by destruct Hd).
  assert (file_view Ln w1 (w_next_loc w) n' ids) as Hv.
  { split; try done.
    - intros j i Hj. apply (opened_blocks Ln (w_next_loc w) HLn n' (Layout ids None None None));
        try done. unfold ly_data. simpl. by rewrite !app_nil_r.
    - rewrite Hcu, Hsz'. lia. }
  destruct (read_from_inode_ok Ln (w_next_loc w) w1 n' ids size Hv) as (pos2 & E2); [lia..|].
  rewrite Hcu, Hsz', Z.sub_0_r, Z.min_id, Z.add_0_l in E2.
  destruct (write_block_zero Ln (w_next_loc w) (set_cursor_at (w_next_loc w) n' size pos2 w1)
    (set_i_cursor size n') ids data) as (w3 & E3 & Hw3); try done.
  { apply lookup_insert_eq. }
  eexists _, w1, _, _, w3. by split_and!.
Qed.

(** Two blocks written and the file closed. *)
Definition sample_closed : world :=
  state_of (udbfs_close_inode (Some 2%positive)
    (state_of (udbfs_write_to_inode (Some 2%positive) (sample_data 256) 256 sample_created))).

Lemma reopened_append_hits_block_zero_witness :
  ∃ l w1 got w2 w3, udbfs_open_inode 1 sample_closed = Ok (Some l) w1 ∧
    udbfs_read_from_inode (Some l) 256 w1 = Ok (256, got) w2 ∧
    udbfs_write_to_inode (Some l) (sample_data 64) (zlen (sample_data 64)) w2 =
      Ok (zlen (sample_data 64)) w3 ∧
    dev_bytes w3 = dsplice 0 (sample_data 64) (dev_bytes sample_closed).
Proof.
  apply (reopened_append_hits_block_zero 16 sample_closed 1 256 [32; 33] (sample_data 64)).
  - split; [|by vm_compute|split; by vm_compute]. split; vm_compute; first [done|by split].
  - by vm_compute.
  - by vm_compute.
  - by vm_compute.
  - by vm_compute.
  - vm_compute. lia.
  - apply (bool_decide_unpack _). by vm_compute.
  - by vm_compute.
  - split; [by vm_compute|intros ? [=]..].
  - by vm_compute.
  - by vm_compute.
Defined.
