(* ===== verification/MountSpec.v ===== *)
(** * The contract of mounting

    What [udbfs_mount] derives from a superblock, when the invariant of the
    mounted file system holds afterwards, what unmounting writes back, and
    the failure path. *)
From S2P Require Import Prelude Posix Bitmap LinkList UdbfsTypes BlockLoad.
From S2P Require Import InodeBlocks InodeIO Mount Layout Content Paths ExtendProofs Files Sample.
Local Open Scope Z_scope.

(** ** The geometry of a superblock *)

Definition log_links (sb : superblock) : Z := sb_block_size sb + 4.
Definition sb_bytes (sb : superblock) : Z := 2 ^ (sb_block_size sb + 7).
Definition sb_bitmap_offset (sb : superblock) : Z := sb_bitmaps_block sb * sb_bytes sb.
Definition bitmap_bytes (count : Z) : Z := (count + 7) / 8.

(** A superblock the code accepts, that lies on the device together with
    its bitmaps. *)
Record on_volume (sb : superblock) (dev : list Z) : Prop := {
  ov_ok : superblock_ok sb;
  ov_valid : superblock_valid sb = true;
  ov_here : dread dev 1024 sizeof_superblock = encode_superblock sb;
  ov_blocks : sb_block_count sb + 7 < 2 ^ 64 ∧ sb_inode_count sb + 7 < 2 ^ 64;
  ov_bitmaps : sb_bitmap_offset sb + bitmap_bytes (sb_block_count sb) +
               bitmap_bytes (sb_inode_count sb) ≤ zlen dev;
  ov_front : 1024 + sizeof_superblock ≤ sb_bitmap_offset sb
}.

Lemma superblock_valid_range sb :
  superblock_ok sb → superblock_valid sb = true →
  0 ≤ sb_block_size sb ≤ 20 ∧ 0 ≤ sb_free_block_count sb ≤ sb_block_count sb ∧
  0 ≤ sb_free_inode_count sb ≤ sb_inode_count sb.
Proof.
  intros [Hw Hb] Hv. unfold superblock_valid in Hv.
  repeat match goal with H : Forall _ (_ :: _) |- _ => apply Forall_cons in H as [? H] end.
  repeat case_match; try done. lia.
Qed.

Lemma size_cases z : 0 ≤ z ≤ 20 → z ∈ seqZ 0 21.
Proof. intros Hz. apply elem_of_seqZ. lia. Qed.

Lemma fill_mount_block sb m :
  0 ≤ sb_block_size sb ≤ 20 →
  m_block_size (fill_mount sb m) = sb_bytes sb ∧ m_log_block_size (fill_mount sb m) =
    sb_block_size sb + 7.
Proof.
  intros Hr. unfold sb_bytes. cbn [fill_mount m_block_size m_log_block_size].
  apply size_cases in Hr. revert Hr. generalize (sb_block_size sb). apply Forall_forall.
  repeat constructor.
Qed.

Lemma mount_storages_ok sb m :
  superblock_ok sb → superblock_valid sb = true →
  let m' := set_storages (fill_mount sb m) in let s := sb_block_size sb in
  m_dir_storage m' = 4 * sb_bytes sb ∧
  m_ind_storage m' = 2 ^ (s + 4) * sb_bytes sb ∧
  m_bind_storage m' = (if s <=? 16 then 2 ^ (s + 4) * 2 ^ (s + 4) * sb_bytes sb else 0) ∧
  m_tind_storage m' =
    (if s <=? 11 then 2 ^ (s + 4) * 2 ^ (s + 4) * 2 ^ (s + 4) * sb_bytes sb else 0).
Proof.
  intros Hok Hv m' s. destruct (superblock_valid_range sb Hok Hv) as (Hr & _).
  destruct (fill_mount_block sb m Hr) as [Hb _]. subst m'. unfold set_storages.
  rewrite Hb. unfold sb_bytes. cbn [m_dir_storage m_ind_storage m_bind_storage m_tind_storage
    set_m_tind_storage set_m_bind_storage set_m_ind_storage set_m_dir_storage].
  fold s in Hr |- *. apply size_cases in Hr. revert Hr. generalize s. apply Forall_forall.
  repeat constructor.
Qed.

(** the storage below each level of indirection that a mount computes
    from a superblock it accepts.  With [2^(s+4)] links per block the single
    and direct figures are right for every accepted block size; the double
    one wraps to 0 from [s = 17] on and the triple one from [s = 12] on, so
    files on such volumes end at the smaller levels. *)
Theorem mount_storages sb m :
  superblock_ok sb → superblock_valid sb = true →
  let m' := set_storages (fill_mount sb m) in let s := sb_block_size sb in
  m_dir_storage m' = 4 * sb_bytes sb ∧
  m_ind_storage m' = 2 ^ (s + 4) * sb_bytes sb ∧
  m_bind_storage m' = (if s <=? 16 then 2 ^ (s + 4) * 2 ^ (s + 4) * sb_bytes sb else 0) ∧
  m_tind_storage m' =
    (if s <=? 11 then 2 ^ (s + 4) * 2 ^ (s + 4) * 2 ^ (s + 4) * sb_bytes sb else 0).
Proof. apply mount_storages_ok. Qed.

Lemma sample_superblock_ok : superblock_ok sample_superblock.
Proof. split; apply (bool_decide_unpack _); by vm_compute. Qed.

Lemma mount_storages_witness :
  let m' := set_storages (fill_mount sample_superblock junk_mount) in
  let s := sb_block_size sample_superblock in
  m_dir_storage m' = 4 * sb_bytes sample_superblock ∧
  m_ind_storage m' = 2 ^ (s + 4) * sb_bytes sample_superblock ∧
  m_bind_storage m' =
    (if s <=? 16 then 2 ^ (s + 4) * 2 ^ (s + 4) * sb_bytes sample_superblock else 0) ∧
  m_tind_storage m' = (if s <=? 11
    then 2 ^ (s + 4) * 2 ^ (s + 4) * 2 ^ (s + 4) * sb_bytes sample_superblock else 0).
Proof.
  apply (mount_storages sample_superblock junk_mount).
  - exact sample_superblock_ok.
  - by vm_compute.
Defined.

(** ** Mounting a volume *)

Lemma bitmap_size_shift z : 0 ≤ z → z + 7 < 2 ^ 64 →
  Z.shiftr (u64 (z + 7)) 3 = bitmap_bytes z ∧ 0 ≤ bitmap_bytes z.
Proof.
  intros H0 H. rewrite u64_small by lia. rewrite Z.shiftr_div_pow2 by lia.
  change (2 ^ 3) with 8. unfold bitmap_bytes. split; [done|]. apply Z.div_pos; lia.
Qed.

(** The figures of a mount of a volume, without wrap-around. *)
Lemma on_volume_offsets sb dev m :
  on_volume sb dev → zlen dev < 2 ^ 62 → let m := fill_mount sb m in
  m_block_bitmap_offset m = sb_bitmap_offset sb ∧
  m_block_bitmap_size m = bitmap_bytes (sb_block_count sb) ∧
  m_inode_bitmap_offset m = sb_bitmap_offset sb + bitmap_bytes (sb_block_count sb) ∧
  m_inode_bitmap_size m = bitmap_bytes (sb_inode_count sb) ∧
  0 ≤ bitmap_bytes (sb_block_count sb) ∧ 0 ≤ bitmap_bytes (sb_inode_count sb).
Proof.
  intros [Hok Hv _ [H1 H2] Hb Hf] Hz m'.
  destruct (superblock_valid_range sb Hok Hv) as (Hr & [? ?] & [? ?]).
  destruct (fill_mount_block sb m Hr) as [Hbs _].
  destruct (bitmap_size_shift (sb_block_count sb)) as [E1 P1]; [lia..|].
  destruct (bitmap_size_shift (sb_inode_count sb)) as [E2 P2]; [lia..|].
  assert (m_block_bitmap_offset m' = sb_bitmap_offset sb) as E3.
  { subst m'. cbn [fill_mount m_block_bitmap_offset m_block_size] in *. rewrite Hbs.
    fold (sb_bitmap_offset sb). unfold sizeof_superblock in Hf. apply u64_small. lia. }
  split; [done|]. split; [done|]. split; [|by split_and!].
  transitivity (u64 (m_block_bitmap_offset m' + m_block_bitmap_size m')); [done|].
  rewrite E3. change (m_block_bitmap_size m') with (Z.shiftr (u64 (sb_block_count sb + 7)) 3).
  rewrite E1. unfold sizeof_superblock in Hf. apply u64_small. lia.
Qed.

(** A state in which a mount can succeed: the device opens, memory is
    available, the volume is there, no file is opened. *)
Record mountable (sb : superblock) (w : world) : Prop := {
  mb_fd : 0 < w_host_fd w;
  mb_mallocs : w_mallocs w = [];
  mb_size : zlen (d_bytes (w_dev w)) < 2 ^ 62;
  mb_volume : on_volume sb (d_bytes (w_dev w));
  mb_devices : w_mounted_devices w = None
}.

(** The mount structure after [udbfs_mount]. *)
Definition mounted (sb : superblock) (w : world) : mount :=
  let dev := d_bytes (w_dev w) in
  let n1 := bitmap_bytes (sb_block_count sb) in
  set_storages
    (set_m_inode_bitmap
      (Some (dread dev (sb_bitmap_offset sb + n1) (bitmap_bytes (sb_inode_count sb))))
      (set_m_block_bitmap (Some (dread dev (sb_bitmap_offset sb) n1))
        (fill_mount sb (default_mount (w_host_fd w) (w_mnt w))))).

Lemma mounted_storage sb w :
  let m := set_storages (fill_mount sb (default_mount (w_host_fd w) (w_mnt w))) in
  m_block_size (mounted sb w) = m_block_size (fill_mount sb (default_mount (w_host_fd w) (w_mnt w))) ∧
  m_dir_storage (mounted sb w) = m_dir_storage m ∧ m_ind_storage (mounted sb w) = m_ind_storage m ∧
  m_bind_storage (mounted sb w) = m_bind_storage m ∧
  m_tind_storage (mounted sb w) = m_tind_storage m.
Proof. unfold mounted. generalize (fill_mount sb (default_mount (w_host_fd w) (w_mnt w))).
  intros m. cbv zeta. by split_and!. Qed.

Lemma mounted_geometry sb w Ln :
  superblock_ok sb → superblock_valid sb = true → sb_block_size sb ≤ 11 →
  Z.of_nat Ln = 2 ^ (sb_block_size sb + 4) → geometry (mounted sb w) Ln.
Proof.
  intros Hok Hval Hs HL. set (m0 := default_mount (w_host_fd w) (w_mnt w)).
  destruct (superblock_valid_range sb Hok Hval) as (Hr & _).
  destruct (fill_mount_block sb m0 Hr) as [Hbs _].
  destruct (mount_storages_ok sb m0 Hok Hval) as (G1 & G2 & G3 & G4).
  destruct (mounted_storage sb w) as (E0 & E1 & E2 & E3 & E4). fold m0 in E0, E1, E2, E3, E4.
  assert (bsize Ln = sb_bytes sb) as HB.
  { unfold bsize, sb_bytes. rewrite HL. replace (sb_block_size sb + 7) with
      (3 + (sb_block_size sb + 4)) by lia. by rewrite (Z.pow_add_r 2 3) by lia. }
  replace (sb_block_size sb <=? 16) with true in G3 by lia.
  replace (sb_block_size sb <=? 11) with true in G4 by lia.
  split; rewrite ?HB, ?HL; [|congruence..].
  change 16 with (2 ^ 4). split; apply Z.pow_le_mono_r; lia.
Qed.

Lemma validate_ok sb w :
  on_volume sb (dev_bytes w) → dev_ok (w_dev w) → w_mallocs w = [] →
  ∃ pos, udbfslib_validate_superblock w =
    Ok (Some sb) (set_w_dev (Device (dev_bytes w) pos true) w).
Proof.
  intros [Hok Hv Hh _ Hb Hf] Hd Hm. unfold udbfslib_validate_superblock.
  step_with (malloc_ok w Hm). cbn [negb].
  pose proof (zlen_nonneg (dread (dev_bytes w) 1024 sizeof_superblock)) as _.
  assert (1024 + sizeof_superblock ≤ zlen (d_bytes (get_dev w))) as Hl.
  { change (get_dev w) with (w_dev w). destruct (decide (1024 + sizeof_superblock ≤
      zlen (d_bytes (w_dev w)))) as [|C]; [done|].
    assert (zlen (dread (dev_bytes w) 1024 sizeof_superblock) = sizeof_superblock) as E.
    { rewrite Hh. apply length_encode_superblock. }
    unfold zlen, dread, sizeof_superblock in *. rewrite length_take, length_drop in E. lia. }
  step_with (read_at_ok 1024 sizeof_superblock w Hd ltac:(lia) ltac:(done) Hl).
  cbn [get_dev world_device]. rewrite Hh.
  rewrite <- (app_nil_r (encode_superblock sb)), decode_encode_superblock by done.
  rewrite Hv. by eexists.
Qed.

Lemma load_bitmaps_ok sb w m0 :
  on_volume sb (dev_bytes w) → dev_ok (w_dev w) → w_mallocs w = [] →
  w_mnt w = fill_mount sb m0 →
  let n1 := bitmap_bytes (sb_block_count sb) in
  ∃ pos, load_bitmaps w = Ok true (set_w_mnt
    (set_m_inode_bitmap
      (Some (dread (dev_bytes w) (sb_bitmap_offset sb + n1) (bitmap_bytes (sb_inode_count sb))))
      (set_m_block_bitmap (Some (dread (dev_bytes w) (sb_bitmap_offset sb) n1)) (w_mnt w)))
    (set_w_dev (Device (dev_bytes w) pos true) w)).
Proof.
  intros Hv Hd Hm Hmnt n1. pose proof Hd as [_ Hz].
  destruct (on_volume_offsets sb _ m0 Hv Hz) as (E1 & E2 & E3 & E4 & P1 & P2).
  pose proof Hv as [_ _ _ _ Hb Hf]. unfold sizeof_superblock in Hf. fold n1 in E2, E3, P1, Hb.
  unfold load_bitmaps. steps. unfold malloc_bitmap.
  rewrite bind_assoc. step_with (malloc_ok w Hm). rewrite bind_assoc. steps.
  cbn [negb]. rewrite bool_decide_eq_false_2 by done. rewrite bind_assoc.
  set (w1 := set_w_mnt _ w). step_with (malloc_ok w1 Hm). rewrite bind_assoc. steps.
  rewrite bool_decide_eq_false_2 by done. set (w2 := set_w_mnt _ w1).
  rewrite Hmnt, E1, E2, E3, E4.
  step_with (read_at_ok (sb_bitmap_offset sb) n1 w2 Hd ltac:(lia) P1
    ltac:(change (get_dev w2) with (w_dev w); lia)). steps.
  match goal with |- context [(read_at ?o ?n ≫= _) ?s] =>
       step_with (read_at_ok o n s ltac:(by split) ltac:(lia) P2
      ltac:(transitivity (zlen (dev_bytes w)); [lia|done])) end.
  steps. eexists. rewrite <- ?Hmnt. reflexivity.
Qed.

(** The state after a successful mount at address [l]. *)
Definition mounted_world (sb : superblock) (pos : Z) (w : world) : world :=
  let l := w_next_loc w in
  set_w_mlinks (<[l := Node None None]> (<[l := fresh_node]> (w_mlinks w)))
    (set_w_mounted_devices (Some l) (set_w_mnt (mounted sb w)
      (set_w_dev (Device (dev_bytes w) pos true)
        (set_w_next_loc (Pos.succ l) (set_w_mloc l w))))).

Lemma open_device_ok w : w_host_fd w ≠ -1 →
  open_device w = Ok (w_host_fd w) (set_w_dev (Device (dev_bytes w) 0 true) w).
Proof. intros H. unfold open_device. by replace (w_host_fd w =? -1) with false by lia. Qed.

Lemma mount_run sb w :
  mountable sb w → ∃ pos, udbfs_mount w = Ok (Some (w_next_loc w)) (mounted_world sb pos w).
Proof.
  intros [Hfd Hm Hz Hv Hdev]. set (l := w_next_loc w).
  unfold udbfs_mount. step_with (open_device_ok w ltac:(lia)).
  replace (w_host_fd w =? -1) with false by lia. set (w1 := set_w_dev _ w).
  step_with (malloc_ok w1 Hm). cbn [negb]. steps. fold l.
  set (w2 := set_w_mnt _ _).
  assert (dev_ok (w_dev w2)) as Hd2 by (by split).
  destruct (validate_ok sb w2 Hv Hd2 Hm) as (p1 & E1). step_with E1. steps.
  set (w3 := set_w_mnt _ _).
  destruct (load_bitmaps_ok sb w3 (default_mount (w_host_fd w) (w_mnt w)) Hv ltac:(by split) Hm
    eq_refl) as (p2 & E2).
  step_with E2. cbn [negb]. steps. unfold link_mount. rewrite bind_assoc. steps.
  rewrite bind_assoc. unfold id.
  cbn [w_mounted_devices w_mlinks set_w_mnt set_w_dev]. exists p2.
  unfold udbfslib_link.
  change (w_mounted_devices w3) with (w_mounted_devices w).
  change (w_mlinks w3) with (<[l := fresh_node]> (w_mlinks w)).
  rewrite lookup_insert_eq, Hdev. reflexivity.
Qed.

(** ** The invariant of a mounted file system *)

Definition volume_block_bitmap (sb : superblock) (dev : list Z) : list Z :=
  dread dev (sb_bitmap_offset sb) (bitmap_bytes (sb_block_count sb)).
Definition volume_inode_bitmap (sb : superblock) (dev : list Z) : list Z :=
  dread dev (sb_bitmap_offset sb + bitmap_bytes (sb_block_count sb))
    (bitmap_bytes (sb_inode_count sb)).
Definition volume_free_blocks (sb : superblock) (dev : list Z) : list Z :=
  take (Z.to_nat (sb_free_block_count sb)) (free_bits (volume_block_bitmap sb dev)).
Definition volume_free_inodes (sb : superblock) (dev : list Z) : list Z :=
  take (Z.to_nat (sb_free_inode_count sb)) (free_bits (volume_inode_bitmap sb dev)).

Lemma dread_byte_ok dev off n : Forall byte_ok dev → Forall byte_ok (dread dev off n).
Proof. intros H. by apply Forall_take, Forall_drop. Qed.

Lemma bitmap_bytes_small n : n + 7 < 2 ^ 59 → bitmap_bytes n < 2 ^ 56.
Proof. intros H. unfold bitmap_bytes. apply Z.div_lt_upper_bound; lia. Qed.

Lemma mount_invariant_ok sb w Ln :
  mountable sb w → sb_block_size sb ≤ 11 → Z.of_nat Ln = 2 ^ (sb_block_size sb + 4) →
  bitmap_ok (volume_block_bitmap sb (dev_bytes w)) →
  bitmap_ok (volume_inode_bitmap sb (dev_bytes w)) →
  sb_free_block_count sb ≤ zlen (free_bits (volume_block_bitmap sb (dev_bytes w))) →
  sb_free_inode_count sb ≤ zlen (free_bits (volume_inode_bitmap sb (dev_bytes w))) →
  Forall (on_device Ln (dev_bytes w)) (volume_free_blocks sb (dev_bytes w)) →
  ∃ w', udbfs_mount w = Ok (Some (w_next_loc w)) w' ∧
    mount_ok Ln w' (volume_free_blocks sb (dev_bytes w))
      (volume_free_inodes sb (dev_bytes w)) [] ∧
    dev_bytes w' = dev_bytes w.
Proof.
  intros Hmb Hs HL Hbb Hib Hfb Hfi Hon. pose proof Hmb as [Hfd Hm Hz Hv _].
  destruct (mount_run sb w Hmb) as (pos & E). exists (mounted_world sb pos w).
  split; [done|]. split; [|done].
  pose proof Hv as [Hok Hval _ _ Hb Hf].
  destruct (superblock_valid_range sb Hok Hval) as (Hr & Hr2 & Hr3).
  set (m0 := default_mount (w_host_fd w) (w_mnt w)).
  destruct (on_volume_offsets sb _ m0 Hv Hz) as (_ & E2 & _ & E4 & P1 & P2).
  assert (0 ≤ sb_bitmap_offset sb) by (unfold sizeof_superblock in Hf; lia).
  assert (zlen (volume_block_bitmap sb (dev_bytes w)) = bitmap_bytes (sb_block_count sb)) as L1
    by (apply zlen_dread; lia).
  assert (zlen (volume_inode_bitmap sb (dev_bytes w)) = bitmap_bytes (sb_inode_count sb)) as L2
    by (apply zlen_dread; lia).
  split.
  - split; [|done]. by apply mounted_geometry.
  - by split.
  - exists (volume_block_bitmap sb (dev_bytes w)). split; [done|].
    split; [done|]. split; [rewrite L1; exact E2|].
    split; [|done]. split; [|exact Hfb]. apply Hr2.
  - exact Hon.
  - exists (volume_inode_bitmap sb (dev_bytes w)). split; [done|].
    split; [done|]. split; [rewrite L2; exact E4|].
    split; [|done]. split; [|exact Hfi]. apply Hr3.
  - split; [done|constructor].
  - constructor.
Qed.

Lemma volume_bitmap_ok dev off n :
  Forall byte_ok dev → zlen dev < 2 ^ 56 → bitmap_ok (dread dev off n).
Proof.
  intros Hb Hz. split; [by apply dread_byte_ok|]. unfold zlen, dread in *.
  rewrite length_take, length_drop. lia.
Qed.

(** C10: mounting a volume with blocks of up to 2^18 bytes whose superblock
    counts no more free blocks and inodes than the bitmaps have set bits,
    and whose free blocks lie on the device, establishes the invariant the
    file operations rely on; the device is not changed. *)
Theorem mount_establishes_invariant sb w Ln :
  mountable sb w → sb_block_size sb ≤ 11 → Z.of_nat Ln = 2 ^ (sb_block_size sb + 4) →
  Forall byte_ok (dev_bytes w) → zlen (dev_bytes w) < 2 ^ 56 →
  sb_free_block_count sb ≤ zlen (free_bits (volume_block_bitmap sb (dev_bytes w))) →
  sb_free_inode_count sb ≤ zlen (free_bits (volume_inode_bitmap sb (dev_bytes w))) →
  Forall (on_device Ln (dev_bytes w)) (volume_free_blocks sb (dev_bytes w)) →
  ∃ w', udbfs_mount w = Ok (Some (w_next_loc w)) w' ∧
    mount_ok Ln w' (volume_free_blocks sb (dev_bytes w))
      (volume_free_inodes sb (dev_bytes w)) [] ∧
    dev_bytes w' = dev_bytes w.
Proof.
  intros Hmb Hs HL Hbytes Hsmall Hfb Hfi Hon. apply mount_invariant_ok; try done.
  - by apply volume_bitmap_ok.
  - by apply volume_bitmap_ok.
Qed.

Lemma sample_boot_bytes : Forall byte_ok (dev_bytes sample_boot).
Proof.
  apply (Forall_impl (λ z, Is_true ((0 <=? z) && (z <? 256)))).
  - apply forallb_True. by vm_compute.
  - intros z Hz. apply Is_true_true in Hz. unfold byte_ok. lia.
Qed.

Lemma sample_mountable : mountable sample_superblock sample_boot.
Proof.
  split; [by vm_compute|by vm_compute|by vm_compute| |by vm_compute].
  split; [exact sample_superblock_ok|by vm_compute..].
Qed.

Lemma mount_establishes_invariant_witness :
  ∃ w', udbfs_mount sample_boot = Ok (Some (w_next_loc sample_boot)) w' ∧
    mount_ok 16 w' (volume_free_blocks sample_superblock (dev_bytes sample_boot))
      (volume_free_inodes sample_superblock (dev_bytes sample_boot)) [] ∧
    dev_bytes w' = dev_bytes sample_boot.
Proof.
  apply (mount_establishes_invariant sample_superblock sample_boot 16).
  - exact sample_mountable.
  - by vm_compute.
  - by vm_compute.
  - exact sample_boot_bytes.
  - by vm_compute.
  - by vm_compute.
  - by vm_compute.
  - apply (bool_decide_unpack _). by vm_compute.
Defined.

(** ** Unmounting *)

(** The superblock with another signature: [udbfs_mount] does not load that
    field. *)
Definition with_signature (s : Z) (sb : superblock) : superblock :=
  Superblock (sb_boot_loader_inode sb) (sb_inode_first_block sb) s (sb_block_count sb)
    (sb_inode_count sb) (sb_free_block_count sb) (sb_free_inode_count sb) (sb_bitmaps_block sb)
    (sb_journal_inode sb) (sb_bad_block_inode sb) (sb_magic_number sb) (sb_last_check sb)
    (sb_max_interval sb) (sb_last_mount sb) (sb_mount_count sb) (sb_max_mount_count sb)
    (sb_creator_os sb) (sb_superblock_version sb) (sb_block_size sb) (sb_inode_format sb).

Lemma mount_superblock_mounted sb w :
  0 ≤ sb_block_size sb ≤ 20 →
  mount_superblock (mounted sb w) = with_signature (m_unique_fs_signature (w_mnt w)) sb.
Proof.
  intros Hr. destruct (fill_mount_block sb (default_mount (w_host_fd w) (w_mnt w)) Hr) as [_ H].
  assert (u8 (m_log_block_size (mounted sb w) - 7) = sb_block_size sb) as E.
  { change (m_log_block_size (mounted sb w)) with (m_log_block_size
      (fill_mount sb (default_mount (w_host_fd w) (w_mnt w)))). rewrite H, u8_small; lia. }
  unfold mount_superblock. rewrite E. done.
Qed.

Lemma dsplice_dread_id off n l :
  0 ≤ off → 0 ≤ n → off + n ≤ zlen l → dsplice off (dread l off n) l = l.
Proof.
  intros H0 Hn Hl. unfold dsplice, dread, zlen in *.
  rewrite (take_ge (take _ _)) by (rewrite length_take; lia).
  rewrite length_take, length_drop. rewrite Nat.min_l by lia.
  rewrite <- drop_drop, take_drop. apply take_drop.
Qed.

Lemma save_block_bitmap_ok off bitmap w :
  m_block_bitmap (w_mnt w) = Some bitmap → m_block_bitmap_offset (w_mnt w) = off →
  dev_ok (w_dev w) → 0 ≤ off → off + zlen bitmap ≤ zlen (dev_bytes w) →
  bitmap = dread (dev_bytes w) off (zlen bitmap) →
  ∃ pos, save_block_bitmap w = Ok tt (set_w_mnt (set_m_block_bitmap None (w_mnt w))
    (set_w_dev (Device (dev_bytes w) pos true) w)).
Proof.
  intros Hb Hoff Hd Ho Hl Hs. unfold save_block_bitmap. steps. rewrite Hb, Hoff.
  step_with (write_at_ok off bitmap w Hd Ho Hl).
  pose proof (dsplice_dread_id off (zlen bitmap) (dev_bytes w) Ho (zlen_nonneg bitmap) Hl) as Hid.
  rewrite <- Hs in Hid. cbn [get_dev put_dev world_device]. rewrite Hid. by eexists.
Qed.

Lemma save_inode_bitmap_ok off bitmap w :
  m_inode_bitmap (w_mnt w) = Some bitmap → m_inode_bitmap_offset (w_mnt w) = off →
  dev_ok (w_dev w) → 0 ≤ off → off + zlen bitmap ≤ zlen (dev_bytes w) →
  bitmap = dread (dev_bytes w) off (zlen bitmap) →
  ∃ pos, save_inode_bitmap w = Ok tt (set_w_mnt (set_m_inode_bitmap None (w_mnt w))
    (set_w_dev (Device (dev_bytes w) pos true) w)).
Proof.
  intros Hb Hoff Hd Ho Hl Hs. unfold save_inode_bitmap. steps. rewrite Hb, Hoff.
  step_with (write_at_ok off bitmap w Hd Ho Hl).
  pose proof (dsplice_dread_id off (zlen bitmap) (dev_bytes w) Ho (zlen_nonneg bitmap) Hl) as Hid.
  rewrite <- Hs in Hid. cbn [get_dev put_dev world_device]. rewrite Hid. by eexists.
Qed.

(** Unmounting with no file opened and bitmaps as they are on the device. *)
Lemma unmount_ok l w bo bb io ib :
  m_opened_inodes (w_mnt w) = None → m_block_bitmap (w_mnt w) = Some bb →
  m_inode_bitmap (w_mnt w) = Some ib → m_block_bitmap_offset (w_mnt w) = bo →
  m_inode_bitmap_offset (w_mnt w) = io → m_block_device (w_mnt w) ≠ 0 → dev_ok (w_dev w) →
  0 ≤ bo → bo + zlen bb ≤ zlen (dev_bytes w) → bb = dread (dev_bytes w) bo (zlen bb) →
  0 ≤ io → io + zlen ib ≤ zlen (dev_bytes w) → ib = dread (dev_bytes w) io (zlen ib) →
  1024 + sizeof_superblock ≤ zlen (dev_bytes w) →
  w_mounted_devices w = Some l → w_mlinks w !! l = Some (Node None None) →
  ∃ w2, udbfs_unmount (Some l) w = Ok tt w2 ∧
    dev_bytes w2 = dsplice 1024 (encode_superblock (mount_superblock (w_mnt w))) (dev_bytes w) ∧
    w_mounted_devices w2 = None ∧ d_open (w_dev w2) = false.
Proof.
  intros Ho Hbb Hib Hbo Hio Hbd Hd B1 B2 B3 I1 I2 I3 Hsz Hdev Hl.
  destruct (save_block_bitmap_ok bo bb w Hbb Hbo Hd B1 B2 B3) as (p1 & S1).
  set (wa := set_w_mnt _ _) in S1.
  destruct (save_inode_bitmap_ok io ib wa Hib Hio ltac:(by destruct Hd) I1 I2 I3) as (p2 & S2).
  set (wb := set_w_mnt _ _) in S2.
  unfold udbfs_unmount. steps. cbn [close_opened]. rewrite Ho. steps.
  step_with S1. step_with S2. steps.
  replace (mount_superblock (w_mnt wb)) with (mount_superblock (w_mnt w))
    by (by destruct w as [? ? ? [] ? ? ? ? ? ? ?]).
  pose proof (length_encode_superblock (mount_superblock (w_mnt w))) as Hle.
  step_with (write_at_ok 1024 (encode_superblock (mount_superblock (w_mnt w))) wb
    ltac:(by destruct Hd) ltac:(lia)
    ltac:(rewrite Hle; change (d_bytes (get_dev wb)) with (dev_bytes w); lia)).
  change (m_block_device (w_mnt wb)) with (m_block_device (w_mnt w)).
  rewrite (proj2 (Z.eqb_neq _ _) Hbd). rewrite bind_assoc. unfold close_fd. steps.
  unfold drop_mount. steps. unfold id. cbn [w_mounted_devices w_mlinks set_w_mnt put_dev
    world_device set_w_dev wa wb].
  unfold udbfslib_unlink. rewrite Hdev, Hl. cbn [mbind option_bind n_prev n_next].
  rewrite bool_decide_eq_true_2 by done. cbn [negb]. steps. eexists. by split_and!.
Qed.

(** C11: mounting a volume and unmounting it again restores the device byte
    for byte, except for the eight bytes of the file system's signature:
    [udbfs_mount] never loads them, and whatever the uninitialised field of
    the mount structure held is written over them. *)
Theorem mount_unmount_loses_signature sb w :
  mountable sb w →
  ∃ w1 w2, udbfs_mount w = Ok (Some (w_next_loc w)) w1 ∧
    udbfs_unmount (Some (w_next_loc w)) w1 = Ok tt w2 ∧
    dev_bytes w2 = dsplice 1024
      (encode_superblock (with_signature (m_unique_fs_signature (w_mnt w)) sb)) (dev_bytes w) ∧
    w_mounted_devices w2 = None ∧ d_open (w_dev w2) = false.
Proof.
  intros Hmb. pose proof Hmb as [Hfd Hm Hz Hv Hdev].
  destruct (mount_run sb w Hmb) as (pos & E). pose proof Hv as [Hok Hval _ _ Hb Hf].
  destruct (superblock_valid_range sb Hok Hval) as (Hr & _).
  set (m0 := default_mount (w_host_fd w) (w_mnt w)).
  destruct (on_volume_offsets sb _ m0 Hv Hz) as (E1 & E2 & E3 & E4 & P1 & P2).
  unfold sizeof_superblock in Hf.
  set (n1 := bitmap_bytes (sb_block_count sb)) in *.
  set (n2 := bitmap_bytes (sb_inode_count sb)) in *.
  assert (zlen (volume_block_bitmap sb (dev_bytes w)) = n1) as L1 by (apply zlen_dread; lia).
  assert (zlen (volume_inode_bitmap sb (dev_bytes w)) = n2) as L2 by (apply zlen_dread; lia).
  destruct (unmount_ok (w_next_loc w) (mounted_world sb pos w) (sb_bitmap_offset sb)
    (volume_block_bitmap sb (dev_bytes w)) (sb_bitmap_offset sb + n1)
    (volume_inode_bitmap sb (dev_bytes w))) as (w2 & E5 & D & ? & ?).
  1-3: reflexivity.
  1: exact E1. 1: exact E3. 1: change (w_host_fd w ≠ 0); lia. 1: by split.
  1-7: rewrite ?L1, ?L2; change (dev_bytes (mounted_world sb pos w)) with (dev_bytes w);
    unfold sizeof_superblock; first [lia|reflexivity].
  1: reflexivity. 1: apply lookup_insert_eq.
  eexists _, w2. split; [exact E|]. split; [exact E5|]. split; [|done].
  rewrite D. by rewrite <- mount_superblock_mounted by done.
Qed.

Lemma mount_unmount_loses_signature_witness :
  ∃ w1 w2, udbfs_mount sample_boot = Ok (Some (w_next_loc sample_boot)) w1 ∧
    udbfs_unmount (Some (w_next_loc sample_boot)) w1 = Ok tt w2 ∧
    dev_bytes w2 = dsplice 1024
      (encode_superblock (with_signature (m_unique_fs_signature (w_mnt sample_boot))
        sample_superblock)) (dev_bytes sample_boot) ∧
    w_mounted_devices w2 = None ∧ d_open (w_dev w2) = false.
Proof.
  apply (mount_unmount_loses_signature sample_superblock sample_boot).
  exact sample_mountable.
Defined.

(** ** A mount that fails *)

(** [udbfs_unmount] after the descriptor was closed. *)
Lemma unmount_closed l w :
  m_opened_inodes (w_mnt w) = None → m_block_bitmap (w_mnt w) = None →
  m_inode_bitmap (w_mnt w) = None → d_open (w_dev w) = false → w_mounted_devices w = None →
  w_mlinks w !! l = Some fresh_node →
  ∃ w2, udbfs_unmount (Some l) w = Ok tt w2 ∧ dev_bytes w2 = dev_bytes w ∧
    d_open (w_dev w2) = false ∧ w_mounted_devices w2 = None.
Proof.
  intros Ho Hb Hi Hc Hdev Hl. unfold udbfs_unmount. steps. cbn [close_opened]. rewrite Ho. steps.
  unfold save_block_bitmap. rewrite bind_assoc. steps. rewrite Hb. steps.
  unfold save_inode_bitmap. rewrite bind_assoc. steps. rewrite Hi. steps.
  step_with (write_at_closed 1024 (encode_superblock (mount_superblock (w_mnt w))) w Hc ltac:(lia)).
  assert (∀ w', w_mounted_devices w' = None → w_mlinks w' = w_mlinks w →
    d_open (w_dev w') = false → ∃ w2, drop_mount l w' = Ok tt w2 ∧ dev_bytes w2 = dev_bytes w' ∧
      d_open (w_dev w2) = false ∧ w_mounted_devices w2 = None) as Hdrop.
  { intros w' H1 H2 H3. unfold drop_mount. steps. unfold id, udbfslib_unlink.
    rewrite H1, H2, Hl. cbn [mbind option_bind fresh_node n_prev].
    rewrite bool_decide_eq_false_2 by done. cbn [negb]. steps. by eexists. }
  destruct (m_block_device (w_mnt w) =? 0).
  - steps. by apply Hdrop.
  - rewrite bind_assoc. unfold close_fd. steps.
    match goal with |- context [drop_mount l ?s] =>
      destruct (Hdrop s) as (w2 & E & ? & ? & ?); [done..|] end.
    rewrite E. by exists w2.
Qed.

(** C14: when the superblock is not accepted, the failure path of
    [udbfs_mount] runs [udbfs_unmount] on a structure whose list of opened
    inodes was never initialised.  If that memory happens to be zero the
    mount fails cleanly: it returns NULL and the device is closed and
    unchanged; if it holds an address of no inode, the program dereferences
    it. *)
Theorem mount_failure w :
  0 < w_host_fd w → w_mallocs w = [] → zlen (dev_bytes w) < 2 ^ 62 →
  1024 + sizeof_superblock ≤ zlen (dev_bytes w) → w_mounted_devices w = None →
  superblock_valid (decode_superblock (dread (dev_bytes w) 1024 sizeof_superblock)) = false →
  (m_opened_inodes (w_mnt w) = None →
    ∃ w', udbfs_mount w = Ok None w' ∧ dev_bytes w' = dev_bytes w ∧
      d_open (w_dev w') = false ∧ w_mounted_devices w' = None) ∧
  (∀ x, m_opened_inodes (w_mnt w) = Some x → w_inodes w !! x = None → udbfs_mount w = Stuck).
Proof.
  intros Hfd Hm Hz Hsz Hdev Hval.
  assert (∃ pos, udbfs_mount w = failed_mount (w_host_fd w) (Some (w_next_loc w))
    (set_w_dev (Device (dev_bytes w) pos true)
      (set_w_mnt (default_mount (w_host_fd w) (w_mnt w)) (set_w_next_loc (Pos.succ (w_next_loc w))
        (set_w_mloc (w_next_loc w)
          (set_w_mlinks (<[w_next_loc w := fresh_node]> (w_mlinks w)) w)))))) as (pos & E).
  { unfold udbfs_mount. step_with (open_device_ok w ltac:(lia)).
    replace (w_host_fd w =? -1) with false by lia. set (w1 := set_w_dev _ w).
    step_with (malloc_ok w1 Hm). cbn [negb]. steps. set (w2 := set_w_mnt _ _).
    assert (udbfslib_validate_superblock w2 = Ok None
      (set_w_dev (Device (dev_bytes w) (1024 + sizeof_superblock) true) w2)) as E.
    { unfold udbfslib_validate_superblock. step_with (malloc_ok w2 Hm). cbn [negb].
      step_with (read_at_ok 1024 sizeof_superblock w2 ltac:(by split) ltac:(lia) ltac:(done) Hsz).
      cbn [get_dev put_dev world_device]. change (dev_bytes w2) with (dev_bytes w).
      by rewrite Hval. }
    step_with E. by eexists. }
  split.
  - intros Ho. rewrite E. unfold failed_mount. replace (w_host_fd w =? 0) with false by lia.
    unfold close_fd. steps.
    match goal with |- context [(udbfs_unmount _ ≫= _) ?s] =>
      destruct (unmount_closed (w_next_loc w) s) as (w2 & E2 & ? & ? & ?);
        [done|done|done|done|done|apply lookup_insert_eq|] end.
    step_with E2. by exists w2.
  - intros x Hx Hi. rewrite E. unfold failed_mount. replace (w_host_fd w =? 0) with false by lia.
    unfold close_fd. steps. apply bind_Stuck. unfold udbfs_unmount. steps. apply bind_Stuck.
    cbn [close_opened]. cbn [w_mnt set_w_dev put_dev world_device set_w_mnt default_mount
      m_opened_inodes]. rewrite Hx. apply bind_Stuck. unfold get_inode.
    cbn [w_inodes set_w_dev put_dev world_device set_w_mnt set_w_next_loc set_w_mloc set_w_mlinks].
    by rewrite Hi.
Qed.

(** The sample device without its magic number, and a mount structure whose
    memory is zero. *)
Definition sample_unformatted : world :=
  set_w_dev (Device (dsplice 1024 (encode_superblock
    (Superblock 0 16 77 64 16 31 15 12 0 0 0 0 0 0 0 0 0 1 0 1)) sample_image) 0 false) sample_boot.

Lemma mount_failure_witness :
  (m_opened_inodes (w_mnt sample_unformatted) = None →
    ∃ w', udbfs_mount sample_unformatted = Ok None w' ∧
      dev_bytes w' = dev_bytes sample_unformatted ∧
      d_open (w_dev w') = false ∧ w_mounted_devices w' = None) ∧
  (∀ x, m_opened_inodes (w_mnt sample_unformatted) = Some x →
    w_inodes sample_unformatted !! x = None → udbfs_mount sample_unformatted = Stuck).
Proof.
  apply (mount_failure sample_unformatted).
  - by vm_compute.
  - by vm_compute.
  - by vm_compute.
  - by vm_compute.
  - by vm_compute.
  - by vm_compute.
Defined.
