(* ===== verification/MkTypes.v ===== *)
(** * The structures of mkudbfs

    [mkudbfs/mkudbfs.h] and the globals of [mkudbfs/mkudbfs.c].  A file
    under construction is a list of blocks in memory; [current_block] is a
    pointer into that list, here the position of the block, [None] for NULL.
    A column is a node of a singly linked list in the store [k_cols].
    Structures the program writes to the disk are laid out as on i386:
    [struct __udbfs_superblock] is not packed and is padded to 120 bytes,
    [struct __udbfs_table] takes 36. *)
From S2P Require Import Prelude Posix LinkList UdbfsTypes.
Local Open Scope Z_scope.

(** ** Records *)

(** [struct _udbfs_block]; [next] is the position in the list. *)
Record fblock : Type := FBlock {
  fb_block_id : Z;
  fb_data : list Z;
  fb_offset_start : Z;
  fb_offset_end : Z
}.
Definition set_fb_block_id (v : Z) (r : fblock) : fblock :=
  FBlock v (fb_data r) (fb_offset_start r) (fb_offset_end r).
Definition set_fb_data (v : list Z) (r : fblock) : fblock :=
  FBlock (fb_block_id r) v (fb_offset_start r) (fb_offset_end r).

(** [struct _udbfs_file] *)
Record mkfile : Type := MkFile {
  f_blocks : list fblock;
  f_current_block : option nat;
  f_inode_id : Z;
  f_current_offset : Z;
  f_file_size : Z;
  f_block_count : Z
}.
Definition set_f_blocks (v : list fblock) (r : mkfile) : mkfile :=
  MkFile v (f_current_block r) (f_inode_id r) (f_current_offset r) (f_file_size r)
    (f_block_count r).
Definition set_f_current_block (v : option nat) (r : mkfile) : mkfile :=
  MkFile (f_blocks r) v (f_inode_id r) (f_current_offset r) (f_file_size r) (f_block_count r).
Definition set_f_current_offset (v : Z) (r : mkfile) : mkfile :=
  MkFile (f_blocks r) (f_current_block r) (f_inode_id r) v (f_file_size r) (f_block_count r).
Definition set_f_file_size (v : Z) (r : mkfile) : mkfile :=
  MkFile (f_blocks r) (f_current_block r) (f_inode_id r) (f_current_offset r) v (f_block_count
    r).
Definition set_f_block_count (v : Z) (r : mkfile) : mkfile :=
  MkFile (f_blocks r) (f_current_block r) (f_inode_id r) (f_current_offset r) (f_file_size r) v.

(** [struct __udbfs_column]; [name] has 31 entries. *)
Record column : Type := Column {
  c_name_length : Z;
  c_name : list Z;
  c_count : Z;
  c_size_or_enumeration : Z;
  c_acl : Z;
  c_compression : Z;
  c_encryption : Z;
  c_sequence : Z;
  c_offset : Z;
  c_list_index : Z;
  c_properties : Z;
  c_type : Z;
  c_shift : Z
}.
Definition set_c_offset (v : Z) (r : column) : column :=
  Column (c_name_length r) (c_name r) (c_count r) (c_size_or_enumeration r) (c_acl r)
    (c_compression r) (c_encryption r) (c_sequence r) v (c_list_index r) (c_properties r)
    (c_type r) (c_shift r).
Definition set_c_shift (v : Z) (r : column) : column :=
  Column (c_name_length r) (c_name r) (c_count r) (c_size_or_enumeration r) (c_acl r)
    (c_compression r) (c_encryption r) (c_sequence r) (c_offset r) (c_list_index r)
    (c_properties r) (c_type r) v.

(** [struct _udbfs_column_desc] *)
Record column_desc : Type := ColumnDesc {
  cd_next : option loc;
  cd_column : column;
  cd_encoded_size : Z;
  cd_natural_boundary : Z
}.
Definition set_cd_next (v : option loc) (r : column_desc) : column_desc :=
  ColumnDesc v (cd_column r) (cd_encoded_size r) (cd_natural_boundary r).
Definition set_cd_column (v : column) (r : column_desc) : column_desc :=
  ColumnDesc (cd_next r) v (cd_encoded_size r) (cd_natural_boundary r).
Definition set_cd_encoded_size (v : Z) (r : column_desc) : column_desc :=
  ColumnDesc (cd_next r) (cd_column r) v (cd_natural_boundary r).

(** [struct __udbfs_table] *)
Record ptable : Type := PTable {
  t_last_id : Z;
  t_row_count : Z;
  t_record_size : Z;
  t_first_free_record_index : Z;
  t_acl_index : Z;
  t_owner : Z;
  t_column_count : Z;
  t_properties : Z;
  t_reserved : Z
}.
Definition set_t_record_size (v : Z) (r : ptable) : ptable :=
  PTable (t_last_id r) (t_row_count r) v (t_first_free_record_index r) (t_acl_index r) (t_owner
    r) (t_column_count r) (t_properties r) (t_reserved r).
Definition set_t_column_count (v : Z) (r : ptable) : ptable :=
  PTable (t_last_id r) (t_row_count r) (t_record_size r) (t_first_free_record_index r)
    (t_acl_index r) (t_owner r) v (t_properties r) (t_reserved r).

(** [struct _udbfs_table] *)
Record table : Type := Table {
  tab_table : ptable;
  tab_cols : option loc;
  tab_file : mkfile
}.
Definition set_tab_table (v : ptable) (r : table) : table :=
  Table v (tab_cols r) (tab_file r).
Definition set_tab_cols (v : option loc) (r : table) : table :=
  Table (tab_table r) v (tab_file r).
Definition set_tab_file (v : mkfile) (r : table) : table :=
  Table (tab_table r) (tab_cols r) v.

(** The globals of the program, its device and its memory: [k_sb] is the
    superblock [superblock] points to, [k_junk] the content of uninitialised
    memory, [k_next_loc] the next address of a column. *)
Record mkstate : Type := MkState {
  k_dev : device;
  k_mallocs : list bool;
  k_junk : Z;
  k_sb : superblock;
  k_block_bitmap : list Z;
  k_inode_bitmap : list Z;
  k_block_map_size : Z;
  k_inode_map_size : Z;
  k_dir_limit : Z;
  k_ind_limit : Z;
  k_bind_limit : Z;
  k_tind_limit : Z;
  k_cols : gmap loc column_desc;
  k_next_loc : loc
}.
Definition set_k_dev (v : device) (r : mkstate) : mkstate :=
  MkState v (k_mallocs r) (k_junk r) (k_sb r) (k_block_bitmap r) (k_inode_bitmap r)
    (k_block_map_size r) (k_inode_map_size r) (k_dir_limit r) (k_ind_limit r) (k_bind_limit r)
    (k_tind_limit r) (k_cols r) (k_next_loc r).
Definition set_k_mallocs (v : list bool) (r : mkstate) : mkstate :=
  MkState (k_dev r) v (k_junk r) (k_sb r) (k_block_bitmap r) (k_inode_bitmap r)
    (k_block_map_size r) (k_inode_map_size r) (k_dir_limit r) (k_ind_limit r) (k_bind_limit r)
    (k_tind_limit r) (k_cols r) (k_next_loc r).
Definition set_k_sb (v : superblock) (r : mkstate) : mkstate :=
  MkState (k_dev r) (k_mallocs r) (k_junk r) v (k_block_bitmap r) (k_inode_bitmap r)
    (k_block_map_size r) (k_inode_map_size r) (k_dir_limit r) (k_ind_limit r) (k_bind_limit r)
    (k_tind_limit r) (k_cols r) (k_next_loc r).
Definition set_k_block_bitmap (v : list Z) (r : mkstate) : mkstate :=
  MkState (k_dev r) (k_mallocs r) (k_junk r) (k_sb r) v (k_inode_bitmap r) (k_block_map_size r)
    (k_inode_map_size r) (k_dir_limit r) (k_ind_limit r) (k_bind_limit r) (k_tind_limit r)
    (k_cols r) (k_next_loc r).
Definition set_k_inode_bitmap (v : list Z) (r : mkstate) : mkstate :=
  MkState (k_dev r) (k_mallocs r) (k_junk r) (k_sb r) (k_block_bitmap r) v (k_block_map_size r)
    (k_inode_map_size r) (k_dir_limit r) (k_ind_limit r) (k_bind_limit r) (k_tind_limit r)
    (k_cols r) (k_next_loc r).
Definition set_k_block_map_size (v : Z) (r : mkstate) : mkstate :=
  MkState (k_dev r) (k_mallocs r) (k_junk r) (k_sb r) (k_block_bitmap r) (k_inode_bitmap r) v
    (k_inode_map_size r) (k_dir_limit r) (k_ind_limit r) (k_bind_limit r) (k_tind_limit r)
    (k_cols r) (k_next_loc r).
Definition set_k_inode_map_size (v : Z) (r : mkstate) : mkstate :=
  MkState (k_dev r) (k_mallocs r) (k_junk r) (k_sb r) (k_block_bitmap r) (k_inode_bitmap r)
    (k_block_map_size r) v (k_dir_limit r) (k_ind_limit r) (k_bind_limit r) (k_tind_limit r)
    (k_cols r) (k_next_loc r).
Definition set_k_cols (v : gmap loc column_desc) (r : mkstate) : mkstate :=
  MkState (k_dev r) (k_mallocs r) (k_junk r) (k_sb r) (k_block_bitmap r) (k_inode_bitmap r)
    (k_block_map_size r) (k_inode_map_size r) (k_dir_limit r) (k_ind_limit r) (k_bind_limit r)
    (k_tind_limit r) v (k_next_loc r).
Definition set_k_next_loc (v : loc) (r : mkstate) : mkstate :=
  MkState (k_dev r) (k_mallocs r) (k_junk r) (k_sb r) (k_block_bitmap r) (k_inode_bitmap r)
    (k_block_map_size r) (k_inode_map_size r) (k_dir_limit r) (k_ind_limit r) (k_bind_limit r)
    (k_tind_limit r) (k_cols r) v.

(** Assignments to the fields of [*superblock]. *)
Definition set_sb_inode_first_block (v : Z) (r : superblock) : superblock :=
  Superblock (sb_boot_loader_inode r) v (sb_unique_fs_signature r) (sb_block_count r)
    (sb_inode_count r) (sb_free_block_count r) (sb_free_inode_count r) (sb_bitmaps_block r)
    (sb_journal_inode r) (sb_bad_block_inode r) (sb_magic_number r) (sb_last_check r)
    (sb_max_interval r) (sb_last_mount r) (sb_mount_count r) (sb_max_mount_count r)
    (sb_creator_os r) (sb_superblock_version r) (sb_block_size r) (sb_inode_format r).
Definition set_sb_block_count (v : Z) (r : superblock) : superblock :=
  Superblock (sb_boot_loader_inode r) (sb_inode_first_block r) (sb_unique_fs_signature r) v
    (sb_inode_count r) (sb_free_block_count r) (sb_free_inode_count r) (sb_bitmaps_block r)
    (sb_journal_inode r) (sb_bad_block_inode r) (sb_magic_number r) (sb_last_check r)
    (sb_max_interval r) (sb_last_mount r) (sb_mount_count r) (sb_max_mount_count r)
    (sb_creator_os r) (sb_superblock_version r) (sb_block_size r) (sb_inode_format r).
Definition set_sb_inode_count (v : Z) (r : superblock) : superblock :=
  Superblock (sb_boot_loader_inode r) (sb_inode_first_block r) (sb_unique_fs_signature r)
    (sb_block_count r) v (sb_free_block_count r) (sb_free_inode_count r) (sb_bitmaps_block r)
    (sb_journal_inode r) (sb_bad_block_inode r) (sb_magic_number r) (sb_last_check r)
    (sb_max_interval r) (sb_last_mount r) (sb_mount_count r) (sb_max_mount_count r)
    (sb_creator_os r) (sb_superblock_version r) (sb_block_size r) (sb_inode_format r).
Definition set_sb_free_block_count (v : Z) (r : superblock) : superblock :=
  Superblock (sb_boot_loader_inode r) (sb_inode_first_block r) (sb_unique_fs_signature r)
    (sb_block_count r) (sb_inode_count r) v (sb_free_inode_count r) (sb_bitmaps_block r)
    (sb_journal_inode r) (sb_bad_block_inode r) (sb_magic_number r) (sb_last_check r)
    (sb_max_interval r) (sb_last_mount r) (sb_mount_count r) (sb_max_mount_count r)
    (sb_creator_os r) (sb_superblock_version r) (sb_block_size r) (sb_inode_format r).
Definition set_sb_free_inode_count (v : Z) (r : superblock) : superblock :=
  Superblock (sb_boot_loader_inode r) (sb_inode_first_block r) (sb_unique_fs_signature r)
    (sb_block_count r) (sb_inode_count r) (sb_free_block_count r) v (sb_bitmaps_block r)
    (sb_journal_inode r) (sb_bad_block_inode r) (sb_magic_number r) (sb_last_check r)
    (sb_max_interval r) (sb_last_mount r) (sb_mount_count r) (sb_max_mount_count r)
    (sb_creator_os r) (sb_superblock_version r) (sb_block_size r) (sb_inode_format r).
Definition set_sb_bitmaps_block (v : Z) (r : superblock) : superblock :=
  Superblock (sb_boot_loader_inode r) (sb_inode_first_block r) (sb_unique_fs_signature r)
    (sb_block_count r) (sb_inode_count r) (sb_free_block_count r) (sb_free_inode_count r) v
    (sb_journal_inode r) (sb_bad_block_inode r) (sb_magic_number r) (sb_last_check r)
    (sb_max_interval r) (sb_last_mount r) (sb_mount_count r) (sb_max_mount_count r)
    (sb_creator_os r) (sb_superblock_version r) (sb_block_size r) (sb_inode_format r).
Definition set_sb_journal_inode (v : Z) (r : superblock) : superblock :=
  Superblock (sb_boot_loader_inode r) (sb_inode_first_block r) (sb_unique_fs_signature r)
    (sb_block_count r) (sb_inode_count r) (sb_free_block_count r) (sb_free_inode_count r)
    (sb_bitmaps_block r) v (sb_bad_block_inode r) (sb_magic_number r) (sb_last_check r)
    (sb_max_interval r) (sb_last_mount r) (sb_mount_count r) (sb_max_mount_count r)
    (sb_creator_os r) (sb_superblock_version r) (sb_block_size r) (sb_inode_format r).
Definition set_sb_bad_block_inode (v : Z) (r : superblock) : superblock :=
  Superblock (sb_boot_loader_inode r) (sb_inode_first_block r) (sb_unique_fs_signature r)
    (sb_block_count r) (sb_inode_count r) (sb_free_block_count r) (sb_free_inode_count r)
    (sb_bitmaps_block r) (sb_journal_inode r) v (sb_magic_number r) (sb_last_check r)
    (sb_max_interval r) (sb_last_mount r) (sb_mount_count r) (sb_max_mount_count r)
    (sb_creator_os r) (sb_superblock_version r) (sb_block_size r) (sb_inode_format r).
Definition set_sb_block_size (v : Z) (r : superblock) : superblock :=
  Superblock (sb_boot_loader_inode r) (sb_inode_first_block r) (sb_unique_fs_signature r)
    (sb_block_count r) (sb_inode_count r) (sb_free_block_count r) (sb_free_inode_count r)
    (sb_bitmaps_block r) (sb_journal_inode r) (sb_bad_block_inode r) (sb_magic_number r)
    (sb_last_check r) (sb_max_interval r) (sb_last_mount r) (sb_mount_count r)
    (sb_max_mount_count r) (sb_creator_os r) (sb_superblock_version r) v (sb_inode_format r).

#[export] Program Instance mk_device : HasDevice mkstate := {|
  get_dev := k_dev;
  put_dev := set_k_dev
|}.
Next Obligation. done. Qed.
Next Obligation. by intros []. Qed.
Next Obligation. done. Qed.

#[export] Instance mk_heap : HasHeap mkstate := {|
  get_mallocs := k_mallocs;
  put_mallocs := set_k_mallocs
|}.

(** ** Constants and layouts *)

Definition DATATYPE_INT1 : Z := 0x01.
Definition DATATYPE_INT2 : Z := 0x02.
Definition DATATYPE_INT4 : Z := 0x03.
Definition DATATYPE_INT8 : Z := 0x04.
Definition DATATYPE_INT16 : Z := 0x05.
Definition DATATYPE_INT32 : Z := 0x06.
Definition DATATYPE_INT64 : Z := 0x07.
Definition DATATYPE_INT128 : Z := 0x08.
Definition DATATYPE_CHAR : Z := 0x10.
Definition DATATYPE_VARCHAR : Z := 0x11.
Definition DATATYPE_FLOAT : Z := 0x20.
Definition DATATYPE_DATA : Z := 0x30.
Definition DATATYPE_SHAREDDATA : Z := 0x31.
Definition DATATYPE_DATETIME : Z := 0x40.
Definition DATATYPE_ENUMERATION : Z := 0x50.

(** [sizeof(struct __udbfs_superblock)]: the two bytes of padding are
    whatever [malloc] returned. *)
Definition sizeof_mk_superblock : Z := 120.
Definition encode_mk_superblock (junk : Z) (sb : superblock) : list Z :=
  encode_superblock sb ++ [u8 junk; u8 junk].

Definition sizeof_table : Z := 36.
Definition encode_table (t : ptable) : list Z :=
  le_words [t_last_id t; t_row_count t] ++
  ([t_record_size t; t_first_free_record_index t; t_acl_index t; t_owner t] ≫= le_bytes 4) ++
  le_bytes 2 (t_column_count t) ++ [u8 (t_properties t); u8 (t_reserved t)].

Definition sizeof_column : Z := 160.
Definition encode_column (c : column) : list Z :=
  ((c_name_length c :: c_name c ++ [c_count c; c_size_or_enumeration c; c_acl c; c_compression c;
    c_encryption c; c_sequence c; c_offset c]) ≫= le_bytes 4) ++
  [u8 (c_list_index c); u8 (c_properties c); u8 (c_type c); u8 (c_shift c)].

(** [#define BLOCK_SIZE (1<<(7+superblock->block_size))] *)
Definition block_size_of (sb : superblock) : Z := i32 (Z.shiftl 1 (7 + sb_block_size sb)).
Definition BLOCK_SIZE : M mkstate Z := gets (λ k, block_size_of (k_sb k)).

(** [perror(...); exit(-1);] *)
Definition die {A : Type} : M mkstate A := exit_with (-1).
