(* ===== verification/MkFile.v ===== *)
(** * mkudbfs: bitmaps and files

    [mkudbfs/mkudbfs.c]: [generate_bitmap], [allocate_bit] and the functions
    on [struct _udbfs_file]. *)
From S2P Require Import Prelude Posix LinkList UdbfsTypes MkTypes.
Local Open Scope Z_scope.

(** ** Bitmaps *)

(** [while(bits--) { last_byte = (last_byte<<1) | 1; }] *)
Fixpoint shift_in_ones (bits : nat) (last_byte : Z) : Z :=
  match bits with
  | O => last_byte
  | S bits => shift_in_ones bits (u8 (Z.lor (Z.shiftl last_byte 1) 1))
  end.

(** [while(bytes--) { bitmap[bytes] = last_byte; last_byte = 0xFF; }] *)
Fixpoint fill_bitmap (bytes : nat) (last_byte : Z) (bitmap : list Z) : list Z :=
  match bytes with
  | O => bitmap
  | S bytes => fill_bitmap bytes 0xFF (<[bytes := last_byte]> bitmap)
  end.

(** The bitmap and [*size].  The loops on a negative counter only end in
    the overflow of the counter, which is undefined. *)
Definition generate_bitmap (bits : Z) : M mkstate (list Z * Z) :=
  let bytes := Z.shiftr (Z.land (i32 (bits + 7)) (-8)) 3 in
  ok ← malloc;
  junk ← gets k_junk;
  let bits := Z.shiftr bits 3 in
  if (bits <? 0) || (bytes <? 0) then stuck else
  let last_byte := shift_in_ones (Z.to_nat bits) 0x00 in
  if negb ok && (0 <? bytes) then stuck else
  mret (fill_bitmap (Z.to_nat bytes) last_byte (replicate (Z.to_nat bytes) (u8 junk)), bytes).

(** The two global bitmaps: [allocate_bit] compares its argument with
    [block_bitmap]. *)
Inductive which_bitmap : Type := BlockBitmap | InodeBitmap.

(** [while( bitmap[byte] == 0 ) { byte++; }]; the array is left behind its
    end. *)
Fixpoint find_byte (bitmap : list Z) (byte : Z) : option (Z * Z) :=
  match bitmap with
  | [] => None
  | v :: bitmap => if v =? 0 then find_byte bitmap (byte + 1) else Some (byte, v)
  end.

(** [while( (bitmap[byte] & (1<<bit)) == 0 ) { bit++; }] *)
Fixpoint find_bit (fuel : nat) (v bit : Z) : Z :=
  match fuel with
  | O => bit
  | S fuel => if Z.land v (Z.shiftl 1 bit) =? 0 then find_bit fuel v (bit + 1) else bit
  end.

(** The two loops and the update, on one bitmap. *)
Definition take_bit (bitmap : list Z) : option (Z * list Z) :=
  r ← find_byte bitmap 0;
  let '(byte, v) := r in
  let bit := find_bit 8 v 0 in
  Some (u32 (i32 (Z.shiftl byte 3 + bit)), <[Z.to_nat byte := u8 (v - Z.shiftl 1 bit)]> bitmap).

Definition allocate_bit (bitmap : which_bitmap) : M mkstate Z :=
  sb ← gets k_sb;
  match bitmap with
  | BlockBitmap =>
      if sb_free_block_count sb =? 0 then die else
      modify (λ k, set_k_sb (set_sb_free_block_count (u64 (sb_free_block_count (k_sb k) - 1))
        (k_sb k)) k);;
      bm ← gets k_block_bitmap;
      r ← deref (take_bit bm);
      modify (set_k_block_bitmap r.2);;
      mret r.1
  | InodeBitmap =>
      if sb_free_inode_count sb =? 0 then die else
      modify (λ k, set_k_sb (set_sb_free_inode_count (u64 (sb_free_inode_count (k_sb k) - 1))
        (k_sb k)) k);;
      bm ← gets k_inode_bitmap;
      r ← deref (take_bit bm);
      modify (set_k_inode_bitmap r.2);;
      mret r.1
  end.

(** ** Files in memory *)

(** [malloc] is not checked: its result is dereferenced. *)
Definition create_file : M mkstate mkfile :=
  ok ← malloc;
  if negb ok then stuck else
  inode_id ← allocate_bit InodeBitmap;
  mret (MkFile [] None inode_id 0 0 0).

(** The block behind the last one; [None] when memory is out. *)
Definition allocate_block_to_file (file : mkfile) : M mkstate (option nat * mkfile) :=
  ok ← malloc;
  if negb ok then mret (None, file) else
  junk ← gets k_junk;
  bs ← BLOCK_SIZE;
  let file := set_f_block_count (i32 (f_block_count file + 1)) file in
  let start := match last (f_blocks file) with None => 0 | Some b => fb_offset_end b end in
  let new_block := FBlock 0 (replicate (Z.to_nat bs) (u8 junk)) start (i32 (start + bs)) in
  mret (Some (length (f_blocks file)), set_f_blocks (f_blocks file ++ [new_block]) file).

(** [*file->current_block] *)
Definition current (file : mkfile) : M mkstate (nat * fblock) :=
  i ← deref (f_current_block file);
  b ← deref (f_blocks file !! i);
  mret (i, b).

(** [block->next] *)
Definition next_block (file : mkfile) (i : nat) : option nat :=
  if (S i <? length (f_blocks file))%nat then Some (S i) else None.

(** The blocks are passed at most once each. *)
Fixpoint sync_loop (fuel : nat) (file : mkfile) : M mkstate mkfile :=
  match fuel with
  | O => no_fuel
  | S fuel =>
      r ← current file;
      let '(i, b) := r in
      if negb (fb_offset_end b <? f_current_offset file) then mret file
      else sync_loop fuel (set_f_current_block (next_block file i) file)
  end.

Definition sync_offset (file : mkfile) : M mkstate mkfile :=
  let first := if bool_decide (f_blocks file = []) then None else Some 0%nat in
  sync_loop (S (length (f_blocks file))) (set_f_current_block first file).

Definition seek_file (file : mkfile) (offset : Z) : M mkstate (Z * mkfile) :=
  if f_file_size file <? offset then mret (-1, file) else
  let first := if bool_decide (f_blocks file = []) then None else Some 0%nat in
  file ← sync_offset (set_f_current_block first (set_f_current_offset offset file));
  mret (0, file).

(** [while( write_size-- ) { data[block_offset++] = uint8_data[completed++]; }]
    An index out of either array is undefined. *)
Fixpoint copy_loop (write_size : nat) (dst : list Z) (block_offset : Z) (src : list Z)
    (completed : Z) : option (list Z) :=
  match write_size with
  | O => Some dst
  | S write_size =>
      v ← array_at src completed;
      array_at dst block_offset;;
      copy_loop write_size (array_set dst block_offset v) (block_offset + 1) src (completed + 1)
  end.

(** One turn of the loop of [write_to_file]: what is left and how much is
    done. *)
Definition write_chunk (file : mkfile) (data : list Z) (size completed : Z)
    : M mkstate (mkfile * Z * Z) :=
  file ← (if bool_decide (f_current_block file = None) then
            r ← allocate_block_to_file file;
            mret (set_f_current_block r.1 r.2)
          else mret file);
  r ← current file;
  let '(i, b) := r in
  let write_size := i32 (fb_offset_end b - f_current_offset file) in
  let block_offset := i32 (f_current_offset file - fb_offset_start b) in
  let write_size := if size <? write_size then size else write_size in
  let size := i32 (size - write_size) in
  let offset := i32 (f_current_offset file + write_size) in
  let file := set_f_current_offset offset file in
  if (offset <? fb_offset_start b) || (fb_offset_end b <? offset) then die else
  if write_size <? 0 then stuck else
  bytes ← deref (copy_loop (Z.to_nat write_size) (fb_data b) block_offset data completed);
  let file := set_f_blocks (<[i := set_fb_data bytes b]> (f_blocks file)) file in
  let file := if offset =? fb_offset_end b then set_f_current_block (next_block file i) file
              else file in
  mret (file, size, completed + write_size).

Fixpoint write_file_loop (fuel : nat) (file : mkfile) (data : list Z) (size completed : Z)
    : M mkstate mkfile :=
  match fuel with
  | O => no_fuel
  | S fuel =>
      if negb (0 <? size) then mret file else
      r ← write_chunk file data size completed;
      let '(file, size, completed) := r in
      write_file_loop fuel file data size completed
  end.

(** A turn that writes nothing moves to the next block, so two turns make
    progress. *)
Definition write_to_file (file : mkfile) (data : list Z) (size : Z) : M mkstate (Z * mkfile) :=
  file ← write_file_loop (S (2 * Z.to_nat size)) file data size 0;
  let file := if f_file_size file <? f_current_offset file
              then set_f_file_size (f_current_offset file) file else file in
  mret (0, file).

(** [boot_loader] is the content of the file named [boot_filename], [None]
    when it cannot be opened: its stream is used without a test, and so is
    the result of [malloc]. *)
Definition write_boot_loader (u_file : mkfile) (boot_loader : option (list Z))
    : M mkstate (Z * mkfile) :=
  data ← deref boot_loader;
  ok ← malloc;
  if negb ok then stuck else
  r ← write_to_file u_file data (i32 (zlen data));
  mret (0, r.2).

(** ** Files on the disk *)

Definition write_block (block_id : Z) (data : list Z) : M mkstate Z :=
  bs ← BLOCK_SIZE;
  let offset := i32 (bs * block_id) in
  if zlen data <? bs then stuck else
  ok ← write_at offset (take (Z.to_nat bs) data);
  if negb ok then die else mret 0.

Definition write_inode (inode_id : Z) (inode : udbfs_inode) : M mkstate Z :=
  sb ← gets k_sb;
  bs ← BLOCK_SIZE;
  let offset := i32 (u64 (inode_id * sizeof_inode + sb_inode_first_block sb * bs)) in
  ok ← write_at offset (encode_inode inode);
  if negb ok then die else mret 0.

(** Allocate and write the next [n] blocks of the file from its current one:
    the loop bodies of [close_file] and [generate_ind]. *)
Fixpoint store_blocks (n : nat) (file : mkfile) (ids : list Z) : M mkstate (mkfile * list Z) :=
  match n with
  | O => mret (file, ids)
  | S n =>
      id ← allocate_bit BlockBitmap;
      r ← current file;
      let '(i, b) := r in
      let b := set_fb_block_id id b in
      write_block (fb_block_id b) (fb_data b);;
      let file := set_f_blocks (<[i := b]> (f_blocks file)) file in
      let file := set_f_current_block (next_block file i) file in
      store_blocks n (set_f_block_count (i32 (f_block_count file - 1)) file) (ids ++ [id])
  end.

(** [index[i] = ...] on an array of zeros. *)
Definition index_of (n : Z) (ids : list Z) : list Z :=
  ids ++ replicate (Z.to_nat n - length ids) 0.

Definition generate_ind (file : mkfile) : M mkstate (mkfile * Z) :=
  bs ← BLOCK_SIZE;
  limit ← gets k_ind_limit;
  block_id ← allocate_bit BlockBitmap;
  let block_count := if f_block_count file <? limit then f_block_count file else limit in
  r ← store_blocks (Z.to_nat block_count) file [];
  let '(file, ids) := r in
  if bs - 3 <? Z.of_nat (length ids) then stuck else
  write_block block_id (le_words (index_of (bs - 3) ids));;
  mret (file, block_id).

(** [while( ind_count-- ) { index[i++] = generate( file ); if( file->block_count
    == 0 ) { break; } }] *)
Fixpoint generate_entries (generate : mkfile → M mkstate (mkfile * Z)) (n : nat)
    (file : mkfile) (ids : list Z) : M mkstate (mkfile * list Z) :=
  match n with
  | O => mret (file, ids)
  | S n =>
      r ← generate file;
      let '(file, id) := r in
      if f_block_count file =? 0 then mret (file, ids ++ [id])
      else generate_entries generate n file (ids ++ [id])
  end.

Definition generate_bind (file : mkfile) : M mkstate (mkfile * Z) :=
  sb ← gets k_sb;
  let ind_count := i32 (Z.shiftl 1 (sb_block_size sb + 4)) in
  block_id ← allocate_bit BlockBitmap;
  r ← generate_entries generate_ind (Z.to_nat ind_count) file [];
  let '(file, ids) := r in
  write_block block_id (le_words (index_of ind_count ids));;
  mret (file, block_id).

Definition generate_tind (file : mkfile) : M mkstate (mkfile * Z) :=
  sb ← gets k_sb;
  let bind_count := i32 (Z.shiftl 1 (sb_block_size sb + 4)) in
  block_id ← allocate_bit BlockBitmap;
  r ← generate_entries generate_bind (Z.to_nat bind_count) file [];
  let '(file, ids) := r in
  write_block block_id (le_words (index_of bind_count ids));;
  mret (file, block_id).

(** One level of indirection of [close_file]. *)
Definition close_level (generate : mkfile → M mkstate (mkfile * Z)) (file : mkfile)
    : M mkstate (mkfile * Z) :=
  if 1 <? f_block_count file then generate file else mret (file, 0).

(** The file's memory is freed and its pointer not used again. *)
Definition close_file (file : mkfile) : M mkstate Z :=
  limit ← gets k_dir_limit;
  let block_count := if f_block_count file <? limit then f_block_count file else limit in
  let first := if bool_decide (f_blocks file = []) then None else Some 0%nat in
  if 4 <? block_count then stuck else
  r ← store_blocks (Z.to_nat block_count) (set_f_current_block first file) [];
  let '(file', ids) := r in
  r ← close_level generate_ind file';
  let '(file', ind_block) := r in
  r ← close_level generate_bind file';
  let '(file', bind_block) := r in
  r ← close_level generate_tind file';
  let '(file', tind_block) := r in
  write_inode (f_inode_id file)
    (UdbfsInode (u64 (f_file_size file)) (index_of 4 ids) ind_block bind_block tind_block);;
  mret 0.
