(* ===== verification/MkTable.v ===== *)
(** * mkudbfs: tables

    [mkudbfs/mkudbfs.c]: [create_table], [add_column],
    [reorder_columns_by_size] and [generate_table_definition].  The columns
    of a table are a singly linked list in the store [k_cols]; the sorting
    relinks it in place. *)
From S2P Require Import Prelude Posix LinkList UdbfsTypes MkTypes MkFile.
Local Open Scope Z_scope.

Definition get_column (l : loc) : M mkstate column_desc :=
  k ← gets id;
  deref (k_cols k !! l).

Definition put_column (l : loc) (c : column_desc) : M mkstate unit :=
  modify (λ k, set_k_cols (<[l := c]> (k_cols k)) k).

(** [malloc] is not checked. *)
Definition create_table : M mkstate table :=
  ok ← malloc;
  if negb ok then stuck else
  file ← create_file;
  mret (Table (PTable 0 0 0 0 0 0 0 0 0) None file).

(** [encoded_size] and [natural_boundary] of one element of a type. *)
Definition type_size (datatype : Z) : option (Z * Z) :=
  if datatype =? DATATYPE_INT1 then Some (1, 1)
  else if datatype =? DATATYPE_INT2 then Some (2, 2)
  else if datatype =? DATATYPE_INT4 then Some (4, 4)
  else if datatype =? DATATYPE_INT8 then Some (8, 8)
  else if datatype =? DATATYPE_INT16 then Some (16, 16)
  else if datatype =? DATATYPE_INT32 then Some (32, 32)
  else if datatype =? DATATYPE_INT64 then Some (64, 64)
  else if datatype =? DATATYPE_INT128 then Some (128, 128)
  else if datatype =? DATATYPE_CHAR then Some (32, 32)
  else if datatype =? DATATYPE_VARCHAR then Some (32, 32)
  else if datatype =? DATATYPE_FLOAT then Some (64, 64)
  else if datatype =? DATATYPE_DATA then Some (32, 32)
  else if datatype =? DATATYPE_SHAREDDATA then Some (32 + 64, 32)
  else if datatype =? DATATYPE_DATETIME then Some (64, 64)
  else if datatype =? DATATYPE_ENUMERATION then Some (32, 32)
  else None.

(** The statements after the switch; [count] and [size] are [uint32_t]. *)
Definition column_size (datatype unit_size size count : Z) : Z :=
  let encoded_size :=
    if datatype =? DATATYPE_ENUMERATION then i32 (u32 (unit_size * count))
    else i32 (u32 (u32 (unit_size * size) * count)) in
  let encoded_size :=
    if datatype =? DATATYPE_VARCHAR then i32 (u32 (encoded_size + u32 (count * 32)))
    else encoded_size in
  if 8 <? encoded_size then Z.land (i32 (encoded_size + 7)) (-8) else encoded_size.

(** [(uint32_t)colname[i]] of a signed [char]. *)
Definition widen_char (c : Z) : Z := u32 (if c <? 128 then c else c - 256).

Definition add_column (t : table) (colname : list Z) (datatype size count list_index : Z)
    : M mkstate (Z * table) :=
  ok ← malloc;
  if negb ok then stuck else
  junk ← gets k_junk;
  l ← gets k_next_loc;
  modify (set_k_next_loc (Pos.succ l));;
  let name_length := u32 (zlen colname) in
  let name_length := if 31 <? name_length then 31 else name_length in
  let name := map widen_char (take (Z.to_nat name_length) colname) in
  let name := name ++ replicate (31 - length name) (u32 junk) in
  let c := Column name_length name (u32 count) (u32 size) 0 0 0 0 0 (u8 list_index) 0
             (u8 datatype) 0 in
  let next := tab_cols t in
  let t := set_tab_cols (Some l) t in
  match type_size (u8 datatype) with
  | None =>
      put_column l (ColumnDesc next c (i32 junk) (i32 junk));;
      mret (-1, t)
  | Some (unit_size, boundary) =>
      put_column l (ColumnDesc next c
        (column_size (u8 datatype) unit_size (u32 size) (u32 count)) boundary);;
      mret (0, t)
  end.

(** ** reorder_columns_by_size *)

(** [while( search != NULL )]: the largest column from [search] on and the
    one before it.  [previous] is not initialised at first ([None] here). *)
Fixpoint find_largest (fuel : nat) (search : option loc) (largest : loc)
    (previous previous_to_largest : option loc) : M mkstate (loc * option loc * option loc) :=
  match fuel with
  | O => no_fuel
  | S fuel =>
      match search with
      | None => mret (largest, previous, previous_to_largest)
      | Some s =>
          cs ← get_column s;
          cl ← get_column largest;
          let r := if cd_natural_boundary cl <? cd_natural_boundary cs
                   then (s, previous) else (largest, previous_to_largest) in
          find_largest fuel (cd_next cs) r.1 (Some s) r.2
      end
  end.

Definition set_next (l : loc) (next : option loc) : M mkstate unit :=
  c ← get_column l;
  put_column l (set_cd_next next c).

(** [while( unsorted )] *)
Fixpoint reorder_loop (fuel : nat) (unsorted sorted last_sorted previous previous_to_largest
    : option loc) : M mkstate (option loc) :=
  match fuel with
  | O => no_fuel
  | S fuel =>
      match unsorted with
      | None => mret sorted
      | Some u =>
          count ← gets (λ k, size (k_cols k));
          r ← find_largest (S count) unsorted u previous previous_to_largest;
          let '(largest, previous, previous_to_largest) := r in
          c ← get_column largest;
          unsorted ← (if bool_decide (largest = u) then mret (cd_next c)
                      else p ← deref previous_to_largest; set_next p (cd_next c);; mret unsorted);
          sorted ← match sorted with
                   | None => mret (Some largest)
                   | Some s => t ← deref last_sorted; set_next t (Some largest);; mret (Some s)
                   end;
          set_next largest None;;
          reorder_loop fuel unsorted sorted (Some largest) previous previous_to_largest
      end
  end.

Definition reorder_columns_by_size (t : table) : M mkstate table :=
  count ← gets (λ k, size (k_cols k));
  sorted ← reorder_loop (S count) (tab_cols t) None None None None;
  mret (set_tab_cols sorted t).

(** ** generate_table_definition *)

(** [while( column )]: the place of each column in a record. *)
Fixpoint place_columns (fuel : nat) (column : option loc) (t : ptable) : M mkstate ptable :=
  match fuel with
  | O => no_fuel
  | S fuel =>
      match column with
      | None => mret t
      | Some l =>
          c ← get_column l;
          let t := set_t_column_count (u16 (t_column_count t + 1)) t in
          let offset := Z.shiftr (Z.land (t_record_size t) (u32 (-8))) 3 in
          let shift := u8 (Z.land (t_record_size t) 7) in
          put_column l (set_cd_column
            (set_c_shift shift (set_c_offset offset (cd_column c))) c);;
          place_columns fuel (cd_next c)
            (set_t_record_size (u32 (t_record_size t + u32 (cd_encoded_size c))) t)
      end
  end.

Definition round_record (record_size alignment : Z) : Z :=
  let record_size := Z.shiftr (Z.land (u32 (record_size + 7)) (u32 (-8))) 3 in
  let record_size := Z.land (u32 (u32 (record_size + u32 (Z.shiftl 1 alignment)) - 1))
                            (u32 (- Z.shiftl 1 alignment)) in
  if record_size <? 4 then 4 else record_size.

Fixpoint write_columns (fuel : nat) (column : option loc) (file : mkfile) : M mkstate mkfile :=
  match fuel with
  | O => no_fuel
  | S fuel =>
      match column with
      | None => mret file
      | Some l =>
          c ← get_column l;
          r ← write_to_file file (encode_column (cd_column c)) sizeof_column;
          write_columns fuel (cd_next c) r.2
      end
  end.

Definition generate_table_definition (t : table) (alignment : Z) : M mkstate Z :=
  t ← reorder_columns_by_size t;
  count ← gets (λ k, size (k_cols k));
  pt ← place_columns (S count) (tab_cols t) (tab_table t);
  let pt := set_t_record_size (round_record (t_record_size pt) alignment) pt in
  r ← write_to_file (tab_file t) (encode_table pt) sizeof_table;
  file ← write_columns (S count) (tab_cols t) r.2;
  close_file file;;
  mret 0.
