(* ===== verification/Mkfs.v ===== *)
(** * mkudbfs: formatting a volume

    [mkudbfs/mkudbfs.c]: [mkfs] and [main]. *)
From S2P Require Import Prelude Posix LinkList UdbfsTypes MkTypes MkFile MkTable.
From Stdlib Require Import String Ascii.
Local Open Scope Z_scope.

(** ** mkfs *)

(** [while( superblock->block_size >= 2 && superblock->block_count < 2000 )],
    from [block_size = 6] and [block_count = 0]. *)
Fixpoint choose_block_size (fuel : nat) (fs_size : Z) (sb : superblock) : option superblock :=
  match fuel with
  | O => None
  | S fuel =>
      if (2 <=? sb_block_size sb) && (sb_block_count sb <? 2000) then
        let sb := set_sb_block_size (u8 (sb_block_size sb - 1)) sb in
        choose_block_size fuel fs_size
          (set_sb_block_count (u64 (i32 (fs_size / block_size_of sb))) sb)
      else Some sb
  end.

Definition set_sb (f : superblock → superblock) : M mkstate unit :=
  modify (λ k, set_k_sb (f (k_sb k)) k).

(** The four limits, in C's [int]. *)
Definition set_limits (i : Z) (k : mkstate) : mkstate :=
  MkState (k_dev k) (k_mallocs k) (k_junk k) (k_sb k) (k_block_bitmap k) (k_inode_bitmap k)
    (k_block_map_size k) (k_inode_map_size k) 4 i (i32 (i * i)) (i32 (i32 (i * i) * i))
    (k_cols k) (k_next_loc k).

(** The assignments from [magic_number] to [free_inode_count]. *)
Definition init_superblock (sb : superblock) : superblock :=
  Superblock (sb_boot_loader_inode sb) (sb_inode_first_block sb) (sb_unique_fs_signature sb)
    (sb_block_count sb) (sb_inode_count sb) (sb_block_count sb) (sb_inode_count sb)
    (sb_bitmaps_block sb) (sb_journal_inode sb) (sb_bad_block_inode sb) UDBFS_MAGIC
    (sb_last_check sb) (sb_max_interval sb) (sb_last_mount sb) 0 0 0 1 (sb_block_size sb) 1.

(** [last_check = 0; max_interval = 0; last_mount = 0;] *)
Definition clear_times (sb : superblock) : superblock :=
  Superblock (sb_boot_loader_inode sb) (sb_inode_first_block sb) (sb_unique_fs_signature sb)
    (sb_block_count sb) (sb_inode_count sb) (sb_free_block_count sb) (sb_free_inode_count sb)
    (sb_bitmaps_block sb) (sb_journal_inode sb) (sb_bad_block_inode sb) (sb_magic_number sb)
    0 0 0 (sb_mount_count sb) (sb_max_mount_count sb) (sb_creator_os sb)
    (sb_superblock_version sb) (sb_block_size sb) (sb_inode_format sb).

(** [n] calls of [allocate_bit( block_bitmap )]. *)
Fixpoint allocate_blocks (n : nat) : M mkstate unit :=
  match n with
  | O => mret tt
  | S n => allocate_bit BlockBitmap;; allocate_blocks n
  end.

(** A counter that starts negative does not reach zero before the blocks
    run out and the program ends: more calls than there are free blocks. *)
Definition reserve_blocks (i : Z) : M mkstate unit :=
  free ← gets (λ k, sb_free_block_count (k_sb k));
  allocate_blocks (if i <? 0 then S (Z.to_nat free) else Z.to_nat i).

Definition colname (s : string) : list Z :=
  map (λ c, Z.of_nat (nat_of_ascii c)) (list_ascii_of_string s).

(** The five columns of the root hierarchy table. *)
Definition root_hierarchy : M mkstate table :=
  t ← create_table;
  r ← add_column t (colname "id") DATATYPE_INT32 1 1 0;
  r ← add_column r.2 (colname "table_id") DATATYPE_INT32 1 1 0;
  r ← add_column r.2 (colname "name") DATATYPE_VARCHAR 255 1 1;
  r ← add_column r.2 (colname "row_id") DATATYPE_INT32 1 1 0;
  r ← add_column r.2 (colname "parents") DATATYPE_INT32 1 4 0;
  mret r.2.

(** The results of [lseek] and [write] are not looked at. *)
Definition save_bitmaps : M mkstate unit :=
  bs ← BLOCK_SIZE;
  k ← gets id;
  lseek (i32 (u64 (bs * sb_bitmaps_block (k_sb k))));;
  write (k_block_bitmap k);;
  write (k_inode_bitmap k);;
  mret tt.

(** Blocks for the boot area, the inode table and the bitmaps. *)
Definition reserve_areas : M mkstate unit :=
  sb ← gets k_sb;
  bs ← BLOCK_SIZE;
  allocate_blocks (Z.to_nat (sb_inode_first_block sb));;
  reserve_blocks (i32 (u64 (sb_inode_count sb * sizeof_inode + bs - 1) / bs));;
  k ← gets id;
  let i := i32 (Z.quot (i32 (k_inode_map_size k + k_block_map_size k + bs - 1)) bs) in
  bitmaps_block ← allocate_bit BlockBitmap;
  set_sb (set_sb_bitmaps_block bitmaps_block);;
  reserve_blocks (i32 (i - 1)).

(** The superblock's geometry and the two bitmaps. *)
Definition plan_volume (fs_size : Z) : M mkstate unit :=
  k ← gets id;
  sb ← deref (choose_block_size 7 fs_size (set_sb_block_count 0 (set_sb_block_size 6 (k_sb k))));
  set_sb (λ _, set_sb_inode_first_block
    (if sb_block_size sb <? 4 then u64 (i32 (Z.shiftl 1 (4 - sb_block_size sb))) else 1) sb);;
  modify (set_limits (i32 (Z.shiftl 1 (sb_block_size sb + 4))));;
  set_sb clear_times;;
  let inode_count := fs_size / (128 * 1024) in
  let inode_count := if inode_count <? 64 then 64 else inode_count in
  set_sb (set_sb_inode_count inode_count);;
  r ← generate_bitmap (i32 inode_count);
  modify (λ k, set_k_inode_map_size r.2 (set_k_inode_bitmap r.1 k));;
  block_count ← gets (λ k, sb_block_count (k_sb k));
  r ← generate_bitmap (i32 block_count);
  modify (λ k, set_k_block_map_size r.2 (set_k_block_bitmap r.1 k));;
  set_sb init_superblock.

(** The two empty maintenance files. *)
Definition maintenance_files : M mkstate unit :=
  tmp_file ← create_file;
  set_sb (set_sb_bad_block_inode (f_inode_id tmp_file));;
  close_file tmp_file;;
  tmp_file ← create_file;
  set_sb (set_sb_journal_inode (f_inode_id tmp_file));;
  close_file tmp_file;;
  mret tt.

Definition mkfs (fs_size : Z) : M mkstate Z :=
  ok ← malloc;
  if negb ok then mret (-1) else
  plan_volume fs_size;;
  reserve_areas;;
  root_table ← root_hierarchy;
  generate_table_definition root_table 2;;
  maintenance_files;;
  k ← gets id;
  ok ← write_at 1024 (encode_mk_superblock (k_junk k) (k_sb k));
  if negb ok then die else
  save_bitmaps;;
  mret 0.

(** ** main *)

(** What the system answers to [main]: the result of [sscanf] on the first
    of two arguments, of [stat] and of [open], and whether [lseek] on the
    block device reaches an offset. *)
Record host : Type := Host {
  h_argc : Z;
  h_size_argument : Z;
  h_stat_ok : bool;
  h_is_block_device : bool;
  h_st_size : Z;
  h_fd : Z;
  h_lseek : Z → Z
}.

(** [while( delta > 0 )]: the search for the size of a block device. *)
Fixpoint probe_size (fuel : nat) (lseek : Z → Z) (delta validated_offset : Z) : option Z :=
  match fuel with
  | O => None
  | S fuel =>
      if negb (0 <? delta) then Some validated_offset else
      let attempted_offset := i64 (validated_offset + delta) in
      if negb (lseek attempted_offset =? attempted_offset)
      then probe_size fuel lseek (Z.shiftr delta 1) validated_offset
      else probe_size fuel lseek delta attempted_offset
  end.

Definition main (fuel : nat) (h : host) : M mkstate Z :=
  if negb ((h_argc h =? 2) || (h_argc h =? 3)) then mret (-1) else
  let fs_size := if h_argc h =? 3 then i64 (h_size_argument h) else 0 in
  if negb (h_stat_ok h) then die else
  fs_size ←
    (if fs_size <=? 0 then
       if h_is_block_device h then
         if h_fd h <=? 0 then die else
         match probe_size fuel (h_lseek h) (2 ^ 30) 0 with
         | Some size => mret size
         | None => no_fuel
         end
       else mret (h_st_size h)
     else mret fs_size);
  if h_fd h <=? 0 then die else
  mkfs (u64 fs_size);;
  close_fd;;
  mret 0.
