(* ===== verification/MkWrite.v ===== *)
(** * The bitmaps of the formatter

    [generate_bitmap] and [allocate_bit] of mkudbfs against the bitmaps of
    the library: the same abstraction [free_bits] serves for both. *)
From S2P Require Import Prelude Posix Bitmap LinkList UdbfsTypes Content Persist MkTypes MkFile.
Local Open Scope Z_scope.

(** ** take_bit *)

Lemma find_byte_spec bm o :
  match find_byte bm o with
  | Some (b, v) => o ≤ b < o + zlen bm ∧ bm !! Z.to_nat (b - o) = Some v ∧ v ≠ 0 ∧
      ∀ k, o ≤ k < b → bm !! Z.to_nat (k - o) = Some 0
  | None => ∀ v, v ∈ bm → v = 0
  end.
Proof.
  unfold zlen. revert o; induction bm as [|x bm IH]; intros o; simpl.
  { intros v Hv. by apply not_elem_of_nil in Hv. }
  destruct (Z.eqb_spec x 0) as [->|Hx].
  - specialize (IH (o + 1)). destruct (find_byte bm (o + 1)) as [[b v]|].
    + destruct IH as (Hb & Hv & Hn & Hz). split; [lia|].
      replace (Z.to_nat (b - o)) with (S (Z.to_nat (b - (o + 1)))) by lia. split; [done|].
      split; [done|]. intros k Hk. destruct (decide (k = o)) as [->|].
      * by rewrite Z.sub_diag.
      * replace (Z.to_nat (k - o)) with (S (Z.to_nat (k - (o + 1)))) by lia. apply Hz. lia.
    + intros v [->|Hv]%elem_of_cons; [done|by apply IH].
  - split; [lia|]. rewrite Z.sub_diag. split; [done|]. split; [done|]. lia.
Qed.

Lemma find_bit_scan fuel v b : find_bit fuel v b = scan_bits fuel v b.
Proof.
  revert b; induction fuel as [|fuel IH]; intros b; [done|]. simpl.
  by rewrite Z.land_comm, IH.
Qed.

Lemma sub_bit v k : 0 ≤ k → Z.testbit v k = true → v - 2 ^ k = Z.lxor v (2 ^ k).
Proof.
  intros Hk Hb.
  assert (Z.ldiff (2 ^ k) v = 0) as Hl.
  { apply Z.bits_inj_0. intros n. rewrite Z.ldiff_spec. destruct (Z.eq_dec n k) as [->|Hn].
    - by rewrite Hb, andb_false_r.
    - rewrite Z.pow2_bits_false by lia. done. }
  rewrite Z.sub_nocarry_ldiff by done. apply Z.bits_inj'. intros n Hn.
  rewrite Z.ldiff_spec, Z.lxor_spec. destruct (Z.eq_dec n k) as [->|Hnk].
  - rewrite Z.pow2_bits_true by lia. by rewrite Hb.
  - rewrite Z.pow2_bits_false by lia. by destruct (Z.testbit v n).
Qed.

(** On a bitmap with a set bit the two allocators of the program pick the
    same number and leave the same bitmap. *)
Lemma take_bit_agrees bm count :
  bitmap_ok bm → zlen bm < 2 ^ 28 → 0 < count ≤ 8 * zlen bm → free_bits bm ≠ [] →
  udbfslib_allocate_bit bm (zlen bm) count = (λ r, (r.1, r.2, count - 1)) <$> take_bit bm.
Proof.
  intros Hok Hz Hc Hne. pose proof Hok as [Hbytes _]. pose proof (zlen_nonneg bm).
  unfold udbfslib_allocate_bit, take_bit. rewrite size_shift by done.
  replace (8 * zlen bm <? count) with false by lia. replace (count =? 0) with false by lia.
  destruct (scan_bytes_spec (S (Z.to_nat (zlen bm))) bm 0) as (b & -> & Hr & Hzero & He); [lia..|].
  cbn [mbind option_bind]. pose proof (find_byte_spec bm 0) as Hf.
  destruct (find_byte bm 0) as [[b2 v2]|].
  2:{ exfalso. apply Hne. destruct (free_bits bm) as [|i l] eqn:E; [done|].
    assert (i ∈ free_bits bm) as [Hi Hi2]%elem_of_free_bits by (rewrite E; left).
    destruct (nonzero_byte_bit bm i) as (w & Hw & _ & Hwn); [lia|done|].
    apply list_elem_of_lookup_2 in Hw. by apply Hf in Hw. }
  destruct Hf as (Hb2 & Hv2 & Hn2 & Hz2). rewrite Z.sub_0_r in Hv2.
  assert (b = b2) as ->.
  { destruct (Z.lt_trichotomy b b2) as [Hlt|[?|Hlt]]; [|done|].
    - destruct He as [->|(v & Hv & Hnz)]; [lia|]. specialize (Hz2 b ltac:(lia)).
      rewrite Z.sub_0_r in Hz2. congruence.
    - rewrite Hzero in Hv2 by lia. congruence. }
  replace (b2 =? zlen bm) with false by lia. rewrite Hv2. cbn [mbind option_bind fmap option_fmap
    option_map fst snd]. rewrite find_bit_scan.
  assert (byte_ok v2) as Hvok by (by eapply Forall_lookup_1).
  destruct (byte_nonzero_bit v2 Hvok Hn2) as (k0 & Hk0 & Hvk0).
  destruct (scan_bits_spec 8 v2 0) as (Hk & Hvk & _); [lia|by exists k0|].
  set (k := scan_bits 8 v2 0) in *.
  rewrite Z.shiftl_mul_pow2, !(Z.shiftl_mul_pow2 _ k) by lia. rewrite !Z.mul_1_l.
  rewrite sub_bit by (done || lia). rewrite (u64_small (count - 1)), u64_small by lia.
  rewrite i32_small, u32_small by lia. done.
Qed.

Lemma take_bit_ok bm i rest :
  bitmap_ok bm → zlen bm < 2 ^ 28 → free_bits bm = i :: rest →
  ∃ bm', take_bit bm = Some (i, bm') ∧ bitmap_ok bm' ∧ length bm' = length bm ∧
    free_bits bm' = rest ∧
    ∀ j, 0 ≤ j → bit_set bm' j = bool_decide (j ≠ i) && bit_set bm j.
Proof.
  intros Hok Hz Hf.
  assert (i ∈ free_bits bm) as [_ Hi]%elem_of_free_bits by (rewrite Hf; left).
  destruct (allocate_bit_ok bm 1 Hok i rest) as (bm' & E & H); [lia|done|].
  rewrite take_bit_agrees in E by (done || lia || by rewrite Hf).
  destruct (take_bit bm) as [[j b]|]; [|done]. simpl in E. injection E as -> ->.
  by exists bm'.
Qed.

(** ** allocate_bit *)

(** The state of the block bitmap: [free] are the free numbers in order,
    [count] the superblock's count. *)
Definition blocks_free (k : mkstate) (free : list Z) (count : Z) : Prop :=
  bitmap_ok (k_block_bitmap k) ∧ zlen (k_block_bitmap k) < 2 ^ 28 ∧
  free_bits (k_block_bitmap k) = free ∧ sb_free_block_count (k_sb k) = count ∧
  0 ≤ count < 2 ^ 64.

Definition inodes_free (k : mkstate) (free : list Z) (count : Z) : Prop :=
  bitmap_ok (k_inode_bitmap k) ∧ zlen (k_inode_bitmap k) < 2 ^ 28 ∧
  free_bits (k_inode_bitmap k) = free ∧ sb_free_inode_count (k_sb k) = count ∧
  0 ≤ count < 2 ^ 64.

(** What an allocation of a block changes. *)
Definition took_block (bm : list Z) (count : Z) (k : mkstate) : mkstate :=
  set_k_block_bitmap bm (set_k_sb (set_sb_free_block_count count (k_sb k)) k).
Definition took_inode (bm : list Z) (count : Z) (k : mkstate) : mkstate :=
  set_k_inode_bitmap bm (set_k_sb (set_sb_free_inode_count count (k_sb k)) k).

Lemma allocate_block_ok k id free count :
  blocks_free k (id :: free) count → 0 < count →
  ∃ bm, allocate_bit BlockBitmap k = Ok id (took_block bm (count - 1) k) ∧
    blocks_free (took_block bm (count - 1) k) free (count - 1) ∧
    length bm = length (k_block_bitmap k).
Proof.
  intros (Hok & Hz & Hf & Hc & Hr) H0.
  destruct (take_bit_ok _ id free Hok Hz Hf) as (bm & E & Hok' & Hl & Hf' & _).
  exists bm. unfold allocate_bit. steps. rewrite Hc. replace (count =? 0) with false by lia.
  steps. change (k_block_bitmap (set_k_sb _ k)) with (k_block_bitmap k). rewrite E. steps.
  split; [rewrite Hc, u64_small by lia; done|].
  split; [|done]. split; [done|]. split; [unfold zlen in *; simpl; lia|].
  split; [done|]. split; [done|]. lia.
Qed.

Lemma allocate_inode_bit_ok k id free count :
  inodes_free k (id :: free) count → 0 < count →
  ∃ bm, allocate_bit InodeBitmap k = Ok id (took_inode bm (count - 1) k) ∧
    inodes_free (took_inode bm (count - 1) k) free (count - 1) ∧
    length bm = length (k_inode_bitmap k).
Proof.
  intros (Hok & Hz & Hf & Hc & Hr) H0.
  destruct (take_bit_ok _ id free Hok Hz Hf) as (bm & E & Hok' & Hl & Hf' & _).
  exists bm. unfold allocate_bit. steps. rewrite Hc. replace (count =? 0) with false by lia.
  steps. change (k_inode_bitmap (set_k_sb _ k)) with (k_inode_bitmap k). rewrite E. steps.
  split; [rewrite Hc, u64_small by lia; done|].
  split; [|done]. split; [done|]. split; [unfold zlen in *; simpl; lia|].
  split; [done|]. split; [done|]. lia.
Qed.

(** ** generate_bitmap *)

Lemma shift_in_ones_255 n : shift_in_ones n 255 = 255.
Proof. induction n as [|n IH]; [done|]. simpl. exact IH. Qed.

Lemma shift_in_ones_many n : (8 ≤ n)%nat → shift_in_ones n 0 = 255.
Proof.
  intros Hn. do 8 (destruct n as [|n]; [lia|]). simpl. apply shift_in_ones_255.
Qed.

Lemma fill_bitmap_ones n k bm :
  length bm = (n + k)%nat → drop n bm = replicate k 255 →
  fill_bitmap n 255 bm = replicate (n + k) 255.
Proof.
  revert k bm; induction n as [|n IH]; intros k bm Hl Hd; [done|]. cbn [fill_bitmap].
  replace (S n + k)%nat with (n + S k)%nat by lia. apply IH.
  - rewrite length_insert. lia.
  - rewrite drop_insert_ge by lia. rewrite Nat.sub_diag.
    destruct (drop n bm) as [|y t] eqn:E.
    + apply (f_equal length) in E. rewrite length_drop in E. simpl in E. lia.
    + simpl. f_equal. rewrite <- Hd. replace (S n) with (n + 1)%nat by lia.
      rewrite <- drop_drop, E. done.
Qed.

Definition bitmap_size (bits : Z) : Z := (bits + 7) / 8.

Lemma land_minus8 z : Z.land z (-8) = 8 * (z / 8).
Proof.
  change (-8) with (Z.lnot (Z.ones 3)). rewrite <- Z.ldiff_land, Z.ldiff_ones_r by lia.
  rewrite Z.shiftr_div_pow2, Z.shiftl_mul_pow2 by lia. change (2 ^ 3) with 8. lia.
Qed.

(** 64 bits or more: every bit of every byte is set, the ones behind the
    last number too. *)
Lemma generate_bitmap_ok bits k :
  64 ≤ bits < 2 ^ 31 - 8 → k_mallocs k = [] →
  generate_bitmap bits k = Ok (replicate (Z.to_nat (bitmap_size bits)) 255, bitmap_size bits) k.
Proof.
  intros Hb Hm. unfold generate_bitmap. step_with (malloc_ok k Hm). steps.
  rewrite i32_small, land_minus8, !Z.shiftr_div_pow2 by lia. change (2 ^ 3) with 8.
  rewrite (Z.mul_comm 8), Z.div_mul by lia. fold (bitmap_size bits).
  assert (0 ≤ bitmap_size bits) by (unfold bitmap_size; Z.div_mod_to_equations; lia).
  assert (8 ≤ bits / 8) by (Z.div_mod_to_equations; lia).
  replace (bits / 8 <? 0) with false by lia. replace (bitmap_size bits <? 0) with false by lia.
  cbn [orb negb andb]. rewrite shift_in_ones_many by lia.
  rewrite (fill_bitmap_ones _ 0), Nat.add_0_r; [done| |].
  - by rewrite length_replicate, Nat.add_0_r.
  - rewrite drop_ge; [done|]. by rewrite length_replicate.
Qed.

Lemma filter_all {A} (P : A → Prop) `{!∀ x, Decision (P x)} (l : list A) :
  (∀ x, x ∈ l → P x) → filter P l = l.
Proof.
  induction l as [|x l IH]; intros Hall; [done|].
  rewrite filter_cons_True by (apply Hall; left). f_equal. apply IH.
  intros y Hy. apply Hall. by right.
Qed.

Lemma free_bits_ones n : free_bits (replicate n 255) = seqZ 0 (8 * Z.of_nat n).
Proof.
  unfold free_bits, zlen. rewrite length_replicate. apply filter_all.
  intros x Hx%elem_of_seqZ. unfold bit_set. rewrite lookup_replicate_2.
  - assert (0 ≤ x mod 8 < 8) as Hr by (Z.div_mod_to_equations; lia).
    revert Hr. generalize (x mod 8). intros m Hm.
    assert (m ∈ seqZ 0 8) as Hin by (apply elem_of_seqZ; lia). revert Hin. clear.
    revert m. apply Forall_forall. repeat constructor.
  - Z.div_mod_to_equations. lia.
Qed.

(** * Files under construction

    The content of a file of mkudbfs is the concatenation of the data of
    its blocks up to its size; [write_to_file] overwrites it at the file's
    offset and appends blocks as needed. *)

(** ** Copying *)

Lemma insert_dsplice l o v :
  0 ≤ o < zlen l → <[Z.to_nat o := v]> l = dsplice o [v] l.
Proof.
  unfold zlen, dsplice. intros Ho. rewrite insert_take_drop by lia.
  rewrite (take_ge [v]) by (simpl; lia). simpl. do 3 f_equal. lia.
Qed.

Lemma dread_cons src c n :
  0 ≤ c → 0 ≤ n → c + (n + 1) ≤ zlen src → ∃ v, src !! Z.to_nat c = Some v ∧
    dread src c (n + 1) = v :: dread src (c + 1) n.
Proof.
  unfold zlen. intros H0 Hn Hl.
  destruct (lookup_lt_is_Some_2 src (Z.to_nat c)) as [v Hv]; [lia|].
  exists v. split; [done|]. unfold dread. rewrite (drop_S src v) by done.
  replace (Z.to_nat (n + 1)) with (S (Z.to_nat n)) by lia.
  replace (Z.to_nat (c + 1)) with (S (Z.to_nat c)) by lia. done.
Qed.

Lemma array_at_nonneg {A} (a : list A) i : 0 ≤ i → array_at a i = a !! Z.to_nat i.
Proof. intros Hi. unfold array_at. by replace (i <? 0) with false by lia. Qed.

Lemma copy_loop_ok n dst o src c :
  0 ≤ o → o + Z.of_nat n ≤ zlen dst → 0 ≤ c → c + Z.of_nat n ≤ zlen src →
  copy_loop n dst o src c = Some (dsplice o (dread src c (Z.of_nat n)) dst).
Proof.
  revert dst o c; induction n as [|n IH]; intros dst o c H0 H1 H2 H3.
  { unfold dread. simpl. by rewrite dsplice_nil. }
  destruct (dread_cons src c (Z.of_nat n)) as (v & Hv & Hd); [lia..|].
  replace (Z.of_nat (S n)) with (Z.of_nat n + 1) in * by lia. rewrite Hd.
  cbn [copy_loop]. rewrite (array_at_nonneg src c), (array_at_nonneg dst o), Hv by lia.
  cbn [mbind option_bind].
  destruct (lookup_lt_is_Some_2 dst (Z.to_nat o)) as [x Hx]; [unfold zlen in *; lia|].
  rewrite Hx. cbn [option_bind]. unfold array_set. rewrite insert_dsplice by lia.
  rewrite IH by (rewrite ?zlen_dsplice; lia). f_equal.
  pose proof (zlen_dread src (c + 1) (Z.of_nat n) ltac:(lia) ltac:(lia) ltac:(lia)) as Hz.
  change (o + 1) with (o + zlen [v]). rewrite dsplice_app; [done|lia|].
  unfold zlen in *. simpl. lia.
Qed.

(** ** Well-formed files *)

Definition mf_bytes (f : mkfile) : list Z := f_blocks f ≫= fb_data.

(** Blocks of [B] bytes, one after the other. *)
Definition block_ok (B : Z) (i : nat) (b : fblock) : Prop :=
  fb_offset_start b = B * Z.of_nat i ∧ fb_offset_end b = B * Z.of_nat i + B ∧ zlen (fb_data b) = B.

Record mf_ok (B : Z) (f : mkfile) : Prop := {
  mf_blocks : ∀ i b, f_blocks f !! i = Some b → block_ok B i b;
  mf_count : f_block_count f = Z.of_nat (length (f_blocks f));
  mf_cursor : match f_current_block f with
    | Some i => (i < length (f_blocks f))%nat ∧
        B * Z.of_nat i ≤ f_current_offset f ≤ B * Z.of_nat i + B
    | None => f_current_offset f = B * Z.of_nat (length (f_blocks f))
    end;
  mf_size : 0 ≤ f_file_size f ≤ B * Z.of_nat (length (f_blocks f));
  mf_offset : 0 ≤ f_current_offset f
}.

(** The first [s] bytes. *)
Definition mf_prefix (s : Z) (f : mkfile) : list Z := take (Z.to_nat s) (mf_bytes f).
Definition mf_content (f : mkfile) : list Z := mf_prefix (f_file_size f) f.

Section file.
Context (B : Z) (Hbs : 0 < B < 2 ^ 16).

Lemma zlen_bind_data bs :
  (∀ b, b ∈ bs → zlen (fb_data b) = B) → zlen (bs ≫= fb_data) = B * Z.of_nat (length bs).
Proof.
  induction bs as [|b bs IH]; intros Hb; [unfold zlen; simpl; lia|].
  rewrite bind_cons, zlen_app, (Hb b) by left.
  rewrite IH by (intros c Hc; apply Hb; by right). simpl. lia.
Qed.

Lemma mf_data_len f b : mf_ok B f → b ∈ f_blocks f → zlen (fb_data b) = B.
Proof. intros Hf (i & Hi)%list_elem_of_lookup. by apply (mf_blocks _ _ Hf i). Qed.

Lemma zlen_mf_bytes f : mf_ok B f → zlen (mf_bytes f) = B * Z.of_nat (length (f_blocks f)).
Proof. intros Hf. apply zlen_bind_data. intros b. by apply mf_data_len. Qed.

(** Writing inside block [i]. *)
Lemma mf_bytes_update f i b r chunk :
  mf_ok B f → f_blocks f !! i = Some b → 0 ≤ r → r + zlen chunk ≤ B →
  <[i := set_fb_data (dsplice r chunk (fb_data b)) b]> (f_blocks f) ≫= fb_data =
    dsplice (B * Z.of_nat i + r) chunk (mf_bytes f).
Proof.
  intros Hf Hi Hr Hc.
  destruct (list_elem_of_split_length _ _ _ Hi) as (pre & post & E & ->).
  unfold mf_bytes. rewrite E, insert_app_here by done.
  rewrite !bind_app, !bind_cons. cbn [fb_data set_fb_data].
  assert (zlen (pre ≫= fb_data) = B * Z.of_nat (length pre)) as Hp.
  { apply zlen_bind_data. intros c Hc'. eapply mf_data_len; [done|]. rewrite E.
    apply elem_of_app. by left. }
  assert (zlen (fb_data b) = B) as Hb by (eapply mf_data_len, list_elem_of_lookup_2; done).
  rewrite <- Hp, dsplice_mid by lia. done.
Qed.

(** The block behind the last one. *)
Lemma allocate_block_to_file_ok f k :
  block_size_of (k_sb k) = B → k_mallocs k = [] → mf_ok B f →
  B * Z.of_nat (length (f_blocks f)) + B < 2 ^ 31 →
  ∃ b, allocate_block_to_file f k = Ok (Some (length (f_blocks f)),
      set_f_blocks (f_blocks f ++ [b]) (set_f_block_count (f_block_count f + 1) f)) k ∧
    block_ok B (length (f_blocks f)) b.
Proof using Hbs.
  intros HB Hm Hf Hlim. unfold allocate_block_to_file.
  step_with (malloc_ok k Hm). cbn [negb]. steps. unfold BLOCK_SIZE. steps. rewrite HB.
  rewrite (mf_count _ _ Hf). rewrite (i32_small (_ + 1)) by nia. cbv zeta.
  cbn [f_blocks set_f_block_count].
  assert (match last (f_blocks f) with None => 0 | Some b => fb_offset_end b end =
    B * Z.of_nat (length (f_blocks f))) as ->.
  { rewrite last_lookup. destruct (f_blocks f) as [|x l] eqn:E; [simpl; lia|].
    simpl pred. destruct (lookup_lt_is_Some_2 (x :: l) (length l)) as [b Hb]; [simpl; lia|].
    rewrite Hb. rewrite <- E in Hb. destruct (mf_blocks _ _ Hf _ _ Hb) as (_ & -> & _).
    simpl length. lia. }
  eexists. split; [reflexivity|]. split; [done|]. cbn [fb_offset_end fb_data].
  rewrite i32_small by lia. split; [done|]. unfold zlen. rewrite length_replicate. lia.
Qed.

(** The file after a block was appended when there is no current one. *)
Lemma ensure_current_ok f k :
  block_size_of (k_sb k) = B → k_mallocs k = [] → mf_ok B f →
  f_current_offset f + B < 2 ^ 31 →
  ∃ f1 i b extra,
    (if bool_decide (f_current_block f = None) then
       r ← allocate_block_to_file f; mret (set_f_current_block r.1 r.2)
     else mret f) k = Ok f1 k ∧ mf_ok B f1 ∧ f_current_block f1 = Some i ∧
    f_blocks f1 !! i = Some b ∧ mf_bytes f1 = mf_bytes f ++ extra ∧
    f_current_offset f1 = f_current_offset f ∧ f_file_size f1 = f_file_size f ∧
    f_inode_id f1 = f_inode_id f ∧ (f_current_block f = None → i = length (f_blocks f)) ∧
    length (f_blocks f1) = (length (f_blocks f) + if f_current_block f is Some _ then 0 else 1)%nat.
Proof using Hbs.
  intros HB Hm Hf Hlim. pose proof (mf_cursor _ _ Hf) as Hc.
  destruct (f_current_block f) as [i|] eqn:E.
  - rewrite bool_decide_eq_false_2 by done. destruct Hc as [Hi Hr].
    destruct (lookup_lt_is_Some_2 (f_blocks f) i Hi) as [b Hb].
    exists f, i, b, []. rewrite app_nil_r. split_and!; done || lia.
  - rewrite bool_decide_eq_true_2 by done.
    destruct (allocate_block_to_file_ok f k HB Hm Hf) as (b & Ea & Hb); [lia|].
    step_with Ea. cbn [fst snd].
    eexists _, (length (f_blocks f)), b, (fb_data b). split; [reflexivity|].
    assert (length (f_blocks f ++ [b]) = S (length (f_blocks f))) as Hlen
      by (rewrite length_app; simpl; lia).
    split; [|split; [done|split; [by apply list_lookup_middle|split; [|split_and!; try done; simpl; lia]]]].
    + destruct Hf as [H1 H2 H3 H4 H5]. split; cbn [f_blocks f_block_count f_current_block
        f_current_offset f_file_size set_f_current_block set_f_blocks set_f_block_count];
        rewrite ?Hlen; [|lia|nia|nia|done].
      intros j c Hj. destruct (decide (j < length (f_blocks f))%nat).
      * rewrite lookup_app_l in Hj by done. by apply H1.
      * rewrite lookup_app_r in Hj by lia.
        destruct (j - length (f_blocks f))%nat eqn:Ej; [|done]. injection Hj as <-.
        by replace j with (length (f_blocks f)) by lia.
    + unfold mf_bytes. simpl. by rewrite bind_app, bind_cons, app_nil_r.
Qed.

(** Is the offset at the end of the current block? *)
Definition stale (f : mkfile) : Z :=
  match f_current_block f with
  | Some i => if f_current_offset f =? B * Z.of_nat i + B then 1 else 0
  | None => 0
  end.

Lemma prefix_extend f f1 extra t :
  mf_bytes f1 = mf_bytes f ++ extra → t ≤ zlen (mf_bytes f) → mf_prefix t f1 = mf_prefix t f.
Proof. intros He Ht. unfold mf_prefix, zlen in *. by rewrite He, take_app_le by lia. Qed.

(** The block's data replaced and the offset moved inside of the block. *)
Definition advance (f : mkfile) (i : nat) (b : fblock) (bytes : list Z) (o : Z) : mkfile :=
  let f := set_f_blocks (<[i := set_fb_data bytes b]> (f_blocks f)) (set_f_current_offset o f) in
  if o =? B * Z.of_nat i + B then set_f_current_block (next_block f i) f else f.

Lemma length_advance f i b bytes o :
  length (f_blocks (advance f i b bytes o)) = length (f_blocks f).
Proof. unfold advance. destruct (o =? B * Z.of_nat i + B); apply length_insert. Qed.

Lemma advance_ok f i b bytes o :
  mf_ok B f → f_current_block f = Some i → f_blocks f !! i = Some b → zlen bytes = B →
  B * Z.of_nat i ≤ o ≤ B * Z.of_nat i + B →
  mf_ok B (advance f i b bytes o) ∧ stale (advance f i b bytes o) = 0 ∧
  mf_bytes (advance f i b bytes o) = <[i := set_fb_data bytes b]> (f_blocks f) ≫= fb_data ∧
  f_current_offset (advance f i b bytes o) = o ∧
  f_file_size (advance f i b bytes o) = f_file_size f ∧
  f_inode_id (advance f i b bytes o) = f_inode_id f.
Proof using Hbs.
  intros Hf Hi Hb Hl Ho. pose proof (lookup_lt_Some _ _ _ Hb) as Hil.
  assert (∀ j c, <[i := set_fb_data bytes b]> (f_blocks f) !! j = Some c → block_ok B j c) as Hbl.
  { intros j c [[<- [<- _]]|[_ Hj]]%list_lookup_insert_Some; [|by apply (mf_blocks _ _ Hf)].
    destruct (mf_blocks _ _ Hf _ _ Hb) as (H1 & H2 & _). by split. }
  destruct Hf as [_ H2 _ H4 _]. unfold advance. cbv zeta.
  destruct (Z.eqb_spec o (B * Z.of_nat i + B)) as [He|He].
  - split; [|split].
    + split; simpl; rewrite ?length_insert; [done|done| |done|nia].
      unfold next_block. simpl. rewrite length_insert.
      destruct (Nat.ltb_spec (S i) (length (f_blocks f))); [split; [done|nia]|nia].
    + unfold stale, next_block. simpl. rewrite length_insert.
      destruct (Nat.ltb_spec (S i) (length (f_blocks f))); [|done].
      rewrite (proj2 (Z.eqb_neq _ _)); [done|]. rewrite He, Nat2Z.inj_succ. nia.
    + by split_and!.
  - split; [|split].
    + split; simpl; rewrite ?length_insert, ?Hi; [done|done|split; [done|lia]|done|nia].
    + unfold stale. simpl. rewrite Hi. by replace (o =? _) with false by lia.
    + by split_and!.
Qed.

Lemma mk_write_chunk_ok f k data size completed t :
  block_size_of (k_sb k) = B → k_mallocs k = [] → mf_ok B f →
  f_current_offset f + size + B < 2 ^ 31 → 0 < size → 0 ≤ completed →
  completed + size ≤ zlen data → f_current_offset f ≤ t ≤ zlen (mf_bytes f) →
  ∃ f' w, MkFile.write_chunk f data size completed k = Ok (f', size - w, completed + w) k ∧
    mf_ok B f' ∧ 0 ≤ w ≤ size ∧ f_current_offset f' = f_current_offset f + w ∧
    f_file_size f' = f_file_size f ∧ f_inode_id f' = f_inode_id f ∧
    (w = 0 → stale f = 1 ∧ stale f' = 0) ∧
    (stale f' = 0) ∧
    Z.max t (f_current_offset f + w) ≤ zlen (mf_bytes f') ∧
    mf_prefix (Z.max t (f_current_offset f + w)) f' =
      overwrite (f_current_offset f) (dread data completed w) (mf_prefix t f) ∧
    B * Z.of_nat (length (f_blocks f')) ≤
      Z.max (B * Z.of_nat (length (f_blocks f))) (f_current_offset f' + B - 1).
Proof using Hbs.
  intros HB Hm Hf Hlim Hs Hc0 Hc1 Ht. unfold MkFile.write_chunk.
  destruct (ensure_current_ok f k HB Hm Hf) as (f1 & i & b & extra & E & Hf1 & Hi & Hb & Hex &
    Ho & Hfs & Hid & Hnew & Hlen); [lia|].
  step_with E. unfold current. rewrite bind_assoc, Hi. steps. rewrite bind_assoc, Hb. steps.
  destruct (mf_blocks _ _ Hf1 i b Hb) as (Hbst & Hbe & Hbl).
  pose proof (mf_cursor _ _ Hf1) as Hcur. rewrite Hi, Ho in Hcur. destruct Hcur as [Hil Hcur].
  set (o := f_current_offset f) in *. rewrite Hbst, Hbe, Ho.
  replace (i32 (B * Z.of_nat i + B - o)) with (B * Z.of_nat i + B - o)
    by (rewrite i32_small by lia; done).
  rewrite (i32_small (o - B * Z.of_nat i)) by lia.
  set (w := if size <? B * Z.of_nat i + B - o then size else B * Z.of_nat i + B - o).
  assert (w = Z.min size (B * Z.of_nat i + B - o)) as Hw
    by (subst w; destruct (Z.ltb_spec size (B * Z.of_nat i + B - o)); lia).
  rewrite (i32_small (size - w)), (i32_small (o + w)) by lia.
  replace (o + w <? B * Z.of_nat i) with false by lia.
  replace (B * Z.of_nat i + B <? o + w) with false by lia. cbn [orb].
  replace (w <? 0) with false by lia.
  rewrite copy_loop_ok by (rewrite ?Z2Nat.id by lia; lia). rewrite Z2Nat.id by lia. steps.
  set (chunk := dread data completed w).
  assert (zlen chunk = w) as Hch by (apply zlen_dread; lia).
  destruct (advance_ok f1 i b (dsplice (o - B * Z.of_nat i) chunk (fb_data b)) (o + w) Hf1 Hi Hb)
    as (G1 & G2 & G3 & G4 & G5 & G6); [by rewrite zlen_dsplice|lia|].
  eexists (advance f1 i b (dsplice (o - B * Z.of_nat i) chunk (fb_data b)) (o + w)), w.
  rewrite (mf_bytes_update f1 i b) in G3 by (done || lia).
  replace (B * Z.of_nat i + (o - B * Z.of_nat i)) with o in G3 by lia.
  pose proof (zlen_mf_bytes f1 Hf1) as Hz1.
  assert (zlen (mf_bytes f) ≤ zlen (mf_bytes f1)) as Hz
    by (rewrite Hex, zlen_app; pose proof (zlen_nonneg extra); lia).
  assert (B * Z.of_nat i + B ≤ zlen (mf_bytes f1)) by (rewrite Hz1; nia).
  split; [reflexivity|]. split; [done|]. split; [lia|]. split; [done|]. split; [by rewrite G5|].
  split; [by rewrite G6|]. split; [|split; [done|split; [|split]]].
  - intros Hw0. split; [|done]. unfold stale.
    destruct (f_current_block f) as [i'|] eqn:Ei.
    + rewrite bool_decide_eq_false_2 in E by done. injection E as <-.
      rewrite Ei in Hi. injection Hi as ->. fold o. by replace (o =? _) with true by lia.
    + pose proof (mf_cursor _ _ Hf) as Hc. rewrite Ei in Hc. fold o in Hc. specialize (Hnew eq_refl). subst i. lia.
  - rewrite G3, zlen_dsplice. lia.
  - unfold mf_prefix at 1. rewrite G3. rewrite <- Hch at 1.
    rewrite take_dsplice_overwrite by (rewrite ?Hch; lia).
    by rewrite <- (prefix_extend f f1 extra t) by (done || lia).
  - rewrite G4. replace (length (f_blocks (advance f1 i b _ (o + w)))) with (length (f_blocks f1)).
    2:{ symmetry. apply length_advance. }
    rewrite Hlen. destruct (f_current_block f) as [i'|] eqn:Ei; [lia|].
    pose proof (mf_cursor _ _ Hf) as Hc. rewrite Ei in Hc. fold o in Hc.
    specialize (Hnew eq_refl). subst i. lia.
Qed.

Lemma stale_range f : 0 ≤ stale f ≤ 1.
Proof. unfold stale. repeat case_match; lia. Qed.

Lemma write_file_loop_ok fuel : ∀ f k data size completed t,
  block_size_of (k_sb k) = B → k_mallocs k = [] → mf_ok B f →
  f_current_offset f + size + B < 2 ^ 31 → 0 ≤ size → 0 ≤ completed →
  completed + size ≤ zlen data → f_current_offset f ≤ t ≤ zlen (mf_bytes f) →
  (0 < fuel)%nat → size = 0 ∨ size + stale f < Z.of_nat fuel →
  ∃ f', write_file_loop fuel f data size completed k = Ok f' k ∧ mf_ok B f' ∧
    f_current_offset f' = f_current_offset f + size ∧ f_file_size f' = f_file_size f ∧
    f_inode_id f' = f_inode_id f ∧ Z.max t (f_current_offset f + size) ≤ zlen (mf_bytes f') ∧
    mf_prefix (Z.max t (f_current_offset f + size)) f' =
      overwrite (f_current_offset f) (dread data completed size) (mf_prefix t f) ∧
    B * Z.of_nat (length (f_blocks f')) ≤
      Z.max (B * Z.of_nat (length (f_blocks f))) (f_current_offset f' + B - 1).
Proof using Hbs.
  induction fuel as [|fuel IH]; intros f k data size completed t HB Hm Hf Hlim Hs Hc Hd Ht H0 Hfu;
    [lia|].
  pose proof (mf_offset _ _ Hf) as Ho. cbn [write_file_loop].
  destruct (Z.ltb_spec 0 size) as [Hp|Hz]; cbn [negb].
  2:{ assert (size = 0) as -> by lia. exists f. rewrite Z.add_0_r, Z.max_l by lia.
      unfold dread. simpl. rewrite overwrite_nil. split_and!; try done; lia. }
  destruct (mk_write_chunk_ok f k data size completed t) as (f1 & w & E & Hf1 & Hw & Ho1 & Hs1 & Hi1 &
    Hw0 & Hst & Hz1 & Hp1 & Hl1); try done.
  step_with E.
  destruct (IH f1 k data (size - w) (completed + w) (Z.max t (f_current_offset f + w)))
    as (f2 & E2 & Hf2 & Ho2 & Hs2 & Hi2 & Hz2 & Hp2 & Hl2); try done; try lia.
  { pose proof (stale_range f). lia. }
  { rewrite Hst. destruct (decide (w = 0)) as [Hw1|]; [|pose proof (stale_range f); lia].
    destruct (Hw0 Hw1) as [Hst1 _]. lia. }
  rewrite Ho1 in *. replace (f_current_offset f + w + (size - w)) with (f_current_offset f + size)
    in * by lia.
  replace (Z.max (Z.max t (f_current_offset f + w)) (f_current_offset f + size)) with
    (Z.max t (f_current_offset f + size)) in * by lia.
  exists f2. split; [done|]. split; [done|]. split; [done|]. split; [congruence|].
  split; [congruence|]. split; [done|]. split; [|lia]. rewrite Hp2, Hp1.
  assert (zlen (dread data completed w) = w) as Hzw by (apply zlen_dread; lia).
  replace size with (w + (size - w)) at 2 by lia. rewrite dread_app by lia.
  rewrite <- overwrite_app; [by rewrite Hzw|].
  unfold mf_prefix, zlen in *. rewrite length_take. lia.
Qed.

Lemma write_to_file_ok f k data size :
  block_size_of (k_sb k) = B → k_mallocs k = [] → mf_ok B f →
  f_current_offset f + size + B < 2 ^ 31 → 0 ≤ size ≤ zlen data →
  f_current_offset f ≤ f_file_size f →
  ∃ f', write_to_file f data size k = Ok (0, f') k ∧ mf_ok B f' ∧
    f_current_offset f' = f_current_offset f + size ∧ f_inode_id f' = f_inode_id f ∧
    f_file_size f' = Z.max (f_file_size f) (f_current_offset f + size) ∧
    mf_content f' = overwrite (f_current_offset f) (take (Z.to_nat size) data) (mf_content f) ∧
    B * Z.of_nat (length (f_blocks f')) ≤
      Z.max (B * Z.of_nat (length (f_blocks f))) (f_current_offset f' + B - 1).
Proof using Hbs.
  intros HB Hm Hf Hlim Hs Hcur. pose proof (mf_size _ _ Hf) as Hfs. pose proof (zlen_mf_bytes f Hf) as Hz.
  destruct (write_file_loop_ok (S (2 * Z.to_nat size)) f k data size 0 (f_file_size f))
    as (f1 & E & Hf1 & Ho1 & Hs1 & Hi1 & Hz1 & Hp1 & Hl1); try done; try lia.
  { pose proof (stale_range f). lia. }
  unfold write_to_file. step_with E.
  assert ((if f_file_size f1 <? f_current_offset f1 then set_f_file_size (f_current_offset f1) f1 else f1)
    = set_f_file_size (Z.max (f_file_size f) (f_current_offset f + size)) f1) as ->.
  { rewrite Hs1, Ho1. destruct (Z.ltb_spec (f_file_size f) (f_current_offset f + size)).
    - by rewrite Z.max_r by lia.
    - rewrite Z.max_l by lia. rewrite <- Hs1. by destruct f1. }
  eexists. split; [reflexivity|]. split.
  { destruct Hf1 as [H1 H2 H3 H4 H5]. split; try done. cbn [f_file_size set_f_file_size f_blocks].
    rewrite <- (zlen_mf_bytes f1) by (by split). lia. }
  split; [done|]. split; [done|]. split; [done|].
  split; [|exact Hl1]. unfold mf_content. cbn [f_file_size set_f_file_size]. exact Hp1.
Qed.
End file.
