(* ===== verification/MkClose.v ===== *)
(** * Closing a file of the formatter

    [close_file] puts the blocks and the inode of a file on the device in
    the layout the library reads: [disk_layout]. *)
From S2P Require Import Prelude Posix Bitmap LinkList UdbfsTypes BlockLoad.
From S2P Require Import InodeBlocks InodeIO Layout Content Paths ExtendProofs Files.
From S2P Require Import Persist MkTypes MkFile MkWrite.
Local Open Scope Z_scope.

Abbreviation kbytes k := (d_bytes (k_dev k)).

(** The state after allocations of blocks and writes. *)
Definition stored (dev : list Z) (pos : Z) (bm : list Z) (count : Z) (k : mkstate) : mkstate :=
  set_k_dev (Device dev pos true) (took_block bm count k).

Section close.
Context (Ln : nat) (HLn : 16 ≤ Z.of_nat Ln ≤ 2 ^ 12).
Abbreviation B := (bsize Ln).

Lemma mk_bounds : 128 ≤ B ≤ 2 ^ 15 ∧ 0 < B < 2 ^ 16.
Proof using HLn. unfold bsize. lia. Qed.

(** What the operations rely on. *)
Record mk_env (k : mkstate) : Prop := {
  me_block : block_size_of (k_sb k) = B;
  me_mallocs : k_mallocs k = [];
  me_dev : dev_ok (k_dev k);
  me_small : zlen (kbytes k) < 2 ^ 31
}.

Lemma mk_env_stored dev pos bm c k :
  mk_env k → length dev = length (kbytes k) → mk_env (stored dev pos bm c k).
Proof.
  intros [H1 H2 [H3 H4] H5] Hl. split; [done|done| |].
  - split; [done|]. unfold zlen in *. simpl. by rewrite Hl.
  - unfold zlen in *. simpl. by rewrite Hl.
Qed.

Lemma write_block_ok k id data :
  mk_env k → on_device Ln (kbytes k) id → B ≤ zlen data →
  write_block id data k = Ok 0 (set_k_dev (Device
    (dsplice (id * B) (take (Z.to_nat B) data) (kbytes k)) (id * B + B) true) k).
Proof using HLn.
  intros [Hb _ Hd Hs] [H0 H1] Hl. pose proof mk_bounds. unfold write_block, BLOCK_SIZE. steps.
  rewrite Hb, i32_small by nia. replace (zlen data <? B) with false by lia.
  assert (zlen (take (Z.to_nat B) data) = B) as Ht
    by (unfold zlen in *; rewrite length_take; lia).
  rewrite (Z.mul_comm B).
  step_with (write_at_ok (id * B) (take (Z.to_nat B) data) k Hd ltac:(nia)
    ltac:(rewrite Ht; cbn [get_dev mk_device]; lia)).
  cbn [negb get_dev put_dev mk_device]. by rewrite Ht.
Qed.

(** One data block. *)
Lemma block_written id data dev :
  on_device Ln dev id → zlen data = B →
  block_bytes Ln (dsplice (id * B) data dev) id = data ∧
  frame_but Ln [id] 0 0 dev (dsplice (id * B) data dev).
Proof using HLn.
  intros [H0 H1] Hl. pose proof mk_bounds. split.
  - unfold block_bytes. pose proof (dread_dsplice_same (id * B) data dev) as E. rewrite Hl in E.
    apply E; nia.
  - split; [apply length_dsplice|]. intros p Hp Hn _. apply byte_at_dsplice_out; [nia|done|].
    rewrite Hl. destruct (decide (p < id * B)); [by left|].
    destruct (decide (id * B + B ≤ p)); [by right|].
    exfalso. apply Hn. rewrite (block_div Ln id) by lia. by left.
Qed.

Lemma frame_but_app ids ids' dev dev1 dev2 :
  frame_but Ln ids 0 0 dev dev1 → frame_but Ln ids' 0 0 dev1 dev2 →
  frame_but Ln (ids ++ ids') 0 0 dev dev2.
Proof.
  intros [L1 F1] [L2 F2]. split; [congruence|]. intros p Hp Hn Ho.
  apply not_elem_of_app in Hn as [? ?]. by rewrite F2, F1.
Qed.

(** The blocks [ids] hold [datas]. *)
Definition holds (dev : list Z) (ids : list Z) (datas : list (list Z)) : Prop :=
  Forall2 (λ id data, block_bytes Ln dev id = data) ids datas.

Lemma block_bytes_frame ids dev dev' id :
  frame_but Ln ids 0 0 dev dev' → 0 ≤ id → id ∉ ids →
  block_bytes Ln dev' id = block_bytes Ln dev id.
Proof using HLn.
  intros [Hl Hf] Hid Hn. apply dread_ext; [unfold bsize; lia|done|].
  intros p Hp. apply Hf; [unfold bsize in *; lia| |lia].
  rewrite (block_div Ln id) by lia. done.
Qed.

Lemma holds_frame ids0 dev dev' ids datas :
  frame_but Ln ids0 0 0 dev dev' → Forall (λ id, 0 ≤ id ∧ id ∉ ids0) ids →
  holds dev ids datas → holds dev' ids datas.
Proof using HLn.
  intros Hf Hids Hh. induction Hh as [|id data ids datas H1 H2 IH]; [constructor|].
  apply Forall_cons in Hids as [[? ?] ?].
  constructor; [by rewrite (block_bytes_frame ids0 dev)|by apply IH].
Qed.

Lemma store_blocks_ok n : ∀ f k i acc ids free count,
  mk_env k → Forall (λ b, zlen (fb_data b) = B) (f_blocks f) →
  length ids = n → (i + n ≤ length (f_blocks f))%nat →
  f_current_block f = (if (i <? length (f_blocks f))%nat then Some i else None) →
  f_block_count f = Z.of_nat (length (f_blocks f) - i) →
  Z.of_nat (length (f_blocks f)) < 2 ^ 31 →
  blocks_free k (ids ++ free) count → Z.of_nat n ≤ count →
  Forall (on_device Ln (kbytes k)) ids → NoDup ids →
  ∃ f' dev pos bm, store_blocks n f acc k =
      Ok (f', acc ++ ids) (stored dev pos bm (count - Z.of_nat n) k) ∧
    map fb_data (f_blocks f') = map fb_data (f_blocks f) ∧
    f_block_count f' = Z.of_nat (length (f_blocks f) - i - n) ∧
    f_current_block f' = (if (i + n <? length (f_blocks f))%nat then Some (i + n)%nat else None) ∧
    f_inode_id f' = f_inode_id f ∧ f_file_size f' = f_file_size f ∧
    blocks_free (stored dev pos bm (count - Z.of_nat n) k) free (count - Z.of_nat n) ∧
    length bm = length (k_block_bitmap k) ∧
    frame_but Ln ids 0 0 (kbytes k) dev ∧
    holds dev ids (take n (drop i (map fb_data (f_blocks f)))).
Proof using HLn.
  induction n as [|n IH]; intros f k i acc ids free count He Hf Hids Hin Hcur Hcnt Hlim Hfree Hc Hon Hnd.
  - apply nil_length_inv in Hids as ->.
    exists f, (kbytes k), (d_pos (k_dev k)), (k_block_bitmap k).
    rewrite app_nil_r, Z.sub_0_r, Nat.add_0_r, Nat.sub_0_r.
    assert (stored (kbytes k) (d_pos (k_dev k)) (k_block_bitmap k) count k = k) as Hk.
    { destruct Hfree as (_ & _ & _ & <- & _). destruct He as [_ _ [Ho _] _].
      destruct k as [[? ? ?] ? ? [] ? ? ? ? ? ? ? ? ? ?]. simpl in *. by subst. }
    rewrite Hk. split; [done|]. split_and!; try done. constructor.
  - destruct ids as [|id ids]; [done|]. apply Forall_cons in Hon as [Hid Hon].
    apply NoDup_cons in Hnd as [Hni Hnd]. injection Hids as Hids.
    cbn [store_blocks]. destruct (allocate_block_ok k id (ids ++ free) count Hfree) as
      (bm1 & E1 & Hfree1 & Hbm1); [lia|]. step_with E1.
    set (k1 := took_block bm1 (count - 1) k) in *.
    destruct (lookup_lt_is_Some_2 (f_blocks f) i) as [b Hb]; [lia|].
    pose proof (Forall_lookup_1 _ _ _ _ Hf Hb) as Hbl. cbn beta in Hbl.
    unfold current. rewrite Hcur. destruct (Nat.ltb_spec i (length (f_blocks f))); [|lia].
    rewrite bind_assoc. steps. rewrite bind_assoc, Hb. steps.
    assert (mk_env k1) as He1 by (destruct He; by split).
    step_with (write_block_ok k1 id (fb_data b) He1 Hid ltac:(lia)).
    rewrite take_ge by (unfold zlen in Hbl; lia). cbn [fb_block_id set_fb_block_id fb_data].
    match goal with |- context [store_blocks n ?x _ ?s] => set (f2 := x); set (k2 := s) end.
    assert (length (f_blocks f2) = length (f_blocks f)) as Hlen by apply length_insert.
    assert (map fb_data (f_blocks f2) = map fb_data (f_blocks f)) as Hmap.
    { change (fb_data <$> <[i := set_fb_block_id id b]> (f_blocks f) = fb_data <$> f_blocks f).
      rewrite list_fmap_insert. apply list_insert_id.
      rewrite list_lookup_fmap, Hb. done. }
    destruct (block_written id (fb_data b) (kbytes k) Hid Hbl) as [Hw Hfr].
    assert (mk_env k2) as He2 by (apply (mk_env_stored _ _ bm1 (count - 1) k He), length_dsplice).
    destruct (IH f2 k2 (S i) (acc ++ [id]) ids free (count - 1)) as (f' & dev & pos & bm & E & Hd &
      Hfc & Hcu & Hino & Hfs & Hfr' & Hbm & Hframe & Hh); try done.
    + apply Forall_insert; [done|exact Hbl].
    + rewrite Hlen. lia.
    + rewrite Hlen. unfold f2. simpl. rewrite Hcnt, i32_small by lia. lia.
    + by rewrite Hlen.
    + lia.
    + eapply Forall_impl; [exact Hon|]. intros x. apply on_device_length, length_dsplice.
    + rewrite Hlen, Hmap in *.
      replace (count - 1 - Z.of_nat n) with (count - Z.of_nat (S n)) in * by lia.
      exists f', dev, pos, bm. rewrite <- app_assoc in E.
      split; [exact E|]. split; [done|].
      split; [rewrite Hfc; lia|]. split; [rewrite Hcu; by replace (S i + n)%nat with (i + S n)%nat by lia|].
      split; [done|]. split; [done|]. split; [exact Hfr'|]. split; [by rewrite Hbm|].
      split; [by apply (frame_but_app [id] ids _ _ _ Hfr)|].
      assert (map fb_data (f_blocks f) !! i = Some (fb_data b)) as Hdi
        by (by rewrite (list_lookup_fmap fb_data), Hb).
      rewrite (drop_S _ _ _ Hdi). cbn [take]. constructor; [|done].
      rewrite <- Hw. apply (block_bytes_frame ids); [done| |done]. destruct Hid. lia.
Qed.

(** ** Index blocks *)

Lemma index_take n ids :
  (length ids ≤ Ln)%nat → Z.of_nat Ln ≤ n →
  take (Z.to_nat B) (le_words (index_of n ids)) = le_words (pad0 Ln ids) ∧
  B ≤ zlen (le_words (index_of n ids)).
Proof using HLn.
  intros Hl Hn. assert (index_of n ids = pad0 Ln ids ++ replicate (Z.to_nat n - Ln) 0) as ->.
  { unfold index_of, pad0. rewrite <- app_assoc, <- replicate_add. do 2 f_equal. lia. }
  assert (length (le_words (pad0 Ln ids)) = Z.to_nat B) as Hz.
  { rewrite length_le_words, length_pad0 by done. unfold bsize. lia. }
  rewrite le_words_app. split; [by rewrite take_app_length'|].
  unfold zlen. rewrite length_app, Hz. unfold bsize. lia.
Qed.

Lemma stored_stored d p bm c d' p' bm' c' k :
  stored d' p' bm' c' (stored d p bm c k) = stored d' p' bm' c' k.
Proof. done. Qed.

(** The blocks behind the direct ones, when one index block is enough. *)
Lemma generate_ind_ok f k i x ids free count :
  mk_env k → Forall (λ b, zlen (fb_data b) = B) (f_blocks f) →
  length ids = (length (f_blocks f) - i)%nat → (i < length (f_blocks f))%nat →
  (length ids ≤ Ln)%nat → k_ind_limit k = Z.of_nat Ln →
  f_current_block f = Some i → f_block_count f = Z.of_nat (length (f_blocks f) - i) →
  Z.of_nat (length (f_blocks f)) < 2 ^ 31 →
  blocks_free k (x :: ids ++ free) count → Z.of_nat (S (length ids)) <= count →
  Forall (on_device Ln (kbytes k)) (x :: ids) → NoDup (x :: ids) →
  ∃ f' dev pos bm, generate_ind f k =
      Ok (f', x) (stored dev pos bm (count - Z.of_nat (S (length ids))) k) ∧
    f_block_count f' = 0 ∧ f_inode_id f' = f_inode_id f ∧
    blocks_free (stored dev pos bm (count - Z.of_nat (S (length ids))) k) free
      (count - Z.of_nat (S (length ids))) ∧
    length bm = length (k_block_bitmap k) ∧
    frame_but Ln (ids ++ [x]) 0 0 (kbytes k) dev ∧
    holds dev ids (drop i (map fb_data (f_blocks f))) ∧
    block_bytes Ln dev x = le_words (pad0 Ln ids).
Proof using HLn.
  intros He Hf Hids Hi HLi Hlim Hcur Hcnt Hlen Hfree Hc Hon Hnd. pose proof mk_bounds as [HB _].
  apply Forall_cons in Hon as [Hx Hon]. apply NoDup_cons in Hnd as [Hnx Hnd].
  destruct (allocate_block_ok k x (ids ++ free) count Hfree) as (bm1 & E1 & Hfree1 & Hbm1); [lia|].
  unfold generate_ind, BLOCK_SIZE. steps. rewrite Hlim. step_with E1.
  set (k1 := took_block bm1 (count - 1) k) in *. rewrite Hcnt.
  assert ((if Z.of_nat (length (f_blocks f) - i) <? Z.of_nat Ln
    then Z.of_nat (length (f_blocks f) - i) else Z.of_nat Ln) = Z.of_nat (length ids)) as ->
    by (destruct (Z.ltb_spec (Z.of_nat (length (f_blocks f) - i)) (Z.of_nat Ln)); lia).
  rewrite Nat2Z.id. assert (mk_env k1) as He1 by (destruct He; by split).
  destruct (store_blocks_ok (length ids) f k1 i [] ids free (count - 1) He1 Hf eq_refl) as (f' & dev &
    pos & bm & E & Hd & Hfc & Hcu & Hino & _ & Hfr' & Hbm & Hframe & Hh); try done; try lia.
  { by destruct (Nat.ltb_spec i (length (f_blocks f))); [|lia]. }
  step_with E. cbn [fst snd app]. rewrite (me_block _ He).
  replace (B - 3 <? Z.of_nat (length ids)) with false by (unfold bsize in *; lia).
  replace (count - 1 - Z.of_nat (length ids)) with (count - Z.of_nat (S (length ids))) in * by lia.
  set (k2 := stored dev pos bm _ k1) in *.
  destruct (index_take (B - 3) ids HLi) as [Ht1 Ht2]; [unfold bsize in *; lia|].
  assert (mk_env k2) as He2 by (apply mk_env_stored; [done|apply Hframe]).
  assert (on_device Ln (kbytes k2) x) as Hx2 by (eapply on_device_length; [apply Hframe|done]).
  step_with (write_block_ok k2 x _ He2 Hx2 Ht2). rewrite Ht1.
  assert (length (pad0 Ln ids) = Ln) as Hlp by (by apply length_pad0).
  exists f', (dsplice (x * B) (le_words (pad0 Ln ids)) dev), (x * B + B), bm.
  split; [reflexivity|]. split; [rewrite Hfc; lia|]. split; [done|]. split; [exact Hfr'|].
  split; [by rewrite Hbm|].
  assert (frame_but Ln [x] 0 0 dev (dsplice (x * B) (le_words (pad0 Ln ids)) dev)) as Hfx
    by (apply frame_dsplice_block; [lia|destruct Hx; lia|done]).
  split; [by apply (frame_but_app ids [x] _ dev)|]. split.
  - apply (holds_frame [x] dev); [done| |].
    + apply Forall_forall. intros y Hy. apply (proj1 (Forall_forall _ _) Hon) in Hy as Hy'.
      destruct Hy'. split; [lia|]. intros ->%list_elem_of_singleton. done.
    + rewrite take_ge in Hh; [done|]. rewrite length_drop, length_map. lia.
  - apply block_bytes_le_words; [lia|done|done].
Qed.

(** ** The inode *)

Definition inode_offset (k : mkstate) (id : Z) : Z :=
  id * sizeof_inode + sb_inode_first_block (k_sb k) * B.

Lemma write_inode_ok k id pi :
  mk_env k → length (pi_block pi) = 4%nat →
  0 ≤ inode_offset k id → inode_offset k id + sizeof_inode ≤ zlen (kbytes k) →
  write_inode id pi k = Ok 0 (set_k_dev (Device
    (dsplice (inode_offset k id) (encode_inode pi) (kbytes k))
    (inode_offset k id + sizeof_inode) true) k).
Proof using HLn.
  intros [Hb _ Hd Hs] Hl H0 H1. unfold write_inode, BLOCK_SIZE. steps. rewrite Hb.
  fold (inode_offset k id). unfold sizeof_inode in H1. rewrite u64_small, i32_small by lia.
  pose proof (length_encode_inode pi Hl) as Hz. unfold sizeof_inode in Hz.
  step_with (write_at_ok (inode_offset k id) (encode_inode pi) k Hd H0
    ltac:(rewrite Hz; cbn [get_dev mk_device]; lia)).
  cbn [negb get_dev put_dev mk_device]. by rewrite Hz.
Qed.

(** Writing the record in a slot that no block covers. *)
Lemma inode_written dev off pi ids :
  slot_free Ln off ids dev → length (pi_block pi) = 4%nat →
  Forall (λ id, 0 ≤ id) ids →
  let dev' := dsplice off (encode_inode pi) dev in
  dread dev' off sizeof_inode = encode_inode pi ∧
  (∀ id, id ∈ ids → block_bytes Ln dev' id = block_bytes Ln dev id) ∧
  (∀ ids' dev0, frame_but Ln ids' 0 0 dev0 dev → frame_but Ln ids' off sizeof_inode dev0 dev').
Proof using HLn.
  intros (H0 & H1 & H2) Hl Hids dev'. pose proof (length_encode_inode pi Hl) as Hz.
  assert (∀ p, 0 ≤ p → ¬ (off ≤ p < off + sizeof_inode) → byte_at dev' p = byte_at dev p) as Hout.
  { intros p Hp Hn. apply byte_at_dsplice_out; [done|done|]. rewrite Hz. lia. }
  split; [|split].
  - rewrite <- Hz. apply dread_dsplice_same; [done|]. by rewrite Hz.
  - intros id Hin. pose proof (proj1 (Forall_forall _ _) Hids id Hin) as Hid. cbn beta in Hid.
    apply dread_ext; [unfold bsize; lia|apply length_dsplice|]. intros p Hp.
    apply Hout; [unfold bsize in *; lia|]. intros Hr. apply (H2 p Hr).
    by rewrite (block_div Ln id) by lia.
  - intros ids' dev0 [Hf1 Hf2]. split; [by unfold dev'; rewrite length_dsplice|].
    intros p Hp Hn Ho. rewrite Hout by done. apply Hf2; [done|done|lia].
Qed.

(** ** close_file *)

(** The layout of a file of [n] blocks stored in the blocks of [free], and
    how many of them it takes. *)
Definition closed_layout (n : nat) (free : list Z) : layout :=
  if (n <=? 4)%nat then Layout (take n free) None None None
  else Layout (take 4 free) (Some (nth 4 free 0, take (n - 4) (drop 5 free))) None None.

Definition closed_uses (n : nat) : nat := if (n <=? 4)%nat then n else S n.

Lemma holds_bytes dev ids datas :
  holds dev ids datas → file_bytes Ln dev ids = concat datas.
Proof.
  unfold file_bytes. induction 1 as [|id data ids datas H1 H2 IH]; [done|].
  rewrite bind_cons. simpl. by rewrite H1, IH.
Qed.

Lemma holds_stable dev dev' ids datas :
  (∀ id, id ∈ ids → block_bytes Ln dev' id = block_bytes Ln dev id) →
  holds dev ids datas → holds dev' ids datas.
Proof.
  intros Hs Hh. induction Hh as [|id data ids datas H1 H2 IH]; [constructor|].
  constructor; [rewrite Hs by left; done|]. apply IH. intros y Hy. apply Hs. by right.
Qed.

Lemma mf_bytes_concat f : mf_bytes f = concat (map fb_data (f_blocks f)).
Proof.
  unfold mf_bytes. induction (f_blocks f) as [|b bs IH]; [done|]. rewrite bind_cons. simpl.
  by rewrite IH.
Qed.

Section closing.
Context (f : mkfile) (k : mkstate) (free rest : list Z) (count : Z).
Abbreviation n := (length (f_blocks f)).
Abbreviation off := (inode_offset k (f_inode_id f)).
Hypothesis He : mk_env k.
Hypothesis Hf : mf_ok B f.
Hypothesis Hlen : Z.of_nat n < 2 ^ 31.
Hypothesis Hsize : f_file_size f < 2 ^ 31.
Hypothesis Hdir : k_dir_limit k = 4.
Hypothesis Hfree : blocks_free k (free ++ rest) count.
Hypothesis Hcount : Z.of_nat (length free) ≤ count.
Hypothesis Hon : Forall (on_device Ln (kbytes k)) free.
Hypothesis Hnd : NoDup free.
Hypothesis Hslot : slot_free Ln off free (kbytes k).

Lemma datas_ok : Forall (λ b, zlen (fb_data b) = B) (f_blocks f).
Proof using Hf. apply Forall_lookup_2. intros i b Hi. by apply (mf_blocks _ _ Hf i b Hi). Qed.

(** Up to four blocks. *)
Lemma close_small :
  (n ≤ 4)%nat → length free = n →
  ∃ dev pos bm, close_file f k = Ok 0 (stored dev pos bm (count - Z.of_nat n) k) ∧
    blocks_free (stored dev pos bm (count - Z.of_nat n) k) rest (count - Z.of_nat n) ∧
    length bm = length (k_block_bitmap k) ∧
    frame_but Ln free off sizeof_inode (kbytes k) dev ∧
    disk_layout Ln dev off (f_file_size f) (Layout free None None None) ∧
    content Ln dev free (f_file_size f) = mf_content f.
Proof using All.
  intros Hn Hl. unfold close_file. steps. rewrite Hdir, (mf_count _ _ Hf).
  assert ((if Z.of_nat n <? 4 then Z.of_nat n else 4) = Z.of_nat n) as ->
    by (destruct (Z.ltb_spec (Z.of_nat n) 4); lia).
  replace (4 <? Z.of_nat n) with false by lia. rewrite Nat2Z.id.
  set (f1 := set_f_current_block _ f).
  destruct (store_blocks_ok n f1 k 0 [] free rest count He) as (f' & dev & pos & bm & E & Hd &
    Hfc & Hcu & Hino & Hfs & Hfr' & Hbm & Hframe & Hh); try done; try lia.
  { exact datas_ok. }
  { unfold f1. cbn [f_current_block set_f_current_block f_blocks].
    destruct (f_blocks f); [by rewrite bool_decide_eq_true_2|by rewrite bool_decide_eq_false_2]. }
  { unfold f1. cbn [f_block_count set_f_current_block f_blocks]. rewrite (mf_count _ _ Hf). lia. }
  step_with E. cbn [app].
  assert (f_block_count f' = 0) as Hfc0 by (rewrite Hfc; simpl; lia).
  unfold close_level. rewrite Hfc0. cbn [Z.ltb Z.compare]. steps. rewrite Hfc0.
  cbn [Z.ltb Z.compare]. steps. rewrite Hfc0. cbn [Z.ltb Z.compare]. steps.
  set (k1 := stored dev pos bm _ k) in *.
  assert (mk_env k1) as He1 by (apply mk_env_stored; [done|apply Hframe]).
  change (index_of 4 free) with (pad0 4 free).
  assert (length (pad0 4 free) = 4%nat) as Hp by (apply length_pad0; lia).
  rewrite u64_small by (pose proof (mf_size _ _ Hf); lia).
  assert (slot_free Ln off free dev) as Hslot1.
  { destruct Hslot as (S1 & S2 & S3). split; [done|]. split; [|done]. unfold zlen in *.
    by rewrite (proj1 Hframe). }
  pose (pi := UdbfsInode (f_file_size f) (pad0 4 free) 0 0 0).
  step_with (write_inode_ok k1 (f_inode_id f) pi He1 Hp (proj1 Hslot)
    ltac:(exact (proj1 (proj2 Hslot1)))).
  destruct (inode_written dev off pi free Hslot1 Hp) as (W1 & W2 & W3).
  { eapply Forall_impl; [exact Hon|]. intros x [? ?]. lia. }
  exists (dsplice off (encode_inode pi) dev), (off + sizeof_inode), bm.
  split; [reflexivity|]. split; [exact Hfr'|]. split; [done|]. split; [by apply W3|].
  split; [split; [exact W1|intros ? [=]..]|].
  unfold content, mf_content, mf_prefix. f_equal. rewrite mf_bytes_concat.
  apply holds_bytes. apply (holds_stable dev); [done|].
  rewrite drop_0 in Hh. rewrite take_ge in Hh by (rewrite length_map; done). exact Hh.
Qed.

(** The four direct blocks of a longer file. *)
Lemma store_direct d4 free' :
  (4 < n)%nat → free = d4 ++ free' → length d4 = 4%nat →
  ∃ f' dev pos bm,
    store_blocks 4 (set_f_current_block (if bool_decide (f_blocks f = []) then None else Some 0%nat)
      f) [] k = Ok (f', d4) (stored dev pos bm (count - 4) k) ∧
    map fb_data (f_blocks f') = map fb_data (f_blocks f) ∧
    f_block_count f' = Z.of_nat (n - 4) ∧ f_current_block f' = Some 4%nat ∧
    blocks_free (stored dev pos bm (count - 4) k) (free' ++ rest) (count - 4) ∧
    length bm = length (k_block_bitmap k) ∧ frame_but Ln d4 0 0 (kbytes k) dev ∧
    holds dev d4 (take 4 (map fb_data (f_blocks f))).
Proof using All.
  intros Hn -> Hl. rewrite <- app_assoc in Hfree.
  apply Forall_app in Hon as [Hon4 _]. apply NoDup_app in Hnd as (Hnd4 & _ & _).
  rewrite length_app, Hl in Hcount.
  set (f1 := set_f_current_block _ f).
  destruct (store_blocks_ok 4 f1 k 0 [] d4 (free' ++ rest) count He) as (f' & dev & pos & bm & E & Hd &
    Hfc & Hcu & Hino & Hfs & Hfr' & Hbm & Hframe & Hh); try done; try lia.
  { exact datas_ok. }
  { simpl. lia. }
  { unfold f1. cbn [f_current_block set_f_current_block f_blocks].
    destruct (f_blocks f); [simpl in *; lia|by rewrite bool_decide_eq_false_2]. }
  { unfold f1. cbn [f_block_count set_f_current_block f_blocks]. rewrite (mf_count _ _ Hf). lia. }
  exists f', dev, pos, bm. split; [exact E|]. split; [done|].
  split; [rewrite Hfc; simpl; lia|]. split; [|split; [exact Hfr'|by split_and!]].
  rewrite Hcu. simpl. destruct (Nat.ltb_spec 4 n); [done|lia].
Qed.

(** The record written last. *)
Lemma finish_close k1 dev pos bm c pi ids :
  k1 = stored dev pos bm c k → frame_but Ln ids 0 0 (kbytes k) dev →
  length (pi_block pi) = 4%nat → ids ⊆ free →
  ∃ dev' pos', (write_inode (f_inode_id f) pi;; mret 0) k1 = Ok 0 (stored dev' pos' bm c k) ∧
    frame_but Ln ids off sizeof_inode (kbytes k) dev' ∧
    dread dev' off sizeof_inode = encode_inode pi ∧
    ∀ id, id ∈ free → block_bytes Ln dev' id = block_bytes Ln dev id.
Proof using All.
  intros -> Hframe Hp Hids.
  assert (slot_free Ln off free dev) as Hslot1.
  { destruct Hslot as (S1 & S2 & S3). split; [done|]. split; [|done]. unfold zlen in *.
    by rewrite (proj1 Hframe). }
  assert (mk_env (stored dev pos bm c k)) as He1 by (apply mk_env_stored; [done|apply Hframe]).
  step_with (write_inode_ok _ (f_inode_id f) pi He1 Hp (proj1 Hslot)
    ltac:(exact (proj1 (proj2 Hslot1)))).
  destruct (inode_written dev off pi free Hslot1 Hp) as (W1 & W2 & W3).
  { eapply Forall_impl; [exact Hon|]. intros x [? ?]. lia. }
  eexists _, _. split; [reflexivity|]. split; [by apply W3|]. by split.
Qed.

(** Five blocks: the last one is not stored. *)
Lemma close_five :
  n = 5%nat → length free = 4%nat →
  ∃ dev pos bm, close_file f k = Ok 0 (stored dev pos bm (count - 4) k) ∧
    frame_but Ln free off sizeof_inode (kbytes k) dev ∧
    dread dev off sizeof_inode = encode_inode (UdbfsInode (f_file_size f) free 0 0 0) ∧
    file_bytes Ln dev free = take (Z.to_nat (4 * B)) (mf_bytes f).
Proof using All.
  intros Hn Hl. destruct (store_direct free []) as (f' & dev & pos & bm & E & Hd & Hfc & Hcu & Hfr &
    Hbm & Hframe & Hh); [lia|by rewrite app_nil_r|done|].
  unfold close_file. steps. rewrite Hdir, (mf_count _ _ Hf), Hn.
  change (Z.of_nat 5 <? 4) with false. cbv iota. change (4 <? 4) with false. cbv iota.
  change (Z.to_nat 4) with 4%nat. step_with E.
  assert (f_block_count f' = 1) as Hfc1 by (rewrite Hfc, Hn; done).
  unfold close_level. rewrite Hfc1. change (1 <? 1) with false. cbv iota. steps. rewrite Hfc1.
  change (1 <? 1) with false. cbv iota. steps. rewrite Hfc1. change (1 <? 1) with false. cbv iota. steps.
  rewrite u64_small by (pose proof (mf_size _ _ Hf); lia).
  assert (index_of 4 free = free) as ->.
  { unfold index_of. rewrite Hl. simpl. by rewrite app_nil_r. }
  destruct (finish_close _ dev pos bm (count - 4) (UdbfsInode (f_file_size f) free 0 0 0) free
    eq_refl Hframe Hl) as (dev' & pos' & E' & H1 & H2 & H3); [done|].
  exists dev', pos', bm. split; [exact E'|]. split; [done|]. split; [done|].
  rewrite (holds_bytes dev' free (take 4 (map fb_data (f_blocks f)))).
  - rewrite mf_bytes_concat. pose proof datas_ok as Hds. revert Hds Hn. clear.
    intros Hds Hn. destruct (f_blocks f) as [|b0 [|b1 [|b2 [|b3 [|b4 [|]]]]]]; try done.
    repeat match goal with H : Forall _ (_ :: _) |- _ => apply Forall_cons in H as [? H] end.
    simpl. rewrite !app_nil_r, !app_assoc. rewrite take_app_length'; [done|].
    rewrite !length_app. unfold zlen in *. lia.
  - by apply (holds_stable dev).
Qed.

(** Six blocks or more, as many as one index block can hold. *)
Lemma close_ind d4 x ids :
  (5 < n ≤ 4 + Ln)%nat → k_ind_limit k = Z.of_nat Ln →
  free = d4 ++ x :: ids → length d4 = 4%nat → length ids = (n - 4)%nat →
  ∃ dev pos bm, close_file f k =
      Ok 0 (stored dev pos bm (count - Z.of_nat (length free)) k) ∧
    frame_but Ln (d4 ++ ids ++ [x]) off sizeof_inode (kbytes k) dev ∧
    disk_layout Ln dev off (f_file_size f) (Layout d4 (Some (x, ids)) None None) ∧
    content Ln dev (d4 ++ ids) (f_file_size f) = mf_content f.
Proof using All.
  intros Hn HLi Hfe H4 Hids.
  destruct (store_direct d4 (x :: ids)) as (f' & dev & pos & bm & E & Hd & Hfc & Hcu & Hfr &
    Hbm & Hframe & Hh); [lia|done|done|].
  assert (length free = (S (n - 4) + 4)%nat) as Hfl
    by (rewrite Hfe, length_app, H4; simpl; lia).
  assert (Forall (on_device Ln (kbytes k)) (x :: ids) ∧ NoDup (x :: ids) ∧
    ∀ y, y ∈ d4 → y ∉ x :: ids) as (Honx & Hndx & Hdj).
  { rewrite Hfe in Hon, Hnd. apply Forall_app in Hon as [_ ?]. by apply NoDup_app in Hnd as (? & ? & ?). }
  unfold close_file. steps. rewrite Hdir, (mf_count _ _ Hf).
  replace (Z.of_nat n <? 4) with false by lia. change (4 <? 4) with false. cbv iota.
  change (Z.to_nat 4) with 4%nat. step_with E.
  unfold close_level. rewrite Hfc. assert (1 < Z.of_nat (n - 4)) as Hgt. { clear - Hn. lia. }
  rewrite (proj2 (Z.ltb_lt _ _) Hgt).
  set (k1 := stored dev pos bm (count - 4) k) in *.
  assert (mk_env k1) as He1 by (apply mk_env_stored; [done|apply Hframe]).
  assert (length (f_blocks f') = n) as Hlf
    by (rewrite <- (length_map fb_data), Hd; apply length_map).
  destruct (generate_ind_ok f' k1 4 x ids rest (count - 4) He1) as (f2 & dev2 & pos2 & bm2 & E2 &
    Hfc2 & Hino2 & Hfr2 & Hbm2 & Hframe2 & Hh2 & Hx2); try done; try (rewrite ?Hlf; lia).
  { pose proof datas_ok as Hds.
    assert (Forall (λ d, zlen d = B) (fb_data <$> f_blocks f')) as Hds'.
    { change (fb_data <$> f_blocks f') with (map fb_data (f_blocks f')). rewrite Hd.
      apply Forall_fmap. exact Hds. }
    by apply Forall_fmap in Hds'. }
  { eapply Forall_impl; [exact Honx|]. intros y. apply on_device_length. by destruct Hframe. }
  step_with E2. rewrite Hfc2. change (1 <? 0) with false. cbv iota. steps. rewrite Hfc2.
  change (1 <? 0) with false. cbv iota. steps. rewrite u64_small by (pose proof (mf_size _ _ Hf); lia).
  replace (count - 4 - Z.of_nat (S (length ids))) with (count - Z.of_nat (length free)) in *
    by (rewrite Hfl; lia).
  destruct (finish_close _ dev2 pos2 bm2 (count - Z.of_nat (length free))
    (UdbfsInode (f_file_size f) (pad0 4 d4) x 0 0) (d4 ++ ids ++ [x]) eq_refl)
    as (dev' & pos' & E' & H1 & H2 & H3).
  { by apply (frame_but_app d4 (ids ++ [x]) _ dev). }
  { apply length_pad0. lia. }
  { rewrite Hfe. set_solver. }
  exists dev', pos', bm2. split; [exact E'|]. split; [done|].
  assert (∀ y, y ∈ d4 ++ ids → y ∈ free) as Hsub.
  { rewrite Hfe. intros y. rewrite !elem_of_app, elem_of_cons. tauto. }
  split.
  - split; [exact H2| |intros ? [=]..]. intros i [= <-]. unfold disk_ind. simpl.
    rewrite H3; [done|]. rewrite Hfe, elem_of_app, elem_of_cons. tauto.
  - unfold content, mf_content, mf_prefix. f_equal. rewrite mf_bytes_concat.
    apply holds_bytes. rewrite <- (take_drop 4 (map fb_data (f_blocks f))). apply Forall2_app.
    + apply (holds_stable dev2); [intros y Hy; apply H3, Hsub, elem_of_app; by left|].
      apply (holds_frame (ids ++ [x]) dev); [done| |done].
      apply Forall_forall. intros y Hy. specialize (Hdj y Hy).
      rewrite Hfe in Hon. apply Forall_app in Hon as [Hon4 _].
      apply (proj1 (Forall_forall _ _) Hon4) in Hy. destruct Hy. split; [lia|].
      clear - Hdj. set_solver.
    + apply (holds_stable dev2); [intros y Hy; apply H3, Hsub, elem_of_app; by right|].
      by rewrite Hd in Hh2.
Qed.
End closing.
End close.
