(* ===== verification/MkColumns.v ===== *)
(** * Sorting the columns of a table

    [reorder_columns_by_size] relinks the list of columns in place; the
    result is a permutation of the list in descending order of the natural
    boundaries, and nothing but the links has changed. *)
From S2P Require Import Prelude Posix LinkList UdbfsTypes MkTypes MkFile MkTable.
From Stdlib Require Import Sorted.
Local Open Scope Z_scope.

Implicit Types m : gmap loc column_desc.

(** ** Lists of columns *)

(** The columns [l] are linked from [p] on up to the pointer [q]. *)
Fixpoint cseg m (p : option loc) (l : list loc) (q : option loc) : Prop :=
  match l with
  | [] => p = q
  | x :: l => p = Some x ∧ ∃ c, m !! x = Some c ∧ cseg m (cd_next c) l q
  end.

Definition clist m (p : option loc) (l : list loc) : Prop := cseg m p l None ∧ NoDup l.

Lemma cseg_app m p l1 l2 q :
  cseg m p (l1 ++ l2) q ↔ ∃ r, cseg m p l1 r ∧ cseg m r l2 q.
Proof.
  revert p; induction l1 as [|x l1 IH]; intros p; simpl.
  - split; [by exists p|]. by intros (r & -> & ?).
  - split.
    + intros (-> & c & Hc & H). apply IH in H as (r & ? & ?). exists r. split; [|done].
      split; [done|]. by exists c.
    + intros (r & (-> & c & Hc & H) & H2). split; [done|]. exists c. split; [done|].
      apply IH. by exists r.
Qed.

Lemma cseg_frame m m' p l q :
  (∀ x, x ∈ l → m' !! x = m !! x) → cseg m p l q → cseg m' p l q.
Proof.
  revert p; induction l as [|x l IH]; intros p Hm; [done|]. intros (-> & c & Hc & H).
  split; [done|]. exists c. rewrite Hm by left. split; [done|].
  apply IH; [|done]. intros y Hy. apply Hm. by right.
Qed.

Lemma cseg_mem m p l q x : cseg m p l q → x ∈ l → is_Some (m !! x).
Proof.
  revert p; induction l as [|y l IH]; intros p H Hx; [by apply not_elem_of_nil in Hx|].
  destruct H as (-> & c & Hc & H). apply elem_of_cons in Hx as [->|Hx]; [by exists c|by eapply IH].
Qed.

(** Redirecting the last link. *)
Lemma cseg_last m p l x c q r :
  cseg m p (l ++ [x]) q → NoDup (l ++ [x]) → m !! x = Some c →
  cseg (<[x := set_cd_next r c]> m) p (l ++ [x]) r.
Proof.
  intros H Hnd Hc. apply cseg_app in H as (s & H1 & -> & c' & _ & _).
  apply NoDup_app in Hnd as (_ & Hx & _). apply cseg_app. exists (Some x). split.
  - eapply cseg_frame; [|exact H1]. intros y Hy. rewrite lookup_insert_ne; [done|].
    intros ->. apply (Hx y Hy). left.
  - split; [done|]. exists (set_cd_next r c). by rewrite lookup_insert_eq.
Qed.

(** Only the links differ. *)
Definition unlinked (c : column_desc) : column_desc := set_cd_next None c.
Definition same_columns m m' : Prop := ∀ x, unlinked <$> m' !! x = unlinked <$> m !! x.

Lemma same_columns_refl m : same_columns m m.
Proof. done. Qed.
Lemma same_columns_trans m1 m2 m3 : same_columns m1 m2 → same_columns m2 m3 → same_columns m1 m3.
Proof. intros H1 H2 x. by rewrite H2, H1. Qed.
Lemma same_columns_set m x c r : m !! x = Some c → same_columns m (<[x := set_cd_next r c]> m).
Proof.
  intros Hc y. destruct (decide (y = x)) as [->|Hn].
  - by rewrite lookup_insert_eq, Hc.
  - by rewrite lookup_insert_ne.
Qed.
Lemma same_columns_size m m' : same_columns m m' → size m' = size m.
Proof.
  intros H. rewrite <- !size_dom. f_equal. apply set_eq. intros x. rewrite !elem_of_dom.
  specialize (H x). destruct (m' !! x), (m !! x); done.
Qed.

Lemma clist_size m p l q : cseg m p l q → NoDup l → (length l ≤ size m)%nat.
Proof.
  intros H Hnd. rewrite <- (size_list_to_set (C := gset loc) l Hnd), <- size_dom.
  apply subseteq_size. intros x. rewrite elem_of_list_to_set, elem_of_dom. by apply (cseg_mem m p l q).
Qed.

(** ** The loops *)

Definition bnd m (x : loc) : Z := default 0 (cd_natural_boundary <$> m !! x).

Lemma bnd_same m m' x : same_columns m m' → bnd m' x = bnd m x.
Proof.
  intros H. specialize (H x). unfold bnd.
  destruct (m' !! x) as [[]|], (m !! x) as [[]|]; simpl in *; by simplify_eq.
Qed.

Lemma get_column_ok k x c : k_cols k !! x = Some c → get_column x k = Ok c k.
Proof. intros H. unfold get_column. steps. unfold id. by rewrite H. Qed.

Lemma set_next_ok k x c r :
  k_cols k !! x = Some c →
  set_next x r k = Ok tt (set_k_cols (<[x := set_cd_next r c]> (k_cols k)) k).
Proof. intros H. unfold set_next. by step_with (get_column_ok k x c H). Qed.

(** The first of the largest columns of [pre]; [ptl] is the one before it. *)
Definition largest_of m (pre : list loc) (largest : loc) (ptl : option loc) : Prop :=
  ∃ a b, pre = a ++ largest :: b ∧ (a ≠ [] → ptl = last a) ∧
    Forall (λ x, bnd m x < bnd m largest) a ∧ Forall (λ x, bnd m x ≤ bnd m largest) b.

Lemma find_largest_ok fuel : ∀ k p pre l largest previous ptl,
  cseg (k_cols k) p l None → (length l < fuel)%nat →
  largest_of (k_cols k) pre largest ptl → previous = last pre →
  (∀ x, x ∈ pre → is_Some (k_cols k !! x)) →
  ∃ largest' previous' ptl', find_largest fuel p largest previous ptl k =
    Ok (largest', previous', ptl') k ∧ largest_of (k_cols k) (pre ++ l) largest' ptl'.
Proof.
  induction fuel as [|fuel IH]; intros k p pre l largest previous ptl Hl Hf Hlg Hpv Hin; [lia|].
  destruct l as [|s l]; simpl in Hl.
  { subst p. exists largest, previous, ptl. rewrite app_nil_r. by split. }
  destruct Hl as (-> & c & Hc & Hl). cbn [find_largest]. step_with (get_column_ok k s c Hc).
  pose proof Hlg as (a & b & Epre & Hpt & Ha & Hb).
  assert (is_Some (k_cols k !! largest)) as [cl Hcl].
  { apply Hin. rewrite Epre. apply elem_of_app. right. left. }
  step_with (get_column_ok k largest cl Hcl).
  assert (bnd (k_cols k) s = cd_natural_boundary c) as Bs by (unfold bnd; by rewrite Hc).
  assert (bnd (k_cols k) largest = cd_natural_boundary cl) as Bl by (unfold bnd; by rewrite Hcl).
  assert (∀ lg pt, largest_of (k_cols k) (pre ++ [s]) lg pt →
    ∃ largest' previous' ptl', find_largest fuel (cd_next c) lg (Some s) pt k =
      Ok (largest', previous', ptl') k ∧ largest_of (k_cols k) (pre ++ s :: l) largest' ptl') as Hrec.
  { intros lg pt Hlg'. destruct (IH k (cd_next c) (pre ++ [s]) l lg (Some s) pt Hl) as
      (l1 & p1 & t1 & E & H1); [simpl in Hf; lia|done|by rewrite last_snoc| |].
    - intros x [Hx| ->%list_elem_of_singleton]%elem_of_app; [by apply Hin|by exists c].
    - exists l1, p1, t1. split; [done|]. by rewrite <- app_assoc in H1. }
  destruct (Z.ltb_spec (cd_natural_boundary cl) (cd_natural_boundary c)) as [Hlt|Hge].
  - cbn [fst snd]. apply Hrec. exists pre, []. split; [done|]. split; [by rewrite <- Hpv|].
    split; [|constructor]. rewrite Epre. apply Forall_app.
    split; [|constructor; [cbn beta; lia|]].
    + eapply Forall_impl; [exact Ha|]. cbn beta. intros x Hx. rewrite Bs. lia.
    + eapply Forall_impl; [exact Hb|]. cbn beta. intros x Hx. rewrite Bs. lia.
  - cbn [fst snd]. apply Hrec. exists a, (b ++ [s]). split; [by rewrite Epre, <- app_assoc|].
    split; [done|]. split; [done|]. apply Forall_app. split; [done|]. constructor; [cbn beta; lia|done].
Qed.

(** Taking the largest column out of the unsorted list. *)
Lemma take_out k u us a x b ptl c :
  cseg (k_cols k) (Some u) (u :: us) None → NoDup (u :: us) → u :: us = a ++ x :: b →
  (a ≠ [] → ptl = last a) → k_cols k !! x = Some c →
  ∃ p m, (if bool_decide (x = u) then mret (cd_next c)
          else q ← deref ptl; set_next q (cd_next c);; mret (Some u)) k = Ok p (set_k_cols m k) ∧
    same_columns (k_cols k) m ∧ cseg m p (a ++ b) None ∧
    ∀ y, y ∉ a → m !! y = k_cols k !! y.
Proof.
  intros Hl Hnd E Hptl Hc. destruct a as [|u' a].
  - simpl in E. injection E as <- <-. rewrite bool_decide_eq_true_2 by done.
    exists (cd_next c), (k_cols k). destruct Hl as (_ & c' & Hc' & Hl). rewrite Hc in Hc'.
    injection Hc' as <-. split; [by destruct k|]. by split_and!.
  - injection E as <- E. rewrite E in Hnd, Hl.
    rewrite bool_decide_eq_false_2.
    2:{ intros ->. apply NoDup_cons in Hnd as [Hn _]. apply Hn, elem_of_app. right. left. }
    rewrite (Hptl ltac:(done)).
    destruct (exists_last (l := u :: a)) as (a' & q & Ea); [done|]. rewrite Ea in *.
    change (u :: a ++ x :: b) with ((u :: a) ++ x :: b) in Hnd, Hl. rewrite Ea in Hnd, Hl.
    rewrite last_snoc. steps.
    assert (is_Some (k_cols k !! q)) as [cq Hcq].
    { eapply cseg_mem; [exact Hl|]. apply elem_of_app. left. apply elem_of_app. right. left. }
    step_with (set_next_ok k q cq (cd_next c) Hcq). eexists _, _. split; [reflexivity|].
    split; [by apply same_columns_set|].
    apply cseg_app in Hl as (r & H1 & Hr & cx & Hcx & H2). rewrite Hc in Hcx. injection Hcx as <-.
    apply NoDup_app in Hnd as (Hnd1 & Hdj & Hnd2). split.
    + apply cseg_app. exists (cd_next c). split; [by eapply cseg_last|].
      eapply cseg_frame; [|exact H2]. intros y Hy. rewrite lookup_insert_ne; [done|].
      intros ->. apply (Hdj y); [apply elem_of_app; right; left|by right].
    + intros y Hy. rewrite lookup_insert_ne; [done|]. intros ->. apply Hy, elem_of_app. right. left.
Qed.

(** The pointer to the last sorted column, once there is one. *)
Definition sorted_part m (sorted last_sorted : option loc) (S : list loc) : Prop :=
  cseg m sorted S None ∧ (S ≠ [] → last_sorted = last S).

(** Appending it to the sorted ones. *)
Lemma put_last k sorted last_sorted S x c :
  sorted_part (k_cols k) sorted last_sorted S → NoDup (S ++ [x]) → k_cols k !! x = Some c →
  ∃ p m, (r ← match sorted with
              | None => mret (Some x)
              | Some s => t ← deref last_sorted; set_next t (Some x);; mret (Some s)
              end; set_next x None;; mret r) k = Ok p (set_k_cols m k) ∧
    same_columns (k_cols k) m ∧ sorted_part m p (Some x) (S ++ [x]) ∧
    ∀ y, y ∉ S ++ [x] → m !! y = k_cols k !! y.
Proof.
  intros [Hs Hl] Hnd Hc. destruct S as [|s S].
  - simpl in Hs. subst sorted. steps. step_with (set_next_ok k x c None Hc). eexists _, _.
    split; [reflexivity|]. split; [by apply same_columns_set|]. split.
    + split; [|done]. simpl. split; [done|]. exists (set_cd_next None c).
      by rewrite lookup_insert_eq.
    + intros y Hy. rewrite lookup_insert_ne; [done|]. set_solver.
  - assert (sorted = Some s) as -> by (by destruct Hs). rewrite (Hl ltac:(done)).
    destruct (exists_last (l := s :: S)) as (S' & t & Es); [done|]. rewrite Es in *.
    rewrite last_snoc, bind_assoc. steps.
    assert (is_Some (k_cols k !! t)) as [ct Hct].
    { eapply cseg_mem; [exact Hs|]. apply elem_of_app. right. left. }
    rewrite bind_assoc. step_with (set_next_ok k t ct (Some x) Hct). steps.
    apply NoDup_app in Hnd as (Hnd & Hdj & _).
    assert (t ≠ x) as Htx.
    { intros ->. apply (Hdj x); [apply elem_of_app; right; left|left]. }
    set (k1 := set_k_cols _ k).
    assert (k_cols k1 !! x = Some c) as Hc1 by (simpl; by rewrite lookup_insert_ne).
    step_with (set_next_ok k1 x c None Hc1). eexists _, _. split; [reflexivity|].
    split; [|split].
    + eapply same_columns_trans; [by apply same_columns_set|].
      change (<[t:=set_cd_next (Some x) ct]> (k_cols k)) with (k_cols k1).
      by apply same_columns_set.
    + split; [|by rewrite last_snoc]. apply cseg_app. exists (Some x). split.
      * eapply cseg_frame; [|by eapply cseg_last]. intros y Hy. rewrite lookup_insert_ne; [done|].
        intros ->. apply (Hdj y Hy). left.
      * split; [done|]. exists (set_cd_next None c). by rewrite lookup_insert_eq.
    + intros y Hy. simpl. rewrite lookup_insert_ne by set_solver.
      rewrite lookup_insert_ne; [done|]. intros ->. apply Hy, elem_of_app. left.
      apply elem_of_app. right. left.
Qed.

Lemma bind_return_early {A B : Type} (f : M mkstate A) (g : M mkstate unit)
    (h : A → M mkstate B) k p k' :
  (r ← f; g;; mret r) k = Ok p k' → (r ← f; g;; h r) k = h p k'.
Proof.
  unfold mbind, M_bind, mret, M_ret. destruct (f k) as [a k1| | |]; try done.
  destruct (g k1) as [b k2| | |]; try done. by intros [= -> ->].
Qed.

Definition descending m : list loc → Prop := StronglySorted (λ x y, bnd m y ≤ bnd m x).

Lemma descending_same m m' l : same_columns m m' → descending m' l → descending m l.
Proof.
  intros Hs H. induction H as [|x l H IH Hx]; constructor; [done|].
  eapply Forall_impl; [exact Hx|]. intros y. cbn beta. by rewrite !(bnd_same _ _ _ Hs).
Qed.

Lemma descending_same' m m' l : same_columns m m' → descending m l → descending m' l.
Proof. intros Hs. apply descending_same. intros x. by rewrite Hs. Qed.

(** A list that is in order already stays as it is. *)
Lemma reorder_loop_ok fuel : ∀ k U S unsorted sorted last_sorted previous ptl,
  cseg (k_cols k) unsorted U None → sorted_part (k_cols k) sorted last_sorted S →
  NoDup (S ++ U) → (length U < fuel)%nat →
  ∃ p m T, reorder_loop fuel unsorted sorted last_sorted previous ptl k = Ok p (set_k_cols m k) ∧
    same_columns (k_cols k) m ∧ cseg m p (S ++ T) None ∧ T ≡ₚ U ∧ descending (k_cols k) T ∧
    (descending (k_cols k) U → T = U).
Proof.
  induction fuel as [|fuel IH]; intros k U S unsorted sorted last_sorted previous ptl HU HS Hnd Hf;
    [lia|].
  destruct U as [|u us].
  { simpl in HU. subst unsorted. exists sorted, (k_cols k), []. rewrite app_nil_r.
    split; [by destruct k|]. split; [done|]. split; [apply HS|]. split; [done|]. split; [constructor|done]. }
  pose proof HU as (-> & cu & Hcu & HU2). pose proof Hnd as (HndS & HSU & HndU)%NoDup_app.
  pose proof (clist_size _ _ _ _ HU HndU) as Hsize. simpl in Hsize, Hf.
  cbn [reorder_loop]. steps.
  assert (∃ x pv pt, find_largest (Datatypes.S (size (k_cols k))) (Some u) u previous ptl k =
    Ok (x, pv, pt) k ∧ largest_of (k_cols k) ([u] ++ us) x pt) as (x & pv & pt & E & Hlg).
  { cbn [find_largest]. do 2 step_with (get_column_ok k u cu Hcu).
    replace (cd_natural_boundary cu <? cd_natural_boundary cu) with false by lia. cbn [fst snd].
    apply find_largest_ok; [done|lia| |done|].
    - exists [], []. by split_and!.
    - intros y ->%list_elem_of_singleton. by exists cu. }
  step_with E. destruct Hlg as (a & b & EU & Hpt & Ha & Hb). simpl in EU.
  assert (x ∈ u :: us) as Hxin by (rewrite EU; apply elem_of_app; right; left).
  destruct (cseg_mem _ _ _ _ x HU Hxin) as [c Hc].
  step_with (get_column_ok k x c Hc).
  destruct (take_out k u us a x b pt c HU HndU EU Hpt Hc) as (p1 & m1 & E1 & Hs1 & HU1 & Hf1).
  step_with E1.
  assert ((x ∉ S) ∧ (x ∉ a) ∧ (x ∉ b) ∧ NoDup (S ++ a ++ b)) as (HxS & Hxa & Hxb & Hnd').
  { rewrite EU in Hnd. rewrite <- Permutation_middle, NoDup_app in Hnd.
    destruct Hnd as (N1 & N2 & [N3 N4]%NoDup_cons). repeat split.
    - intros Hx. by apply (N2 x Hx); left.
    - set_solver.
    - set_solver.
    - apply NoDup_app. split; [done|]. split; [|done]. intros y Hy Hy'. by apply (N2 y Hy); right. }
  set (k1 := set_k_cols m1 k).
  assert (sorted_part (k_cols k1) sorted last_sorted S) as HS1.
  { destruct HS as [HS Hls]. split; [|done]. eapply cseg_frame; [|exact HS]. intros y Hy. apply Hf1.
    intros Hya. apply (HSU y Hy). rewrite EU. apply elem_of_app. by left. }
  assert (∃ c', k_cols k1 !! x = Some c') as [c' Hc'] by (exists c; simpl; by rewrite Hf1).
  destruct (put_last k1 sorted last_sorted S x c' HS1) as (p2 & m2 & E2 & Hs2 & HS2 & Hf2); [|done|].
  { apply NoDup_app. split; [done|]. split; [set_solver|]. apply NoDup_singleton. }
  rewrite (bind_return_early _ _ _ _ _ _ E2). set (k2 := set_k_cols m2 k1).
  assert (cseg (k_cols k2) p1 (a ++ b) None) as HU3.
  { eapply cseg_frame; [|exact HU1]. intros y Hy. apply Hf2. apply NoDup_app in Hnd' as (_ & Hn & _).
    intros [Hy'| ->%list_elem_of_singleton]%elem_of_app; [by apply (Hn y)|set_solver]. }
  assert (length (a ++ b) < fuel)%nat as Hfuel.
  { apply (f_equal length) in EU. rewrite length_app in *. simpl in EU. lia. }
  destruct (IH k2 (a ++ b) (S ++ [x]) p1 p2 (Some x) pv pt HU3 HS2) as (p & m & T & E3 & Hs3 & HT & HP & HD & Hst);
    [|done|].
  { rewrite <- app_assoc. simpl. rewrite <- Permutation_middle. apply NoDup_cons. split; [set_solver|done]. }
  assert (same_columns (k_cols k) (k_cols k2)) as Hs12 by by eapply same_columns_trans.
  exists p, m, (x :: T). split; [exact E3|]. split; [by eapply same_columns_trans|].
  rewrite <- app_assoc in HT. split; [exact HT|]. split.
  { rewrite HP, EU. apply Permutation_middle. }
  split.
  { constructor; [by eapply descending_same|]. rewrite HP. apply Forall_app. split; [|done].
    eapply Forall_impl; [exact Ha|]. cbn beta. intros y Hy. lia. }
  intros HU'. inversion HU' as [|? ? Hus Hu]; subst. destruct a as [|u' a]; simpl in EU.
  - injection EU as <- <-. f_equal. apply Hst. cbn [app]. by eapply descending_same'.
  - exfalso. injection EU as <- ->. apply Forall_cons in Ha as [Ha _].
    apply Forall_app in Hu as [_ [Hu _]%Forall_cons]. cbn beta in Ha, Hu. lia.
Qed.

(** The list of the table, sorted. *)
Lemma reorder_columns_ok k t l :
  clist (k_cols k) (tab_cols t) l →
  ∃ p m T, reorder_columns_by_size t k = Ok (set_tab_cols p t) (set_k_cols m k) ∧
    same_columns (k_cols k) m ∧ clist m p T ∧ T ≡ₚ l ∧ descending (k_cols k) T ∧
    (descending (k_cols k) l → T = l).
Proof.
  intros [Hl Hnd]. unfold reorder_columns_by_size. steps.
  pose proof (clist_size _ _ _ _ Hl Hnd) as Hs.
  destruct (reorder_loop_ok (S (size (k_cols k))) k l [] (tab_cols t) None None None None)
    as (p & m & T & E & H1 & H2 & H3 & H4 & H5); [done|by split|done|lia|].
  exists p, m, T. step_with E. split; [done|]. split; [done|]. split; [|done]. split; [done|].
  by rewrite H3.
Qed.

(** ** The place of each column in a record *)

Definition mask_low (n : Z) (x : Z) : Z := Z.land x (u32 (- 2 ^ n)).

Lemma mask_low_spec n x : 0 ≤ n ≤ 32 → 0 ≤ x < 2 ^ 32 → mask_low n x = x - x mod 2 ^ n.
Proof.
  intros Hn Hx. unfold mask_low, u32.
  assert (0 < 2 ^ n ≤ 2 ^ 32) as Hp by (split; [lia|apply Z.pow_le_mono_r; lia]).
  assert ((- 2 ^ n) mod 2 ^ 32 = Z.shiftl (Z.ones (32 - n)) n) as ->.
  { rewrite Z.shiftl_mul_pow2, Z.ones_equiv by lia.
    replace (Z.pred (2 ^ (32 - n)) * 2 ^ n) with (2 ^ (32 - n) * 2 ^ n - 2 ^ n) by lia.
    rewrite <- Z.pow_add_r by lia. replace (32 - n + n) with 32 by lia.
    symmetry. apply Z.mod_unique with (-1); lia. }
  assert (x - x mod 2 ^ n = Z.shiftl (Z.shiftr x n) n) as ->.
  { rewrite Z.shiftl_mul_pow2, Z.shiftr_div_pow2 by lia. pose proof (Z.div_mod x (2 ^ n)). lia. }
  apply Z.bits_inj'. intros i Hi. rewrite Z.land_spec, !Z.shiftl_spec by lia.
  destruct (Z.ltb_spec i n) as [Hin|Hin].
  - rewrite (Z.testbit_neg_r _ (i - n)), (Z.testbit_neg_r (Z.shiftr x n)) by lia. by rewrite andb_false_r.
  - rewrite Z.shiftr_spec by lia. replace (i - n + n) with i by lia.
    rewrite Z.testbit_ones_nonneg by lia. destruct (Z.ltb_spec (i - n) (32 - n)); [by rewrite andb_true_r|].
    rewrite andb_false_r. symmetry. destruct (decide (x = 0)) as [->|]; [by rewrite Z.bits_0|].
    apply Z.bits_above_log2; [lia|]. enough (Z.log2 x < 32) by lia. apply Z.log2_lt_pow2; lia.
Qed.

Definition encoded m (x : loc) : Z := default 0 (cd_encoded_size <$> m !! x).
Fixpoint total_bits m (l : list loc) : Z :=
  match l with [] => 0 | x :: l => encoded m x + total_bits m l end.

(** The columns [l] lie one after the other from bit [base] of a record. *)
Fixpoint placed m (base : Z) (l : list loc) : Prop :=
  match l with
  | [] => True
  | x :: l => (∃ c, m !! x = Some c ∧ 0 ≤ c_shift (cd_column c) < 8 ∧
                8 * c_offset (cd_column c) + c_shift (cd_column c) = base) ∧
              placed m (base + encoded m x) l
  end.

Lemma placed_frame m m' base l :
  (∀ x, x ∈ l → m' !! x = m !! x) → placed m base l → placed m' base l.
Proof.
  revert base; induction l as [|x l IH]; intros base Hf; [done|]. simpl.
  unfold encoded. rewrite (Hf x) by left. intros [H1 H2]. split; [done|].
  apply IH; [|done]. intros y Hy. apply Hf. by right.
Qed.
Lemma total_bits_frame m m' l :
  (∀ x, x ∈ l → m' !! x = m !! x) → total_bits m' l = total_bits m l.
Proof.
  induction l as [|x l IH]; intros Hf; [done|]. simpl. unfold encoded.
  rewrite (Hf x) by left. f_equal. apply IH. intros y Hy. apply Hf. by right.
Qed.
Lemma total_bits_nonneg m l : (∀ x, 0 ≤ encoded m x) → 0 ≤ total_bits m l.
Proof. intros H. induction l as [|x l IH]; simpl; [lia|]. specialize (H x). lia. Qed.

(** Only the places differ. *)
Definition unplaced (c : column_desc) : column_desc :=
  set_cd_column (set_c_shift 0 (set_c_offset 0 (cd_column c))) c.
Definition same_but_places m m' : Prop := ∀ x, unplaced <$> m' !! x = unplaced <$> m !! x.

Lemma encoded_unplaced m m' x : same_but_places m m' → encoded m' x = encoded m x.
Proof.
  intros H. specialize (H x). unfold encoded. destruct (m' !! x) as [[]|], (m !! x) as [[]|]; try done.
  simpl in *. by injection H.
Qed.

Lemma place_columns_ok fuel : ∀ k p l t,
  cseg (k_cols k) p l None → NoDup l → (length l < fuel)%nat →
  (∀ x, 0 ≤ encoded (k_cols k) x) → 0 ≤ t_record_size t → 0 ≤ t_column_count t < 2 ^ 16 →
  t_record_size t + total_bits (k_cols k) l < 2 ^ 32 →
  ∃ t' m, place_columns fuel p t k = Ok t' (set_k_cols m k) ∧
    t' = set_t_record_size (t_record_size t + total_bits (k_cols k) l)
      (set_t_column_count (u16 (t_column_count t + Z.of_nat (length l))) t) ∧
    cseg m p l None ∧ placed m (t_record_size t) l ∧
    (∀ x, x ∉ l → m !! x = k_cols k !! x) ∧ same_but_places (k_cols k) m.
Proof.
  induction fuel as [|fuel IH]; intros k p l t Hl Hnd Hf Hen Hrs Hcc Hsum; [lia|].
  destruct l as [|x l].
  { simpl in Hl. subst p. exists t, (k_cols k). cbn [place_columns total_bits length].
    rewrite !Z.add_0_r, u16_small by lia. split; [by destruct k|]. split; [by destruct t|]. by split_and!. }
  destruct Hl as (-> & c & Hc & Hl). apply NoDup_cons in Hnd as [Hx Hnd].
  cbn [place_columns]. step_with (get_column_ok k x c Hc). unfold put_column. steps.
  set (t1 := set_t_column_count _ t). change (t_record_size t1) with (t_record_size t).
  set (c1 := set_cd_column _ c). set (k1 := set_k_cols _ k). cbn [total_bits length] in Hsum.
  pose proof (total_bits_nonneg _ l Hen) as Hpos. pose proof (Hen x) as Hex.
  assert (encoded (k_cols k) x = cd_encoded_size c) as Eex by (unfold encoded; by rewrite Hc).
  rewrite u32_small with (z := cd_encoded_size c) by lia.
  rewrite u32_small by lia. set (t2 := set_t_record_size _ t1).
  assert (∀ y, encoded (k_cols k1) y = encoded (k_cols k) y) as Een.
  { intros y. unfold encoded. cbn [k_cols k1 set_k_cols]. destruct (decide (y = x)) as [->|].
    - by rewrite lookup_insert_eq, Hc.
    - by rewrite lookup_insert_ne. }
  assert (∀ y, y ∈ l → k_cols k1 !! y = k_cols k !! y) as Hfr.
  { intros y Hy. cbn [k_cols k1 set_k_cols]. rewrite lookup_insert_ne; [done|]. by intros ->. }
  destruct (IH k1 (cd_next c) l t2) as (t' & m & E & H1 & H3 & H4 & H5 & H6).
  { by eapply cseg_frame. } { done. } { simpl in Hf; lia. } { intros y. rewrite Een. apply Hen. }
  { cbn [t_record_size t2 set_t_record_size]. lia. }
  { cbn. apply Z.mod_pos_bound. lia. }
  { rewrite (total_bits_frame _ _ _ Hfr). cbn [t_record_size t2 set_t_record_size]. lia. }
  assert (m !! x = Some c1) as Hm by (rewrite H5 by done; simpl; apply lookup_insert_eq).
  exists t', m. split; [exact E|]. rewrite (total_bits_frame _ _ _ Hfr) in H1.
  split.
  { assert (u16 (u16 (t_column_count t + 1) + Z.of_nat (length l)) =
      u16 (t_column_count t + Z.of_nat (length (x :: l)))) as Hu.
    { unfold u16. rewrite Zplus_mod_idemp_l. f_equal. cbn [length]. lia. }
    rewrite H1. cbn [total_bits]. rewrite <- Hu, Eex, Z.add_assoc. done. }
  split. { split; [done|]. by exists c1. }
  split.
  { cbn [placed]. split; [|by rewrite (encoded_unplaced _ _ _ H6), Een, Eex].
    exists c1. split; [done|]. cbn [c1 set_cd_column cd_column set_c_shift set_c_offset c_shift c_offset].
    fold (mask_low 3 (t_record_size t)). change (u32 (-8)) with (u32 (- 2 ^ 3)).
    fold (mask_low 3 (t_record_size t)). rewrite mask_low_spec by lia.
    rewrite Z.shiftr_div_pow2 by lia. change 7 with (Z.ones 3). rewrite Z.land_ones by lia.
    change (2 ^ 3) with 8. pose proof (Z.mod_pos_bound (t_record_size t) 8 ltac:(lia)).
    rewrite u8_small by lia. split; [lia|]. pose proof (Z.div_mod (t_record_size t) 8 ltac:(lia)).
    replace ((t_record_size t - t_record_size t mod 8) / 8) with (t_record_size t / 8) by
      (apply Z.div_unique with 0; lia). lia. }
  split.
  { intros y Hy. rewrite H5 by set_solver. simpl. rewrite lookup_insert_ne; [done|]. set_solver. }
  intros y. rewrite H6. cbn [k_cols k1 set_k_cols]. destruct (decide (y = x)) as [->|].
  - by rewrite lookup_insert_eq, Hc.
  - by rewrite lookup_insert_ne.
Qed.

(** The rounded record holds all the bits and is a multiple of the alignment. *)
Lemma round_record_ok bits a :
  0 ≤ a ≤ 30 → 0 ≤ bits < 2 ^ 31 → a ≤ 2 ∨ 0 < bits →
  bits ≤ 8 * round_record bits a ∧ (2 ^ a | round_record bits a) ∧ 4 ≤ round_record bits a.
Proof.
  intros Ha Hb Hc. unfold round_record.
  rewrite (u32_small (bits + 7)) by lia. change (u32 (-8)) with (u32 (- 2 ^ 3)).
  fold (mask_low 3 (bits + 7)). rewrite mask_low_spec by lia. rewrite Z.shiftr_div_pow2 by lia.
  change (2 ^ 3) with 8. pose proof (Z.div_mod (bits + 7) 8 ltac:(lia)).
  replace ((bits + 7 - (bits + 7) mod 8) / 8) with ((bits + 7) / 8) by
    (apply Z.div_unique with 0; lia).
  pose proof (Z.mod_pos_bound (bits + 7) 8 ltac:(lia)).
  set (b := (bits + 7) / 8) in *. rewrite Z.shiftl_1_l.
  assert (1 ≤ 2 ^ a ≤ 2 ^ 30) as Hp.
  { change 1 with (2 ^ 0). split; apply Z.pow_le_mono_r; lia. }
  rewrite (u32_small (2 ^ a)), (u32_small (b + 2 ^ a)), (u32_small (b + 2 ^ a - 1)) by lia.
  fold (mask_low a (b + 2 ^ a - 1)). rewrite mask_low_spec by lia.
  pose proof (Z.mod_pos_bound (b + 2 ^ a - 1) (2 ^ a) ltac:(lia)).
  case_match; [split_and!; [lia| |lia]|].
  { destruct (decide (a ≤ 2)) as [Ha2|Ha2].
    - assert (a = 0 ∨ a = 1 ∨ a = 2) as [->|[->| ->]] by lia; [exists 4|exists 2|exists 1]; lia.
    - assert (2 ^ 3 ≤ 2 ^ a) by (apply Z.pow_le_mono_r; lia).
      assert (1 ≤ b) by (apply Z.div_le_lower_bound; lia).
      assert (1 ≤ (b + 2 ^ a - 1) / 2 ^ a) by (apply Z.div_le_lower_bound; lia).
      pose proof (Z.div_mod (b + 2 ^ a - 1) (2 ^ a) ltac:(lia)). nia. }
  split; [lia|]. split; [|lia].
  pose proof (Z.div_mod (b + 2 ^ a - 1) (2 ^ a) ltac:(lia)).
  exists ((b + 2 ^ a - 1) / 2 ^ a). lia.
Qed.

Lemma total_bits_perm m l l' : l ≡ₚ l' → total_bits m l = total_bits m l'.
Proof. induction 1; simpl; lia. Qed.

Lemma encoded_unlinked m m' x : same_columns m m' → encoded m' x = encoded m x.
Proof.
  intros H. specialize (H x). unfold encoded. destruct (m' !! x) as [[]|], (m !! x) as [[]|]; try done.
  simpl in *. by injection H.
Qed.
Lemma total_bits_ext m m' l : (∀ x, encoded m' x = encoded m x) → total_bits m' l = total_bits m l.
Proof. intros H. induction l as [|x l IH]; simpl; [done|]. by rewrite H, IH. Qed.
