(* ===== verification/MkFormat.v ===== *)
(** * The formatter's volume

    The geometry [mkfs] chooses and the invariant of its state between the
    allocations: [fmt].  The free numbers of both bitmaps are the ones from
    the first number never taken. *)
From S2P Require Import Prelude Posix Bitmap LinkList UdbfsTypes Layout.
From S2P Require Import MkTypes MkFile MkTable Mkfs MkWrite MkClose.
Local Open Scope Z_scope.

(** ** The block size *)

Definition sized (s c : Z) (sb : superblock) : superblock :=
  set_sb_block_count c (set_sb_block_size s sb).

Lemma block_size_of_pow sb : 0 ≤ sb_block_size sb ≤ 20 → block_size_of sb = 2 ^ (sb_block_size sb + 7).
Proof.
  intros Hr. unfold block_size_of. rewrite Z.shiftl_1_l, Z.add_comm. apply i32_small.
  assert (2 ^ (sb_block_size sb + 7) ≤ 2 ^ 27) by (apply Z.pow_le_mono_r; lia).
  pose proof (Z.pow_nonneg 2 (sb_block_size sb + 7) ltac:(lia)). lia.
Qed.

Lemma choose_step fuel fs s c sb :
  2 ≤ s ≤ 6 → c < 2000 → 0 ≤ fs → fs / 2 ^ (s + 6) < 2 ^ 31 →
  choose_block_size (S fuel) fs (sized s c sb) =
    choose_block_size fuel fs (sized (s - 1) (fs / 2 ^ (s + 6)) sb).
Proof.
  intros Hs Hc Hf Hlim. cbn [choose_block_size].
  change (sb_block_size (sized s c sb)) with s. change (sb_block_count (sized s c sb)) with c.
  replace (2 <=? s) with true by lia. replace (c <? 2000) with true by lia. cbn [andb].
  rewrite u8_small by lia. rewrite block_size_of_pow by (simpl; lia).
  cbn [sb_block_size set_sb_block_size]. replace (s - 1 + 7) with (s + 6) by lia.
  assert (0 ≤ fs / 2 ^ (s + 6)) by (apply Z.div_pos; [lia|apply Z.pow_pos_nonneg; lia]).
  rewrite i32_small, u64_small by lia. done.
Qed.

Lemma choose_stop fuel fs s c sb :
  s < 2 ∨ 2000 ≤ c → choose_block_size (S fuel) fs (sized s c sb) = Some (sized s c sb).
Proof.
  intros H. cbn [choose_block_size]. change (sb_block_size (sized s c sb)) with s.
  change (sb_block_count (sized s c sb)) with c.
  destruct (Z.leb_spec 2 s), (Z.ltb_spec c 2000); simpl; done || lia.
Qed.

(** The largest block size of 256 to 4096 bytes that gives 2000 blocks, the
    smallest if there is none. *)
Definition best_size (fs s : Z) : Prop :=
  1 ≤ s ≤ 5 ∧ (s = 1 ∨ 2000 ≤ fs / 2 ^ (s + 7)) ∧
  ∀ s', s < s' ≤ 5 → fs / 2 ^ (s' + 7) < 2000.

Lemma choose_block_size_ok fs sb :
  0 ≤ fs < 2 ^ 43 →
  ∃ s, choose_block_size 7 fs (sized 6 0 sb) = Some (sized s (fs / 2 ^ (s + 7)) sb) ∧ best_size fs s.
Proof.
  intros Hf. assert (fs / 2 ^ 12 < 2 ^ 31) by (apply Z.div_lt_upper_bound; lia).
  rewrite choose_step by (change (6 + 6) with 12; lia). change (6 + 6) with 12. change (6 - 1) with 5.
  destruct (Z.leb_spec 2000 (fs / 2 ^ 12)) as [H5|H5].
  { exists 5. rewrite choose_stop by by right. split; [done|]. split; [lia|]. split; [by right|]. lia. }
  assert (∀ a, fs / 2 ^ (a + 1) < 2000 → 0 ≤ a ≤ 20 → fs / 2 ^ a < 2 ^ 31) as Hh.
  { intros a Ha Hr. rewrite Z.pow_add_r in Ha by lia. change (2 ^ 1) with 2 in Ha.
    rewrite <- Z.div_div in Ha by (try apply Z.pow_nonzero; try apply Z.pow_pos_nonneg; lia).
    Z.div_mod_to_equations; lia. }
  rewrite choose_step by (try apply Hh; change (5 + 6 + 1) with 12; lia).
  change (5 + 6) with 11. change (5 - 1) with 4.
  destruct (Z.leb_spec 2000 (fs / 2 ^ 11)) as [H4|H4].
  { exists 4. rewrite choose_stop by by right. split; [done|]. split; [lia|]. split; [by right|].
    intros s' Hs'. assert (s' = 5) as -> by lia. exact H5. }
  rewrite choose_step by (try apply Hh; change (4 + 6 + 1) with 11; lia).
  change (4 + 6) with 10. change (4 - 1) with 3.
  destruct (Z.leb_spec 2000 (fs / 2 ^ 10)) as [H3|H3].
  { exists 3. rewrite choose_stop by by right. split; [done|]. split; [lia|]. split; [by right|].
    intros s' Hs'. assert (s' = 4 ∨ s' = 5) as [->| ->] by lia; [exact H4|exact H5]. }
  rewrite choose_step by (try apply Hh; change (3 + 6 + 1) with 10; lia).
  change (3 + 6) with 9. change (3 - 1) with 2.
  destruct (Z.leb_spec 2000 (fs / 2 ^ 9)) as [H2|H2].
  { exists 2. rewrite choose_stop by by right. split; [done|]. split; [lia|]. split; [by right|].
    intros s' Hs'. assert (s' = 3 ∨ s' = 4 ∨ s' = 5) as [->|[->| ->]] by lia; [exact H3|exact H4|exact H5]. }
  rewrite choose_step by (try apply Hh; change (2 + 6 + 1) with 9; lia).
  change (2 + 6) with 8. change (2 - 1) with 1.
  exists 1. rewrite choose_stop by lia. split; [done|]. split; [lia|]. split; [by left|].
  intros s' Hs'. assert (s' = 2 ∨ s' = 3 ∨ s' = 4 ∨ s' = 5) as [->|[->|[->| ->]]] by lia; done.
Qed.

(** ** The superblock while formatting *)

(** The fields the allocations assign. *)
Definition alloc_sb (fb fi bb j bad : Z) (sb : superblock) : superblock :=
  Superblock (sb_boot_loader_inode sb) (sb_inode_first_block sb) (sb_unique_fs_signature sb)
    (sb_block_count sb) (sb_inode_count sb) fb fi bb j bad (sb_magic_number sb)
    (sb_last_check sb) (sb_max_interval sb) (sb_last_mount sb) (sb_mount_count sb)
    (sb_max_mount_count sb) (sb_creator_os sb) (sb_superblock_version sb) (sb_block_size sb)
    (sb_inode_format sb).

Definition first_block (s : Z) : Z := if s <? 4 then 2 ^ (4 - s) else 1.
Definition inodes_for (fs : Z) : Z := Z.max 64 (fs / (128 * 1024)).

(** After [plan_volume]; [sb] is what [malloc] returned. *)
Definition planned (s fs : Z) (sb : superblock) : superblock :=
  Superblock (sb_boot_loader_inode sb) (first_block s) (sb_unique_fs_signature sb)
    (fs / 2 ^ (s + 7)) (inodes_for fs) (fs / 2 ^ (s + 7)) (inodes_for fs)
    (sb_bitmaps_block sb) (sb_journal_inode sb) (sb_bad_block_inode sb) UDBFS_MAGIC 0 0 0 0 0 0
    1 s 1.

(** One bitmap: the bits from [used] on are set. *)
Record bits_from (bm : list Z) (bits used : Z) : Prop := {
  bf_ok : bitmap_ok bm;
  bf_len : zlen bm = bitmap_size bits;
  bf_free : free_bits bm = seqZ used (8 * bitmap_size bits - used)
}.

Section fmt.
Context (N s fs : Z) (sb0 : superblock).
Abbreviation nb := (fs / 2 ^ (s + 7)).
Abbreviation ni := (inodes_for fs).

(** [used] blocks and [iused] inodes are taken. *)
Record fmt (used iused bb j bad : Z) (k : mkstate) : Prop := {
  fm_sb : k_sb k = alloc_sb (nb - used) (ni - iused) bb j bad (planned s fs sb0);
  fm_mallocs : k_mallocs k = [];
  fm_dev : dev_ok (k_dev k);
  fm_size : zlen (kbytes k) = N;
  fm_blocks : bits_from (k_block_bitmap k) nb used;
  fm_inodes : bits_from (k_inode_bitmap k) ni iused;
  fm_bmap : k_block_map_size k = bitmap_size nb;
  fm_imap : k_inode_map_size k = bitmap_size ni;
  fm_dir : k_dir_limit k = 4;
  fm_ind : k_ind_limit k = 2 ^ (s + 4)
}.

Context (Hs : 1 ≤ s ≤ 5) (Hnb : 64 ≤ nb) (Hfs : 0 ≤ fs < 2 ^ 31).

Lemma fmt_bounds : nb < 2 ^ 23 ∧ 64 ≤ ni < 2 ^ 15 ∧ 0 ≤ bitmap_size nb < 2 ^ 21 ∧
  0 ≤ bitmap_size ni < 2 ^ 13 ∧ nb ≤ 8 * bitmap_size nb ∧ ni ≤ 8 * bitmap_size ni.
Proof using Hs Hnb Hfs.
  assert (2 ^ 8 ≤ 2 ^ (s + 7)) by (apply Z.pow_le_mono_r; lia).
  assert (nb ≤ fs / 2 ^ 8) by (apply Z.div_le_compat_l; lia).
  assert (nb < 2 ^ 23) by (Z.div_mod_to_equations; lia).
  assert (64 ≤ ni < 2 ^ 15) by (unfold inodes_for; Z.div_mod_to_equations; lia).
  unfold bitmap_size. revert Hnb. generalize dependent nb. intros. split_and!; Z.div_mod_to_equations; lia.
Qed.

Lemma seqZ_pop a n : 0 < n → seqZ a n = a :: seqZ (a + 1) (n - 1).
Proof. intros Hn. by rewrite seqZ_cons by lia. Qed.

Lemma fmt_block_size used iused bb j bad k : fmt used iused bb j bad k →
  block_size_of (k_sb k) = 2 ^ (s + 7).
Proof using Hs. intros H. rewrite block_size_of_pow; rewrite (fm_sb _ _ _ _ _ _ H); simpl; lia. Qed.

Lemma fmt_blocks_free used iused bb j bad k : fmt used iused bb j bad k → 0 ≤ used ≤ nb →
  blocks_free k (seqZ used (8 * bitmap_size nb - used)) (nb - used).
Proof using Hs Hnb Hfs.
  intros H Hu. destruct (fm_blocks _ _ _ _ _ _ H) as [H1 H2 H3]. pose proof fmt_bounds.
  split; [done|]. split; [lia|]. split; [done|]. split; [|lia].
  by rewrite (fm_sb _ _ _ _ _ _ H).
Qed.

Lemma fmt_inodes_free used iused bb j bad k : fmt used iused bb j bad k → 0 ≤ iused ≤ ni →
  inodes_free k (seqZ iused (8 * bitmap_size ni - iused)) (ni - iused).
Proof using Hs Hnb Hfs.
  intros H Hu. destruct (fm_inodes _ _ _ _ _ _ H) as [H1 H2 H3]. pose proof fmt_bounds.
  split; [done|]. split; [lia|]. split; [done|]. split; [|lia].
  by rewrite (fm_sb _ _ _ _ _ _ H).
Qed.

(** Taking a number keeps the invariant. *)
Lemma fmt_took_block used iused bb j bad k bm n dev pos :
  fmt used iused bb j bad k → 0 ≤ n → used + n ≤ nb → 0 ≤ used →
  zlen dev = N → length bm = length (k_block_bitmap k) →
  blocks_free (took_block bm (nb - used - n) k)
    (seqZ (used + n) (8 * bitmap_size nb - (used + n))) (nb - used - n) →
  fmt (used + n) iused bb j bad (stored dev pos bm (nb - used - n) k).
Proof.
  intros [F1 F2 F3 F4 [F5 F5' F5''] F6 F7 F8 F9 F10] Hn Hu Hu0 Hd Hl (B1 & B2 & B3 & B4 & B5).
  destruct F3 as [F3 F3']. split; try done.
  - replace (nb - (used + n)) with (nb - used - n) by lia. unfold stored, took_block.
    cbn [k_sb set_k_dev set_k_block_bitmap set_k_sb]. by rewrite F1.
  - split; [done|]. simpl. rewrite Hd, <- F4. done.
  - simpl. split; [done|unfold zlen in *; by rewrite Hl|exact B3].
Qed.

Lemma fmt_allocate_block used iused bb j bad k :
  fmt used iused bb j bad k → 0 ≤ used < nb →
  ∃ bm, allocate_bit BlockBitmap k = Ok used (took_block bm (nb - used - 1) k) ∧
    fmt (used + 1) iused bb j bad (took_block bm (nb - used - 1) k).
Proof using Hs Hnb Hfs.
  intros H Hu. pose proof (fmt_blocks_free _ _ _ _ _ _ H ltac:(lia)) as Hf. pose proof fmt_bounds.
  rewrite seqZ_pop in Hf by lia.
  destruct (allocate_block_ok k used _ _ Hf) as (bm & E & Hf' & Hl); [lia|]. exists bm. split; [done|].
  assert (stored (kbytes k) (d_pos (k_dev k)) bm (nb - used - 1) k = took_block bm (nb - used - 1) k) as <-.
  { unfold stored. destruct (fm_dev _ _ _ _ _ _ H) as [Ho _]. destruct k as [[? ? ?] ? ? []].
    simpl in *. by subst. }
  apply fmt_took_block; try done; try lia; [apply (fm_size _ _ _ _ _ _ H)|].
  by replace (8 * bitmap_size nb - (used + 1)) with (8 * bitmap_size nb - used - 1) by lia.
Qed.

Lemma fmt_allocate_blocks n : ∀ used iused bb j bad k,
  fmt used iused bb j bad k → 0 ≤ used → used + Z.of_nat n ≤ nb →
  ∃ k', allocate_blocks n k = Ok tt k' ∧ fmt (used + Z.of_nat n) iused bb j bad k' ∧
    k_cols k' = k_cols k ∧ k_next_loc k' = k_next_loc k ∧ kbytes k' = kbytes k.
Proof using Hs Hnb Hfs.
  induction n as [|n IH]; intros used iused bb j bad k H Hu Hn.
  { exists k. rewrite Z.add_0_r. by split_and!. }
  destruct (fmt_allocate_block _ _ _ _ _ _ H) as (bm & E & H'); [lia|].
  cbn [allocate_blocks]. step_with E. destruct (IH _ _ _ _ _ _ H') as (k' & E' & H2 & H3 & H4 & H5); [lia..|].
  exists k'. rewrite E'. replace (used + Z.of_nat (S n)) with (used + 1 + Z.of_nat n) by lia.
  by split_and!.
Qed.

Lemma fmt_reserve i : ∀ used iused bb j bad k,
  fmt used iused bb j bad k → 0 ≤ used → 0 ≤ i → used + i ≤ nb →
  ∃ k', reserve_blocks i k = Ok tt k' ∧ fmt (used + i) iused bb j bad k' ∧
    k_cols k' = k_cols k ∧ k_next_loc k' = k_next_loc k ∧ kbytes k' = kbytes k.
Proof using Hs Hnb Hfs.
  intros used iused bb j bad k H Hu Hi Hn. unfold reserve_blocks. steps.
  replace (i <? 0) with false by lia.
  destruct (fmt_allocate_blocks (Z.to_nat i) _ _ _ _ _ _ H) as (k' & E & H'); [lia..|].
  exists k'. by rewrite Z2Nat.id in H' by lia.
Qed.

Lemma fmt_allocate_inode used iused bb j bad k :
  fmt used iused bb j bad k → 0 ≤ iused < ni →
  ∃ k', allocate_bit InodeBitmap k = Ok iused k' ∧ fmt used (iused + 1) bb j bad k' ∧
    k_cols k' = k_cols k ∧ k_next_loc k' = k_next_loc k ∧ kbytes k' = kbytes k ∧
    k_junk k' = k_junk k.
Proof using Hs Hnb Hfs.
  intros H Hu. pose proof (fmt_inodes_free _ _ _ _ _ _ H ltac:(lia)) as Hf. pose proof fmt_bounds.
  rewrite seqZ_pop in Hf by lia.
  destruct (allocate_inode_bit_ok k iused _ _ Hf) as (bm & E & (B1 & B2 & B3 & B4 & B5) & Hl); [lia|].
  eexists. split; [exact E|]. split; [|by split_and!].
  destruct H as [F1 F2 F3 F4 F5 [F6 F6' F6''] F7 F8 F9 F10]. split; try done.
  - replace (ni - (iused + 1)) with (ni - iused - 1) by lia. unfold took_inode.
    cbn [k_sb set_k_inode_bitmap set_k_sb]. by rewrite F1.
  - simpl. split; [done|unfold zlen in *; by rewrite Hl|].
    replace (8 * bitmap_size ni - (iused + 1)) with (8 * bitmap_size ni - iused - 1) by lia. exact B3.
Qed.
End fmt.

(** ** plan_volume *)

Lemma best_size_blocks fs s : 2 ^ 14 ≤ fs → best_size fs s → 64 ≤ fs / 2 ^ (s + 7).
Proof.
  intros Hf (H1 & [-> |H2] & _); [|lia]. change (2 ^ (1 + 7)) with 256. Z.div_mod_to_equations; lia.
Qed.

Lemma bits_from_all bits : 0 ≤ bits < 2 ^ 31 → bits_from (replicate (Z.to_nat (bitmap_size bits)) 255) bits 0.
Proof.
  intros Hb. assert (0 ≤ bitmap_size bits) by (unfold bitmap_size; Z.div_mod_to_equations; lia).
  assert (bitmap_size bits < 2 ^ 30) by (unfold bitmap_size; Z.div_mod_to_equations; lia).
  split.
  - split; [|unfold zlen; rewrite length_replicate; lia]. apply Forall_replicate. unfold byte_ok. lia.
  - unfold zlen. rewrite length_replicate. lia.
  - rewrite free_bits_ones, Z2Nat.id by lia. by rewrite Z.sub_0_r.
Qed.

Lemma first_block_shift s : 1 ≤ s ≤ 5 →
  (if s <? 4 then u64 (i32 (Z.shiftl 1 (4 - s))) else 1) = first_block s ∧ 1 ≤ first_block s ≤ 8 ∧
  2048 ≤ first_block s * 2 ^ (s + 7).
Proof.
  intros Hs. assert (s = 1 ∨ s = 2 ∨ s = 3 ∨ s = 4 ∨ s = 5) as [->|[->|[->|[->| ->]]]] by lia;
    (split; [done|split; [split|]; by vm_compute]).
Qed.

Lemma plan_volume_ok fs k :
  2 ^ 14 ≤ fs < 2 ^ 31 → k_mallocs k = [] → dev_ok (k_dev k) →
  ∃ s k', plan_volume fs k = Ok tt k' ∧ best_size fs s ∧
    fmt (zlen (kbytes k)) s fs (k_sb k) 0 0 (sb_bitmaps_block (k_sb k)) (sb_journal_inode (k_sb k))
      (sb_bad_block_inode (k_sb k)) k' ∧
    k_cols k' = k_cols k ∧ k_next_loc k' = k_next_loc k ∧ kbytes k' = kbytes k.
Proof.
  intros Hf Hm Hd. destruct (choose_block_size_ok fs (k_sb k)) as (s & E & Hbest); [lia|].
  pose proof (best_size_blocks fs s ltac:(lia) Hbest) as Hnb. pose proof Hbest as (Hs & _).
  exists s. unfold plan_volume. steps. unfold id.
  change (set_sb_block_count 0 (set_sb_block_size 6 (k_sb k))) with (sized 6 0 (k_sb k)).
  rewrite E. steps. unfold set_sb. steps.
  pose proof (fmt_bounds s fs Hs Hnb ltac:(lia)) as (B1 & B2 & B3 & B4 & _).
  cbn [sb_block_size sized set_sb_block_count set_sb_block_size].
  destruct (first_block_shift s Hs) as [-> _]. rewrite Z.shiftl_1_l.
  assert (2 ^ (s + 4) < 2 ^ 10) as Hp by (apply Z.pow_lt_mono_r; lia).
  pose proof (Z.pow_pos_nonneg 2 (s + 4) ltac:(lia) ltac:(lia)).
  rewrite (i32_small (2 ^ (s + 4))) by lia.
  assert ((if fs / (128 * 1024) <? 64 then 64 else fs / (128 * 1024)) = inodes_for fs) as ->.
  { unfold inodes_for. destruct (Z.ltb_spec (fs / (128 * 1024)) 64); lia. }
  rewrite (i32_small (inodes_for fs)) by lia.
  match goal with |- context [(generate_bitmap (inodes_for fs) ≫= _) ?x] =>
    step_with (generate_bitmap_ok (inodes_for fs) x ltac:(lia) Hm) end. steps.
  match goal with |- context [sb_block_count (k_sb ?x)] =>
    change (sb_block_count (k_sb x)) with (fs / 2 ^ (s + 7)) end.
  rewrite (i32_small (fs / 2 ^ (s + 7))) by lia.
  match goal with |- context [(generate_bitmap (fs / _) ≫= _) ?x] =>
    step_with (generate_bitmap_ok (fs / 2 ^ (s + 7)) x ltac:(lia) Hm) end. steps.
  eexists. split; [reflexivity|]. split; [done|]. split; [|by split_and!].
  split; try done.
  - cbn [k_sb]. rewrite !Z.sub_0_r. reflexivity.
  - apply bits_from_all. lia.
  - apply bits_from_all. lia.
Qed.

(** ** reserve_areas *)

Definition inode_blocks (s fs : Z) : Z := (inodes_for fs * 64 + 2 ^ (s + 7) - 1) / 2 ^ (s + 7).
Definition bitmap_area (s fs : Z) : Z :=
  (bitmap_size (inodes_for fs) + bitmap_size (fs / 2 ^ (s + 7)) + 2 ^ (s + 7) - 1) / 2 ^ (s + 7).
Definition bitmaps_at (s fs : Z) : Z := first_block s + inode_blocks s fs.
Definition first_data (s fs : Z) : Z := bitmaps_at s fs + bitmap_area s fs.

Lemma areas_fit fs s :
  2 ^ 14 ≤ fs < 2 ^ 31 → best_size fs s →
  1 ≤ inode_blocks s fs ∧ inodes_for fs * 64 ≤ inode_blocks s fs * 2 ^ (s + 7) ∧
  1 ≤ bitmap_area s fs ∧
  bitmap_size (inodes_for fs) + bitmap_size (fs / 2 ^ (s + 7)) ≤ bitmap_area s fs * 2 ^ (s + 7) ∧
  first_data s fs + 8 ≤ fs / 2 ^ (s + 7).
Proof.
  intros Hf (Hs & H2 & _). unfold first_data, bitmaps_at, inode_blocks, bitmap_area, bitmap_size, inodes_for.
  assert (s = 1 ∨ s = 2 ∨ s = 3 ∨ s = 4 ∨ s = 5) as [->|[->|[->|[->| ->]]]] by lia;
  match goal with |- context [first_block ?x] =>
    let y := eval vm_compute in (first_block x) in change (first_block x) with y end;
  repeat match goal with |- context [2 ^ (?x + 7)] =>
    let y := eval vm_compute in (2 ^ (x + 7)) in change (2 ^ (x + 7)) with y in * end;
  split_and!; Z.div_mod_to_equations; lia.
Qed.

Lemma fmt_set_bitmaps_block N s fs sb0 used iused bb j bad k v :
  fmt N s fs sb0 used iused bb j bad k →
  fmt N s fs sb0 used iused v j bad (set_k_sb (set_sb_bitmaps_block v (k_sb k)) k).
Proof. intros [F1 ? ? ? ? ? ? ? ? ?]. split; try done. cbn [k_sb set_k_sb]. by rewrite F1. Qed.
Lemma fmt_set_journal N s fs sb0 used iused bb j bad k v :
  fmt N s fs sb0 used iused bb j bad k →
  fmt N s fs sb0 used iused bb v bad (set_k_sb (set_sb_journal_inode v (k_sb k)) k).
Proof. intros [F1 ? ? ? ? ? ? ? ? ?]. split; try done. cbn [k_sb set_k_sb]. by rewrite F1. Qed.
Lemma fmt_set_bad N s fs sb0 used iused bb j bad k v :
  fmt N s fs sb0 used iused bb j bad k →
  fmt N s fs sb0 used iused bb j v (set_k_sb (set_sb_bad_block_inode v (k_sb k)) k).
Proof. intros [F1 ? ? ? ? ? ? ? ? ?]. split; try done. cbn [k_sb set_k_sb]. by rewrite F1. Qed.

Lemma reserve_areas_ok N s fs sb0 bb j bad k :
  2 ^ 14 ≤ fs < 2 ^ 31 → best_size fs s → fmt N s fs sb0 0 0 bb j bad k →
  ∃ k', reserve_areas k = Ok tt k' ∧
    fmt N s fs sb0 (first_data s fs) 0 (bitmaps_at s fs) j bad k' ∧
    k_cols k' = k_cols k ∧ k_next_loc k' = k_next_loc k ∧ kbytes k' = kbytes k.
Proof.
  intros Hf Hbest H0. pose proof Hbest as (Hs & _).
  pose proof (best_size_blocks fs s ltac:(lia) Hbest) as Hnb. assert (0 ≤ fs < 2 ^ 31) as Hf' by lia.
  pose proof (areas_fit fs s Hf Hbest) as (A1 & A2 & A3 & A4 & A5).
  pose proof (first_block_shift s Hs) as (_ & Hfb & _).
  pose proof (fmt_bounds s fs Hs Hnb Hf') as (B1 & B2 & B3 & B4 & _).
  unfold first_data, bitmaps_at in *.
  assert (2 ^ (s + 7) ≤ 2 ^ 12) as Hp by (apply Z.pow_le_mono_r; lia).
  pose proof (Z.pow_pos_nonneg 2 (s + 7) ltac:(lia) ltac:(lia)) as Hp0.
  unfold reserve_areas, BLOCK_SIZE. steps. rewrite (fmt_block_size _ _ _ _ Hs _ _ _ _ _ _ H0).
  rewrite (fm_sb _ _ _ _ _ _ _ _ _ _ H0).
  change (sb_inode_first_block (alloc_sb _ _ _ _ _ (planned s fs sb0))) with (first_block s).
  change (sb_inode_count (alloc_sb _ _ _ _ _ (planned s fs sb0))) with (inodes_for fs).
  destruct (fmt_allocate_blocks _ _ _ _ Hs Hnb Hf' (Z.to_nat (first_block s)) _ _ _ _ _ _ H0)
    as (k1 & E1 & H1 & C1 & L1 & D1); [lia..|]. step_with E1. rewrite Z2Nat.id, Z.add_0_l in H1 by lia.
  unfold sizeof_inode. rewrite u64_small by lia. fold (inode_blocks s fs).
  rewrite (i32_small (inode_blocks s fs)) by lia.
  destruct (fmt_reserve _ _ _ _ Hs Hnb Hf' (inode_blocks s fs) _ _ _ _ _ _ H1)
    as (k2 & E2 & H2 & C2 & L2 & D2); [lia..|]. step_with E2. steps. unfold id.
  rewrite (fm_imap _ _ _ _ _ _ _ _ _ _ H2), (fm_bmap _ _ _ _ _ _ _ _ _ _ H2).
  rewrite (i32_small (bitmap_size _ + _ + _ - 1)) by lia. rewrite Z.quot_div_nonneg by lia.
  fold (bitmap_area s fs). rewrite (i32_small (bitmap_area s fs)) by lia.
  destruct (fmt_allocate_block _ _ _ _ Hs Hnb Hf' _ _ _ _ _ _ H2) as (bm & E3 & H3); [lia|].
  step_with E3. unfold set_sb. steps.
  apply (fmt_set_bitmaps_block _ _ _ _ _ _ _ _ _ _ (first_block s + inode_blocks s fs)) in H3.
  rewrite (i32_small (bitmap_area s fs - 1)) by lia.
  destruct (fmt_reserve _ _ _ _ Hs Hnb Hf' (bitmap_area s fs - 1) _ _ _ _ _ _ H3)
    as (k4 & E4 & H4 & C4 & L4 & D4); [lia..|].
  exists k4. split; [exact E4|]. split.
  { by replace (first_block s + inode_blocks s fs + bitmap_area s fs) with
      (first_block s + inode_blocks s fs + 1 + (bitmap_area s fs - 1)) by lia. }
  rewrite C4, L4, D4. cbn. by rewrite C2, L2, D2.
Qed.
