(* ===== verification/MkVolume.v ===== *)
(** * Files and tables on the formatter's volume

    [close_file] and [generate_table_definition] in a state that satisfies
    [fmt]: where the file lands and that the invariant is kept. *)
From S2P Require Import Prelude Posix Bitmap LinkList UdbfsTypes Layout Content Persist.
From S2P Require Import MkTypes MkFile MkTable Mkfs MkWrite MkClose MkColumns MkFormat.
Local Open Scope Z_scope.

Definition links_of (s : Z) : nat := Z.to_nat (2 ^ (s + 4)).

Lemma links_of_spec s : 1 ≤ s ≤ 5 →
  16 ≤ Z.of_nat (links_of s) ≤ 2 ^ 12 ∧ bsize (links_of s) = 2 ^ (s + 7) ∧
  Z.of_nat (links_of s) = 2 ^ (s + 4) ∧ 0 < 2 ^ (s + 7) < 2 ^ 16 ∧ 256 ≤ 2 ^ (s + 7) ≤ 4096.
Proof.
  intros Hs. assert (s = 1 ∨ s = 2 ∨ s = 3 ∨ s = 4 ∨ s = 5) as [->|[->|[->|[->| ->]]]] by lia;
    (split; [split; by vm_compute|split; [done|split; [done|split; split; by vm_compute]]]).
Qed.

Section volume.
Context (N s fs : Z) (sb0 : superblock).
Hypothesis Hfs : 2 ^ 14 ≤ fs < 2 ^ 31.
Hypothesis Hbest : best_size fs s.
Hypothesis HN : fs ≤ N < 2 ^ 31.
Abbreviation Ln := (links_of s).
Abbreviation BS := (2 ^ (s + 7)).
Abbreviation nb := (fs / 2 ^ (s + 7)).
Abbreviation ni := (inodes_for fs).
Abbreviation fmt := (fmt N s fs sb0).

Lemma volume_size : 1 ≤ s ≤ 5 ∧ 64 ≤ nb ∧ 0 ≤ fs < 2 ^ 31 ∧ nb * BS ≤ fs ∧
  1 ≤ first_block s ∧ 2048 ≤ first_block s * BS ∧ bitmaps_at s fs < first_data s fs ∧
  first_block s + inode_blocks s fs = bitmaps_at s fs ∧ 1 ≤ inode_blocks s fs.
Proof using Hfs Hbest.
  pose proof Hbest as (Hs & _). pose proof (best_size_blocks fs s ltac:(lia) Hbest) as Hn.
  destruct (links_of_spec s Hs) as (_ & _ & _ & Hp & _).
  destruct (areas_fit fs s Hfs Hbest) as (A1 & A2 & A3 & _).
  destruct (first_block_shift s Hs) as (_ & H1 & H2).
  split; [done|]. split; [done|]. split; [lia|]. split; [rewrite Z.mul_comm; apply Z.mul_div_le; lia|].
  split; [lia|]. split; [done|]. unfold first_data, bitmaps_at. lia.
Qed.

Lemma fmt_env used iused bb j bad k : fmt used iused bb j bad k → mk_env Ln k.
Proof using All.
  intros H. pose proof volume_size as (Hs & _). destruct (links_of_spec s Hs) as (_ & HB & _).
  split; [rewrite HB; by eapply fmt_block_size|by eapply fm_mallocs|by eapply fm_dev|].
  rewrite (fm_size _ _ _ _ _ _ _ _ _ _ H). lia.
Qed.

Definition inode_at (id : Z) : Z := id * sizeof_inode + first_block s * BS.

Lemma fmt_inode_offset used iused bb j bad k id :
  fmt used iused bb j bad k → inode_offset Ln k id = inode_at id.
Proof using All.
  intros H. unfold inode_offset. rewrite (fm_sb _ _ _ _ _ _ _ _ _ _ H).
  pose proof volume_size as (Hs & _). by destruct (links_of_spec s Hs) as (_ & -> & _).
Qed.

Lemma inode_at_range id : 0 ≤ id < ni →
  2048 ≤ inode_at id ∧ inode_at id + sizeof_inode ≤ bitmaps_at s fs * BS.
Proof using Hfs Hbest.
  intros Hid. pose proof volume_size as (Hs & _ & _ & _ & V1 & V2 & V3 & V4 & _).
  destruct (areas_fit fs s Hfs Hbest) as (_ & A2 & _). destruct (links_of_spec s Hs) as (_ & _ & _ & Hp & _).
  unfold inode_at, sizeof_inode. rewrite <- V4. lia.
Qed.

(** Free numbers are blocks of the device, away from the inode table. *)
Lemma free_on_device dev used n :
  zlen dev = N → bitmaps_at s fs ≤ used → 0 ≤ n → used + n ≤ nb →
  Forall (on_device Ln dev) (seqZ used n).
Proof using Hfs Hbest HN.
  intros Hd Hu Hn0 Hn. pose proof volume_size as (Hs & _ & _ & Hb & V1 & _ & _ & V4 & V5).
  destruct (links_of_spec s Hs) as (_ & HB & _ & Hp & _). apply Forall_forall. intros x Hx%elem_of_seqZ.
  split; [lia|]. rewrite HB, Hd. nia.
Qed.

Lemma inode_slot_free dev id used n :
  zlen dev = N → 0 ≤ id < ni → bitmaps_at s fs ≤ used → 0 ≤ n →
  used + n ≤ nb → slot_free Ln (inode_at id) (seqZ used n) dev.
Proof using Hfs Hbest HN.
  intros Hd Hid Hu Hn0 Hn. pose proof (inode_at_range id Hid) as [R1 R2].
  pose proof volume_size as (Hs & Hnb & _ & Hb & V1 & _ & _ & V4 & V5).
  destruct (links_of_spec s Hs) as (_ & HB & _ & Hp & _).
  split; [lia|]. split; [rewrite Hd; nia|]. intros p Hpr [Hx _]%elem_of_seqZ. rewrite HB in Hx.
  assert (p / BS < bitmaps_at s fs) by (apply Z.div_lt_upper_bound; lia). lia.
Qed.

(** A file of up to four blocks. *)
Lemma fmt_close f k used iused bb j bad :
  fmt used iused bb j bad k → mf_ok BS f → (length (f_blocks f) ≤ 4)%nat → f_file_size f < 2 ^ 31 →
  0 ≤ f_inode_id f < ni → first_data s fs ≤ used → used + Z.of_nat (length (f_blocks f)) ≤ nb →
  let n := Z.of_nat (length (f_blocks f)) in
  ∃ k', close_file f k = Ok 0 k' ∧ fmt (used + n) iused bb j bad k' ∧
    k_cols k' = k_cols k ∧ k_next_loc k' = k_next_loc k ∧
    frame_but Ln (seqZ used n) (inode_at (f_inode_id f)) sizeof_inode (kbytes k) (kbytes k') ∧
    disk_layout Ln (kbytes k') (inode_at (f_inode_id f)) (f_file_size f)
      (Layout (seqZ used n) None None None) ∧
    content Ln (kbytes k') (seqZ used n) (f_file_size f) = mf_content f.
Proof using All.
  intros H Hf Hn4 Hsz Hid Hu Hun n. pose proof volume_size as (Hs & Hnb & Hfs' & _ & _ & _ & V3 & _).
  destruct (links_of_spec s Hs) as (HLn & HB & _ & Hp & _).
  pose proof (fmt_bounds s fs Hs Hnb Hfs') as (_ & _ & _ & _ & Hbm & _).
  pose proof (fm_size _ _ _ _ _ _ _ _ _ _ H) as HN'.
  assert (0 ≤ used) by (unfold first_data, bitmaps_at in *; lia || (pose proof volume_size; lia)).
  pose proof (fmt_blocks_free _ _ _ _ Hs Hnb Hfs' _ _ _ _ _ _ H ltac:(lia)) as Hfree.
  replace (8 * bitmap_size nb - used) with (n + (8 * bitmap_size nb - (used + n))) in Hfree by lia.
  rewrite seqZ_app in Hfree by lia. rewrite <- HB in Hf.
  destruct (close_small Ln HLn f k (seqZ used n) (seqZ (used + n) (8 * bitmap_size nb - (used + n)))
    (nb - used)) as (dev & pos & bm & E & Hfree' & Hl & Hframe & Hdl & Hc).
  - by eapply fmt_env.
  - done.
  - lia.
  - done.
  - apply (fm_dir _ _ _ _ _ _ _ _ _ _ H).
  - exact Hfree.
  - rewrite length_seqZ. lia.
  - apply free_on_device; lia.
  - apply NoDup_seqZ.
  - rewrite (fmt_inode_offset _ _ _ _ _ _ _ H). apply inode_slot_free; lia.
  - exact Hn4.
  - rewrite length_seqZ. lia.
  - rewrite (fmt_inode_offset _ _ _ _ _ _ _ H) in *.
    exists (stored dev pos bm (nb - used - n) k). split; [exact E|]. split.
    + apply fmt_took_block; try done; try lia. unfold zlen. by rewrite (proj1 Hframe).
    + by split_and!.
Qed.
End volume.

(** ** Building a table *)

Section table.
Context (B : Z) (Hbs : 0 < B < 2 ^ 16).

Lemma fresh_file_ok id : mf_ok B (MkFile [] None id 0 0 0).
Proof using Hbs. split; simpl; try done; lia. Qed.

Lemma zlen_mf_content f : mf_ok B f → zlen (mf_content f) = f_file_size f.
Proof using Hbs.
  intros H. pose proof (mf_size _ _ H). pose proof (zlen_mf_bytes B f H) as Hz.
  unfold mf_content, mf_prefix, zlen in *. rewrite length_take. lia.
Qed.

(** Appending to a file whose offset is at its end. *)
Lemma append_to_file_ok f k data size :
  block_size_of (k_sb k) = B → k_mallocs k = [] → mf_ok B f →
  f_current_offset f = f_file_size f → size = zlen data → f_file_size f + size + B < 2 ^ 31 →
  ∃ f', write_to_file f data size k = Ok (0, f') k ∧ mf_ok B f' ∧
    f_current_offset f' = f_file_size f' ∧ f_inode_id f' = f_inode_id f ∧
    f_file_size f' = f_file_size f + size ∧ mf_content f' = mf_content f ++ data ∧
    B * Z.of_nat (length (f_blocks f')) ≤
      Z.max (B * Z.of_nat (length (f_blocks f))) (f_file_size f' + B - 1).
Proof using Hbs.
  intros HB Hm Hf Ho -> Hlim. pose proof (zlen_nonneg data). pose proof (mf_size _ _ Hf).
  destruct (write_to_file_ok B Hbs f k data (zlen data)) as (f' & E & H1 & H2 & H3 & H4 & H5 & H6);
    [done|done|done|lia|lia|lia|].
  exists f'. split; [done|]. split; [done|]. rewrite H2, H4 in *. rewrite Z.max_r in * by lia.
  split; [lia|]. split; [done|]. split; [lia|]. split; [|lia].
  rewrite H5, overwrite_end by (rewrite zlen_mf_content by done; lia).
  f_equal. apply take_ge. unfold zlen. lia.
Qed.

Definition column_bytes (m : gmap loc column_desc) (x : loc) : list Z :=
  default [] ((λ c, encode_column (cd_column c)) <$> m !! x).

Definition named (m : gmap loc column_desc) (x : loc) : Prop :=
  ∃ c, m !! x = Some c ∧ length (c_name (cd_column c)) = 31%nat.

Lemma zlen_encode_column c : length (c_name c) = 31%nat → zlen (encode_column c) = sizeof_column.
Proof.
  intros Hl. unfold encode_column, zlen. rewrite length_app.
  assert (∀ l : list Z, length (l ≫= le_bytes 4) = (4 * length l)%nat) as Hb.
  { induction l as [|z l IH]; [done|]. rewrite bind_cons, length_app, IH, length_le_bytes. simpl. lia. }
  rewrite Hb. cbn [length]. rewrite length_app, Hl. done.
Qed.

Lemma write_columns_ok fuel : ∀ f k p T,
  block_size_of (k_sb k) = B → k_mallocs k = [] → mf_ok B f →
  cseg (k_cols k) p T None → (length T < fuel)%nat → Forall (named (k_cols k)) T →
  f_current_offset f = f_file_size f →
  f_file_size f + sizeof_column * Z.of_nat (length T) + B < 2 ^ 31 →
  ∃ f', write_columns fuel p f k = Ok f' k ∧ mf_ok B f' ∧ f_inode_id f' = f_inode_id f ∧
    f_file_size f' = f_file_size f + sizeof_column * Z.of_nat (length T) ∧
    mf_content f' = mf_content f ++ (T ≫= column_bytes (k_cols k)) ∧
    B * Z.of_nat (length (f_blocks f')) ≤
      Z.max (B * Z.of_nat (length (f_blocks f))) (f_file_size f' + B - 1).
Proof using Hbs.
  induction fuel as [|fuel IH]; intros f k p T HB Hm Hf HT Hfu Hn Ho Hlim; [lia|].
  destruct T as [|x T].
  { simpl in HT. subst p. exists f. cbn [length] in *. rewrite Z.mul_0_r, Z.add_0_r.
    simpl. rewrite app_nil_r. split_and!; try done. lia. }
  destruct HT as (-> & c & Hc & HT). apply Forall_cons in Hn as [(c' & Hc' & Hlc) Hn].
  rewrite Hc in Hc'. injection Hc' as <-. cbn [write_columns length] in *.
  step_with (get_column_ok k x c Hc).
  assert (sizeof_column = 160) as Hsz by done.
  destruct (append_to_file_ok f k (encode_column (cd_column c)) sizeof_column) as
    (f1 & E & H1 & H2 & H3 & H4 & H5 & H6); try done.
  { by rewrite zlen_encode_column. } { lia. }
  step_with E. cbn [fst snd].
  destruct (IH f1 k (cd_next c) T) as (f2 & E2 & G1 & G2 & G3 & G4 & G5); try done; [lia|lia|].
  exists f2. split; [done|]. split; [done|]. split; [congruence|]. split; [lia|]. split; [|lia].
  rewrite G4, H5, bind_cons, <- app_assoc. do 2 f_equal. unfold column_bytes at 1. by rewrite Hc.
Qed.
End table.

(** ** generate_table_definition *)

Section table_definition.
Context (N s fs : Z) (sb0 : superblock).
Hypothesis Hfs : 2 ^ 14 ≤ fs < 2 ^ 31.
Hypothesis Hbest : best_size fs s.
Hypothesis HN : fs ≤ N < 2 ^ 31.
Abbreviation Ln := (links_of s).
Abbreviation BS := (2 ^ (s + 7)).
Abbreviation nb := (fs / 2 ^ (s + 7)).
Abbreviation ni := (inodes_for fs).
Abbreviation fmt := (fmt N s fs sb0).

Lemma fmt_set_cols used iused bb j bad k m :
  fmt used iused bb j bad k → fmt used iused bb j bad (set_k_cols m k).
Proof. by intros []. Qed.

(** What the program expects of a table: a list of columns, a new file. *)
Record table_ok (k : mkstate) (t : table) (l : list loc) (id : Z) : Prop := {
  to_list : clist (k_cols k) (tab_cols t) l;
  to_named : Forall (named (k_cols k)) l;
  to_sizes : ∀ x, 0 ≤ encoded (k_cols k) x;
  to_table : tab_table t = PTable 0 0 0 0 0 0 0 0 0;
  to_file : tab_file t = MkFile [] None id 0 0 0
}.

(** The header and the columns as the file holds them. *)
Definition table_header (record_size count : Z) : ptable :=
  PTable 0 0 record_size 0 0 0 count 0 0.
Definition table_bytes (record_size : Z) (m : gmap loc column_desc) (T : list loc) : list Z :=
  encode_table (table_header record_size (Z.of_nat (length T))) ++ (T ≫= column_bytes m).
Definition table_size (n : nat) : Z := sizeof_table + sizeof_column * Z.of_nat n.

Definition same_contents (m m' : gmap loc column_desc) : Prop :=
  ∀ x, (unplaced ∘ unlinked <$> m' !! x) = (unplaced ∘ unlinked <$> m !! x).

Lemma same_contents_trans m m1 m2 :
  same_columns m m1 → same_but_places m1 m2 → same_contents m m2.
Proof.
  intros H1 H2 x. specialize (H1 x). specialize (H2 x).
  unfold same_columns, same_but_places in *.
  destruct (m !! x) as [c|], (m1 !! x) as [c1|], (m2 !! x) as [c2|]; try done.
  apply (inj Some) in H1, H2. simpl. f_equal. rewrite <- H1.
  transitivity (unlinked (unplaced c2)); [done|]. rewrite H2. done.
Qed.

Lemma named_same m m' x : same_contents m m' → named m x → named m' x.
Proof.
  intros H (c & Hc & Hl). specialize (H x). rewrite Hc in H. unfold named.
  destruct (m' !! x) as [c'|]; [|done]. exists c'. split; [done|].
  apply (inj Some) in H. destruct c as [? [] ? ?], c' as [? [] ? ?]. simpl in *.
  unfold unplaced, unlinked in H. simpl in H. by simplify_eq.
Qed.

Lemma blocks_for n size : n * BS ≤ Z.max 0 (size + BS - 1) → size ≤ 4 * BS → 0 < BS → n ≤ 4.
Proof. nia. Qed.

Lemma table_definition_ok t a l k id used iused bb j bad :
  fmt used iused bb j bad k → table_ok k t l id →
  total_bits (k_cols k) l < 2 ^ 31 → 0 ≤ a ≤ 30 → Z.of_nat (length l) < 2 ^ 16 →
  table_size (length l) ≤ 4 * BS → 0 ≤ id < ni → first_data s fs ≤ used → used + 4 ≤ nb →
  ∃ k' T n, generate_table_definition t a k = Ok 0 k' ∧ fmt (used + n) iused bb j bad k' ∧
    0 ≤ n ≤ 4 ∧ k_next_loc k' = k_next_loc k ∧ same_contents (k_cols k) (k_cols k') ∧
    T ≡ₚ l ∧ descending (k_cols k) T ∧ placed (k_cols k') 0 T ∧
    (descending (k_cols k) l → T = l) ∧ n = (table_size (length l) + BS - 1) / BS ∧
    frame_but Ln (seqZ used n) (inode_at s id) sizeof_inode (kbytes k) (kbytes k') ∧
    disk_layout Ln (kbytes k') (inode_at s id) (table_size (length l))
      (Layout (seqZ used n) None None None) ∧
    content Ln (kbytes k') (seqZ used n) (table_size (length l)) =
      table_bytes (round_record (total_bits (k_cols k) l) a) (k_cols k') T.
Proof using Hfs Hbest HN.
  intros H [Hl Hnm Hsz Htab Hfile] Htot Ha Hlen Htsz Hid Hused Hroom.
  pose proof (volume_size s fs Hfs Hbest) as (Hs & Hnb & Hfs' & Hnbs & V1 & V2 & _).
  destruct (links_of_spec s Hs) as (HLn & HB & _ & Hp & _).
  destruct (reorder_columns_ok k t l Hl) as (p & m1 & T & E1 & Hs1 & [HT HTnd] & HP & HD & Hst).
  unfold generate_table_definition. step_with E1. steps.
  set (k1 := set_k_cols m1 k).
  assert (length T = length l) as HlT by (by apply Permutation_length).
  assert (∀ x, encoded m1 x = encoded (k_cols k) x) as He1 by (intros x; by apply encoded_unlinked).
  assert (total_bits m1 T = total_bits (k_cols k) l) as Ht1.
  { rewrite (total_bits_ext (k_cols k) m1) by done. by apply total_bits_perm. }
  change (tab_cols (set_tab_cols p t)) with p. change (tab_table (set_tab_cols p t)) with (tab_table t).
  change (tab_file (set_tab_cols p t)) with (tab_file t). rewrite Htab, Hfile.
  pose proof (clist_size (k_cols k1) _ _ _ HT HTnd) as Hsize1.
  destruct (place_columns_ok (S (size (k_cols k1))) k1 p T (PTable 0 0 0 0 0 0 0 0 0)) as
    (t2 & m2 & E2 & -> & HT2 & Hpl & _ & Hs2); [done|done|lia|by intros x; rewrite He1|simpl; lia..| |].
  { cbn [t_record_size]. change (k_cols k1) with m1. lia. }
  step_with E2. change (k_cols k1) with m1. rewrite Ht1.
  cbn [t_record_size t_column_count set_t_record_size set_t_column_count t_last_id t_row_count
    t_first_free_record_index t_acl_index t_owner t_properties t_reserved]. rewrite !Z.add_0_l.
  rewrite HlT, u16_small by lia. set (rs := round_record _ a).
  set (k2 := set_k_cols m2 k1).
  assert (fmt used iused bb j bad k2) as H2 by (by do 2 apply fmt_set_cols).
  assert (block_size_of (k_sb k2) = BS) as HB2 by (by eapply fmt_block_size).
  pose proof (fm_mallocs _ _ _ _ _ _ _ _ _ _ H2) as Hm2.
  unfold table_size in Htsz. assert (sizeof_table = 36 ∧ sizeof_column = 160) as [Z1 Z2] by done.
  destruct (append_to_file_ok BS Hp (MkFile [] None id 0 0 0) k2
    (encode_table (PTable 0 0 rs 0 0 0 (Z.of_nat (length l)) 0 0)) sizeof_table) as
    (f1 & E3 & F1 & F2 & F3 & F4 & F5 & F6); try done.
  { by apply fresh_file_ok. } { cbn [f_file_size]. lia. }
  step_with E3. cbn [fst snd]. cbn [f_file_size f_inode_id f_blocks length] in F3, F4, F6.
  pose proof (same_contents_trans _ _ _ Hs1 Hs2) as Hsc.
  assert (size (k_cols k1) = size (k_cols k2)) as Hsize.
  { rewrite <- !size_dom. f_equal. apply set_eq. intros x. rewrite !elem_of_dom.
    specialize (Hs2 x). change (k_cols k2) with m2. destruct (k_cols k1 !! x), (m2 !! x); done. }
  destruct (write_columns_ok BS Hp (S (size (k_cols k1))) f1 k2 p T) as
    (f2 & E4 & G1 & G2 & G3 & G4 & G5); try done; [lia| |rewrite HlT; lia|].
  { apply Forall_forall. intros x Hx. apply (named_same (k_cols k)); [done|].
    by apply (proj1 (Forall_forall _ _) Hnm), (elem_of_Permutation_proper _ _ _ HP). }
  step_with E4. rewrite HlT in G3. rewrite F4 in *. rewrite F3 in G2.
  assert (Z.of_nat (length (f_blocks f2)) ≤ 4) as Hb4.
  { rewrite G3 in G5. apply (blocks_for _ (sizeof_table + sizeof_column * Z.of_nat (length l))); lia. }
  destruct (fmt_close N s fs sb0 Hfs Hbest HN f2 k2 used iused bb j bad H2 G1) as
    (k3 & E5 & K1 & K2 & K3 & K4 & K5 & K6); [lia|rewrite G3; lia|by rewrite G2|done|lia|].
  step_with E5. rewrite G2, G3 in *.
  exists k3, T, (Z.of_nat (length (f_blocks f2))). rewrite K2.
  split; [done|]. split; [done|]. split; [lia|]. split; [by rewrite K3|]. split; [done|].
  split; [done|]. split; [done|]. split; [done|]. split; [done|]. split.
  { pose proof (mf_size _ _ G1) as Hblocks. rewrite G3 in Hblocks. unfold table_size in *.
    set (n := Z.of_nat (length (f_blocks f2))) in *.
    apply Z.div_unique_pos with (r := sizeof_table + sizeof_column * Z.of_nat (length l) + BS - 1 - BS * n); lia. }
  split; [done|]. split; [done|].
  unfold table_size. rewrite Z.add_0_l in K6. rewrite K6, G4, F5. unfold table_bytes.
  rewrite HlT. done.
Qed.
End table_definition.
