(* ===== verification/MkRun.v ===== *)
(** * Formatting a volume, from the start to the end

    The root hierarchy table, the maintenance files, the superblock and the
    bitmaps, put together to what [mkfs] leaves on the device. *)
From S2P Require Import Prelude Posix Bitmap LinkList UdbfsTypes Layout Content Persist.
From S2P Require Import MountSpec MkTypes MkFile MkTable Mkfs MkWrite MkClose MkColumns.
From S2P Require Import MkFormat MkVolume.
From Stdlib Require String.
Import String.StringSyntax.
Local Open Scope string_scope.
Local Open Scope Z_scope.

(** ** The root table, byte for byte *)

Definition ascii_bytes (text : String.string) : list Z :=
  map (λ a, Z.of_nat (Ascii.nat_of_ascii a)) (String.list_ascii_of_string text).

(** [struct __udbfs_table_column]: 40 words of 4 bytes, the last one split
    into four bytes - the length of the name, its 31 characters (behind the
    name whatever was in memory), the count, the size, four words of zeros,
    the offset in a record, and index in a list, properties, type, shift. *)
Definition column_record (name : String.string) (datatype size count list_index offset junk : Z) : list Z :=
  let text := ascii_bytes name in
  le_bytes 4 (zlen text) ++ (text ≫= le_bytes 4) ++ (replicate (31 - length text) junk ≫= le_bytes 4) ++
  le_bytes 4 count ++ le_bytes 4 size ++ replicate 16 0 ++ le_bytes 4 offset ++ [list_index; 0; datatype; 0].

(** The header, with records of 1052 bytes and five columns, and the columns:
    type 6 is a word of 32 bits, type 0x11 a text.  All five are aligned to 32
    bits, so the sort leaves them as they are linked, the last one added
    first. *)
Definition root_table_bytes (junk : Z) : list Z :=
  replicate 16 0 ++ le_bytes 4 1052 ++ replicate 12 0 ++ le_bytes 2 5 ++ [0; 0] ++
  column_record "parents" 6 1 4 0 0 junk ++
  column_record "row_id" 6 1 1 0 16 junk ++
  column_record "name" 0x11 255 1 1 20 junk ++
  column_record "table_id" 6 1 1 0 1044 junk ++
  column_record "id" 6 1 1 0 1048 junk.

(** The size of the table file, and the blocks it takes. *)
Definition root_size : Z := 36 + 5 * 160.
Definition root_blocks (s : Z) : Z := (root_size + 2 ^ (s + 7) - 1) / 2 ^ (s + 7).

(** A column without its link and its place. *)
Definition bare (c : column_desc) : column_desc := unplaced (unlinked c).
Definition columns_are (m : gmap loc column_desc) (l : list loc) (cs : list column_desc) : Prop :=
  Forall2 (λ x c, bare <$> m !! x = Some c) l cs.

Definition root_column (name : String.string) (datatype size count list_index bits junk : Z) : column_desc :=
  let text := ascii_bytes name in
  ColumnDesc None (Column (zlen text) (text ++ replicate (31 - length text) junk) count size 0 0 0 0 0
    list_index 0 datatype 0) bits 32.
Definition root_columns (junk : Z) : list column_desc :=
  [root_column "parents" 6 1 4 0 128 junk; root_column "row_id" 6 1 1 0 32 junk;
   root_column "name" 0x11 255 1 1 8192 junk; root_column "table_id" 6 1 1 0 32 junk;
   root_column "id" 6 1 1 0 32 junk].

Lemma encode_root_column name datatype size count list_index bits junk offset :
  u8 list_index = list_index → u8 datatype = datatype →
  encode_column (set_c_shift 0 (set_c_offset offset (cd_column (root_column name datatype size count list_index bits junk)))) =
  column_record name datatype size count list_index offset junk.
Proof.
  intros E1 E2. unfold root_column, column_record, encode_column.
  cbn [set_c_shift set_c_offset cd_column c_name_length c_name c_count c_size_or_enumeration c_acl c_compression
    c_encryption c_sequence c_offset c_list_index c_properties c_type c_shift].
  rewrite E1, E2, bind_cons, !bind_app, <- !app_assoc. by do 3 f_equal.
Qed.

(** The columns of [cs] as they lie in a record from bit [base] on. *)
Fixpoint columns_image (base : Z) (cs : list column_desc) : list Z :=
  match cs with
  | [] => []
  | c :: cs => encode_column (set_c_shift (base mod 8) (set_c_offset (base / 8) (cd_column c))) ++
      columns_image (base + cd_encoded_size c) cs
  end.

Lemma columns_image_ok m base l cs :
  placed m base l → columns_are m l cs → l ≫= column_bytes m = columns_image base cs.
Proof.
  intros Hp Hc. revert base Hp. induction Hc as [|x c l cs Hx _ IH]; intros base Hp; [done|].
  destruct Hp as [(c' & Hm & Hs & Ho) Hp]. rewrite bind_cons. cbn [columns_image].
  unfold encoded in Hp. rewrite Hm in Hx, Hp. apply (inj Some) in Hx. cbn [fmap option_fmap option_map from_option id] in Hp.
  rewrite (IH _ Hp). subst c. f_equal.
  unfold column_bytes. rewrite Hm. cbn [fmap option_fmap option_map from_option id].
  assert (base / 8 = c_offset (cd_column c') ∧ base mod 8 = c_shift (cd_column c')) as [-> ->].
  { split; symmetry; [apply Z.div_unique with (c_shift (cd_column c'))|apply Z.mod_unique with (c_offset (cd_column c'))]; lia. }
  by destruct c' as [? [] ? ?].
Qed.

Lemma columns_are_same m m' l cs : same_contents m m' → columns_are m l cs → columns_are m' l cs.
Proof. intros Hs H. eapply Forall2_impl; [exact H|]. intros x c <-. apply (Hs x). Qed.

Lemma columns_are_bnd m l cs b :
  columns_are m l cs → Forall (λ c, cd_natural_boundary c = b) cs → descending m l.
Proof.
  intros H Hb. assert (Forall (λ x, bnd m x = b) l) as Hl.
  { induction H as [|x c l cs Hx H IH]; [constructor|]. apply Forall_cons in Hb as [Hc Hb].
    constructor; [|by apply IH]. unfold bnd. destruct (m !! x); [|done]. by apply (inj Some) in Hx; subst c. }
  clear H Hb. induction Hl as [|x l Hx Hl IH]; constructor; [done|].
  eapply Forall_impl; [exact Hl|]. intros y Hy. cbn beta in *. lia.
Qed.

Lemma columns_image_cons base name datatype size count list_index bits junk cs :
  base mod 8 = 0 → u8 list_index = list_index → u8 datatype = datatype →
  columns_image base (root_column name datatype size count list_index bits junk :: cs) =
  column_record name datatype size count list_index (base / 8) junk ++ columns_image (base + bits) cs.
Proof. intros E1 E2 E3. cbn [columns_image]. by rewrite E1, encode_root_column. Qed.

Lemma root_image junk :
  encode_table (table_header (round_record 8416 2) 5) ++ columns_image 0 (root_columns junk) = root_table_bytes junk.
Proof. unfold root_columns. by rewrite !columns_image_cons by done. Qed.

(** ** The columns of a new table *)

(** No column lies at an address still to be handed out. *)
Definition fresh_cols (k : mkstate) : Prop :=
  ∀ x, (k_next_loc k ≤ x)%positive → k_cols k !! x = None.

Lemma clist_push m p l x c :
  clist m p l → m !! x = None → clist (<[x := set_cd_next p c]> m) (Some x) (x :: l).
Proof.
  intros [Hl Hnd] Hx. assert (x ∉ l) as Hxl.
  { intros Hin. destruct (cseg_mem _ _ _ _ _ Hl Hin) as [? ?]. congruence. }
  split; [|by apply NoDup_cons]. split; [done|]. eexists. split; [apply lookup_insert_eq|].
  eapply cseg_frame; [|exact Hl]. intros y Hy. rewrite lookup_insert_ne; [done|]. by intros ->.
Qed.

Lemma add_column_ok k t l id name datatype size count list_index u b sz :
  fresh_cols k → k_mallocs k = [] → table_ok k t l id →
  type_size (u8 datatype) = Some (u, b) →
  sz = column_size (u8 datatype) u (u32 size) (u32 count) → 0 ≤ sz →
  let x := k_next_loc k in
  ∃ t' c, add_column t name datatype size count list_index k =
      Ok (0, t') (set_k_cols (<[x := c]> (k_cols k)) (set_k_next_loc (Pos.succ x) k)) ∧
    let k' := set_k_cols (<[x := c]> (k_cols k)) (set_k_next_loc (Pos.succ x) k) in
    table_ok k' t' (x :: l) id ∧ fresh_cols k' ∧
    (∀ cs, columns_are (k_cols k) l cs → columns_are (k_cols k') (x :: l) (bare c :: cs)) ∧
    (let name_length := if 31 <? u32 (zlen name) then 31 else u32 (zlen name) in
     let text := map widen_char (take (Z.to_nat name_length) name) in
     bare c = ColumnDesc None (Column name_length (text ++ replicate (31 - length text) (u32 (k_junk k))) (u32 count) (u32 size)
       0 0 0 0 0 (u8 list_index) 0 (u8 datatype) 0) sz b) ∧
    total_bits (k_cols k') (x :: l) = sz + total_bits (k_cols k) l.
Proof.
  intros Hfr Hm [Hl Hnm Hsz Htab Hfile] Hty Es Hpos x.
  assert (k_cols k !! x = None) as Hx by (apply Hfr; lia).
  assert (x ∉ l) as Hxl.
  { intros Hin. destruct (cseg_mem _ _ _ _ _ (proj1 Hl) Hin) as [? ?]. congruence. }
  unfold add_column. step_with (malloc_ok k Hm). cbn [negb]. steps. cbv zeta. rewrite Hty, <- Es.
  unfold put_column. steps. eexists _, _. split; [reflexivity|]. cbv zeta.
  match goal with |- context [<[_ := ?d]> _] => set (c := d) end.
  split; [split|split]; try done.
  - cbn [k_cols set_k_cols tab_cols set_tab_cols]. apply (clist_push (k_cols k) (tab_cols t) l x c Hl Hx).
  - constructor.
    + exists c. split; [apply lookup_insert_eq|]. unfold c. cbn [cd_column c_name].
      rewrite length_app, length_replicate, length_map, length_take.
      assert (u32 (zlen name) ≤ zlen name) as Hu.
      { unfold u32. apply Z.mod_le; [apply zlen_nonneg|lia]. }
      pose proof (u32_range (zlen name)).
      unfold zlen in *. destruct (Z.ltb_spec 31 (u32 (Z.of_nat (length name)))); lia.
    + eapply Forall_impl; [exact Hnm|]. intros y (c' & Hy & Hlen). exists c'. split; [|done].
      cbn [k_cols set_k_cols]. rewrite lookup_insert_ne; [done|]. congruence.
  - intros y. unfold encoded. cbn [k_cols set_k_cols]. destruct (decide (y = x)) as [->|].
    + by rewrite lookup_insert_eq.
    + rewrite lookup_insert_ne by done. apply Hsz.
  - intros y Hy. cbn [k_next_loc k_cols set_k_cols set_k_next_loc] in *. fold x in Hy.
    rewrite lookup_insert_ne by lia. apply Hfr. fold x. lia.
  - split; [|split; [done|]].
    { intros cs Hcs. constructor; [cbn [k_cols set_k_cols]; by rewrite lookup_insert_eq|].
      clear -Hcs Hxl. induction Hcs as [|y d l cs Hy _ IH]; constructor; [|apply IH; set_solver].
      cbn [k_cols set_k_cols]. rewrite lookup_insert_ne by set_solver. done. }
    cbn [total_bits k_cols set_k_cols]. f_equal.
    + unfold encoded. by rewrite lookup_insert_eq.
    + apply total_bits_frame. intros y Hy. rewrite lookup_insert_ne; [done|]. by intros ->.
Qed.

(** ** mkfs *)

Section run.
Context (N s fs : Z) (sb0 : superblock).
Hypothesis Hfs : 2 ^ 14 ≤ fs < 2 ^ 31.
Hypothesis Hbest : best_size fs s.
Hypothesis HN : fs ≤ N < 2 ^ 31.
Abbreviation Ln := (links_of s).
Abbreviation BS := (2 ^ (s + 7)).
Abbreviation nb := (fs / 2 ^ (s + 7)).
Abbreviation ni := (inodes_for fs).
Abbreviation fmt := (fmt N s fs sb0).

Lemma create_file_ok used iused bb j bad k :
  fmt used iused bb j bad k → 0 ≤ iused < ni →
  ∃ k', create_file k = Ok (MkFile [] None iused 0 0 0) k' ∧ fmt used (iused + 1) bb j bad k' ∧
    k_cols k' = k_cols k ∧ k_next_loc k' = k_next_loc k ∧ kbytes k' = kbytes k.
Proof using Hfs Hbest HN.
  intros H Hi. pose proof (volume_size s fs Hfs Hbest) as (Hs & Hnb & Hfs' & _).
  unfold create_file. step_with (malloc_ok k (fm_mallocs _ _ _ _ _ _ _ _ _ _ H)). cbn [negb].
  destruct (fmt_allocate_inode N s fs sb0 Hs Hnb Hfs' _ _ _ _ _ _ H Hi) as (k' & E & H' & H1 & H2 & H3 & _).
  step_with E. exists k'. by split_and!.
Qed.

(** The five columns take 32, 32, 8192, 32 and 128 bits. *)
Definition root_bits : Z := 8416.

Lemma root_hierarchy_ok used iused bb j bad k :
  fmt used iused bb j bad k → 0 ≤ iused < ni → k_cols k = ∅ →
  ∃ t l k', root_hierarchy k = Ok t k' ∧ fmt used (iused + 1) bb j bad k' ∧
    table_ok k' t l iused ∧ (∃ junk, columns_are (k_cols k') l (root_columns junk)) ∧
    total_bits (k_cols k') l = root_bits ∧
    kbytes k' = kbytes k.
Proof using Hfs Hbest HN.
  intros H Hi Hc. unfold root_hierarchy, create_table.
  rewrite bind_assoc. step_with (malloc_ok k (fm_mallocs _ _ _ _ _ _ _ _ _ _ H)). cbn [negb].
  destruct (create_file_ok _ _ _ _ _ _ H Hi) as (k1 & E1 & H1 & C1 & L1 & D1).
  rewrite bind_assoc. step_with E1. steps. set (t0 := Table _ _ _).
  assert (table_ok k1 t0 [] iused) as T0.
  { split; [split; [done|constructor]|constructor| |done|done]. intros x. unfold encoded.
    rewrite C1, Hc, lookup_empty. simpl. lia. }
  assert (fresh_cols k1) as F0 by (intros x _; by rewrite C1, Hc, lookup_empty).
  pose proof (fm_mallocs _ _ _ _ _ _ _ _ _ _ H1) as Hm.
  destruct (add_column_ok k1 t0 [] iused (colname "id") DATATYPE_INT32 1 1 0 32 32 32 F0 Hm T0
    eq_refl eq_refl ltac:(lia)) as (t1 & c1 & E2 & T1 & F1 & A1 & Ec1 & B1). step_with E2. cbn [snd].
  destruct (add_column_ok _ t1 _ iused (colname "table_id") DATATYPE_INT32 1 1 0 32 32 32 F1 Hm T1
    eq_refl eq_refl ltac:(lia)) as (t2 & c2 & E3 & T2 & F2 & A2 & Ec2 & B2). step_with E3. cbn [snd].
  destruct (add_column_ok _ t2 _ iused (colname "name") DATATYPE_VARCHAR 255 1 1 32 32 8192 F2 Hm T2
    eq_refl eq_refl ltac:(lia)) as (t3 & c3 & E4 & T3 & F3 & A3 & Ec3 & B3). step_with E4. cbn [snd].
  destruct (add_column_ok _ t3 _ iused (colname "row_id") DATATYPE_INT32 1 1 0 32 32 32 F3 Hm T3
    eq_refl eq_refl ltac:(lia)) as (t4 & c4 & E5 & T4 & F4 & A4 & Ec4 & B4). step_with E5. cbn [snd].
  destruct (add_column_ok _ t4 _ iused (colname "parents") DATATYPE_INT32 1 4 0 32 32 128 F4 Hm T4
    eq_refl eq_refl ltac:(lia)) as (t5 & c5 & E6 & T5 & F5 & A5 & Ec5 & B5). step_with E6. cbn [snd].
  eexists t5, _, _. split; [reflexivity|]. split; [|split; [exact T5|split; [|split; [|done]]]].
  - by destruct H1.
  - exists (u32 (k_junk k1)). pose proof (A5 _ (A4 _ (A3 _ (A2 _ (A1 [] ltac:(constructor)))))) as Hcs.
    rewrite Ec1, Ec2, Ec3, Ec4, Ec5 in Hcs. exact Hcs.
  - rewrite B5, B4, B3, B2, B1. done.
Qed.

(** What is written after the root table is outside of its inode and of the
    data area. *)
Definition keeps_data (dev dev' : list Z) : Prop :=
  length dev' = length dev ∧
  ∀ p, first_data s fs * BS ≤ p ∨ inode_at s 0 ≤ p < inode_at s 1 → byte_at dev' p = byte_at dev p.

Lemma keeps_data_trans d1 d2 d3 : keeps_data d1 d2 → keeps_data d2 d3 → keeps_data d1 d3.
Proof. intros [L1 H1] [L2 H2]. split; [congruence|]. intros p Hp. by rewrite H2, H1. Qed.

Lemma data_bounds : 0 < BS ∧ 2048 ≤ inode_at s 0 ∧ inode_at s 0 + sizeof_inode = inode_at s 1 ∧
  2048 ≤ bitmaps_at s fs * BS ∧ inode_at s 3 ≤ bitmaps_at s fs * BS ∧
  bitmaps_at s fs * BS + bitmap_size nb + bitmap_size ni ≤ first_data s fs * BS ∧
  first_data s fs * BS ≤ N ∧ 0 ≤ bitmap_size nb ∧ 0 ≤ bitmap_size ni.
Proof using Hfs Hbest HN.
  pose proof (volume_size s fs Hfs Hbest) as (Hs & Hnb & Hfs' & V0 & V1 & V2 & V3 & V4 & V5).
  destruct (areas_fit fs s Hfs Hbest) as (A1 & A2 & A3 & A4 & A5).
  destruct (links_of_spec s Hs) as (_ & _ & _ & Hp & _).
  destruct (fmt_bounds s fs Hs Hnb Hfs') as (_ & Hni & Hb1 & Hb2 & _).
  destruct (inode_at_range s fs Hfs Hbest 2) as [R1 R2]; [lia|].
  unfold inode_at, sizeof_inode in *. unfold first_data in *. rewrite Z.mul_add_distr_r.
  assert (first_block s * BS ≤ bitmaps_at s fs * BS) by (apply Z.mul_le_mono_nonneg_r; lia).
  assert ((bitmaps_at s fs + bitmap_area s fs) * BS ≤ nb * BS) by (apply Z.mul_le_mono_nonneg_r; lia).
  split; [lia|]. split; [lia|]. split; [lia|]. split; [lia|]. split; [lia|]. split; [lia|].
  rewrite <- Z.mul_add_distr_r. split; [lia|]. split; lia.
Qed.

Lemma keeps_file dev dev' id used n size :
  keeps_data dev dev' → id = 0 → first_data s fs ≤ used →
  disk_layout Ln dev (inode_at s id) size (Layout (seqZ used n) None None None) →
  disk_layout Ln dev' (inode_at s id) size (Layout (seqZ used n) None None None) ∧
  content Ln dev' (seqZ used n) size = content Ln dev (seqZ used n) size.
Proof using Hfs Hbest HN.
  intros [Hl Hk] -> Hu [H1 _ _ _]. pose proof data_bounds as (Hp & D1 & D2 & D3 & D4 & D5 & D6 & D7 & D8).
  pose proof (volume_size s fs Hfs Hbest) as (Hs & _ & _ & _ & V1 & _ & V3 & V4 & V5).
  destruct (links_of_spec s Hs) as (_ & HB & _).
  split.
  - split; [|intros ? [=]..]. rewrite <- H1. apply dread_ext; [lia|done|].
    intros p Hpr. apply Hk. lia.
  - unfold content, file_bytes. f_equal.
    assert (∀ ids, (∀ i, i ∈ ids → first_data s fs ≤ i) → ids ≫= block_bytes Ln dev' =
      ids ≫= block_bytes Ln dev) as Hids.
    { induction ids as [|i ids IH]; intros Hi; [done|]. rewrite !bind_cons. f_equal.
      - pose proof (Hi i ltac:(left)). unfold block_bytes. rewrite HB.
        assert (first_data s fs * BS ≤ i * BS) by (apply Z.mul_le_mono_nonneg_r; lia).
        assert (0 ≤ i * BS) by (apply Z.mul_nonneg_nonneg; lia).
        apply dread_ext; [lia|done|]. intros p Hpr. apply Hk. left. lia.
      - apply IH. intros y Hy. apply Hi. by right. }
    apply Hids. intros i [Hi _]%elem_of_seqZ. lia.
Qed.

(** The frame of an inode past the first that has no blocks. *)
Lemma frame_keeps dev dev' id :
  1 ≤ id ≤ 2 → frame_but Ln [] (inode_at s id) sizeof_inode dev dev' → keeps_data dev dev'.
Proof using Hfs Hbest HN.
  intros Hid [Hl Hf]. pose proof data_bounds as (Hp & D1 & D2 & D3 & D4 & D5 & D6 & D7 & D8).
  unfold inode_at, sizeof_inode in *.
  split; [done|]. intros p Hpr. unfold inode_at, sizeof_inode in Hpr.
  apply Hf; [destruct Hpr; lia|apply not_elem_of_nil|].
  destruct Hpr; lia.
Qed.

Lemma maintenance_files_ok used bb j bad k :
  fmt used 1 bb j bad k → first_data s fs ≤ used ≤ nb →
  ∃ k', maintenance_files k = Ok tt k' ∧ fmt used 3 bb 2 1 k' ∧ keeps_data (kbytes k) (kbytes k').
Proof using Hfs Hbest HN.
  intros H Hu. pose proof (volume_size s fs Hfs Hbest) as (Hs & Hnb & Hfs' & _).
  destruct (links_of_spec s Hs) as (_ & _ & _ & Hp & _).
  destruct (fmt_bounds s fs Hs Hnb Hfs') as (_ & Hni & _).
  unfold maintenance_files, set_sb.
  destruct (create_file_ok _ _ _ _ _ _ H) as (k1 & E1 & H1 & _ & _ & D1); [lia|].
  step_with E1. steps. cbn [f_inode_id].
  apply (fmt_set_bad _ _ _ _ _ _ _ _ _ _ 1) in H1.
  destruct (fmt_close N s fs sb0 Hfs Hbest HN (MkFile [] None 1 0 0 0) _ used 2 bb j 1 H1
    (fresh_file_ok BS Hp 1)) as (k2 & E2 & H2 & _ & _ & F2 & _); try (simpl; lia).
  step_with E2. rewrite Z.add_0_r in H2.
  destruct (create_file_ok _ _ _ _ _ _ H2) as (k3 & E3 & H3 & _ & _ & D3); [lia|].
  step_with E3. steps. cbn [f_inode_id].
  apply (fmt_set_journal _ _ _ _ _ _ _ _ _ _ 2) in H3.
  destruct (fmt_close N s fs sb0 Hfs Hbest HN (MkFile [] None 2 0 0 0) _ used 3 bb 2 1 H3
    (fresh_file_ok BS Hp 2)) as (k4 & E4 & H4 & _ & _ & F4 & _); try (simpl; lia).
  step_with E4. rewrite Z.add_0_r in H4. exists k4. split; [done|]. split; [done|].
  cbn [k_dev set_k_sb] in F2, F4. rewrite D1 in F2. rewrite D3 in F4.
  eapply keeps_data_trans; [apply (frame_keeps _ _ 1)|apply (frame_keeps _ _ 2)]; done || lia.
Qed.

Lemma fmt_set_dev used iused bb j bad k dev pos :
  fmt used iused bb j bad k → zlen dev = N →
  fmt used iused bb j bad (set_k_dev (Device dev pos true) k).
Proof.
  intros [F1 F2 [F3 F3'] F4 F5 F6 F7 F8 F9 F10] Hd. split; try done.
  split; [done|]. cbn [k_dev set_k_dev d_bytes]. by rewrite Hd, <- F4.
Qed.

(** The superblock and the bitmaps, in their places. *)
Definition written (k : mkstate) (dev : list Z) : Prop :=
  dread dev 1024 sizeof_superblock = encode_superblock (k_sb k) ∧
  dread dev (bitmaps_at s fs * BS) (bitmap_size nb) = k_block_bitmap k ∧
  dread dev (bitmaps_at s fs * BS + bitmap_size nb) (bitmap_size ni) = k_inode_bitmap k.

Lemma finish_ok used iused j bad k :
  fmt used iused (bitmaps_at s fs) j bad k →
  ∃ k', (k ← gets id; ok ← write_at 1024 (encode_mk_superblock (k_junk k) (k_sb k));
         if negb ok then die else save_bitmaps;; mret 0) k = Ok 0 k' ∧
    fmt used iused (bitmaps_at s fs) j bad k' ∧ keeps_data (kbytes k) (kbytes k') ∧
    written k' (kbytes k').
Proof using Hfs Hbest HN.
  intros H. pose proof (volume_size s fs Hfs Hbest) as (Hs & Hnb & Hfs' & _).
  pose proof data_bounds as (Hp & D1 & D2 & D3 & D4 & D5 & D6 & D7 & D8).
  pose proof (fm_size _ _ _ _ _ _ _ _ _ _ H) as Hz. pose proof (fm_dev _ _ _ _ _ _ _ _ _ _ H) as Hd.
  destruct (fm_blocks _ _ _ _ _ _ _ _ _ _ H) as [_ Lb _].
  destruct (fm_inodes _ _ _ _ _ _ _ _ _ _ H) as [_ Li _].
  steps. unfold id. set (sbytes := encode_mk_superblock _ _).
  assert (zlen sbytes = 120) as Lsb.
  { unfold sbytes, encode_mk_superblock. rewrite zlen_app, length_encode_superblock. done. }
  unfold inode_at, sizeof_inode in D1, D2, D4.
  step_with (write_at_ok 1024 sbytes k Hd ltac:(lia)
    ltac:(rewrite Lsb; cbn [get_dev mk_device]; lia)).
  cbn [negb get_dev put_dev mk_device]. rewrite Lsb. set (d1 := dsplice 1024 sbytes _).
  set (k1 := set_k_dev _ k). assert (zlen d1 = N) as Hz1 by (unfold d1; by rewrite zlen_dsplice).
  assert (fmt used iused (bitmaps_at s fs) j bad k1) as H1 by (by apply fmt_set_dev).
  assert (dev_ok (get_dev k1)) as Hd1 by apply (fm_dev _ _ _ _ _ _ _ _ _ _ H1).
  unfold save_bitmaps, BLOCK_SIZE. rewrite bind_assoc. steps. rewrite bind_assoc. steps. unfold id.
  rewrite (fmt_block_size _ _ _ _ Hs _ _ _ _ _ _ H1), (fm_sb _ _ _ _ _ _ _ _ _ _ H1).
  cbn [sb_bitmaps_block alloc_sb]. rewrite (Z.mul_comm BS). set (o := bitmaps_at s fs * BS) in *.
  rewrite u64_small, i32_small by lia. rewrite bind_assoc. step_with (lseek_ok o k1 Hd1 ltac:(lia)).
  cbn [get_dev put_dev mk_device k1 k_dev set_k_dev d_bytes].
  set (k2 := set_k_dev (Device d1 o true) _).
  assert (dev_ok (get_dev k2)) as Hd2 by (split; [done|]; change (zlen d1 < 2 ^ 62); lia).
  change (k_block_bitmap k1) with (k_block_bitmap k). change (k_inode_bitmap k1) with (k_inode_bitmap k).
  rewrite bind_assoc. step_with (write_ok (k_block_bitmap k) k2 Hd2 ltac:(change (0 ≤ o); lia)
    ltac:(change (o + zlen (k_block_bitmap k) ≤ zlen d1); lia)).
  cbn [get_dev put_dev mk_device k2 k_dev set_k_dev d_bytes d_pos].
  set (d2 := dsplice o _ d1). assert (zlen d2 = N) as Hz2 by (unfold d2; by rewrite zlen_dsplice).
  set (k3 := set_k_dev (Device d2 _ true) _).
  assert (dev_ok (get_dev k3)) as Hd3 by (split; [done|]; change (zlen d2 < 2 ^ 62); lia).
  rewrite bind_assoc. step_with (write_ok (k_inode_bitmap k) k3 Hd3
    ltac:(change (0 ≤ o + zlen (k_block_bitmap k)); lia)
    ltac:(change (o + zlen (k_block_bitmap k) + zlen (k_inode_bitmap k) ≤ zlen d2); lia)).
  cbn [get_dev put_dev mk_device k3 k_dev set_k_dev d_bytes d_pos]. steps. rewrite Lb.
  set (d3 := dsplice (o + bitmap_size nb) _ d2).
  assert (zlen d3 = N) as Hz3 by (unfold d3; by rewrite zlen_dsplice).
  exists (set_k_dev (Device d3 (o + bitmap_size nb + zlen (k_inode_bitmap k)) true) k).
  split; [reflexivity|]. split; [by apply fmt_set_dev|]. cbn [k_dev set_k_dev d_bytes k_sb].
  unfold written. cbn [k_dev set_k_dev d_bytes k_sb k_block_bitmap k_inode_bitmap]. fold o.
  split; [|split; [|split]].
  - split; [by unfold d3, d2, d1; rewrite !length_dsplice|]. unfold inode_at, sizeof_inode.
    intros p Hpr. unfold d3, d2, d1. rewrite !byte_at_dsplice_out; [done| ..]; destruct Hpr; lia.
  - unfold d3, d2. rewrite !dread_dsplice_disjoint by (unfold sizeof_superblock; lia).
    replace (dread d1 1024 sizeof_superblock) with (take 118 (dread d1 1024 120)).
    2:{ unfold dread. rewrite take_take. done. }
    unfold d1. rewrite <- Lsb at 1. rewrite dread_dsplice_same by lia.
    unfold sbytes, encode_mk_superblock. rewrite take_app_length'; [done|].
    pose proof (length_encode_superblock (k_sb k)) as E. unfold zlen, sizeof_superblock in E. lia.
  - unfold d3. rewrite dread_dsplice_disjoint by lia. unfold d2. rewrite <- Lb at 1.
    apply dread_dsplice_same; lia.
  - unfold d3. rewrite <- Li at 1. apply dread_dsplice_same; lia.
Qed.
End run.

Lemma descending_contents m m' l : same_contents m m' → descending m l → descending m' l.
Proof.
  intros Hs H. assert (∀ x, bnd m' x = bnd m x) as Hb.
  { intros x. specialize (Hs x). unfold bnd. destruct (m' !! x) as [c'|], (m !! x) as [c|]; try done.
    apply (inj Some) in Hs. simpl. change (cd_natural_boundary (unplaced (unlinked c')) =
      cd_natural_boundary (unplaced (unlinked c))). by f_equal. }
  induction H as [|x l H IH Hx]; constructor; [done|].
  eapply Forall_impl; [exact Hx|]. intros y. cbn beta. by rewrite !Hb.
Qed.

(** The root table of a formatted device: inode 0, in the first data blocks. *)
Definition root_table (s fs : Z) (dev : list Z) : Prop :=
  disk_layout (links_of s) dev (inode_at s 0) root_size
    (Layout (seqZ (first_data s fs) (root_blocks s)) None None None) ∧
  ∃ junk, content (links_of s) dev (seqZ (first_data s fs) (root_blocks s)) root_size = root_table_bytes junk.

Lemma root_blocks_range s : 1 ≤ s ≤ 5 → 1 ≤ root_blocks s ≤ 4.
Proof.
  intros Hs. assert (s = 1 ∨ s = 2 ∨ s = 3 ∨ s = 4 ∨ s = 5) as [->|[->|[->|[->| ->]]]] by lia; by vm_compute.
Qed.

Lemma mkfs_ok fs k :
  2 ^ 14 ≤ fs < 2 ^ 31 → fs ≤ zlen (kbytes k) < 2 ^ 31 →
  k_mallocs k = [] → dev_ok (k_dev k) → k_cols k = ∅ →
  ∃ s k', mkfs fs k = Ok 0 k' ∧ best_size fs s ∧
    fmt (zlen (kbytes k)) s fs (k_sb k) (first_data s fs + root_blocks s) 3 (bitmaps_at s fs) 2 1 k' ∧
    written s fs k' (kbytes k') ∧ root_table s fs (kbytes k').
Proof.
  intros Hf HN Hm Hd Hc. unfold mkfs. step_with (malloc_ok k Hm). cbn [negb].
  destruct (plan_volume_ok fs k Hf Hm Hd) as (s & k1 & E1 & Hbest & H1 & C1 & _ & _).
  step_with E1. rewrite Hc in C1.
  destruct (reserve_areas_ok _ s fs _ _ _ _ k1 Hf Hbest H1) as (k2 & E2 & H2 & C2 & _ & _).
  step_with E2. rewrite C1 in C2.
  pose proof (volume_size s fs Hf Hbest) as (Hs & Hnb & Hfs' & _).
  destruct (fmt_bounds s fs Hs Hnb Hfs') as (_ & Hni & _).
  destruct (areas_fit fs s Hf Hbest) as (_ & _ & _ & _ & A5).
  destruct (links_of_spec s Hs) as (_ & _ & _ & Hp & Hp').
  destruct (root_hierarchy_ok _ s fs _ Hf Hbest HN _ _ _ _ _ k2 H2) as
    (t & l & k3 & E3 & H3 & T3 & (junk & Hcols) & B3 & D3); [lia|done|].
  step_with E3. assert (length l = 5%nat) as L3 by (by apply Forall2_length in Hcols).
  destruct (table_definition_ok _ s fs _ Hf Hbest HN t 2 l k3 0 _ _ _ _ _ H3 T3) as
    (k4 & T & n & E4 & H4 & Hn & _ & Hsc & _ & _ & Hpl & Hst & En & _ & Hlay & Hcon);
    try (rewrite ?B3, ?L3; unfold root_bits, table_size, sizeof_table, sizeof_column; lia).
  step_with E4. rewrite B3, L3 in *.
  rewrite (Hst (columns_are_bnd _ _ _ 32 Hcols ltac:(by repeat constructor))) in *. clear Hst T.
  change (table_size 5) with root_size in *. fold (root_blocks s) in En. subst n.
  destruct (maintenance_files_ok _ s fs _ Hf Hbest HN _ _ _ _ k4 H4) as (k5 & E5 & H5 & K5); [lia|].
  step_with E5.
  destruct (finish_ok _ s fs _ Hf Hbest HN _ _ _ _ k5 H5) as (k6 & E6 & H6 & K6 & W6).
  exists s, k6. split; [exact E6|]. split; [done|]. split; [done|]. split; [done|].
  destruct (keeps_file _ s fs Hf Hbest HN _ _ 0 (first_data s fs) (root_blocks s) root_size
    (keeps_data_trans _ _ _ _ _ K5 K6) eq_refl ltac:(lia) Hlay) as [Hlay' Hcon'].
  split; [exact Hlay'|]. exists junk. rewrite Hcon', Hcon. unfold table_bytes.
  rewrite (columns_image_ok _ 0 _ _ Hpl (columns_are_same _ _ _ _ Hsc Hcols)), L3.
  apply root_image.
Qed.
