(* ===== verification/MkSpec.v ===== *)
(** * What the formatter guarantees

    The theorems about mkudbfs, with their witnesses: the formatted volume
    and its mounting, files, tables, the columns' order, the bitmaps and
    the search for the size of a device. *)
From S2P Require Import Prelude Posix Bitmap LinkList UdbfsTypes BlockLoad Layout Content.
From S2P Require Import Mount ExtendProofs Files Persist Sample MountSpec.
From S2P Require Import MkTypes MkFile MkTable Mkfs MkWrite MkClose MkColumns MkFormat.
From S2P Require Import MkVolume MkRun.
Local Open Scope Z_scope.

(** ** Formatting and mounting *)

Section mounted.
Context (N s fs : Z) (sb0 : superblock).
Hypothesis Hfs : 2 ^ 14 ≤ fs < 2 ^ 31.
Hypothesis Hbest : best_size fs s.
Hypothesis HN : fs ≤ N < 2 ^ 31.
Abbreviation nb := (fs / 2 ^ (s + 7)).
Abbreviation ni := (inodes_for fs).

Lemma formatted_superblock used k :
  fmt N s fs sb0 used 3 (bitmaps_at s fs) 2 1 k → first_data s fs ≤ used ≤ nb →
  superblock_ok sb0 → superblock_ok (k_sb k) ∧ superblock_valid (k_sb k) = true.
Proof using Hfs Hbest.
  intros H Hu [H1 H2]. rewrite (fm_sb _ _ _ _ _ _ _ _ _ _ H).
  pose proof (volume_size s fs Hfs Hbest) as (Hs & Hnb & Hfs' & V0 & V1 & V2 & V3 & V4 & V5).
  destruct (fmt_bounds s fs Hs Hnb Hfs') as (Bn & Hni & _).
  destruct (first_block_shift s Hs) as (_ & Hfb & _).
  repeat match goal with H : Forall _ (_ :: _) |- _ => apply Forall_cons in H as [? H] end.
  split.
  - split; cbn [alloc_sb planned sb_boot_loader_inode sb_inode_first_block sb_unique_fs_signature
      sb_block_count sb_inode_count sb_free_block_count sb_free_inode_count sb_bitmaps_block
      sb_journal_inode sb_bad_block_inode sb_magic_number sb_last_check sb_max_interval sb_last_mount
      sb_mount_count sb_max_mount_count sb_creator_os sb_superblock_version sb_block_size
      sb_inode_format];
      repeat (apply Forall_cons; split; [unfold UDBFS_MAGIC; lia|]); apply Forall_nil; done.
  - unfold superblock_valid.
    cbn [alloc_sb planned sb_magic_number sb_block_size sb_superblock_version sb_inode_format
      sb_block_count sb_inode_count sb_free_block_count sb_free_inode_count sb_creator_os].
    repeat case_match; try done; lia.
Qed.

Lemma seqZ_take a n m : 0 ≤ n ≤ m → take (Z.to_nat n) (seqZ a m) = seqZ a n.
Proof.
  intros Hn. replace m with (n + (m - n)) by lia. rewrite seqZ_app by lia.
  apply take_app_length'. rewrite length_seqZ. lia.
Qed.

Lemma zlen_seqZ a n : 0 ≤ n → zlen (seqZ a n) = n.
Proof. intros Hn. unfold zlen. rewrite length_seqZ. lia. Qed.

(** The volume as the library finds it. *)
Lemma formatted_on_volume used k :
  fmt N s fs sb0 used 3 (bitmaps_at s fs) 2 1 k → first_data s fs ≤ used ≤ nb →
  superblock_ok sb0 → written s fs k (kbytes k) →
  let sb := k_sb k in let dev := kbytes k in
  on_volume sb dev ∧ volume_block_bitmap sb dev = k_block_bitmap k ∧
  volume_inode_bitmap sb dev = k_inode_bitmap k.
Proof using Hfs Hbest HN.
  intros H Hu Hok (W1 & W2 & W3) sb dev.
  destruct (formatted_superblock used k H Hu Hok) as [Hsb Hval].
  pose proof (data_bounds N s fs Hfs Hbest HN) as (Hp & _ & _ & D3 & _ & D5 & D6 & D7 & D8).
  pose proof (volume_size s fs Hfs Hbest) as (Hs & Hnb & Hfs' & _).
  destruct (fmt_bounds s fs Hs Hnb Hfs') as (Bn & Hni & _).
  pose proof (fm_size _ _ _ _ _ _ _ _ _ _ H) as Hz.
  assert (sb = alloc_sb (nb - used) (ni - 3) (bitmaps_at s fs) 2 1 (planned s fs sb0)) as Esb
    by apply (fm_sb _ _ _ _ _ _ _ _ _ _ H).
  assert (sb_bitmap_offset sb = bitmaps_at s fs * 2 ^ (s + 7)) as Eo by (by rewrite Esb).
  assert (sb_block_count sb = nb) as En by (by rewrite Esb).
  assert (sb_inode_count sb = ni) as Ei by (by rewrite Esb).
  unfold volume_block_bitmap, volume_inode_bitmap. rewrite Eo, En, Ei.
  split; [|by split]. split; try done; rewrite ?Eo, ?En, ?Ei.
  - lia.
  - subst dev. rewrite Hz. change (bitmap_bytes nb) with (bitmap_size nb).
    change (bitmap_bytes ni) with (bitmap_size ni). lia.
  - unfold sizeof_superblock. lia.
Qed.

Lemma formatted_mounts used k w :
  fmt N s fs sb0 used 3 (bitmaps_at s fs) 2 1 k → first_data s fs ≤ used ≤ nb →
  superblock_ok sb0 → written s fs k (kbytes k) →
  0 < w_host_fd w → w_mallocs w = [] → w_mounted_devices w = None → w_dev w = k_dev k →
  ∃ w', udbfs_mount w = Ok (Some (w_next_loc w)) w' ∧
    mount_ok (links_of s) w' (seqZ used (nb - used)) (seqZ 3 (ni - 3)) [] ∧
    dev_bytes w' = kbytes k.
Proof using Hfs Hbest HN.
  intros H Hu Hok Hw Hfd Hm Hmd Hdev.
  destruct (formatted_on_volume used k H Hu Hok Hw) as (Hv & Eb & Ei).
  pose proof (volume_size s fs Hfs Hbest) as (Hs & Hnb & Hfs' & V0 & V1 & V2 & V3 & V4 & V5).
  destruct (fmt_bounds s fs Hs Hnb Hfs') as (Bn & Hni & B1 & B2 & B3 & B4).
  destruct (fm_blocks _ _ _ _ _ _ _ _ _ _ H) as [G1 G2 G3].
  destruct (fm_inodes _ _ _ _ _ _ _ _ _ _ H) as [I1 I2 I3].
  pose proof (fm_size _ _ _ _ _ _ _ _ _ _ H) as Hz.
  assert (sb_free_block_count (k_sb k) = nb - used ∧ sb_free_inode_count (k_sb k) = ni - 3 ∧
    sb_block_size (k_sb k) = s) as (Efb & Efi & Ebs)
    by (rewrite (fm_sb _ _ _ _ _ _ _ _ _ _ H); done).
  assert (volume_free_blocks (k_sb k) (kbytes k) = seqZ used (nb - used)) as Evb.
  { unfold volume_free_blocks. rewrite Eb, G3, Efb. apply seqZ_take. lia. }
  assert (volume_free_inodes (k_sb k) (kbytes k) = seqZ 3 (ni - 3)) as Evi.
  { unfold volume_free_inodes. rewrite Ei, I3, Efi. apply seqZ_take. lia. }
  assert (dev_bytes w = kbytes k) as Edw by (by rewrite Hdev).
  destruct (mount_invariant_ok (k_sb k) w (links_of s)) as (w' & E & Hmo & Hb).
  - split; try done; rewrite Hdev; [lia|done].
  - lia.
  - rewrite Ebs. by destruct (links_of_spec s Hs) as (_ & _ & ? & _).
  - by rewrite Edw, Eb.
  - by rewrite Edw, Ei.
  - rewrite Edw, Eb, G3, Efb, zlen_seqZ; lia.
  - rewrite Edw, Ei, I3, Efi, zlen_seqZ; lia.
  - rewrite Edw, Evb. apply (free_on_device N s fs Hfs Hbest HN); lia.
  - exists w'. rewrite Edw in *. rewrite Evb, Evi in Hmo. by split_and!.
Qed.
End mounted.

(** A small device, and a state of the formatter that is about to format it. *)
Definition blank_superblock : superblock :=
  Superblock 7 0 9 0 0 0 0 0 0 0 0 0 0 0 0 0 0 0 0 0.
Definition blank_state : mkstate :=
  MkState (Device (replicate (Z.to_nat 16384) 0) 0 true) [] 165 blank_superblock [] [] 0 0 0 0 0 0 ∅ 1%positive.
Definition blank_world : world :=
  set_w_mounted_devices None (set_w_dev (Device [] 0 false) sample_boot).

Lemma blank_size : zlen (kbytes blank_state) = 16384.
Proof. unfold zlen, blank_state. cbn [k_dev d_bytes]. by rewrite length_replicate. Qed.
Lemma blank_dev_ok : dev_ok (k_dev blank_state).
Proof. split; [done|]. rewrite blank_size. lia. Qed.
Lemma blank_superblock_ok : superblock_ok blank_superblock.
Proof. split; apply (bool_decide_unpack _); by vm_compute. Qed.

(** C18: [mkfs] succeeds on a device of 16 KB up to 2 GB.  On the device the
    root table is inode 0, in the blocks behind the boot area, the inode table
    and the bitmaps, and the block bitmap marks exactly the blocks up to the
    end of the root table as used.  [udbfs_mount] of the library accepts what
    was written and establishes the invariant the file operations rely on: the
    free blocks are all those behind the root table, the free inodes all but
    the first three, and they lie on the device. *)
Theorem formatted_volume_mounts fs k w :
  2 ^ 14 ≤ fs < 2 ^ 31 → fs ≤ zlen (kbytes k) < 2 ^ 31 → k_mallocs k = [] →
  dev_ok (k_dev k) → k_cols k = ∅ → superblock_ok (k_sb k) →
  0 < w_host_fd w → w_mallocs w = [] → w_mounted_devices w = None →
  ∃ k' s, mkfs fs k = Ok 0 k' ∧ best_size fs s ∧
    let blocks := fs / 2 ^ (s + 7) in
    let used := first_data s fs + root_blocks s in
    disk_layout (links_of s) (kbytes k') (inode_at s 0) root_size
      (Layout (seqZ (first_data s fs) (root_blocks s)) None None None) ∧
    free_bits (dread (kbytes k') (bitmaps_at s fs * 2 ^ (s + 7)) (bitmap_size blocks)) =
      seqZ used (8 * bitmap_size blocks - used) ∧
    ∃ w', udbfs_mount (set_w_dev (k_dev k') w) = Ok (Some (w_next_loc w)) w' ∧
      mount_ok (links_of s) w' (seqZ used (blocks - used)) (seqZ 3 (inodes_for fs - 3)) [] ∧
      dev_bytes w' = kbytes k'.
Proof.
  intros Hf HN Hm Hd Hc Hok Hfd Hwm Hmd.
  destruct (mkfs_ok fs k Hf HN Hm Hd Hc) as (s & k' & E & Hbest & H & Hw & Hroot & _).
  destruct (areas_fit fs s Hf Hbest) as (_ & _ & _ & _ & A5).
  pose proof (root_blocks_range s ltac:(apply Hbest)) as Hn.
  exists k', s. split; [done|]. split; [done|]. cbv zeta. split; [done|].
  destruct Hw as (W1 & W2 & W3). split.
  { rewrite W2. apply (fm_blocks _ _ _ _ _ _ _ _ _ _ H). }
  apply (formatted_mounts (zlen (kbytes k)) s fs (k_sb k) Hf Hbest HN _ k' (set_w_dev (k_dev k') w));
    done || lia.
Qed.

Lemma formatted_volume_mounts_witness :
  ∃ k' s, mkfs 16384 blank_state = Ok 0 k' ∧ best_size 16384 s ∧
    let used := first_data s 16384 + root_blocks s in
    ∃ w', udbfs_mount (set_w_dev (k_dev k') blank_world) = Ok (Some (w_next_loc blank_world)) w' ∧
      mount_ok (links_of s) w' (seqZ used (16384 / 2 ^ (s + 7) - used))
        (seqZ 3 (inodes_for 16384 - 3)) [] ∧
      dev_bytes w' = kbytes k'.
Proof.
  destruct (formatted_volume_mounts 16384 blank_state blank_world) as (k' & s & E & Hb & _ & _ & H).
  - lia.
  - rewrite blank_size. lia.
  - reflexivity.
  - exact blank_dev_ok.
  - reflexivity.
  - exact blank_superblock_ok.
  - by vm_compute.
  - by vm_compute.
  - reflexivity.
  - exists k', s. split; [exact E|]. split; [exact Hb|exact H].
Defined.



(** ** Bitmaps *)

(** on a bitmap that has a free number, [allocate_bit] of the formatter
    and [udbfslib_allocate_bit] of the library take the same number, the
    first free one, and leave the same bitmap. *)
Theorem allocators_agree bm count :
  bitmap_ok bm → zlen bm < 2 ^ 28 → 0 < count ≤ 8 * zlen bm → free_bits bm ≠ [] →
  udbfslib_allocate_bit bm (zlen bm) count = (λ r, (r.1, r.2, count - 1)) <$> take_bit bm ∧
  fst <$> take_bit bm = head (free_bits bm).
Proof.
  intros Hok Hz Hc Hne. split; [by apply take_bit_agrees|].
  destruct (free_bits bm) as [|i rest] eqn:Ef; [done|].
  destruct (take_bit_ok bm i rest Hok Hz Ef) as (bm' & -> & _). done.
Qed.

Lemma allocators_agree_witness :
  udbfslib_allocate_bit [0; 0; 24] (zlen [0; 0; 24]) 2 =
    (λ r, (r.1, r.2, 2 - 1)) <$> take_bit [0; 0; 24] ∧
  fst <$> take_bit [0; 0; 24] = head (free_bits [0; 0; 24]).
Proof.
  apply (allocators_agree [0; 0; 24] 2).
  - split; [|by vm_compute]. repeat (apply Forall_cons; split; [split; by vm_compute|]).
    by apply Forall_nil.
  - by vm_compute.
  - by vm_compute.
  - by vm_compute.
Defined.

(** from 64 numbers on [generate_bitmap] sets every bit of every byte,
    as its count of bits for the last byte is a quotient instead of a
    remainder: the numbers behind the last one are free too. *)
Theorem bitmap_frees_phantoms bits k :
  64 ≤ bits < 2 ^ 31 - 8 → k_mallocs k = [] →
  ∃ bm, generate_bitmap bits k = Ok (bm, (bits + 7) / 8) k ∧
    free_bits bm = seqZ 0 (8 * ((bits + 7) / 8)).
Proof.
  intros Hb Hm. exists (replicate (Z.to_nat (bitmap_size bits)) 255).
  split; [by apply generate_bitmap_ok|]. rewrite free_bits_ones. fold (bitmap_size bits).
  assert (0 ≤ bitmap_size bits) by (unfold bitmap_size; Z.div_mod_to_equations; lia).
  by rewrite Z2Nat.id by lia.
Qed.

Lemma bitmap_frees_phantoms_witness :
  ∃ bm, generate_bitmap 65 blank_state = Ok (bm, (65 + 7) / 8) blank_state ∧
    free_bits bm = seqZ 0 (8 * ((65 + 7) / 8)).
Proof. apply (bitmap_frees_phantoms 65 blank_state); [lia|reflexivity]. Defined.

(** ** Files *)

(** The state with blocks of 256 bytes, on its planned volume. *)
Definition tiny_state : mkstate :=
  set_k_sb (set_sb_block_size 1 blank_superblock) (set_limits 32 blank_state).

(** [write_to_file] replaces the bytes at the offset of the file by the
    first [size] bytes of the data and appends what reaches behind the end;
    it takes no more blocks than the size needs and keeps the list of
    blocks well-formed. *)
Theorem write_to_file_overwrites B f k data size :
  0 < B < 2 ^ 16 → block_size_of (k_sb k) = B → k_mallocs k = [] → mf_ok B f →
  f_current_offset f + size + B < 2 ^ 31 → 0 ≤ size ≤ zlen data →
  f_current_offset f ≤ f_file_size f →
  ∃ f', write_to_file f data size k = Ok (0, f') k ∧ mf_ok B f' ∧
    f_current_offset f' = f_current_offset f + size ∧
    f_file_size f' = Z.max (f_file_size f) (f_current_offset f + size) ∧
    mf_content f' = overwrite (f_current_offset f) (take (Z.to_nat size) data) (mf_content f) ∧
    B * Z.of_nat (length (f_blocks f')) ≤
      Z.max (B * Z.of_nat (length (f_blocks f))) (f_current_offset f' + B - 1).
Proof.
  intros HB H1 H2 H3 H4 H5 H6.
  destruct (write_to_file_ok B HB f k data size H1 H2 H3 H4 H5 H6) as (f' & G1 & G2 & G3 & _ & G).
  exists f'. by split; [|split; [|split]].
Qed.

Lemma write_to_file_overwrites_witness :
  ∃ f', write_to_file (MkFile [] None 3 0 0 0) (replicate 300 5) 300 tiny_state = Ok (0, f') tiny_state ∧
    mf_ok 256 f' ∧ f_current_offset f' = 0 + 300 ∧ f_file_size f' = Z.max 0 (0 + 300) ∧
    mf_content f' = overwrite 0 (take (Z.to_nat 300) (replicate 300 5)) [] ∧
    256 * Z.of_nat (length (f_blocks f')) ≤ Z.max (256 * Z.of_nat 0) (f_current_offset f' + 256 - 1).
Proof.
  apply (write_to_file_overwrites 256 (MkFile [] None 3 0 0 0) tiny_state (replicate 300 5) 300).
  - lia.
  - by vm_compute.
  - reflexivity.
  - apply fresh_file_ok. lia.
  - by vm_compute.
  - unfold zlen. rewrite length_replicate. lia.
  - by vm_compute.
Defined.

Lemma frame_but_sub Ln ids ids' o n dev dev' :
  ids ⊆ ids' → frame_but Ln ids o n dev dev' → frame_but Ln ids' o n dev dev'.
Proof. intros Hs [Hl Hf]. split; [done|]. intros p H0 Hp Ho. apply Hf; [done| |done]. intros Hi. by apply Hp, Hs. Qed.

Section close_spec.
Context (Ln : nat) (f : mkfile) (k : mkstate) (free rest : list Z) (count : Z).
Abbreviation n := (length (f_blocks f)).
Abbreviation off := (inode_offset Ln k (f_inode_id f)).

(** What [close_file] needs: numbers [free] that the allocator hands out
    first, on the device, away from the inode. *)
Record closable : Prop := {
  ca_links : 16 ≤ Z.of_nat Ln ≤ 2 ^ 12;
  ca_env : mk_env Ln k;
  ca_file : mf_ok (bsize Ln) f;
  ca_size : f_file_size f < 2 ^ 31;
  ca_dir : k_dir_limit k = 4;
  ca_ind : k_ind_limit k = Z.of_nat Ln;
  ca_free : blocks_free k (free ++ rest) count;
  ca_count : Z.of_nat (length free) ≤ count;
  ca_device : Forall (on_device Ln (kbytes k)) free;
  ca_nodup : NoDup free;
  ca_slot : slot_free Ln off free (kbytes k)
}.

(** C20: [close_file] writes a file of up to four blocks, or of six to four
    plus one index block's worth, in the layout the library reads: the
    inode holds the size, the direct blocks and the index block, and the
    bytes of the file are in the blocks in order.  Nothing else on the
    device changes. *)
Theorem close_file_layout :
  closable → (n ≤ 4 + Ln)%nat → n ≠ 5%nat → length free = closed_uses n →
  ∃ k', close_file f k = Ok 0 k' ∧ frame_but Ln free off sizeof_inode (kbytes k) (kbytes k') ∧
    disk_layout Ln (kbytes k') off (f_file_size f) (closed_layout n free) ∧
    content Ln (kbytes k') (ly_data (closed_layout n free)) (f_file_size f) = mf_content f.
Proof.
  intros [H1 H2 H3 H4 H5 H6 H7 H8 H9 H10 H11] Hn Hn5 Hlen. unfold closed_uses, closed_layout in *.
  destruct (Nat.leb_spec n 4) as [Hle|Hgt].
  - destruct (close_small Ln H1 f k free rest count H2 H3 ltac:(lia) H4 H5 H7 H8 H9 H10 H11 Hle Hlen)
      as (dev & pos & bm & E & _ & _ & Hf & Hd & Hc).
    eexists. split; [exact E|]. rewrite take_ge by lia. split; [done|]. split; [done|].
    unfold ly_data. simpl. by rewrite !app_nil_r.
  - destruct (lookup_lt_is_Some_2 free 4) as [x Hx]; [lia|].
    assert (free = take 4 free ++ x :: drop 5 free) as Efree by (symmetry; by apply take_drop_middle).
    destruct (close_ind Ln H1 f k free rest count H2 H3 ltac:(lia) H4 H5 H7 H8 H9 H10 H11 (take 4 free) x
      (drop 5 free) ltac:(lia) H6 Efree) as (dev & pos & bm & E & Hf & Hd & Hc).
    { rewrite length_take. lia. } { rewrite length_drop. lia. }
    eexists. split; [exact E|].
    assert (nth 4 free 0 = x) as -> by (by apply nth_lookup_Some).
    rewrite (take_ge (drop 5 free)) by (rewrite length_drop; lia). split; [|split; [exact Hd|]].
    + eapply frame_but_sub; [|exact Hf]. intros y Hy. rewrite Efree. revert Hy.
      rewrite !elem_of_app, list_elem_of_singleton, elem_of_cons. tauto.
    + unfold ly_data. simpl. by rewrite ?app_nil_r.
Qed.

(** of a file of five blocks [close_file] stores the first four; the
    inode keeps the size and has no index block, so the last block is lost
    (a level of indirection is written only for more than one block). *)
Theorem close_file_loses_fifth_block :
  closable → n = 5%nat → length free = 4%nat →
  ∃ k', close_file f k = Ok 0 k' ∧
    dread (kbytes k') off sizeof_inode = encode_inode (UdbfsInode (f_file_size f) free 0 0 0) ∧
    file_bytes Ln (kbytes k') free = take (Z.to_nat (4 * bsize Ln)) (mf_bytes f).
Proof.
  intros [H1 H2 H3 H4 H5 H6 H7 H8 H9 H10 H11] Hn Hlen.
  destruct (close_five Ln H1 f k free rest count H2 H3 ltac:(lia) H4 H5 H7 H8 H9 H10 H11 Hn Hlen)
    as (dev & pos & bm & E & _ & Hi & Hb).
  eexists. split; [exact E|]. by split.
Qed.
End close_spec.

(** A device of 32 blocks of 128 bytes; the inode table is in block 1. *)
Definition sample_mk : mkstate :=
  MkState (Device (replicate (Z.to_nat 4096) 0) 0 true) [] 165
    (Superblock 0 1 0 32 2 28 2 0 0 0 0 0 0 0 0 0 0 1 0 1) [240; 255; 255; 255] [3] 4 1 4 16 256 4096 ∅
    1%positive.
Definition sample_mkfile (n : nat) : mkfile :=
  MkFile (map (λ i, FBlock 0 (replicate 128 (Z.of_nat i)) (128 * Z.of_nat i) (128 * Z.of_nat i + 128))
    (seq 0 n)) None 1 (128 * Z.of_nat n) (128 * Z.of_nat n) (Z.of_nat n).

Lemma sample_mkfile_ok n : mf_ok 128 (sample_mkfile n).
Proof.
  assert (length (f_blocks (sample_mkfile n)) = n) as Hl by (simpl; by rewrite length_map, length_seq).
  split; rewrite ?Hl; simpl; try lia.
  intros i b. rewrite list_lookup_fmap. intros (j & Hj & ->)%fmap_Some.
  apply lookup_seq in Hj as [-> _]. by split.
Qed.

Lemma sample_mk_bytes : zlen (kbytes sample_mk) = 4096.
Proof. unfold zlen, sample_mk. cbn [k_dev d_bytes]. by rewrite length_replicate. Qed.

Lemma sample_closable n u :
  0 ≤ u ≤ 28 → (n ≤ 20)%nat →
  closable 16 (sample_mkfile n) sample_mk (seqZ 4 u) (seqZ (4 + u) (28 - u)) 28.
Proof.
  intros Hu Hn. assert (inode_offset 16 sample_mk 1 = 192) as Eo by done.
  assert (bsize 16 = 128) as EB by done.
  split; try done; rewrite ?EB.
  - apply sample_mkfile_ok.
  - simpl. lia.
  - split; [|split; [by vm_compute|split; [|done]]].
    + split; [|by vm_compute]. repeat (apply Forall_cons; split; [split; by vm_compute|]). by apply Forall_nil.
    + rewrite <- seqZ_app by lia. replace (u + (28 - u)) with 28 by lia. by vm_compute.
  - rewrite length_seqZ. lia.
  - apply Forall_forall. intros x Hx%elem_of_seqZ. split; [lia|]. rewrite EB, sample_mk_bytes. lia.
  - apply NoDup_seqZ.
  - change (f_inode_id (sample_mkfile n)) with 1. rewrite Eo.
    split; [lia|]. split; [rewrite sample_mk_bytes; unfold sizeof_inode; lia|].
    intros p Hp [Hx _]%elem_of_seqZ. rewrite EB in Hx. unfold sizeof_inode in Hp.
    Z.div_mod_to_equations. lia.
Qed.

Lemma close_file_layout_witness :
  ∃ k', close_file (sample_mkfile 7) sample_mk = Ok 0 k' ∧
    frame_but 16 (seqZ 4 8) (inode_offset 16 sample_mk 1) sizeof_inode (kbytes sample_mk) (kbytes k') ∧
    disk_layout 16 (kbytes k') (inode_offset 16 sample_mk 1) (f_file_size (sample_mkfile 7))
      (closed_layout 7 (seqZ 4 8)) ∧
    content 16 (kbytes k') (ly_data (closed_layout 7 (seqZ 4 8))) (f_file_size (sample_mkfile 7)) =
      mf_content (sample_mkfile 7).
Proof.
  apply (close_file_layout 16 (sample_mkfile 7) sample_mk (seqZ 4 8) (seqZ 12 20) 28).
  - apply (sample_closable 7 8); lia.
  - simpl. lia.
  - simpl. lia.
  - by vm_compute.
Defined.

Lemma close_file_loses_fifth_block_witness :
  ∃ k', close_file (sample_mkfile 5) sample_mk = Ok 0 k' ∧
    dread (kbytes k') (inode_offset 16 sample_mk 1) sizeof_inode =
      encode_inode (UdbfsInode (f_file_size (sample_mkfile 5)) (seqZ 4 4) 0 0 0) ∧
    file_bytes 16 (kbytes k') (seqZ 4 4) = take (Z.to_nat (4 * bsize 16)) (mf_bytes (sample_mkfile 5)).
Proof.
  apply (close_file_loses_fifth_block 16 (sample_mkfile 5) sample_mk (seqZ 4 4) (seqZ 8 24) 28).
  - apply (sample_closable 5 4); lia.
  - reflexivity.
  - reflexivity.
Defined.

(** ** Tables *)

(** C21: [reorder_columns_by_size] permutes the columns into descending
    natural boundaries and changes nothing but their links;
    [place_columns] then places each behind the ones before it, from bit 0
    on, and the rounded record of [generate_table_definition] holds them
    all and is a multiple of the alignment. *)
Theorem columns_sorted_and_placed k t l pt a :
  clist (k_cols k) (tab_cols t) l → (∀ x, 0 ≤ encoded (k_cols k) x) →
  total_bits (k_cols k) l < 2 ^ 31 → Z.of_nat (length l) < 2 ^ 16 →
  t_record_size pt = 0 → t_column_count pt = 0 → 0 ≤ a ≤ 2 →
  ∃ t' k1 k2 pt' T, reorder_columns_by_size t k = Ok t' k1 ∧
    same_columns (k_cols k) (k_cols k1) ∧ T ≡ₚ l ∧ descending (k_cols k1) T ∧
    place_columns (S (size (k_cols k1))) (tab_cols t') pt k1 = Ok pt' k2 ∧
    same_but_places (k_cols k1) (k_cols k2) ∧ clist (k_cols k2) (tab_cols t') T ∧
    placed (k_cols k2) 0 T ∧ t_column_count pt' = Z.of_nat (length l) ∧
    t_record_size pt' ≤ 8 * round_record (t_record_size pt') a ∧
    t_record_size pt' = total_bits (k_cols k) l ∧ (2 ^ a | round_record (t_record_size pt') a).
Proof.
  intros Hl Hen Htot Hlen Hr Hcc Ha.
  destruct (reorder_columns_ok k t l Hl) as (p & m & T & E & Hs & [HT Hnd] & HP & HD & _).
  assert (∀ x, encoded m x = encoded (k_cols k) x) as He by (intros x; by apply encoded_unlinked).
  assert (total_bits m T = total_bits (k_cols k) l) as Ht.
  { rewrite (total_bits_ext (k_cols k) m) by done. by apply total_bits_perm. }
  pose proof (clist_size m _ _ _ HT Hnd) as Hsize. pose proof (total_bits_nonneg _ l Hen) as Hpos.
  destruct (place_columns_ok (S (size m)) (set_k_cols m k) p T pt) as
    (pt' & m' & E2 & -> & HT2 & Hpl & _ & Hs2); try done; cbn [k_cols set_k_cols]; try lia.
  { intros x. by rewrite He. }
  cbn [k_cols set_k_cols] in *.
  rewrite Ht, Hr, Hcc, !Z.add_0_l, (Permutation_length HP), u16_small in * by lia.
  eexists (set_tab_cols p t), (set_k_cols m k), (set_k_cols m' (set_k_cols m k)), _, T.
  cbn [k_cols set_k_cols].
  split; [done|]. split; [done|]. split; [done|].
  split; [apply (descending_contents (k_cols k)); [|done]|].
  { intros x. specialize (Hs x). destruct (m !! x), (k_cols k !! x); try done.
    apply (inj Some) in Hs. simpl. do 2 f_equal. exact Hs. }
  split; [exact E2|]. split; [done|]. split; [by split|]. split; [done|].
  cbn [t_record_size t_column_count set_t_record_size set_t_column_count].
  destruct (round_record_ok (total_bits (k_cols k) l) a) as (R1 & R2 & _); [lia..|]. by split_and!.
Qed.

(** Three columns, the largest in the middle. *)
Definition three_columns : mkstate :=
  set_k_cols (<[1%positive := ColumnDesc (Some 2%positive) (Column 1 [65] 1 1 0 0 0 0 0 0 0 3 0) 8 8]>
    (<[2%positive := ColumnDesc (Some 3%positive) (Column 1 [66] 1 1 0 0 0 0 0 0 0 6 0) 64 32]>
      (<[3%positive := ColumnDesc None (Column 1 [67] 1 1 0 0 0 0 0 0 0 1 0) 1 1]> ∅))) sample_mk.
Definition three_table : table :=
  Table (PTable 0 0 0 0 0 0 0 0 0) (Some 1%positive) (MkFile [] None 0 0 0 0).

Lemma columns_sorted_and_placed_witness :
  ∃ t' k1 k2 pt' T, reorder_columns_by_size three_table three_columns = Ok t' k1 ∧
    same_columns (k_cols three_columns) (k_cols k1) ∧ T ≡ₚ [1; 2; 3]%positive ∧
    descending (k_cols k1) T ∧
    place_columns (S (size (k_cols k1))) (tab_cols t') (tab_table three_table) k1 = Ok pt' k2 ∧
    same_but_places (k_cols k1) (k_cols k2) ∧ clist (k_cols k2) (tab_cols t') T ∧
    placed (k_cols k2) 0 T ∧ t_column_count pt' = 3 ∧
    t_record_size pt' ≤ 8 * round_record (t_record_size pt') 2 ∧
    t_record_size pt' = 73 ∧ (2 ^ 2 | round_record (t_record_size pt') 2).
Proof.
  apply (columns_sorted_and_placed three_columns three_table [1; 2; 3]%positive
    (tab_table three_table) 2).
  - split; [|apply (bool_decide_unpack _); by vm_compute]. repeat (split; [done|eexists; split; [done|]]). done.
  - intros x. unfold encoded. cbn [k_cols three_columns set_k_cols].
    destruct (decide (x = 1%positive)) as [->|]; [done|]. rewrite lookup_insert_ne by done.
    destruct (decide (x = 2%positive)) as [->|]; [done|]. rewrite lookup_insert_ne by done.
    destruct (decide (x = 3%positive)) as [->|]; [done|]. by rewrite lookup_insert_ne.
  - by vm_compute.
  - by vm_compute.
  - reflexivity.
  - reflexivity.
  - lia.
Defined.

(** ** The size of the device *)

(** the loop of [mkfs] that chooses the block size ends with the largest
    size of 256 to 4096 bytes that gives the device 2000 blocks, and with
    256 bytes if there is none. *)
Theorem block_size_is_best fs sb :
  0 ≤ fs < 2 ^ 43 →
  ∃ s, choose_block_size 7 fs (set_sb_block_count 0 (set_sb_block_size 6 sb)) =
      Some (set_sb_block_count (fs / 2 ^ (s + 7)) (set_sb_block_size s sb)) ∧
    best_size fs s.
Proof. intros Hf. apply (choose_block_size_ok fs sb Hf). Qed.

Lemma block_size_is_best_witness :
  ∃ s, choose_block_size 7 3000000 (set_sb_block_count 0 (set_sb_block_size 6 blank_superblock)) =
      Some (set_sb_block_count (3000000 / 2 ^ (s + 7)) (set_sb_block_size s blank_superblock)) ∧
    best_size 3000000 s.
Proof. apply (block_size_is_best 3000000 blank_superblock). lia. Defined.

(** The search halves the step when it fails, [j] is its exponent. *)
Lemma probe_size_ok lseek L : 0 ≤ L < 2 ^ 62 →
  (∀ off, 0 ≤ off < 2 ^ 63 → lseek off = off ↔ off ≤ L) →
  ∀ fuel j v, 0 ≤ j ≤ 30 → 0 ≤ v ≤ L → (L - v) / 2 ^ j + 2 * j + 2 ≤ Z.of_nat fuel →
  probe_size fuel lseek (2 ^ j) v = Some L.
Proof.
  intros HL Hseek. induction fuel as [|fuel IH]; intros j v Hj Hv Hf.
  { pose proof (Z.div_pos (L - v) (2 ^ j) ltac:(lia) (Z.pow_pos_nonneg 2 j ltac:(lia) ltac:(lia))). lia. }
  assert (0 < 2 ^ j ≤ 2 ^ 30) as Hp.
  { split; [apply Z.pow_pos_nonneg; lia|apply Z.pow_le_mono_r; lia]. }
  cbn [probe_size]. replace (0 <? 2 ^ j) with true by lia. cbn [negb]. rewrite i64_small by lia.
  destruct (Z.eqb_spec (lseek (v + 2 ^ j)) (v + 2 ^ j)) as [Hs|Hs]; cbn [negb].
  - apply Hseek in Hs; [|lia]. apply IH; [lia|lia|].
    replace (L - v) with ((L - (v + 2 ^ j)) + 1 * 2 ^ j) in Hf by lia.
    rewrite Z.div_add in Hf by lia. lia.
  - assert (L < v + 2 ^ j) as Hlt.
    { destruct (Z.le_gt_cases (v + 2 ^ j) L); [|lia]. exfalso. apply Hs, Hseek; lia. }
    rewrite (Z.div_small (L - v)) in Hf by lia.
    destruct (decide (j = 0)) as [->|Hj0].
    + change (Z.shiftr (2 ^ 0) 1) with 0. destruct fuel as [|fuel]; [lia|].
      cbn [probe_size Z.ltb Z.compare negb]. f_equal. lia.
    + replace (Z.shiftr (2 ^ j) 1) with (2 ^ (j - 1)).
      2:{ rewrite Z.shiftr_div_pow2 by lia. rewrite Z.pow_sub_r by lia. done. }
      apply IH; [lia|lia|].
      assert ((L - v) / 2 ^ (j - 1) < 2); [|lia].
      apply Z.div_lt_upper_bound; [apply Z.pow_pos_nonneg; lia|].
      replace (2 ^ (j - 1) * 2) with (2 ^ j); [lia|].
      rewrite Z.pow_sub_r by lia. change (2 ^ 1) with 2.
      assert (2 ^ j = 2 * 2 ^ (j - 1)) as E by (rewrite <- Z.pow_succ_r by lia; f_equal; lia).
      rewrite E, (Z.mul_comm 2), Z.div_mul by lia. lia.
Qed.

(** C22: without a size on its command line the program formats all of a
    block device: the search that [main] makes with [lseek] ends, and its
    result is the last offset [lseek] reaches. *)
Theorem main_formats_device h k L fuel :
  h_argc h = 2 → h_stat_ok h = true → h_is_block_device h = true → 0 < h_fd h →
  0 ≤ L < 2 ^ 62 → (∀ off, 0 ≤ off < 2 ^ 63 → h_lseek h off = off ↔ off ≤ L) →
  L / 2 ^ 30 + 62 ≤ Z.of_nat fuel →
  main fuel h k = (mkfs L;; close_fd;; mret 0) k.
Proof.
  intros H1 H2 H3 H4 HL Hs Hf. unfold main. rewrite H1. change (2 =? 3) with false. cbn [Z.eqb Pos.eqb orb negb].
  rewrite H2. cbn [negb]. rewrite H3. replace (h_fd h <=? 0) with false by lia.
  rewrite (probe_size_ok (h_lseek h) L HL Hs fuel 30 0) by (rewrite ?Z.sub_0_r; lia).
  change (0 <=? 0) with true. cbv iota. steps. by rewrite u64_small by lia.
Qed.

Definition sample_host : host :=
  Host 2 0 true true 0 3 (λ off, if off <=? 16384 then off else -1).

Lemma main_formats_device_witness :
  main 70 sample_host blank_state = (mkfs 16384;; close_fd;; mret 0) blank_state.
Proof.
  apply (main_formats_device sample_host blank_state 16384 70).
  - reflexivity.
  - reflexivity.
  - reflexivity.
  - reflexivity.
  - lia.
  - intros off Ho. unfold sample_host. cbn [h_lseek].
    destruct (Z.leb_spec off 16384); split; lia.
  - by vm_compute.
Defined.
