(* ===== verification/Bimage.v ===== *)
(** * mkuuubimage: from an ELF executable to a boot image

    [mkuuubimage/mkuuubimage.c].  zlib is a parameter: the state of a
    [z_stream] and the functions the program calls on it.  The ELF
    structures and constants are those of the system's [elf.h] for 32 bit
    files.  Messages to [stderr] are not part of the state. *)
From S2P Require Import Prelude Posix.
From Stdlib Require Import String Ascii.
Local Open Scope Z_scope.

(** ** zlib *)

Definition Z_STREAM_END : Z := 1.
Definition Z_STREAM_ERROR : Z := -2.
Definition Z_BUF_ERROR : Z := -5.

(** [z_deflate z input avail_out finish]: the return code, how many bytes
    of the input were consumed, the output produced, the new state. *)
Record zlib : Type := Zlib {
  z_state : Type;
  z_init : Z → z_state;
  z_deflate : z_state → list Z → Z → bool → Z * Z * list Z * z_state;
  z_reset : z_state → z_state
}.

(** ** ELF structures *)

Definition byte_field (bs : list Z) (off : Z) (n : nat) : Z :=
  le_value (take n (drop (Z.to_nat off) bs)).

(** [Elf32_Ehdr] *)
Record elf_ehdr : Type := Ehdr {
  e_ident : list Z;
  e_type : Z;
  e_machine : Z;
  e_entry : Z;
  e_shoff : Z;
  e_shentsize : Z;
  e_shnum : Z
}.

Definition sizeof_ehdr : Z := 52.
Definition decode_ehdr (bs : list Z) : elf_ehdr :=
  Ehdr (take 16 bs) (byte_field bs 16 2) (byte_field bs 18 2) (byte_field bs 24 4)
    (byte_field bs 32 4) (byte_field bs 46 2) (byte_field bs 48 2).

(** [Elf32_Shdr] *)
Record elf_shdr : Type := Shdr {
  sh_type : Z;
  sh_addr : Z;
  sh_offset : Z;
  sh_size : Z
}.

Definition set_sh_size (v : Z) (s : elf_shdr) : elf_shdr :=
  Shdr (sh_type s) (sh_addr s) (sh_offset s) v.

Definition sizeof_shdr : Z := 40.
Definition decode_shdr (bs : list Z) : elf_shdr :=
  Shdr (byte_field bs 4 4) (byte_field bs 12 4) (byte_field bs 16 4) (byte_field bs 20 4).

Definition SHT_PROGBITS : Z := 1.
Definition SHT_NOBITS : Z := 8.

(** ** The state

    The input file with its position; the output file with its position and
    the size it cannot exceed; what has to be released at the end. *)
Record image_state : Type := ImageState {
  im_input : list Z;
  im_input_pos : Z;
  im_input_open : bool;
  im_output : list Z;
  im_output_pos : Z;
  im_output_room : Z;
  im_output_open : bool;
  im_mallocs : list bool;
  im_clean_level : Z;
  im_table : option (list elf_shdr);
  im_order : option (list nat);
  im_filename_malloced : bool
}.

Definition set_im_input_pos v s := ImageState (im_input s) v (im_input_open s) (im_output s)
  (im_output_pos s) (im_output_room s) (im_output_open s) (im_mallocs s) (im_clean_level s)
  (im_table s) (im_order s) (im_filename_malloced s).
Definition set_im_input_open v s := ImageState (im_input s) (im_input_pos s) v (im_output s)
  (im_output_pos s) (im_output_room s) (im_output_open s) (im_mallocs s) (im_clean_level s)
  (im_table s) (im_order s) (im_filename_malloced s).
Definition set_im_output v pos s := ImageState (im_input s) (im_input_pos s) (im_input_open s) v
  pos (im_output_room s) (im_output_open s) (im_mallocs s) (im_clean_level s)
  (im_table s) (im_order s) (im_filename_malloced s).
Definition set_im_output_open v s := ImageState (im_input s) (im_input_pos s) (im_input_open s)
  (im_output s) (im_output_pos s) (im_output_room s) v (im_mallocs s) (im_clean_level s)
  (im_table s) (im_order s) (im_filename_malloced s).
Definition set_im_mallocs v s := ImageState (im_input s) (im_input_pos s) (im_input_open s)
  (im_output s) (im_output_pos s) (im_output_room s) (im_output_open s) v (im_clean_level s)
  (im_table s) (im_order s) (im_filename_malloced s).
Definition set_im_clean_level v s := ImageState (im_input s) (im_input_pos s) (im_input_open s)
  (im_output s) (im_output_pos s) (im_output_room s) (im_output_open s) (im_mallocs s) v
  (im_table s) (im_order s) (im_filename_malloced s).
Definition set_im_table v s := ImageState (im_input s) (im_input_pos s) (im_input_open s)
  (im_output s) (im_output_pos s) (im_output_room s) (im_output_open s) (im_mallocs s)
  (im_clean_level s) v (im_order s) (im_filename_malloced s).
Definition set_im_order v s := ImageState (im_input s) (im_input_pos s) (im_input_open s)
  (im_output s) (im_output_pos s) (im_output_room s) (im_output_open s) (im_mallocs s)
  (im_clean_level s) (im_table s) v (im_filename_malloced s).
Definition set_im_filename_malloced v s := ImageState (im_input s) (im_input_pos s)
  (im_input_open s) (im_output s) (im_output_pos s) (im_output_room s) (im_output_open s)
  (im_mallocs s) (im_clean_level s) (im_table s) (im_order s) v.

#[export] Instance image_heap : HasHeap image_state := {|
  get_mallocs := im_mallocs;
  put_mallocs := set_im_mallocs
|}.

(** ** Helpers *)

(** The switch of [clean]: each case falls through to the next one. *)
Definition release (clean_level : Z) (s : image_state) : image_state :=
  let s := if clean_level =? 4 then set_im_output_open false s else s in
  let s := if (3 <=? clean_level) && (clean_level <=? 4) then set_im_order None s else s in
  let s := if (2 <=? clean_level) && (clean_level <=? 4) then set_im_table None s else s in
  let s := if (1 <=? clean_level) && (clean_level <=? 4) then set_im_input_open false s else s in
  set_im_filename_malloced false s.

Definition clean {A : Type} (err : Z) : M image_state A :=
  modify (λ s, release (im_clean_level s) s);;
  exit_with err.

Definition out_of_memory {A : Type} : M image_state A := clean (-1).
Definition read_error {A : Type} : M image_state A := clean (-1).
Definition bug {A : Type} : M image_state A := clean (-1).

(** [size_t] of a negative [int] is more than there is. *)
Definition get_memory (size : Z) : M image_state unit :=
  if size <? 0 then out_of_memory else
  ok ← malloc;
  if negb ok then out_of_memory else mret tt.

(** [fread( buf, size, 1, input_file )]: one item, or none. *)
Definition fread_input (size : Z) : M image_state (option (list Z)) :=
  s ← gets id;
  if size =? 0 then mret None else
  if im_input_pos s + size <=? zlen (im_input s) then
    modify (set_im_input_pos (im_input_pos s + size));;
    mret (Some (dread (im_input s) (im_input_pos s) size))
  else
    modify (set_im_input_pos (Z.max (im_input_pos s) (zlen (im_input s))));;
    mret None.

(** [fseek( input_file, loc, SEEK_SET )] with its test; [loc] becomes a
    [long]. *)
Definition fseek_input (loc : Z) : M image_state unit :=
  if i32 loc <? 0 then read_error else modify (set_im_input_pos (i32 loc)).

Definition read_input (size loc : Z) : M image_state (list Z) :=
  fseek_input loc;;
  bytes ← fread_input size;
  match bytes with None => read_error | Some bytes => mret bytes end.

(** The bytes at the position are replaced, the rest is appended. *)
Definition fwrite_at (pos : Z) (bytes out : list Z) : list Z :=
  take (Z.to_nat pos) out ++ bytes ++ drop (Z.to_nat pos + List.length bytes) out.

(** [fwrite( src, length, 1, output_file )]: no item is written when the
    length is 0. *)
Definition write_output (src : list Z) : M image_state unit :=
  s ← gets id;
  if (zlen src =? 0) || (im_output_room s <? im_output_pos s + zlen src) then clean (-1) else
  modify (set_im_output (fwrite_at (im_output_pos s) src (im_output s))
    (im_output_pos s + zlen src)).

Definition write_output_word (n : Z) : M image_state unit := write_output (le_bytes 4 n).

Definition fseek_output (pos : Z) : M image_state unit :=
  modify (λ s, set_im_output (im_output s) pos s).

Definition chars (s : string) : list Z :=
  map (λ c, Z.of_nat (nat_of_ascii c)) (list_ascii_of_string s).

Definition BIMAGE_MAGIC : list Z := chars "UnBI".
Definition BIMAGE_ZSPAN : list Z := chars "zspn".
Definition BIMAGE_FILLSPAN : list Z := chars "fspn".
Definition BIMAGE_END : list Z := chars "end ".
Definition OUTPUT_SUFFIX : list Z := chars ".bimage".

Definition sizeof_info_section : Z := 4.
Definition sizeof_zspan_section : Z := 12.
Definition sizeof_fillspan_section : Z := 12.
Definition INPUT_BUFFER_SIZE : Z := 0x1000.
Definition OUTPUT_BUFFER_SIZE : Z := 0x1000.

(** ** Arguments *)

Record options : Type := Options {
  o_input : option (list Z);
  o_output : option (list Z);
  o_debug : Z;
  o_level : Z
}.

(** What the parsing ends with: a return code, or the options. *)
Inductive parsed : Type :=
| Return (code : Z)
| Parsed (o : options)
| OutOfArgv.

(** [argv[k]]: the entry behind the last argument is NULL, later ones are
    not part of the array. *)
Definition argv_at (argv : list (list Z)) (k : Z) : option (option (list Z)) :=
  if k <? Z.of_nat (List.length argv) then Some (argv !! Z.to_nat k)
  else if k =? Z.of_nat (List.length argv) then Some None
  else None.

(** The loop over the letters of one option; the result carries
    [next_arg]. *)
Fixpoint parse_letters (argv : list (list Z)) (i next_arg : Z) (letters : list Z) (o : options)
    : Z * options + parsed :=
  match letters with
  | [] => inl (next_arg, o)
  | c :: letters =>
      if c =? 45 (* '-' *) then
        match argv_at argv (u32 (i + next_arg)) with
        | None => inr OutOfArgv
        | Some None => inr (Return (-1))
        | Some (Some a) => parse_letters argv i (u32 (next_arg + 1)) letters
            (Options (Some a) (o_output o) (o_debug o) (o_level o))
        end
      else if c =? 104 (* 'h' *) then inr (Return 0)
      else if c =? 111 (* 'o' *) then
        match argv_at argv (u32 (i + next_arg)) with
        | None => inr OutOfArgv
        | Some None => inr (Return (-1))
        | Some (Some a) => parse_letters argv i (u32 (next_arg + 1)) letters
            (Options (o_input o) (Some a) (o_debug o) (o_level o))
        end
      else if c =? 100 (* 'd' *) then
        parse_letters argv i next_arg letters
          (Options (o_input o) (o_output o) (u8 (o_debug o + 1)) (o_level o))
      else if (49 <=? c) && (c <=? 57) (* '1' to '9' *) then
        parse_letters argv i next_arg letters
          (Options (o_input o) (o_output o) (o_debug o) (c - 48))
      else if c =? 118 (* 'v' *) then inr (Return 0)
      else inr (Return (-1))
  end.

(** [for( i = 1 ; i < argc ; i += next_arg )]; [next_arg] is at least 1. *)
Fixpoint parse_loop (fuel : nat) (argv : list (list Z)) (i next_arg : Z) (o : options) : parsed :=
  match fuel with
  | O => OutOfArgv
  | S fuel =>
      match argv !! Z.to_nat i with
      | None => Parsed o
      | Some (45 :: letters) =>
          match parse_letters argv i next_arg letters o with
          | inr r => r
          | inl (next_arg, o) => parse_loop fuel argv (u32 (i + next_arg)) next_arg o
          end
      | Some a =>
          match o_input o with
          | Some _ => Return (-1)
          | None => parse_loop fuel argv (u32 (i + next_arg)) next_arg
              (Options (Some a) (o_output o) (o_debug o) (o_level o))
          end
      end
  end.

Definition default_options : options := Options None None 0 (-1).

Definition parse_args (argv : list (list Z)) : parsed :=
  if (List.length argv <? 2)%nat then Return (-1) else
  match parse_loop (S (List.length argv)) argv 1 1 default_options with
  | Parsed o => match o_input o with None => Return (-1) | Some _ => Parsed o end
  | r => r
  end.

(** [strrchr( input_filename, '.' )]: the part before the last dot, or all
    of it. *)
Definition stem_of (filename : list Z) : list Z :=
  match list_find (λ c, c = 46) (reverse filename) with
  | Some (k, _) => take (List.length filename - S k) filename
  | None => filename
  end.

Definition output_name (o : options) : option (list Z) :=
  match o_output o with
  | Some name => Some name
  | None => (λ f, stem_of f ++ OUTPUT_SUFFIX) <$> o_input o
  end.

(** ** The section table *)

Definition elf_magic_ok (h : elf_ehdr) : bool :=
  bool_decide (take 4 (e_ident h) = [127; 69; 76; 70]).

(** [ET_EXEC], [EM_386], [ELFCLASS32], [ELFDATA2LSB] *)
Definition elf_flavor_ok (h : elf_ehdr) : bool :=
  (e_type h =? 2) && (e_machine h =? 3) && bool_decide (e_ident h !! 4%nat = Some 1) &&
  bool_decide (e_ident h !! 5%nat = Some 1).

Definition read_header : M image_state elf_ehdr :=
  bytes ← read_input sizeof_ehdr 0;
  let h := decode_ehdr bytes in
  if negb (elf_magic_ok h) then clean (-1)
  else if negb (elf_flavor_ok h) then clean (-1)
  else mret h.

(** The buffer as the array of headers [section_table[0 .. n-1]]; the
    stride is that of the type, whatever [e_shentsize] says; a buffer too
    short for them is read behind its end. *)
Fixpoint section_headers (n : nat) (bytes : list Z) : option (list elf_shdr) :=
  match n with
  | O => Some []
  | S n =>
      if (List.length bytes <? Z.to_nat sizeof_shdr)%nat then None else
      rest ← section_headers n (drop (Z.to_nat sizeof_shdr) bytes);
      Some (decode_shdr bytes :: rest)
  end.

Definition read_table (h : elf_ehdr) : M image_state unit :=
  let size := i32 (e_shentsize h * e_shnum h) in
  get_memory size;;
  modify (set_im_table (Some []));;
  modify (set_im_clean_level 2);;
  bytes ← read_input size (e_shoff h);
  table ← deref (section_headers (Z.to_nat (e_shnum h)) bytes);
  modify (set_im_table (Some table));;
  get_memory (4 * e_shnum h);;
  modify (set_im_order (Some []));;
  modify (set_im_clean_level 3).

Definition is_loaded (s : elf_shdr) : bool :=
  (sh_type s =? SHT_PROGBITS) || (sh_type s =? SHT_NOBITS).

(** [section_order]: the positions of the selected sections. *)
Definition select_sections (table : list elf_shdr) : list nat :=
  filter (λ i, is_loaded <$> table !! i = Some true) (seq 0 (List.length table)).

(** [for( j = i ; (j < 0) && (section_order[j-1]->sh_addr >
    sort_index->sh_addr) ; --j )] on an unsigned [j]. *)
Fixpoint shift_loop (fuel : nat) (addr : nat → Z) (j : Z) (key : nat) (order : list nat)
    : Z * list nat :=
  match fuel with
  | O => (j, order)
  | S fuel =>
      match order !! Z.to_nat (j - 1) with
      | Some p =>
          if (u32 j <? 0) && (addr key <? addr p)
          then shift_loop fuel addr (u32 (j - 1)) key (<[Z.to_nat j := p]> order)
          else (j, order)
      | None => (j, order)
      end
  end.

Fixpoint insertion_loop (n : nat) (addr : nat → Z) (i : Z) (order : list nat) : list nat :=
  match n with
  | O => order
  | S n =>
      match order !! Z.to_nat i with
      | None => order
      | Some key =>
          let '(j, order) := shift_loop (S (Z.to_nat i)) addr i key order in
          insertion_loop n addr (i + 1) (<[Z.to_nat j := key]> order)
      end
  end.

Definition sort_sections (table : list elf_shdr) (order : list nat) : list nat :=
  insertion_loop (List.length order - 1)
    (λ k, match table !! k with Some s => sh_addr s | None => 0 end) 1 order.

(** ** The output *)

Section output.
Context (z : zlib).

(** The loop variables of the compression of a section: the stream with
    the input it was given, what is in the output buffer, the flush mode,
    [total_out]. *)
Record deflating : Type := Deflating {
  df_stream : z_state z;
  df_in : list Z;
  df_out : list Z;
  df_finish : bool;
  df_total : Z
}.

Definition get_section (k : nat) : M image_state elf_shdr :=
  s ← gets id;
  table ← deref (im_table s);
  deref (table !! k).

Definition set_section_size (k : nat) (size : Z) : M image_state unit :=
  modify (λ s, set_im_table (alter (set_sh_size size) k <$> im_table s) s).

(** [if( stream.avail_out == 0 )] *)
Definition flush_output (d : deflating) : M image_state deflating :=
  if OUTPUT_BUFFER_SIZE - zlen (df_out d) =? 0 then
    write_output (df_out d);;
    mret (Deflating (df_stream d) (df_in d) [] (df_finish d) (df_total d))
  else mret d.

(** [if( stream.avail_in == 0 )] *)
Definition fill_input (k : nat) (d : deflating) : M image_state deflating :=
  if negb (zlen (df_in d) =? 0) then mret d else
  s ← get_section k;
  if INPUT_BUFFER_SIZE <? sh_size s then
    bytes ← fread_input INPUT_BUFFER_SIZE;
    match bytes with
    | None => read_error
    | Some bytes =>
        set_section_size k (u32 (sh_size s - INPUT_BUFFER_SIZE));;
        mret (Deflating (df_stream d) bytes (df_out d) (df_finish d) (df_total d))
    end
  else if negb (df_finish d) then
    bytes ← fread_input (sh_size s);
    match bytes with
    | None => read_error
    | Some bytes => mret (Deflating (df_stream d) bytes (df_out d) true (df_total d))
    end
  else mret d.

(** [j = deflate( &stream, flush );] and the switch on it: [j] is unsigned,
    so only the two named errors are seen. *)
Definition deflate_step (d : deflating) : M image_state (Z * deflating) :=
  let '(r, consumed, out, st) := z_deflate z (df_stream d) (df_in d)
    (OUTPUT_BUFFER_SIZE - zlen (df_out d)) (df_finish d) in
  let j := u32 r in
  if j =? u32 Z_STREAM_ERROR then bug
  else if j =? u32 Z_BUF_ERROR then bug
  else if j <? 0 then bug
  else mret (j, Deflating st (drop (Z.to_nat consumed) (df_in d)) (df_out d ++ out)
    (df_finish d) (u32 (df_total d + zlen out))).

(** [do ... while( j != Z_STREAM_END );] *)
Fixpoint deflate_loop (fuel : nat) (k : nat) (d : deflating) : M image_state deflating :=
  match fuel with
  | O => no_fuel
  | S fuel =>
      d ← flush_output d;
      d ← fill_input k d;
      r ← deflate_step d;
      let '(j, d) := r in
      if negb (j =? Z_STREAM_END) then deflate_loop fuel k d else mret d
  end.

(** [case SHT_PROGBITS:] *)
Definition write_zspan (fuel : nat) (k : nat) (stream : z_state z)
    : M image_state (z_state z) :=
  write_output BIMAGE_ZSPAN;;
  file_pos ← gets im_output_pos;
  s ← get_section k;
  write_output_word 0;;
  write_output_word (sizeof_zspan_section + 8);;
  write_output_word (sh_addr s);;
  write_output_word (sh_size s);;
  fseek_input (sh_offset s);;
  d ← deflate_loop fuel k (Deflating stream [] [] false 0);
  (if negb (OUTPUT_BUFFER_SIZE - zlen (df_out d) =? OUTPUT_BUFFER_SIZE)
   then write_output (df_out d) else mret tt);;
  fseek_output file_pos;;
  write_output_word (u32 (df_total d + sizeof_zspan_section + 8));;
  modify (λ s, set_im_output (im_output s) (zlen (im_output s)) s);;
  mret (z_reset z (df_stream d)).

(** [case SHT_NOBITS:] *)
Definition write_fillspan (k : nat) : M image_state unit :=
  write_output BIMAGE_FILLSPAN;;
  s ← get_section k;
  write_output_word (sizeof_fillspan_section + 8);;
  write_output_word (sh_addr s);;
  write_output_word (sh_size s);;
  write_output_word 0.

(** The loop over [section_order]: an empty section ends it. *)
Fixpoint process_sections (fuel : nat) (order : list nat) (stream : z_state z)
    : M image_state unit :=
  match order with
  | [] => mret tt
  | k :: order =>
      s ← get_section k;
      if sh_size s =? 0 then mret tt else
      if sh_type s =? SHT_PROGBITS then
        stream ← write_zspan fuel k stream;
        process_sections fuel order stream
      else if sh_type s =? SHT_NOBITS then
        write_fillspan k;;
        process_sections fuel order stream
      else bug
  end.

(** [main] from the opened input file on.  [can_create] is the result of
    the [fopen] of the output file. *)
Definition make_image (fuel : nat) (level : Z) (can_create : bool) : M image_state Z :=
  modify (set_im_clean_level 1);;
  h ← read_header;
  read_table h;;
  s ← gets id;
  table ← deref (im_table s);
  let order := sort_sections table (select_sections table) in
  modify (set_im_order (Some order));;
  if negb can_create then clean (-1) else
  modify (set_im_output_open true);;
  modify (set_im_clean_level 4);;
  write_output BIMAGE_MAGIC;;
  write_output_word (sizeof_info_section + 8);;
  write_output_word (e_entry h);;
  process_sections fuel order (z_init z level);;
  write_output BIMAGE_END;;
  clean 0.

(** [main]: [fopen_input] is the content of the file of a name. *)
Definition image_main (fuel : nat) (argv : list (list Z)) (fopen_input : list Z → option (list Z))
    (can_create : list Z → bool) : M image_state Z :=
  match parse_args argv with
  | OutOfArgv => stuck
  | Return code => mret code
  | Parsed o =>
      (match o_output o with
       | None => (match o_input o with None => stuck | Some name =>
           get_memory (zlen name + zlen OUTPUT_SUFFIX + 1) end);;
           modify (set_im_filename_malloced true)
       | Some _ => mret tt
       end);;
      name ← deref (o_input o);
      out_name ← deref (output_name o);
      match fopen_input name with
      | None => mret (-1)
      | Some bytes =>
          modify (λ s, ImageState bytes 0 true (im_output s) 0 (im_output_room s) false
            (im_mallocs s) (im_clean_level s) (im_table s) (im_order s)
            (im_filename_malloced s));;
          make_image fuel (o_level o) (can_create out_name)
      end
  end.
End output.
