(* ===== verification/BimageSections.v ===== *)
(** * Boot images: the sections of an image

    zlib as its manual describes it, and the proof that the compression loop
    of [mkuuubimage] ends with the whole section in the image, packed so that
    it unpacks to the section again. *)
From S2P Require Import Prelude Posix Bimage.
Local Open Scope Z_scope.

(** ** zlib

    What the manual says of the calls the program may make.  [deflateInit]
    takes a level from -1 to 9 and finds its memory.  A stream has consumed
    some input and produced some output since it was set up or reset.  It is
    fed until the first call with [Z_FINISH].  When that call does not return
    [Z_STREAM_END] - it returns [Z_OK] for want of room -, "this function must
    be called again with [Z_FINISH] and more output space but no more input
    data, until it returns with [Z_STREAM_END] or an error"; afterwards the
    only possible operations are [deflateReset] and [deflateEnd]. *)
Inductive phase : Type :=
| Feeding
| Finishing (rest : list Z)
| Ended.

(** The calls of [deflate] allowed in a phase: there must be something to do,
    and once [Z_FINISH] was given the input is what the last call left. *)
Definition may_deflate (p : phase) (buf : list Z) (finish : bool) : Prop :=
  match p with
  | Feeding => buf ≠ [] ∨ finish = true
  | Finishing rest => buf = rest ∧ finish = true
  | Ended => False
  end.

(** The lengths the whole input can still have. *)
Definition may_total (p : phase) (i : list Z) (n : Z) : Prop :=
  match p with
  | Feeding => zlen i ≤ n
  | Finishing rest => zlen (i ++ rest) = n
  | Ended => zlen i = n
  end.

(** With room for output an allowed call either "makes progress" and returns
    [Z_OK], or, only when it is to finish, takes all the input and ends; the
    output then unpacks to the whole input.  "deflateBound returns an upper
    bound on the compressed size": what was produced is part of the output
    for any input the stream can still be given.  Buffers are smaller than
    4 GB. *)
Record zlib_ok (z : zlib) (inflate : list Z → option (list Z)) (deflateBound : Z → Z) : Type := ZlibOk {
  trace : z_state z → phase → list Z → list Z → Prop;
  trace_init level : -1 ≤ level ≤ 9 → trace (z_init z level) Feeding [] [];
  trace_reset st p i o : trace st p i o → trace (z_reset z st) Feeding [] [];
  trace_bound st p i o n : trace st p i o → may_total p i n → zlen o ≤ deflateBound n;
  trace_step st p i o buf avail finish :
    trace st p i o → may_deflate p buf finish → 0 < avail < 2 ^ 32 → zlen buf < 2 ^ 32 →
    let '(r, c, out, st') := z_deflate z st buf avail finish in
    let '(taken, unread) := (take (Z.to_nat c) buf, drop (Z.to_nat c) buf) in
    0 ≤ c ≤ zlen buf ∧ zlen out ≤ avail ∧
    ((r = 0 ∧ trace st' (if finish then Finishing unread else Feeding) (i ++ taken) (o ++ out) ∧ (0 < c ∨ out ≠ [])) ∨
     (r = Z_STREAM_END ∧ finish = true ∧ unread = [] ∧ trace st' Ended (i ++ buf) (o ++ out) ∧
      inflate (o ++ out) = Some (i ++ buf)))
}.
Arguments trace {z inflate deflateBound} _ _ _ _ _.

(** ** Writing at the end of the output *)

Definition put_output (out : list Z) (s : image_state) : image_state := set_im_output out (zlen out) s.

Definition at_end (s : image_state) : Prop := im_output_pos s = zlen (im_output s).

Lemma fwrite_at_end out bytes : fwrite_at (zlen out) bytes out = out ++ bytes.
Proof.
  unfold fwrite_at, zlen. rewrite Nat2Z.id, firstn_all, drop_ge by lia. by rewrite app_nil_r.
Qed.

Lemma fwrite_at_inside pre old new post :
  length old = length new → fwrite_at (zlen pre) new (pre ++ old ++ post) = pre ++ new ++ post.
Proof.
  intros Hl. unfold fwrite_at, zlen. rewrite Nat2Z.id, take_app_length, <- Hl.
  by rewrite <- length_app, (app_assoc pre old post), drop_app_length.
Qed.

Lemma write_output_end s bytes :
  at_end s → bytes ≠ [] → zlen (im_output s) + zlen bytes ≤ im_output_room s →
  write_output bytes s = Ok tt (put_output (im_output s ++ bytes) s).
Proof.
  intros He Hb Hr. unfold write_output. steps. unfold id. rewrite He.
  assert (0 < zlen bytes) by (unfold zlen; destruct bytes; [done|]; cbn [length]; lia).
  destruct (Z.eqb_spec (zlen bytes) 0) as [|_]; [lia|].
  destruct (Z.ltb_spec (im_output_room s) (zlen (im_output s) + zlen bytes)); [lia|].
  cbn [orb]. unfold modify. by rewrite fwrite_at_end, <- zlen_app.
Qed.

Lemma zlen_word v : zlen (le_bytes 4 v) = 4.
Proof. unfold zlen. by rewrite length_le_bytes. Qed.

Lemma write_word_end s v :
  at_end s → zlen (im_output s) + 4 ≤ im_output_room s →
  write_output_word v s = Ok tt (put_output (im_output s ++ le_bytes 4 v) s).
Proof. intros He Hr. apply write_output_end; [done|done|]. by rewrite zlen_word. Qed.

Lemma put_bytes s out bytes :
  bytes ≠ [] → zlen out + zlen bytes ≤ im_output_room s →
  write_output bytes (put_output out s) = Ok tt (put_output (out ++ bytes) s).
Proof. intros Hb Hr. by rewrite write_output_end. Qed.

Lemma put_word s out v :
  zlen out + 4 ≤ im_output_room s →
  write_output_word v (put_output out s) = Ok tt (put_output (out ++ le_bytes 4 v) s).
Proof. intros Hr. by rewrite write_word_end. Qed.

Lemma bind_word {A} s out v (f : unit → M image_state A) :
  zlen out + 4 ≤ im_output_room s →
  (write_output_word v ≫= f) (put_output out s) = f tt (put_output (out ++ le_bytes 4 v) s).
Proof. intros Hr. by rewrite (bind_Ok _ _ _ _ _ (put_word s out v Hr)). Qed.

(** Going back to fill in a word. *)
Lemma patch_word {A} s pos pre old post v (f : unit → M image_state A) :
  length old = 4%nat → zlen (pre ++ old ++ post) ≤ im_output_room s →
  (fseek_output (zlen pre);; write_output_word v;;
   (modify (λ s, set_im_output (im_output s) (zlen (im_output s)) s) ≫= f))
    (set_im_output (pre ++ old ++ post) pos s) = f tt (put_output (pre ++ le_bytes 4 v ++ post) s).
Proof.
  intros Hl Hr. unfold fseek_output, write_output_word, write_output. steps. rewrite bind_assoc. steps.
  unfold id. rewrite zlen_word. cbn [Z.eqb orb im_output_room im_output_pos im_output set_im_output].
  assert (zlen pre + 4 ≤ zlen (pre ++ old ++ post)) as Hp.
  { rewrite !zlen_app. pose proof (zlen_nonneg post). unfold zlen at 3. rewrite Hl. lia. }
  destruct (Z.ltb_spec (im_output_room s) (zlen pre + 4)); [lia|]. steps.
  cbn [im_output set_im_output]. rewrite fwrite_at_inside by (by rewrite length_le_bytes). done.
Qed.

Lemma put_output_at_end s : at_end s → put_output (im_output s) s = s.
Proof. unfold at_end, put_output. destruct s; cbn. by intros ->. Qed.

(** ** Reading the input *)

Lemma fread_input_ok s size :
  0 < size → im_input_pos s + size ≤ zlen (im_input s) →
  fread_input size s =
    Ok (Some (dread (im_input s) (im_input_pos s) size)) (set_im_input_pos (im_input_pos s + size) s).
Proof.
  intros H0 Hs. unfold fread_input. steps. unfold id. destruct (Z.eqb_spec size 0); [lia|].
  destruct (Z.leb_spec (im_input_pos s + size) (zlen (im_input s))); [|lia]. done.
Qed.

Lemma fseek_input_ok s loc :
  0 ≤ loc < 2 ^ 31 → fseek_input loc s = Ok tt (set_im_input_pos loc s).
Proof.
  intros Hl. unfold fseek_input. rewrite (i32_small loc) by lia. by destruct (Z.ltb_spec loc 0); [lia|].
Qed.

(** ** The compression of one section *)

Section deflate.
Context {z : zlib} {inflate : list Z → option (list Z)} {deflateBound : Z → Z}.
Context (Hz : zlib_ok z inflate deflateBound).

(** The section [sec] at place [k] of the table, its bytes in the input; what
    is in the output before it. *)
Context (s0 : image_state) (table : list elf_shdr) (k : nat) (sec : elf_shdr) (base : list Z).
Hypothesis Hsec : table !! k = Some sec.
Local Abbreviation size := (sh_size sec).
Local Abbreviation off := (sh_offset sec).
Hypothesis Hsize : 0 < size < 2 ^ 32.
Hypothesis Hoff : 0 ≤ off < 2 ^ 31.
Hypothesis Hin : off + size ≤ zlen (im_input s0).
Hypothesis Hbound : deflateBound size < 2 ^ 32.
Hypothesis Hroom : zlen base + deflateBound size ≤ im_output_room s0.

Definition loop_state (pos v : Z) (out : list Z) : image_state :=
  set_im_input_pos pos (set_im_table (Some (alter (set_sh_size v) k table)) (put_output out s0)).

(** [i] has been consumed and [o] produced; the buffer holds what follows [i]
    in the section, and the size field counts down what was not given yet. *)
Definition deflating_ok (i o : list Z) (d : deflating z) (s : image_state) : Prop :=
  ∃ p given v written,
    s = loop_state (off + given) v (base ++ written) ∧
    given = zlen i + zlen (df_in z d) ∧ given ≤ size ∧
    trace Hz (df_stream z d) p i o ∧
    (p = Feeding ∨ p = Finishing (df_in z d) ∧ df_finish z d = true) ∧
    i ++ df_in z d = dread (im_input s0) off given ∧
    o = written ++ df_out z d ∧ zlen (df_out z d) ≤ OUTPUT_BUFFER_SIZE ∧
    df_total z d = zlen o ∧
    (if df_finish z d then given = size ∧ v ≤ INPUT_BUFFER_SIZE else v = size - given ∧ 0 < v).

Lemma get_section_loop pos v out :
  get_section k (loop_state pos v out) = Ok (set_sh_size v sec) (loop_state pos v out).
Proof.
  unfold get_section. steps. unfold id. cbn [im_table loop_state set_im_input_pos set_im_table].
  steps. by rewrite list_lookup_alter_eq, Hsec.
Qed.

(** The rest of the section can still be given, so the bound for all of it
    holds. *)
Lemma produced_bound st p i o left (finish : bool) :
  trace Hz st p i o → p = Feeding ∨ p = Finishing left ∧ finish = true →
  zlen i + zlen left ≤ size → (finish = true → zlen i + zlen left = size) → zlen o ≤ deflateBound size.
Proof.
  intros Htr Hp Hle Hall. apply (trace_bound _ _ _ Hz _ _ _ _ _ Htr). pose proof (zlen_nonneg left).
  destruct Hp as [-> | [-> Hf]]; cbn [may_total]; [lia|]. rewrite zlen_app. by apply Hall.
Qed.

Lemma flush_output_ok i o d s :
  deflating_ok i o d s →
  ∃ d' s', flush_output z d s = Ok d' s' ∧ deflating_ok i o d' s' ∧ zlen (df_out z d') < OUTPUT_BUFFER_SIZE ∧
    df_in z d' = df_in z d ∧ df_finish z d' = df_finish z d.
Proof.
  intros (p & given & v & written & -> & Hg & Hgs & Htr & Hp & Hdata & Ho & Hlen & Htot & Hfin).
  pose proof (zlen_nonneg i). pose proof (zlen_nonneg (df_in z d)).
  unfold flush_output. destruct (Z.eqb_spec (OUTPUT_BUFFER_SIZE - zlen (df_out z d)) 0) as [Hfull|Hnf].
  - assert (zlen o ≤ deflateBound size) as Hob.
    { apply (produced_bound _ _ _ _ _ (df_finish z d) Htr Hp); [lia|]. intros E. rewrite E in Hfin. lia. }
    rewrite Ho, zlen_app in Hob. unfold OUTPUT_BUFFER_SIZE in *.
    step_with (write_output_end (loop_state (off + given) v (base ++ written)) (df_out z d)
      ltac:(reflexivity) ltac:(intros E; rewrite E in Hfull; discriminate Hfull)
      ltac:(cbn [im_output im_output_room loop_state set_im_input_pos set_im_table put_output set_im_output]; rewrite zlen_app; lia)).
    do 2 eexists. split; [done|]. split; [|done]. exists p, given, v, (written ++ df_out z d). cbn [df_in df_out df_stream df_total df_finish].
    split; [transitivity (loop_state (off + given) v ((base ++ written) ++ df_out z d)); [done|by rewrite app_assoc]|].
    split_and!; try done. by rewrite app_nil_r.
  - do 2 eexists. split; [done|]. split; [|split; [lia|done]]. by exists p, given, v, written.
Qed.

Lemma fill_input_ok i o d s :
  deflating_ok i o d s →
  ∃ d' s', fill_input z k d s = Ok d' s' ∧ deflating_ok i o d' s' ∧ df_out z d' = df_out z d ∧
    (df_in z d' ≠ [] ∨ df_finish z d' = true).
Proof.
  intros (p & given & v & written & -> & Hg & Hgs & Htr & Hp & Hdata & Ho & Hlen & Htot & Hfin).
  pose proof (zlen_nonneg i). unfold fill_input.
  destruct (Z.eqb_spec (zlen (df_in z d)) 0) as [Hempty|Hne]; cbn [negb].
  2:{ do 2 eexists. split; [done|]. split; [by exists p, given, v, written|]. split; [done|].
      left. intros E. by rewrite E in Hne. }
  assert (df_in z d = []) as Hnil by (destruct (df_in z d); [done|unfold zlen in Hempty; cbn [length] in Hempty; lia]).
  step_with (get_section_loop (off + given) v (base ++ written)). cbn [sh_size set_sh_size].
  unfold INPUT_BUFFER_SIZE. rewrite Hnil, app_nil_r in Hdata. change (zlen []) with 0 in Hg.
  assert (∀ n, 0 < n → given + n ≤ size →
    fread_input n (loop_state (off + given) v (base ++ written)) =
      Ok (Some (dread (im_input s0) (off + given) n)) (loop_state (off + (given + n)) v (base ++ written)) ∧
    zlen (dread (im_input s0) (off + given) n) = n ∧
    i ++ dread (im_input s0) (off + given) n = dread (im_input s0) off (given + n)) as Hread.
  { intros n Hn Hgn. split; [|split].
    - rewrite fread_input_ok; [|done|cbn [im_input_pos im_input loop_state set_im_input_pos set_im_table put_output set_im_output]; lia].
      unfold loop_state. by rewrite Z.add_assoc.
    - apply zlen_dread; lia.
    - rewrite Hdata, <- dread_app by lia. done. }
  destruct (df_finish z d) eqn:Efin; cbn [negb].
  { destruct Hfin as [-> Hv]. unfold INPUT_BUFFER_SIZE in Hv. destruct (Z.ltb_spec 4096 v); [lia|].
    do 2 eexists. split; [done|]. split; [|split; [done|by right]]. exists p, size, v, written.
    rewrite Hnil in Hp. rewrite Hnil, app_nil_r, Efin. change (zlen []) with 0. split_and!; first [done|lia]. }
  assert (p = Feeding) as -> by (by destruct Hp as [?|[_ ?]]).
  destruct Hfin as [-> Hv]. destruct (Z.ltb_spec 4096 (size - given)) as [Hbig|Hsmall].
  - destruct (Hread 4096) as (E & Hlen' & Hdata'); [lia|lia|]. step_with E.
    unfold set_section_size. steps. rewrite (u32_small (size - given - 4096)) by lia.
    do 2 eexists. split; [done|]. cbn [df_in df_out].
    split; [|split; [done|left; intros E0; rewrite E0 in Hlen'; done]].
    exists Feeding, (given + 4096), (size - (given + 4096)), written. cbn [df_in df_out df_stream df_total df_finish].
    split_and!; try done; [|lia|lia|by left|lia..].
    replace (size - (given + 4096)) with (size - given - 4096) by lia.
    unfold loop_state at 1. cbn [im_table loop_state set_im_input_pos set_im_table fmap option_fmap option_map].
    rewrite list_alter_alter_eq. done.
  - destruct (Hread (size - given)) as (E & Hlen' & Hdata'); [lia|lia|]. step_with E.
    do 2 eexists. split; [done|]. cbn [df_in df_out]. split; [|by auto].
    exists Feeding, size, (size - given), written. cbn [df_in df_out df_stream df_total df_finish].
    replace (given + (size - given)) with size in * by lia.
    split_and!; first [done|by left|lia|unfold INPUT_BUFFER_SIZE; lia].
Qed.

(** The section is packed: part of it is in the output, the rest in the
    buffer. *)
Definition deflated (d : deflating z) (s : image_state) : Prop :=
  ∃ v written,
    s = loop_state (off + size) v (base ++ written) ∧
    inflate (written ++ df_out z d) = Some (dread (im_input s0) off size) ∧
    df_total z d = zlen (written ++ df_out z d) ∧
    zlen (written ++ df_out z d) ≤ deflateBound size ∧ zlen (df_out z d) ≤ OUTPUT_BUFFER_SIZE ∧
    trace Hz (df_stream z d) Ended (dread (im_input s0) off size) (written ++ df_out z d).

Lemma progress_bounds i o d s :
  deflating_ok i o d s → zlen i ≤ size ∧ zlen o ≤ deflateBound size.
Proof.
  intros (p & given & v & written & -> & Hg & Hgs & Htr & Hp & _ & _ & _ & _ & Hfin). pose proof (zlen_nonneg (df_in z d)).
  split; [lia|]. apply (produced_bound _ _ _ _ _ (df_finish z d) Htr Hp); [lia|]. intros E. rewrite E in Hfin. lia.
Qed.

Lemma deflate_step_ok i o d s :
  deflating_ok i o d s → zlen (df_out z d) < OUTPUT_BUFFER_SIZE → df_in z d ≠ [] ∨ df_finish z d = true →
  ∃ j d', deflate_step z d s = Ok (j, d') s ∧
    ((j ≠ Z_STREAM_END ∧ ∃ i' o', deflating_ok i' o' d' s ∧ zlen i + zlen o < zlen i' + zlen o') ∨
     (j = Z_STREAM_END ∧ deflated d' s)).
Proof.
  intros (p & given & v & written & -> & Hg & Hgs & Htr & Hp & Hdata & Ho & Hlen & Htot & Hfin) Hspace Hready.
  pose proof (zlen_nonneg i) as Hi0. pose proof (zlen_nonneg (df_in z d)). pose proof (zlen_nonneg (df_out z d)).
  pose proof (trace_step _ _ _ Hz _ _ _ _ (df_in z d) (OUTPUT_BUFFER_SIZE - zlen (df_out z d)) (df_finish z d)
    Htr ltac:(destruct Hp as [-> | [-> ?]]; done) ltac:(unfold OUTPUT_BUFFER_SIZE in *; lia) ltac:(lia)) as Hstep.
  unfold deflate_step. destruct (z_deflate z _ _ _ _) as [[[r c] out] st].
  destruct Hstep as (Hc & Hout & Hcase).
  assert (take (Z.to_nat c) (df_in z d) ++ drop (Z.to_nat c) (df_in z d) = df_in z d) as Hsplit by apply take_drop.
  set (taken := take (Z.to_nat c) (df_in z d)) in *. set (left := drop (Z.to_nat c) (df_in z d)) in *.
  assert (zlen taken = c) as Htake by (unfold taken, zlen in *; rewrite length_take; lia).
  assert (zlen (df_in z d) = c + zlen left) as Hd by (rewrite <- Hsplit at 1; rewrite zlen_app; lia).
  pose proof (zlen_nonneg o) as Ho0. pose proof (zlen_nonneg out) as Hout0.
  destruct Hcase as [(-> & Htr' & Hmove)|(-> & Hfinish & Hleft & Htr' & Hinf)].
  - change (u32 0) with 0. do 2 eexists. split; [reflexivity|]. left. split; [discriminate|].
    exists (i ++ taken), (o ++ out).
    assert (zlen (i ++ taken) + zlen left ≤ size) as Hi' by (rewrite zlen_app; lia).
    assert (zlen (o ++ out) ≤ deflateBound size) as Hb'.
    { apply (produced_bound _ _ _ _ left (df_finish z d) Htr'); [by destruct (df_finish z d); [right|left]|done|].
      intros E. rewrite E in Hfin. rewrite zlen_app. lia. }
    split.
    + exists (if df_finish z d then Finishing left else Feeding), given, v, written.
      cbn [df_in df_out df_stream df_total df_finish].
      rewrite !zlen_app in *. split_and!; try done; [lia| | | |lia|].
      * by destruct (df_finish z d); [right|left].
      * by rewrite <- app_assoc, Hsplit.
      * by rewrite Ho, app_assoc.
      * rewrite Htot. apply u32_small. lia.
    + rewrite !zlen_app, Htake. destruct Hmove as [|Hne]; [lia|].
      assert (0 < zlen out) by (destruct out; [done|]; unfold zlen; cbn [length]; lia). lia.
  - change (u32 Z_STREAM_END) with 1. do 2 eexists. split; [reflexivity|]. right. split; [done|].
    rewrite Hfinish in Hfin. destruct Hfin as [-> _]. exists v, written. cbn [df_out df_total df_stream].
    assert (written ++ df_out z d ++ out = o ++ out) as -> by (by rewrite Ho, app_assoc).
    assert (zlen (i ++ df_in z d) = size) as Hall by (rewrite zlen_app; lia).
    pose proof (trace_bound _ _ _ Hz _ _ _ _ size Htr' Hall) as Hb.
    rewrite Hinf, Htot, <- Hdata. split; [done|]. split; [done|]. rewrite !zlen_app in *.
    split; [apply u32_small; lia|]. split; [done|]. split; [lia|done].
Qed.

Lemma deflate_loop_ok fuel : ∀ i o d s,
  deflating_ok i o d s → size + deflateBound size - zlen i - zlen o < Z.of_nat fuel →
  ∃ d' s', deflate_loop z fuel k d s = Ok d' s' ∧ deflated d' s'.
Proof.
  induction fuel as [|fuel IH]; intros i o d s Hd Hf.
  { destruct (progress_bounds i o d s Hd). lia. }
  cbn [deflate_loop].
  destruct (flush_output_ok i o d s Hd) as (d1 & s1 & E1 & Hd1 & Hsp & _ & _). step_with E1.
  destruct (fill_input_ok i o d1 s1 Hd1) as (d2 & s2 & E2 & Hd2 & Eout & Hready). step_with E2.
  destruct (deflate_step_ok i o d2 s2 Hd2) as (j & d3 & E3 & Hcase); [by rewrite Eout|done|]. step_with E3.
  destruct Hcase as [(Hj & i' & o' & Hd3 & Hmore)|(-> & Hfin)].
  - destruct (Z.eqb_spec j Z_STREAM_END); [done|]. cbn [negb]. apply (IH i' o'); [done|lia].
  - rewrite Z.eqb_refl. cbn [negb]. by do 2 eexists.
Qed.
End deflate.

(** * Boot images: the ways mkuuubimage ends

    [clean_level] tells [clean] what there is to release.  Every function of
    the program keeps it true to what is held, so that every way out of
    [main] leaves no file open and no table allocated. *)

(** What is held is accounted for by the level. *)
Definition settled (s : image_state) : Prop :=
  0 ≤ im_clean_level s ≤ 4 ∧
  (im_input_open s = true → 1 ≤ im_clean_level s) ∧
  (im_table s ≠ None → 2 ≤ im_clean_level s) ∧
  (im_order s ≠ None → 3 ≤ im_clean_level s) ∧
  (im_output_open s = true → im_clean_level s = 4).

Definition released (s : image_state) : Prop :=
  im_input_open s = false ∧ im_table s = None ∧ im_order s = None ∧ im_output_open s = false ∧
  im_filename_malloced s = false.

(** Running [m] keeps the accounts, or ends the process with nothing held. *)
Definition tidy {A} (m : M image_state A) : Prop := ∀ s, settled s →
  match m s with
  | Ok _ s' => settled s' ∧ im_clean_level s' = im_clean_level s
  | Exit _ s' => released s'
  | Stuck | NoFuel => True
  end.

Lemma release_settled s : settled s → released (release (im_clean_level s) s).
Proof.
  intros (Hl & H1 & H2 & H3 & H4). unfold release, released.
  assert (im_clean_level s = 0 ∨ im_clean_level s = 1 ∨ im_clean_level s = 2 ∨ im_clean_level s = 3 ∨
    im_clean_level s = 4) as Hc by lia.
  destruct s as [inp pos iopen out opos room oopen mallocs level table order fname]. cbn in *.
  destruct Hc as [-> | [-> | [-> | [-> | ->]]]]; cbn; split_and!; try done;
    match goal with
    | |- ?b = false => destruct b; [exfalso; first [specialize (H1 eq_refl); lia|specialize (H4 eq_refl); lia]|done]
    | |- ?o = None => destruct o; [exfalso; first [specialize (H2 ltac:(done)); lia|specialize (H3 ltac:(done)); lia]|done]
    end.
Qed.

Section tidy.
Context {A B : Type}.

Lemma tidy_ret (a : A) : tidy (mret a).
Proof. intros s Hs. done. Qed.

Lemma tidy_bind (m : M image_state A) (f : A → M image_state B) :
  tidy m → (∀ a, tidy (f a)) → tidy (m ≫= f).
Proof.
  intros Hm Hf s Hs. specialize (Hm s Hs). unfold mbind, M_bind. destruct (m s) as [a s1|code s1| |]; try done.
  destruct Hm as [Hs1 Hl1]. specialize (Hf a s1 Hs1). destruct (f a s1); try done.
  destruct Hf as [? ?]. split; [done|congruence].
Qed.

Lemma tidy_gets (f : image_state → A) : tidy (gets f).
Proof. intros s Hs. done. Qed.

Lemma tidy_deref (o : option A) : tidy (deref o).
Proof. destruct o; intros s Hs; done. Qed.

Lemma tidy_clean code : tidy (@clean A code).
Proof. intros s Hs. unfold clean. steps. by apply release_settled. Qed.

Lemma tidy_stuck : tidy (@stuck image_state A).
Proof. by intros s Hs. Qed.

Lemma tidy_no_fuel : tidy (@no_fuel image_state A).
Proof. by intros s Hs. Qed.

(** A change of the files' contents and positions. *)
Lemma tidy_modify f :
  (∀ s, im_clean_level (f s) = im_clean_level s ∧ im_input_open (f s) = im_input_open s ∧
    im_output_open (f s) = im_output_open s ∧ (im_table (f s) = None ↔ im_table s = None) ∧
    im_order (f s) = im_order s) →
  tidy (modify f).
Proof.
  intros Hf s (H0 & H1 & H2 & H3 & H4). unfold modify. destruct (Hf s) as (E1 & E2 & E3 & E4 & E5).
  unfold settled. rewrite E1, E2, E3, E5. split; [|done]. split_and!; try done; try tauto.
Qed.

Lemma tidy_if (b : bool) (m n : M image_state A) : tidy m → tidy n → tidy (if b then m else n).
Proof. by destruct b. Qed.
End tidy.

Create HintDb tidy.
#[export] Hint Resolve tidy_ret tidy_gets tidy_deref tidy_clean tidy_stuck tidy_no_fuel : tidy.

(** Follow the program text. *)
Ltac tidy :=
  repeat first
    [ progress auto 1 with tidy
    | apply tidy_bind; [|intros ?]
    | apply tidy_if
    | apply tidy_modify; intros ?; split_and!; (done || (cbn; by destruct (im_table _)))
    | match goal with |- tidy (match ?x with _ => _ end) => destruct x end
    | match goal with |- tidy (let '(_, _) := ?x in _) => destruct x end ].

Lemma tidy_malloc : tidy malloc.
Proof. intros s Hs. unfold malloc. cbn. by destruct (im_mallocs s). Qed.
#[export] Hint Resolve tidy_malloc : tidy.

Lemma tidy_get_memory size : tidy (get_memory size).
Proof. unfold get_memory, out_of_memory. tidy. Qed.
#[export] Hint Resolve tidy_get_memory : tidy.

Lemma tidy_fread_input size : tidy (fread_input size).
Proof. unfold fread_input. tidy. Qed.
Lemma tidy_fseek_input loc : tidy (fseek_input loc).
Proof. unfold fseek_input, read_error. tidy. Qed.
#[export] Hint Resolve tidy_fread_input tidy_fseek_input : tidy.

Lemma tidy_read_input size loc : tidy (read_input size loc).
Proof. unfold read_input, read_error. tidy. Qed.
Lemma tidy_write_output src : tidy (write_output src).
Proof. unfold write_output. tidy. Qed.
#[export] Hint Resolve tidy_read_input tidy_write_output : tidy.

Lemma tidy_write_word v : tidy (write_output_word v).
Proof. unfold write_output_word. tidy. Qed.
Lemma tidy_fseek_output pos : tidy (fseek_output pos).
Proof. unfold fseek_output. tidy. Qed.
Lemma tidy_get_section k : tidy (get_section k).
Proof. unfold get_section. tidy. Qed.
Lemma tidy_set_section_size k v : tidy (set_section_size k v).
Proof. unfold set_section_size. tidy. Qed.
Lemma tidy_read_header : tidy read_header.
Proof. unfold read_header. tidy. Qed.
#[export] Hint Resolve tidy_write_word tidy_fseek_output tidy_get_section tidy_set_section_size
  tidy_read_header : tidy.

Section deflate.
Context (z : zlib).

Lemma tidy_flush_output d : tidy (flush_output z d).
Proof. unfold flush_output. tidy. Qed.
Lemma tidy_fill_input k d : tidy (fill_input z k d).
Proof. unfold fill_input, read_error. tidy. Qed.
Lemma tidy_deflate_step d : tidy (deflate_step z d).
Proof. unfold deflate_step, bug. tidy. Qed.

Lemma tidy_deflate_loop fuel k : ∀ d, tidy (deflate_loop z fuel k d).
Proof.
  induction fuel as [|fuel IH]; intros d; cbn [deflate_loop]; [tidy|].
  apply tidy_bind; [apply tidy_flush_output|intros d1]. apply tidy_bind; [apply tidy_fill_input|intros d2].
  apply tidy_bind; [apply tidy_deflate_step|intros [j d3]]. tidy.
Qed.

Lemma tidy_write_zspan fuel k stream : tidy (write_zspan z fuel k stream).
Proof. unfold write_zspan. tidy. apply tidy_deflate_loop. Qed.
Lemma tidy_write_fillspan k : tidy (write_fillspan k).
Proof. unfold write_fillspan. tidy. Qed.

#[local] Hint Resolve tidy_write_zspan tidy_write_fillspan : tidy.

Lemma tidy_process_sections fuel order : ∀ stream, tidy (process_sections z fuel order stream).
Proof.
  induction order as [|k order IH]; intros stream; cbn [process_sections]; [tidy|].
  unfold bug. tidy.
Qed.
End deflate.


(** ** The parts that raise the level *)

Definition raises {A} (l : Z) (m : M image_state A) (l' : Z) : Prop := ∀ s,
  settled s → im_clean_level s = l →
  match m s with
  | Ok _ s' => settled s' ∧ im_clean_level s' = l'
  | Exit _ s' => released s'
  | Stuck | NoFuel => True
  end.

Lemma tidy_raises {A} (m : M image_state A) l : tidy m → raises l m l.
Proof.
  intros Hm s Hs Hl. specialize (Hm s Hs). destruct (m s); try done. destruct Hm. split; [done|congruence].
Qed.

Lemma raises_bind {A B} (m : M image_state A) (f : A → M image_state B) l l' l'' :
  raises l m l' → (∀ a, raises l' (f a) l'') → raises l (m ≫= f) l''.
Proof.
  intros Hm Hf s Hs Hl. specialize (Hm s Hs Hl). unfold mbind, M_bind. destruct (m s) as [a s1|code s1| |]; try done.
  destruct Hm as [Hs1 Hl1]. exact (Hf a s1 Hs1 Hl1).
Qed.

Lemma raises_clean {A} l l' code : raises l (@clean A code) l'.
Proof. intros s Hs _. unfold clean. steps. by apply release_settled. Qed.

Lemma raises_modify l l' f :
  (∀ s, settled s → im_clean_level s = l → settled (f s) ∧ im_clean_level (f s) = l') → raises l (modify f) l'.
Proof. intros Hf s Hs Hl. by apply Hf. Qed.

(** What is taken is accounted for by the next level. *)
Lemma raises_take l l' f g :
  (∀ s, settled s → im_clean_level s = l → settled (g (f s)) ∧ im_clean_level (g (f s)) = l') →
  ∀ A (m : unit → M image_state A) l'', raises l' (m tt) l'' → raises l (modify f;; modify g ≫= m) l''.
Proof.
  intros Hfg A m l'' Hm s Hs Hl. steps. destruct (Hfg s Hs Hl) as [Hs' Hl']. by apply Hm.
Qed.

Ltac account :=
  intros ? (? & ? & ? & ? & ?) ?; unfold settled; cbn in *; repeat split; intros;
  repeat match goal with H : ?P → _, H' : ?P |- _ => specialize (H H') end; try done; lia.

Lemma read_table_raises h : raises 1 (read_table h) 3.
Proof.
  unfold read_table. apply (raises_bind _ _ 1 1); [apply tidy_raises, tidy_get_memory|intros _].
  apply (raises_take 1 2); [account|]. apply (raises_bind _ _ 2 2); [apply tidy_raises, tidy_read_input|intros bytes].
  apply (raises_bind _ _ 2 2); [apply tidy_raises, tidy_deref|intros table].
  apply (raises_bind _ _ 2 2); [apply raises_modify; account|intros _].
  apply (raises_bind _ _ 2 2); [apply tidy_raises, tidy_get_memory|intros _].
  intros s Hs Hl. steps. revert s Hs Hl. unfold modify. account.
Qed.

Lemma make_image_raises z fuel level can_create s :
  im_input_open s = true → im_output_open s = false → im_table s = None → im_order s = None →
  match make_image z fuel level can_create s with
  | Ok _ _ => False
  | Exit _ s' => released s'
  | Stuck | NoFuel => True
  end.
Proof.
  intros Hi Ho Ht Hor. unfold make_image. steps.
  assert (raises 1 (h ← read_header;
    read_table h;;
    s ← gets id;
    table ← deref (im_table s);
    let order := sort_sections table (select_sections table) in
    modify (set_im_order (Some order));;
    if negb can_create then clean (-1) else
    modify (set_im_output_open true);;
    modify (set_im_clean_level 4);;
    write_output BIMAGE_MAGIC;;
    write_output_word (sizeof_info_section + 8);;
    write_output_word (e_entry h);;
    process_sections z fuel order (z_init z level);;
    write_output BIMAGE_END;;
    @clean Z 0) 5) as Hm.
  { apply (raises_bind _ _ 1 1); [apply tidy_raises, tidy_read_header|intros h].
    apply (raises_bind _ _ 1 3); [apply read_table_raises|intros _].
    apply (raises_bind _ _ 3 3); [apply tidy_raises, tidy_gets|intros s'].
    apply (raises_bind _ _ 3 3); [apply tidy_raises, tidy_deref|intros table]. cbn zeta.
    apply (raises_bind _ _ 3 3); [apply raises_modify; account|intros _].
    destruct can_create; cbn [negb]; [|apply raises_clean].
    apply (raises_take 3 4); [account|].
    do 3 (apply (raises_bind _ _ 4 4); [apply tidy_raises; auto with tidy|intros _]).
    apply (raises_bind _ _ 4 4); [apply tidy_raises, tidy_process_sections|intros _].
    apply (raises_bind _ _ 4 4); [apply tidy_raises, tidy_write_output|intros _]. apply raises_clean. }
  specialize (Hm (set_im_clean_level 1 s) ltac:(unfold settled; cbn; by rewrite Ht, Ho, Hor) eq_refl).
  destruct ((h ← read_header; _) _) as [r s'|code s'| |]; [|exact Hm|done..].
  destruct Hm as [(? & _) ?]. lia.
Qed.
