(* ===== verification/BimageSpec.v ===== *)
(** * Boot images: what mkuuubimage writes

    The image a run of [main] leaves for a well-formed executable, section by
    section, and what is released however it ends. *)
From S2P Require Import Prelude Posix Bimage BimageSections.
Local Open Scope Z_scope.

(** ** The format of an image *)

Definition zspan_bytes (sec : elf_shdr) (comp : list Z) : list Z :=
  BIMAGE_ZSPAN ++ le_bytes 4 (zlen comp + 20) ++ le_bytes 4 20 ++ le_bytes 4 (sh_addr sec) ++
    le_bytes 4 (sh_size sec) ++ comp.

Definition fillspan_bytes (sec : elf_shdr) : list Z :=
  BIMAGE_FILLSPAN ++ le_bytes 4 20 ++ le_bytes 4 (sh_addr sec) ++ le_bytes 4 (sh_size sec) ++ le_bytes 4 0.

(** The chunks of a list of sections, up to the first empty one. *)
Inductive image_sections (inflate : list Z → option (list Z)) (input : list Z) : list elf_shdr → list Z → Prop :=
  | image_nil : image_sections inflate input [] []
  | image_empty sec secs : sh_size sec = 0 → image_sections inflate input (sec :: secs) []
  | image_zspan sec secs comp img :
      sh_size sec ≠ 0 → sh_type sec = SHT_PROGBITS →
      inflate comp = Some (dread input (sh_offset sec) (sh_size sec)) →
      image_sections inflate input secs img →
      image_sections inflate input (sec :: secs) (zspan_bytes sec comp ++ img)
  | image_fillspan sec secs img :
      sh_size sec ≠ 0 → sh_type sec = SHT_NOBITS →
      image_sections inflate input secs img →
      image_sections inflate input (sec :: secs) (fillspan_bytes sec ++ img).

(** A section to load, with its bytes inside the file when it has some. *)
Definition section_fits (deflateBound : Z → Z) (input : list Z) (sec : elf_shdr) : Prop :=
  is_loaded sec = true ∧ 0 ≤ sh_size sec < 2 ^ 32 ∧
  (sh_type sec = SHT_PROGBITS →
    0 ≤ sh_offset sec < 2 ^ 31 ∧ sh_offset sec + sh_size sec ≤ zlen input ∧
    deflateBound (sh_size sec) < 2 ^ 32 - 20).

Definition section_room (deflateBound : Z → Z) (sec : elf_shdr) : Z :=
  if sh_type sec =? SHT_PROGBITS then 20 + deflateBound (sh_size sec) else 20.
Definition sections_room (deflateBound : Z → Z) (secs : list elf_shdr) : Z :=
  foldr (λ sec n, section_room deflateBound sec + n) 0 secs.

(** What the output loop keeps of the state. *)
Definition kept (s s' : image_state) : Prop :=
  im_input s' = im_input s ∧ im_output_room s' = im_output_room s ∧
  im_output_open s' = im_output_open s ∧ im_input_open s' = im_input_open s ∧
  im_mallocs s' = im_mallocs s ∧ im_clean_level s' = im_clean_level s.

Lemma kept_trans s1 s2 s3 : kept s1 s2 → kept s2 s3 → kept s1 s3.
Proof. unfold kept. intuition congruence. Qed.

(** ** The sections *)

Section sections.
Context {z : zlib} {inflate : list Z → option (list Z)} {deflateBound : Z → Z}.
Context (Hz : zlib_ok z inflate deflateBound).

Lemma deflateBound_nonneg n : 0 ≤ n → 0 ≤ deflateBound n.
Proof.
  intros Hn. exact (trace_bound _ _ _ Hz _ _ _ _ n (trace_init _ _ _ Hz 0 ltac:(lia)) Hn).
Qed.

Lemma write_zspan_ok fuel k stream s table sec :
  im_table s = Some table → table !! k = Some sec → at_end s →
  sh_type sec = SHT_PROGBITS → sh_size sec ≠ 0 → section_fits deflateBound (im_input s) sec →
  sh_size sec + deflateBound (sh_size sec) < Z.of_nat fuel →
  zlen (im_output s) + section_room deflateBound sec ≤ im_output_room s →
  trace Hz stream Feeding [] [] →
  ∃ stream' pos v comp,
    write_zspan z fuel k stream s =
      Ok stream' (set_im_input_pos pos (set_im_table (Some (alter (set_sh_size v) k table))
        (put_output (im_output s ++ zspan_bytes sec comp) s))) ∧
    trace Hz stream' Feeding [] [] ∧ zlen comp ≤ deflateBound (sh_size sec) ∧
    inflate comp = Some (dread (im_input s) (sh_offset sec) (sh_size sec)).
Proof.
  intros Ht Hk He Hty Hne (_ & Hsz & Hf) Hfuel Hroom Htr. destruct (Hf Hty) as (Hoff & Hin & Hb).
  unfold section_room in Hroom. rewrite Hty, Z.eqb_refl in Hroom.
  pose proof (deflateBound_nonneg (sh_size sec) ltac:(lia)) as Hb0.
  set (size := sh_size sec) in *. set (addr := sh_addr sec).
  set (head := BIMAGE_ZSPAN ++ le_bytes 4 0 ++ le_bytes 4 20 ++ le_bytes 4 addr ++ le_bytes 4 size).
  assert (zlen head = 20) as Hhead by done.
  set (base := im_output s ++ head).
  assert (zlen base = zlen (im_output s) + 20) as Hbase by (unfold base; by rewrite zlen_app, Hhead).
  assert (write_zspan z fuel k stream s = write_zspan z fuel k stream (put_output (im_output s) s)) as ->
    by (by rewrite put_output_at_end).
  unfold write_zspan. set (out := im_output s) in *.
  step_with (put_bytes s out BIMAGE_ZSPAN ltac:(done) ltac:(change (zlen BIMAGE_ZSPAN) with 4; lia)). steps.
  assert (zlen BIMAGE_ZSPAN = 4) as Hmagic by done.
  assert (∀ o, get_section k (put_output o s) = Ok sec (put_output o s)) as Hget.
  { intros o. unfold get_section. steps. unfold id. cbn [im_table put_output set_im_output]. rewrite Ht. steps. by rewrite Hk. }
  step_with (Hget (out ++ BIMAGE_ZSPAN)). cbn [im_output_pos put_output set_im_output].
  do 4 (rewrite bind_word by (rewrite !zlen_app, ?zlen_word, Hmagic; lia)).
  replace ((((((out ++ BIMAGE_ZSPAN) ++ le_bytes 4 0) ++ le_bytes 4 (sizeof_zspan_section + 8)) ++
    le_bytes 4 (sh_addr sec)) ++ le_bytes 4 (sh_size sec))) with base
    by (unfold base, head; by rewrite <- !app_assoc).
  step_with (fseek_input_ok (put_output base s) (sh_offset sec) Hoff).
  assert (set_im_input_pos (sh_offset sec) (put_output base s) = loop_state s table k (sh_offset sec) size base) as ->.
  { unfold loop_state. rewrite (list_alter_ext _ id table table) by (done || (intros x Hx; rewrite Hk in Hx; injection Hx as <-; by destruct sec)).
    rewrite list_alter_id by done. destruct s; cbn in Ht |- *. by rewrite Ht. }
  destruct (deflate_loop_ok Hz s table k sec base Hk ltac:(fold size; lia) Hoff Hin ltac:(fold size; lia) ltac:(fold size; lia)
    fuel [] [] (Deflating z stream [] [] false 0) (loop_state s table k (sh_offset sec) size base))
    as (d & s' & Eloop & v & written & -> & Hinf & Htot & Hlen & _ & Hend).
  { exists Feeding, 0, size, []. rewrite Z.add_0_r, app_nil_r. cbn [df_in df_out df_stream df_finish df_total].
    change (zlen []) with 0. split_and!; try done; [fold size; lia|by left|fold size; lia|lia]. }
  { change (zlen []) with 0. fold size. lia. }
  step_with Eloop. fold size in Hinf, Htot, Hlen |- *.
  set (comp := written ++ df_out z d) in *.
  set (L := set_im_input_pos (sh_offset sec + size) (set_im_table (Some (alter (set_sh_size v) k table)) s)).
  assert ((if negb (OUTPUT_BUFFER_SIZE - zlen (df_out z d) =? OUTPUT_BUFFER_SIZE)
      then write_output (df_out z d) else mret tt)
      (loop_state s table k (sh_offset sec + size) v (base ++ written)) = Ok tt (put_output (base ++ comp) L)) as Erest.
  { change (loop_state s table k (sh_offset sec + size) v (base ++ written)) with (put_output (base ++ written) L).
    unfold comp in *. rewrite zlen_app in Hlen. destruct (Z.eqb_spec (OUTPUT_BUFFER_SIZE - zlen (df_out z d)) OUTPUT_BUFFER_SIZE) as [E0|E0]; cbn [negb].
    - assert (df_out z d = []) as ->; [|by rewrite app_nil_r].
      destruct (df_out z d); [done|]. unfold zlen in E0. cbn [length] in E0. lia.
    - rewrite app_assoc. apply put_bytes; [intros E1; rewrite E1 in E0; by apply E0|].
      rewrite zlen_app. cbn [im_output_room L set_im_input_pos set_im_table]. lia. }
  step_with Erest.
  assert (base ++ comp = (out ++ BIMAGE_ZSPAN) ++ le_bytes 4 0 ++
    (le_bytes 4 20 ++ le_bytes 4 addr ++ le_bytes 4 size ++ comp)) as Hshape
    by (unfold base, head; by rewrite <- !app_assoc).
  assert (zlen (base ++ comp) ≤ im_output_room s) as Hfits by (rewrite zlen_app; lia).
  change (put_output (base ++ comp) L) with (set_im_output (base ++ comp) (zlen (base ++ comp)) L).
  rewrite Hshape in Hfits |- *. rewrite patch_word by (done || exact Hfits).
  exists (z_reset z (df_stream z d)), (sh_offset sec + size), v, comp.
  split; [|split; [exact (trace_reset _ _ _ Hz _ _ _ _ Hend)|split; [lia|exact Hinf]]].
  rewrite Htot. change (zlen comp + sizeof_zspan_section + 8) with (zlen comp + 12 + 8).
  rewrite u32_small by (pose proof (zlen_nonneg comp); lia). replace (zlen comp + 12 + 8) with (zlen comp + 20) by lia.
  unfold zspan_bytes. fold out size addr. rewrite <- !app_assoc. done.
Qed.

Lemma write_fillspan_ok k s table sec :
  im_table s = Some table → table !! k = Some sec → at_end s →
  zlen (im_output s) + 20 ≤ im_output_room s →
  write_fillspan k s = Ok tt (put_output (im_output s ++ fillspan_bytes sec) s).
Proof.
  intros Ht Hk He Hroom.
  assert (write_fillspan k s = write_fillspan k (put_output (im_output s) s)) as -> by (by rewrite put_output_at_end).
  unfold write_fillspan. set (out := im_output s) in *. assert (zlen BIMAGE_FILLSPAN = 4) as Hmagic by done.
  step_with (put_bytes s out BIMAGE_FILLSPAN ltac:(done) ltac:(lia)).
  unfold get_section at 1. rewrite bind_assoc. steps. unfold id. cbn [im_table put_output set_im_output].
  rewrite Ht, bind_assoc. steps. rewrite Hk. steps.
  do 3 (rewrite bind_word by (rewrite !zlen_app, ?zlen_word, Hmagic; lia)).
  rewrite put_word by (rewrite !zlen_app, ?zlen_word, Hmagic; lia).
  unfold fillspan_bytes. by rewrite <- !app_assoc.
Qed.

Lemma section_room_nonneg input sec : section_fits deflateBound input sec → 20 ≤ section_room deflateBound sec.
Proof.
  intros (_ & Hs & _). unfold section_room. pose proof (deflateBound_nonneg (sh_size sec) ltac:(lia)).
  destruct (sh_type sec =? SHT_PROGBITS); lia.
Qed.

(** The loop over the sections: each is taken from the table as it was, since
    only the sizes of the ones before have been used up. *)
Lemma process_sections_ok fuel order : ∀ secs stream s table,
  im_table s = Some table → Forall2 (λ k sec, table !! k = Some sec) order secs → NoDup order →
  at_end s → Forall (section_fits deflateBound (im_input s)) secs →
  Forall (λ sec, sh_size sec + deflateBound (sh_size sec) < Z.of_nat fuel) secs →
  zlen (im_output s) + sections_room deflateBound secs ≤ im_output_room s →
  trace Hz stream Feeding [] [] →
  ∃ s' img, process_sections z fuel order stream s = Ok tt s' ∧ kept s s' ∧ at_end s' ∧
    im_output s' = im_output s ++ img ∧ image_sections inflate (im_input s) secs img ∧
    zlen img ≤ sections_room deflateBound secs.
Proof.
  induction order as [|k order IH]; intros secs stream s table Ht Hall Hnd He Hfit Hfuel Hroom Htr.
  { apply Forall2_nil_inv_l in Hall as ->. exists s, []. split; [done|]. split; [done|]. split; [done|].
    rewrite app_nil_r. split; [done|]. split; [constructor|done]. }
  apply Forall2_cons_inv_l in Hall as (sec & secs' & Hk & Hall & ->).
  apply NoDup_cons in Hnd as [Hnin Hnd]. apply Forall_cons in Hfit as [Hf Hfit]. apply Forall_cons in Hfuel as [Hfu Hfuel].
  cbn [sections_room foldr] in Hroom |- *. fold (sections_room deflateBound secs') in Hroom |- *.
  pose proof (section_room_nonneg _ _ Hf) as Hr20.
  assert (0 ≤ sections_room deflateBound secs') as Hrest.
  { clear -Hfit Hz. induction Hfit as [|x l Hx _ IHl]; cbn [sections_room foldr]; [lia|].
    pose proof (section_room_nonneg _ _ Hx). unfold sections_room in IHl. lia. }
  cbn [process_sections]. unfold get_section at 1. rewrite bind_assoc. steps. unfold id. rewrite Ht, bind_assoc. steps. rewrite Hk. steps.
  destruct (Z.eqb_spec (sh_size sec) 0) as [Hempty|Hne].
  { exists s, []. split; [done|]. split; [done|]. split; [done|]. rewrite app_nil_r. split; [done|].
    split; [by apply image_empty|]. change (zlen []) with 0. lia. }
  destruct (Z.eqb_spec (sh_type sec) SHT_PROGBITS) as [Hty|Hty].
  - destruct (write_zspan_ok fuel k stream s table sec) as (stream' & pos & v & comp & E & Htr' & Hcomp & Hinf); try done; [lia|].
    step_with E.
    set (s1 := set_im_input_pos pos _).
    assert (zlen (zspan_bytes sec comp) = 20 + zlen comp) as Hzl by (unfold zspan_bytes; rewrite !zlen_app, !zlen_word; change (zlen BIMAGE_ZSPAN) with 4; lia).
    unfold section_room in Hroom |- *. rewrite Hty, Z.eqb_refl in Hroom |- *.
    destruct (IH secs' stream' s1 (alter (set_sh_size v) k table)) as (s' & img & E' & Hkept & He' & Hout & Himg & Hlen);
      [done| |done|done|done|done| |done|].
    { apply Forall2_same_length_lookup in Hall as [Hl Hall]. apply Forall2_same_length_lookup. split; [done|].
      intros i j x Hj Hx. rewrite list_lookup_alter_ne; [by apply (Hall i)|].
      intros <-. by apply Hnin, (list_elem_of_lookup_2 _ i). }
    { cbn [im_output im_output_room s1 set_im_input_pos set_im_table put_output set_im_output]. rewrite zlen_app. lia. }
    exists s', (zspan_bytes sec comp ++ img). split; [done|]. split; [by apply (kept_trans _ s1)|]. split; [done|].
    split; [by rewrite Hout, app_assoc|]. split; [by apply image_zspan|]. rewrite zlen_app. lia.
  - assert (sh_type sec = SHT_NOBITS) as Hnb.
    { destruct Hf as [Hl _]. unfold is_loaded in Hl. apply orb_true_iff in Hl as [?%Z.eqb_eq|?%Z.eqb_eq]; done. }
    rewrite Hnb. cbn [Z.eqb Pos.eqb SHT_NOBITS].
    step_with (write_fillspan_ok k s table sec Ht Hk He ltac:(lia)).
    assert (zlen (fillspan_bytes sec) = 20) as Hzl by done.
    destruct (IH secs' stream (put_output (im_output s ++ fillspan_bytes sec) s) table) as (s' & img & E' & Hkept & He' & Hout & Himg & Hlen);
      try done.
    { cbn [im_output im_output_room put_output set_im_output]. rewrite zlen_app. lia. }
    exists s', (fillspan_bytes sec ++ img). split; [done|]. split; [by apply (kept_trans s (put_output (im_output s ++ fillspan_bytes sec) s))|]. split; [done|].
    split; [by rewrite Hout, app_assoc|]. split; [by apply image_fillspan|]. rewrite zlen_app. lia.
Qed.
End sections.

(** ** The section table *)

(** [j] is unsigned and never below 0, so the sort moves nothing. *)
Lemma shift_loop_id fuel addr j key order : shift_loop (S fuel) addr j key order = (j, order).
Proof.
  cbn [shift_loop]. destruct (order !! _); [|done].
  pose proof (u32_range j). destruct (Z.ltb_spec (u32 j) 0); [lia|]. done.
Qed.

Lemma insertion_loop_id n addr : ∀ i order, 0 ≤ i → insertion_loop n addr i order = order.
Proof.
  induction n as [|n IH]; intros i order Hi; [done|]. cbn [insertion_loop].
  destruct (order !! Z.to_nat i) as [key|] eqn:E; [|done].
  rewrite shift_loop_id, list_insert_id by done. apply IH. lia.
Qed.

Lemma sort_sections_id table order : sort_sections table order = order.
Proof. by apply insertion_loop_id. Qed.

Definition loaded_sections (table : list elf_shdr) : list elf_shdr := filter (λ s, is_loaded s = true) table.

Lemma select_sections_ok table :
  Forall2 (λ k sec, table !! k = Some sec) (select_sections table) (loaded_sections table) ∧
  NoDup (select_sections table).
Proof.
  split; [|apply NoDup_filter, NoDup_seq]. unfold select_sections, loaded_sections.
  assert (∀ l pre, Forall2 (λ k sec, (pre ++ l) !! k = Some sec)
    (filter (λ i, is_loaded <$> (pre ++ l) !! i = Some true) (seq (length pre) (length l)))
    (filter (λ s, is_loaded s = true) l)) as H; [|exact (H table [])].
  induction l as [|sec l IH]; intros pre; [constructor|]. cbn [length seq].
  assert ((pre ++ sec :: l) !! length pre = Some sec) as Hk by by apply list_lookup_middle.
  specialize (IH (pre ++ [sec])). rewrite length_app, <- app_assoc in IH. cbn [length app] in IH.
  rewrite Nat.add_1_r in IH. rewrite !filter_cons, Hk. cbn [fmap option_fmap option_map].
  destruct (decide (is_loaded sec = true)) as [Hl|Hl].
  - rewrite decide_True by by rewrite Hl. by constructor.
  - rewrite decide_False by congruence. done.
Qed.

(** ** The whole image *)

(** An executable the program takes: its header, its section table and the
    bytes of the sections it loads lie inside the file. *)
Definition executable (deflateBound : Z → Z) (input : list Z) (h : elf_ehdr) (table : list elf_shdr) : Prop :=
  sizeof_ehdr ≤ zlen input ∧ h = decode_ehdr (dread input 0 sizeof_ehdr) ∧
  elf_magic_ok h = true ∧ elf_flavor_ok h = true ∧
  0 ≤ e_shoff h < 2 ^ 31 ∧ 0 ≤ e_shnum h ∧ 0 < e_shentsize h * e_shnum h < 2 ^ 31 ∧
  e_shoff h + e_shentsize h * e_shnum h ≤ zlen input ∧
  section_headers (Z.to_nat (e_shnum h)) (dread input (e_shoff h) (e_shentsize h * e_shnum h)) = Some table ∧
  Forall (section_fits deflateBound input) (loaded_sections table).

Definition image_bytes (h : elf_ehdr) (img : list Z) : list Z :=
  BIMAGE_MAGIC ++ le_bytes 4 12 ++ le_bytes 4 (e_entry h) ++ img ++ BIMAGE_END.

Lemma read_input_ok s size loc :
  0 ≤ loc < 2 ^ 31 → 0 < size → loc + size ≤ zlen (im_input s) →
  read_input size loc s = Ok (dread (im_input s) loc size) (set_im_input_pos (loc + size) s).
Proof.
  intros Hl Hs Hin. unfold read_input. step_with (fseek_input_ok s loc Hl).
  by step_with (fread_input_ok (set_im_input_pos loc s) size Hs Hin).
Qed.

Lemma get_memory_ok size s : 0 ≤ size → im_mallocs s = [] → get_memory size s = Ok tt s.
Proof.
  intros Hs Hm. unfold get_memory. destruct (Z.ltb_spec size 0); [lia|]. unfold malloc. cbn [get_mallocs image_heap].
  unfold mbind, M_bind. cbn [get_mallocs image_heap]. by rewrite Hm.
Qed.

Lemma read_header_ok deflateBound s h table :
  executable deflateBound (im_input s) h table →
  read_header s = Ok h (set_im_input_pos sizeof_ehdr s).
Proof.
  intros (Hlen & -> & Hm & Hf & _). unfold read_header.
  step_with (read_input_ok s sizeof_ehdr 0 ltac:(lia) ltac:(done) Hlen). by rewrite Hm, Hf.
Qed.

Lemma read_table_ok deflateBound s h table :
  executable deflateBound (im_input s) h table → im_mallocs s = [] →
  ∃ s', read_table h s = Ok tt s' ∧ im_table s' = Some table ∧ im_clean_level s' = 3 ∧
    s' = set_im_input_pos (im_input_pos s') (set_im_table (Some table) (set_im_order (Some []) (set_im_clean_level 3 s))).
Proof.
  intros (_ & _ & _ & _ & Hoff & Hn & Hsz & Hin & Ht & _) Hm. unfold read_table.
  set (size := e_shentsize h * e_shnum h) in *. rewrite (i32_small size) by lia.
  step_with (get_memory_ok size s ltac:(lia) Hm). steps.
  set (s1 := set_im_clean_level 2 (set_im_table (Some []) s)).
  step_with (read_input_ok s1 size (e_shoff h) Hoff ltac:(lia) Hin).
  change (im_input s1) with (im_input s). rewrite Ht. steps.
  rewrite (bind_Ok _ _ _ _ _ (get_memory_ok (4 * e_shnum h) (set_im_table (Some table) (set_im_input_pos (e_shoff h + size) s1)) ltac:(lia) Hm)).
  steps. eexists. split; [done|]. done.
Qed.

(** ** Theorems *)

(** C28: for an executable whose header, section table and section bytes lie
    inside the file, with a level [deflateInit] takes, room for the output,
    memory for every [malloc], and zlib doing what its manual says of the calls
    the program makes, [main] ends with exit code 0 and leaves the image: the magic word, the
    entry point, then in the order of the section table - the sort moves
    nothing - a chunk for each loaded section up to the first empty one, and
    the end mark.  The chunk of a PROGBITS section unpacks to the section's
    bytes, its header holds its length, address and size.  Nothing stays open
    or allocated. *)
Theorem image_holds_sections {z inflate deflateBound} (Hz : zlib_ok z inflate deflateBound) fuel level s h table :
  executable deflateBound (im_input s) h table → im_mallocs s = [] → im_output s = [] → im_output_pos s = 0 →
  -1 ≤ level ≤ 9 →
  16 + sections_room deflateBound (loaded_sections table) ≤ im_output_room s →
  Forall (λ sec, sh_size sec + deflateBound (sh_size sec) < Z.of_nat fuel) (loaded_sections table) →
  ∃ s' img, make_image z fuel level true s = Exit 0 s' ∧
    im_output s' = image_bytes h img ∧ image_sections inflate (im_input s) (loaded_sections table) img ∧
    im_input_open s' = false ∧ im_output_open s' = false ∧ im_table s' = None ∧ im_order s' = None ∧
    im_filename_malloced s' = false.
Proof.
  intros Hex Hm Ho Hp Hlevel Hroom Hfuel. unfold make_image. steps.
  step_with (read_header_ok deflateBound (set_im_clean_level 1 s) h table Hex).
  destruct (read_table_ok deflateBound (set_im_input_pos sizeof_ehdr (set_im_clean_level 1 s)) h table Hex Hm)
    as (s1 & E1 & Ht1 & _ & Hs1). step_with E1. steps. unfold id. rewrite Ht1. steps. cbn [negb]. steps.
  rewrite sort_sections_id. set (order := select_sections table).
  set (s2 := set_im_clean_level 4 (set_im_output_open true (set_im_order (Some order) s1))).
  assert (im_output s2 = [] ∧ im_output_pos s2 = 0 ∧ im_output_room s2 = im_output_room s ∧ im_input s2 = im_input s ∧
    im_table s2 = Some table ∧ im_clean_level s2 = 4) as (Ho2 & Hp2 & Hr2 & Hi2 & Ht2 & Hc2).
  { unfold s2. rewrite Hs1. done. }
  assert (s2 = put_output [] s2) as Hput by (unfold put_output; clear -Ho2 Hp2; destruct s2; cbn in *; by subst).
  rewrite Hput. destruct Hex as (_ & _ & _ & _ & _ & _ & _ & _ & _ & Hfit).
  destruct (select_sections_ok table) as [Hall Hnd]. set (secs := loaded_sections table) in *.
  assert (0 ≤ sections_room deflateBound secs) as Hr0.
  { clear -Hfit Hz. induction Hfit as [|x l Hx _ IHl]; cbn [sections_room foldr]; [lia|].
    pose proof (section_room_nonneg Hz _ _ Hx). unfold sections_room in IHl. lia. }
  assert (zlen BIMAGE_MAGIC = 4 ∧ zlen [] = 0) as [Hz4 Hz0] by done.
  step_with (put_bytes s2 [] BIMAGE_MAGIC ltac:(done) ltac:(lia)).
  do 2 (rewrite bind_word by (rewrite !zlen_app, ?zlen_word, Hz4, Hz0; lia)).
  set (out := (([] ++ BIMAGE_MAGIC) ++ _) ++ _).
  assert (zlen out = 12) as Hout by done.
  destruct (process_sections_ok Hz fuel order secs (z_init z level) (put_output out s2) table)
    as (s3 & img & E3 & Hkept & He3 & Hout3 & Himg & Hlen); try done.
  { change (im_input (put_output out s2)) with (im_input s2). by rewrite Hi2. }
  { cbn [im_output im_output_room put_output set_im_output]. rewrite Hout, Hr2. lia. }
  { by apply trace_init. }
  step_with E3. destruct Hkept as (Hk1 & Hk2 & _ & _ & _ & Hk6).
  step_with (write_output_end s3 BIMAGE_END He3 ltac:(done) ltac:(rewrite Hout3, Hk2; cbn [im_output im_output_room put_output set_im_output]; rewrite zlen_app, Hout, Hr2; change (zlen BIMAGE_END) with 4; lia)).
  unfold clean. steps. change (im_clean_level (put_output _ s3)) with (im_clean_level s3). rewrite Hk6.
  change (im_clean_level (put_output out s2)) with (im_clean_level s2). rewrite Hc2.
  do 2 eexists. split; [done|]. split; [|split; [by rewrite <- Hi2|done]].
  cbn. rewrite Hout3. unfold image_bytes, out. cbn [im_output put_output set_im_output]. by rewrite <- !app_assoc.
Qed.

(** C29: however [main] ends after it opened its input - done, out of memory,
    unreadable or wrong input, an output it cannot create or write, an error
    of zlib - both files are closed and the section table, the order and the
    output name are freed; it never returns past [clean]. *)
Theorem exits_release_all z fuel level can_create s :
  im_input_open s = true → im_output_open s = false → im_table s = None → im_order s = None →
  match make_image z fuel level can_create s with
  | Ok _ _ => False
  | Exit _ s' =>
      im_input_open s' = false ∧ im_output_open s' = false ∧ im_table s' = None ∧ im_order s' = None ∧
      im_filename_malloced s' = false
  | Stuck | NoFuel => True
  end.
Proof.
  intros Hi Ho Ht Hor. pose proof (make_image_raises z fuel level can_create s Hi Ho Ht Hor) as H.
  destruct (make_image z fuel level can_create s); try done. unfold released in H. tauto.
Qed.

(** ** A sample *)

(** A zlib that keeps its input until it is told to finish, and gives it out
    as it is. *)
Definition storing_deflate (kept buf : list Z) (avail : Z) (finish : bool) : Z * Z * list Z * list Z :=
  let kept := kept ++ buf in
  if finish then
    (if zlen kept <=? avail then Z_STREAM_END else 0, zlen buf, take (Z.to_nat avail) kept, drop (Z.to_nat avail) kept)
  else (0, zlen buf, [], kept).
Definition storing_zlib : zlib := Zlib (list Z) (λ _, []) storing_deflate (λ _, []).

Definition storing_trace (kept : list Z) (p : phase) (i o : list Z) : Prop :=
  i = o ++ kept ∧ match p with Feeding => o = [] | Finishing rest => rest = [] | Ended => True end.

Lemma storing_zlib_ok : zlib_ok storing_zlib Some (λ n, n).
Proof.
  refine (ZlibOk storing_zlib Some (λ n, n) storing_trace _ _ _ _); try done.
  - intros st p i o n [-> Hp] Hn. pose proof (zlen_nonneg st). destruct p as [|rest|]; cbn [may_total] in Hn;
      rewrite ?zlen_app in *; [lia|pose proof (zlen_nonneg rest); lia|lia].
  - intros kept p i o buf avail finish [-> Hp] Hmay Havail Hbuf. cbn [z_deflate storing_zlib storing_deflate].
    unfold storing_deflate. pose proof (zlen_nonneg buf).
    assert (take (Z.to_nat (zlen buf)) buf = buf ∧ drop (Z.to_nat (zlen buf)) buf = []) as [Etake Edrop]
      by (unfold zlen; rewrite Nat2Z.id, firstn_all, drop_all; done).
    assert (take (Z.to_nat avail) (kept ++ buf) ++ drop (Z.to_nat avail) (kept ++ buf) = kept ++ buf) as Hsplit by apply take_drop.
    assert (p = Feeding ∧ o = [] ∨ finish = true) as Hcase by (destruct p; [by left|right; apply Hmay|done]).
    destruct finish.
    + rewrite Etake, Edrop. split; [lia|]. split; [unfold zlen; rewrite length_take; lia|].
      destruct (Z.leb_spec (zlen (kept ++ buf)) avail) as [Hall|Hpart].
      * right. do 3 (split; [done|]). rewrite take_ge, drop_ge by (unfold zlen in *; lia).
        split; [split; [by rewrite app_nil_r, app_assoc|done]|]. by rewrite app_assoc.
      * left. split; [done|]. split; [split; [by rewrite <- !app_assoc, Hsplit|done]|]. right.
        destruct (kept ++ buf) as [|x l]; [change (zlen []) with 0 in Hpart; lia|].
        assert (Z.to_nat avail = S (Z.to_nat (avail - 1))) as -> by lia. done.
    + destruct Hcase as [[-> ->]|]; [|done]. cbn [may_deflate] in Hmay. rewrite Etake.
      split; [lia|]. split; [change (zlen []) with 0; lia|]. left. split; [done|]. split; [done|]. left.
      destruct Hmay as [Hb|]; [|done]. destruct buf; [done|]. unfold zlen. cbn [length]. lia.
Qed.

Definition sample_shdr (type addr offset size : Z) : list Z :=
  le_bytes 4 0 ++ le_bytes 4 type ++ le_bytes 4 0 ++ le_bytes 4 addr ++ le_bytes 4 offset ++
    le_bytes 4 size ++ replicate 16 0.

(** A header, five bytes of code and three section headers: the null one, the
    code, sixteen bytes to clear. *)
Definition sample_elf : list Z :=
  [127; 69; 76; 70; 1; 1; 1] ++ replicate 9 0 ++ le_bytes 2 2 ++ le_bytes 2 3 ++ le_bytes 4 1 ++
    le_bytes 4 0x100000 ++ le_bytes 4 0 ++ le_bytes 4 57 ++ le_bytes 4 0 ++ le_bytes 2 52 ++
    le_bytes 4 0 ++ le_bytes 2 40 ++ le_bytes 2 3 ++ le_bytes 2 0 ++
  [10; 20; 30; 40; 50] ++
  sample_shdr 0 0 0 0 ++ sample_shdr 1 0x100000 52 5 ++ sample_shdr 8 0x101000 0 16.

Definition sample_image_state : image_state :=
  ImageState sample_elf 0 true [] 0 1000 false [] 0 None None true.

Definition sample_sections : list elf_shdr :=
  [Shdr 0 0 0 0; Shdr 1 0x100000 52 5; Shdr 8 0x101000 0 16].

Lemma sample_executable :
  executable (λ n, n) sample_elf (decode_ehdr (dread sample_elf 0 sizeof_ehdr)) sample_sections.
Proof.
  set (h := decode_ehdr _). vm_compute in h. unfold executable.
  split; [by vm_compute|]. split; [by vm_compute|]. do 2 (split; [done|]). split; [by split|]. split; [done|]. split; [by split|].
  split; [by vm_compute|]. split; [by vm_compute|].
  apply Forall_cons; split; [|apply Forall_cons; split; [|by apply Forall_nil]].
  - split; [done|]. split; [done|]. intros _. split; [done|]. split; [by vm_compute|done].
  - split; [done|]. split; [done|]. discriminate.
Qed.

Lemma image_holds_sections_witness :
  ∃ s' img, make_image storing_zlib 100 6 true sample_image_state = Exit 0 s' ∧
    im_output s' = image_bytes (decode_ehdr (dread sample_elf 0 sizeof_ehdr)) img ∧
    im_input_open s' = false.
Proof.
  destruct (image_holds_sections storing_zlib_ok 100 6 sample_image_state
    (decode_ehdr (dread sample_elf 0 sizeof_ehdr)) sample_sections) as (s' & img & E & Hout & _ & Hi & _).
  - exact sample_executable.
  - done.
  - done.
  - done.
  - lia.
  - by vm_compute.
  - repeat (apply Forall_cons; split; [by vm_compute|]). by apply Forall_nil.
  - exists s', img. split; [exact E|]. split; [exact Hout|exact Hi].
Defined.

(** The content of the sample's image. *)
Example sample_image :
  match make_image storing_zlib 100 6 true sample_image_state with
  | Exit 0 s' => im_output s' = image_bytes (decode_ehdr (dread sample_elf 0 sizeof_ehdr))
      (zspan_bytes (Shdr 1 0x100000 52 5) [10; 20; 30; 40; 50] ++ fillspan_bytes (Shdr 8 0x101000 0 16))
  | _ => False
  end.
Proof. by vm_compute. Qed.

(** The output cannot be created. *)
Lemma exits_release_all_witness :
  ∃ s', make_image storing_zlib 100 6 false sample_image_state = Exit (-1) s' ∧ im_input_open s' = false.
Proof.
  assert (∃ s', make_image storing_zlib 100 6 false sample_image_state = Exit (-1) s') as [s' E]
    by (eexists; vm_compute; reflexivity).
  pose proof (exits_release_all storing_zlib 100 6 false sample_image_state eq_refl eq_refl eq_refl eq_refl) as H.
  rewrite E in H. exists s'. split; [exact E|apply H].
Defined.
