(* ===== verification/Instboot.v ===== *)
(** * udbfs-install-bootloader

    [udbfstools/udb-instboot.c]: a client of the UDBFS library. *)
From S2P Require Import Prelude Posix Bitmap LinkList UdbfsTypes BlockLoad.
From S2P Require Import InodeBlocks InodeIO Mount.
Local Open Scope Z_scope.

Definition BUFFER_SIZE : Z := 4096.

(** The stream of the boot loader file: what is left to read, and whether
    an error waits behind it instead of the end of the file. *)
Record stream : Type := Stream {
  st_rest : list Z;
  st_failing : bool
}.

(** [fread( buffer, 1, BUFFER_SIZE, source )]: a short count meets the end
    or the error. *)
Definition fread (s : stream) : list Z * stream :=
  (take (Z.to_nat BUFFER_SIZE) (st_rest s),
   Stream (drop (Z.to_nat BUFFER_SIZE) (st_rest s)) (st_failing s)).

(** Was the end of the data met by the last read of [n] bytes? *)
Definition hit_end (n : Z) : bool := n <? BUFFER_SIZE.

(** [do ... while( ! feof( source ) )]: the value of [return_value]. *)
Fixpoint copy_source (fuel : nat) (target : loc) (source : stream) : M world Z :=
  match fuel with
  | O => no_fuel
  | S fuel =>
      let '(buffer, source) := fread source in
      let i := zlen buffer in
      written ← (if negb (i =? 0) then
                   n ← udbfs_write_to_inode (Some target) buffer i;
                   mret (u32 n =? i)
                 else mret true);
      if negb (written : bool) then mret (-1)
      else if hit_end i && st_failing source then mret (-1)
      else if negb (hit_end i) then copy_source fuel target source
      else mret 0
  end.

(** The existing boot loader, or a new file registered as it. *)
Definition open_target : M world (option loc) :=
  m ← gets w_mnt;
  if negb (m_boot_loader_inode m =? 0) then udbfs_open_inode (m_boot_loader_inode m)
  else
    target ← udbfs_create_inode;
    match target with
    | None => mret None
    | Some l =>
        n ← get_inode l;
        udbfs_set_boot_loader_inode (i_id n);;
        mret (Some l)
    end.

(** [main] after [udbfs_mount]. *)
Definition install_on (device : loc) (source : stream) : M world Z :=
  target ← open_target;
  match target with
  | None => udbfs_unmount (Some device);; mret (-1)
  | Some l =>
      ok ← malloc;
      if negb ok then udbfs_unmount (Some device);; mret (-1) else
      return_value ← copy_source (S (length (st_rest source))) l source;
      udbfs_close_inode (Some l);;
      udbfs_unmount (Some device);;
      mret return_value
  end.

(** [source] is [None] when the file cannot be opened. *)
Definition instboot_main (argc : Z) (source : option stream) : M world Z :=
  if negb (argc =? 3) then mret (-1) else
  match source with
  | None => mret (-1)
  | Some source =>
      device ← udbfs_mount;
      match device with
      | None => mret (-1)
      | Some device => install_on device source
      end
  end.
