(* ===== verification/InstbootSpec.v ===== *)
(** * udb-instboot: the boot loader on the volume

    The program on top of the UDBFS library: what it has written when it
    leaves the volume to [udbfs_unmount]. *)
From S2P Require Import Prelude Posix Bitmap LinkList UdbfsTypes BlockLoad.
From S2P Require Import InodeBlocks InodeIO Mount Layout Content Paths ExtendProofs Files Persist.
From S2P Require Import Sample UdbfsSpec Instboot.
Local Open Scope Z_scope.

(** ** Copying the source *)

(** A write at the end of the file, with room to spare. *)
Lemma append_ok Ln w l n ly fs q data room :
  file_ok Ln w l n ly fs → i_cursor n = i_size n → zlen data ≤ room → zlen data < 2 ^ 31 →
  i_size n + room ≤ bsize Ln * (zlen (ly_data ly) + Z.of_nat q) →
  (4 * q ≤ length fs)%nat → i_size n + room ≤ bsize Ln * Z.of_nat (max_blocks Ln) →
  ∃ w' n' ly' fs' q', udbfs_write_to_inode (Some l) data (zlen data) w = Ok (zlen data) w' ∧
    file_ok Ln w' l n' ly' fs' ∧ write_rel l w w' ∧ grows ly ly' fs fs' ∧
    i_cursor n' = i_size n' ∧ i_size n' = i_size n + zlen data ∧ i_physical_offset n' = i_physical_offset n ∧
    i_size n + room ≤ bsize Ln * (zlen (ly_data ly') + Z.of_nat q') ∧ (4 * q' ≤ length fs')%nat ∧
    length (dev_bytes w') = length (dev_bytes w) ∧
    content Ln (dev_bytes w') (ly_data ly') (i_size n') = content Ln (dev_bytes w) (ly_data ly) (i_size n) ++ data.
Proof.
  intros Hf He Hr Hl Hq Hq4 Hm. pose proof (zlen_nonneg data). pose proof (fo_cursor _ _ _ _ _ _ Hf).
  destruct (write_loop_room Ln l data (S (Z.to_nat (zlen data))) w n ly fs q (zlen data) room 0 Hf)
    as (w' & n' & ly' & fs' & q' & E & Hf' & Hw & Hg & Hc & Hs & Hp & Hq' & Hq4' & [Hlen _] & Hct); try lia.
  exists w', n', ly', fs', q'. split; [exact E|]. split; [done|]. split; [done|]. split; [done|].
  split; [lia|]. split; [lia|]. split; [done|]. split; [lia|]. split; [done|]. split; [done|].
  rewrite Hct, dread_all, He. apply overwrite_end. symmetry. apply zlen_content.
  - apply fo_ids in Hf. by apply Forall_app in Hf as [? _].
  - apply fo_blocks in Hf. lia.
Qed.

(** The whole source ends up behind what the file held. *)
Lemma copy_source_ok Ln l fuel : ∀ rest w n ly fs q,
  file_ok Ln w l n ly fs → i_cursor n = i_size n → (length rest < fuel)%nat →
  i_size n + zlen rest ≤ bsize Ln * (zlen (ly_data ly) + Z.of_nat q) →
  (4 * q ≤ length fs)%nat → i_size n + zlen rest ≤ bsize Ln * Z.of_nat (max_blocks Ln) →
  ∃ w' n' ly' fs', copy_source fuel l (Stream rest false) w = Ok 0 w' ∧
    file_ok Ln w' l n' ly' fs' ∧ write_rel l w w' ∧ grows ly ly' fs fs' ∧
    i_size n' = i_size n + zlen rest ∧ i_physical_offset n' = i_physical_offset n ∧
    length (dev_bytes w') = length (dev_bytes w) ∧
    content Ln (dev_bytes w') (ly_data ly') (i_size n') = content Ln (dev_bytes w) (ly_data ly) (i_size n) ++ rest.
Proof.
  induction fuel as [|fuel IH]; intros rest w n ly fs q Hf He Hfu Hq Hq4 Hm; [lia|].
  cbn [copy_source fread st_rest st_failing]. change (Z.to_nat BUFFER_SIZE) with 4096%nat.
  set (buffer := take 4096 rest).
  assert (zlen buffer = Z.min 4096 (zlen rest)) as Hb by (unfold buffer, zlen; rewrite length_take; lia).
  assert (zlen rest = zlen buffer + zlen (drop 4096 rest)) as Hsplit
    by (rewrite <- zlen_app; unfold buffer; by rewrite take_drop).
  destruct (Z.eqb_spec (zlen buffer) 0) as [H0|Hne]; cbn [negb].
  { assert (rest = []) as -> by (destruct rest; [done|unfold zlen in Hb, H0; cbn [length] in Hb; lia]).
    rewrite bind_ret. cbn [negb]. rewrite H0. change (hit_end 0) with true. cbn [negb andb].
    exists w, n, ly, fs. split; [done|]. split; [done|]. split; [eapply write_rel_refl, (fo_inode _ _ _ _ _ _ Hf)|].
    split; [apply grows_refl|]. change (zlen []) with 0. rewrite app_nil_r. split; [lia|done]. }
  pose proof (zlen_nonneg buffer). pose proof (zlen_nonneg (drop 4096 rest)).
  destruct (append_ok Ln w l n ly fs q buffer (zlen rest) Hf He)
    as (w1 & n1 & ly1 & fs1 & q1 & E & Hf1 & Hw1 & Hg1 & He1 & Hs1 & Hp1 & Hq1 & Hq41 & Hl1 & Hct1); try lia.
  rewrite bind_assoc. step_with E. steps. rewrite (u32_small (zlen buffer)), Z.eqb_refl by lia. cbn [negb].
  rewrite andb_false_r. unfold hit_end, BUFFER_SIZE. destruct (Z.ltb_spec (zlen buffer) 4096) as [Hend|Hmore]; cbn [negb].
  - assert (buffer = rest) as Hall by (unfold buffer; apply take_ge; unfold zlen in *; lia).
    exists w1, n1, ly1, fs1. rewrite <- Hall. by split_and!.
  - destruct (IH (drop 4096 rest) w1 n1 ly1 fs1 q1 Hf1 He1) as
      (w2 & n2 & ly2 & fs2 & E2 & Hf2 & Hw2 & Hg2 & Hs2 & Hp2 & Hl2 & Hct2); try lia.
    { unfold zlen in *. rewrite length_drop. lia. }
    exists w2, n2, ly2, fs2. split; [done|]. split; [done|]. split; [by eapply write_rel_trans|].
    split; [by eapply grows_trans|]. split; [lia|]. split; [congruence|]. split; [congruence|].
    rewrite Hct2, Hct1, <- app_assoc. unfold buffer. by rewrite take_drop.
Qed.

(** ** Theorems *)

(** C27: on a volume without a boot loader that has a free inode and room,
    [main] creates a file, registers it as the boot loader, copies the whole
    source into it and closes it before it unmounts the volume and returns 0:
    then the inode's slot of the table and its index blocks are on the device,
    and the file's content is the source. *)
Theorem installs_boot_loader Ln w fs id ids q data device :
  let off := m_inode_table_offset (w_mnt w) + 64 * id in
  mount_ok Ln w fs (id :: ids) [] → m_boot_loader_inode (w_mnt w) = 0 →
  0 < id < m_inode_count (w_mnt w) → 0 ≤ m_inode_table_offset (w_mnt w) → off < 2 ^ 63 →
  slot_free Ln off fs (dev_bytes w) →
  zlen data ≤ bsize Ln * Z.of_nat q → (4 * q ≤ length fs)%nat →
  zlen data ≤ bsize Ln * Z.of_nat (max_blocks Ln) → zlen data < 2 ^ 64 →
  ∃ w1 ly, install_on device (Stream data false) w = (udbfs_unmount (Some device);; mret 0) w1 ∧
    m_boot_loader_inode (w_mnt w1) = id ∧ w_inodes w1 !! w_next_loc w = None ∧
    disk_layout Ln (dev_bytes w1) off (zlen data) ly ∧
    content Ln (dev_bytes w1) (ly_data ly) (zlen data) = data.
Proof.
  intros off Hmo Hbl Hid Hto Hoff Hslot Hq Hq4 Hmax Hdata.
  destruct (create_inode_ok Ln w fs id ids [] Hmo ltac:(lia) Hoff Hto)
    as (w1 & n1 & E1 & Hf1 & Hi1 & Hs1 & Hc1 & Hp1 & Hmo1 & Hd1 & Hcount).
  set (l := w_next_loc w) in *.
  set (w2 := set_w_mnt (set_m_boot_loader_inode id (w_mnt w1)) w1).
  assert (open_target w = Ok (Some l) w2) as Eo.
  { unfold open_target. steps. rewrite Hbl. cbn [Z.eqb negb]. step_with E1.
    step_with (get_inode_ok l n1 w1 (fo_inode _ _ _ _ _ _ Hf1)). rewrite Hi1.
    unfold udbfs_set_boot_loader_inode. rewrite bind_assoc. steps. rewrite Hcount.
    destruct (Z.ltb_spec id (m_inode_count (w_mnt w))); [|lia]. rewrite bind_assoc. by steps. }
  assert (file_ok Ln w2 l n1 empty_layout fs) as Hf2.
  { destruct Hf1 as [[[] Hm] Hd Hal Hn Hly Hok Hnd Hids Hc Hb]. split; try done. }
  destruct (copy_source_ok Ln l (S (length data)) data w2 n1 empty_layout fs q Hf2) as
    (w3 & n3 & ly & fs3 & E3 & Hf3 & Hw3 & Hg3 & Hs3 & Hp3 & Hl3 & Hct3); try done; try lia.
  { rewrite Hs1. change (zlen (ly_data empty_layout)) with 0. lia. }
  assert (dll (w_ilinks w3) (m_opened_inodes (w_mnt w3)) [l]) as Hdll.
  { destruct Hw3 as (? & ? & ? & ? & ->). exact (mo_opened _ _ _ _ _ Hmo1). }
  assert (m_boot_loader_inode (w_mnt w3) = id ∧ w_mallocs w2 = []) as [Hbl3 Hm2].
  { destruct Hw3 as (? & ? & ? & ? & ->). split; [done|]. by destruct Hf2 as [[_ ?]]. }
  assert (length (dev_bytes w3) = length (dev_bytes w)) as Hlen by (by rewrite Hl3; cbn; rewrite Hd1).
  assert (∀ x, x ∈ ly_data ly ++ ly_meta ly → x ∈ fs) as Hin.
  { intros x Hx. destruct Hg3 as [_ Hperm]. cbn in Hperm. rewrite <- Hperm. rewrite app_assoc. apply elem_of_app. by left. }
  pose proof (geo_links _ _ (env_geo _ _ (fo_env _ _ _ _ _ _ Hf3))) as HLn.
  assert (i_physical_offset n3 = off) as Hp by (by rewrite Hp3, Hp1).
  assert (i_size n3 = zlen data) as Hs by lia.
  destruct Hslot as (Ho1 & Ho2 & Ho3).
  destruct (close_inode_ok Ln l HLn w3 n3 ly fs3 [] Hf3 Hdll) as (dev' & pos & root' & links' & E4 & _ & Hdl & Hfr).
  { rewrite Hp. split; [done|]. split; [unfold zlen in *; lia|]. intros p Hpr Hx. by apply (Ho3 p Hpr), Hin. }
  { lia. }
  rewrite Hp, Hs in *.
  set (w4 := set_w_ilinks _ _) in E4. exists w4, ly. split; [|split; [done|split; [apply lookup_delete_eq|split; [exact Hdl|]]]].
  - unfold install_on. step_with Eo. step_with (malloc_ok w2 Hm2). cbn [negb st_rest]. step_with E3. by step_with E4.
  - change (dev_bytes w4) with dev'.
    pose proof (fo_ids _ _ _ _ _ _ Hf3) as Hids. pose proof (fo_nodup _ _ _ _ _ _ Hf3) as Hnd.
    rewrite (content_same Ln HLn (dev_bytes w3) dev' (ly_data ly) (zlen data)).
    + rewrite Hct3, Hs1. done.
    + apply Forall_app in Hids as [Hids _]. eapply Forall_impl; [exact Hids|]. intros x [? _]. lia.
    + apply (frame_but_blocks Ln (ly_meta ly) _ off sizeof_inode); [done| |].
      * intros x Hx Hm. apply NoDup_app in Hnd as (_ & Hnd & _). apply (Hnd x Hx). apply elem_of_app. by left.
      * intros p Hpr Hx. apply (Ho3 p Hpr), Hin, elem_of_app. by left.
Qed.

(** The sample volume takes a boot loader of 200 bytes. *)
Lemma installs_boot_loader_witness :
  let data := sample_data 200 in
  ∃ w1 ly, install_on 1%positive (Stream data false) sample_mounted = (udbfs_unmount (Some 1%positive);; mret 0) w1 ∧
    content 16 (dev_bytes w1) (ly_data ly) 200 = data.
Proof.
  intros data.
  destruct (installs_boot_loader 16 sample_mounted sample_free 1 (tail (free_bits sample_inode_bitmap)) 4 data 1%positive)
    as (w1 & ly & E & _ & _ & _ & Hc).
  - exact sample_mounted_ok.
  - by vm_compute.
  - by vm_compute.
  - by vm_compute.
  - by vm_compute.
  - assert (m_inode_table_offset (w_mnt sample_mounted) + 64 * 1 + 64 ≤ 4096) as Hend by by vm_compute.
    split; [by vm_compute|]. split; [by vm_compute|]. intros p Hp Hin.
    assert (Forall (λ x, 32 ≤ x) sample_free) as Hall by (apply (bool_decide_unpack _); by vm_compute).
    pose proof (proj1 (Forall_forall _ _) Hall _ Hin) as Hge. change (bsize 16) with 128 in Hge.
    unfold sizeof_inode in Hp. cbn beta in Hge. Z.div_mod_to_equations. lia.
  - by vm_compute.
  - vm_compute. lia.
  - by vm_compute.
  - by vm_compute.
  - exists w1, ly. split; [exact E|exact Hc].
Defined.
