(* ===== verification/CSort.v ===== *)
(** * qsort and bsearch of the C library

    [uuu/lib/c/lib/qsort.c] and [bsearch.c].  The array is a list of
    elements, an element the list of its [size] bytes; pointers into the
    array are element numbers.  [compar] is a parameter: the comparison
    function of the caller.  An access outside of the array is [None]. *)
From S2P Require Import Prelude.
Local Open Scope Z_scope.

Definition element : Type := list Z.

Section qsort.
Context (compar : element → element → Z).
Implicit Types a : list element.

(** [idx(base,size,x)], dereferenced *)
Definition idx a (x : Z) : option element :=
  if x <? 0 then None else a !! Z.to_nat x.

(** The byte loop of [iswap]. *)
Fixpoint iswap (x y : element) : option (element * element) :=
  match x, y with
  | [], [] => Some ([], [])
  | b :: x, c :: y => r ← iswap x y; Some (c :: r.1, b :: r.2)
  | _, _ => None
  end.

Definition swap a (i j : Z) : option (list element) :=
  x ← idx a i;
  y ← idx a j;
  r ← iswap x y;
  Some (<[Z.to_nat j := r.2]> (<[Z.to_nat i := r.1]> a)).

(** [for (i=1; i<nmemb; ++i)]: the smallest element of [nmemb] from
    [base] on. *)
Fixpoint isort_min (n : nat) a (tmp min : Z) : option Z :=
  match n with
  | O => Some min
  | S n =>
      x ← idx a tmp;
      y ← idx a min;
      isort_min n a (tmp + 1) (if compar x y <? 0 then tmp else min)
  end.

(** [while (nmemb>1)] *)
Fixpoint isort_loop (nmemb : nat) a (base : Z) : option (list element) :=
  match nmemb with
  | O => Some a
  | S n =>
      if (0 <? n)%nat then
        min ← isort_min n a (base + 1) base;
        a ← swap a min base;
        isort_loop n a (base + 1)
      else Some a
  end.

Definition isort a (base nmemb : Z) : option (list element) :=
  isort_loop (Z.to_nat nmemb) a base.

(** [while (compar(idx(base,size,++i),v)<0) ;] *)
Fixpoint scan_up (fuel : nat) a (i : Z) (v : element) : option Z :=
  match fuel with
  | O => None
  | S fuel =>
      x ← idx a (i + 1);
      if compar x v <? 0 then scan_up fuel a (i + 1) v else Some (i + 1)
  end.

(** [while (compar(idx(base,size,--j),v)>0) if (j==l) break;] *)
Fixpoint scan_down (fuel : nat) a (l j : Z) (v : element) : option Z :=
  match fuel with
  | O => None
  | S fuel =>
      x ← idx a (j - 1);
      if 0 <? compar x v
      then if j - 1 =? l then Some (j - 1) else scan_down fuel a l (j - 1) v
      else Some (j - 1)
  end.

Record cursors : Type := Cursors { q_i : Z; q_j : Z; q_p : Z; q_q : Z }.

(** [for (;;)]: the partition around [v], the element at [r]. *)
Fixpoint partition_loop (fuel : nat) a (l r : Z) (c : cursors)
    : option (list element * cursors) :=
  match fuel with
  | O => None
  | S fuel =>
      v ← idx a r;
      i ← scan_up (S (length a)) a (q_i c) v;
      j ← scan_down (S (length a)) a l (q_j c) v;
      if j <=? i then Some (a, Cursors i j (q_p c) (q_q c)) else
      a ← swap a i j;
      v ← idx a r;
      x ← idx a i;
      s ← (if compar x v =? 0
           then (λ a, (a, q_p c + 1)) <$> swap a (q_p c + 1) i else Some (a, q_p c));
      let '(a, p) := s in
      v ← idx a r;
      y ← idx a j;
      s ← (if compar y v =? 0
           then (λ a, (a, q_q c - 1)) <$> swap a (q_q c - 1) j else Some (a, q_q c));
      let '(a, q) := s in
      partition_loop fuel a l r (Cursors i j p q)
  end.

(** [for (k=l; k<p; ++k,--j) swap(base,size,k,j);] *)
Fixpoint move_left (n : nat) a (k j : Z) : option (list element * Z) :=
  match n with
  | O => Some (a, j)
  | S n => a ← swap a k j; move_left n a (k + 1) (j - 1)
  end.

(** [for (k=r-1; k>q; --k,++i) swap(base,size,k,i);] *)
Fixpoint move_right (n : nat) a (k i : Z) : option (list element * Z) :=
  match n with
  | O => Some (a, i)
  | S n => a ← swap a k i; move_right n a (k - 1) (i + 1)
  end.

(** The partition and the gathering of the elements equal to the pivot:
    the array, and the ends of the two parts left to sort. *)
Definition partition a (l r : Z) : option (list element * Z * Z) :=
  s ← partition_loop (S (length a)) a l r (Cursors (l - 1) r (l - 1) r);
  let '(a, c) := s in
  a ← swap a (q_i c) r;
  s ← move_left (Z.to_nat (q_p c - l)) a l (q_i c - 1);
  let '(a, j) := s in
  s ← move_right (Z.to_nat (r - 1 - q_q c)) a (r - 1) (q_i c + 1);
  let '(a, i) := s in
  Some (a, i, j).

Fixpoint Qsort (fuel : nat) a (l r : Z) : option (list element) :=
  match fuel with
  | O => None
  | S fuel =>
      if r - l <? 10 then isort a l (r - l + 1) else
      s ← partition a l r;
      let '(a, i, j) := s in
      a ← (if l <? j then Qsort fuel a l j else Some a);
      if i <? r then Qsort fuel a i r else Some a
  end.

(** [nmemb-1] is a [size_t] passed as a [long]. *)
Definition qsort a : option (list element) :=
  let nmemb := Z.of_nat (length a) in
  Qsort (S (length a)) a 0 (i32 (u32 (nmemb - 1))).

(** [bsearch]: the number of the element found, [None] behind NULL. *)
Fixpoint bsearch_loop (fuel : nat) (key : element) a (base nmemb : Z) : option (option Z) :=
  match fuel with
  | O => None
  | S fuel =>
      if nmemb =? 0 then Some None else
      let m := nmemb / 2 in
      p ← idx a (base + m);
      let tmp := compar key p in
      if tmp <? 0 then bsearch_loop fuel key a base m
      else if 0 <? tmp then bsearch_loop fuel key a (base + m + 1) (nmemb - (m + 1))
      else Some (Some (base + m))
  end.

Definition bsearch (key : element) a : option (option Z) :=
  bsearch_loop (S (length a)) key a 0 (Z.of_nat (length a)).
End qsort.
