(* ===== verification/CSortProofs.v ===== *)
(** * Sorting in place

    The array of [qsort] through its element numbers: what an exchange
    changes, which numbers a loop leaves alone, and the invariants of the
    selection sort and of the partition. *)
From S2P Require Import Prelude CSort.
Local Open Scope Z_scope.

Implicit Types a : list element.

(** What the caller's comparison function has to be: a total preorder. *)
Class TotalCompare (compar : element → element → Z) : Prop := {
  cmp_swap : ∀ x y, 0 < compar x y ↔ compar y x < 0;
  cmp_trans : ∀ x y z, compar x y ≤ 0 → compar y z ≤ 0 → compar x z ≤ 0
}.

(** ** Element numbers *)

Definition len a : Z := Z.of_nat (length a).

Lemma idx_Some a k : 0 ≤ k < len a → ∃ x, idx a k = Some x.
Proof.
  unfold idx, len. intros Hk. replace (k <? 0) with false by lia.
  apply lookup_lt_is_Some_2. lia.
Qed.

Lemma idx_range a k x : idx a k = Some x → 0 ≤ k < len a.
Proof.
  unfold idx, len. destruct (Z.ltb_spec k 0); [done|]. intros Hx%lookup_lt_Some. lia.
Qed.

Lemma idx_nat a (k : nat) : idx a (Z.of_nat k) = a !! k.
Proof. unfold idx. destruct (Z.ltb_spec (Z.of_nat k) 0); [lia|]. by rewrite Nat2Z.id. Qed.

Lemma idx_elem a k x : idx a k = Some x → x ∈ a.
Proof. unfold idx. case_match; [done|]. apply list_elem_of_lookup_2. Qed.

Lemma iswap_ok x y : length x = length y → iswap x y = Some (y, x).
Proof.
  revert y; induction x as [|b x IH]; intros [|c y] Hl; try done.
  simpl. by rewrite IH by (simpl in Hl; lia).
Qed.

(** Every element has the size the caller passed. *)
Definition sized (sz : nat) a : Prop := Forall (λ x, length x = sz) a.

Lemma swap_perm (i j : nat) x y a :
  a !! i = Some x → a !! j = Some y → <[j := x]> (<[i := y]> a) ≡ₚ a.
Proof.
  assert (∀ i j x y, (i < j)%nat → a !! i = Some x → a !! j = Some y →
    <[j := x]> (<[i := y]> a) ≡ₚ a ∧ <[i := y]> (<[j := x]> a) ≡ₚ a) as Hlt.
  { clear. intros i j x y Hij Hi Hj.
    destruct (list_elem_of_split_length _ _ _ Hi) as (l1 & l2 & -> & ->).
    rewrite lookup_app_r in Hj by lia. destruct (j - length l1)%nat as [|j'] eqn:Ej; [lia|].
    simpl in Hj. destruct (list_elem_of_split_length _ _ _ Hj) as (l3 & l4 & -> & Hj').
    assert (∀ z u, <[j := u]> (l1 ++ z :: l3 ++ y :: l4) = l1 ++ z :: l3 ++ u :: l4) as Hins.
    { intros z u. rewrite insert_app_r_alt, Ej by lia. simpl. by rewrite insert_app_here. }
    assert (∀ t u, <[length l1 := u]> (l1 ++ x :: t) = l1 ++ u :: t) as Hins1
      by (intros; by apply insert_app_here).
    rewrite Hins1, !Hins, Hins1.
    assert (l1 ++ y :: l3 ++ x :: l4 ≡ₚ l1 ++ x :: l3 ++ y :: l4); [|by split].
    apply Permutation_app_head. rewrite <- !Permutation_middle. apply Permutation_swap. }
  intros Hi Hj. destruct (Nat.lt_trichotomy i j) as [H|[->|H]].
  - by destruct (Hlt i j x y) as [? _].
  - assert (x = y) as -> by congruence. by rewrite !list_insert_id by (rewrite ?list_insert_id; done).
  - by destruct (Hlt j i y x) as [_ ?].
Qed.

(** An exchange of [i] and [j]. *)
Lemma swap_ok sz a i j :
  sized sz a → 0 ≤ i < len a → 0 ≤ j < len a →
  ∃ a', swap a i j = Some a' ∧ a' ≡ₚ a ∧
    idx a' i = idx a j ∧ idx a' j = idx a i ∧
    ∀ k, k ≠ i → k ≠ j → idx a' k = idx a k.
Proof.
  intros Hs Hi Hj. destruct (idx_Some a i Hi) as [x Hx]. destruct (idx_Some a j Hj) as [y Hy].
  unfold swap. rewrite Hx, Hy. cbn [mbind option_bind].
  assert (length x = length y) as Hl.
  { unfold sized in Hs. rewrite Forall_forall in Hs.
    by rewrite (Hs x), (Hs y) by (by eapply idx_elem). }
  rewrite (iswap_ok x y Hl). cbn [option_bind fst snd]. eexists. split; [reflexivity|].
  unfold idx, len in *. replace (i <? 0) with false in * by lia. replace (j <? 0) with false in * by lia.
  split; [by apply swap_perm|]. split; [|split].
  - destruct (decide (Z.to_nat i = Z.to_nat j)) as [E|E].
    + rewrite E in *. rewrite list_lookup_insert_eq by (rewrite length_insert; lia). cbn; congruence.
    + rewrite list_lookup_insert_ne by done. by rewrite list_lookup_insert_eq by lia.
  - by rewrite list_lookup_insert_eq by (rewrite length_insert; lia).
  - intros k Hki Hkj. destruct (Z.ltb_spec k 0); [done|].
    rewrite !list_lookup_insert_ne by lia. done.
Qed.

(** ** Changes of a range *)

(** The elements of [lo..hi] are permuted. *)
Record perm_in (lo hi : Z) a a' : Prop := {
  pi_perm : a' ≡ₚ a;
  pi_out : ∀ k, k < lo ∨ hi < k → idx a' k = idx a k
}.

Lemma perm_in_refl lo hi a : perm_in lo hi a a.
Proof. by split. Qed.

Lemma perm_in_trans lo hi a1 a2 a3 :
  perm_in lo hi a1 a2 → perm_in lo hi a2 a3 → perm_in lo hi a1 a3.
Proof. intros [P1 O1] [P2 O2]. split; [by rewrite P2|]. intros k Hk. by rewrite O2, O1. Qed.

Lemma perm_in_wider lo hi lo' hi' a a' :
  lo' ≤ lo → hi ≤ hi' → perm_in lo hi a a' → perm_in lo' hi' a a'.
Proof. intros H1 H2 [P O]. split; [done|]. intros k Hk. apply O. lia. Qed.

Lemma perm_in_len lo hi a a' : perm_in lo hi a a' → len a' = len a.
Proof. intros [P _]. unfold len. by rewrite (Permutation_length P). Qed.

Lemma perm_in_sized lo hi a a' sz : perm_in lo hi a a' → sized sz a → sized sz a'.
Proof. intros [P _] Hs. unfold sized in *. by rewrite P. Qed.

(** [P] holds of the elements from [lo] on and below [hi]. *)
Definition seg a (lo hi : Z) (P : element → Prop) : Prop :=
  ∀ k x, lo ≤ k < hi → idx a k = Some x → P x.

Lemma idx_take_drop a lo hi x :
  x ∈ take (Z.to_nat (hi - lo)) (drop (Z.to_nat lo) a) → 0 ≤ lo →
  ∃ k, lo ≤ k < hi ∧ idx a k = Some x.
Proof.
  intros (i & Hi)%list_elem_of_lookup Hlo. rewrite lookup_take_drop in Hi. case_decide as H; [|done].
  exists (lo + Z.of_nat i). split; [lia|]. unfold idx. replace (lo + Z.of_nat i <? 0) with false by lia.
  rewrite <- Hi. f_equal. lia.
Qed.

Lemma perm_in_range lo hi a a' :
  0 ≤ lo → hi < len a → lo ≤ hi + 1 → perm_in lo hi a a' →
  take (Z.to_nat (hi + 1 - lo)) (drop (Z.to_nat lo) a') ≡ₚ
  take (Z.to_nat (hi + 1 - lo)) (drop (Z.to_nat lo) a).
Proof.
  intros Hlo Hhi Hlh Hp. pose proof (perm_in_len _ _ _ _ Hp) as Hl. destruct Hp as [P O]. unfold len in *.
  assert (∀ b : list element, length b = length a → b = take (Z.to_nat lo) b ++
    take (Z.to_nat (hi + 1 - lo)) (drop (Z.to_nat lo) b) ++ drop (Z.to_nat (hi + 1)) b) as Hsplit.
  { intros b Hb. rewrite <- (take_drop (Z.to_nat lo) b) at 1. f_equal.
    rewrite <- (take_drop (Z.to_nat (hi + 1 - lo)) (drop _ b)) at 1. f_equal.
    rewrite drop_drop. f_equal. lia. }
  assert (take (Z.to_nat lo) a' = take (Z.to_nat lo) a) as E1.
  { apply list_eq. intros i. destruct (decide (i < Z.to_nat lo)%nat).
    - rewrite !lookup_take_lt by done. rewrite <- !idx_nat. apply O. lia.
    - by rewrite !lookup_take_ge by lia. }
  assert (drop (Z.to_nat (hi + 1)) a' = drop (Z.to_nat (hi + 1)) a) as E2.
  { apply list_eq. intros i. rewrite !lookup_drop, <- !idx_nat. apply O. lia. }
  rewrite (Hsplit a'), (Hsplit a), E1, E2 in P by lia.
  apply Permutation_app_inv_l, Permutation_app_inv_r in P. exact P.
Qed.

(** A permutation of a range that lies inside keeps what holds of all of it. *)
Lemma perm_in_seg lo hi a a' P :
  0 ≤ lo → hi < len a → perm_in lo hi a a' → seg a lo (hi + 1) P → seg a' lo (hi + 1) P.
Proof.
  intros Hlo Hhi Hp Hs k x Hk Hx.
  assert (x ∈ take (Z.to_nat (hi + 1 - lo)) (drop (Z.to_nat lo) a')) as Hin.
  { apply list_elem_of_lookup. exists (Z.to_nat (k - lo)). rewrite lookup_take_drop.
    rewrite decide_True by lia. unfold idx in Hx. replace (k <? 0) with false in Hx by lia.
    rewrite <- Hx. f_equal. lia. }
  rewrite (perm_in_range lo hi a a') in Hin by (done || lia).
  destruct (idx_take_drop _ _ _ _ Hin Hlo) as (k' & Hk' & Hx'). by apply (Hs k').
Qed.

Lemma seg_out lo hi a a' l h P :
  perm_in lo hi a a' → h ≤ lo ∨ hi < l → seg a l h P → seg a' l h P.
Proof.
  intros [_ O] Hd Hs k x Hk Hx. apply (Hs k); [done|]. rewrite <- O; [done|]. lia.
Qed.

Lemma seg_impl a l h (P Q : element → Prop) : (∀ x, P x → Q x) → seg a l h P → seg a l h Q.
Proof. intros H Hs k x Hk Hx. by apply H, (Hs k). Qed.

Lemma swap_perm_in lo hi sz a i j :
  sized sz a → 0 ≤ lo → hi < len a → lo ≤ i ≤ hi → lo ≤ j ≤ hi →
  ∃ a', swap a i j = Some a' ∧ perm_in lo hi a a' ∧ sized sz a' ∧ len a' = len a ∧
    idx a' i = idx a j ∧ idx a' j = idx a i ∧ ∀ k, k ≠ i → k ≠ j → idx a' k = idx a k.
Proof.
  intros Hs Hlo Hhi Hi Hj. destruct (swap_ok sz a i j Hs) as (a' & E & P & E1 & E2 & E3); [lia..|].
  assert (perm_in lo hi a a') as Hp by (split; [done|]; intros k Hk; apply E3; lia).
  exists a'. split; [done|]. split; [done|]. split; [by eapply perm_in_sized|].
  split; [by eapply perm_in_len|]. by split_and!.
Qed.

(** ** The order *)

Section order.
Context (compar : element → element → Z) `{!TotalCompare compar}.

Lemma cmp_refl x : compar x x = 0.
Proof using All. pose proof (cmp_swap x x). lia. Qed.

Lemma cmp_ge x y : 0 ≤ compar x y → compar y x ≤ 0.
Proof using All. pose proof (cmp_swap y x). lia. Qed.

Lemma cmp_le x y : compar x y ≤ 0 → 0 ≤ compar y x.
Proof using All. pose proof (cmp_swap x y). lia. Qed.

(** Two sides of a pivot. *)
Lemma cmp_through x v y : compar x v ≤ 0 → 0 ≤ compar y v → compar x y ≤ 0.
Proof using All. intros H1 H2%cmp_ge. by eapply cmp_trans. Qed.

(** The elements from [lo] on and below [hi] are in order. *)
Definition sorted_seg a (lo hi : Z) : Prop :=
  ∀ k1 k2 x y, lo ≤ k1 ≤ k2 → k2 < hi → idx a k1 = Some x → idx a k2 = Some y → compar x y ≤ 0.

Lemma sorted_short a lo hi : hi ≤ lo + 1 → sorted_seg a lo hi.
Proof using All.
  intros H k1 k2 x y Hk1 Hk2 Hx Hy. assert (k1 = k2) as -> by lia.
  rewrite Hx in Hy. injection Hy as ->. rewrite cmp_refl. lia.
Qed.

Lemma sorted_ext a a' lo hi :
  (∀ k, lo ≤ k < hi → idx a' k = idx a k) → sorted_seg a lo hi → sorted_seg a' lo hi.
Proof.
  intros He Hs k1 k2 x y Hk1 Hk2 Hx Hy. apply (Hs k1 k2); try done; [rewrite <- He|rewrite <- He]; done || lia.
Qed.

(** Putting parts together around elements equal to [v]. *)
Lemma sorted_join a lo mid1 mid2 hi v :
  mid1 ≤ mid2 → sorted_seg a lo mid1 → sorted_seg a mid2 hi →
  seg a lo mid1 (λ x, compar x v ≤ 0) → seg a mid1 mid2 (λ x, compar x v = 0) →
  seg a mid2 hi (λ x, 0 ≤ compar x v) → sorted_seg a lo hi.
Proof using All.
  intros Hm S1 S2 L M R k1 k2 x y Hk1 Hk2 Hx Hy.
  destruct (Z.lt_ge_cases k2 mid1); [apply (S1 k1 k2); done || lia|].
  destruct (Z.le_gt_cases mid2 k1); [apply (S2 k1 k2); done || lia|].
  apply (cmp_through x v y).
  - destruct (Z.lt_ge_cases k1 mid1); [apply (L k1); done || lia|].
    rewrite (M k1 x); [lia|lia|done].
  - destruct (Z.le_gt_cases mid2 k2); [apply (R k2); done || lia|].
    rewrite (M k2 y); [lia|lia|done].
Qed.

(** ** isort *)

Lemma isort_min_ok n a base : ∀ tmp min m,
  base ≤ min < tmp → 0 ≤ base → tmp + Z.of_nat n ≤ len a → idx a min = Some m →
  seg a base tmp (λ x, 0 ≤ compar x m) →
  ∃ min' m', isort_min compar n a tmp min = Some min' ∧ base ≤ min' < tmp + Z.of_nat n ∧
    idx a min' = Some m' ∧ seg a base (tmp + Z.of_nat n) (λ x, 0 ≤ compar x m').
Proof using All.
  induction n as [|n IH]; intros tmp min m Hmin Hb Hn Hm Hseg.
  { exists min, m. change (Z.of_nat 0) with 0. rewrite Z.add_0_r. split_and!; done || lia. }
  destruct (idx_Some a tmp) as [x Hx]; [lia|]. cbn [isort_min]. rewrite Hx, Hm. cbn [mbind option_bind].
  replace (tmp + Z.of_nat (S n)) with (tmp + 1 + Z.of_nat n) in * by lia.
  destruct (Z.ltb_spec (compar x m) 0) as [Hlt|Hge].
  - apply (IH (tmp + 1) tmp x); [lia|done|lia|done|]. intros k y Hk Hy.
    destruct (decide (k = tmp)) as [->|].
    + rewrite Hx in Hy. injection Hy as ->. rewrite cmp_refl. lia.
    + apply cmp_le, (cmp_trans x m y); [lia|]. apply cmp_ge, (Hseg k); [lia|done].
  - apply (IH (tmp + 1) min m); [lia|done|lia|done|]. intros k y Hk Hy.
    destruct (decide (k = tmp)) as [->|]; [congruence|]. apply (Hseg k); [lia|done].
Qed.

Lemma isort_loop_ok sz n : ∀ a base,
  sized sz a → 0 ≤ base → base + Z.of_nat n ≤ len a →
  ∃ a', isort_loop compar n a base = Some a' ∧ perm_in base (base + Z.of_nat n - 1) a a' ∧
    sorted_seg a' base (base + Z.of_nat n).
Proof using All.
  induction n as [|n IH]; intros a base Hs Hb Hn.
  { exists a. split; [done|]. split; [apply perm_in_refl|]. apply sorted_short. lia. }
  cbn [isort_loop]. destruct (Nat.ltb_spec 0 n) as [H0|H0].
  2:{ exists a. split; [done|]. split; [apply perm_in_refl|]. apply sorted_short. lia. }
  destruct (idx_Some a base) as [x Hx]; [lia|].
  destruct (isort_min_ok n a base (base + 1) base x) as (min & m & E1 & Hmin & Hm & Hseg); [lia..|done| |].
  { intros k y Hk Hy. assert (k = base) as -> by lia. rewrite Hx in Hy. injection Hy as ->.
    rewrite cmp_refl. lia. }
  replace (base + 1 + Z.of_nat n) with (base + Z.of_nat (S n)) in * by lia.
  rewrite E1. cbn [mbind option_bind].
  destruct (swap_perm_in base (base + Z.of_nat (S n) - 1) sz a min base) as
    (a1 & E2 & Hp1 & Hs1 & Hl1 & _ & Hbase & _); [done|lia..|].
  rewrite E2. cbn [mbind option_bind]. destruct (IH a1 (base + 1)) as (a2 & E3 & Hp2 & Hsort); [done|lia..|].
  replace (base + 1 + Z.of_nat n) with (base + Z.of_nat (S n)) in * by lia.
  exists a2. split; [done|]. assert (perm_in base (base + Z.of_nat (S n) - 1) a a2) as Hp.
  { eapply perm_in_trans; [exact Hp1|]. eapply perm_in_wider; [| |exact Hp2]; lia. }
  split; [done|].
  assert (seg a2 base (base + Z.of_nat (S n)) (λ x, 0 ≤ compar x m)) as Hall.
  { replace (base + Z.of_nat (S n)) with (base + Z.of_nat (S n) - 1 + 1) by lia.
    eapply perm_in_seg; [done| |exact Hp|]; [lia|].
    by replace (base + Z.of_nat (S n) - 1 + 1) with (base + Z.of_nat (S n)) by lia. }
  assert (idx a2 base = Some m) as Hm2.
  { rewrite (pi_out _ _ _ _ Hp2) by lia. congruence. }
  intros k1 k2 y z Hk1 Hk2 Hy Hz. destruct (decide (k1 = base)) as [->|].
  - rewrite Hm2 in Hy. injection Hy as <-. apply cmp_ge, (Hall k2); [lia|done].
  - apply (Hsort k1 k2); done || lia.
Qed.

Lemma isort_ok sz a l n :
  sized sz a → 0 ≤ l → 0 ≤ n → l + n ≤ len a →
  ∃ a', isort compar a l n = Some a' ∧ perm_in l (l + n - 1) a a' ∧ sorted_seg a' l (l + n).
Proof using All.
  intros Hs Hl Hn Hr. destruct (isort_loop_ok sz (Z.to_nat n) a l) as (a' & H); [done|lia|lia|].
  exists a'. by rewrite Z2Nat.id in H by lia.
Qed.

(** ** The scans *)

Lemma scan_up_ok fuel a v : ∀ i r,
  idx a r = Some v → -1 ≤ i < r → r - i ≤ Z.of_nat fuel →
  ∃ i', scan_up compar fuel a i v = Some i' ∧ i < i' ≤ r ∧
    seg a (i + 1) i' (λ x, compar x v < 0) ∧ ∀ x, idx a i' = Some x → 0 ≤ compar x v.
Proof using All.
  induction fuel as [|fuel IH]; intros i r Hr Hi Hf; [lia|].
  pose proof (idx_range _ _ _ Hr). destruct (idx_Some a (i + 1)) as [x Hx]; [lia|].
  cbn [scan_up]. rewrite Hx. cbn [mbind option_bind]. destruct (Z.ltb_spec (compar x v) 0) as [Hlt|Hge].
  - assert (i + 1 ≠ r) as Hne.
    { intros <-. rewrite Hx in Hr. injection Hr as ->. rewrite cmp_refl in Hlt. lia. }
    destruct (IH (i + 1) r Hr) as (i' & E & Hi' & Hs & He); [lia..|].
    exists i'. split; [done|]. split; [lia|]. split; [|done]. intros k y Hk Hy.
    destruct (decide (k = i + 1)) as [->|]; [rewrite Hx in Hy; injection Hy as ->; lia|].
    apply (Hs k); [lia|done].
  - exists (i + 1). split; [done|]. split; [lia|]. split; [intros k y Hk; lia|].
    intros y Hy. rewrite Hx in Hy. by injection Hy as ->.
Qed.

Lemma scan_down_ok fuel a v l : ∀ j,
  0 ≤ l < j → j ≤ len a → j - l ≤ Z.of_nat fuel →
  ∃ j', scan_down compar fuel a l j v = Some j' ∧ l ≤ j' < j ∧
    seg a (j' + 1) j (λ x, 0 < compar x v) ∧
    ∀ x, idx a j' = Some x → compar x v ≤ 0 ∨ (j' = l ∧ 0 ≤ compar x v).
Proof using All.
  induction fuel as [|fuel IH]; intros j Hj Hl Hf; [lia|].
  destruct (idx_Some a (j - 1)) as [x Hx]; [lia|].
  cbn [scan_down]. rewrite Hx. cbn [mbind option_bind].
  destruct (Z.ltb_spec 0 (compar x v)) as [Hgt|Hle].
  - destruct (Z.eqb_spec (j - 1) l) as [He|Hne].
    + exists (j - 1). split; [done|]. split; [lia|]. split; [intros k y Hk; lia|].
      intros y Hy. rewrite Hx in Hy. injection Hy as ->. right. lia.
    + destruct (IH (j - 1)) as (j' & E & Hj' & Hs & He); [lia..|].
      exists j'. split; [done|]. split; [lia|]. split; [|done]. intros k y Hk Hy.
      destruct (decide (k = j - 1)) as [->|]; [rewrite Hx in Hy; injection Hy as ->; lia|].
      apply (Hs k); [lia|done].
  - exists (j - 1). split; [done|]. split; [lia|]. split; [intros k y Hk; lia|].
    intros y Hy. rewrite Hx in Hy. injection Hy as ->. by left.
Qed.
End order.

(** * The partition of qsort

    The three-way partition around the last element: the loop that gathers
    the elements equal to the pivot at both ends, the two loops that bring
    them to the middle, and the recursion. *)


Section partition.
Context (compar : element → element → Z) `{!TotalCompare compar}.
Context (sz : nat).
Abbreviation eqv v := (λ x, compar x v = 0).
Abbreviation lev v := (λ x, compar x v ≤ 0).
Abbreviation gev v := (λ x, 0 ≤ compar x v).

(** An element at the left cursor that equals the pivot goes to the left end. *)
Lemma take_left a l p i x v :
  sized sz a → 0 ≤ l → i < len a → l - 1 ≤ p < i → l ≤ i → idx a i = Some x → compar x v ≤ 0 →
  seg a l (p + 1) (eqv v) → seg a (p + 1) i (lev v) →
  ∃ a' p', (if compar x v =? 0 then (λ a, (a, p + 1)) <$> swap a (p + 1) i else Some (a, p)) =
      Some (a', p') ∧ perm_in l i a a' ∧ sized sz a' ∧ len a' = len a ∧ p ≤ p' ≤ i ∧
    seg a' l (p' + 1) (eqv v) ∧ seg a' (p' + 1) (i + 1) (lev v).
Proof.
  intros Hs Hl Hi Hp Hli Hx Hxv Heq Hle. destruct (Z.eqb_spec (compar x v) 0) as [H0|H0].
  - destruct (swap_perm_in l i sz a (p + 1) i) as (a' & E & Hpm & Hs' & Hl' & E1 & E2 & E3); [done|lia..|].
    rewrite E. exists a', (p + 1). split; [done|]. split; [done|]. split; [done|]. split; [done|].
    split; [lia|]. split.
    + intros k y Hk Hy. destruct (decide (k = p + 1)) as [->|]; [congruence|].
      apply (Heq k); [lia|]. rewrite <- E3; [done|lia..].
    + intros k y Hk Hy. destruct (decide (k = i)) as [->|].
      * destruct (decide (p + 1 = i)) as [<-|]; [lia|]. apply (Hle (p + 1)); [lia|]. congruence.
      * apply (Hle k); [lia|]. rewrite <- E3; [done|lia..].
  - exists a, p. split; [done|]. split; [apply perm_in_refl|]. split; [done|]. split; [done|].
    split; [lia|]. split; [done|]. intros k y Hk Hy.
    destruct (decide (k = i)) as [->|]; [congruence|]. apply (Hle k); [lia|done].
Qed.

Lemma take_right a r q j y v :
  sized sz a → 0 ≤ j → r < len a → j < q ≤ r → idx a j = Some y → 0 ≤ compar y v →
  seg a q r (eqv v) → seg a (j + 1) q (gev v) →
  ∃ a' q', (if compar y v =? 0 then (λ a, (a, q - 1)) <$> swap a (q - 1) j else Some (a, q)) =
      Some (a', q') ∧ perm_in j (r - 1) a a' ∧ sized sz a' ∧ len a' = len a ∧ j ≤ q' ≤ q ∧
    seg a' q' r (eqv v) ∧ seg a' j q' (gev v).
Proof.
  intros Hs Hj Hr Hq Hy Hyv Heq Hge. destruct (Z.eqb_spec (compar y v) 0) as [H0|H0].
  - destruct (swap_perm_in j (r - 1) sz a (q - 1) j) as (a' & E & Hpm & Hs' & Hl' & E1 & E2 & E3); [done|lia..|].
    rewrite E. exists a', (q - 1). split; [done|]. split; [done|]. split; [done|]. split; [done|].
    split; [lia|]. split.
    + intros k z Hk Hz. destruct (decide (k = q - 1)) as [->|]; [congruence|].
      apply (Heq k); [lia|]. rewrite <- E3; [done|lia..].
    + intros k z Hk Hz. destruct (decide (k = j)) as [->|].
      * apply (Hge (q - 1)); [lia|]. congruence.
      * apply (Hge k); [lia|]. rewrite <- E3; [done|lia..].
  - exists a, q. split; [done|]. split; [apply perm_in_refl|]. split; [done|]. split; [done|].
    split; [lia|]. split; [done|]. intros k z Hk Hz.
    destruct (decide (k = j)) as [->|]; [congruence|]. apply (Hge k); [lia|done].
Qed.

(** Between two turns of the loop. *)
Record part_inv a (l r : Z) (v : element) (c : cursors) : Prop := {
  pv_p : l - 1 ≤ q_p c ≤ q_i c;
  pv_ij : q_i c < q_j c;
  pv_q : q_j c ≤ q_q c ≤ r;
  pv_start : l ≤ q_i c ∨ q_j c = r;
  pv_eql : seg a l (q_p c + 1) (eqv v);
  pv_le : seg a (q_p c + 1) (q_i c + 1) (lev v);
  pv_ge : seg a (q_j c) (q_q c) (gev v);
  pv_eqr : seg a (q_q c) r (eqv v);
  pv_pivot : idx a r = Some v
}.

(** After the loop: the elements from [i] on are not below the pivot. *)
Record part_done a (l r : Z) (v : element) (c : cursors) : Prop := {
  pd_p : l - 1 ≤ q_p c < q_i c;
  pd_q : q_i c ≤ q_q c ≤ r;
  pd_i : l ≤ q_i c;
  pd_eql : seg a l (q_p c + 1) (eqv v);
  pd_le : seg a (q_p c + 1) (q_i c) (lev v);
  pd_ge : seg a (q_i c) (q_q c) (gev v);
  pd_eqr : seg a (q_q c) r (eqv v);
  pd_pivot : idx a r = Some v
}.

Lemma partition_loop_ok fuel : ∀ a l r v c,
  sized sz a → 0 ≤ l < r → r < len a → part_inv a l r v c → q_j c - q_i c ≤ Z.of_nat fuel →
  ∃ a' c', partition_loop compar fuel a l r c = Some (a', c') ∧ perm_in l r a a' ∧
    part_done a' l r v c'.
Proof using All.
  induction fuel as [|fuel IH]; intros a l r v [i j p q] Hs Hl Hr [I1 I2 I3 I4 I5 I6 I7 I8 I9] Hf;
    cbn [q_i q_j q_p q_q] in *; [lia|].
  cbn [partition_loop q_i q_j q_p q_q]. rewrite I9. cbn [mbind option_bind]. unfold len in Hr.
  destruct (scan_up_ok compar (S (length a)) a v i r I9) as (i' & E1 & Hi' & Hup & Hiv); [lia..|].
  rewrite E1. cbn [mbind option_bind].
  assert (i' ≤ j) as Hij.
  { destruct (Z.le_gt_cases i' j); [done|]. exfalso. destruct (idx_Some a j) as [y Hy]; [unfold len; lia|].
    pose proof (Hup j y ltac:(lia) Hy) as Hlt. cbn beta in Hlt.
    destruct (decide (j = q)) as [->|].
    - rewrite (I8 q y) in Hlt; [lia|lia|done].
    - pose proof (I7 j y ltac:(lia) Hy) as Hge. cbn beta in Hge. lia. }
  destruct (scan_down_ok compar (S (length a)) a v l j) as (j' & E2 & Hj' & Hdown & Hjv);
    [lia|unfold len; lia|lia|].
  rewrite E2. cbn [mbind option_bind].
  assert (i ≤ j') as Hij'.
  { destruct (Z.le_gt_cases i j'); [done|]. exfalso. destruct (idx_Some a i) as [x Hx]; [unfold len; lia|].
    pose proof (Hdown i x ltac:(lia) Hx) as Hgt. cbn beta in Hgt.
    destruct (decide (p = i)) as [->|].
    - rewrite (I5 i x) in Hgt; [lia|lia|done].
    - pose proof (I6 i x ltac:(lia) Hx) as Hle. cbn beta in Hle. lia. }
  assert (seg a (p + 1) i' (lev v)) as Hle.
  { intros k x Hk Hx. destruct (Z.le_gt_cases k i); [apply (I6 k); [lia|done]|].
    pose proof (Hup k x ltac:(lia) Hx). cbn beta in *. lia. }
  assert (seg a (j' + 1) q (gev v)) as Hge.
  { intros k x Hk Hx. destruct (Z.le_gt_cases j k); [apply (I7 k); [lia|done]|].
    pose proof (Hdown k x ltac:(lia) Hx). cbn beta in *. lia. }
  destruct (Z.leb_spec j' i') as [Hstop|Hgo].
  { exists a, (Cursors i' j' p q). split; [done|]. split; [apply perm_in_refl|].
    split; cbn [q_i q_j q_p q_q]; try done; try lia. intros k x Hk Hx.
    destruct (decide (k = i')) as [->|]; [by apply Hiv|]. apply (Hge k); [lia|done]. }
  destruct (idx_Some a i') as [xi Hxi]; [unfold len; lia|].
  destruct (idx_Some a j') as [xj Hxj]; [unfold len; lia|].
  pose proof (Hiv _ Hxi) as Hxiv. destruct (Hjv _ Hxj) as [Hxjv|[Hbad _]]; [|lia].
  destruct (swap_perm_in i' j' sz a i' j') as (a1 & E3 & Hp1 & Hs1 & Hl1 & S1 & S2 & S3);
    [done|lia|unfold len; lia|lia|lia|].
  rewrite E3. cbn [mbind option_bind].
  assert (idx a1 r = Some v) as Hv1 by (rewrite S3; [done|lia..]).
  rewrite Hv1. cbn [mbind option_bind]. rewrite S1, Hxj. cbn [mbind option_bind].
  assert (len a1 = Z.of_nat (length a)) as Hl1' by done.
  destruct (take_left a1 l p i' xj v Hs1) as (a2 & p2 & E4 & Hp2 & Hs2 & Hl2 & Hpr & Heq2 & Hle2);
    [lia|lia|lia|lia|congruence|done| | |].
  { apply (seg_out i' j' a); [done|lia|done]. }
  { apply (seg_out i' j' a); [done|lia|done]. }
  rewrite E4. cbn [mbind option_bind].
  assert (idx a2 r = Some v) as Hv2 by (rewrite (pi_out _ _ _ _ Hp2); [done|lia]).
  rewrite Hv2. cbn [mbind option_bind].
  assert (idx a2 j' = Some xi) as Hxj2 by (rewrite (pi_out _ _ _ _ Hp2) by lia; congruence).
  rewrite Hxj2. cbn [mbind option_bind].
  destruct (take_right a2 r q j' xi v Hs2) as (a3 & q3 & E5 & Hp3 & Hs3 & Hl3 & Hqr & Heq3 & Hge3);
    [lia|lia|lia|done|done| | |].
  { apply (seg_out l i' a1); [done|lia|]. apply (seg_out i' j' a); [done|lia|done]. }
  { apply (seg_out l i' a1); [done|lia|]. apply (seg_out i' j' a); [done|lia|done]. }
  rewrite E5. cbn [mbind option_bind].
  destruct (IH a3 l r v (Cursors i' j' p2 q3)) as (a4 & c4 & E6 & Hp4 & Hd4); [done|lia|lia| |simpl; lia|].
  { split; cbn [q_i q_j q_p q_q]; try done; try lia.
    - apply (seg_out j' (r - 1) a2); [done|lia|done].
    - apply (seg_out j' (r - 1) a2); [done|lia|done].
    - rewrite (pi_out _ _ _ _ Hp3); [done|lia]. }
  exists a4, c4. split; [done|]. split; [|done].
  eapply perm_in_trans; [eapply (perm_in_wider i' j'); [..|exact Hp1]; lia|].
  eapply perm_in_trans; [eapply (perm_in_wider l i'); [..|exact Hp2]; lia|].
  eapply perm_in_trans; [eapply (perm_in_wider j' (r - 1)); [..|exact Hp3]; lia|]. done.
Qed.

(** ** Bringing the equal elements to the middle *)

(** After [t] exchanges: those already moved, and those still at the left
    end; [m] elements of the part are below the pivot. *)
Record left_inv a (l p i0 t : Z) (v : element) : Prop := {
  li_wait : seg a (l + Z.min t (i0 - 1 - p)) (p + 1) (eqv v);
  li_moved : seg a (i0 - t) i0 (eqv v);
  li_all : seg a l i0 (lev v)
}.

Lemma move_left_ok n : ∀ a l p i0 t v,
  sized sz a → 0 ≤ l → i0 ≤ len a → p < i0 → 0 ≤ t → t + Z.of_nat n = p - l →
  left_inv a l p i0 t v →
  ∃ a', move_left n a (l + t) (i0 - 1 - t) = Some (a', i0 - 1 - (p - l)) ∧
    perm_in l (i0 - 1) a a' ∧ left_inv a' l p i0 (p - l) v.
Proof using All.
  induction n as [|n IH]; intros a l p i0 t v Hs Hl Hi0 Hp Ht Hn Hinv.
  { exists a. replace (p - l) with t by lia. split; [done|]. split; [apply perm_in_refl|done]. }
  destruct Hinv as [W M A]. cbn [move_left].
  destruct (swap_perm_in l (i0 - 1) sz a (l + t) (i0 - 1 - t)) as
    (a1 & E & Hp1 & Hs1 & Hl1 & S1 & S2 & S3); [done|lia..|].
  rewrite E. cbn [mbind option_bind].
  replace (l + t + 1) with (l + (t + 1)) by lia. replace (i0 - 1 - t - 1) with (i0 - 1 - (t + 1)) by lia.
  destruct (idx_Some a (l + t)) as [xk Hk]; [lia|].
  assert (compar xk v = 0) as Hkv.
  { destruct (Z.le_gt_cases t (i0 - 1 - p)).
    - apply (W (l + t)); [lia|done].
    - apply (W (l + t)); [lia|done]. }
  destruct (IH a1 l p i0 (t + 1) v) as (a2 & E2 & Hp2 & Hinv2); [done|lia..| |].
  { split.
    - intros k y Hky Hy. destruct (decide (k = i0 - 1 - t)) as [->|]; [congruence|].
      destruct (decide (k = l + t)) as [->|].
      + rewrite S1 in Hy. apply (W (i0 - 1 - t)); [lia|done].
      + rewrite S3 in Hy by lia. apply (W k); [lia|done].
    - intros k y Hky Hy. destruct (decide (k = i0 - 1 - t)) as [->|]; [congruence|].
      destruct (decide (k = l + t)) as [->|].
      + rewrite S1 in Hy. apply (W (i0 - 1 - t)); [lia|done].
      + rewrite S3 in Hy by lia. apply (M k); [lia|done].
    - replace i0 with (i0 - 1 + 1) by lia. apply (perm_in_seg l (i0 - 1) a); [done|lia|done|].
      by replace (i0 - 1 + 1) with i0 by lia. }
  exists a2. split; [done|]. split; [by eapply perm_in_trans|done].
Qed.

Record right_inv a (r q i0 t : Z) (v : element) : Prop := {
  ri_wait : seg a q (r - Z.min t (q - (i0 + 1))) (eqv v);
  ri_moved : seg a (i0 + 1) (i0 + 1 + t) (eqv v);
  ri_all : seg a (i0 + 1) (r + 1) (gev v)
}.

Lemma move_right_ok n : ∀ a r q i0 t v,
  sized sz a → -1 ≤ i0 → r < len a → i0 ≤ q → 0 ≤ t → t + Z.of_nat n = r - 1 - q →
  right_inv a r q i0 t v →
  ∃ a', move_right n a (r - 1 - t) (i0 + 1 + t) = Some (a', i0 + 1 + (r - 1 - q)) ∧
    perm_in (i0 + 1) r a a' ∧ right_inv a' r q i0 (r - 1 - q) v.
Proof using All.
  induction n as [|n IH]; intros a r q i0 t v Hs Hi0 Hr Hq Ht Hn Hinv.
  { exists a. replace (r - 1 - q) with t by lia. split; [done|]. split; [apply perm_in_refl|done]. }
  destruct Hinv as [W M A]. cbn [move_right].
  destruct (swap_perm_in (i0 + 1) r sz a (r - 1 - t) (i0 + 1 + t)) as
    (a1 & E & Hp1 & Hs1 & Hl1 & S1 & S2 & S3); [done|lia..|].
  rewrite E. cbn [mbind option_bind].
  replace (r - 1 - t - 1) with (r - 1 - (t + 1)) by lia. replace (i0 + 1 + t + 1) with (i0 + 1 + (t + 1)) by lia.
  destruct (idx_Some a (r - 1 - t)) as [xk Hk]; [lia|].
  assert (compar xk v = 0) as Hkv by (apply (W (r - 1 - t)); [lia|done]).
  destruct (IH a1 r q i0 (t + 1) v) as (a2 & E2 & Hp2 & Hinv2); [done|lia..| |].
  { split.
    - intros k y Hky Hy. destruct (decide (k = i0 + 1 + t)) as [->|]; [congruence|].
      destruct (decide (k = r - 1 - t)) as [->|].
      + rewrite S1 in Hy. apply (W (i0 + 1 + t)); [lia|done].
      + rewrite S3 in Hy by lia. apply (W k); [lia|done].
    - intros k y Hky Hy. destruct (decide (k = i0 + 1 + t)) as [->|]; [congruence|].
      destruct (decide (k = r - 1 - t)) as [->|].
      + rewrite S1 in Hy. apply (W (i0 + 1 + t)); [lia|done].
      + rewrite S3 in Hy by lia. apply (M k); [lia|done].
    - apply (perm_in_seg (i0 + 1) r a); [lia|lia|done|done]. }
  exists a2. split; [done|]. split; [by eapply perm_in_trans|done].
Qed.

Lemma left_part a l p i0 v :
  sized sz a → 0 ≤ l ≤ i0 → i0 ≤ len a → l - 1 ≤ p < i0 →
  seg a l (p + 1) (eqv v) → seg a l i0 (lev v) →
  ∃ a' j, move_left (Z.to_nat (p - l)) a l (i0 - 1) = Some (a', j) ∧
    perm_in l (i0 - 1) a a' ∧ l - 1 ≤ j < i0 ∧ seg a' l i0 (lev v) ∧ seg a' (j + 1) i0 (eqv v).
Proof using All.
  intros Hs Hl Hi0 Hp Heq Hle. destruct (Z.lt_ge_cases p l) as [H|H].
  - replace (Z.to_nat (p - l)) with 0%nat by lia. exists a, (i0 - 1). split; [done|].
    split; [apply perm_in_refl|]. split; [lia|]. split; [done|]. intros k x Hk. lia.
  - destruct (move_left_ok (Z.to_nat (p - l)) a l p i0 0 v) as (a' & E & Hpm & [_ M A]); [done|lia..| |].
    { split; [|intros k x Hk; lia|done]. intros k x Hk. apply Heq. lia. }
    rewrite Z.add_0_r, Z.sub_0_r in E. exists a', (i0 - 1 - (p - l)).
    split; [done|]. split; [done|]. split; [lia|]. split; [done|].
    intros k x Hk. apply M. lia.
Qed.

Lemma right_part a r q i0 v :
  sized sz a → -1 ≤ i0 → r < len a → i0 ≤ q ≤ r → i0 ≤ r →
  seg a q r (eqv v) → (q = i0 → seg a r (r + 1) (eqv v)) → seg a (i0 + 1) (r + 1) (gev v) →
  ∃ a' i, move_right (Z.to_nat (r - 1 - q)) a (r - 1) (i0 + 1) = Some (a', i) ∧
    perm_in (i0 + 1) r a a' ∧ i0 < i ≤ r + 1 ∧ seg a' (i0 + 1) (r + 1) (gev v) ∧ seg a' (i0 + 1) i (eqv v).
Proof using All.
  intros Hs Hi0 Hr Hq Hir Heq Hrr Hge. destruct (Z.lt_ge_cases (r - 1) q) as [H|H].
  - replace (Z.to_nat (r - 1 - q)) with 0%nat by lia. exists a, (i0 + 1). split; [done|].
    split; [apply perm_in_refl|]. split; [lia|]. split; [done|]. intros k x Hk. lia.
  - destruct (move_right_ok (Z.to_nat (r - 1 - q)) a r q i0 0 v) as (a' & E & Hpm & [_ M A]); [done|lia..| |].
    { split; [|intros k x Hk; lia|done]. intros k x Hk Hx. destruct (decide (k = r)) as [->|].
      - apply (Hrr ltac:(lia) r); [lia|done].
      - apply (Heq k); [lia|done]. }
    rewrite Z.add_0_r, Z.sub_0_r in E. exists a', (i0 + 1 + (r - 1 - q)).
    split; [done|]. split; [done|]. split; [lia|]. by split.
Qed.

(** ** The partition *)

Lemma partition_ok a l r :
  sized sz a → 0 ≤ l < r → r < len a →
  ∃ a' i j v, partition compar a l r = Some (a', i, j) ∧ perm_in l r a a' ∧
    l - 1 ≤ j < i ∧ j < r ∧ l < i ≤ r + 1 ∧ seg a' l (j + 1) (lev v) ∧ seg a' (j + 1) i (eqv v) ∧
    seg a' i (r + 1) (gev v).
Proof using All.
  intros Hs Hl Hr. destruct (idx_Some a r) as [v Hv]; [lia|]. unfold partition.
  destruct (partition_loop_ok (S (length a)) a l r v (Cursors (l - 1) r (l - 1) r)) as
    (a1 & [i0 j0 p q] & E1 & Hp1 & [D1 D2 D3 D4 D5 D6 D7 D8]); [done|done|done| |unfold len in *; simpl; lia|].
  { split; cbn [q_i q_j q_p q_q]; try done; try lia; intros k x Hk; lia. }
  rewrite E1. cbn [mbind option_bind q_i q_j q_p q_q] in *.
  pose proof (perm_in_len _ _ _ _ Hp1) as L1. pose proof (perm_in_sized _ _ _ _ sz Hp1 Hs) as Z1.
  destruct (swap_perm_in l r sz a1 i0 r) as (a2 & E2 & Hp2 & Z2 & L2 & S1 & S2 & S3); [done|lia..|].
  rewrite E2. cbn [mbind option_bind].
  assert (seg a2 l (p + 1) (eqv v)) as Q1.
  { intros k x Hk Hx. apply (D4 k); [lia|]. rewrite <- S3; [done|lia..]. }
  assert (seg a2 l i0 (lev v)) as Q2.
  { intros k x Hk Hx. rewrite S3 in Hx by lia. destruct (Z.le_gt_cases (p + 1) k).
    - apply (D5 k); [lia|done].
    - rewrite (D4 k x); [lia|lia|done]. }
  assert (idx a2 i0 = Some v) as Q3 by congruence.
  assert (seg a1 i0 (r + 1) (gev v)) as G1.
  { intros k x Hk Hx. destruct (decide (k = r)) as [->|].
    - rewrite D8 in Hx. injection Hx as <-. rewrite cmp_refl by done. lia.
    - destruct (Z.le_gt_cases q k); [rewrite (D7 k x); [lia|lia|done]|]. apply (D6 k); [lia|done]. }
  assert (seg a2 (i0 + 1) (r + 1) (gev v)) as Q4.
  { intros k x Hk Hx. destruct (decide (k = r)) as [->|].
    - apply (G1 i0); [lia|]. congruence.
    - apply (G1 k); [lia|]. rewrite <- S3; [done|lia..]. }
  destruct (left_part a2 l p i0 v Z2) as (a3 & j & E3 & Hp3 & Hj & A1 & A2); [lia..|done|done|].
  rewrite E3. cbn [mbind option_bind].
  pose proof (perm_in_sized _ _ _ _ sz Hp3 Z2) as Z3. pose proof (perm_in_len _ _ _ _ Hp3) as L3.
  destruct (right_part a3 r q i0 v Z3) as (a4 & i & E4 & Hp4 & Hi & B1 & B2); [lia..| | | |].
  { intros k x Hk Hx. rewrite (pi_out _ _ _ _ Hp3) in Hx by lia.
    destruct (decide (k = i0)) as [->|].
    - rewrite Q3 in Hx. injection Hx as <-. by apply cmp_refl.
    - apply (D7 k); [lia|]. rewrite <- S3; [done|lia..]. }
  { intros Hqi k x Hk Hx. assert (k = r) as -> by lia. rewrite (pi_out _ _ _ _ Hp3) in Hx by lia.
    rewrite S2 in Hx. destruct (decide (i0 = r)) as [->|].
    - rewrite D8 in Hx. injection Hx as <-. by apply cmp_refl.
    - apply (D7 i0); [lia|done]. }
  { apply (seg_out l (i0 - 1) a2); [done|lia|done]. }
  rewrite E4. cbn [mbind option_bind]. exists a4, i, j, v. split; [done|].
  split.
  { eapply perm_in_trans; [exact Hp1|]. eapply perm_in_trans; [exact Hp2|].
    eapply perm_in_trans; [eapply (perm_in_wider l (i0 - 1)); [..|exact Hp3]; lia|].
    eapply (perm_in_wider (i0 + 1) r); [..|exact Hp4]; lia. }
  split; [lia|]. split; [lia|]. split; [lia|]. split; [|split].
  - intros k x Hk Hx. rewrite (pi_out _ _ _ _ Hp4) in Hx by lia. apply (A1 k); [lia|done].
  - intros k x Hk Hx. destruct (Z.lt_trichotomy k i0) as [Hlt|[->|Hgt]].
    + rewrite (pi_out _ _ _ _ Hp4) in Hx by lia. apply (A2 k); [lia|done].
    + rewrite (pi_out _ _ _ _ Hp4), (pi_out _ _ _ _ Hp3), Q3 in Hx by lia. injection Hx as <-. by apply cmp_refl.
    + apply (B2 k); [lia|done].
  - intros k x Hk. apply B1. lia.
Qed.

(** ** The recursion *)

Lemma Qsort_ok fuel : ∀ a l r,
  sized sz a → 0 ≤ l → l ≤ r + 1 → r < len a → r - l + 1 < Z.of_nat fuel →
  ∃ a', Qsort compar fuel a l r = Some a' ∧ perm_in l r a a' ∧ sorted_seg compar a' l (r + 1).
Proof using All.
  induction fuel as [|fuel IH]; intros a l r Hs Hl Hlr Hr Hf; [lia|].
  cbn [Qsort]. destruct (Z.ltb_spec (r - l) 10) as [Hsmall|Hbig].
  { destruct (isort_ok compar sz a l (r - l + 1) Hs) as (a' & E & Hp & Hso); [lia..|].
    replace (l + (r - l + 1) - 1) with r in Hp by lia. replace (l + (r - l + 1)) with (r + 1) in Hso by lia.
    by exists a'. }
  destruct (partition_ok a l r Hs) as (a1 & i & j & v & E & Hp1 & Hji & Hjr & Hli & S1 & S2 & S3); [lia..|].
  rewrite E. cbn [mbind option_bind].
  pose proof (perm_in_len _ _ _ _ Hp1) as L1. pose proof (perm_in_sized _ _ _ _ sz Hp1 Hs) as Z1.
  assert (∃ a2, (if l <? j then Qsort compar fuel a1 l j else Some a1) = Some a2 ∧
    perm_in l j a1 a2 ∧ sorted_seg compar a2 l (j + 1)) as (a2 & E2 & Hp2 & So2).
  { destruct (Z.ltb_spec l j); [apply IH; done || lia|]. exists a1. split; [done|].
    split; [apply perm_in_refl|]. apply sorted_short; [done|lia]. }
  rewrite E2. cbn [mbind option_bind].
  pose proof (perm_in_len _ _ _ _ Hp2) as L2. pose proof (perm_in_sized _ _ _ _ sz Hp2 Z1) as Z2.
  assert (∃ a3, (if i <? r then Qsort compar fuel a2 i r else Some a2) = Some a3 ∧
    perm_in i r a2 a3 ∧ sorted_seg compar a3 i (r + 1)) as (a3 & E3 & Hp3 & So3).
  { destruct (Z.ltb_spec i r); [apply IH; done || lia|]. exists a2. split; [done|].
    split; [apply perm_in_refl|]. apply sorted_short; [done|lia]. }
  exists a3. split; [done|]. split.
  { eapply perm_in_trans; [exact Hp1|].
    eapply perm_in_trans; [eapply (perm_in_wider l j); [..|exact Hp2]; lia|].
    eapply (perm_in_wider i r); [..|exact Hp3]; lia. }
  apply (sorted_join compar a3 l (j + 1) i (r + 1) v); [lia| |exact So3| | |].
  - apply (sorted_ext compar a2); [|done]. intros k Hk. apply (pi_out _ _ _ _ Hp3). lia.
  - apply (seg_out i r a2); [done|lia|]. apply (perm_in_seg l j a1); [lia|lia|done|done].
  - apply (seg_out i r a2); [done|lia|]. apply (seg_out l j a1); [done|lia|done].
  - apply (perm_in_seg i r a2); [lia|lia|done|]. apply (seg_out l j a1); [done|lia|done].
Qed.
End partition.
