(* ===== verification/CSortSpec.v ===== *)
(** * What qsort and bsearch guarantee

    For a comparison function that is a total preorder: [qsort] sorts in
    place, [bsearch] decides membership in a sorted array. *)
From S2P Require Import Prelude CSort CSortProofs.
Local Open Scope Z_scope.

Implicit Types a : list element.

(** Elements of one byte, compared by it. *)
Definition compare_bytes (x y : element) : Z := nth 0 x 0 - nth 0 y 0.

#[export] Instance compare_bytes_total : TotalCompare compare_bytes.
Proof. split; unfold compare_bytes; intros; lia. Qed.

Definition sample_array : list element :=
  map (λ z, [z]) [7; 3; 9; 1; 3; 8; 2; 7; 7; 0; 5; 7; 6; 4; 7].

Section spec.
Context (compar : element → element → Z) `{!TotalCompare compar}.

Definition sorted_by a : Prop :=
  ∀ i j x y, (i ≤ j)%nat → a !! i = Some x → a !! j = Some y → compar x y ≤ 0.

Lemma sorted_seg_all a : sorted_seg compar a 0 (len a) ↔ sorted_by a.
Proof.
  split.
  - intros H i j x y Hij Hi Hj. pose proof (lookup_lt_Some _ _ _ Hj).
    apply (H (Z.of_nat i) (Z.of_nat j)); rewrite ?idx_nat; done || (unfold len; lia).
  - intros H k1 k2 x y Hk1 Hk2 Hx Hy. unfold idx in *.
    replace (k1 <? 0) with false in Hx by lia. replace (k2 <? 0) with false in Hy by lia.
    apply (H (Z.to_nat k1) (Z.to_nat k2)); done || lia.
Qed.

Lemma qsort_ok sz a :
  sized sz a → len a < 2 ^ 31 → ∃ a', qsort compar a = Some a' ∧ a' ≡ₚ a ∧ sorted_by a'.
Proof using All.
  intros Hs Hl. unfold qsort. fold (len a).
  assert (i32 (u32 (len a - 1)) = len a - 1) as ->.
  { destruct (decide (len a = 0)) as [->|]; [done|]. rewrite u32_small, i32_small; unfold len in *; lia. }
  destruct (Qsort_ok compar sz (S (length a)) a 0 (len a - 1)) as (a' & E & Hp & Hso);
    [done|unfold len; lia..|].
  exists a'. split; [done|]. split; [apply Hp|]. apply sorted_seg_all.
  rewrite (perm_in_len _ _ _ _ Hp). by replace (len a - 1 + 1) with (len a) in Hso by lia.
Qed.

(** The part of the array still in question is from [base] on; the key
    equals nothing outside of it. *)
Lemma bsearch_loop_ok fuel key a : sorted_by a → ∀ base n,
  0 ≤ base → 0 ≤ n → base + n ≤ len a → n < Z.of_nat fuel →
  (∀ k x, k < base ∨ base + n ≤ k → idx a k = Some x → compar key x ≠ 0) →
  ∃ r, bsearch_loop compar fuel key a base n = Some r ∧
    match r with
    | Some i => ∃ x, idx a i = Some x ∧ compar key x = 0
    | None => ∀ x, x ∈ a → compar key x ≠ 0
    end.
Proof using All.
  intros Hso%sorted_seg_all. induction fuel as [|fuel IH]; intros base n Hb Hn Hr Hf Hout; [lia|].
  cbn [bsearch_loop]. destruct (Z.eqb_spec n 0) as [->|Hn0].
  { exists None. split; [done|]. intros x (i & Hi)%list_elem_of_lookup.
    apply (Hout (Z.of_nat i)); [lia|by rewrite idx_nat]. }
  assert (0 ≤ n / 2 < n) by (Z.div_mod_to_equations; lia).
  destruct (idx_Some a (base + n / 2)) as [p Hp]; [lia|]. rewrite Hp. cbn [mbind option_bind].
  destruct (Z.ltb_spec (compar key p) 0) as [Hlt|Hge].
  - apply IH; [lia..|]. intros k x Hk Hx. pose proof (idx_range _ _ _ Hx).
    destruct (decide (k < base ∨ base + n ≤ k)) as [Ho|Ho]; [by apply (Hout k)|].
    pose proof (Hso (base + n / 2) k p x ltac:(lia) ltac:(lia) Hp Hx) as Hpx.
    intros Hz. assert (compar p key ≤ 0) as Hpk.
    { apply (cmp_trans p x key); [done|]. apply (cmp_ge compar). lia. }
    pose proof (cmp_le compar _ _ Hpk). lia.
  - destruct (Z.ltb_spec 0 (compar key p)) as [Hgt|Hle].
    + apply IH; [lia..|]. intros k x Hk Hx. pose proof (idx_range _ _ _ Hx).
      destruct (decide (k < base ∨ base + n ≤ k)) as [Ho|Ho]; [by apply (Hout k)|].
      pose proof (Hso k (base + n / 2) x p ltac:(lia) ltac:(lia) Hx Hp) as Hxp.
      intros Hz. assert (compar key p ≤ 0); [|lia]. apply (cmp_trans key x p); [lia|done].
    + exists (Some (base + n / 2)). split; [done|]. exists p. split; [done|lia].
Qed.
End spec.

(** C23: for a comparison function that is a total preorder, [qsort]
    terminates without leaving the array and leaves a permutation of it in
    ascending order; both the selection sort of short arrays and the
    three-way partition of longer ones are covered. *)
Theorem qsort_sorts compar sz a :
  TotalCompare compar → sized sz a → len a < 2 ^ 31 →
  ∃ a', qsort compar a = Some a' ∧ a' ≡ₚ a ∧ sorted_by compar a'.
Proof. intros. by eapply qsort_ok. Qed.

Lemma qsort_sorts_witness :
  ∃ a', qsort compare_bytes sample_array = Some a' ∧ a' ≡ₚ sample_array ∧ sorted_by compare_bytes a'.
Proof.
  apply (qsort_sorts compare_bytes 1 sample_array).
  - exact compare_bytes_total.
  - repeat (apply Forall_cons; split; [done|]). by apply Forall_nil.
  - by vm_compute.
Defined.

(** on a sorted array [bsearch] terminates inside the array, and finds
    an element equal to the key exactly when there is one. *)
Theorem bsearch_decides compar key a :
  TotalCompare compar → sorted_by compar a →
  ∃ r, bsearch compar key a = Some r ∧
    match r with
    | Some i => ∃ x, idx a i = Some x ∧ compar key x = 0
    | None => ∀ x, x ∈ a → compar key x ≠ 0
    end.
Proof.
  intros Hc Hso. apply bsearch_loop_ok; [done|done|lia|lia|unfold len; lia|lia|].
  intros k x Hk Hx%idx_range. unfold len in Hx. lia.
Qed.

Lemma bsearch_decides_witness :
  ∃ r, bsearch compare_bytes [5] [[1]; [3]; [5]; [5]; [8]] = Some r ∧
    match r with
    | Some i => ∃ x, idx [[1]; [3]; [5]; [5]; [8]] i = Some x ∧ compare_bytes [5] x = 0
    | None => ∀ x, x ∈ [[1]; [3]; [5]; [5]; [8]] → compare_bytes [5] x ≠ 0
    end.
Proof.
  apply (bsearch_decides compare_bytes [5] [[1]; [3]; [5]; [5]; [8]]).
  - exact compare_bytes_total.
  - intros i j x y Hij Hi Hj.
    do 5 (destruct j as [|j];
      [do 5 (destruct i as [|i]; [first [lia|simpl in *; simplify_eq; by vm_compute]|]); lia|]).
    done.
Defined.
