(* ===== verification/CAlloc.v ===== *)
(** * malloc, free, calloc and realloc of the C library

    [uuu/lib/c/lib/alloc.c] as built for i386: 32-bit words, pages of 4096
    bytes, an [__alloc_t] of 8 bytes in front of each block.  Memory is a
    map from word addresses to words; a missing address is not mapped.  The
    kernel's answers to [mmap] and [mremap], an address or [MAP_FAILED], are
    a list of the state, consumed one per call. *)
From S2P Require Import Prelude.
Local Open Scope Z_scope.

Definition MEM_BLOCK_SIZE : Z := 4096.
Definition sizeof_alloc_t : Z := 8.
Definition MIN_SMALL_SIZE : Z := MEM_BLOCK_SIZE / 256.
Definition MAX_SMALL_SIZE : Z := MEM_BLOCK_SIZE / 2.
Definition MAP_FAILED : Z := 2 ^ 32 - 1.

Definition BLOCK_START (b : Z) : Z := u32 (b - sizeof_alloc_t).
Definition BLOCK_RET (b : Z) : Z := u32 (b + sizeof_alloc_t).

(** [PAGE_ALIGN(s)] *)
Definition page_align (s : Z) : Z :=
  Z.land (u32 (s + MEM_BLOCK_SIZE - 1)) (u32 (Z.lnot (MEM_BLOCK_SIZE - 1))).

(** [while(size) { size>>=1; ++idx; }] *)
Fixpoint index_loop (fuel : nat) (size idx : Z) : Z :=
  match fuel with
  | O => idx
  | S fuel => if size =? 0 then idx else index_loop fuel (Z.shiftr size 1) (idx + 1)
  end.

Definition ind_shift : Z := if MEM_BLOCK_SIZE =? 4096 then 4 else 5.

(** The argument of the loop has at most 8 bits. *)
Definition get_index (size : Z) : Z :=
  if size =? 0 then 0
  else index_loop 32 (Z.shiftr (Z.land (u32 (size - 1)) (MEM_BLOCK_SIZE - 1)) ind_shift) 0.

(** [GET_SIZE(s)] *)
Definition get_size (s : Z) : Z := u32 (Z.shiftl MIN_SMALL_SIZE (get_index s)).

(** ** The state *)

Record heap : Type := Heap {
  h_small_mem : list Z;
  h_mem : gmap Z Z;
  h_answers : list Z;
  h_errno : Z
}.

Definition set_h_small_mem v h := Heap v (h_mem h) (h_answers h) (h_errno h).
Definition set_h_mem v h := Heap (h_small_mem h) v (h_answers h) (h_errno h).
Definition set_h_answers v h := Heap (h_small_mem h) (h_mem h) v (h_errno h).
Definition set_h_errno v h := Heap (h_small_mem h) (h_mem h) (h_answers h) v.

Definition load_word (p : Z) : M heap Z :=
  h ← gets id;
  deref (h_mem h !! p).

Definition store_word (p v : Z) : M heap unit :=
  load_word p;;
  modify (λ h, set_h_mem (<[p := v]> (h_mem h)) h).

(** The fields of the [__alloc_t] at [p]. *)
Definition get_next (p : Z) : M heap Z := load_word p.
Definition set_next_ptr (p v : Z) : M heap unit := store_word p v.
Definition get_block_size (p : Z) : M heap Z := load_word (p + 4).
Definition set_block_size (p v : Z) : M heap unit := store_word (p + 4) v.

(** The words of [n] bytes from [p] on become [f] of their offset. *)
Fixpoint fill_words (n : nat) (p : Z) (f : Z → Z) (k : Z) (mem : gmap Z Z) : gmap Z Z :=
  match n with
  | O => mem
  | S n => fill_words n p f (k + 4) (<[p + k := f k]> mem)
  end.

Definition words_of (size : Z) : nat := Z.to_nat (size / 4).

(** The next answer of the kernel. *)
Definition ask_kernel : M heap Z :=
  answers ← gets h_answers;
  match answers with
  | [] => stuck
  | a :: rest => modify (set_h_answers rest);; mret a
  end.

(** Anonymous pages read as zeros. *)
Definition do_mmap (size : Z) : M heap Z :=
  page ← ask_kernel;
  if page =? MAP_FAILED then mret MAP_FAILED else
  modify (λ h, set_h_mem (fill_words (words_of (page_align size)) page (λ _, 0) 0 (h_mem h)) h);;
  mret page.

Fixpoint unmap_words (n : nat) (p : Z) (mem : gmap Z Z) : gmap Z Z :=
  match n with
  | O => mem
  | S n => unmap_words n (p + 4) (delete p mem)
  end.

Definition munmap (p size : Z) : M heap unit :=
  modify (λ h, set_h_mem (unmap_words (words_of (page_align size)) p (h_mem h)) h).

Definition copy_of (p : Z) (mem : gmap Z Z) (limit k : Z) : Z :=
  if k <? limit then default 0 (mem !! (p + k)) else 0.

(** [mremap( tmp, old_size, new_size, MREMAP_MAYMOVE )]: the pages move to
    a fresh place with their content. *)
Definition mremap (p old_size new_size : Z) : M heap Z :=
  page ← ask_kernel;
  if page =? MAP_FAILED then mret MAP_FAILED else
  modify (λ h, set_h_mem
    (fill_words (words_of new_size) page (copy_of p (h_mem h) old_size) 0
      (unmap_words (words_of old_size) p (h_mem h))) h);;
  mret page.

(** ** Small blocks *)

Definition get_small (idx : Z) : M heap Z :=
  h ← gets id;
  deref (if idx <? 0 then None else h_small_mem h !! Z.to_nat idx).

Definition put_small (idx p : Z) : M heap unit :=
  get_small idx;;
  modify (λ h, set_h_small_mem (<[Z.to_nat idx := p]> (h_small_mem h)) h).

(** [memset(ptr,0,size)]: all of it has to be mapped. *)
Fixpoint clear_words (n : nat) (p : Z) : M heap unit :=
  match n with
  | O => mret tt
  | S n => store_word p 0;; clear_words n (p + 4)
  end.

Definition small_free (_ptr _size : Z) : M heap unit :=
  let ptr := BLOCK_START _ptr in
  let idx := get_index _size in
  clear_words (words_of _size) ptr;;
  head ← get_small idx;
  set_next_ptr ptr head;;
  put_small idx ptr.

(** [for (i=0;i<nr;i++)]: chain the blocks of a fresh page. *)
Fixpoint chain_blocks (nr : nat) (ptr size : Z) : M heap Z :=
  match nr with
  | O => mret ptr
  | S nr =>
      set_next_ptr ptr (u32 (ptr + size));;
      chain_blocks nr (u32 (ptr + size)) size
  end.

Definition chain_page (page size : Z) : M heap unit :=
  last ← chain_blocks (Z.to_nat (MEM_BLOCK_SIZE / size - 1)) page size;
  set_next_ptr last 0.

(** [__small_mem[idx]=ptr->next; ptr->next=0;] *)
Definition take_block (idx ptr : Z) : M heap Z :=
  next ← get_next ptr;
  put_small idx next;;
  set_next_ptr ptr 0;;
  mret ptr.

Definition small_malloc (size : Z) : M heap Z :=
  let idx := get_index size in
  ptr ← get_small idx;
  if ptr =? 0 then
    page ← do_mmap MEM_BLOCK_SIZE;
    if page =? MAP_FAILED then mret MAP_FAILED else
    put_small idx page;;
    chain_page page size;;
    ptr ← get_small idx;
    take_block idx ptr
  else take_block idx ptr.

(** ** Public functions *)

Definition ENOMEM : Z := 12.
Definition err_out : M heap Z := modify (set_h_errno ENOMEM);; mret 0.

Definition libc_free (ptr : Z) : M heap unit :=
  if ptr =? 0 then mret tt else
  size ← get_block_size (BLOCK_START ptr);
  if size =? 0 then mret tt
  else if size <=? MAX_SMALL_SIZE then small_free ptr size
  else munmap (BLOCK_START ptr) size.

(** [WANT_MALLOC_ZERO] is a build option: [zeromem] is the address of its
    static block when it is on. *)
Definition libc_malloc (zeromem : option Z) (size : Z) : M heap Z :=
  if size =? 0 then
    match zeromem with Some p => mret (BLOCK_RET p) | None => err_out end
  else
    let size := u32 (size + sizeof_alloc_t) in
    if size <? sizeof_alloc_t then err_out else
    let small := size <=? MAX_SMALL_SIZE in
    let need := if small then get_size size else page_align size in
    ptr ← (if small then small_malloc need
           else if need =? 0 then mret MAP_FAILED else do_mmap need);
    if ptr =? MAP_FAILED then err_out else
    set_block_size ptr need;;
    mret (BLOCK_RET ptr).

Definition calloc (zeromem : option Z) (nmemb _size : Z) : M heap Z :=
  let size := u32 (_size * nmemb) in
  if negb (nmemb =? 0) && negb (size / nmemb =? _size) then err_out
  else libc_malloc zeromem size.

(** [memcpy(dst,src,n)] *)
Fixpoint copy_words (n : nat) (dst src : Z) : M heap unit :=
  match n with
  | O => mret tt
  | S n =>
      v ← load_word src;
      store_word dst v;;
      copy_words n (dst + 4) (src + 4)
  end.

Definition libc_realloc (zeromem : option Z) (ptr _size : Z) : M heap Z :=
  if ptr =? 0 then
    if _size =? 0 then mret ptr else libc_malloc zeromem _size
  else if _size =? 0 then libc_free ptr;; mret 0
  else
    let tmp := BLOCK_START ptr in
    let size := u32 (_size + sizeof_alloc_t) in
    if size <? sizeof_alloc_t then err_out else
    let size := if size <=? MAX_SMALL_SIZE then get_size size else page_align size in
    tmp_size ← get_block_size tmp;
    if tmp_size =? size then mret ptr
    else if tmp_size <=? MAX_SMALL_SIZE then
      new ← libc_malloc zeromem _size;
      if new =? 0 then mret new else
      new_size ← get_block_size (BLOCK_START new);
      tmp_size ← get_block_size tmp;
      let n := if tmp_size <? new_size then tmp_size else new_size in
      (if n =? 0 then mret tt
       else copy_words (words_of (u32 (n - sizeof_alloc_t))) new ptr);;
      libc_free ptr;;
      mret new
    else
      let size := page_align size in
      foo ← mremap tmp tmp_size size;
      if foo =? MAP_FAILED then err_out else
      set_block_size foo size;;
      mret (BLOCK_RET foo).
