(* ===== verification/CHeap.v ===== *)
(** * The memory behind malloc and free

    The arithmetic of the size classes, the operations of [alloc.c] on the
    memory map, and the free lists as chains through it. *)
From S2P Require Import Prelude CAlloc.
Local Open Scope Z_scope.

Implicit Types mem : gmap Z Z.

(** ** Size classes *)

Definition class_size (i : nat) : Z := 16 * 2 ^ Z.of_nat i.

Lemma class_cases (i : nat) : (i < 8)%nat →
  class_size i ∈ [16; 32; 64; 128; 256; 512; 1024; 2048] ∧ get_index (class_size i) = Z.of_nat i.
Proof.
  intros Hi. do 8 (destruct i as [|i]; [split; [by apply list_elem_of_In; vm_compute; tauto|done]|]). lia.
Qed.

Lemma class_range (i : nat) : (i < 8)%nat → 16 ≤ class_size i ≤ 2048 ∧ class_size i mod 8 = 0.
Proof.
  intros Hi. do 8 (destruct i as [|i]; [split; [split; by vm_compute|done]|]). lia.
Qed.

Definition size_ok (s : Z) : bool :=
  let i := get_index s in
  (0 <=? i) && (i <? 8) && (get_size s =? class_size (Z.to_nat i)) && (s <=? get_size s) &&
  ((get_size s =? 16) || (get_size s <? 2 * s)).

Lemma size_ok_all : forallb size_ok (seqZ 1 2048) = true.
Proof. by vm_compute. Qed.

(** The size of a small block is the least class that has room. *)
Lemma get_size_class s : 1 ≤ s ≤ 2048 →
  ∃ i, (i < 8)%nat ∧ get_index s = Z.of_nat i ∧ get_size s = class_size i ∧ s ≤ class_size i ∧
    (class_size i = 16 ∨ class_size i < 2 * s).
Proof.
  intros Hs. pose proof (proj1 (forallb_forall _ _) size_ok_all s) as H.
  assert (size_ok s = true) as Ho by (apply H, list_elem_of_In, elem_of_seqZ; lia).
  unfold size_ok in Ho. exists (Z.to_nat (get_index s)). lia.
Qed.

Lemma page_align_spec s : 0 ≤ s ≤ 2 ^ 32 - 4096 →
  page_align s mod 4096 = 0 ∧ s ≤ page_align s < s + 4096.
Proof.
  intros Hs. unfold page_align, MEM_BLOCK_SIZE. rewrite (u32_small (s + 4096 - 1)) by lia.
  assert (u32 (Z.lnot (4096 - 1)) = Z.shiftl (Z.ones 20) 12) as -> by done.
  assert (Z.land (s + 4096 - 1) (Z.shiftl (Z.ones 20) 12) = 4096 * ((s + 4096 - 1) / 4096)) as ->.
  { transitivity (Z.shiftl (Z.shiftr (s + 4096 - 1) 12) 12);
      [|by rewrite Z.shiftl_mul_pow2, Z.shiftr_div_pow2, Z.mul_comm by lia].
    apply Z.bits_inj'. intros i Hi. rewrite Z.land_spec, !Z.shiftl_spec by lia.
    destruct (Z.ltb_spec i 12).
    - rewrite !(Z.testbit_neg_r _ (i - 12)) by lia. by rewrite andb_false_r.
    - rewrite Z.shiftr_spec by lia. replace (i - 12 + 12) with i by lia.
      rewrite Z.testbit_ones_nonneg by lia. destruct (Z.ltb_spec (i - 12) 20); [by rewrite andb_true_r|].
      rewrite andb_false_r. symmetry. apply Z.bits_above_log2; [lia|].
      enough (Z.log2 (s + 4096 - 1) < 32) by lia. apply Z.log2_lt_pow2; lia. }
  rewrite (Z.mul_comm 4096), Z.mod_mul by lia. split; [done|]. Z.div_mod_to_equations. lia.
Qed.

(** ** The memory map *)

Lemma load_word_ok h p v : h_mem h !! p = Some v → load_word p h = Ok v h.
Proof. intros H. unfold load_word. steps. unfold id. by rewrite H. Qed.

Lemma store_word_ok h p v : is_Some (h_mem h !! p) →
  store_word p v h = Ok tt (set_h_mem (<[p := v]> (h_mem h)) h).
Proof. intros [w Hw]. unfold store_word. by step_with (load_word_ok h p w Hw). Qed.

Lemma get_small_ok h (i : nat) p : h_small_mem h !! i = Some p → get_small (Z.of_nat i) h = Ok p h.
Proof.
  intros H. unfold get_small. steps. unfold id. destruct (Z.ltb_spec (Z.of_nat i) 0); [lia|].
  by rewrite Nat2Z.id, H.
Qed.

Lemma put_small_ok h (i : nat) p : (i < length (h_small_mem h))%nat →
  put_small (Z.of_nat i) p h = Ok tt (set_h_small_mem (<[i := p]> (h_small_mem h)) h).
Proof.
  intros [q Hq]%lookup_lt_is_Some_2. unfold put_small. step_with (get_small_ok h i q Hq). steps.
  unfold modify. by rewrite Nat2Z.id.
Qed.

(** Word [a] is one of the [n] words from [p] on. *)
Definition word_of (p : Z) (n : nat) (a : Z) : Prop := p ≤ a < p + 4 * Z.of_nat n ∧ (a - p) mod 4 = 0.

#[export] Instance word_of_dec p n a : Decision (word_of p n a).
Proof. unfold word_of. apply _. Defined.

Lemma word_of_S p n a : word_of p (S n) a ↔ a = p ∨ word_of (p + 4) n a.
Proof. unfold word_of. split; [intros [? ?]|intros [->|[? ?]]]; Z.div_mod_to_equations; lia. Qed.

Lemma fill_words_lookup n p f : ∀ k mem a,
  fill_words n p f k mem !! a = if decide (word_of (p + k) n a) then Some (f (a - p)) else mem !! a.
Proof.
  induction n as [|n IH]; intros k mem a; cbn [fill_words].
  { rewrite decide_False; [done|]. unfold word_of. lia. }
  rewrite IH. replace (p + (k + 4)) with (p + k + 4) by lia.
  destruct (decide (word_of (p + k + 4) n a)) as [H|H].
  - rewrite decide_True; [done|]. apply word_of_S. by right.
  - destruct (decide (a = p + k)) as [->|Hne].
    + rewrite lookup_insert_eq, decide_True; [do 2 f_equal; lia|]. apply word_of_S. by left.
    + rewrite lookup_insert_ne by done. rewrite decide_False; [done|].
      intros [?|?]%word_of_S; done.
Qed.

Lemma unmap_words_lookup n : ∀ p mem a,
  unmap_words n p mem !! a = if decide (word_of p n a) then None else mem !! a.
Proof.
  induction n as [|n IH]; intros p mem a; cbn [unmap_words].
  { rewrite decide_False; [done|]. unfold word_of. lia. }
  rewrite IH. destruct (decide (word_of (p + 4) n a)) as [H|H].
  - rewrite decide_True; [done|]. apply word_of_S. by right.
  - destruct (decide (a = p)) as [->|Hne].
    + rewrite lookup_delete_eq, decide_True; [done|]. apply word_of_S. by left.
    + rewrite lookup_delete_ne by done. rewrite decide_False; [done|].
      intros [?|?]%word_of_S; done.
Qed.

Lemma clear_words_ok n : ∀ p h,
  (∀ a, word_of p n a → is_Some (h_mem h !! a)) →
  ∃ mem, clear_words n p h = Ok tt (set_h_mem mem h) ∧
    ∀ a, mem !! a = if decide (word_of p n a) then Some 0 else h_mem h !! a.
Proof.
  induction n as [|n IH]; intros p h Hm.
  { exists (h_mem h). split; [by destruct h|]. intros a. rewrite decide_False; [done|]. unfold word_of. lia. }
  cbn [clear_words]. step_with (store_word_ok h p 0 ltac:(apply Hm, word_of_S; by left)).
  destruct (IH (p + 4) (set_h_mem (<[p := 0]> (h_mem h)) h)) as (mem & E & Hmem).
  { intros a Ha. cbn [h_mem set_h_mem]. destruct (decide (a = p)) as [->|].
    - rewrite lookup_insert_eq. by exists 0.
    - rewrite lookup_insert_ne by done. apply Hm, word_of_S. by right. }
  exists mem. split; [exact E|]. intros a. rewrite Hmem. cbn [h_mem set_h_mem].
  destruct (decide (word_of (p + 4) n a)) as [H|H].
  - rewrite decide_True; [done|]. apply word_of_S. by right.
  - destruct (decide (a = p)) as [->|Hne].
    + rewrite lookup_insert_eq, decide_True; [done|]. apply word_of_S. by left.
    + rewrite lookup_insert_ne by done. rewrite decide_False; [done|]. intros [?|?]%word_of_S; done.
Qed.

(** ** Free lists *)

(** [l] is the list that hangs on [head]. *)
Fixpoint chain mem (head : Z) (l : list Z) : Prop :=
  match l with
  | [] => head = 0
  | p :: l => head = p ∧ 0 < p ∧ ∃ next, mem !! p = Some next ∧ chain mem next l
  end.

Lemma chain_same mem mem' l : ∀ head,
  (∀ q, q ∈ l → mem' !! q = mem !! q) → chain mem head l → chain mem' head l.
Proof.
  induction l as [|p l IH]; intros head Hs; [done|]. intros (-> & Hp & next & Hn & Hc).
  split; [done|]. split; [done|]. exists next. split; [by rewrite Hs by (by left)|].
  apply IH; [|done]. intros q Hq. apply Hs. by right.
Qed.

Fixpoint spaced (p size : Z) (n : nat) : list Z :=
  match n with
  | O => []
  | S n => p :: spaced (p + size) size n
  end.

Lemma spaced_elem p size n a : a ∈ spaced p size n ↔ ∃ k, (k < n)%nat ∧ a = p + Z.of_nat k * size.
Proof.
  revert p. induction n as [|n IH]; intros p; cbn [spaced].
  { split; [by intros ?%not_elem_of_nil|intros (k & ? & _); lia]. }
  rewrite elem_of_cons, IH. split.
  - intros [->|(k & Hk & ->)]; [exists O; split; lia|exists (S k); split; lia].
  - intros ([|k] & Hk & ->); [left; lia|right; exists k; split; lia].
Qed.

Lemma spaced_NoDup p size n : 0 < size → NoDup (spaced p size n).
Proof.
  intros Hs. revert p. induction n as [|n IH]; intros p; cbn [spaced]; [by apply NoDup_nil|].
  apply NoDup_cons; split; [|apply IH]. intros (k & _ & ?)%spaced_elem. nia.
Qed.

(** Chaining the blocks of a page: the chain is all of them in order. *)
Lemma chain_blocks_ok size nr : ∀ p h,
  0 < size → 0 < p → p + Z.of_nat nr * size < 2 ^ 32 →
  (∀ q, q ∈ spaced p size (S nr) → is_Some (h_mem h !! q)) →
  ∃ mem, (last ← chain_blocks nr p size; set_next_ptr last 0) h = Ok tt (set_h_mem mem h) ∧
    chain mem p (spaced p size (S nr)) ∧
    (∀ a, a ∉ spaced p size (S nr) → mem !! a = h_mem h !! a).
Proof.
  induction nr as [|nr IH]; intros p h Hs Hp Hb Hm; cbn [chain_blocks].
  { exists (<[p := 0]> (h_mem h)). split; [steps; apply store_word_ok, Hm; by left|]. split.
    - cbn [spaced chain]. split; [done|]. split; [done|]. exists 0. by rewrite lookup_insert_eq.
    - intros a Ha. apply lookup_insert_ne. intros ->. apply Ha. by left. }
  rewrite (u32_small (p + size)) by nia. cbn [spaced] in Hm |- *.
  pose proof (spaced_NoDup p size (S (S nr)) Hs) as [Hnin _]%NoDup_cons.
  destruct (IH (p + size) (set_h_mem (<[p := p + size]> (h_mem h)) h)) as (mem & E & Hc & Hsame).
  { done. } { lia. } { lia. }
  { intros q Hq. cbn [h_mem set_h_mem]. rewrite lookup_insert_ne by (intros ->; done). apply Hm. by right. }
  exists mem. split.
  - rewrite bind_assoc. unfold set_next_ptr at 1.
    step_with (store_word_ok h p (p + size) ltac:(apply Hm; by left)). exact E.
  - split; [|intros a Ha; rewrite Hsame by (intros ?; apply Ha; by right); apply lookup_insert_ne; intros ->; apply Ha; by left].
    split; [done|]. split; [done|]. exists (p + size). split; [|exact Hc].
    rewrite Hsame by exact Hnin. apply lookup_insert_eq.
Qed.

(** * The heap invariant

    Blocks are live or on the free list of their size class.  Any two lie
    apart, all their words are mapped, and a live one carries its size.  The
    lemmas move one block at a time between the two kinds and the kernel. *)

Implicit Types (live : gmap Z Z) (free : list (list Z)).

(** A word of the [s] bytes at [p]. *)
Definition in_block (p s a : Z) : Prop := p ≤ a < p + s ∧ (a - p) mod 4 = 0.

Definition block_ok mem (p s : Z) : Prop :=
  (0 < p ∧ p mod 8 = 0) ∧ (16 ≤ s ∧ s mod 8 = 0) ∧ p + s < 2 ^ 32 ∧
  ∀ a, in_block p s a → is_Some (mem !! a).

(** Nothing but the link of a free block is set. *)
Definition block_clear mem (p s : Z) : Prop :=
  ∀ a, in_block p s a → a ≠ p → mem !! a = Some 0.

(** The sizes of live blocks: a class, or whole pages. *)
Definition size_kind (s : Z) : Prop :=
  (∃ i, (i < 8)%nat ∧ s = class_size i) ∨ (2048 < s ∧ s mod 4096 = 0).

Inductive block live free : Z → Z → Prop :=
  | live_block p s : live !! p = Some s → block live free p s
  | free_block i l p : free !! i = Some l → p ∈ l → block live free p (class_size i).

(** The [s] bytes at [p] meet no block. *)
Definition separate live free (p s : Z) : Prop :=
  ∀ q t, block live free q t → p + s ≤ q ∨ q + t ≤ p.

Record heap_ok live free (h : heap) : Prop := HeapOk {
  ho_heads : length (h_small_mem h) = 8%nat;
  ho_lists : length free = 8%nat;
  ho_chains : ∀ i hd l, h_small_mem h !! i = Some hd → free !! i = Some l → chain (h_mem h) hd l;
  ho_blocks : ∀ p s, block live free p s → block_ok (h_mem h) p s;
  ho_apart : ∀ p s q t, block live free p s → block live free q t →
    (p = q ∧ s = t) ∨ p + s ≤ q ∨ q + t ≤ p;
  ho_free : ∀ i l, free !! i = Some l → NoDup l ∧ ∀ p, p ∈ l → live !! p = None;
  ho_clear : ∀ i l p, free !! i = Some l → p ∈ l → block_clear (h_mem h) p (class_size i);
  ho_live : ∀ p s, live !! p = Some s → h_mem h !! (p + 4) = Some s ∧ size_kind s
}.

Lemma in_block_first p s : 16 ≤ s → in_block p s p.
Proof. unfold in_block. intros. rewrite Z.sub_diag. split; [lia|done]. Qed.

Lemma in_block_size p s : 16 ≤ s → in_block p s (p + 4).
Proof. unfold in_block. intros. replace (p + 4 - p) with 4 by lia. split; [lia|done]. Qed.

(** Writes outside the blocks do not matter. *)
Lemma heap_frame live free h mem' :
  heap_ok live free h →
  (∀ p s a, block live free p s → in_block p s a → mem' !! a = h_mem h !! a) →
  heap_ok live free (set_h_mem mem' h).
Proof.
  intros [Hh Hl Hc Hb Ha Hf Hz Hs] Hm. split; try done; cbn [h_mem set_h_mem h_small_mem].
  - intros i hd l Hi Hli. apply (chain_same (h_mem h)); [|by apply (Hc i)].
    intros q Hq. pose proof (free_block live free i l q Hli Hq) as Hbq.
    apply (Hm _ _ _ Hbq), in_block_first. by destruct (Hb _ _ Hbq) as (_ & [? _] & _).
  - intros p s Hp. destruct (Hb _ _ Hp) as (? & ? & ? & Hw). split_and!; try done; try tauto.
    intros a Hin. rewrite (Hm _ _ _ Hp Hin). by apply Hw.
  - intros i l p Hi Hp a Hin Hne. rewrite (Hm p (class_size i)); [by apply (Hz i l p)|by eapply free_block|done].
  - intros p s Hp. destruct (Hs _ _ Hp) as [H4 Hk]. split; [|done]. rewrite <- H4.
    pose proof (live_block live free p s Hp) as Hbp.
    apply (Hm _ _ _ Hbp), in_block_size. by destruct (Hb _ _ Hbp) as (_ & [? _] & _).
Qed.

(** What holds of a set of blocks holds of a smaller one. *)
Lemma separate_sub live free live' free' p s :
  (∀ q t, block live' free' q t → block live free q t) →
  separate live free p s → separate live' free' p s.
Proof. intros Hsub Hs q t Hq. by apply Hs, Hsub. Qed.

Lemma separate_not_live live free h p s :
  heap_ok live free h → 16 ≤ s → separate live free p s → live !! p = None.
Proof.
  intros Hh Hs Hsep. destruct (live !! p) as [t|] eqn:E; [|done].
  pose proof (live_block live free p t E) as Hb.
  destruct (ho_blocks _ _ _ Hh _ _ Hb) as (_ & [? _] & _). destruct (Hsep _ _ Hb); lia.
Qed.

Lemma chain_mapped mem l : ∀ head a, chain mem head l → a ∈ l → is_Some (mem !! a).
Proof.
  induction l as [|x l IH]; intros head a Hc Ha; [by apply not_elem_of_nil in Ha|].
  destruct Hc as (-> & _ & next & Hx & Hc). apply elem_of_cons in Ha as [->|Ha]; [by exists next|].
  by apply (IH next).
Qed.

(** ** Live blocks *)

Lemma heap_adopt live free h p s :
  heap_ok live free h → block_ok (h_mem h) p s → separate live free p s →
  size_kind s → h_mem h !! (p + 4) = Some s →
  heap_ok (<[p := s]> live) free h.
Proof.
  intros Hh Hb Hsep Hk H4.
  assert (∀ q t, block (<[p := s]> live) free q t → (q = p ∧ t = s) ∨ block live free q t) as Hinv.
  { intros q t Hq. destruct Hq as [q t Hq|i l q Hi Hq]; [|right; by eapply free_block].
    apply lookup_insert_Some in Hq as [[-> ->]|[_ Hq]]; [by left|right; by apply live_block]. }
  destruct Hh as [Hh Hl Hc Hbs Ha Hf Hz Hs]. split; try done.
  - intros q t [[-> ->]|Hq]%Hinv; [done|by apply Hbs].
  - intros q t q' t' [[-> ->]|Hq]%Hinv [[-> ->]|Hq']%Hinv; [by left| | |by apply Ha].
    + right. by apply Hsep.
    + right. destruct (Hsep _ _ Hq); [by right|by left].
  - intros i l Hi. destruct (Hf i l Hi) as [Hnd Hln]. split; [done|]. intros q Hq.
    rewrite lookup_insert_ne; [by apply Hln|]. intros <-.
    pose proof (free_block live free i l p Hi Hq) as Hbq.
    destruct (Hbs _ _ Hbq) as (_ & [? _] & _). destruct Hb as (_ & [? _] & _).
    destruct (Hsep _ _ Hbq); lia.
  - intros q t [[-> ->]|[_ Hq]]%lookup_insert_Some; [done|by apply Hs].
Qed.

Lemma heap_release live free h p s :
  heap_ok live free h → live !! p = Some s →
  heap_ok (delete p live) free h ∧ separate (delete p live) free p s.
Proof.
  intros Hh Hp. pose proof (live_block live free p s Hp) as Hbp.
  assert (∀ q t, block (delete p live) free q t → block live free q t) as Hsub.
  { intros q t [q' t' [_ Hq]%lookup_delete_Some|i l q' Hi Hq]; [by apply live_block|by eapply free_block]. }
  split.
  - destruct Hh as [Hh Hl Hc Hbs Ha Hf Hz Hs]. split; try done.
    + intros q t Hq. by apply Hbs, Hsub.
    + intros q t q' t' Hq Hq'. by apply Ha; apply Hsub.
    + intros i l Hi. destruct (Hf i l Hi) as [Hnd Hln]. split; [done|]. intros q Hq.
      apply lookup_delete_None. right. by apply Hln.
    + intros q t [_ Hq]%lookup_delete_Some. by apply Hs.
  - intros q t Hq. destruct (ho_apart _ _ _ Hh _ _ _ _ Hbp (Hsub _ _ Hq)) as [[<- <-]|[?|?]]; [|lia..].
    exfalso. inversion Hq as [? ? [? _]%lookup_delete_Some|i l ? Hi Hin]; subst; [done|].
    destruct (ho_free _ _ _ Hh i l Hi) as [_ Hn]. by rewrite (Hn _ Hin) in Hp.
Qed.

(** ** Free lists *)

Lemma class_size_inj i j : class_size i = class_size j → i = j.
Proof.
  unfold class_size. intros H. apply Nat2Z.inj, (Z.pow_inj_r 2); lia.
Qed.

(** The list of a class becomes another one, of its own blocks and of memory
    that met no block. *)
Lemma heap_set_list live free h i l l' hd :
  heap_ok live free h → free !! i = Some l →
  chain (h_mem h) hd l' → NoDup l' →
  (∀ p, p ∈ l' → block_ok (h_mem h) p (class_size i) ∧ block_clear (h_mem h) p (class_size i) ∧ (p ∈ l ∨ separate live free p (class_size i))) →
  (∀ p q, p ∈ l' → q ∈ l' → p = q ∨ p + class_size i ≤ q ∨ q + class_size i ≤ p) →
  heap_ok live (<[i := l']> free) (set_h_small_mem (<[i := hd]> (h_small_mem h)) h).
Proof.
  intros Hh Hi Hch Hnd Hnew Hpair.
  assert (∀ q t, block live (<[i := l']> free) q t →
    (q ∈ l' ∧ t = class_size i) ∨ block live free q t) as Hinv.
  { intros q t [q' t' Hq|j k q' Hj Hq]; [right; by apply live_block|].
    apply list_lookup_insert_Some in Hj as [(<- & -> & _)|[_ Hj]]; [by left|right; by eapply free_block]. }
  assert (∀ p q t, p ∈ l' → block live free q t → (p = q ∧ class_size i = t) ∨ p + class_size i ≤ q ∨ q + t ≤ p) as Hold.
  { intros p q t Hp Hq. destruct (Hnew p Hp) as (_ & _ & [Hpl|Hs]); [|right; by apply Hs].
    apply (ho_apart _ _ _ Hh); [by eapply free_block|done]. }
  destruct Hh as [Hh Hl Hc Hbs Ha Hf Hz Hs].
  split; cbn [h_small_mem h_mem set_h_small_mem]; rewrite ?length_insert; try done.
  - intros j hd' k Hj Hk. apply list_lookup_insert_Some in Hk as [(<- & -> & Hlt)|[Hne Hk]].
    + rewrite list_lookup_insert_eq in Hj by lia. by simplify_eq.
    + rewrite list_lookup_insert_ne in Hj by done. by apply (Hc j).
  - intros q t [[Hq ->]|Hq]%Hinv; [by apply Hnew|by apply Hbs].
  - intros q t q' t' [[Hq ->]|Hq]%Hinv [[Hq' ->]|Hq']%Hinv.
    + destruct (Hpair q q' Hq Hq') as [->|?]; [by left|by right].
    + by apply Hold.
    + destruct (Hold q' q t Hq' Hq) as [[-> ->]|[?|?]]; auto.
    + by apply Ha.
  - intros j k Hk. apply list_lookup_insert_Some in Hk as [(<- & -> & Hlt)|[Hne Hk]]; [|by apply (Hf j)].
    split; [done|]. intros p Hp. destruct (Hnew p Hp) as (Hbp & _ & [Hpl|Hsep]); [by eapply Hf|].
    eapply (separate_not_live live free h); [by split|apply Hbp|exact Hsep].
  - intros j k p Hk Hp. apply list_lookup_insert_Some in Hk as [(<- & -> & Hlt)|[Hne Hk]]; [by apply Hnew|by apply (Hz j k)].
Qed.

(** ** The kernel's pages *)

(** The next answer is [MAP_FAILED], or pages of the address space that
    nothing was mapped to. *)
Definition kernel_ready (need : Z) (h : heap) : Prop :=
  ∃ page rest, h_answers h = page :: rest ∧
    (page = MAP_FAILED ∨
     0 < page ∧ page mod 4096 = 0 ∧ page + need < 2 ^ 32 ∧
     ∀ a, in_block page need a → h_mem h !! a = None).

Lemma word_of_block p s a : 0 ≤ s → s mod 4 = 0 → word_of p (words_of s) a ↔ in_block p s a.
Proof.
  intros H0 H4. unfold word_of, in_block, words_of.
  rewrite Z2Nat.id by (apply Z.div_pos; lia). rewrite <- (Z_div_exact_2 s 4) by lia. done.
Qed.

Lemma mod_mul_of a b c : 0 < b → 0 < c → a mod (b * c) = 0 → a mod b = 0.
Proof. intros Hb Hc H. apply Z.mod_divide in H as [k ->]; [|lia]. rewrite (Z.mul_comm b), Z.mul_assoc. apply Z.mod_mul. lia. Qed.

Lemma fresh_separate live free h page n :
  heap_ok live free h → page mod 4096 = 0 → 0 < n → n mod 4096 = 0 →
  (∀ a, in_block page n a → h_mem h !! a = None) → separate live free page n.
Proof.
  intros Hh Hp Hn Hn4 Hnone q t Hq.
  destruct (ho_blocks _ _ _ Hh _ _ Hq) as ((Hq0 & Hq8) & (Ht & Ht8) & _ & Hw).
  destruct (decide (page + n ≤ q ∨ q + t ≤ page)) as [|Hover]; [done|exfalso].
  assert (in_block page n (Z.max page q) ∧ in_block q t (Z.max page q)) as [H1 H2].
  { pose proof (mod_mul_of page 8 512 ltac:(lia) ltac:(lia) Hp).
    unfold in_block. split; (split; [lia|]); destruct (Z.max_spec page q) as [[_ ->]|[_ ->]];
      Z.div_mod_to_equations; lia. }
  apply Hw in H2. rewrite (Hnone _ H1) in H2. by destruct H2.
Qed.

Lemma do_mmap_ok live free h n :
  heap_ok live free h → 0 < n → n mod 4096 = 0 → n ≤ 2 ^ 32 - 4096 → kernel_ready n h →
  (∃ rest, h_answers h = MAP_FAILED :: rest ∧ do_mmap n h = Ok MAP_FAILED (set_h_answers rest h)) ∨
  ∃ page rest mem,
    do_mmap n h = Ok page (set_h_mem mem (set_h_answers rest h)) ∧
    page ≠ MAP_FAILED ∧ block_ok mem page n ∧ separate live free page n ∧ page mod 4096 = 0 ∧
    (∀ a, in_block page n a → mem !! a = Some 0) ∧
    (∀ a, ¬ in_block page n a → mem !! a = h_mem h !! a).
Proof.
  intros Hh Hn Hn4 Hn32 (page & rest & Ha & Hk). unfold do_mmap, ask_kernel.
  rewrite bind_assoc. steps. rewrite Ha, bind_assoc. steps.
  destruct Hk as [->|(Hp & Hp4 & Hb & Hnone)]; [left; by exists rest|]. right.
  assert (page ≠ MAP_FAILED) as Hne by (unfold MAP_FAILED; lia).
  destruct (Z.eqb_spec page MAP_FAILED); [done|]. steps.
  destruct (page_align_spec n) as [Hal Hal']; [lia|].
  assert (page_align n = n) as -> by (Z.div_mod_to_equations; lia).
  pose proof (mod_mul_of n 4 1024 ltac:(lia) ltac:(lia) Hn4).
  eexists page, rest, _. split; [done|]. split; [done|]. split_and!.
  - split; [split; [done|by apply (mod_mul_of _ 8 512)]|].
    split; [split; [Z.div_mod_to_equations; lia|by apply (mod_mul_of _ 8 512)]|]. split; [done|].
    intros a Hin. rewrite fill_words_lookup, Z.add_0_r, decide_True; [by eexists|].
    apply word_of_block; [lia|done..].
  - by apply (fresh_separate live free h).
  - done.
  - intros a Hin. rewrite fill_words_lookup, Z.add_0_r, decide_True; [done|].
    apply word_of_block; [lia|done..].
  - intros a Hin. rewrite fill_words_lookup, Z.add_0_r, decide_False; [done|].
    rewrite word_of_block by (lia || done). done.
Qed.

(** ** Small blocks *)

Lemma bind_seq {S A B C} (c : M S A) (d : M S B) (f : B → M S C) s :
  ((c;; d) ≫= f) s = (c;; d ≫= f) s.
Proof. apply bind_assoc. Qed.

Lemma class_block_ok mem i p n :
  (i < 8)%nat → block_ok mem p n → ∀ k, 0 ≤ k → (k + 1) * class_size i ≤ n →
  block_ok mem (p + k * class_size i) (class_size i).
Proof.
  intros Hi ((Hp & Hp8) & (Hn & Hn8) & Hb & Hw) k Hk Hkn.
  destruct (class_range i Hi) as [Hr Hm].
  assert ((k * class_size i) mod 8 = 0) as Hkm.
  { rewrite Z.mul_mod, Hm, Z.mul_0_r by lia. done. }
  split; [split; [nia|rewrite Z.add_mod, Hp8, Hkm by lia; done]|].
  split; [split; [lia|done]|]. split; [nia|].
  intros a [Ha Ha4]. apply Hw. split; [nia|].
  replace (a - p) with (a - (p + k * class_size i) + k * class_size i) by lia.
  rewrite Z.add_mod, Ha4 by lia. pose proof (mod_mul_of _ 4 2 ltac:(lia) ltac:(lia) Hkm) as ->. done.
Qed.

Lemma take_block_ok live free h i p l :
  heap_ok live free h → (i < 8)%nat → free !! i = Some (p :: l) →
  ∃ h', take_block (Z.of_nat i) p h = Ok p h' ∧ heap_ok live (<[i := l]> free) h' ∧
    separate live (<[i := l]> free) p (class_size i) ∧ block_ok (h_mem h') p (class_size i) ∧
    (∀ a, in_block p (class_size i) a → h_mem h' !! a = Some 0) ∧
    (∀ a, a ≠ p → h_mem h' !! a = h_mem h !! a).
Proof.
  intros Hh Hi Hl.
  assert (∃ hd, h_small_mem h !! i = Some hd) as [hd Hhd].
  { apply lookup_lt_is_Some. rewrite (ho_heads _ _ _ Hh). lia. }
  pose proof (ho_chains _ _ _ Hh _ _ _ Hhd Hl) as (-> & Hp & next & Hnext & Hch).
  pose proof (free_block live free i (p :: l) p Hl ltac:(by left)) as Hbp.
  destruct (ho_free _ _ _ Hh i _ Hl) as [Hnd Hnl].
  apply NoDup_cons in Hnd as Hnd'. destruct Hnd' as [Hnin Hnd'].
  assert (heap_ok live (<[i := l]> free) (set_h_small_mem (<[i := next]> (h_small_mem h)) h)) as Hh'.
  { apply (heap_set_list live free h i (p :: l)); try done.
    - intros q Hq. split; [|split; [|left; by right]].
      + apply (ho_blocks _ _ _ Hh). eapply free_block; [done|by right].
      + eapply (ho_clear _ _ _ Hh); [done|by right].
    - intros q q' Hq Hq'. destruct (ho_apart _ _ _ Hh q (class_size i) q' (class_size i)) as [[? _]|?];
        [eapply free_block; [done|by right]..|by left|by right]. }
  assert (separate live (<[i := l]> free) p (class_size i)) as Hsep.
  { intros q t Hq. inversion Hq as [? ? Hql|j k ? Hj Hin]; subst.
    - destruct (ho_apart _ _ _ Hh _ _ _ _ Hbp (live_block live free _ _ Hql)) as [[<- _]|?]; [|done].
      by rewrite Hnl in Hql by (by left).
    - apply list_lookup_insert_Some in Hj as [(<- & -> & _)|[Hne Hj]].
      + destruct (ho_apart _ _ _ Hh p (class_size i) q (class_size i)) as [[<- _]|?]; try done.
        eapply free_block; [done|by right].
      + destruct (ho_apart _ _ _ Hh _ _ _ _ Hbp (free_block live free j k q Hj Hin)) as [[<- Hs]|?]; [|done].
        by apply class_size_inj in Hs. }
  destruct (ho_blocks _ _ _ Hh _ _ Hbp) as (Hp8 & Hs & Hb & Hw).
  unfold take_block, get_next. step_with (load_word_ok h p next Hnext).
  step_with (put_small_ok h i next ltac:(rewrite (ho_heads _ _ _ Hh); lia)). unfold set_next_ptr.
  step_with (store_word_ok (set_h_small_mem (<[i := next]> (h_small_mem h)) h) p 0 ltac:(by exists next)).
  eexists. split; [done|]. split_and!; cbn [h_mem set_h_mem].
  - apply heap_frame; [done|]. intros q t a Hq [Ha _]. apply lookup_insert_ne. intros <-.
    destruct (Hsep _ _ Hq); lia.
  - done.
  - split_and!; try done; try tauto. intros a Ha. destruct (decide (a = p)) as [->|Hne].
    + rewrite lookup_insert_eq. by eexists.
    + rewrite lookup_insert_ne by done. by apply Hw.
  - intros a Ha. destruct (decide (a = p)) as [->|Hne]; [by rewrite lookup_insert_eq|].
    rewrite lookup_insert_ne by done. eapply (ho_clear _ _ _ Hh i); [done|by left|done|done].
  - intros a Ha. by apply lookup_insert_ne.
Qed.

Lemma spaced_page_ok mem i page :
  (i < 8)%nat → block_ok mem page 4096 →
  let l := spaced page (class_size i) (S (Z.to_nat (4096 / class_size i - 1))) in
  (∀ p, p ∈ l → page ≤ p ∧ p + class_size i ≤ page + 4096 ∧ block_ok mem p (class_size i)) ∧
  (∀ p q, p ∈ l → q ∈ l → p = q ∨ p + class_size i ≤ q ∨ q + class_size i ≤ p).
Proof.
  intros Hi Hb l. destruct (class_range i Hi) as [Hr _].
  assert (class_size i * (4096 / class_size i) = 4096) as Hdiv.
  { do 8 (destruct i as [|i]; [done|]). lia. }
  set (s := class_size i) in *. set (q := 4096 / s) in *. assert (1 ≤ q) by nia.
  split.
  - intros p (k & Hk & ->)%spaced_elem. assert (Z.of_nat k + 1 ≤ q) by lia.
    split; [nia|]. split; [nia|]. apply (class_block_ok mem i page 4096); [done..|lia|]. fold s. nia.
  - intros p p' (k & Hk & ->)%spaced_elem (k' & Hk' & ->)%spaced_elem.
    destruct (Z.lt_total (Z.of_nat k) (Z.of_nat k')) as [?|[->|?]]; [right; left; nia|by left|right; right; nia].
Qed.

Definition words_kept live (h h' : heap) : Prop :=
  ∀ p s a, live !! p = Some s → in_block p s a → h_mem h' !! a = h_mem h !! a.

Lemma heap_ok_ext live free h h' :
  heap_ok live free h → h_small_mem h' = h_small_mem h → h_mem h' = h_mem h → heap_ok live free h'.
Proof. intros [] E1 E2. split; rewrite ?E1, ?E2; done. Qed.

Lemma spaced_word page s n p a :
  s mod 8 = 0 → p ∈ spaced page s n → page ≤ p → p + s ≤ page + 4096 →
  p ≤ a < p + s → (a - p) mod 4 = 0 → in_block page 4096 a.
Proof.
  intros Hs (k & _ & ->)%spaced_elem ? ? ? Ha. split; [lia|].
  replace (a - page) with (a - (page + Z.of_nat k * s) + Z.of_nat k * s) by lia.
  rewrite Z.add_mod, Ha, Z.mul_mod, (mod_mul_of s 4 2) by (lia || done). by rewrite Z.mul_0_r.
Qed.

(** A fresh page becomes the free list of a class. *)
Lemma refill_ok live free h i page :
  heap_ok live free h → (i < 8)%nat → free !! i = Some [] →
  block_ok (h_mem h) page 4096 → (∀ a, in_block page 4096 a → h_mem h !! a = Some 0) →
  separate live free page 4096 →
  ∃ l h', (put_small (Z.of_nat i) page;; chain_page page (class_size i)) h = Ok tt h' ∧
    h_small_mem h' !! i = Some page ∧ heap_ok live (<[i := page :: l]> free) h' ∧
    (∀ q t a, block live free q t → in_block q t a → h_mem h' !! a = h_mem h !! a).
Proof.
  intros Hh Hi Hl Hb Hzero Hsep. destruct (class_range i Hi) as [Hr _].
  destruct (spaced_page_ok (h_mem h) i page Hi Hb) as [Hsp Hpair].
  step_with (put_small_ok h i page ltac:(rewrite (ho_heads _ _ _ Hh); lia)).
  unfold chain_page. change MEM_BLOCK_SIZE with 4096. set (n := Z.to_nat (4096 / class_size i - 1)) in *.
  destruct (chain_blocks_ok (class_size i) n page (set_h_small_mem (<[i := page]> (h_small_mem h)) h))
    as (mem & Ec & Hc & Hkeep).
  { lia. } { by destruct Hb as ((? & _) & _). }
  { assert (page + Z.of_nat n * class_size i ∈ spaced page (class_size i) (S n)) as Hlast
      by (apply spaced_elem; exists n; split; [lia|done]).
    destruct (Hsp _ Hlast) as (_ & _ & _ & _ & ? & _). lia. }
  { intros q Hq. destruct (Hsp q Hq) as (_ & _ & _ & [? _] & _ & Hw). apply Hw, in_block_first. done. }
  rewrite Ec. set (l := spaced page (class_size i) (S n)) in *.
  assert (∀ q t a, block live free q t → in_block q t a → mem !! a = h_mem h !! a) as Hsame.
  { intros q t a Hq [Ha _]. apply Hkeep. intros Hal. destruct (Hsp a Hal) as (? & ? & _).
    destruct (Hsep _ _ Hq); lia. }
  exists (spaced (page + class_size i) (class_size i) n). eexists. split; [done|]. cbn [h_small_mem h_mem set_h_mem set_h_small_mem].
  split; [apply list_lookup_insert_eq; rewrite (ho_heads _ _ _ Hh); lia|]. split; [|exact Hsame].
  apply (heap_ok_ext _ _ (set_h_small_mem (<[i := page]> (h_small_mem h)) (set_h_mem mem h))); [|done..].
  apply (heap_set_list live free (set_h_mem mem h) i []); try done.
  - by apply heap_frame.
  - apply (spaced_NoDup page (class_size i) (S n)). lia.
  - intros q Hq. destruct (Hsp q Hq) as (? & ? & Hq1 & Hq2 & Hq3 & Hqw). split; [|split].
    + split_and!; try done; try tauto. intros a Ha. cbn [h_mem set_h_mem]. destruct (decide (a ∈ l)) as [Hal|Hal].
      * by apply (chain_mapped mem l page).
      * rewrite Hkeep by done. by apply Hqw.
    + intros a [Ha Ha4] Hne. cbn [h_mem set_h_mem]. rewrite Hkeep.
      * apply Hzero. apply (spaced_word page (class_size i) (S n) q); try done. by apply class_range.
      * intros Hal. destruct (Hpair q a Hq Hal); lia.
    + right. intros x t Hx. destruct (Hsep _ _ Hx); lia.
Qed.

Lemma small_malloc_ok live free h i :
  heap_ok live free h → (i < 8)%nat → kernel_ready 4096 h →
  (∃ rest, h_answers h = MAP_FAILED :: rest ∧ small_malloc (class_size i) h = Ok MAP_FAILED (set_h_answers rest h)) ∨
  ∃ p free' h', small_malloc (class_size i) h = Ok p h' ∧ p ≠ MAP_FAILED ∧ heap_ok live free' h' ∧
    separate live free' p (class_size i) ∧ block_ok (h_mem h') p (class_size i) ∧
    (∀ a, in_block p (class_size i) a → h_mem h' !! a = Some 0) ∧ words_kept live h h'.
Proof.
  intros Hh Hi Hk. destruct (class_cases i Hi) as [_ Hidx].
  destruct (lookup_lt_is_Some_2 (h_small_mem h) i) as [hd Hhd]; [rewrite (ho_heads _ _ _ Hh); lia|].
  destruct (lookup_lt_is_Some_2 free i) as [l Hl]; [rewrite (ho_lists _ _ _ Hh); lia|].
  pose proof (ho_chains _ _ _ Hh _ _ _ Hhd Hl) as Hch.
  (* the tail of the two branches *)
  assert (∀ free1 h1 p l1, heap_ok live free1 h1 → words_kept live h h1 → free1 !! i = Some (p :: l1) →
    ∃ free' h', take_block (Z.of_nat i) p h1 = Ok p h' ∧ p ≠ MAP_FAILED ∧ heap_ok live free' h' ∧
      separate live free' p (class_size i) ∧ block_ok (h_mem h') p (class_size i) ∧
    (∀ a, in_block p (class_size i) a → h_mem h' !! a = Some 0) ∧ words_kept live h h') as Htake.
  { intros free1 h1 p l1 Hh1 Hk1 Hl1.
    destruct (take_block_ok live free1 h1 i p l1 Hh1 Hi Hl1) as (h' & Et & Ht & Hst & Hbt & Hzt & Hkt).
    exists (<[i := l1]> free1), h'. split_and!; try done.
    - unfold MAP_FAILED. destruct Hbt as (_ & [? _] & ? & _). lia.
    - intros q s a Hq Ha. rewrite Hkt; [by apply (Hk1 q s)|]. intros ->. destruct Ha as [Ha _].
      destruct Hbt as (_ & [? _] & _). destruct (Hst _ _ (live_block _ _ _ _ Hq)); lia. }
  unfold small_malloc. rewrite Hidx. step_with (get_small_ok h i hd Hhd).
  destruct l as [|p l].
  - cbn [chain] in Hch. subst hd. cbn [Z.eqb]. change MEM_BLOCK_SIZE with 4096.
    destruct (do_mmap_ok live free h 4096 Hh) as [(rest & Ha & E)|(page & rest & mem & E & Hne & Hb & Hsep & Hpg & Hzero & Hmem)];
      [done..| |]; [left; exists rest; split; [done|by step_with E]|right].
    step_with E. destruct (Z.eqb_spec page MAP_FAILED); [done|].
    assert (∀ q t a, block live free q t → in_block q t a → mem !! a = h_mem h !! a) as Hsame.
    { intros q t a Hq [Ha _]. apply Hmem. intros [? _]. destruct (Hsep _ _ Hq); lia. }
    destruct (refill_ok live free (set_h_mem mem (set_h_answers rest h)) i page) as (l & h2 & Er & Hp2 & Hh2 & Hs2); try done.
    { apply (heap_ok_ext _ _ (set_h_mem mem h)); [by apply heap_frame|done..]. }
    rewrite <- (bind_seq (put_small _ _)). step_with Er. step_with (get_small_ok h2 i page Hp2).
    destruct (Htake _ h2 page l Hh2) as (free' & h' & ?).
    { intros q s a Hq%(live_block live free) Ha. rewrite (Hs2 q s) by done. by apply (Hsame q s). }
    { apply list_lookup_insert_eq. rewrite (ho_lists _ _ _ Hh). lia. }
    by exists page, free', h'.
  - destruct Hch as (-> & Hp & _). destruct (Z.eqb_spec p 0); [lia|]. right.
    destruct (Htake free h p l Hh) as (free' & h' & ?); [done|done|]. by exists p, free', h'.
Qed.

(** ** What an allocation promises *)

(** The bytes [malloc(size)] asks of the kernel when it has to. *)
Definition request (size : Z) : Z :=
  if size + 8 <=? 2048 then 4096 else page_align (size + 8).

(** The largest request: a header more is at most the last page. *)
Definition MALLOC_MAX : Z := 2 ^ 32 - 4104.

Inductive allocated live free (h : heap) (size : Z) : Z → heap → Prop :=
  | alloc_fails h' :
      size = 0 ∨ MALLOC_MAX < size ∨ (∃ rest, h_answers h = MAP_FAILED :: rest) →
      h_errno h' = ENOMEM → h_mem h' = h_mem h → heap_ok live free h' →
      allocated live free h size 0 h'
  | alloc_block p s free' h' :
      live !! p = None → 0 < p → (p + 8) mod 8 = 0 → size + 8 ≤ s →
      (∀ q t, live !! q = Some t → p + s ≤ q ∨ q + t ≤ p) →
      (∀ a, in_block (p + 8) (s - 8) a → h_mem h' !! a = Some 0) →
      words_kept live h h' →
      heap_ok (<[p := s]> live) free' h' →
      allocated live free h size (p + 8) h'.

(** Stamping a fresh block makes it live. *)
Lemma stamp_ok live free free' h h1 p s size :
  heap_ok live free' h1 → separate live free' p s → block_ok (h_mem h1) p s →
  (∀ a, in_block p s a → h_mem h1 !! a = Some 0) → words_kept live h h1 →
  size_kind s → size + 8 ≤ s →
  ∃ h', (set_block_size p s;; mret (BLOCK_RET p)) h1 = Ok (p + 8) h' ∧
    allocated live free h size (p + 8) h'.
Proof.
  intros Hh Hsep Hb Hz Hk Hkind Hs. destruct Hb as ((Hp & Hp8) & (Hs16 & Hs8) & Hps & Hw).
  unfold set_block_size, BLOCK_RET, sizeof_alloc_t. rewrite (u32_small (p + 8)) by lia.
  step_with (store_word_ok h1 (p + 4) s ltac:(apply Hw, in_block_size; lia)).
  eexists. split; [done|].
  assert (∀ q t a, block live free' q t → in_block q t a →
    <[p + 4 := s]> (h_mem h1) !! a = h_mem h1 !! a) as Hsame.
  { intros q t a Hq [Ha _]. apply lookup_insert_ne. intros <-. destruct (Hsep _ _ Hq); lia. }
  apply (alloc_block live free h size p s free'); cbn [h_mem set_h_mem]; try done.
  - apply (separate_not_live live free' h1 p s); done.
  - rewrite Z.add_mod, Hp8 by lia. done.
  - intros q t Hq. by apply Hsep, live_block.
  - intros a [Ha Ha4]. rewrite lookup_insert_ne by lia. apply Hz. split; [lia|].
    replace (a - p) with (a - (p + 8) + 2 * 4) by lia. by rewrite Z.mod_add.
  - intros q t a Hq Ha. cbn [h_mem set_h_mem]. rewrite (Hsame q t); [by apply (Hk q t)|by apply live_block|done].
  - apply heap_adopt; cbn [h_mem set_h_mem]; try done.
    + apply heap_frame; [done|exact Hsame].
    + split_and!; try done. intros a Ha. apply lookup_insert_is_Some'. right. by apply Hw.
    + apply lookup_insert_eq.
Qed.

Lemma refused_ok live free h rest size :
  heap_ok live free h → h_answers h = MAP_FAILED :: rest →
  allocated live free h size 0 (set_h_errno ENOMEM (set_h_answers rest h)).
Proof.
  intros Hh Ha. apply alloc_fails; [right; right; by exists rest|done..|].
  by apply (heap_ok_ext live free h).
Qed.

Lemma libc_malloc_ok live free h size :
  heap_ok live free h → 0 ≤ size < 2 ^ 32 →
  (0 < size ≤ MALLOC_MAX → kernel_ready (request size) h) →
  ∃ r h', libc_malloc None size h = Ok r h' ∧ allocated live free h size r h'.
Proof.
  intros Hh Hs Hk. unfold libc_malloc.
  assert (size = 0 ∨ MALLOC_MAX < size → allocated live free h size 0 (set_h_errno ENOMEM h)) as Herr.
  { intros Hwhy. apply alloc_fails; [tauto|done..|]. by apply (heap_ok_ext live free h). }
  destruct (Z.eqb_spec size 0) as [->|Hne]; [do 2 eexists; split; [done|auto]|].
  unfold sizeof_alloc_t, MALLOC_MAX, request, MAX_SMALL_SIZE in *. change (MEM_BLOCK_SIZE / 2) with 2048.
  destruct (Z.ltb_spec (u32 (size + 8)) 8) as [Hov|Hov].
  { do 2 eexists. split; [done|]. apply Herr. right.
    destruct (Z.lt_ge_cases (size + 8) (2 ^ 32)); [|lia]. rewrite u32_small in Hov; lia. }
  assert (size + 8 < 2 ^ 32) as H32.
  { destruct (Z.lt_ge_cases (size + 8) (2 ^ 32)); [done|]. unfold u32 in Hov.
    rewrite <- (Z.mod_add _ (-1)), Z.mod_small in Hov; lia. }
  rewrite (u32_small (size + 8)) in * by lia.
  destruct (Z.leb_spec (size + 8) 2048) as [Hsm|Hlg].
  - destruct (get_size_class (size + 8)) as (i & Hi & _ & -> & Hle & _); [lia|].
    destruct (small_malloc_ok live free h i Hh Hi) as [(rest & Ha & E)|(p & free' & h1 & E & Hp & Hh1 & Hsep & Hb & Hz & Hkeep)];
      [apply Hk; lia|step_with E..].
    { do 2 eexists. split; [done|]. by apply refused_ok. }
    destruct (Z.eqb_spec p MAP_FAILED); [done|].
    destruct (stamp_ok live free free' h h1 p (class_size i) size) as (h' & E' & Hal); try done; [left; by exists i|].
    by exists (p + 8), h'.
  - destruct (Z.le_gt_cases (size + 8) (2 ^ 32 - 4096)) as [Hfit|Hbig].
    + destruct (page_align_spec (size + 8)) as [Hal1 Hal2]; [lia|]. set (need := page_align (size + 8)) in *.
      destruct (Z.eqb_spec need 0); [lia|].
      assert (need ≤ 2 ^ 32 - 4096) by (Z.div_mod_to_equations; lia).
      destruct (do_mmap_ok live free h need Hh) as [(rest & Ha & E)|(p & rest & mem & E & Hp & Hb & Hsep & Hpg & Hz & Hmem)];
        [lia|done|done|apply Hk; lia|step_with E..].
      { do 2 eexists. split; [done|]. by apply refused_ok. }
      destruct (Z.eqb_spec p MAP_FAILED); [done|].
      assert (∀ q t a, block live free q t → in_block q t a → mem !! a = h_mem h !! a) as Hsame.
      { intros q t a Hq [Ha _]. apply Hmem. intros [? _]. destruct (Hsep _ _ Hq); lia. }
      destruct (stamp_ok live free free h (set_h_mem mem (set_h_answers rest h)) p need size)
        as (h' & E' & Hal); try done.
      { apply (heap_ok_ext _ _ (set_h_mem mem h)); [by apply heap_frame|done..]. }
      { intros q t a Hq Ha. apply (Hsame q t); [by apply live_block|done]. }
      { right. lia. } { lia. }
      by exists (p + 8), h'.
    + assert (page_align (size + 8) = 0) as ->.
      { unfold page_align, MEM_BLOCK_SIZE.
        assert (u32 (size + 8 + 4096 - 1) = size + 8 + 4096 - 1 - 2 ^ 32) as ->.
        { unfold u32. rewrite <- (Z.mod_add _ (-1)), Z.mod_small; lia. }
        pose proof (page_align_spec 1 ltac:(lia)).
        apply Z.bits_inj'. intros k Hk0. rewrite Z.land_spec, Z.bits_0.
        destruct (Z.ltb_spec k 12).
        - assert (u32 (Z.lnot (4096 - 1)) = Z.shiftl (Z.ones 20) 12) as -> by done.
          rewrite Z.shiftl_spec_low by lia. by rewrite andb_false_r.
        - rewrite Z.bits_above_log2; [done|lia|].
          destruct (Z.eq_dec (size + 8 + 4096 - 1 - 2 ^ 32) 0) as [->|]; [change (Z.log2 0) with 0; lia|].
          enough (Z.log2 (size + 8 + 4096 - 1 - 2 ^ 32) < 12) by lia. apply Z.log2_lt_pow2; lia. }
      cbn [Z.eqb]. rewrite bind_ret. do 2 eexists. split; [done|]. apply Herr. lia.
Qed.

(** ** What freeing promises *)

Inductive freed live free (h : heap) (p s : Z) : heap → Prop :=
  | freed_small i l h' :
      (i < 8)%nat → s = class_size i → free !! i = Some l → h_small_mem h' !! i = Some p →
      heap_ok (delete p live) (<[i := p :: l]> free) h' →
      words_kept (delete p live) h h' →
      freed live free h p s h'
  | freed_pages h' :
      2048 < s → (∀ a, in_block p s a → h_mem h' !! a = None) →
      heap_ok (delete p live) free h' →
      words_kept (delete p live) h h' →
      freed live free h p s h'.

Lemma separate_words live free p s q t a :
  separate live free p s → block live free q t → in_block q t a → ¬ in_block p s a.
Proof. intros Hsep Hq [Ha _] [Ha' _]. destruct (Hsep _ _ Hq); lia. Qed.

Lemma small_free_ok live free h p i :
  heap_ok live free h → (i < 8)%nat → block_ok (h_mem h) p (class_size i) → separate live free p (class_size i) →
  ∃ l h', small_free (p + 8) (class_size i) h = Ok tt h' ∧ free !! i = Some l ∧
    h_small_mem h' !! i = Some p ∧ heap_ok live (<[i := p :: l]> free) h' ∧ words_kept live h h'.
Proof.
  intros Hh Hi Hb Hsep. destruct (class_cases i Hi) as [_ Hidx]. destruct (class_range i Hi) as [Hr Hr8].
  pose proof (mod_mul_of _ 4 2 ltac:(lia) ltac:(lia) Hr8) as Hr4.
  destruct (lookup_lt_is_Some_2 (h_small_mem h) i) as [hd Hhd]; [rewrite (ho_heads _ _ _ Hh); lia|].
  destruct (lookup_lt_is_Some_2 free i) as [l Hl]; [rewrite (ho_lists _ _ _ Hh); lia|].
  assert (¬ p ∈ l) as Hpl.
  { intros Hp. destruct (Hsep _ _ (free_block live free i l p Hl Hp)); lia. }
  destruct Hb as ((Hp & Hp8) & Hs & Hps & Hw).
  unfold small_free, BLOCK_START, sizeof_alloc_t. rewrite Hidx. replace (p + 8 - 8) with p by lia.
  rewrite (u32_small p) by lia.
  destruct (clear_words_ok (words_of (class_size i)) p h) as (mem & Ec & Hmem).
  { intros a Ha. apply Hw. by rewrite word_of_block in Ha by lia. }
  step_with Ec. step_with (get_small_ok (set_h_mem mem h) i hd Hhd). unfold set_next_ptr.
  assert (∀ a, in_block p (class_size i) a → mem !! a = Some 0) as Hzero.
  { intros a Ha. rewrite Hmem, decide_True; [done|]. apply word_of_block; [lia|done..]. }
  step_with (store_word_ok (set_h_mem mem h) p hd ltac:(eexists; apply Hzero, in_block_first; lia)).
  rewrite (put_small_ok _ i p) by (cbn [h_small_mem set_h_mem]; rewrite (ho_heads _ _ _ Hh); lia).
  set (mem' := <[p := hd]> mem).
  assert (∀ q t a, block live free q t → in_block q t a → mem' !! a = h_mem h !! a) as Hsame.
  { intros q t a Hq Ha. pose proof (separate_words _ _ _ _ _ _ _ Hsep Hq Ha) as Hn.
    unfold mem'. rewrite lookup_insert_ne by (intros <-; apply Hn, in_block_first; lia).
    rewrite Hmem, decide_False; [done|]. rewrite word_of_block by lia. done. }
  do 2 eexists. split; [done|]. split; [done|]. cbn [h_small_mem h_mem set_h_mem set_h_small_mem].
  split; [apply list_lookup_insert_eq; rewrite (ho_heads _ _ _ Hh); lia|].
  assert (heap_ok live free (set_h_mem mem' h)) as Hh1 by by apply heap_frame.
  split; [|intros q t a Hq Ha; apply (Hsame q t); [by apply live_block|done]].
  apply (heap_ok_ext _ _ (set_h_small_mem (<[i := p]> (h_small_mem h)) (set_h_mem mem' h))); [|done..].
  apply (heap_set_list live free (set_h_mem mem' h) i l); try done; cbn [h_mem set_h_mem].
  - split; [done|]. split; [done|]. exists hd. split; [apply lookup_insert_eq|].
    apply (ho_chains _ _ _ Hh1 i); done.
  - apply NoDup_cons. split; [done|]. by apply (ho_free _ _ _ Hh i).
  - intros q [->|Hq]%elem_of_cons.
    + split; [split_and!; try done; try tauto|split; [|by right]].
      * intros a Ha. apply lookup_insert_is_Some'. right. eexists. by apply Hzero.
      * intros a Ha Hne. unfold mem'. rewrite lookup_insert_ne by done. by apply Hzero.
    + pose proof (free_block live free i l q Hl Hq) as Hbq. split; [by apply (ho_blocks _ _ _ Hh1)|].
      split; [by apply (ho_clear _ _ _ Hh1 i l)|by left].
  - intros q q' [->|Hq]%elem_of_cons [->|Hq']%elem_of_cons; [by left| | |].
    + right. apply Hsep. by eapply free_block.
    + right. destruct (Hsep _ _ (free_block live free i l q Hl Hq)); [by right|by left].
    + destruct (ho_apart _ _ _ Hh q (class_size i) q' (class_size i)) as [[? _]|?];
        [by eapply free_block..|by left|by right].
Qed.

Lemma free_ok live free h p s :
  heap_ok live free h → live !! p = Some s →
  ∃ h', libc_free (p + 8) h = Ok tt h' ∧ freed live free h p s h'.
Proof.
  intros Hh Hp. destruct (heap_release live free h p s Hh Hp) as [Hh' Hsep].
  pose proof (ho_blocks _ _ _ Hh _ _ (live_block live free p s Hp)) as Hb.
  destruct (ho_live _ _ _ Hh _ _ Hp) as [H4 Hkind].
  pose proof Hb as ((Hp0 & Hp8) & (Hs16 & Hs8) & Hps & _).
  unfold libc_free. destruct (Z.eqb_spec (p + 8) 0); [lia|].
  assert (BLOCK_START (p + 8) = p) as ->.
  { unfold BLOCK_START, sizeof_alloc_t. replace (p + 8 - 8) with p by lia. apply u32_small. lia. }
  unfold get_block_size. step_with (load_word_ok h (p + 4) s H4).
  destruct (Z.eqb_spec s 0); [lia|]. change MAX_SMALL_SIZE with 2048.
  destruct (Z.leb_spec s 2048) as [Hsm|Hlg].
  - destruct Hkind as [(i & Hi & ->)|[? _]]; [|lia].
    destruct (small_free_ok (delete p live) free h p i Hh' Hi Hb Hsep) as (l & h' & E & Hl & ? & ? & ?).
    exists h'. split; [done|]. by apply (freed_small live free h p _ i l).
  - destruct Hkind as [(i & Hi & ->)|[_ Hs4]]; [pose proof (class_range i Hi); lia|].
    destruct (page_align_spec s) as [Hal1 Hal2]; [Z.div_mod_to_equations; lia|].
    assert (page_align s = s) as Hal by (Z.div_mod_to_equations; lia).
    pose proof (mod_mul_of _ 4 1024 ltac:(lia) ltac:(lia) Hs4) as Hs4'.
    unfold munmap. rewrite Hal. eexists. split; [done|].
    assert (∀ q t a, block (delete p live) free q t → in_block q t a →
      unmap_words (words_of s) p (h_mem h) !! a = h_mem h !! a) as Hsame.
    { intros q t a Hq Ha. rewrite unmap_words_lookup, decide_False; [done|].
      rewrite word_of_block by lia. by apply (separate_words _ _ _ _ _ _ _ Hsep Hq Ha). }
    apply freed_pages; cbn [h_mem set_h_mem]; [done| |by apply heap_frame|].
    + intros a Ha. rewrite unmap_words_lookup, decide_True; [done|]. apply word_of_block; [lia|done..].
    + intros q t a Hq Ha. apply (Hsame q t); [by apply live_block|done].
Qed.

(** ** Moving a block *)

(** [memcpy] between places that do not meet. *)
Lemma copy_words_ok n : ∀ dst src h,
  dst + 4 * Z.of_nat n ≤ src ∨ src + 4 * Z.of_nat n ≤ dst →
  (∀ a, word_of dst n a → is_Some (h_mem h !! a)) →
  (∀ a, word_of src n a → is_Some (h_mem h !! a)) →
  ∃ mem, copy_words n dst src h = Ok tt (set_h_mem mem h) ∧
    ∀ a, mem !! a = if decide (word_of dst n a) then h_mem h !! (src + (a - dst)) else h_mem h !! a.
Proof.
  induction n as [|n IH]; intros dst src h Hdis Hd Hs.
  { exists (h_mem h). split; [by destruct h|]. intros a. rewrite decide_False; [done|]. unfold word_of. lia. }
  cbn [copy_words]. destruct (Hs src) as [v Hv]; [apply word_of_S; by left|].
  step_with (load_word_ok h src v Hv).
  step_with (store_word_ok h dst v ltac:(apply Hd, word_of_S; by left)).
  destruct (IH (dst + 4) (src + 4) (set_h_mem (<[dst := v]> (h_mem h)) h)) as (mem & E & Hmem).
  { lia. }
  { intros a Ha. cbn [h_mem set_h_mem]. apply lookup_insert_is_Some'. right. apply Hd, word_of_S. by right. }
  { intros a Ha. cbn [h_mem set_h_mem]. apply lookup_insert_is_Some'. right. apply Hs, word_of_S. by right. }
  exists mem. split; [exact E|]. intros a. rewrite Hmem. cbn [h_mem set_h_mem].
  replace (src + 4 + (a - (dst + 4))) with (src + (a - dst)) by lia.
  destruct (decide (word_of (dst + 4) n a)) as [[H H4]|H].
  - rewrite decide_True by (apply word_of_S; by right). apply lookup_insert_ne. lia.
  - destruct (decide (a = dst)) as [->|Hne].
    + rewrite lookup_insert_eq, decide_True by (apply word_of_S; by left). by rewrite Z.sub_diag, Z.add_0_r.
    + rewrite lookup_insert_ne by done. rewrite decide_False; [done|]. intros [?|?]%word_of_S; done.
Qed.

(** The first [n] bytes after the header of the block at [p] are those of the
    block at [q]. *)
Definition same_content (n : Z) mem (p : Z) mem' (q : Z) : Prop :=
  ∀ k, 8 ≤ k < n → k mod 4 = 0 → mem' !! (q + k) = mem !! (p + k).

Inductive reallocated live free (h : heap) (p s size : Z) : Z → heap → Prop :=
  | realloc_fits :
      size + 8 ≤ s →
      reallocated live free h p s size (p + 8) h
  | realloc_fails free' h' :
      (∃ rest, h_answers h = MAP_FAILED :: rest) → h_errno h' = ENOMEM → heap_ok live free' h' → words_kept live h h' →
      reallocated live free h p s size 0 h'
  | realloc_moves q t free' h' :
      delete p live !! q = None → size + 8 ≤ t →
      heap_ok (<[q := t]> (delete p live)) free' h' →
      words_kept (delete p live) h h' →
      same_content (Z.min s t) (h_mem h) p (h_mem h') q →
      reallocated live free h p s size (q + 8) h'.

Lemma block_start_ret p : 0 ≤ p → p + 8 < 2 ^ 32 → BLOCK_START (p + 8) = p.
Proof.
  intros. unfold BLOCK_START, sizeof_alloc_t. replace (p + 8 - 8) with p by lia. apply u32_small. lia.
Qed.

(** Copying into a live block's payload keeps the heap. *)
Lemma heap_write live free h mem' p s :
  heap_ok live free h → live !! p = Some s →
  (∀ a, is_Some (h_mem h !! a) → is_Some (mem' !! a)) → mem' !! (p + 4) = h_mem h !! (p + 4) →
  (∀ a, ¬ in_block p s a → mem' !! a = h_mem h !! a) →
  heap_ok live free (set_h_mem mem' h).
Proof.
  intros Hh Hp Hm H4 Hout. destruct (heap_release live free h p s Hh Hp) as [Hd Hsep].
  destruct (ho_live _ _ _ Hh _ _ Hp) as [Hp4 Hk].
  destruct (ho_blocks _ _ _ Hh _ _ (live_block live free p s Hp)) as (Hb1 & Hb2 & Hb3 & Hw).
  rewrite <- (insert_delete_id live p s Hp).
  apply heap_adopt; cbn [h_mem set_h_mem].
  - apply heap_frame; [done|]. intros q t a Hq Ha. apply Hout. by apply (separate_words _ _ _ _ _ _ _ Hsep Hq Ha).
  - split_and!; try tauto. intros a Ha. by apply Hm, Hw.
  - done.
  - done.
  - by rewrite H4.
Qed.

(** The block of a small allocation moves by a new one, a copy and a free. *)
Lemma realloc_small_ok live free h p s size :
  heap_ok live free h → live !! p = Some s → s ≤ 2048 → 0 < size ≤ MALLOC_MAX →
  kernel_ready (request size) h →
  ∃ r h', (new ← libc_malloc None size;
      if new =? 0 then mret new else
      new_size ← get_block_size (BLOCK_START new);
      tmp_size ← get_block_size (BLOCK_START (p + 8));
      let n := if tmp_size <? new_size then tmp_size else new_size in
      (if n =? 0 then mret tt
       else copy_words (words_of (u32 (n - sizeof_alloc_t))) new (p + 8));;
      libc_free (p + 8);;
      mret new) h = Ok r h' ∧ reallocated live free h p s size r h'.
Proof.
  intros Hh Hp Hs Hsize Hk. unfold MALLOC_MAX in Hsize.
  destruct (libc_malloc_ok live free h size Hh ltac:(lia) ltac:(done)) as (r & h1 & E & Hal).
  step_with E. destruct Hal as [h1 Hwhy He Hm Hh1|q t free1 h1 Hq Hq0 _ Ht Hdis _ Hkeep Hh1].
  { do 2 eexists. split; [done|]. apply (realloc_fails _ _ _ _ _ _ free); [|done..|].
    - unfold MALLOC_MAX in Hwhy. destruct Hwhy as [?|[?|?]]; [lia|lia|done].
    - intros x y a _ _. by rewrite Hm. }
  destruct (Z.eqb_spec (q + 8) 0) as [|_]; [lia|].
  pose proof (lookup_insert_eq live q t) as Hlq.
  assert (q ≠ p) as Hqp by congruence.
  pose proof (lookup_insert_ne live q p t Hqp) as Hlp. rewrite Hp in Hlp.
  destruct (ho_live _ _ _ Hh1 _ _ Hlq) as [Hq4 _]. destruct (ho_live _ _ _ Hh1 _ _ Hlp) as [Hp4 _].
  destruct (ho_blocks _ _ _ Hh1 _ _ (live_block _ free1 q t Hlq)) as ((_ & Hq8) & (Ht16 & Ht8) & Hqt & Hqw).
  destruct (ho_blocks _ _ _ Hh1 _ _ (live_block _ free1 p s Hlp)) as ((Hp0 & Hp8) & (Hs16 & Hs8) & Hps & Hpw).
  rewrite !block_start_ret by lia. unfold get_block_size.
  step_with (load_word_ok h1 (q + 4) t Hq4). step_with (load_word_ok h1 (p + 4) s Hp4).
  assert ((if s <? t then s else t) = Z.min s t) as -> by (destruct (Z.ltb_spec s t); lia).
  set (n := Z.min s t). destruct (Z.eqb_spec n 0); [lia|].
  assert (n mod 8 = 0) as Hn8 by (unfold n; destruct (Z.min_spec s t) as [[_ ->]|[_ ->]]; done).
  unfold sizeof_alloc_t. rewrite (u32_small (n - 8)) by lia.
  assert ((n - 8) mod 4 = 0) as Hn4.
  { replace (n - 8) with (n + (-2) * 4) by lia. rewrite Z.mod_add by lia.
    by apply (mod_mul_of n 4 2). }
  assert (0 ≤ n - 8) as Hn0 by lia.
  assert (∀ x y a, in_block (x + 8) (n - 8) a → n ≤ y → in_block x y a) as Hpay.
  { intros x y a [Ha Ha4] Hy. split; [lia|]. replace (a - x) with (a - (x + 8) + 2 * 4) by lia. by rewrite Z.mod_add. }
  assert (4 * Z.of_nat (words_of (n - 8)) = n - 8) as Hnw.
  { unfold words_of. rewrite Z2Nat.id by (apply Z.div_pos; lia). symmetry. apply Z_div_exact_2; lia. }
  pose proof (Hdis p s Hp) as Hqps.
  destruct (copy_words_ok (words_of (n - 8)) (q + 8) (p + 8) h1) as (mem & Ec & Hmem).
  { lia. }
  { intros a Ha. rewrite word_of_block in Ha by lia. apply Hqw, (Hpay q t); [done|lia]. }
  { intros a Ha. rewrite word_of_block in Ha by lia. apply Hpw, (Hpay p s); [done|lia]. }
  step_with Ec.
  assert (∀ a, ¬ in_block (q + 8) (n - 8) a → mem !! a = h_mem h1 !! a) as Hout.
  { intros a Ha. rewrite Hmem, decide_False; [done|]. by rewrite word_of_block by lia. }
  assert (heap_ok (<[q := t]> live) free1 (set_h_mem mem h1)) as Hh2.
  { apply (heap_write _ _ _ _ q t Hh1 Hlq).
    - intros a Ha. rewrite Hmem. case_decide as Hw; [|done]. apply Hpw, (Hpay p s); [|lia].
      rewrite word_of_block in Hw by lia. destruct Hw as [Hw Hw4]. split; [lia|].
      by replace (p + 8 + (a - (q + 8)) - (p + 8)) with (a - (q + 8)) by lia.
    - apply Hout. intros [? _]. lia.
    - intros a Ha. apply Hout. intros Hin. apply Ha, Hpay; [done|lia]. }
  destruct (free_ok _ free1 _ p s Hh2 Hlp) as (h' & Ef & Hfreed). step_with Ef.
  exists (q + 8), h'. split; [done|].
  assert (∃ free', heap_ok (delete p (<[q := t]> live)) free' h' ∧
    words_kept (delete p (<[q := t]> live)) (set_h_mem mem h1) h') as (free' & Hh' & Hkeep').
  { destruct Hfreed; by eexists. }
  rewrite delete_insert_ne in Hh', Hkeep' by done.
  assert (delete p live !! q = None) as Hqd by (apply lookup_delete_None; by right).
  apply (realloc_moves _ _ _ _ _ _ q t free'); [done..| |].
  - intros x y a Hx Ha. rewrite (Hkeep' x y) by (done || by rewrite lookup_insert_ne by congruence).
    apply lookup_delete_Some in Hx as [_ Hx]. cbn [h_mem set_h_mem]. rewrite Hout; [by apply (Hkeep x y)|].
    intros [Ha' _]. destruct Ha as [Ha _]. destruct (Hdis x y Hx); lia.
  - intros k Hk8 Hk4. assert (in_block (q + 8) (n - 8) (q + k)) as Hin.
    { split; [lia|]. replace (q + k - (q + 8)) with (k + (-2) * 4) by lia. by rewrite Z.mod_add. }
    rewrite (Hkeep' q t); [|by rewrite lookup_insert_eq|by apply Hpay; [|lia]].
    cbn [h_mem set_h_mem]. rewrite Hmem, decide_True by (apply word_of_block; [lia|lia|done]).
    replace (p + 8 + (q + k - (q + 8))) with (p + k) by lia. apply (Hkeep p s); [done|].
    split; [lia|]. by replace (p + k - p) with k by lia.
Qed.

(** [mremap] moves the pages of a large block. *)
Lemma mremap_ok live free h p s n :
  heap_ok live free h → live !! p = Some s → 2048 < s → 0 < n → n mod 4096 = 0 → n ≤ 2 ^ 32 - 4096 →
  let gone := set_h_mem (unmap_words (words_of s) p (h_mem h)) h in
  kernel_ready n gone →
  (∃ rest, h_answers h = MAP_FAILED :: rest ∧ mremap p s n h = Ok MAP_FAILED (set_h_answers rest h)) ∨
  ∃ page rest mem, mremap p s n h = Ok page (set_h_mem mem (set_h_answers rest h)) ∧ page ≠ MAP_FAILED ∧
    block_ok mem page n ∧ heap_ok (delete p live) free (set_h_mem mem (set_h_answers rest h)) ∧
    separate (delete p live) free page n ∧ words_kept (delete p live) h (set_h_mem mem h) ∧
    same_content (Z.min s n) (h_mem h) p mem page.
Proof.
  intros Hh Hp Hs Hn Hn4 Hn32 gone (page & rest & Ha & Hk).
  destruct (heap_release live free h p s Hh Hp) as [Hd Hsep].
  destruct (ho_live _ _ _ Hh _ _ Hp) as [_ [(i & Hi & ->)|[_ Hs4]]];
    [pose proof (class_range i Hi); lia|].
  destruct (ho_blocks _ _ _ Hh _ _ (live_block live free p s Hp)) as (_ & _ & Hps & Hw).
  pose proof (mod_mul_of _ 4 1024 ltac:(lia) ltac:(lia) Hs4) as Hs4'.
  pose proof (mod_mul_of _ 4 1024 ltac:(lia) ltac:(lia) Hn4) as Hn4'.
  assert (∀ a, h_mem gone !! a = if decide (in_block p s a) then None else h_mem h !! a) as Hgone.
  { intros a. unfold gone. cbn [h_mem set_h_mem]. rewrite unmap_words_lookup.
    apply decide_ext, word_of_block; lia. }
  assert (heap_ok (delete p live) free gone) as Hg.
  { apply heap_frame; [done|]. intros q t a Hq Hqa.
    specialize (Hgone a). unfold gone in Hgone. cbn [h_mem set_h_mem] in Hgone. rewrite Hgone, decide_False; [done|].
    by apply (separate_words _ _ _ _ _ _ _ Hsep Hq Hqa). }
  unfold mremap, ask_kernel. rewrite bind_assoc. steps. change (h_answers gone) with (h_answers h) in Ha.
  rewrite Ha, bind_assoc. steps.
  destruct Hk as [->|(Hpg & Hpg4 & Hb & Hnone)]; [left; by exists rest|]. right.
  assert (page ≠ MAP_FAILED) as Hne by (unfold MAP_FAILED; lia).
  destruct (Z.eqb_spec page MAP_FAILED); [done|]. steps.
  pose proof (fresh_separate _ _ _ _ _ Hg Hpg4 Hn Hn4 Hnone) as Hsepn.
  eexists page, rest, _. split; [done|]. split; [done|]. cbn [h_mem set_h_answers].
  change (unmap_words (words_of s) p (h_mem h)) with (h_mem gone).
  set (mem := fill_words _ _ _ _ _).
  assert (∀ a, mem !! a = if decide (in_block page n a) then Some (copy_of p (h_mem h) s (a - page)) else h_mem gone !! a) as Hmem.
  { intros a. unfold mem. rewrite fill_words_lookup, Z.add_0_r. apply decide_ext, word_of_block; lia. }
  assert (∀ q t a, block (delete p live) free q t → in_block q t a → mem !! a = h_mem gone !! a) as Hsame.
  { intros q t a Hq Hqa. rewrite Hmem, decide_False; [done|]. by apply (separate_words _ _ _ _ _ _ _ Hsepn Hq Hqa). }
  split_and!; [|..|done| |].
  - split; [split; [done|by apply (mod_mul_of _ 8 512)]|].
    split; [split; [Z.div_mod_to_equations; lia|by apply (mod_mul_of _ 8 512)]|]. split; [done|].
    intros a Hin. rewrite Hmem, decide_True by done. by eexists.
  - apply (heap_ok_ext _ _ (set_h_mem mem gone)); [by apply heap_frame|done..].
  - intros q t a Hq%(live_block _ free) Hqa. cbn [h_mem set_h_mem]. rewrite (Hsame q t) by done.
    rewrite Hgone, decide_False; [done|]. by apply (separate_words _ _ _ _ _ _ _ Hsep Hq Hqa).
  - intros k Hk Hk4. rewrite Hmem, decide_True.
    2:{ split; [lia|]. by replace (page + k - page) with k by lia. }
    unfold copy_of. replace (page + k - page) with k by lia. destruct (Z.ltb_spec k s); [|lia].
    destruct (Hw (p + k)) as [v Hv]; [|by rewrite Hv].
    split; [lia|]. by replace (p + k - p) with k by lia.
Qed.

Lemma request_spec size : 0 < size ≤ MALLOC_MAX →
  request size = page_align (if size + 8 <=? 2048 then get_size (size + 8) else page_align (size + 8)) ∧
  request size mod 4096 = 0 ∧ 0 < request size ≤ 2 ^ 32 - 4096 ∧ size + 8 ≤ request size.
Proof.
  unfold MALLOC_MAX, request. intros Hs. destruct (Z.leb_spec (size + 8) 2048).
  - destruct (get_size_class (size + 8)) as (i & Hi & _ & -> & _); [lia|]. split; [|split; [done|lia]].
    do 8 (destruct i as [|i]; [done|]). lia.
  - destruct (page_align_spec (size + 8)) as [H1 H2]; [lia|].
    assert (page_align (size + 8) ≤ 2 ^ 32 - 4096) by (Z.div_mod_to_equations; lia).
    destruct (page_align_spec (page_align (size + 8))) as [H3 H4]; [lia|].
    split; [|split; [done|lia]]. Z.div_mod_to_equations; lia.
Qed.

Lemma realloc_large_ok live free h p s size :
  heap_ok live free h → live !! p = Some s → 2048 < s → 0 < size ≤ MALLOC_MAX →
  kernel_ready (request size) (set_h_mem (unmap_words (words_of s) p (h_mem h)) h) →
  ∃ r h', (foo ← mremap p s (request size);
      if foo =? MAP_FAILED then err_out else
      set_block_size foo (request size);; mret (BLOCK_RET foo)) h = Ok r h' ∧
    reallocated live free h p s size r h'.
Proof.
  intros Hh Hp Hs Hsize Hk. destruct (request_spec size Hsize) as (_ & Hn4 & Hn & Hle).
  destruct (mremap_ok live free h p s (request size) Hh Hp Hs ltac:(lia) Hn4 ltac:(lia) Hk)
    as [(rest & Ha & E)|(page & rest & mem & E & Hne & Hb & Hh1 & Hsep & Hkeep & Hsame)]; step_with E.
  { do 2 eexists. split; [done|]. apply (realloc_fails _ _ _ _ _ _ free); [by exists rest|done| |done].
    by apply (heap_ok_ext live free h). }
  destruct (Z.eqb_spec page MAP_FAILED) as [|_]; [done|]. set (n := request size) in *. assert (2048 < n) by (Z.div_mod_to_equations; lia).
  destruct Hb as ((Hp0 & Hp8) & Hn16 & Hpn & Hw). unfold set_block_size, BLOCK_RET, sizeof_alloc_t.
  rewrite (u32_small (page + 8)) by lia.
  step_with (store_word_ok (set_h_mem mem (set_h_answers rest h)) (page + 4) n ltac:(apply Hw, in_block_size; lia)).
  do 2 eexists. split; [done|]. cbn [h_mem set_h_mem].
  assert (∀ q t a, block (delete p live) free q t → in_block q t a → <[page + 4 := n]> mem !! a = mem !! a) as Hst.
  { intros q t a Hq [Ha _]. apply lookup_insert_ne. intros <-. destruct (Hsep _ _ Hq); lia. }
  apply (realloc_moves _ _ _ _ _ _ page n free); cbn [h_mem set_h_mem].
  - apply (separate_not_live _ free _ page n Hh1); [lia|done].
  - done.
  - apply heap_adopt; cbn [h_mem set_h_mem]; [|split_and!; try done|done|right; done|apply lookup_insert_eq].
    + apply (heap_ok_ext _ _ (set_h_mem (<[page + 4 := n]> mem) (set_h_mem mem (set_h_answers rest h)))); [|done..].
      by apply heap_frame.
    + by destruct Hn16.
    + by destruct Hn16.
    + intros a Ha. apply lookup_insert_is_Some'. right. by apply Hw.
  - intros q t a Hq Ha. cbn [h_mem set_h_mem]. rewrite (Hst q t); [by apply (Hkeep q t)|by apply live_block|done].
  - intros k Hk8 Hk4. rewrite lookup_insert_ne by lia. by apply Hsame.
Qed.

Lemma realloc_ok live free h p s size :
  heap_ok live free h → live !! p = Some s → 0 < size ≤ MALLOC_MAX →
  (s ≤ 2048 → kernel_ready (request size) h) →
  (2048 < s → kernel_ready (request size) (set_h_mem (unmap_words (words_of s) p (h_mem h)) h)) →
  ∃ r h', libc_realloc None (p + 8) size h = Ok r h' ∧ reallocated live free h p s size r h'.
Proof.
  intros Hh Hp Hsize Hsmall Hlarge. destruct (request_spec size Hsize) as (Hreq & _ & Hn & Hle).
  destruct (ho_live _ _ _ Hh _ _ Hp) as [H4 Hkind].
  destruct (ho_blocks _ _ _ Hh _ _ (live_block live free p s Hp)) as ((Hp0 & _) & (Hs16 & _) & Hps & _).
  assert (0 < size ≤ 2 ^ 32 - 4104) as Hsize' by done.
  unfold libc_realloc. destruct (Z.eqb_spec (p + 8) 0) as [|_]; [lia|]. destruct (Z.eqb_spec size 0) as [|_]; [lia|].
  change (size + sizeof_alloc_t) with (size + 8). rewrite (u32_small (size + 8)) by lia.
  destruct (Z.ltb_spec (size + 8) sizeof_alloc_t) as [Hov|_]; [unfold sizeof_alloc_t in Hov; lia|]. rewrite block_start_ret by lia. change MAX_SMALL_SIZE with 2048.
  set (new := if size + 8 <=? 2048 then _ else _) in *.
  step_with (load_word_ok h (p + 4) s H4).
  destruct (Z.eqb_spec s new) as [Heq|Hne].
  - do 2 eexists. split; [done|]. apply realloc_fits. rewrite Heq. unfold new. destruct (Z.leb_spec (size + 8) 2048).
    + destruct (get_size_class (size + 8)) as (i & _ & _ & -> & ? & _); lia.
    + destruct (page_align_spec (size + 8)); lia.
  - destruct (Z.leb_spec s 2048).
    + pose proof (realloc_small_ok live free h p s size Hh Hp ltac:(done) Hsize ltac:(auto)) as Hres.
      rewrite block_start_ret in Hres by lia. exact Hres.
    + rewrite <- Hreq. by apply realloc_large_ok; auto.
Qed.
