(* ===== verification/CAllocSpec.v ===== *)
(** * What malloc, calloc, realloc and free promise

    The allocator against its client: new blocks are fresh, aligned, cleared
    and apart from the live ones, and no operation touches the words of the
    blocks it is not given. *)
From S2P Require Import Prelude CAlloc CHeap.
Local Open Scope Z_scope.

Implicit Types (live : gmap Z Z) (free : list (list Z)).

(** ** A heap to start from *)

Definition initial_heap (answers : list Z) : heap := Heap (replicate 8 0) ∅ answers 0.

Lemma initial_heap_ok answers : heap_ok ∅ (replicate 8 []) (initial_heap answers).
Proof.
  assert (∀ p s, ¬ block ∅ (replicate 8 []) p s) as Hno.
  { intros p s [q t Hq|i l q Hi Hq]; [by rewrite lookup_empty in Hq|].
    apply lookup_replicate in Hi as [-> _]. by apply not_elem_of_nil in Hq. }
  split; try done.
  - intros i hd l Hh Hl. apply lookup_replicate in Hh as [-> _]. apply lookup_replicate in Hl as [-> _]. done.
  - by intros p s ?%Hno.
  - by intros p s ? ? ?%Hno.
  - intros i l Hl. apply lookup_replicate in Hl as [-> _]. split; [by apply NoDup_nil|by intros p ?%not_elem_of_nil].
  - intros i l p Hl Hp. apply lookup_replicate in Hl as [-> _]. by apply not_elem_of_nil in Hp.
Qed.

(** One live block of 16 bytes at 4096, another of a page at 8192. *)
Definition sample_live : gmap Z Z := <[8192 := 4096]> (<[4096 := 16]> ∅).
Definition sample_mem : gmap Z Z :=
  <[8196 := 4096]> (fill_words 1024 8192 (λ _, 0) 0 (<[4100 := 16]> (fill_words 4 4096 (λ _, 7) 0 ∅))).
Definition sample_heap (answers : list Z) : heap := Heap (replicate 8 0) sample_mem answers 0.

Lemma sample_lookup a :
  sample_mem !! a =
    if decide (a = 8196) then Some 4096 else if decide (in_block 8192 4096 a) then Some 0
    else if decide (a = 4100) then Some 16 else if decide (in_block 4096 16 a) then Some 7 else None.
Proof.
  unfold sample_mem. destruct (decide (a = 8196)) as [->|?]; [by rewrite lookup_insert_eq|].
  rewrite lookup_insert_ne, fill_words_lookup by done.
  rewrite (decide_ext _ (in_block 8192 4096 a)) by done. case_decide; [done|].
  destruct (decide (a = 4100)) as [->|?]; [by rewrite lookup_insert_eq|].
  rewrite lookup_insert_ne, fill_words_lookup by done.
  rewrite (decide_ext _ (in_block 4096 16 a)) by done. done.
Qed.

Lemma sample_heap_ok answers : heap_ok sample_live (replicate 8 []) (sample_heap answers).
Proof.
  assert (heap_ok ∅ (replicate 8 []) (sample_heap answers)) as H0.
  { apply (heap_frame _ _ (initial_heap answers) sample_mem); [apply initial_heap_ok|].
    intros p s a [q t Hq|i l q Hi Hq]; [by rewrite lookup_empty in Hq|].
    apply lookup_replicate in Hi as [-> _]. by apply not_elem_of_nil in Hq. }
  assert (∀ p s, 0 < p → p mod 8 = 0 → 16 ≤ s → s mod 8 = 0 → p + s < 2 ^ 32 →
    (∀ a, in_block p s a → is_Some (sample_mem !! a)) → block_ok sample_mem p s) as Hb.
  { intros. by split_and!. }
  assert (heap_ok (<[4096 := 16]> ∅) (replicate 8 []) (sample_heap answers)) as H1.
  { apply heap_adopt; [exact H0| | | |by vm_compute].
    - apply Hb; [done..|]. intros a Ha. cbn [h_mem sample_heap]. rewrite sample_lookup.
      repeat case_decide; try done; by eexists.
    - intros p s [q t Hq|i l q Hi Hq]; [by rewrite lookup_empty in Hq|].
      apply lookup_replicate in Hi as [-> _]. by apply not_elem_of_nil in Hq.
    - left. exists O. split; [lia|done]. }
  apply heap_adopt; [exact H1| | | |by vm_compute].
  - apply Hb; [done..|]. intros a Ha. cbn [h_mem sample_heap]. rewrite sample_lookup.
    repeat case_decide; try done; by eexists.
  - intros p s [q t Hq|i l q Hi Hq].
    + apply lookup_insert_Some in Hq as [[<- <-]|[_ Hq]]; [lia|by rewrite lookup_empty in Hq].
    + apply lookup_replicate in Hi as [-> _]. by apply not_elem_of_nil in Hq.
  - right. done.
Qed.

Lemma sample_pages rest need page :
  16384 ≤ page → page mod 4096 = 0 → page + need < 2 ^ 32 →
  kernel_ready need (sample_heap (page :: rest)).
Proof.
  intros Hp Hm Hb. exists page, rest. split; [done|]. right. split_and!; [lia|done..|].
  intros a [Ha _]. cbn [h_mem sample_heap]. rewrite sample_lookup.
  unfold in_block. by repeat (rewrite decide_False by lia).
Qed.

(** ** Theorems *)



(** [calloc] refuses exactly the products that overflow 32 bits, with
    [ENOMEM] and nothing else changed; otherwise it allocates the product and
    every word of the payload reads 0, though it clears nothing itself. *)
Theorem calloc_gives_zeros live free h nmemb size :
  heap_ok live free h → 0 ≤ nmemb < 2 ^ 32 → 0 ≤ size < 2 ^ 32 →
  (0 < size * nmemb ≤ MALLOC_MAX → kernel_ready (request (size * nmemb)) h) →
  if size * nmemb <? 2 ^ 32 then
    ∃ r h', calloc None nmemb size h = Ok r h' ∧ allocated live free h (size * nmemb) r h' ∧
      (r ≠ 0 → ∀ a, in_block r (size * nmemb) a → h_mem h' !! a = Some 0)
  else calloc None nmemb size h = Ok 0 (set_h_errno ENOMEM h).
Proof.
  intros Hh Hn Hs Hk. unfold calloc. destruct (Z.ltb_spec (size * nmemb) (2 ^ 32)) as [Hlt|Hge].
  - rewrite (u32_small (size * nmemb)) by nia.
    assert (negb (nmemb =? 0) && negb (size * nmemb / nmemb =? size) = false) as ->.
    { destruct (Z.eqb_spec nmemb 0); [done|]. rewrite Z.div_mul by done. by rewrite Z.eqb_refl. }
    destruct (libc_malloc_ok live free h (size * nmemb) Hh ltac:(nia) Hk) as (r & h' & E & Hal).
    exists r, h'. split; [done|]. split; [done|]. intros Hr a Ha.
    destruct Hal as [|p s free' h' _ _ _ Hps _ Hz]; [done|]. apply Hz. destruct Ha as [Ha Ha4]. split; [lia|done].
  - destruct (Z.eqb_spec nmemb 0) as [->|Hne]; [lia|]. cbn [negb andb].
    destruct (Z.eqb_spec (u32 (size * nmemb) / nmemb) size) as [Heq|_]; [exfalso|done].
    assert (u32 (size * nmemb) ≤ size * nmemb - 2 ^ 32) as Hu.
    { unfold u32. rewrite <- (Z.mod_add _ (-1)) by lia. apply Z.mod_le; lia. }
    pose proof (u32_range (size * nmemb)).
    pose proof (Z.mul_div_le (u32 (size * nmemb)) nmemb ltac:(lia)).
    pose proof (Z.mul_succ_div_gt (u32 (size * nmemb)) nmemb ltac:(lia)). nia.
Qed.

Lemma calloc_gives_zeros_witness :
  (∃ r h', calloc None 3 4 (sample_heap [16384]) = Ok r h' ∧ (r ≠ 0 → h_mem h' !! (r + 8) = Some 0)) ∧
  calloc None 65536 65536 (sample_heap []) = Ok 0 (set_h_errno ENOMEM (sample_heap [])).
Proof.
  split; [|apply (calloc_gives_zeros sample_live (replicate 8 []) (sample_heap []) 65536 65536 (sample_heap_ok [])); [lia|lia|unfold MALLOC_MAX; lia]].
  destruct (calloc_gives_zeros sample_live (replicate 8 []) (sample_heap [16384]) 3 4) as (r & h' & E & _ & Hz).
  - apply sample_heap_ok.
  - done.
  - done.
  - intros _. by apply sample_pages.
  - exists r, h'. split; [exact E|]; clear E. intros Hr. apply Hz; [exact Hr|]. split; [lia|].
    by replace (r + 8 - r) with 8 by lia.
Defined.

(** C31: [free] of a live block returns: a small one is cleared and becomes the
    head of its size class's list, a large one's pages are unmapped; in both
    cases the block is no longer live, the words of the other live blocks are
    as they were and the heap is well formed. *)
Theorem free_returns_block live free h p s :
  heap_ok live free h → live !! p = Some s →
  ∃ free' h', libc_free (p + 8) h = Ok tt h' ∧ heap_ok (delete p live) free' h' ∧
    words_kept (delete p live) h h' ∧
    if s <=? MAX_SMALL_SIZE then
      ∃ l, s = get_size s ∧ free !! Z.to_nat (get_index s) = Some l ∧
        free' = <[Z.to_nat (get_index s) := p :: l]> free ∧ get_small (get_index s) h' = Ok p h'
    else free' = free ∧ ∀ a, in_block p s a → h_mem h' !! a = None.
Proof.
  intros Hh Hp. destruct (free_ok live free h p s Hh Hp) as (h' & E & Hf).
  change MAX_SMALL_SIZE with 2048. destruct Hf as [i l h' Hi Hs Hl Hhd Hh' Hk|h' Hs Hun Hh' Hk].
  - destruct (class_cases i Hi) as [_ Hidx]. destruct (class_range i Hi) as [Hr _].
    exists (<[i := p :: l]> free), h'. split; [done|]. split; [done|]. split; [done|].
    rewrite Hs. destruct (Z.leb_spec (class_size i) 2048); [|lia]. exists l.
    rewrite Hidx, Nat2Z.id. split; [|by rewrite (get_small_ok h' i p)].
    unfold get_size. rewrite Hidx. do 8 (destruct i as [|i]; [done|]). lia.
  - exists free, h'. split; [done|]. split; [done|]. split; [done|]. by destruct (Z.leb_spec s 2048); [lia|].
Qed.

Lemma free_returns_block_witness :
  (∃ h', libc_free 4104 (sample_heap []) = Ok tt h' ∧ get_small 0 h' = Ok 4096 h') ∧
  ∃ h', libc_free 8200 (sample_heap []) = Ok tt h' ∧ h_mem h' !! 8196 = None.
Proof.
  split.
  - destruct (free_returns_block sample_live (replicate 8 []) (sample_heap []) 4096 16)
      as (free' & h' & E & _ & _ & (l & _ & _ & _ & Hg)); [apply sample_heap_ok|done|].
    exists h'. split; [exact E|exact Hg].
  - destruct (free_returns_block sample_live (replicate 8 []) (sample_heap []) 8192 4096)
      as (free' & h' & E & _ & _ & (_ & Hu)); [apply sample_heap_ok|done|].
    exists h'. split; [exact E|]; clear E. by apply Hu.
Defined.

(** C32: [realloc] of a live block returns its payload when the size class
    stays, or, only if the kernel refused memory, 0 with [ENOMEM] and every
    live block as it was, or the payload
    of a block with room for the request that holds the old content up to the
    shorter of the two, with the old block no longer live and the words of
    the others as they were. *)
Theorem realloc_keeps_content live free h p s size :
  heap_ok live free h → live !! p = Some s → 0 < size ≤ MALLOC_MAX →
  (s ≤ 2048 → kernel_ready (request size) h) →
  (2048 < s → kernel_ready (request size) (set_h_mem (unmap_words (words_of s) p (h_mem h)) h)) →
  ∃ r h', libc_realloc None (p + 8) size h = Ok r h' ∧
    ((r = p + 8 ∧ h' = h ∧ size + 8 ≤ s) ∨
     (r = 0 ∧ (∃ rest, h_answers h = MAP_FAILED :: rest) ∧ h_errno h' = ENOMEM ∧ words_kept live h h' ∧ ∃ free', heap_ok live free' h') ∨
     ∃ q t free', r = q + 8 ∧ delete p live !! q = None ∧ size + 8 ≤ t ∧
       heap_ok (<[q := t]> (delete p live)) free' h' ∧ words_kept (delete p live) h h' ∧
       ∀ k, 8 ≤ k < Z.min s t → k mod 4 = 0 → h_mem h' !! (q + k) = h_mem h !! (p + k)).
Proof.
  intros Hh Hp Hs Hk1 Hk2. destruct (realloc_ok live free h p s size Hh Hp Hs Hk1 Hk2) as (r & h' & E & Hr).
  exists r, h'. split; [exact E|]; clear E. destruct Hr as [|free' h'|q t free' h'].
  - by left.
  - right; left. split_and!; [done..|by exists free'].
  - right; right. exists q, t, free'. done.
Qed.

Lemma realloc_keeps_content_witness :
  ∃ r h', libc_realloc None 4104 100 (sample_heap [16384]) = Ok r h' ∧ h_mem h' !! (r + 4) = Some 7.
Proof.
  destruct (realloc_keeps_content sample_live (replicate 8 []) (sample_heap [16384]) 4096 16 100)
    as (r & h' & E & [(-> & _ & ?)|[(_ & (? & Ha) & _)|(q & t & free' & -> & _ & Ht & _ & _ & Hsame)]]).
  - apply sample_heap_ok.
  - done.
  - done.
  - intros _. by apply sample_pages.
  - done.
  - lia.
  - done.
  - exists (q + 8), h'. split; [exact E|]; clear E. replace (q + 8 + 4) with (q + 12) by lia.
    rewrite Hsame; [by vm_compute|lia|done].
Defined.
