(* ===== verification/CNumber.v ===== *)
(** * Numbers and strings of the C library

    [uuu/lib/c/lib/strtoul.c], [strtol.c] and [__lltostr.c], for a 32-bit
    [long].  A string is the list of its bytes without the final zero. *)
From S2P Require Import Prelude.
Local Open Scope Z_scope.

Definition EINVAL : Z := 22.
Definition ERANGE : Z := 34.
Definition ULONG_MAX : Z := 2 ^ 32 - 1.
Definition LONG_MAX : Z := 2 ^ 31 - 1.
Definition LONG_MIN : Z := - 2 ^ 31.
Definition ABS_LONG_MIN : Z := 2147483648.

(** The [ctype.h] classes of the C locale. *)
Definition isspace (c : Z) : bool := (c =? 32) || ((9 <=? c) && (c <=? 13)).
Definition isdigit (c : Z) : bool := (48 <=? c) && (c <=? 57).
Definition isxdigit (c : Z) : bool :=
  isdigit c || ((65 <=? c) && (c <=? 70)) || ((97 <=? c) && (c <=? 102)).
Definition isalnum (c : Z) : bool :=
  isdigit c || ((65 <=? c) && (c <=? 90)) || ((97 <=? c) && (c <=? 122)).

(** [s[k]]: the terminator is part of the string. *)
Definition char_at (s : list Z) (k : nat) : Z := nth k s 0.

Fixpoint skip_spaces (s : list Z) : list Z :=
  match s with
  | c :: t => if isspace c then skip_spaces t else s
  | [] => []
  end.

(** The value of a digit, an [unsigned char]. *)
Definition digit_value (c : Z) : Z :=
  u8 (if 97 <=? c then c - 97 + 10
      else if 65 <=? c then c - 65 + 10
      else if c <=? 57 then c - 48 else 0xff).

(** The loop up to the end of the string or of the digits: the rest of the string, the value, the overflow flag. *)
Fixpoint digits_loop (s : list Z) (base v : Z) (overflow : bool) : list Z * Z * bool :=
  match s with
  | [] => ([], v, overflow)
  | ch :: t =>
      let c := digit_value ch in
      if base <=? c then (s, v, overflow) else
      let x := u32 (u32 (Z.land v 0xff * base) + c) in
      let w := u32 (u32 (Z.shiftr v 8 * base) + Z.shiftr x 8) in
      let overflow := overflow || (Z.shiftr ULONG_MAX 8 <? w) in
      digits_loop t base (u32 (u32 (Z.shiftl w 8) + Z.land x 0xff)) overflow
  end.

(** The result, [*endptr] as the rest of the string, [errno] when set. *)
Record conversion : Type := Conversion {
  cv_value : Z;
  cv_end : option (list Z);
  cv_errno : option Z
}.

(** [skip0x:] *)
Definition skip0x (nptr : list Z) (base : Z) : list Z * Z :=
  if ((char_at nptr 1 =? 120) || (char_at nptr 1 =? 88)) && isxdigit (char_at nptr 2)
  then (drop 2 nptr, 16) else (nptr, base).

Definition strtoul (ptr : list Z) (base : Z) : conversion :=
  let nptr := skip_spaces ptr in
  let neg := char_at nptr 0 =? 45 in
  let nptr := if neg || (char_at nptr 0 =? 43) then drop 1 nptr else nptr in
  let orig := nptr in
  let bad_base := negb (base =? 0) && negb ((base =? 16) && (char_at nptr 0 =? 48)) &&
                  (34 <? u32 (base - 2)) in
  if bad_base then Conversion 0 None (Some EINVAL) else
  let '(nptr, base) :=
    if (base =? 16) && (char_at nptr 0 =? 48) then skip0x nptr base
    else if base =? 0 then
      if char_at nptr 0 =? 48 then skip0x nptr 8 else (nptr, 10)
    else (nptr, base) in
  let '(rest, v, overflow) := digits_loop nptr base 0 false in
  let none := (length rest =? length orig)%nat in
  let '(rest, v, errno) := if none then (ptr, 0, Some EINVAL) else (rest, v, None) in
  if overflow then Conversion ULONG_MAX (Some rest) (Some ERANGE)
  else Conversion (if neg then u32 (- v) else v) (Some rest) errno.

(** [endptr] is not NULL. *)
Definition strtol (nptr : list Z) (base : Z) : conversion :=
  let orig := nptr in
  let nptr := skip_spaces nptr in
  let neg := (char_at nptr 0 =? 45) && isalnum (char_at nptr 1) in
  let nptr := if neg then drop 1 nptr else nptr in
  let c := strtoul nptr base in
  let v := cv_value c in
  let rest := (λ e, if (length e =? length nptr)%nat then orig else e) <$> cv_end c in
  if ABS_LONG_MIN <=? v then
    if (v =? ABS_LONG_MIN) && neg then Conversion (i32 v) rest (Some 0)
    else Conversion (if neg then LONG_MIN else LONG_MAX) rest (Some ERANGE)
  else Conversion (i32 (if neg then u32 (- v) else v)) rest (cv_errno c).

(** ** __lltostr *)

(** A [char] is signed. *)
Definition i8 (z : Z) : Z := (z + 2 ^ 7) mod 2 ^ 8 - 2 ^ 7.

Definition digit_char (d : Z) (UpCase : bool) : Z :=
  let c := i8 (d + 48) in
  if 57 <? c then i8 (c + ((if UpCase then 65 else 97) - 57 - 1)) else c.

(** [while((tmp>s)&&(i))]: the room left, the digits before those of [acc]. *)
Fixpoint lltostr_loop (room : nat) (i base : Z) (UpCase : bool) (acc : list Z) : list Z :=
  match room with
  | O => acc
  | S room =>
      if i =? 0 then acc
      else lltostr_loop room (i / base) base UpCase (digit_char (i mod base) UpCase :: acc)
  end.

(** The string left in [s] and the count returned; [size] is at least 2. *)
Definition lltostr (size i base : Z) (UpCase : bool) : list Z * Z :=
  let base := u64 (if (base =? 0) || (36 <? base) then 10 else base) in
  let room := Z.to_nat (size - 1) in
  let acc := if i =? 0 then [48] else lltostr_loop room i base UpCase [] in
  (acc, Z.of_nat (length acc)).
