(* ===== verification/CNumberSpec.v ===== *)
(** * What the number conversions guarantee

    The value [strtoul] and [strtol] give a numeral, with saturation and
    [errno] on overflow, and the round trip through [__lltostr].  What a digit
    is and what it counts comes from the list of the digits in their order,
    not from the arithmetic the code does on characters. *)
From Stdlib Require Import Ascii String.
From S2P Require Import Prelude CNumber.
Local Open Scope Z_scope.

Implicit Types s t ds : list Z.

(** ** Digits *)

(** The digits in their order, in lower and in upper case. *)
Definition digit_names (up : bool) : list Z :=
  map (λ a, Z.of_N (N_of_ascii a)) (list_ascii_of_string
    (if up then "0123456789ABCDEFGHIJKLMNOPQRSTUVWXYZ" else "0123456789abcdefghijklmnopqrstuvwxyz")%string).

(** A digit counts its place in the list. *)
Definition digit_of (c : Z) : option Z :=
  match list_find (eq c) (digit_names false), list_find (eq c) (digit_names true) with
  | Some (i, _), _ | None, Some (i, _) => Some (Z.of_nat i)
  | None, None => None
  end.

Lemma digit_names_checked :
  forallb (λ up, forallb (λ i,
    match digit_names up !! i with
    | Some c => (0 <=? c) && (c <? 256) && (digit_value c =? Z.of_nat i)
    | None => false
    end) (seq 0 36)) [false; true] = true.
Proof. by vm_compute. Qed.

Lemma digit_name up i c : digit_names up !! i = Some c →
  0 ≤ c < 256 ∧ digit_value c = Z.of_nat i ∧ Z.of_nat i < 36.
Proof.
  intros Hi. assert (i < 36)%nat as Hlt by (apply lookup_lt_Some in Hi; by destruct up).
  pose proof (proj1 (forallb_forall _ _) digit_names_checked up) as H. rewrite forallb_forall in H.
  specialize (H ltac:(destruct up; simpl; tauto) i ltac:(apply in_seq; lia)). rewrite Hi in H. lia.
Qed.

Lemma digit_of_Some c d : digit_of c = Some d → 0 ≤ c < 256 ∧ 0 ≤ d < 36 ∧ digit_value c = d.
Proof.
  unfold digit_of. intros Hd.
  assert (∃ up i, digit_names up !! i = Some c ∧ d = Z.of_nat i) as (up & i & Hi & ->).
  { destruct (list_find (eq c) (digit_names false)) as [[i x]|] eqn:E.
    - apply list_find_Some in E as (E & <- & _). injection Hd as <-. by exists false, i.
    - destruct (list_find (eq c) (digit_names true)) as [[i x]|] eqn:E'; [|done].
      apply list_find_Some in E' as (E' & <- & _). injection Hd as <-. by exists true, i. }
  apply digit_name in Hi. lia.
Qed.

Lemma digit_of_None c : 0 ≤ c < 256 → digit_of c = None → 36 ≤ digit_value c.
Proof.
  intros Hc Hn.
  assert (forallb (λ c, match digit_of c with None => 36 <=? digit_value c | Some _ => true end) (seqZ 0 256) = true)
    as H by by vm_compute.
  pose proof (proj1 (forallb_forall _ _) H c) as H1.
  specialize (H1 ltac:(apply list_elem_of_In, elem_of_seqZ; lia)). cbn beta in H1. rewrite Hn in H1. lia.
Qed.

(** ** Numerals *)

Section base.
Context (base : Z) (Hbase : 2 ≤ base ≤ 36).

(** The digits of a numeral, and its value continuing from [v]. *)
Definition digits ds : Prop := Forall (λ c, ∃ d, digit_of c = Some d ∧ d < base) ds.
Fixpoint value (v : Z) ds : Z :=
  match ds with
  | [] => v
  | c :: ds => value (v * base + default 0 (digit_of c)) ds
  end.

(** The numeral ends in front of [t]. *)
Definition no_digit t : Prop :=
  match t with
  | [] => True
  | c :: _ => 0 ≤ c < 256 ∧ match digit_of c with Some d => base ≤ d | None => True end
  end.

Lemma no_digit_value c t : no_digit (c :: t) → base ≤ digit_value c.
Proof using Hbase.
  intros [Hc Hd]. destruct (digit_of c) as [d|] eqn:E.
  - apply digit_of_Some in E. lia.
  - pose proof (digit_of_None c Hc E). lia.
Qed.

Lemma digit_count c : 0 ≤ default 0 (digit_of c).
Proof. destruct (digit_of c) as [d|] eqn:E; cbn; [apply digit_of_Some in E; lia|lia]. Qed.

Lemma value_ge ds v : 0 ≤ v → v ≤ value v ds.
Proof using Hbase.
  revert v; induction ds as [|c ds IH]; intros v Hv; cbn [value]; [lia|].
  pose proof (digit_count c). etransitivity; [|apply IH]; nia.
Qed.

Lemma value_app v ds ds' : value v (ds ++ ds') = value (value v ds) ds'.
Proof. revert v; induction ds as [|c ds IH]; intros v; simpl; [done|]. apply IH. Qed.

(** One turn computes [v * base + c] in two halves. *)
Lemma digit_step v c :
  0 ≤ v < 2 ^ 32 → 0 ≤ c < base →
  let x := u32 (u32 (Z.land v 0xff * base) + c) in
  let w := u32 (u32 (Z.shiftr v 8 * base) + Z.shiftr x 8) in
  (Z.shiftr ULONG_MAX 8 <? w) = (2 ^ 32 <=? v * base + c) ∧
  u32 (u32 (Z.shiftl w 8) + Z.land x 0xff) = u32 (v * base + c).
Proof using Hbase.
  intros Hv Hc. cbv zeta. change 0xff with (Z.ones 8). change (Z.shiftr ULONG_MAX 8) with 16777215.
  rewrite !Z.land_ones, !Z.shiftr_div_pow2 by lia.
  change (2 ^ 8) with 256.
  pose proof (Z.mod_pos_bound v 256 ltac:(lia)) as Hm.
  pose proof (Z.div_mod v 256 ltac:(lia)) as Ed.
  assert (0 ≤ v / 256 < 2 ^ 24) as Hd by (split; [apply Z.div_pos; lia|apply Z.div_lt_upper_bound; lia]).
  set (h := v / 256) in *. set (lo := v mod 256) in *.
  assert (0 ≤ lo * base ≤ 255 * 36) by nia. assert (0 ≤ h * base ≤ 2 ^ 24 * 36) by nia.
  rewrite (u32_small (lo * base)), (u32_small (lo * base + c)), (u32_small (h * base)) by lia.
  set (x := lo * base + c) in *.
  pose proof (Z.div_mod x 256 ltac:(lia)) as Ex. pose proof (Z.mod_pos_bound x 256 ltac:(lia)) as Hxm.
  assert (0 ≤ x / 256 ≤ 36) by (split; [apply Z.div_pos; lia|apply Z.div_le_upper_bound; lia]).
  rewrite (u32_small (h * base + x / 256)) by lia. set (w := h * base + x / 256) in *.
  assert (v * base + c = 256 * w + x mod 256) as E by nia. split.
  - rewrite E. revert Hxm. generalize (x mod 256). intros m Hmm.
    destruct (Z.ltb_spec 16777215 w), (Z.leb_spec (2 ^ 32) (256 * w + m)); done || lia.
  - rewrite Z.shiftl_mul_pow2 by lia. change (2 ^ 8) with 256. rewrite E.
    unfold u32. rewrite Zplus_mod_idemp_l. f_equal. lia.
Qed.

Lemma digits_loop_ok ds t : ∀ v ov,
  digits ds → no_digit t → 0 ≤ v < 2 ^ 32 →
  ∃ v', digits_loop (ds ++ t) base v ov = (t, v', ov || (2 ^ 32 <=? value v ds)) ∧
    0 ≤ v' < 2 ^ 32 ∧ (value v ds < 2 ^ 32 → v' = value v ds).
Proof using Hbase.
  induction ds as [|c ds IH]; intros v ov Hd Ht Hv.
  { exists v. simpl. replace (2 ^ 32 <=? v) with false by lia. rewrite orb_false_r.
    split; [|done]. destruct t as [|c t]; [done|]. apply no_digit_value in Ht. simpl.
    by replace (base <=? digit_value c) with true by lia. }
  apply Forall_cons in Hd as [(d & Ed & Hcb) Hd]. destruct (digit_of_Some c d Ed) as (Hc & Hd0 & Ev).
  cbn [app digits_loop value]. rewrite Ed, Ev. cbn [from_option id]. replace (base <=? d) with false by lia.
  destruct (digit_step v d Hv ltac:(lia)) as [-> ->].
  set (V := v * base + d). assert (0 ≤ V) by (unfold V; nia).
  pose proof (value_ge ds V ltac:(done)) as Hge.
  destruct (Z.leb_spec (2 ^ 32) V) as [Hbig|Hsmall].
  - destruct (IH (u32 V) (ov || true) Hd Ht (u32_range V)) as (v' & E & Hv' & _).
    exists v'. rewrite E. replace (2 ^ 32 <=? value V ds) with true by lia.
    rewrite !orb_true_r. split; [done|]. split; [done|lia].
  - rewrite u32_small by lia. rewrite orb_false_r. apply IH; done || lia.
Qed.
End base.

(** ** The first character *)

Definition digit_classes (c : Z) : bool :=
  implb (digit_value c <? 36)
    (negb (isspace c) && negb (c =? 45) && negb (c =? 43) && negb (c =? 0) && isalnum c).

Lemma digit_classes_all : forallb digit_classes (seqZ 0 256) = true.
Proof. by vm_compute. Qed.

(** No digit is a space, a sign or an [x]; every digit is alphanumeric. *)
Lemma digit_class c :
  0 ≤ c < 256 → digit_value c < 36 →
  isspace c = false ∧ c ≠ 45 ∧ c ≠ 43 ∧ c ≠ 0 ∧ isalnum c = true.
Proof.
  intros Hc Hd. pose proof (proj1 (forallb_forall _ _) digit_classes_all c) as H.
  unfold digit_classes in H. replace (digit_value c <? 36) with true in H by lia.
  destruct (isspace c), (Z.eqb_spec c 45), (Z.eqb_spec c 43), (Z.eqb_spec c 0), (isalnum c);
    try done; exfalso; cbn in H; discriminate H; apply list_elem_of_In, elem_of_seqZ; lia.
Qed.

Lemma x_no_hex_digit c : c = 120 ∨ c = 88 → 16 ≤ digit_value c.
Proof. intros [-> | ->]; by vm_compute. Qed.

Lemma skip_spaces_app sp s :
  Forall (λ c, isspace c = true) sp → (∀ c t, s = c :: t → isspace c = false) →
  skip_spaces (sp ++ s) = s.
Proof.
  intros Hsp Hs. induction Hsp as [|c sp Hc Hsp IH]; simpl.
  - destruct s as [|c t]; [done|]. simpl. by rewrite (Hs c t).
  - by rewrite Hc.
Qed.

(** A sign as the functions read it. *)
Definition sign_chars (neg : bool) : list Z := if neg then [45] else [].

Section numeral.
Context (base : Z) (Hbase : 2 ≤ base ≤ 36).

(** A numeral in the base, up to [t]; a zero in base 16 has no [x] behind. *)
Record numeral ds t : Prop := {
  nu_digits : digits base ds;
  nu_some : ds ≠ [];
  nu_end : no_digit base t;
  nu_hex : base = 16 → char_at t 0 ≠ 120 ∧ char_at t 0 ≠ 88
}.

Lemma numeral_first ds t : numeral ds t →
  ∃ c ds', ds = c :: ds' ∧ 0 ≤ c < 256 ∧ isspace c = false ∧ c ≠ 45 ∧ c ≠ 43 ∧ isalnum c = true.
Proof using Hbase.
  intros [Hd Hne _ _]. destruct ds as [|c ds]; [done|]. apply Forall_cons in Hd as [(d & Ed & Hcb) _].
  apply digit_of_Some in Ed as (Hc & _ & Ev).
  destruct (digit_class c Hc) as (H1 & H2 & H3 & _ & H4); [lia|]. by exists c, ds.
Qed.

(** The prefix [0x] is not taken from a numeral. *)
Lemma numeral_no_prefix ds t : numeral ds t → base = 16 →
  skip0x (ds ++ t) base = (ds ++ t, base).
Proof using Hbase.
  intros [Hd Hne Ht Hx] Hb. unfold skip0x.
  assert (char_at (ds ++ t) 1 ≠ 120 ∧ char_at (ds ++ t) 1 ≠ 88) as [H1 H2].
  { destruct ds as [|c [|c' ds]]; [done|by destruct (Hx Hb)|].
    apply Forall_cons in Hd as [_ Hd]. apply Forall_cons in Hd as [(d & Hc & Hlt) _]. apply digit_of_Some in Hc.
    change (char_at ((c :: c' :: ds) ++ t) 1) with c'.
    split; intros ->; pose proof (x_no_hex_digit 120); pose proof (x_no_hex_digit 88); lia. }
  replace (char_at (ds ++ t) 1 =? 120) with false by lia.
  replace (char_at (ds ++ t) 1 =? 88) with false by lia. done.
Qed.

Lemma strtoul_ok sp neg ds t :
  Forall (λ c, isspace c = true) sp → numeral ds t →
  strtoul (sp ++ sign_chars neg ++ ds ++ t) base =
    if 2 ^ 32 <=? value base 0 ds then Conversion ULONG_MAX (Some t) (Some ERANGE)
    else Conversion (if neg then u32 (- value base 0 ds) else value base 0 ds) (Some t) None.
Proof using Hbase.
  intros Hsp Hn. destruct (numeral_first _ _ Hn) as (c & ds' & Eds & Hc & Hcs & Hc1 & Hc2 & _).
  unfold strtoul. rewrite skip_spaces_app; [|done|].
  2:{ intros c' t' E. destruct neg; simpl in E; [by injection E as <- _|].
      rewrite Eds in E. by injection E as <- _. }
  assert (char_at (ds ++ t) 0 = c) as Hc0 by (by rewrite Eds).
  assert (let nptr := sign_chars neg ++ ds ++ t in
    (char_at nptr 0 =? 45) = neg ∧
    (if neg || (char_at nptr 0 =? 43) then drop 1 nptr else nptr) = ds ++ t) as [E1 E2].
  { cbv zeta. destruct neg; [done|]. simpl app. rewrite Hc0.
    replace (c =? 45) with false by lia. by replace (c =? 43) with false by lia. }
  cbv zeta in E1, E2. cbv zeta. rewrite E1, E2, Hc0.
  replace (34 <? u32 (base - 2)) with false by (rewrite u32_small by lia; lia).
  rewrite andb_false_r. replace (base =? 0) with false by lia. cbv iota.
  assert ((if (base =? 16) && (c =? 48) then skip0x (ds ++ t) base else (ds ++ t, base)) =
    (ds ++ t, base)) as ->.
  { destruct (Z.eqb_spec base 16) as [Hb|Hb]; [|done]. destruct (c =? 48); [|done].
    by apply numeral_no_prefix. }
  destruct Hn as [Hd Hne Ht Hx].
  destruct (digits_loop_ok base Hbase ds t 0 false Hd Ht ltac:(lia)) as (v & -> & Hv & Hval).
  replace (length t =? length (ds ++ t))%nat with false.
  2:{ symmetry. apply Nat.eqb_neq. rewrite length_app. destruct ds; [done|simpl; lia]. }
  cbn [orb]. destruct (Z.leb_spec (2 ^ 32) (value base 0 ds)); [done|]. by rewrite Hval.
Qed.

(** The number with its sign. *)
Definition signed_value (neg : bool) ds : Z := if neg then - value base 0 ds else value base 0 ds.

Lemma strtol_ok sp neg ds t :
  Forall (λ c, isspace c = true) sp → numeral ds t →
  let v := signed_value neg ds in
  cv_value (strtol (sp ++ sign_chars neg ++ ds ++ t) base) = Z.max LONG_MIN (Z.min LONG_MAX v) ∧
  cv_end (strtol (sp ++ sign_chars neg ++ ds ++ t) base) = Some t ∧
  (cv_errno (strtol (sp ++ sign_chars neg ++ ds ++ t) base) = Some ERANGE ↔
    v < LONG_MIN ∨ LONG_MAX < v).
Proof using Hbase.
  intros Hsp Hn v. destruct (numeral_first _ _ Hn) as (c & ds' & Eds & Hc & Hcs & Hc1 & Hc2 & Hal).
  assert (0 ≤ value base 0 ds) as H0 by (by apply (value_ge base Hbase)).
  pose proof (strtoul_ok [] false ds t ltac:(constructor) Hn) as Hu. simpl in Hu.
  unfold strtol. rewrite skip_spaces_app; [|done|].
  2:{ intros c' t' E. destruct neg; simpl in E; [by injection E as <- _|].
      rewrite Eds in E. by injection E as <- _. }
  assert (char_at (ds ++ t) 0 = c) as Hc0 by (by rewrite Eds).
  assert (let nptr := sign_chars neg ++ ds ++ t in
    (char_at nptr 0 =? 45) && isalnum (char_at nptr 1) = neg ∧
    (if neg then drop 1 nptr else nptr) = ds ++ t) as [E1 E2].
  { cbv zeta. destruct neg; simpl app.
    - change (char_at (45 :: ds ++ t) 1) with (char_at (ds ++ t) 0). rewrite Hc0, Hal. done.
    - rewrite Hc0. by replace (c =? 45) with false by lia. }
  cbv zeta in E1, E2. cbv zeta. rewrite E1, E2, Hu.
  unfold ULONG_MAX, ABS_LONG_MIN, LONG_MIN, LONG_MAX, ERANGE, signed_value in *.
  destruct Hn as [_ Hne _ _].
  assert ((length t =? length (ds ++ t))%nat = false) as Hlen.
  { apply Nat.eqb_neq. rewrite length_app. destruct ds; [done|simpl; lia]. }
  subst v. set (V := value base 0 ds) in *.
  destruct (Z.leb_spec (2 ^ 32) V) as [Hbig|Hsmall]; cbn [cv_value cv_end cv_errno].
  { change (2147483648 <=? 2 ^ 32 - 1) with true. change (2 ^ 32 - 1 =? 2147483648) with false.
    cbn [andb cv_value cv_end cv_errno fmap option_fmap option_map]. rewrite Hlen.
    destruct neg; (split; [lia|split; [done|split; [lia|done]]]). }
  destruct (Z.leb_spec 2147483648 V) as [Hl|Hl].
  - destruct (Z.eqb_spec V 2147483648) as [->|Hne']; destruct neg;
      cbn [andb cv_value cv_end cv_errno fmap option_fmap option_map]; rewrite Hlen;
      (split; [done || lia|split; [done|split; [done || lia|done || lia]]]).
  - cbn [cv_value cv_end cv_errno fmap option_fmap option_map]. rewrite Hlen. destruct neg.
    + split; [|split; [done|split; [done|lia]]]. destruct (decide (V = 0)) as [->|]; [done|].
      assert (u32 (- V) = 2 ^ 32 - V) as ->.
      { unfold u32. symmetry. apply Z.mod_unique with (-1); lia. }
      assert (i32 (2 ^ 32 - V) = - V) as ->; [|lia].
      unfold i32. assert ((2 ^ 32 - V + 2 ^ 31) mod 2 ^ 32 = - V + 2 ^ 31) as ->; [|lia].
      symmetry. apply Z.mod_unique with 1; lia.
    + rewrite i32_small by lia. split; [lia|split; [done|split; [done|lia]]].
Qed.
End numeral.

(** ** Printing *)

Lemma digit_char_class d up : 0 ≤ d < 36 →
  digit_char d up = nth (Z.to_nat d) (digit_names up) 0 ∧ digit_of (digit_char d up) = Some d.
Proof.
  intros Hd.
  assert (forallb (λ d, forallb (λ up, bool_decide (digit_char d up = nth (Z.to_nat d) (digit_names up) 0 ∧
    digit_of (digit_char d up) = Some d)) [true; false]) (seqZ 0 36) = true) as H by by vm_compute.
  pose proof (proj1 (forallb_forall _ _) H d) as H1. rewrite (forallb_forall) in H1.
  specialize (H1 ltac:(apply list_elem_of_In, elem_of_seqZ; lia) up ltac:(destruct up; simpl; tauto)).
  by apply bool_decide_eq_true in H1.
Qed.

Section print.
Context (base : Z) (Hbase : 2 ≤ base ≤ 36) (up : bool).

Lemma value_linear v ds : value base v ds = v * base ^ Z.of_nat (length ds) + value base 0 ds.
Proof using Hbase.
  revert v; induction ds as [|c ds IH]; intros v; cbn [value length].
  - change (Z.of_nat 0) with 0. rewrite Z.pow_0_r. lia.
  - rewrite (IH (v * base + _)), (IH (0 * base + _)).
    rewrite Nat2Z.inj_succ, Z.pow_succ_r by lia. ring.
Qed.

(** The loop prints the digits that fit in front of the ones it has. *)
Lemma lltostr_loop_ok room : ∀ i acc,
  0 ≤ i < base ^ Z.of_nat room → digits base acc →
  ∃ ds, lltostr_loop room i base up acc = ds ++ acc ∧ digits base ds ∧ (length ds ≤ room)%nat ∧
    value base 0 ds = i ∧ (ds = [] ↔ i = 0).
Proof using Hbase.
  induction room as [|room IH]; intros i acc Hi Ha; cbn [lltostr_loop].
  { exists []. simpl in *. split; [done|]. split; [constructor|]. split; [done|]. split; [lia|]. split; [lia|done]. }
  destruct (Z.eqb_spec i 0) as [->|Hi0].
  { exists []. split; [done|]. split; [constructor|]. split; [simpl; lia|]. by split. }
  pose proof (Z.mod_pos_bound i base ltac:(lia)) as Hm.
  destruct (digit_char_class (i mod base) up) as [_ Hv]; [lia|].
  set (c := digit_char (i mod base) up) in *.
  assert (∃ d, digit_of c = Some d ∧ d < base) as Hcd by (eexists; split; [exact Hv|lia]).
  destruct (IH (i / base) (c :: acc)) as (ds & E & Hd & Hl & Hval & Hnil).
  { rewrite Nat2Z.inj_succ, Z.pow_succ_r in Hi by lia.
    split; [apply Z.div_pos; lia|apply Z.div_lt_upper_bound; lia]. }
  { by apply Forall_cons. }
  exists (ds ++ [c]). rewrite E, <- app_assoc. split; [done|].
  split; [apply Forall_app; split; [done|apply Forall_cons; split; [done|by apply Forall_nil]]|].
  split; [rewrite length_app; simpl; lia|]. split.
  - rewrite value_app, Hval. cbn [value]. rewrite Hv. cbn [from_option id]. pose proof (Z.div_mod i base ltac:(lia)). lia.
  - split; [by destruct ds|done].
Qed.

Lemma lltostr_ok size i :
  2 ≤ size → 0 ≤ i < base ^ (size - 1) →
  ∃ ds, lltostr size i base up = (ds, Z.of_nat (length ds)) ∧ digits base ds ∧ ds ≠ [] ∧
    Z.of_nat (length ds) ≤ size - 1 ∧ value base 0 ds = i.
Proof using Hbase.
  intros Hs Hi. unfold lltostr. replace ((base =? 0) || (36 <? base)) with false by lia.
  rewrite u64_small by lia. destruct (Z.eqb_spec i 0) as [->|Hi0].
  - exists [48]. split; [done|]. split; [|split; [done|split; [simpl; lia|done]]].
    apply Forall_cons. split; [|by apply Forall_nil]. exists 0. split; [done|lia].
  - destruct (lltostr_loop_ok (Z.to_nat (size - 1)) i []) as (ds & E & Hd & Hl & Hv & Hn);
      [by rewrite Z2Nat.id by lia|constructor|].
    rewrite app_nil_r in E. exists ds. rewrite E. split; [done|]. split; [done|].
    split; [by intros ->%Hn|]. split; [lia|done].
Qed.
End print.

(** The white space of the C locale. *)
Definition white_space : list Z := [32; 9; 10; 11; 12; 13].

(** C24: [strtol] of a numeral in base 2 to 36, with leading white space and
    an optional minus sign: the value is the number, or the nearest of
    [LONG_MIN] and [LONG_MAX] with [errno] set to [ERANGE] exactly when it
    does not fit, and [*endptr] is what follows the numeral.  A digit counts
    its place among 0 to 9 and a to z, in either case of the letters; the
    numeral ends at the end of the string or in front of a byte that is no
    digit of the base, in base 16 not an [x] either. *)
Theorem strtol_value base sp neg ds t :
  2 ≤ base ≤ 36 → Forall (λ c, c ∈ white_space) sp → numeral base ds t →
  let s := sp ++ sign_chars neg ++ ds ++ t in let v := signed_value base neg ds in
  cv_value (strtol s base) = Z.max (- 2 ^ 31) (Z.min (2 ^ 31 - 1) v) ∧
  cv_end (strtol s base) = Some t ∧
  (cv_errno (strtol s base) = Some ERANGE ↔ v < - 2 ^ 31 ∨ 2 ^ 31 - 1 < v).
Proof.
  intros Hb Hsp Hn. apply strtol_ok; [done| |done]. eapply Forall_impl; [exact Hsp|].
  assert (Forall (λ c, isspace c = true) white_space) as H by by repeat constructor.
  rewrite Forall_forall in H. exact H.
Qed.

(** [" \t-2147483649;"] in base 10, and ["zZ"] in base 36. *)
Lemma strtol_value_witness :
  let s := [32; 9] ++ sign_chars true ++ [50; 49; 52; 55; 52; 56; 51; 54; 52; 57] ++ [59] in
  (cv_value (strtol s 10) = - 2 ^ 31 ∧ cv_end (strtol s 10) = Some [59] ∧ cv_errno (strtol s 10) = Some ERANGE) ∧
  cv_value (strtol [122; 90] 36) = 35 * 36 + 35.
Proof.
  cbv zeta. split.
  - destruct (strtol_value 10 [32; 9] true [50; 49; 52; 55; 52; 56; 51; 54; 52; 57] [59]) as (E1 & E2 & E3).
    + lia.
    + by apply (bool_decide_eq_true_1 _).
    + split; [|done|by vm_compute|done].
      repeat (apply Forall_cons; split; [eexists; split; [vm_compute; reflexivity|lia]|]). by apply Forall_nil.
    + split; [exact E1|]. split; [exact E2|]. apply E3. left. reflexivity.
  - destruct (strtol_value 36 [] false [122; 90] []) as (E1 & _).
    + lia.
    + by apply Forall_nil.
    + split; [|done|done|done].
      repeat (apply Forall_cons; split; [eexists; split; [vm_compute; reflexivity|lia]|]). by apply Forall_nil.
    + exact E1.
Defined.

(** [strtoul] reads back what [__lltostr] prints of a number that
    fits in an [unsigned long], in every base and both cases of letters;
    the string fits in the buffer. *)
Theorem print_parse base up size i :
  2 ≤ base ≤ 36 → 2 ≤ size → 0 ≤ i < base ^ (size - 1) → i < 2 ^ 32 →
  let r := lltostr size i base up in
  strtoul r.1 base = Conversion i (Some []) None ∧
  r.2 = Z.of_nat (length r.1) ∧ r.2 ≤ size - 1.
Proof.
  intros Hb Hs Hi Hu. destruct (lltostr_ok base Hb up size i Hs Hi) as (ds & E & Hd & Hne & Hl & Hv).
  cbv zeta. rewrite E. cbn [fst snd]. split; [|by split].
  pose proof (strtoul_ok base Hb [] false ds [] ltac:(constructor)) as H. simpl app in H.
  rewrite app_nil_r in H. rewrite H, Hv by (split; done). by replace (2 ^ 32 <=? i) with false by lia.
Qed.

Lemma print_parse_witness :
  let r := lltostr 12 3735928559 16 true in
  strtoul r.1 16 = Conversion 3735928559 (Some []) None ∧
  r.2 = Z.of_nat (length r.1) ∧ r.2 ≤ 12 - 1.
Proof. apply (print_parse 16 true 12 3735928559); [lia|lia|by vm_compute|lia]. Defined.
