(* ===== verification/CTime.v ===== *)
(** * The calendar of the C library

    [uuu/lib/c/libugly/gmtime_r.c], [mktime.c], [timegm.c], [isleap.c] and
    [time_table_spd.c], for a 32-bit [time_t].  A read of [__spm] outside of
    the table is [None]. *)
From S2P Require Import Prelude.
Local Open Scope Z_scope.

Record tm : Type := Tm {
  tm_sec : Z; tm_min : Z; tm_hour : Z; tm_mday : Z; tm_mon : Z; tm_year : Z;
  tm_wday : Z; tm_yday : Z
}.

Definition isleap (year : Z) : Z :=
  if (Z.rem year 4 =? 0) && (negb (Z.rem year 100 =? 0) || (Z.rem year 400 =? 0)) then 1 else 0.

(** Days before each month of a common year. *)
Definition spm : list Z := [0; 31; 59; 90; 120; 151; 181; 212; 243; 273; 304; 334].

Definition spm_at (i : Z) : option Z := if i <? 0 then None else spm !! Z.to_nat i.

Definition SPD : Z := 24 * 60 * 60.

(** [for (i=1970; ; ++i)]: the year and the day in it. *)
Fixpoint year_loop (fuel : nat) (i work : Z) : Z * Z :=
  match fuel with
  | O => (i, work)
  | S fuel =>
      let k := if negb (isleap i =? 0) then 366 else 365 in
      if k <=? work then year_loop fuel (i + 1) (work - k) else (i, work)
  end.

(** [for (i=11; i && (__spm[i]>work); --i)] *)
Fixpoint month_loop (i : nat) (work : Z) : nat :=
  match i with
  | O => O
  | S i' => if work <? default 0 (spm !! i) then month_loop i' work else i
  end.

(** [work] holds less than 24856 days, each year takes 365 or more. *)
Definition gmtime_r (timep : Z) : tm :=
  let work := Z.rem timep SPD in
  let sec := Z.rem work 60 in
  let work := Z.quot work 60 in
  let min := Z.rem work 60 in
  let hour := Z.quot work 60 in
  let work := Z.quot timep SPD in
  let wday := Z.rem (4 + work) 7 in
  let '(i, work) := year_loop (S (Z.to_nat (work / 365))) 1970 work in
  let year := i - 1900 in
  let yday := work in
  let '(mday, work) :=
    if negb (isleap i =? 0) && (58 <? work)
    then (if work =? 59 then 2 else 1, work - 1) else (1, work) in
  let mon := month_loop 11 work in
  Tm sec min hour (mday + (work - default 0 (spm !! mon))) (Z.of_nat mon) year wday yday.

(** [for ( i = 70; i < t->tm_year; i++ )]: [n] years from [i] on. *)
Fixpoint days_loop (n : nat) (i day : Z) : Z :=
  match n with
  | O => day
  | S n => days_loop n (i + 1) (i32 (day + (365 + isleap (i + 1900))))
  end.

(** The result and the structure with the fields it sets. *)
Definition mktime (t : tm) : option (Z * tm) :=
  if tm_year t <? 70 then Some (-1, t) else
  before ← spm_at (tm_mon t);
  let yday := i32 (before + tm_mday t - 1 +
    Z.land (isleap (tm_year t + 1900)) (if 1 <? tm_mon t then 1 else 0)) in
  let day := days_loop (Z.to_nat (tm_year t - 70)) 70 yday in
  let wday := Z.rem (day + 4) 7 in
  let day := i32 (day * 24) in
  Some (i32 (i32 (i32 (i32 (day + tm_hour t) * 60 + tm_min t) * 60) + tm_sec t),
    Tm (tm_sec t) (tm_min t) (tm_hour t) (tm_mday t) (tm_mon t) (tm_year t) wday yday).

(** "cut and paste from mktime" *)
Definition timegm (t : tm) : option (Z * tm) := mktime t.
