(* ===== verification/CTimeSpec.v ===== *)
(** * The calendar: seconds to dates and back

    [mktime] takes the date [gmtime_r] gives a number of seconds back to that
    number, and [gmtime_r] the number of a valid date back to the date.  The
    reference is the Gregorian calendar, by a rule of leap years and a count of
    days of its own: nothing of [CTime] is used in it. *)
From S2P Require Import Prelude CTime.
Local Open Scope Z_scope.

(** ** The Gregorian calendar *)

(** A year is a leap year when 4 divides it, the centuries only when 400
    divides them. *)
Definition leap_year (y : Z) : bool :=
  (y mod 4 =? 0) && (negb (y mod 100 =? 0) || (y mod 400 =? 0)).

Definition month_lengths (y : Z) : list Z :=
  [31; if leap_year y then 29 else 28; 31; 30; 31; 30; 31; 31; 30; 31; 30; 31].

(** The leap years of the years 1 to [y - 1]. *)
Definition leaps_before (y : Z) : Z := (y - 1) / 4 - (y - 1) / 100 + (y - 1) / 400.

(** From the first of January 1970 to that of [y]. *)
Definition days_before_year (y : Z) : Z :=
  365 * (y - 1970) + (leaps_before y - leaps_before 1970).

(** From the first of January to a day; months from 0 on, days from 1 on. *)
Definition days_before_day (y mon mday : Z) : Z :=
  foldr Z.add 0 (take (Z.to_nat mon) (month_lengths y)) + mday - 1.

(** ** Years *)

Lemma isleap_spec y : isleap y = if leap_year y then 1 else 0.
Proof.
  assert (∀ k, 0 < k → (Z.rem y k =? 0) = (y mod k =? 0)) as Hk.
  { intros k Hk. pose proof (Z.rem_divide y k ltac:(lia)). pose proof (Z.mod_divide y k ltac:(lia)).
    destruct (Z.eqb_spec (Z.rem y k) 0), (Z.eqb_spec (y mod k) 0); tauto. }
  unfold isleap, leap_year. by rewrite !Hk by lia.
Qed.

Lemma isleap_cases y : isleap y = 0 ∨ isleap y = 1.
Proof. rewrite isleap_spec. destruct (leap_year y); auto. Qed.

Lemma leaps_before_succ y : leaps_before (y + 1) = leaps_before y + isleap y.
Proof.
  rewrite isleap_spec. unfold leaps_before, leap_year.
  destruct (Z.eqb_spec (y mod 4) 0), (Z.eqb_spec (y mod 100) 0), (Z.eqb_spec (y mod 400) 0);
    cbn [negb andb orb]; Z.div_mod_to_equations; lia.
Qed.

Definition year_days (y : Z) : Z := 365 + isleap y.

(** The days of the [n] years from [y] on. *)
Fixpoint years_days (n : nat) (y : Z) : Z :=
  match n with
  | O => 0
  | S n => year_days y + years_days n (y + 1)
  end.

Lemma years_days_spec n : ∀ y,
  years_days n y = 365 * Z.of_nat n + (leaps_before (y + Z.of_nat n) - leaps_before y).
Proof.
  induction n as [|n IH]; intros y; cbn [years_days].
  { change (Z.of_nat 0) with 0. rewrite Z.add_0_r. lia. }
  rewrite IH, leaps_before_succ. unfold year_days.
  replace (y + 1 + Z.of_nat n) with (y + Z.of_nat (S n)) by lia. lia.
Qed.

Lemma years_days_range n : ∀ y, 365 * Z.of_nat n ≤ years_days n y ≤ 366 * Z.of_nat n.
Proof.
  induction n as [|n IH]; intros y; cbn [years_days]; [lia|]. specialize (IH (y + 1)).
  unfold year_days. destruct (isleap_cases y) as [-> | ->]; lia.
Qed.

Lemma year_loop_ok fuel : ∀ i work, 0 ≤ work < 365 * Z.of_nat fuel →
  ∃ n w, year_loop fuel i work = (i + Z.of_nat n, w) ∧ work = years_days n i + w ∧
    0 ≤ w < year_days (i + Z.of_nat n).
Proof.
  induction fuel as [|fuel IH]; intros i work Hw; [lia|]. cbn [year_loop].
  assert ((if negb (isleap i =? 0) then 366 else 365) = year_days i) as ->
    by (unfold year_days; by destruct (isleap_cases i) as [-> | ->]).
  destruct (Z.leb_spec (year_days i) work) as [Hle|Hlt].
  - destruct (IH (i + 1) (work - year_days i)) as (n & w & -> & Hsum & Hr).
    { unfold year_days in *. destruct (isleap_cases i); lia. }
    exists (S n), w. replace (i + Z.of_nat (S n)) with (i + 1 + Z.of_nat n) by lia.
    cbn [years_days]. split; [done|]. split; [lia|done].
  - exists O, work. change (Z.of_nat 0) with 0. rewrite Z.add_0_r. cbn [years_days]. split; [done|]. split; lia.
Qed.

(** The splitting into year and day is unique. *)
Lemma year_loop_years fuel n : ∀ i w, (n < fuel)%nat → 0 ≤ w < year_days (i + Z.of_nat n) →
  year_loop fuel i (years_days n i + w) = (i + Z.of_nat n, w).
Proof.
  revert fuel. induction n as [|n IH]; intros [|fuel] i w Hf Hw; try lia; cbn [year_loop years_days].
  - assert ((if negb (isleap i =? 0) then 366 else 365) = year_days i) as ->
      by (unfold year_days; by destruct (isleap_cases i) as [-> | ->]).
    change (Z.of_nat 0) with 0 in *. rewrite Z.add_0_r in Hw |- *. by destruct (Z.leb_spec (year_days i) (0 + w)); [lia|].
  - assert ((if negb (isleap i =? 0) then 366 else 365) = year_days i) as ->
      by (unfold year_days; by destruct (isleap_cases i) as [-> | ->]).
    pose proof (years_days_range n (i + 1)).
    destruct (Z.leb_spec (year_days i) (year_days i + years_days n (i + 1) + w)); [|lia].
    replace (year_days i + years_days n (i + 1) + w - year_days i) with (years_days n (i + 1) + w) by lia.
    rewrite IH; [f_equal; lia|lia|]. by replace (i + 1 + Z.of_nat n) with (i + Z.of_nat (S n)) by lia.
Qed.

Lemma days_loop_ok n : ∀ i day, 0 ≤ day → day + 366 * Z.of_nat n < 2 ^ 31 →
  days_loop n i day = day + years_days n (i + 1900).
Proof.
  induction n as [|n IH]; intros i day Hd Hb; cbn [days_loop years_days]; [lia|].
  unfold year_days. pose proof (isleap_cases (i + 1900)).
  rewrite i32_small by lia. rewrite IH by lia.
  replace (i + 1 + 1900) with (i + 1900 + 1) by lia. lia.
Qed.

(** ** Months *)

(** The month and the day of the month of a day of the year, as in
    [gmtime_r]. *)
Definition month_day (leap work : Z) : Z * Z :=
  let '(mday, work) :=
    if negb (leap =? 0) && (58 <? work) then (if work =? 59 then 2 else 1, work - 1) else (1, work) in
  let mon := month_loop 11 work in
  (Z.of_nat mon, mday + (work - default 0 (spm !! mon))).

Definition month_days (leap mon : Z) : Z :=
  if mon =? 1 then 28 + leap
  else if (mon =? 3) || (mon =? 5) || (mon =? 8) || (mon =? 10) then 30 else 31.

Definition day_of_year (leap mon mday : Z) : Z :=
  default 0 (spm !! Z.to_nat mon) + mday - 1 + Z.land leap (if 1 <? mon then 1 else 0).

(** Both agree with the calendar. *)
Lemma month_days_spec y mon : 0 ≤ mon ≤ 11 →
  month_days (isleap y) mon = nth (Z.to_nat mon) (month_lengths y) 0.
Proof.
  intros Hm. rewrite isleap_spec. unfold month_lengths.
  assert (∃ m : nat, mon = Z.of_nat m ∧ (m < 12)%nat) as (m & -> & Hlt) by (exists (Z.to_nat mon); lia).
  rewrite Nat2Z.id. do 12 (destruct m as [|m]; [by destruct (leap_year y)|]). lia.
Qed.

Lemma day_of_year_spec y mon mday : 0 ≤ mon ≤ 11 →
  day_of_year (isleap y) mon mday = days_before_day y mon mday.
Proof.
  intros Hm. rewrite isleap_spec. unfold day_of_year, days_before_day, month_lengths.
  assert (∃ m : nat, mon = Z.of_nat m ∧ (m < 12)%nat) as (m & -> & Hlt) by (exists (Z.to_nat mon); lia).
  rewrite Nat2Z.id. destruct (leap_year y).
  - enough (default 0 (spm !! m) + Z.land 1 (if 1 <? Z.of_nat m then 1 else 0) =
      foldr Z.add 0 (take m [31; 29; 31; 30; 31; 30; 31; 31; 30; 31; 30; 31])) by lia.
    do 12 (destruct m as [|m]; [done|]). lia.
  - enough (default 0 (spm !! m) + Z.land 0 (if 1 <? Z.of_nat m then 1 else 0) =
      foldr Z.add 0 (take m [31; 28; 31; 30; 31; 30; 31; 31; 30; 31; 30; 31])) by lia.
    do 12 (destruct m as [|m]; [done|]). lia.
Qed.

Definition day_checks (leap work : Z) : bool :=
  let '(mon, mday) := month_day leap work in
  (0 <=? mon) && (mon <=? 11) && (1 <=? mday) && (mday <=? month_days leap mon) &&
  (day_of_year leap mon mday =? work).

Definition month_checks (leap mon : Z) : bool :=
  forallb (λ mday,
    let work := day_of_year leap mon mday in
    bool_decide (month_day leap work = (mon, mday)) && (0 <=? work) && (work <? 365 + leap))
    (seqZ 1 (month_days leap mon)).

Lemma calendar_checked :
  forallb (λ leap, forallb (day_checks leap) (seqZ 0 (365 + leap)) &&
    forallb (month_checks leap) (seqZ 0 12)) [0; 1] = true.
Proof. by vm_compute. Qed.

Lemma forallb_seqZ (f : Z → bool) a n x : forallb f (seqZ a n) = true → a ≤ x < a + n → f x = true.
Proof. intros Hf Hx. pose proof (proj1 (forallb_forall _ _) Hf x) as H. apply H, list_elem_of_In, elem_of_seqZ. lia. Qed.

Lemma leap_checked leap : leap = 0 ∨ leap = 1 →
  forallb (day_checks leap) (seqZ 0 (365 + leap)) = true ∧ forallb (month_checks leap) (seqZ 0 12) = true.
Proof.
  intros Hl. pose proof calendar_checked as H. cbn [forallb] in H.
  apply andb_prop in H as [H0 H]. apply andb_prop in H as [H1 _].
  destruct Hl as [-> | ->]; by apply andb_prop.
Qed.

Lemma month_day_ok leap work : leap = 0 ∨ leap = 1 → 0 ≤ work < 365 + leap →
  let '(mon, mday) := month_day leap work in
  0 ≤ mon ≤ 11 ∧ 1 ≤ mday ≤ month_days leap mon ∧ day_of_year leap mon mday = work.
Proof.
  intros Hl Hw. destruct (leap_checked leap Hl) as [H _]. apply (forallb_seqZ _ _ _ work) in H; [|lia].
  unfold day_checks in H. destruct (month_day leap work) as [mon mday]. lia.
Qed.

Lemma day_of_year_ok leap mon mday : leap = 0 ∨ leap = 1 → 0 ≤ mon ≤ 11 → 1 ≤ mday ≤ month_days leap mon →
  month_day leap (day_of_year leap mon mday) = (mon, mday) ∧ 0 ≤ day_of_year leap mon mday < 365 + leap.
Proof.
  intros Hl Hm Hd. destruct (leap_checked leap Hl) as [_ H]. apply (forallb_seqZ _ _ _ mon) in H; [|lia].
  apply (forallb_seqZ _ _ _ mday) in H; [|lia]. cbv zeta in H.
  apply andb_prop in H as [H H3]. apply andb_prop in H as [H1 H2].
  split; [by apply bool_decide_eq_true in H1|lia].
Qed.

(** ** Dates *)

(** A date of the Gregorian calendar from 1970 on. *)
Record valid_date (t : tm) : Prop := {
  vd_sec : 0 ≤ tm_sec t < 60;
  vd_min : 0 ≤ tm_min t < 60;
  vd_hour : 0 ≤ tm_hour t < 24;
  vd_mon : 0 ≤ tm_mon t ≤ 11;
  vd_mday : 1 ≤ tm_mday t ≤ nth (Z.to_nat (tm_mon t)) (month_lengths (tm_year t + 1900)) 0;
  vd_year : 70 ≤ tm_year t
}.

Definition date_days (t : tm) : Z :=
  days_before_year (tm_year t + 1900) + days_before_day (tm_year t + 1900) (tm_mon t) (tm_mday t).

Definition date_seconds (t : tm) : Z :=
  ((date_days t * 24 + tm_hour t) * 60 + tm_min t) * 60 + tm_sec t.

(** The fields that follow from the others: the first of January 1970 was a
    Thursday. *)
Definition with_days (t : tm) : tm :=
  Tm (tm_sec t) (tm_min t) (tm_hour t) (tm_mday t) (tm_mon t) (tm_year t)
    ((date_days t + 4) mod 7) (days_before_day (tm_year t + 1900) (tm_mon t) (tm_mday t)).

(** In the terms of the code. *)
Lemma days_before_year_ok t : 70 ≤ tm_year t →
  days_before_year (tm_year t + 1900) = years_days (Z.to_nat (tm_year t - 70)) 1970.
Proof.
  intros Hy. rewrite years_days_spec. unfold days_before_year.
  replace (1970 + Z.of_nat (Z.to_nat (tm_year t - 70))) with (tm_year t + 1900) by lia. lia.
Qed.

Lemma valid_day t : valid_date t →
  let yday := days_before_day (tm_year t + 1900) (tm_mon t) (tm_mday t) in
  day_of_year (isleap (tm_year t + 1900)) (tm_mon t) (tm_mday t) = yday ∧
  month_day (isleap (tm_year t + 1900)) yday = (tm_mon t, tm_mday t) ∧
  0 ≤ yday < year_days (tm_year t + 1900).
Proof.
  intros []. cbv zeta. rewrite <- day_of_year_spec by done. split; [done|].
  apply day_of_year_ok; [apply isleap_cases|done|by rewrite month_days_spec].
Qed.

Lemma spm_at_ok mon : 0 ≤ mon ≤ 11 → spm_at mon = Some (default 0 (spm !! Z.to_nat mon)).
Proof.
  intros Hm. unfold spm_at. destruct (Z.ltb_spec mon 0); [lia|].
  destruct (lookup_lt_is_Some_2 spm (Z.to_nat mon)) as [x ->]; [cbn [spm length]; lia|done].
Qed.

(** The days of a date before 2038 fit. *)
Lemma date_days_range t : valid_date t → date_seconds t < 2 ^ 31 →
  0 ≤ date_days t < 24856 ∧ tm_year t < 170.
Proof.
  intros Hv Hs. destruct (valid_day t Hv) as (_ & _ & Hd). destruct Hv. unfold date_seconds in Hs.
  pose proof (years_days_range (Z.to_nat (tm_year t - 70)) 1970) as Hy.
  unfold year_days, date_days in *. rewrite days_before_year_ok in * by done. split; lia.
Qed.

Lemma mktime_ok t : valid_date t → date_seconds t < 2 ^ 31 →
  mktime t = Some (date_seconds t, with_days t).
Proof.
  intros Hv Hs. destruct (date_days_range t Hv Hs) as (Hdays & Hyear).
  destruct (valid_day t Hv) as (Hday & _ & Hd). destruct Hv.
  pose proof (isleap_cases (tm_year t + 1900)) as Hl.
  assert (year_days (tm_year t + 1900) ≤ 366) by (unfold year_days; lia).
  unfold mktime. destruct (Z.ltb_spec (tm_year t) 70); [lia|]. rewrite spm_at_ok by done. cbn [mbind option_bind].
  change (default 0 (spm !! Z.to_nat (tm_mon t)) + tm_mday t - 1 +
    Z.land (isleap (tm_year t + 1900)) (if 1 <? tm_mon t then 1 else 0))
    with (day_of_year (isleap (tm_year t + 1900)) (tm_mon t) (tm_mday t)).
  rewrite Hday, (i32_small (days_before_day _ _ _)), days_loop_ok by lia.
  assert (days_before_day (tm_year t + 1900) (tm_mon t) (tm_mday t) +
    years_days (Z.to_nat (tm_year t - 70)) (70 + 1900) = date_days t) as ->
    by (unfold date_days; rewrite days_before_year_ok by done; change (70 + 1900) with 1970; lia).
  assert (Z.rem (date_days t + 4) 7 = (date_days t + 4) mod 7) as -> by (apply Z.rem_mod_nonneg; lia).
  unfold date_seconds in *.
  rewrite (i32_small (date_days t * 24)) by lia. rewrite (i32_small (date_days t * 24 + tm_hour t)) by lia.
  rewrite (i32_small ((date_days t * 24 + tm_hour t) * 60 + tm_min t)) by lia.
  rewrite (i32_small (((date_days t * 24 + tm_hour t) * 60 + tm_min t) * 60)) by lia.
  by rewrite i32_small by lia.
Qed.

(** [gmtime_r] inverts the sum. *)
Lemma gmtime_ok t : valid_date t → date_seconds t < 2 ^ 31 → gmtime_r (date_seconds t) = with_days t.
Proof.
  intros Hv Hs. destruct (date_days_range t Hv Hs) as (Hdays & Hyear).
  destruct (valid_day t Hv) as (_ & Hmd & Hd). destruct Hv.
  unfold gmtime_r, SPD. change (24 * 60 * 60) with 86400.
  assert (date_seconds t = date_days t * 86400 + (tm_hour t * 3600 + tm_min t * 60 + tm_sec t)) as Hsum
    by (unfold date_seconds; lia).
  assert (Z.rem (date_seconds t) 86400 = tm_hour t * 3600 + tm_min t * 60 + tm_sec t) as Hrem.
  { rewrite Z.rem_mod_nonneg by lia. rewrite Hsum. Z.div_mod_to_equations. lia. }
  assert (Z.quot (date_seconds t) 86400 = date_days t) as Hquot.
  { rewrite Z.quot_div_nonneg by lia. rewrite Hsum. Z.div_mod_to_equations. lia. }
  rewrite Hrem, Hquot. rewrite !Z.rem_mod_nonneg, !Z.quot_div_nonneg by (try apply Z.quot_pos; lia).
  unfold date_days. rewrite days_before_year_ok by done.
  set (yday := days_before_day _ _ _) in *. set (n := Z.to_nat (tm_year t - 70)) in *.
  pose proof (years_days_range n 1970) as Hy.
  assert (1970 + Z.of_nat n = tm_year t + 1900) as Hyn by lia.
  assert (Z.of_nat n ≤ (years_days n 1970 + yday) / 365) by (apply Z.div_le_lower_bound; lia).
  rewrite year_loop_years; [|lia|by rewrite Hyn].
  rewrite Hyn. unfold month_day in Hmd.
  destruct (if negb (isleap (tm_year t + 1900) =? 0) && (58 <? yday) then _ else _) as [mday work].
  assert (Z.of_nat (month_loop 11 work) = tm_mon t) as Hmon by exact (f_equal fst Hmd).
  assert (mday + (work - default 0 (spm !! month_loop 11 work)) = tm_mday t) as Hmday by exact (f_equal snd Hmd).
  cbv zeta. rewrite Hmon, Hmday. unfold with_days. fold yday.
  f_equal; try lia; try (Z.div_mod_to_equations; lia).
  - rewrite Z.quot_div_nonneg by (try apply Z.div_pos; lia). Z.div_mod_to_equations. lia.
  - unfold date_days. rewrite days_before_year_ok by done. fold n yday. f_equal. lia.
Qed.

(** Every number of seconds is a date. *)
Lemma seconds_are_date s : 0 ≤ s < 2 ^ 31 → ∃ t, valid_date t ∧ date_seconds t = s.
Proof.
  intros Hs. pose proof (Z.div_mod s 86400 ltac:(lia)) as Hdm. pose proof (Z.mod_pos_bound s 86400 ltac:(lia)).
  set (D := s / 86400) in *. set (r := s mod 86400) in *. assert (0 ≤ D) by lia.
  destruct (year_loop_ok (S (Z.to_nat D)) 1970 D) as (n & w & _ & HD & Hw); [lia|].
  pose proof (isleap_cases (1970 + Z.of_nat n)) as Hl.
  pose proof (month_day_ok (isleap (1970 + Z.of_nat n)) w Hl Hw) as Hm.
  destruct (month_day (isleap (1970 + Z.of_nat n)) w) as [mon mday] eqn:Emd. destruct Hm as (Hmon & Hmday & Hyd).
  exists (Tm (r mod 60) (r / 60 mod 60) (r / 3600) mday mon (70 + Z.of_nat n) 0 0).
  assert (70 + Z.of_nat n + 1900 = 1970 + Z.of_nat n) as Hyear by lia.
  split.
  - split; cbn [tm_sec tm_min tm_hour tm_mon tm_mday tm_year]; rewrite ?Hyear, <- ?month_days_spec by done;
      try done; Z.div_mod_to_equations; lia.
  - unfold date_seconds, date_days. rewrite days_before_year_ok by (cbn; lia). cbn [tm_sec tm_min tm_hour tm_mon tm_mday tm_year].
    rewrite Hyear, <- day_of_year_spec, Hyd by done.
    replace (Z.to_nat (70 + Z.of_nat n - 70)) with n by lia. rewrite <- HD. Z.div_mod_to_equations. lia.
Qed.

(** ** Theorems *)

(** C33: [isleap] is the Gregorian rule.  For every [time_t] from 1970 to 2038
    [gmtime_r] gives the date that lies that number of seconds after 1970 by
    the Gregorian calendar, with its weekday and day of the year, and [mktime]
    (and its copy [timegm]) takes that date back to the number, leaving the
    structure as it is.  [mktime] of any valid date before 2038 is the number
    of its seconds and sets its weekday and day of the year, and [gmtime_r]
    takes that number back to the date.  The calendar is a reference of its
    own: the rule of leap years, the lengths of the months, and a closed form
    for the days before a year. *)
Theorem calendar_roundtrip :
  (∀ y, isleap y = if leap_year y then 1 else 0) ∧
  (∀ s, 0 ≤ s < 2 ^ 31 →
    valid_date (gmtime_r s) ∧ date_seconds (gmtime_r s) = s ∧ with_days (gmtime_r s) = gmtime_r s ∧
    mktime (gmtime_r s) = Some (s, gmtime_r s) ∧ timegm (gmtime_r s) = Some (s, gmtime_r s)) ∧
  (∀ t, valid_date t → date_seconds t < 2 ^ 31 →
    mktime t = Some (date_seconds t, with_days t) ∧ timegm t = Some (date_seconds t, with_days t) ∧
    gmtime_r (date_seconds t) = with_days t).
Proof.
  split; [exact isleap_spec|]. split.
  - intros s Hs. destruct (seconds_are_date s Hs) as (t & Hv & <-).
    rewrite (gmtime_ok t Hv) by lia.
    assert (valid_date (with_days t)) as Hv' by (destruct Hv; by split).
    split; [done|]. split; [done|]. split; [done|].
    unfold timegm. rewrite (mktime_ok (with_days t) Hv') by (by destruct Hs). by split.
  - intros t Hv Hs. unfold timegm. rewrite mktime_ok by done. by rewrite gmtime_ok.
Qed.

(** The last second of a leap day. *)
Lemma calendar_roundtrip_witness :
  gmtime_r 951868799 = Tm 59 59 23 29 1 100 2 59 ∧
  mktime (Tm 59 59 23 29 1 100 2 59) = Some (951868799, Tm 59 59 23 29 1 100 2 59).
Proof.
  destruct calendar_roundtrip as (_ & H & _). destruct (H 951868799) as (_ & _ & _ & E & _); [lia|].
  assert (gmtime_r 951868799 = Tm 59 59 23 29 1 100 2 59) as Hg by by vm_compute.
  rewrite Hg in E. by split.
Defined.
