(* ===== verification/CString.v ===== *)
(** * Strings of the C library

    [uuu/lib/c/libshell/fnmatch.c], [uuu/lib/c/lib/strlcpy.c], [strlcat.c]
    and [tolower.c].  A [char] of i386 is signed: a number from -128 to 127.
    A string is the list of its characters without the final zero, a buffer
    the list of all its bytes.  [None] is an access outside of them. *)
From S2P Require Import Prelude.
Local Open Scope Z_scope.

(** ** fnmatch *)

Definition FNM_NOESCAPE : Z := 1.
Definition FNM_PATHNAME : Z := 2.
Definition FNM_FILE_NAME : Z := 2.
Definition FNM_PERIOD : Z := 4.
Definition FNM_LEADING_DIR : Z := 8.
Definition FNM_CASEFOLD : Z := 16.
Definition FNM_NOMATCH : Z := 1.
Definition NOTFIRST : Z := 128.

Definition has_flag (flags f : Z) : bool := negb (Z.land flags f =? 0).

Definition tolower (ch : Z) : Z := if u32 (ch - 65) <? 26 then ch + (97 - 65) else ch.

Definition match_char (c d flags : Z) : bool :=
  if has_flag flags FNM_CASEFOLD then tolower c =? tolower d else c =? d.

(** [while ( *pattern=='*' ) ++pattern; return (!!*pattern);] *)
Fixpoint at_end_of_string (pattern : list Z) : Z :=
  match pattern with
  | [] => 0
  | p :: pattern => if p =? 42 then at_end_of_string pattern else 1
  end.

(** [while ( *pattern && *pattern!=']' ) ++pattern;] and the position behind
    it; there is none when the bracket is not closed. *)
Fixpoint close_bracket (pattern : list Z) : option (list Z) :=
  match pattern with
  | [] => None
  | p :: pattern => if p =? 93 then Some pattern else close_bracket pattern
  end.

(** The loop over the elements of a bracket: [Some None] when none was taken,
    else the pattern to go on with. *)
Fixpoint class_loop (neg : bool) (c flags : Z) (pattern : list Z) : option (option (list Z)) :=
  match pattern with
  | [] => Some None
  | p :: rest =>
      if p =? 93 then Some None else
      match rest with
      | d :: rest2 =>
          if d =? 45 then
            match rest2 with
            | [] => None
            | hi :: rest3 =>
                let res := ((p <=? c) && (c <=? hi)) ||
                  (has_flag flags FNM_CASEFOLD && (tolower p <=? tolower c) && (tolower c <=? tolower hi)) in
                if xorb res neg then Some <$> close_bracket rest3 else class_loop neg c flags rest3
            end
          else
            if xorb (match_char p c flags) neg then Some <$> close_bracket rest
            else class_loop neg c flags rest
      | [] =>
          if xorb (match_char p c flags) neg then Some <$> close_bracket rest
          else class_loop neg c flags rest
      end
  end.

(** [string[-1]] is [prev]; every call shortens the pattern or the string. *)
Fixpoint fnmatch_loop (fuel : nat) (prev : option Z) (pattern string : list Z) (flags : Z) : option Z :=
  match fuel, string with
  | O, _ => None
  | S _, [] => Some (at_end_of_string pattern)
  | S fuel, c :: string' =>
      let pc := default 0 (head pattern) in
      let hidden := (c =? 46) && negb (pc =? 46) && has_flag flags FNM_PERIOD in
      if hidden && negb (has_flag flags NOTFIRST) then Some FNM_NOMATCH else
      before ← (if hidden && has_flag flags (Z.lor FNM_FILE_NAME FNM_PERIOD) then prev else Some 0);
      if hidden && (before =? 47) then Some FNM_NOMATCH else
      let flags := Z.lor flags NOTFIRST in
      match pattern with
      | [] => Some (if (c =? 47) && has_flag flags FNM_LEADING_DIR then 0 else FNM_NOMATCH)
      | p :: rest =>
          if p =? 91 then
            if (c =? 47) && has_flag flags FNM_PATHNAME then Some FNM_NOMATCH else
            let neg := bool_decide (head rest = Some 33) in
            chosen ← class_loop neg c flags (if neg then tail rest else rest);
            match chosen with
            | Some next => fnmatch_loop fuel (Some c) next string' flags
            | None => Some FNM_NOMATCH
            end
          else if p =? 92 then
            if has_flag flags FNM_NOESCAPE then
              if c =? 92 then fnmatch_loop fuel (Some c) rest string' flags else Some FNM_NOMATCH
            else
              match rest with
              | q :: rest2 =>
                  if c =? q then fnmatch_loop fuel (Some c) rest2 string' flags else Some FNM_NOMATCH
              | [] => Some FNM_NOMATCH
              end
          else if p =? 42 then
            if (c =? 47) && has_flag flags FNM_PATHNAME then fnmatch_loop fuel prev rest string flags else
            r ← fnmatch_loop fuel (Some c) pattern string' flags;
            if negb (r =? 0) then fnmatch_loop fuel prev rest string flags else Some 0
          else if match_char p c flags then fnmatch_loop fuel (Some c) rest string' flags
          else Some FNM_NOMATCH
      end
  end.

Definition fnmatch (pattern string : list Z) (flags : Z) : option Z :=
  fnmatch_loop (S (length pattern + length string)) None pattern string flags.

(** ** strlcpy and strlcat *)

Definition store_char (dst : list Z) (d : nat) (c : Z) : option (list Z) :=
  if (d <? length dst)%nat then Some (<[d := c]> dst) else None.

(** [do { if (( *d++ = *s++ ) == 0) break; } while (--n != 0);]: what is left
    of [n] and of the source, the position in the destination. *)
Fixpoint strlcpy_loop (n : nat) (dst src : list Z) (d : nat) : option (nat * nat * list Z) :=
  match n with
  | O => Some (O, d, dst)
  | S n' =>
      let c := default 0 (head src) in
      dst ← store_char dst d c;
      if c =? 0 then Some (n, S d, dst) else strlcpy_loop n' dst (tail src) (S d)
  end.

Definition strlcpy (dst src : list Z) (siz : Z) : option (Z * list Z) :=
  r ← (if negb (siz =? 0) && negb (siz - 1 =? 0) then strlcpy_loop (Z.to_nat (siz - 1)) dst src 0
       else Some (O, O, dst));
  let '(n, d, dst) := r in
  dst ← (if (n =? 0)%nat && negb (siz =? 0) then store_char dst d 0 else Some dst);
  Some (Z.of_nat (length src), dst).

(** [while ( *d != '\0' && n-- != 0) d++;] *)
Fixpoint strlcat_end (n : nat) (dst : list Z) (d : nat) : option nat :=
  c ← dst !! d;
  if (c : Z) =? 0 then Some d else
  match n with
  | O => Some d
  | S n => strlcat_end n dst (S d)
  end.

(** [while ( *s != '\0' )] *)
Fixpoint strlcat_loop (src : list Z) (n : Z) (dst : list Z) (d : nat) : option (nat * list Z) :=
  match src with
  | [] => Some (d, dst)
  | c :: src =>
      if negb (n =? 1) then
        dst ← store_char dst d c;
        strlcat_loop src (n - 1) dst (S d)
      else strlcat_loop src n dst d
  end.

Definition strlcat (dst src : list Z) (siz : Z) : option (Z * list Z) :=
  dlen ← strlcat_end (Z.to_nat siz) dst 0;
  let n := siz - Z.of_nat dlen in
  if n =? 0 then Some (Z.of_nat dlen + Z.of_nat (length src), dst) else
  r ← strlcat_loop src n dst dlen;
  let '(d, dst) := r in
  dst ← store_char dst d 0;
  Some (Z.of_nat dlen + Z.of_nat (length src), dst).
