(* ===== verification/CStringSpec.v ===== *)
(** * What the string functions guarantee

    [fnmatch] against a reference meaning of patterns, and the bounds of
    [strlcpy] and [strlcat]. *)
From S2P Require Import Prelude CString.
Local Open Scope Z_scope.

Implicit Types p s dst src : list Z.

(** ** Patterns *)

(** A star is any string, every other character itself. *)
Inductive glob : list Z → list Z → Prop :=
  | glob_nil : glob [] []
  | glob_char c p s : c ≠ 42 → glob p s → glob (c :: p) (c :: s)
  | glob_star p s : glob p s → glob (42 :: p) s
  | glob_more c p s : glob (42 :: p) s → glob (42 :: p) (c :: s).

(** Neither a bracket nor a backslash. *)
Definition plain (c : Z) : Prop := c ≠ 91 ∧ c ≠ 92.

Lemma glob_end p : glob p [] ↔ at_end_of_string p = 0.
Proof.
  induction p as [|c p IH]; cbn [at_end_of_string]; [split; [done|constructor]|].
  destruct (Z.eqb_spec c 42) as [->|Hne].
  - rewrite <- IH. split; [by inversion 1|by constructor].
  - split; [by inversion 1|done].
Qed.

Lemma glob_star_cons p c s : glob (42 :: p) (c :: s) ↔ glob p (c :: s) ∨ glob (42 :: p) s.
Proof. split; [inversion 1; subst; [done|by left|by right]|intros [?|?]; by constructor]. Qed.

Lemma glob_char_cons d p c s : d ≠ 42 → glob (d :: p) (c :: s) ↔ d = c ∧ glob p s.
Proof. intros Hd. split; [inversion 1; subst; done|intros [-> ?]; by constructor]. Qed.

Lemma fnmatch_loop_plain fuel : ∀ prev p s flags,
  flags = 0 ∨ flags = NOTFIRST → Forall plain p → (length p + length s < fuel)%nat →
  ∃ r, fnmatch_loop fuel prev p s flags = Some r ∧ (r = 0 ↔ glob p s).
Proof.
  induction fuel as [|fuel IH]; intros prev p s flags Hfl Hp Hlen; [lia|].
  destruct s as [|c s]; cbn [fnmatch_loop]; [exists (at_end_of_string p); by rewrite glob_end|].
  assert (has_flag flags FNM_PERIOD = false ∧ Z.lor flags NOTFIRST = NOTFIRST) as [Hper Hor]
    by (by destruct Hfl as [-> | ->]).
  rewrite Hper, !andb_false_r. cbn [andb mbind option_bind]. rewrite Hor.
  destruct p as [|d p].
  { change (has_flag NOTFIRST FNM_LEADING_DIR) with false. rewrite andb_false_r.
    exists FNM_NOMATCH. split; [done|]. split; [done|by inversion 1]. }
  apply Forall_cons in Hp as Hp'. destruct Hp' as [[Hb Hs] Hp'].
  destruct (Z.eqb_spec d 91); [done|]. destruct (Z.eqb_spec d 92); [done|]. cbn [length] in Hlen.
  destruct (Z.eqb_spec d 42) as [->|Hne].
  - change (has_flag NOTFIRST FNM_PATHNAME) with false. rewrite andb_false_r. setoid_rewrite glob_star_cons.
    destruct (IH (Some c) (42 :: p) s NOTFIRST) as (r1 & -> & Hr1); [by right|done|cbn [length]; lia|].
    cbn [mbind option_bind]. destruct (Z.eqb_spec r1 0) as [->|Hr0]; cbn [negb].
    + exists 0. split; [done|]. tauto.
    + destruct (IH prev p (c :: s) NOTFIRST) as (r2 & -> & Hr2); [by right|done|cbn [length]; lia|].
      exists r2. split; [done|]. tauto.
  - unfold match_char. change (has_flag NOTFIRST FNM_CASEFOLD) with false. setoid_rewrite (glob_char_cons _ _ _ _ Hne).
    destruct (Z.eqb_spec d c) as [->|Hdc].
    + destruct (IH (Some c) p s NOTFIRST) as (r & -> & Hr); [by right|done|lia|]. exists r. split; [done|]. tauto.
    + exists FNM_NOMATCH. split; [done|]. split; [done|tauto].
Qed.

(** ** Brackets *)

(** Each element of a negated bracket is tested by itself: with two of them
    every character is matched. *)
Lemma negated_class_matches_all a b c :
  a ≠ 33 → a ≠ 93 → b ≠ 93 → b ≠ 45 → a ≠ b → c ≠ 46 → fnmatch [91; 33; a; b; 93] [c] 0 = Some 0.
Proof.
  intros Ha1 Ha Hb Hb' Hab Hc. unfold fnmatch. cbn [length Nat.add fnmatch_loop head default].
  destruct (Z.eqb_spec c 46); [done|]. cbn [andb mbind option_bind]. change (Z.lor 0 NOTFIRST) with NOTFIRST.
  change (91 =? 91) with true. change (has_flag NOTFIRST FNM_PATHNAME) with false. rewrite andb_false_r.
  rewrite bool_decide_true by done. cbn [tail class_loop]. unfold match_char.
  change (has_flag NOTFIRST FNM_CASEFOLD) with false.
  destruct (Z.eqb_spec a 93); [done|]. destruct (Z.eqb_spec b 45); [done|].
  destruct (Z.eqb_spec a c) as [->|Hac]; cbn [xorb].
  - destruct (Z.eqb_spec b 93); [done|]. change (93 =? 45) with false. cbv iota.
    destruct (Z.eqb_spec b c); [congruence|]. cbn [xorb close_bracket].
    change (93 =? 93) with true. done.
  - cbn [close_bracket]. destruct (Z.eqb_spec b 93); [done|]. done.
Qed.

(** A bracket that is not closed takes the pattern behind its end. *)
Lemma open_class_reads_on c : c ≠ 46 → c ≠ 93 → c ≠ 33 → fnmatch [91; c] [c] 0 = None.
Proof.
  intros H1 H2 H3. unfold fnmatch. cbn [length Nat.add fnmatch_loop head default].
  destruct (Z.eqb_spec c 46); [done|]. cbn [andb mbind option_bind]. change (Z.lor 0 NOTFIRST) with NOTFIRST.
  change (91 =? 91) with true. change (has_flag NOTFIRST FNM_PATHNAME) with false. rewrite andb_false_r.
  rewrite bool_decide_false by congruence. cbn [class_loop]. unfold match_char.
  change (has_flag NOTFIRST FNM_CASEFOLD) with false. destruct (Z.eqb_spec c 93); [done|].
  by rewrite Z.eqb_refl.
Qed.

(** ** Copying with a bound *)

(** [dst] with [xs] written at position [d]. *)
Definition splice (d : nat) (xs dst : list Z) : list Z :=
  take d dst ++ xs ++ drop (d + length xs) dst.

Lemma splice_nil d dst : splice d [] dst = dst.
Proof. unfold splice. cbn. rewrite Nat.add_0_r. apply take_drop. Qed.

Lemma splice_insert d c xs dst : (d < length dst)%nat → splice (S d) xs (<[d := c]> dst) = splice d (c :: xs) dst.
Proof.
  intros Hd. unfold splice. cbn [length]. rewrite (take_S_r _ _ c) by (by apply list_lookup_insert_eq).
  rewrite take_insert_ge, drop_insert_lt by lia. rewrite <- app_assoc. cbn [app].
  by replace (d + S (length xs))%nat with (S d + length xs)%nat by lia.
Qed.

Lemma store_char_ok dst d c : (d < length dst)%nat → store_char dst d c = Some (<[d := c]> dst).
Proof. intros Hd. unfold store_char. by destruct (Nat.ltb_spec d (length dst)); [|lia]. Qed.

Lemma strlcpy_loop_ok n : ∀ dst src d, Forall (λ c, c ≠ 0) src → (d + n ≤ length dst)%nat →
  strlcpy_loop n dst src d = Some
    (if decide (length src < n)%nat
     then ((n - length src)%nat, (d + length src + 1)%nat, splice d (src ++ [0]) dst)
     else (O, (d + n)%nat, splice d (take n src) dst)).
Proof.
  induction n as [|n IH]; intros dst src d Hs Hd; cbn [strlcpy_loop].
  { rewrite decide_False by lia. cbn [take]. by rewrite splice_nil, Nat.add_0_r. }
  rewrite store_char_ok by lia. cbn [mbind option_bind]. destruct src as [|c src]; cbn [head default tail length].
  - change (0 =? 0) with true. cbv iota. rewrite decide_True by lia. cbn [app]. rewrite <- splice_insert by lia.
    rewrite splice_nil, Nat.sub_0_r. do 2 f_equal. f_equal. lia.
  - apply Forall_cons in Hs as [Hc Hs]. unfold id. destruct (Z.eqb_spec c 0); [done|].
    rewrite IH by (done || (rewrite length_insert; lia)).
    destruct (decide (length src < n)%nat); [rewrite decide_True by lia|rewrite decide_False by lia];
      cbn [take app]; rewrite splice_insert by lia.
    + by replace (d + S (length src) + 1)%nat with (S d + length src + 1)%nat by lia.
    + by replace (d + S n)%nat with (S d + n)%nat by lia.
Qed.

Lemma splice_app d xs ys dst : (d + length xs ≤ length dst)%nat →
  splice (d + length xs) ys (splice d xs dst) = splice d (xs ++ ys) dst.
Proof.
  intros Hd. unfold splice. rewrite length_app.
  assert (length (take d dst) = d) as Ht by (rewrite length_take; lia).
  rewrite (app_assoc (take d dst)). assert (length (take d dst ++ xs) = (d + length xs)%nat) as Htx by (rewrite length_app; lia).
  rewrite take_app_le by lia. rewrite (take_ge (take d dst ++ xs)) by lia.
  rewrite drop_app_ge by lia. rewrite Htx, drop_drop, <- !app_assoc. do 4 f_equal. lia.
Qed.

Lemma length_splice d xs dst : (d + length xs ≤ length dst)%nat → length (splice d xs dst) = length dst.
Proof. intros Hd. unfold splice. rewrite !length_app, length_take, length_drop. lia. Qed.

(** [strlcpy] into a buffer of at least [siz] bytes writes inside the first
    [siz], always ends the copy with a zero, and returns the length of the
    source. *)
Lemma strlcpy_ok dst src siz :
  0 ≤ siz ≤ Z.of_nat (length dst) → Forall (λ c, c ≠ 0) src →
  strlcpy dst src siz = Some (Z.of_nat (length src),
    if siz =? 0 then dst else splice 0 (take (Z.to_nat (siz - 1)) src ++ [0]) dst).
Proof.
  intros Hs Hsrc. unfold strlcpy. destruct (Z.eqb_spec siz 0) as [->|H0]; [done|]. cbn [negb andb].
  assert ((if negb (siz - 1 =? 0) then strlcpy_loop (Z.to_nat (siz - 1)) dst src 0 else Some (O, O, dst)) =
    strlcpy_loop (Z.to_nat (siz - 1)) dst src 0) as ->.
  { by destruct (Z.eqb_spec (siz - 1) 0) as [->|]. }
  rewrite strlcpy_loop_ok by (done || lia). cbn [mbind option_bind].
  destruct (decide (length src < Z.to_nat (siz - 1))%nat) as [Hfit|Hcut].
  - destruct (Nat.eqb_spec (Z.to_nat (siz - 1) - length src) 0); [lia|]. cbn [andb]. by rewrite take_ge by lia.
  - cbn [Nat.eqb andb]. set (k := Z.to_nat (siz - 1)) in *.
    assert (length (take k src) = k) as Hk by (rewrite length_take; lia).
    rewrite store_char_ok by (rewrite length_splice; lia). cbn [mbind option_bind].
    rewrite <- (splice_app 0 (take k src) [0]) by lia. rewrite Hk.
    rewrite <- (splice_insert (0 + k) 0 []) by (rewrite length_splice; lia). by rewrite splice_nil.
Qed.

Lemma strlcat_end_ok n : ∀ dst d k, (k ≤ n)%nat → (∀ i, (i < k)%nat → ∃ c, dst !! (d + i)%nat = Some c ∧ c ≠ 0) →
  (k = n ∧ is_Some (dst !! (d + k)%nat)) ∨ dst !! (d + k)%nat = Some 0 →
  strlcat_end n dst d = Some (d + k)%nat.
Proof.
  induction n as [|n IH]; intros dst d k Hk Hpre Hend; cbn [strlcat_end].
  - assert (k = O) as -> by lia. rewrite Nat.add_0_r in *. destruct Hend as [[_ [c ->]]| ->]; cbn [mbind option_bind]; [|done].
    by destruct (c =? 0).
  - destruct k as [|k].
    + rewrite Nat.add_0_r in *. destruct Hend as [[? _]| ->]; [done|]. done.
    + destruct (Hpre O) as (c & E & Hc); [lia|]. rewrite Nat.add_0_r in E. rewrite E. cbn [mbind option_bind].
      destruct (Z.eqb_spec c 0); [done|]. rewrite (IH dst (S d) k); [f_equal; lia|lia| |].
      * intros i Hi. destruct (Hpre (S i)) as (c' & E' & ?); [lia|]. exists c'. by rewrite <- E', Nat.add_succ_r.
      * rewrite Nat.add_succ_r in Hend. destruct Hend as [[? ?]|?]; [left; split; [lia|done]|by right].
Qed.

Lemma strlcat_loop_ok src : ∀ n dst d, 1 ≤ n → (d + Z.to_nat n ≤ length dst)%nat →
  strlcat_loop src n dst d = Some
    ((d + length (take (Z.to_nat (n - 1)) src))%nat, splice d (take (Z.to_nat (n - 1)) src) dst).
Proof.
  induction src as [|c src IH]; intros n dst d Hn Hd; cbn [strlcat_loop].
  { rewrite take_nil, splice_nil. by rewrite Nat.add_0_r. }
  destruct (Z.eqb_spec n 1) as [->|Hne]; cbn [negb].
  - rewrite IH by (done || lia). done.
  - rewrite store_char_ok by lia. cbn [mbind option_bind]. rewrite IH by (rewrite ?length_insert; lia).
    replace (Z.to_nat (n - 1)) with (S (Z.to_nat (n - 1 - 1))) by lia. cbn [take length].
    rewrite splice_insert by lia. do 2 f_equal. lia.
Qed.

(** [strlcat] to a string that ends inside the first [siz] bytes of its buffer
    appends what fits and a zero; a string that does not is left alone. *)
Lemma strlcat_ok dst src siz dlen :
  0 ≤ siz ≤ Z.of_nat (length dst) → (dlen ≤ Z.to_nat siz)%nat →
  (∀ i, (i < dlen)%nat → ∃ c, dst !! i = Some c ∧ c ≠ 0) →
  dst !! dlen = Some 0 ∨ (dlen = Z.to_nat siz ∧ is_Some (dst !! dlen)) →
  strlcat dst src siz = Some (Z.of_nat dlen + Z.of_nat (length src),
    if siz =? Z.of_nat dlen then dst
    else splice dlen (take (Z.to_nat (siz - Z.of_nat dlen - 1)) src ++ [0]) dst).
Proof.
  intros Hs Hle Hpre Hend. unfold strlcat. rewrite (strlcat_end_ok _ dst 0 dlen) by (done || cbn; tauto).
  cbn [mbind option_bind Nat.add]. destruct (Z.eqb_spec (siz - Z.of_nat dlen) 0) as [E|E].
  { destruct (Z.eqb_spec siz (Z.of_nat dlen)); [done|lia]. }
  destruct (Z.eqb_spec siz (Z.of_nat dlen)); [lia|].
  rewrite strlcat_loop_ok by lia. cbn [mbind option_bind]. set (xs := take _ src).
  assert (length xs ≤ Z.to_nat (siz - Z.of_nat dlen - 1))%nat as Hx by (unfold xs; rewrite length_take; lia).
  rewrite store_char_ok by (rewrite length_splice; lia). cbn [mbind option_bind].
  rewrite <- (splice_app dlen xs [0]) by lia.
  rewrite <- (splice_insert (dlen + length xs) 0 []) by (rewrite length_splice; lia). by rewrite splice_nil.
Qed.

(** ** Theorems *)

(** C34: without flags, on patterns without brackets and backslashes,
    [fnmatch] ends inside its arguments and returns 0 exactly when the
    string is one the pattern stands for: a star stands for any string, every
    other character, the question mark among them, for itself. *)
Theorem fnmatch_decides_glob p s :
  Forall plain p → ∃ r, fnmatch p s 0 = Some r ∧ (r = 0 ↔ glob p s).
Proof. intros Hp. apply fnmatch_loop_plain; [by left|done|lia]. Qed.

(** The patterns a*b and a?b against axb. *)
Lemma fnmatch_decides_glob_witness :
  glob [97; 42; 98] [97; 120; 98] ∧ ¬ glob [97; 63; 98] [97; 120; 98].
Proof.
  split.
  - destruct (fnmatch_decides_glob [97; 42; 98] [97; 120; 98]) as (r & E & Hr); [by repeat constructor|].
    vm_compute in E. injection E as <-. by apply Hr.
  - destruct (fnmatch_decides_glob [97; 63; 98] [97; 120; 98]) as (r & E & Hr); [by repeat constructor|].
    vm_compute in E. injection E as <-. intros Hg. by apply Hr in Hg.
Defined.
