(* ===== verification/Md5.v ===== *)
(** * The MD5 digest of the C library

    [uuu/lib/c/libcrypt/md5.c], the C version that targets without an
    assembler one use, and [md5crypt.c] on top of it.  A digest context is a
    record; [w] is the width of [size_t], 32 or 64 bits, where it shows. *)
From S2P Require Import Prelude Posix.
Local Open Scope Z_scope.

(** [uint32_t state[4]]: the four chaining words. *)
Record md5_state : Type := Words { st_a : Z; st_b : Z; st_c : Z; st_d : Z }.

Record MD5_CTX : Type := Md5Ctx {
  state : md5_state;
  count0 : Z;
  count1 : Z;
  buffer : list Z
}.

(** The state of the context only is set: [buffer] keeps what it held. *)
Definition MD5Init (context : MD5_CTX) : MD5_CTX :=
  Md5Ctx (Words 0x67452301 0xefcdab89 0x98badcfe 0x10325476) 0 0 (buffer context).

Definition ROTATE_LEFT (x n : Z) : Z :=
  Z.lor (u32 (Z.shiftl x n)) (Z.shiftr x (32 - n)).

(** [~z] of a [uint32_t]. *)
Definition not32 (z : Z) : Z := u32 (Z.lnot z).

Definition F (x y z : Z) : Z := Z.lxor z (Z.land x (Z.lxor y z)).
Definition G (x y z : Z) : Z := Z.lxor y (Z.land z (Z.lxor x y)).
Definition H (x y z : Z) : Z := Z.lxor (Z.lxor x y) z.
Definition I (x y z : Z) : Z := Z.lxor y (Z.lor x (not32 z)).

(** The macros assign to their first argument; here they give its new value. *)
Definition FF (a b c d x s ac : Z) : Z :=
  let a := u32 (a + u32 (u32 (F b c d + x) + ac)) in
  let a := ROTATE_LEFT a s in
  u32 (a + b).
Definition GG (a b c d x s ac : Z) : Z :=
  let a := u32 (a + u32 (u32 (G b c d + x) + ac)) in
  let a := ROTATE_LEFT a s in
  u32 (a + b).
Definition HH (a b c d x s ac : Z) : Z :=
  let a := u32 (a + u32 (u32 (H b c d + x) + ac)) in
  let a := ROTATE_LEFT a s in
  u32 (a + b).
Definition II (a b c d x s ac : Z) : Z :=
  let a := u32 (a + u32 (u32 (I b c d + x) + ac)) in
  let a := ROTATE_LEFT a s in
  u32 (a + b).

(** [x[i]], [x] the block as little-endian words on either byte order. *)
Definition block_word (block : list Z) (i : nat) : Z :=
  le_value (take 4 (drop (4 * i) block)).

(** An assignment whose value the rest shares. *)
Definition assign {A B : Type} (v : A) (rest : A → B) : B := rest v.
Local Notation "x <~ v ; rest" := (assign v (λ x, rest))
  (at level 100, v at level 99, rest at level 200, right associativity).

Definition round1 (x : nat → Z) (st : md5_state) : md5_state :=
  let '(Words a b c d) := st in
  a <~ FF a b c d (x 0%nat) 7 0xd76aa478;
  d <~ FF d a b c (x 1%nat) 12 0xe8c7b756;
  c <~ FF c d a b (x 2%nat) 17 0x242070db;
  b <~ FF b c d a (x 3%nat) 22 0xc1bdceee;
  a <~ FF a b c d (x 4%nat) 7 0xf57c0faf;
  d <~ FF d a b c (x 5%nat) 12 0x4787c62a;
  c <~ FF c d a b (x 6%nat) 17 0xa8304613;
  b <~ FF b c d a (x 7%nat) 22 0xfd469501;
  a <~ FF a b c d (x 8%nat) 7 0x698098d8;
  d <~ FF d a b c (x 9%nat) 12 0x8b44f7af;
  c <~ FF c d a b (x 10%nat) 17 0xffff5bb1;
  b <~ FF b c d a (x 11%nat) 22 0x895cd7be;
  a <~ FF a b c d (x 12%nat) 7 0x6b901122;
  d <~ FF d a b c (x 13%nat) 12 0xfd987193;
  c <~ FF c d a b (x 14%nat) 17 0xa679438e;
  b <~ FF b c d a (x 15%nat) 22 0x49b40821;
  Words a b c d.

Definition round2 (x : nat → Z) (st : md5_state) : md5_state :=
  let '(Words a b c d) := st in
  a <~ GG a b c d (x 1%nat) 5 0xf61e2562;
  d <~ GG d a b c (x 6%nat) 9 0xc040b340;
  c <~ GG c d a b (x 11%nat) 14 0x265e5a51;
  b <~ GG b c d a (x 0%nat) 20 0xe9b6c7aa;
  a <~ GG a b c d (x 5%nat) 5 0xd62f105d;
  d <~ GG d a b c (x 10%nat) 9 0x02441453;
  c <~ GG c d a b (x 15%nat) 14 0xd8a1e681;
  b <~ GG b c d a (x 4%nat) 20 0xe7d3fbc8;
  a <~ GG a b c d (x 9%nat) 5 0x21e1cde6;
  d <~ GG d a b c (x 14%nat) 9 0xc33707d6;
  c <~ GG c d a b (x 3%nat) 14 0xf4d50d87;
  b <~ GG b c d a (x 8%nat) 20 0x455a14ed;
  a <~ GG a b c d (x 13%nat) 5 0xa9e3e905;
  d <~ GG d a b c (x 2%nat) 9 0xfcefa3f8;
  c <~ GG c d a b (x 7%nat) 14 0x676f02d9;
  b <~ GG b c d a (x 12%nat) 20 0x8d2a4c8a;
  Words a b c d.

Definition round3 (x : nat → Z) (st : md5_state) : md5_state :=
  let '(Words a b c d) := st in
  a <~ HH a b c d (x 5%nat) 4 0xfffa3942;
  d <~ HH d a b c (x 8%nat) 11 0x8771f681;
  c <~ HH c d a b (x 11%nat) 16 0x6d9d6122;
  b <~ HH b c d a (x 14%nat) 23 0xfde5380c;
  a <~ HH a b c d (x 1%nat) 4 0xa4beea44;
  d <~ HH d a b c (x 4%nat) 11 0x4bdecfa9;
  c <~ HH c d a b (x 7%nat) 16 0xf6bb4b60;
  b <~ HH b c d a (x 10%nat) 23 0xbebfbc70;
  a <~ HH a b c d (x 13%nat) 4 0x289b7ec6;
  d <~ HH d a b c (x 0%nat) 11 0xeaa127fa;
  c <~ HH c d a b (x 3%nat) 16 0xd4ef3085;
  b <~ HH b c d a (x 6%nat) 23 0x04881d05;
  a <~ HH a b c d (x 9%nat) 4 0xd9d4d039;
  d <~ HH d a b c (x 12%nat) 11 0xe6db99e5;
  c <~ HH c d a b (x 15%nat) 16 0x1fa27cf8;
  b <~ HH b c d a (x 2%nat) 23 0xc4ac5665;
  Words a b c d.

Definition round4 (x : nat → Z) (st : md5_state) : md5_state :=
  let '(Words a b c d) := st in
  a <~ II a b c d (x 0%nat) 6 0xf4292244;
  d <~ II d a b c (x 7%nat) 10 0x432aff97;
  c <~ II c d a b (x 14%nat) 15 0xab9423a7;
  b <~ II b c d a (x 5%nat) 21 0xfc93a039;
  a <~ II a b c d (x 12%nat) 6 0x655b59c3;
  d <~ II d a b c (x 3%nat) 10 0x8f0ccc92;
  c <~ II c d a b (x 10%nat) 15 0xffeff47d;
  b <~ II b c d a (x 1%nat) 21 0x85845dd1;
  a <~ II a b c d (x 8%nat) 6 0x6fa87e4f;
  d <~ II d a b c (x 15%nat) 10 0xfe2ce6e0;
  c <~ II c d a b (x 6%nat) 15 0xa3014314;
  b <~ II b c d a (x 13%nat) 21 0x4e0811a1;
  a <~ II a b c d (x 4%nat) 6 0xf7537e82;
  d <~ II d a b c (x 11%nat) 10 0xbd3af235;
  c <~ II c d a b (x 2%nat) 15 0x2ad7d2bb;
  b <~ II b c d a (x 9%nat) 21 0xeb86d391;
  Words a b c d.

(** [state[0] = a = a + state[0];] and so on, for one block. *)
Definition transform_block (state : md5_state) (block : list Z) : md5_state :=
  let x := block_word block in
  let '(Words a b c d) := round4 x (round3 x (round2 x (round1 x state))) in
  Words (u32 (a + st_a state)) (u32 (b + st_b state))
        (u32 (c + st_c state)) (u32 (d + st_d state)).

(** [__MD5Transform]: [in] moves on by 64 bytes a round. *)
Fixpoint MD5Transform (state : md5_state) (input : list Z) (repeat : nat) : md5_state :=
  match repeat with
  | O => state
  | S repeat => MD5Transform (transform_block state (take 64 input)) (drop 64 input) repeat
  end.

(** [memcpy(dst + off, src, n)], both inside their arrays. *)
Definition memcpy_at (dst : list Z) (off : Z) (src : list Z) (n : Z) : list Z :=
  dsplice off (take (Z.to_nat n) src) dst.

(** A [size_t] of [w] bits. *)
Definition size_t (w z : Z) : Z := z mod 2 ^ w.

(** The bit count: the comparison is between a [uint32_t] and a [size_t]. *)
Definition add_count (w : Z) (context : MD5_CTX) (inputBytes : Z) : MD5_CTX :=
  let bits := size_t w (Z.shiftl inputBytes 3) in
  let c0 := u32 (count0 context + bits) in
  let c1 := if c0 <? bits then u32 (count1 context + 1) else count1 context in
  let c1 := u32 (c1 + Z.shiftr inputBytes (32 - 3)) in
  Md5Ctx (state context) c0 c1 (buffer context).

Definition MD5Update (w : Z) (context : MD5_CTX) (input : list Z) (inputBytes : Z) : MD5_CTX :=
  let byteIndex := Z.land (Z.shiftr (count0 context) 3) 0x3F in
  let context := add_count w context inputBytes in
  let partLen := 64 - byteIndex in
  if partLen <=? inputBytes then
    let buf := memcpy_at (buffer context) byteIndex input partLen in
    let st := MD5Transform (state context) buf 1 in
    let len := i32 ((inputBytes - partLen) / 64) in
    let st := MD5Transform st (drop (Z.to_nat partLen) input) (Z.to_nat len) in
    let i := i32 (u32 (partLen + i32 (64 * len))) in
    Md5Ctx st (count0 context) (count1 context)
      (memcpy_at buf 0 (drop (Z.to_nat i) input) (inputBytes - i))
  else
    Md5Ctx (state context) (count0 context) (count1 context)
      (memcpy_at (buffer context) byteIndex input inputBytes).

(** [memset(context, 0, sizeof *context)] *)
Definition cleared_context : MD5_CTX := Md5Ctx (Words 0 0 0 0) 0 0 (replicate 64 0).

Definition state_bytes (st : md5_state) : list Z :=
  le_bytes 4 (st_a st) ++ le_bytes 4 (st_b st) ++ le_bytes 4 (st_c st) ++ le_bytes 4 (st_d st).

(** [static uint8_t finalBlock[64]], after [finalBlock[0] = 0x80]. *)
Definition finalBlock : list Z := 0x80 :: replicate 63 0.

(** The digest and the context it leaves. *)
Definition MD5Final (w : Z) (context : MD5_CTX) : list Z * MD5_CTX :=
  let byteIndex := Z.land (Z.shiftr (count0 context) 3) 0x3F in
  let finalBlockLength := (if byteIndex <? 56 then 56 else 120) - byteIndex in
  let bits := le_bytes 4 (count0 context) ++ le_bytes 4 (count1 context) in
  let context := MD5Update w context finalBlock finalBlockLength in
  let context := MD5Update w context bits 8 in
  (state_bytes (state context), cleared_context).
