(* ===== verification/Md5Rfc.v ===== *)
(** * RFC 1321 and the block function

    The reference: padding, the table of sines, sixty-four uniform steps.
    [transform_block], with its four unrolled rounds and its shortened boolean
    functions, is the compression function of the reference. *)
From S2P Require Import Prelude Posix Md5.
Local Open Scope Z_scope.

(** ** The reference *)

(** [floor (2^32 * abs (sin n))], by the Taylor series in fixed point. *)
Fixpoint sine_series (fuel : nat) (k n term sum : Z) : Z :=
  match fuel with
  | O => sum
  | S fuel => sine_series fuel (k + 2) n (- (term * n * n) / ((k + 1) * (k + 2))) (sum + term)
  end.
Definition sine_word (n : Z) : Z :=
  Z.shiftr (Z.abs (sine_series 160 1 n (Z.shiftl n 400) 0)) 368.
Definition sine_table : list Z := Eval vm_compute in sine_word <$> seqZ 1 64.

Definition rfc_function (r : nat) (x y z : Z) : Z :=
  match r with
  | 0%nat => Z.lor (Z.land x y) (Z.land (Z.lnot x) z)
  | 1%nat => Z.lor (Z.land x z) (Z.land y (Z.lnot z))
  | 2%nat => Z.lxor x (Z.lxor y z)
  | _ => Z.lxor y (Z.lor x (Z.lnot z))
  end.

Definition rfc_word (r i : nat) : nat :=
  match r with
  | 0%nat => i
  | 1%nat => 5 * i + 1
  | 2%nat => 3 * i + 5
  | _ => 7 * i
  end `mod` 16.

Definition rfc_shift (r i : nat) : Z :=
  nth (i `mod` 4) (nth r [[7; 12; 17; 22]; [5; 9; 14; 20]; [4; 11; 16; 23]; [6; 10; 15; 21]] []) 0.

Definition rotate (x s : Z) : Z := (x * 2 ^ s + x / 2 ^ (32 - s)) mod 2 ^ 32.

Definition rfc_step (x : nat → Z) (st : md5_state) (i : nat) : md5_state :=
  let r := (i / 16)%nat in
  let '(Words a b c d) := st in
  let t := (a + rfc_function r b c d + x (rfc_word r i) + nth i sine_table 0) mod 2 ^ 32 in
  Words d ((b + rotate t (rfc_shift r i)) mod 2 ^ 32) b c.

Definition add_state (s t : md5_state) : md5_state :=
  Words ((st_a s + st_a t) mod 2 ^ 32) ((st_b s + st_b t) mod 2 ^ 32)
        ((st_c s + st_c t) mod 2 ^ 32) ((st_d s + st_d t) mod 2 ^ 32).

Definition rfc_compress (st : md5_state) (block : list Z) : md5_state :=
  add_state (foldl (rfc_step (block_word block)) st (seq 0 64)) st.

Definition rfc_pad (msg : list Z) : list Z :=
  msg ++ 0x80 :: replicate (Z.to_nat ((55 - zlen msg) mod 64)) 0 ++ le_bytes 8 (8 * zlen msg).

Fixpoint rfc_blocks (n : nat) (bs : list Z) : list (list Z) :=
  match n with
  | O => []
  | S n => take 64 bs :: rfc_blocks n (drop 64 bs)
  end.

Definition rfc_init : md5_state := Words 0x67452301 0xefcdab89 0x98badcfe 0x10325476.

Definition rfc_digest (msg : list Z) : list Z :=
  let bs := rfc_pad msg in
  state_bytes (foldl rfc_compress rfc_init (rfc_blocks (length bs / 64) bs)).

Lemma sine_table_eq : sine_table = sine_word <$> seqZ 1 64.
Proof. vm_compute. reflexivity. Qed.

(** ** One block *)

Section block.
Implicit Types a b c d t s k : Z.

Ltac bitwise :=
  apply Z.bits_inj'; intros n ?;
  repeat first [rewrite Z.lxor_spec | rewrite Z.lor_spec | rewrite Z.land_spec | rewrite Z.lnot_spec by done];
  repeat match goal with |- context [Z.testbit ?x n] => destruct (Z.testbit x n) end; done.

Lemma F_rfc b c d : F b c d = rfc_function 0 b c d.
Proof. unfold F; cbn [rfc_function]. bitwise. Qed.
Lemma G_rfc b c d : G b c d = rfc_function 1 b c d.
Proof. unfold G; cbn [rfc_function]. bitwise. Qed.
Lemma H_rfc b c d : H b c d = rfc_function 2 b c d.
Proof. unfold H; cbn [rfc_function]. bitwise. Qed.

(** The complement is the only operation whose width shows. *)
Lemma I_rfc b c d : I b c d mod 2 ^ 32 = rfc_function 3 b c d mod 2 ^ 32.
Proof.
  unfold I; cbn [rfc_function]. apply Z.bits_inj'; intros n Hn.
  destruct (Z.lt_ge_cases n 32) as [Hlt|Hge].
  - rewrite !Z.mod_pow2_bits_low by done.
    rewrite !Z.lxor_spec, !Z.lor_spec. unfold not32, u32. by rewrite Z.mod_pow2_bits_low.
  - by rewrite !Z.mod_pow2_bits_high by lia.
Qed.

Lemma rotate_eq t s : 0 ≤ t < 2 ^ 32 → 0 < s < 32 → ROTATE_LEFT t s = rotate t s.
Proof.
  intros Ht Hs. unfold ROTATE_LEFT, rotate, u32.
  rewrite Z.shiftl_mul_pow2, Z.shiftr_div_pow2 by lia.
  assert (2 ^ 32 = 2 ^ (32 - s) * 2 ^ s) as E by (rewrite <- Z.pow_add_r by lia; f_equal; lia).
  pose proof (Z.pow_pos_nonneg 2 s ltac:(lia) ltac:(lia)) as Hp.
  pose proof (Z.pow_pos_nonneg 2 (32 - s) ltac:(lia) ltac:(lia)) as Hq.
  assert ((t * 2 ^ s) mod 2 ^ 32 = t mod 2 ^ (32 - s) * 2 ^ s) as Em.
  { rewrite E. apply Z.mul_mod_distr_r; lia. }
  assert (0 ≤ t / 2 ^ (32 - s) < 2 ^ s) as Hd.
  { split; [apply Z.div_pos; lia|]. apply Z.div_lt_upper_bound; [lia|]. rewrite <- E; lia. }
  pose proof (Z.mod_pos_bound t (2 ^ (32 - s)) Hq) as Hm.
  rewrite <- Z.add_nocarry_lor.
  - rewrite <- Z.add_mod_idemp_l by lia. rewrite Em. symmetry. apply Z.mod_small. nia.
  - rewrite Em. apply Z.bits_inj'; intros n Hn. rewrite Z.land_spec, Z.bits_0.
    destruct (Z.lt_ge_cases n s) as [Hlt|Hge].
    + by rewrite Z.mul_pow2_bits_low.
    + rewrite <- (Z.mod_small (t / _) (2 ^ s)) by done.
      rewrite (Z.mod_pow2_bits_high _ s) by lia. apply andb_false_r.
Qed.

(** A macro is a step, given what its boolean function is modulo 2^32. *)
Lemma macro_step f g a b k s ac :
  f mod 2 ^ 32 = g mod 2 ^ 32 → 0 < s < 32 →
  u32 (ROTATE_LEFT (u32 (a + u32 (u32 (f + k) + ac))) s + b) =
  (b + rotate ((a + g + k + ac) mod 2 ^ 32) s) mod 2 ^ 32.
Proof.
  intros Hf Hs. rewrite rotate_eq by (apply u32_range || done).
  assert (u32 (a + u32 (u32 (f + k) + ac)) = (a + g + k + ac) mod 2 ^ 32) as ->.
  { unfold u32. rewrite (Z.add_mod_idemp_l (f + k)), Z.add_mod_idemp_r by lia.
    replace (a + (f + k + ac)) with (f + (a + k + ac)) by lia.
    rewrite <- Z.add_mod_idemp_l, Hf, Z.add_mod_idemp_l by lia. f_equal; lia. }
  unfold u32. by rewrite Z.add_comm.
Qed.

Section macros.
Context (a b c d k s ac : Z) (Hs : 0 < s < 32).

Lemma FF_rfc :
  FF a b c d k s ac = (b + rotate ((a + rfc_function 0 b c d + k + ac) mod 2 ^ 32) s) mod 2 ^ 32.
Proof. refine (macro_step (F b c d) (rfc_function 0 b c d) a b k s ac _ Hs). by rewrite F_rfc. Qed.
Lemma GG_rfc :
  GG a b c d k s ac = (b + rotate ((a + rfc_function 1 b c d + k + ac) mod 2 ^ 32) s) mod 2 ^ 32.
Proof. refine (macro_step (G b c d) (rfc_function 1 b c d) a b k s ac _ Hs). by rewrite G_rfc. Qed.
Lemma HH_rfc :
  HH a b c d k s ac = (b + rotate ((a + rfc_function 2 b c d + k + ac) mod 2 ^ 32) s) mod 2 ^ 32.
Proof. refine (macro_step (H b c d) (rfc_function 2 b c d) a b k s ac _ Hs). by rewrite H_rfc. Qed.
Lemma II_rfc :
  II a b c d k s ac = (b + rotate ((a + rfc_function 3 b c d + k + ac) mod 2 ^ 32) s) mod 2 ^ 32.
Proof. refine (macro_step (I b c d) (rfc_function 3 b c d) a b k s ac _ Hs). apply I_rfc. Qed.
End macros.

(** A shared word may be any value equal to it. *)
Lemma assign_eq {A B} (e : A) (body : A → B) r :
  (∀ v, v = e → body v = r) → assign e body = r.
Proof. intros Hv. by apply Hv. Qed.

Context (x : nat → Z).

Lemma foldl_step i l a b c d v r (k : nat) s ac :
  (i / 16)%nat = r → rfc_word r i = k → rfc_shift r i = s → nth i sine_table 0 = ac →
  v = (b + rotate ((a + rfc_function r b c d + x k + ac) mod 2 ^ 32) s) mod 2 ^ 32 →
  foldl (rfc_step x) (Words a b c d) (i :: l) = foldl (rfc_step x) (Words d v b c) l.
Proof. by intros <- <- <- <- ->. Qed.

(** Consume the assignments of a round against the steps of the reference,
    one by one, naming each new word so that it is not copied. *)
Ltac one_step macro :=
  lazymatch goal with
  | |- assign (?m ?a ?b ?c ?d (x ?k) ?s ?ac) ?body = foldl _ _ (?i :: ?l) =>
      let E := fresh in
      refine (assign_eq _ body _ _); intros ? E; cbv beta;
      rewrite (macro a b c d (x k) s ac ltac:(lia)) in E;
      rewrite (foldl_step i l a b c d _ _ k s ac eq_refl eq_refl eq_refl eq_refl E);
      clear E
  end.
Ltac round macro name start :=
  cbv beta iota delta [name];
  let l := eval cbv in (seq start 16) in change (seq start 16) with l;
  repeat one_step macro; reflexivity.

Lemma round1_rfc st : round1 x st = foldl (rfc_step x) st (seq 0 16).
Proof. destruct st. round FF_rfc round1 0%nat. Qed.
Lemma round2_rfc st : round2 x st = foldl (rfc_step x) st (seq 16 16).
Proof. destruct st. round GG_rfc round2 16%nat. Qed.
Lemma round3_rfc st : round3 x st = foldl (rfc_step x) st (seq 32 16).
Proof. destruct st. round HH_rfc round3 32%nat. Qed.
Lemma round4_rfc st : round4 x st = foldl (rfc_step x) st (seq 48 16).
Proof. destruct st. round II_rfc round4 48%nat. Qed.
End block.

Lemma transform_block_rfc st block : transform_block st block = rfc_compress st block.
Proof.
  unfold rfc_compress. change (seq 0 64) with (seq 0 16 ++ seq 16 16 ++ seq 32 16 ++ seq 48 16).
  rewrite !foldl_app, <- round1_rfc, <- round2_rfc, <- round3_rfc, <- round4_rfc.
  cbv beta zeta delta [transform_block]. by destruct (round4 _ _).
Qed.
