(* ===== verification/Md5Spec.v ===== *)
(** * The digest of a message is MD5, whatever pieces it comes in

    The invariant [ctx_holds]: a context between two calls holds the digest of
    the whole blocks of the message so far, its length and its tail. *)
From S2P Require Import Prelude Posix Md5 Md5Rfc.
Local Open Scope Z_scope.

Section blocks.
Implicit Types (bs xs : list Z) (n m : nat) (st : md5_state).

Lemma MD5Transform_rfc st bs n :
  MD5Transform st bs n = foldl rfc_compress st (rfc_blocks n bs).
Proof.
  revert st bs; induction n as [|n IH]; intros st bs; [done|].
  cbn [MD5Transform rfc_blocks foldl]. by rewrite transform_block_rfc, IH.
Qed.

Lemma rfc_blocks_add n m bs :
  rfc_blocks (n + m) bs = rfc_blocks n bs ++ rfc_blocks m (drop (64 * n) bs).
Proof.
  revert bs; induction n as [|n IH]; intros bs; [by rewrite drop_0|].
  replace (64 * S n)%nat with (64 + 64 * n)%nat by lia.
  cbn [Nat.add rfc_blocks app]. by rewrite IH, drop_drop.
Qed.

Lemma rfc_blocks_app n bs xs :
  (64 * n ≤ length bs)%nat → rfc_blocks n (bs ++ xs) = rfc_blocks n bs.
Proof.
  revert bs; induction n as [|n IH]; intros bs Hn; [done|].
  cbn [rfc_blocks]. rewrite take_app_le, drop_app_le by lia.
  rewrite IH; [done|]. rewrite length_drop. lia.
Qed.
End blocks.

(** ** The invariant *)

(** The digest of the whole blocks of [msg]. *)
Definition state_after (msg : list Z) : md5_state :=
  foldl rfc_compress rfc_init (rfc_blocks (length msg / 64) msg).

Definition tail_of (msg : list Z) : list Z := drop (64 * (length msg / 64)) msg.

Record ctx_holds (msg : list Z) (ctx : MD5_CTX) : Prop := CtxHolds {
  ch_state : state ctx = state_after msg;
  ch_count0 : 0 ≤ count0 ctx < 2 ^ 32;
  ch_count1 : 0 ≤ count1 ctx < 2 ^ 32;
  ch_count : count0 ctx + 2 ^ 32 * count1 ctx = (8 * zlen msg) mod 2 ^ 64;
  ch_length : length (buffer ctx) = 64%nat;
  ch_buffer : take (length msg `mod` 64) (buffer ctx) = tail_of msg
}.

(** The lengths one call can take: a [size_t] of [w] bits and an [int]. *)
Definition chunk_size_ok (w n : Z) : Prop :=
  0 ≤ n ∧ ((w = 32 ∧ n < 2 ^ 31) ∨ (w = 64 ∧ n < 2 ^ 29)).

Section update.
Implicit Types (msg input bs : list Z) (ctx : MD5_CTX).

Lemma length_tail_of msg : length (tail_of msg) = (length msg `mod` 64)%nat.
Proof. unfold tail_of. rewrite length_drop, (Nat.Div0.mod_eq _ 64); lia. Qed.

(** Adding bytes that do not complete the block under way, or completing it. *)
Lemma state_after_short msg bs :
  (length msg `mod` 64 + length bs < 64)%nat →
  state_after (msg ++ bs) = state_after msg ∧ tail_of (msg ++ bs) = tail_of msg ++ bs ∧
  (length (msg ++ bs) `mod` 64 = length msg `mod` 64 + length bs)%nat.
Proof.
  intros Hb. pose proof (Nat.div_mod_eq (length msg) 64) as Hd.
  assert (length (msg ++ bs) / 64 = length msg / 64)%nat as E.
  { rewrite length_app. symmetry.
    apply (Nat.div_unique _ 64 _ (length msg `mod` 64 + length bs)); lia. }
  unfold state_after, tail_of. rewrite E, rfc_blocks_app by lia. split; [done|].
  rewrite drop_app_le by lia. split; [done|].
  rewrite (Nat.Div0.mod_eq (length (msg ++ bs)) 64), E, length_app by lia. lia.
Qed.

Lemma state_after_blocks msg bs n :
  length bs = (64 * n)%nat → (length msg `mod` 64 = 0)%nat →
  state_after (msg ++ bs) = foldl rfc_compress (state_after msg) (rfc_blocks n bs) ∧
  tail_of (msg ++ bs) = [] ∧ (length (msg ++ bs) `mod` 64 = 0)%nat.
Proof.
  intros Hb Hm. pose proof (Nat.div_mod_eq (length msg) 64) as Hd.
  assert (length (msg ++ bs) / 64 = length msg / 64 + n)%nat as E.
  { rewrite length_app, Hb. symmetry. apply (Nat.div_unique _ 64 _ 0); lia. }
  unfold state_after, tail_of. rewrite E, rfc_blocks_add, foldl_app, rfc_blocks_app by lia.
  rewrite drop_app_length' by lia. split; [done|]. split.
  - apply drop_ge. rewrite length_app. lia.
  - rewrite (Nat.Div0.mod_eq (length (msg ++ bs)) 64), E, length_app; lia.
Qed.

(** The bytes that complete the block under way. *)
Lemma state_after_fill msg bs :
  (length msg `mod` 64 + length bs = 64)%nat →
  state_after (msg ++ bs) = rfc_compress (state_after msg) (tail_of msg ++ bs) ∧
  (length (msg ++ bs) `mod` 64 = 0)%nat.
Proof.
  intros Hb. pose proof (Nat.div_mod_eq (length msg) 64) as Hd.
  assert (length (msg ++ bs) / 64 = length msg / 64 + 1)%nat as E.
  { rewrite length_app. symmetry. apply (Nat.div_unique _ 64 _ 0); lia. }
  unfold state_after, tail_of. rewrite E, rfc_blocks_add, foldl_app, rfc_blocks_app by lia.
  rewrite drop_app_le by lia. split.
  - cbn [rfc_blocks foldl]. rewrite take_ge; [done|]. rewrite length_app, length_drop. lia.
  - rewrite (Nat.Div0.mod_eq (length (msg ++ bs)) 64), E, length_app; lia.
Qed.

Lemma byte_index_eq msg ctx :
  ctx_holds msg ctx → Z.land (Z.shiftr (count0 ctx) 3) 0x3F = Z.of_nat (length msg `mod` 64).
Proof.
  intros [_ H0 _ Hc _ _]. change 0x3F with (Z.ones 6).
  rewrite Z.land_ones, Z.shiftr_div_pow2, Nat2Z.inj_mod by lia.
  change (Z.of_nat (length msg)) with (zlen msg). change (2 ^ 3) with 8. change (2 ^ 6) with 64.
  change (Z.of_nat 64) with 64.
  pose proof (Z.div_mod (8 * zlen msg) (2 ^ 64) ltac:(lia)) as Hd. rewrite <- Hc in Hd.
  pose proof (Z.div_mod (count0 ctx) 8 ltac:(lia)) as Hd8.
  pose proof (Z.mod_pos_bound (count0 ctx) 8 ltac:(lia)) as Hm8.
  assert (count0 ctx / 8 = zlen msg + 64 * (- (2 ^ 23 * count1 ctx + 2 ^ 55 * (8 * zlen msg / 2 ^ 64)))) as ->
    by lia.
  rewrite (Z.mul_comm 64), Z.mod_add by lia. done.
Qed.

Lemma add_count_ok w msg ctx n bs :
  ctx_holds msg ctx → chunk_size_ok w n → zlen bs = n →
  let c := add_count w ctx n in
  0 ≤ count0 c < 2 ^ 32 ∧ 0 ≤ count1 c < 2 ^ 32 ∧
  count0 c + 2 ^ 32 * count1 c = (8 * zlen (msg ++ bs)) mod 2 ^ 64.
Proof.
  intros [_ H0 H1 Hc _ _] [Hn Hw] Hbs. cbn [count0 count1 add_count].
  rewrite zlen_app, Hbs, Z.mul_add_distr_l.
  rewrite <- (Z.add_mod_idemp_l (8 * zlen msg)), <- Hc by lia.
  assert (size_t w (Z.shiftl n 3) = (8 * n) mod 2 ^ 32) as ->.
  { unfold size_t. rewrite Z.shiftl_mul_pow2 by lia. change (2 ^ 3) with 8.
    destruct Hw as [[-> _]|[-> Hn']]; rewrite (Z.mul_comm n 8); [done|]. rewrite !Z.mod_small; lia. }
  rewrite Z.shiftr_div_pow2 by lia. change (2 ^ (32 - 3)) with (2 ^ 29).
  set (bits := (8 * n) mod 2 ^ 32). pose proof (Z.mod_pos_bound (8 * n) (2 ^ 32) ltac:(lia)) as Hb.
  fold bits in Hb.
  assert (8 * n = 2 ^ 32 * (n / 2 ^ 29) + bits) as ->.
  { unfold bits. pose proof (Z.div_mod (8 * n) (2 ^ 32) ltac:(lia)) as Hd.
    replace (2 ^ 32) with (8 * 2 ^ 29) in Hd at 2 by lia. by rewrite Z.div_mul_cancel_l in Hd by lia. }
  clearbody bits. set (q := n / 2 ^ 29).
  split; [apply u32_range|]. split; [apply u32_range|].
  assert (∀ k c0 c1, 0 ≤ c0 < 2 ^ 32 →
    c0 + 2 ^ 32 * c1 = count0 ctx + 2 ^ 32 * count1 ctx + (2 ^ 32 * q + bits) + 2 ^ 64 * k →
    c0 + 2 ^ 32 * u32 c1 = (count0 ctx + 2 ^ 32 * count1 ctx + (2 ^ 32 * q + bits)) mod 2 ^ 64) as Hfin.
  { intros k c0 c1 Hc0 E. unfold u32.
    pose proof (Z.div_mod c1 (2 ^ 32) ltac:(lia)). pose proof (Z.mod_pos_bound c1 (2 ^ 32) ltac:(lia)).
    apply (Z.mod_unique _ _ (c1 / 2 ^ 32 - k)); [left; lia|lia]. }
  destruct (Z.lt_ge_cases (count0 ctx + bits) (2 ^ 32)) as [Hlt|Hge].
  - rewrite (u32_small (count0 ctx + bits)) by lia.
    destruct (Z.ltb_spec (count0 ctx + bits) bits); [lia|]. apply (Hfin 0); lia.
  - assert (u32 (count0 ctx + bits) = count0 ctx + bits - 2 ^ 32) as ->.
    { unfold u32. symmetry. apply (Z.mod_unique _ _ 1); lia. }
    destruct (Z.ltb_spec (count0 ctx + bits - 2 ^ 32) bits); [|lia].
    destruct (Z.eq_dec (count1 ctx + 1) (2 ^ 32)) as [E1|]; [|rewrite (u32_small (count1 ctx + 1)) by lia; apply (Hfin 0); lia].
    rewrite E1. change (u32 (2 ^ 32)) with 0. apply (Hfin (-1)); lia.
Qed.

Lemma take_memcpy_at r (dst src : list Z) n :
  length dst = 64%nat → (r + Z.to_nat n ≤ 64)%nat → (Z.to_nat n ≤ length src)%nat →
  take (r + Z.to_nat n) (memcpy_at dst (Z.of_nat r) src n) = take r dst ++ take (Z.to_nat n) src ∧
  length (memcpy_at dst (Z.of_nat r) src n) = 64%nat.
Proof.
  intros Hd Hr Hs. split; [|unfold memcpy_at; by rewrite length_dsplice].
  unfold memcpy_at, dsplice. rewrite Nat2Z.id, app_assoc, take_app_le.
  - rewrite take_ge; [|rewrite length_app, !length_take; lia].
    by rewrite (take_ge (take _ src)) by (rewrite length_take; lia).
  - rewrite length_app, !length_take. lia.
Qed.

Lemma MD5Update_ok w msg ctx input n :
  ctx_holds msg ctx → chunk_size_ok w n → n ≤ zlen input →
  ctx_holds (msg ++ take (Z.to_nat n) input) (MD5Update w ctx input n).
Proof.
  intros Hc Hw Hn. set (bs := take (Z.to_nat n) input).
  assert (length bs = Z.to_nat n) as Hbs by (unfold bs; rewrite length_take; unfold zlen in Hn; lia).
  assert (zlen bs = n) as Hz by (unfold zlen; destruct Hw; lia).
  destruct (add_count_ok w msg ctx n bs Hc Hw Hz) as (H0 & H1 & Hcnt).
  destruct Hw as [Hn0 Hw]. pose proof (byte_index_eq msg ctx Hc) as Hi.
  destruct Hc as [Hst _ _ _ Hlen Hbuf].
  unfold MD5Update. rewrite Hi.
  change (buffer (add_count w ctx n)) with (buffer ctx). change (state (add_count w ctx n)) with (state ctx). set (r := (length msg `mod` 64)%nat) in *.
  assert (r < 64)%nat as Hr by (apply Nat.mod_upper_bound; lia). unfold zlen in Hn.
  destruct (Z.leb_spec (64 - Z.of_nat r) n) as [Hfull|Hshort].
  2:{ destruct (state_after_short msg bs) as (Es & Et & El); [fold r; lia|].
      destruct (take_memcpy_at r (buffer ctx) input n) as [Em Hm]; [done|lia|lia|].
      split; cbn [state count0 count1 buffer]; [by rewrite Es|done..|].
      rewrite El. fold r. by rewrite Hbs, Em, Hbuf, Et. }
  set (k := ((Z.to_nat n - (64 - r)) / 64)%nat).
  pose proof (Nat.div_mod_eq (Z.to_nat n - (64 - r)) 64) as Hk. fold k in Hk.
  pose proof (Nat.mod_upper_bound (Z.to_nat n - (64 - r)) 64 ltac:(lia)) as Hk'.
  assert (i32 ((n - (64 - Z.of_nat r)) / 64) = Z.of_nat k) as ->.
  { assert ((n - (64 - Z.of_nat r)) / 64 = Z.of_nat k) as ->; [|apply i32_small; lia].
    symmetry. apply (Z.div_unique _ _ _ (Z.of_nat ((Z.to_nat n - (64 - r)) `mod` 64))); lia. }
  rewrite (i32_small (64 * _)) by lia. rewrite (u32_small (64 - _ + _)) by lia.
  rewrite i32_small by lia.
  replace (Z.to_nat (64 - Z.of_nat r)) with (64 - r)%nat by lia. rewrite Nat2Z.id.
  replace (Z.to_nat (64 - Z.of_nat r + 64 * Z.of_nat k)) with (64 - r + 64 * k)%nat by lia.
  set (xs := take (64 - r) input). set (ys := take (64 * k) (drop (64 - r) input)).
  set (zs := take (Z.to_nat n - (64 - r + 64 * k)) (drop (64 - r + 64 * k) input)).
  assert (bs = xs ++ ys ++ zs) as Ebs.
  { unfold bs, xs, ys, zs. rewrite <- drop_drop, !take_take_drop. f_equal. lia. }
  assert (length xs = 64 - r)%nat as Hxs by (unfold xs; rewrite length_take; lia).
  assert (length ys = 64 * k)%nat as Hys by (unfold ys; rewrite length_take, length_drop; lia).
  assert (length zs < 64)%nat as Hzs by (unfold zs; rewrite length_take; lia).
  destruct (take_memcpy_at r (buffer ctx) input (64 - Z.of_nat r)) as [Em Hm]; [done|lia|lia|].
  replace (Z.to_nat (64 - Z.of_nat r)) with (64 - r)%nat in Em by lia.
  replace (r + (64 - r))%nat with 64%nat in Em by lia. rewrite take_ge in Em by lia.
  destruct (state_after_fill msg xs) as [E1 L1]; [fold r; lia|].
  destruct (state_after_blocks (msg ++ xs) ys k Hys L1) as (E2 & T2 & L2).
  destruct (state_after_short ((msg ++ xs) ++ ys) zs) as (E3 & T3 & L3); [lia|].
  rewrite Ebs, !app_assoc. rewrite Ebs, !app_assoc in Hcnt.
  set (rest := drop (64 - r + 64 * k) input).
  destruct (take_memcpy_at 0 (memcpy_at (buffer ctx) (Z.of_nat r) input (64 - Z.of_nat r)) rest
    (n - (64 - Z.of_nat r + 64 * Z.of_nat k))) as [Em' Hm']; [done|lia|unfold rest; rewrite length_drop; lia|].
  split; cbn [state count0 count1 buffer]; [|done..|].
  - rewrite E3, E2, E1, !MD5Transform_rfc. cbn [rfc_blocks foldl].
    rewrite Em, Hbuf, Hst. rewrite (take_ge (tail_of msg ++ _)); [|rewrite length_app, length_tail_of; fold r; fold xs; lia].
    f_equal. rewrite <- (take_drop (64 * k) (drop (64 - r) input)).
    apply rfc_blocks_app. fold ys. lia.
  - rewrite L3, L2, T3, T2. change (Z.of_nat 0) with 0 in Em'.
    assert (zs = take (Z.to_nat (n - (64 - Z.of_nat r + 64 * Z.of_nat k))) rest) as Ezs
      by (unfold zs, rest; f_equal; lia).
    assert (length zs = Z.to_nat (n - (64 - Z.of_nat r + 64 * Z.of_nat k))) as Elz
      by (rewrite Ezs, length_take; unfold rest; rewrite length_drop; lia).
    rewrite Elz, Em', Ezs. done.
Qed.
End update.

(** With a 64-bit [size_t] the carry test compares 32 bits with 64: from 2^29
    bytes on it holds always, and the count gains 2^32 bits too many. *)
Lemma add_count_wide :
  let c := add_count 64 (MD5Init cleared_context) (2 ^ 29) in
  count0 c + 2 ^ 32 * count1 c = 8 * 2 ^ 29 + 2 ^ 32.
Proof. vm_compute. reflexivity. Qed.

(** ** Padding *)

Lemma MD5Init_ok ctx : length (buffer ctx) = 64%nat → ctx_holds [] (MD5Init ctx).
Proof. intros Hb. by split. Qed.

(** The count, as [MD5Final] saves it. *)
Lemma count_bytes msg ctx :
  ctx_holds msg ctx → le_bytes 4 (count0 ctx) ++ le_bytes 4 (count1 ctx) = le_bytes 8 (8 * zlen msg).
Proof.
  intros [_ H0 H1 Hc _ _]. rewrite <- (le_bytes_mod 8). change (256 ^ Z.of_nat 8) with (2 ^ 64).
  rewrite <- Hc, (le_bytes_split 4 4). change (256 ^ Z.of_nat 4) with (2 ^ 32). f_equal.
  - rewrite <- (le_bytes_mod 4 (_ + _)). change (256 ^ Z.of_nat 4) with (2 ^ 32).
    by rewrite (Z.mul_comm (2 ^ 32)), Z.mod_add, Z.mod_small by lia.
  - by rewrite (Z.mul_comm (2 ^ 32)), Z.div_add, Z.div_small by lia.
Qed.

Lemma MD5Final_ok w msg ctx :
  (w = 32 ∨ w = 64) → ctx_holds msg ctx → MD5Final w ctx = (rfc_digest msg, cleared_context).
Proof.
  intros Hw Hc. unfold MD5Final. rewrite (byte_index_eq msg ctx Hc).
  set (r := (length msg `mod` 64)%nat).
  assert (r < 64)%nat as Hr by (apply Nat.mod_upper_bound; lia).
  set (n := (if Z.of_nat r <? 56 then 56 else 120) - Z.of_nat r).
  assert (1 ≤ n ≤ 64 ∧ n - 1 = (55 - zlen msg) mod 64) as [Hn Hpad].
  { assert (zlen msg = 64 * (zlen msg / 64) + Z.of_nat r) as Hz.
    { unfold r. rewrite Nat2Z.inj_mod. apply Z.div_mod. lia. }
    unfold n. destruct (Z.ltb_spec (Z.of_nat r) 56).
    - split; [lia|]. apply (Z.mod_unique _ _ (- (zlen msg / 64))); lia.
    - split; [lia|]. apply (Z.mod_unique _ _ (- (zlen msg / 64) - 1)); lia. }
  assert (chunk_size_ok w n ∧ chunk_size_ok w 8) as [Hw1 Hw2] by (unfold chunk_size_ok; lia).
  pose proof (count_bytes msg ctx Hc) as Hbits.
  apply (MD5Update_ok w msg ctx finalBlock n) in Hc; [|done|change (zlen finalBlock) with 64; lia].
  rewrite Hbits. apply (MD5Update_ok w _ _ (le_bytes 8 (8 * zlen msg)) 8) in Hc;
    [|done|unfold zlen; rewrite length_le_bytes; lia].
  rewrite (take_ge (le_bytes _ _)) in Hc by (rewrite length_le_bytes; by change (Z.to_nat 8) with 8%nat). rewrite (ch_state _ _ Hc).
  assert ((msg ++ take (Z.to_nat n) finalBlock) ++ le_bytes 8 (8 * zlen msg) = rfc_pad msg) as ->; [|done].
  unfold rfc_pad. rewrite <- app_assoc, <- Hpad. f_equal. unfold finalBlock.
  replace (Z.to_nat n) with (S (Z.to_nat (n - 1))) by lia. rewrite firstn_cons, take_replicate.
  rewrite Nat.min_l by lia. done.
Qed.

(** ** Theorems *)

(** C39: However a message is cut into pieces for [MD5Update], and whatever the
    context held before [MD5Init], [MD5Final] gives the digest RFC 1321
    defines for the whole message - padding, length field and the compression
    of every block - and leaves a cleared context.  Pieces are below 2^31
    bytes with a 32-bit [size_t], below 2^29 with a 64-bit one. *)
Theorem md5_streaming w ctx chunks :
  (w = 32 ∨ w = 64) → length (buffer ctx) = 64%nat →
  Forall (λ chunk, chunk_size_ok w (zlen chunk)) chunks →
  MD5Final w (foldl (λ c chunk, MD5Update w c chunk (zlen chunk)) (MD5Init ctx) chunks) =
    (rfc_digest (concat chunks), cleared_context).
Proof.
  intros Hw Hb Hch. apply MD5Final_ok; [done|].
  rewrite <- (app_nil_l (concat chunks)). pose proof (MD5Init_ok ctx Hb) as Hc.
  revert Hc. generalize (MD5Init ctx) ([] : list Z).
  induction Hch as [|x chunks Hx _ IH]; intros c msg Hc; cbn [concat foldl].
  { by rewrite app_nil_r. }
  rewrite app_assoc. apply IH. pose proof (MD5Update_ok w msg c x (zlen x) Hc Hx ltac:(done)) as Hu.
  unfold zlen in Hu at 1. by rewrite Nat2Z.id, firstn_all in Hu.
Qed.

(** The message [message digest], cut in three. *)
Lemma md5_streaming_witness :
  (MD5Final 32 (foldl (λ c chunk, MD5Update 32 c chunk (zlen chunk)) (MD5Init cleared_context)
    [[109; 101]; []; [115; 115; 97; 103; 101; 32; 100; 105; 103; 101; 115; 116]])).1 =
    [0xf9; 0x6b; 0x69; 0x7d; 0x7c; 0xb7; 0x93; 0x8d; 0x52; 0x5a; 0x2f; 0x31; 0xaa; 0xf1; 0x61; 0xd0].
Proof.
  rewrite (md5_streaming 32).
  - vm_compute. reflexivity.
  - left. reflexivity.
  - reflexivity.
  - repeat (apply Forall_cons; split; [split; [done|left; split; [done|done]]|]). by apply Forall_nil.
Defined.
