(* ===== verification/Md5Crypt.v ===== *)
(** * Password hashing of the C library

    [uuu/lib/c/libcrypt/md5crypt.c].  A C string argument is the list of its
    bytes before the NUL; [passwd] is the static array of 120 bytes, given as
    it is at the call and returned as the function leaves it. *)
From S2P Require Import Prelude Posix Md5.
Local Open Scope Z_scope.

Definition itoa64 : list Z :=
  [46; 47] ++ seqZ 48 10 ++ seqZ 65 26 ++ seqZ 97 26.

Fixpoint to64 (v : Z) (n : nat) : list Z :=
  match n with
  | O => []
  | S n => nth (Z.to_nat (Z.land v 0x3f)) itoa64 0 :: to64 (Z.shiftr v 6) n
  end.

(** [$1$] *)
Definition magic : list Z := [36; 49; 36].

(** The C string at the start of an array. *)
Fixpoint c_string (bs : list Z) : list Z :=
  match bs with
  | [] => []
  | b :: bs => if b =? 0 then [] else b :: c_string bs
  end.

(** [*p] of a C string: NUL at its end. *)
Definition byte_of (s : list Z) (i : Z) : Z := nth (Z.to_nat i) s 0.

(** [for(ep=sp;*ep && *ep != '$' && ep < (sp+8);ep++)]: the value of [ep - sp];
    eight rounds at most. *)
Fixpoint salt_end (sp : list Z) (ep : Z) (fuel : nat) : Z :=
  match fuel with
  | O => ep
  | S fuel =>
      if negb (byte_of sp ep =? 0) && negb (byte_of sp ep =? 36) && (ep <? 8)
      then salt_end sp (ep + 1) fuel else ep
  end.

(** The salt proper: where [sp] points, and [sl]. *)
Definition skip_magic (salt : list Z) : list Z :=
  if decide (take 3 salt = magic) then drop 3 salt else salt.
Definition salt_length (sp : list Z) : Z := salt_end sp 0 9.

Section md5crypt.
Context (w : Z).

Definition update (ctx : MD5_CTX) (input : list Z) (n : Z) : MD5_CTX := MD5Update w ctx input n.

(** [for(pl = strlen(pw); pl > 0; pl -= 16)] *)
Fixpoint add_final (fuel : nat) (pl : Z) (final : list Z) (ctx : MD5_CTX) : MD5_CTX :=
  match fuel with
  | O => ctx
  | S fuel =>
      if 0 <? pl then
        add_final fuel (pl - 16) final (update ctx final (if 16 <? pl then 16 else pl))
      else ctx
  end.

(** [for (i = strlen(pw); i ; i >>= 1)] *)
Fixpoint add_weird (fuel : nat) (i : Z) (final pw : list Z) (ctx : MD5_CTX) : MD5_CTX :=
  match fuel with
  | O => ctx
  | S fuel =>
      if i =? 0 then ctx else
      add_weird fuel (Z.shiftr i 1) final pw
        (if negb (Z.land i 1 =? 0) then update ctx final 1 else update ctx pw 1)
  end.

(** The body of [for(i=0;i<1000;i++)]: the new [final] and [ctx1]. *)
Definition stretch_round (pw sp : list Z) (sl i : Z) (s : list Z * MD5_CTX) : list Z * MD5_CTX :=
  let '(final, ctx1) := s in
  let ctx1 := MD5Init ctx1 in
  let ctx1 := if negb (Z.land i 1 =? 0) then update ctx1 pw (zlen pw) else update ctx1 final 16 in
  let ctx1 := if negb (i mod 3 =? 0) then update ctx1 sp sl else ctx1 in
  let ctx1 := if negb (i mod 7 =? 0) then update ctx1 pw (zlen pw) else ctx1 in
  let ctx1 := if negb (Z.land i 1 =? 0) then update ctx1 final 16 else update ctx1 pw (zlen pw) in
  MD5Final w ctx1.

Definition stretch (rounds : nat) (pw sp : list Z) (sl : Z) (s : list Z * MD5_CTX) : list Z * MD5_CTX :=
  foldl (λ s i, stretch_round pw sp sl i s) s (seqZ 0 (Z.of_nat rounds)).

(** [(final[i]<<16) | (final[j]<<8) | final[k]] *)
Definition three (final : list Z) (i j k : nat) : Z :=
  Z.lor (Z.lor (Z.shiftl (nth i final 0) 16) (Z.shiftl (nth j final 0) 8)) (nth k final 0).

Definition encode_final (final : list Z) : list Z :=
  to64 (three final 0 6 12) 4 ++ to64 (three final 1 7 13) 4 ++ to64 (three final 2 8 14) 4
  ++ to64 (three final 3 9 15) 4 ++ to64 (three final 4 10 5) 4 ++ to64 (nth 11 final 0) 2.

(** The digest after the thousand rounds; [ctx] and [ctx1] are the
    uninitialised locals. *)
Definition hash_password (ctx ctx1 : MD5_CTX) (pw sp : list Z) (sl : Z) : list Z :=
  let ctx := MD5Init ctx in
  let ctx := update ctx pw (zlen pw) in
  let ctx := update ctx magic (zlen magic) in
  let ctx := update ctx sp sl in
  let ctx1 := MD5Init ctx1 in
  let ctx1 := update ctx1 pw (zlen pw) in
  let ctx1 := update ctx1 sp sl in
  let ctx1 := update ctx1 pw (zlen pw) in
  let '(final, ctx1) := MD5Final w ctx1 in
  let ctx := add_final (length pw) (zlen pw) final ctx in
  let final := replicate 16 0 in
  let ctx := add_weird 32 (zlen pw) final pw ctx in
  let '(final, ctx) := MD5Final w ctx in
  (stretch 1000 pw sp sl (final, ctx1)).1.

(** [strcpy], [memcpy] and the stores before the digest, then the stores
    through [p]: the array afterwards. *)
Definition md5crypt (ctx ctx1 : MD5_CTX) (passwd pw salt : list Z) : list Z :=
  let sp := skip_magic salt in
  let sl := salt_length sp in
  let passwd := dsplice 0 (magic ++ [0]) passwd in
  let passwd := dsplice 3 (take (Z.to_nat sl) sp) passwd in
  let passwd := dsplice (sl + 3) [36] passwd in
  let passwd := dsplice (sl + 4) [0] passwd in
  let final := hash_password ctx ctx1 pw sp sl in
  let p := zlen (c_string passwd) in
  dsplice p (encode_final final ++ [0]) passwd.
End md5crypt.
