(* ===== verification/Md5CryptSpec.v ===== *)
(** * A stored password verifies itself

    [md5crypt] as a function of the password and the salt proper: the
    contents of its uninitialised contexts and of the static buffer do not
    matter, and hashing with a stored password as the salt gives it back. *)
From S2P Require Import Prelude Posix Md5 Md5Rfc Md5Spec Md5Crypt.
Local Open Scope Z_scope.

(** ** What is hashed *)

Section reference.
Implicit Types (pw s final : list Z).

Fixpoint final_bytes (fuel : nat) (pl : Z) final : list Z :=
  match fuel with
  | O => []
  | S fuel =>
      if 0 <? pl then take (Z.to_nat (Z.min pl 16)) final ++ final_bytes fuel (pl - 16) final else []
  end.

Fixpoint weird_bytes (fuel : nat) (i : Z) pw : list Z :=
  match fuel with
  | O => []
  | S fuel =>
      if i =? 0 then [] else
      (if Z.odd i then [0] else take 1 pw) ++ weird_bytes fuel (Z.shiftr i 1) pw
  end.

Definition round_message pw s (i : Z) final : list Z :=
  (if Z.odd i then pw else final) ++ (if i mod 3 =? 0 then [] else s) ++
  (if i mod 7 =? 0 then [] else pw) ++ (if Z.odd i then final else pw).

Definition password_digest pw s : list Z :=
  let alternate := rfc_digest (pw ++ s ++ pw) in
  let first := rfc_digest (pw ++ magic ++ s ++ final_bytes (length pw) (zlen pw) alternate
                           ++ weird_bytes 32 (zlen pw) pw) in
  foldl (λ final i, rfc_digest (round_message pw s i final)) first (seqZ 0 1000).
End reference.

Lemma length_state_bytes st : length (state_bytes st) = 16%nat.
Proof. unfold state_bytes. by rewrite !length_app, !length_le_bytes. Qed.
Lemma length_rfc_digest msg : length (rfc_digest msg) = 16%nat.
Proof. apply length_state_bytes. Qed.

Section hash.
Context (w : Z) (pw sp s : list Z).
Context (Hw : w = 32 ∨ w = 64) (Hpw : zlen pw < 2 ^ 29) (Hs : take (length s) sp = s).
Context (Hs8 : zlen s ≤ 8).
Implicit Types (ctx : MD5_CTX) (msg bs final : list Z).

Lemma update_ok msg ctx bs n :
  ctx_holds msg ctx → 0 ≤ n < 2 ^ 29 → n ≤ zlen bs →
  ctx_holds (msg ++ take (Z.to_nat n) bs) (update w ctx bs n).
Proof. intros Hc Hn Hb. apply MD5Update_ok; [done| |done]. unfold chunk_size_ok. lia. Qed.

Lemma update_all msg ctx bs :
  ctx_holds msg ctx → zlen bs < 2 ^ 29 → ctx_holds (msg ++ bs) (update w ctx bs (zlen bs)).
Proof.
  intros Hc Hb. pose proof (update_ok msg ctx bs (zlen bs) Hc ltac:(split; [apply zlen_nonneg|done]) ltac:(done)) as Hu.
  unfold zlen in Hu at 1. by rewrite Nat2Z.id, firstn_all in Hu.
Qed.

Lemma update_salt msg ctx : ctx_holds msg ctx → ctx_holds (msg ++ s) (update w ctx sp (zlen s)).
Proof.
  intros Hc. rewrite <- Hs at 1. unfold zlen. rewrite <- (Nat2Z.id (length s)) at 1.
  apply update_ok; [done|unfold zlen in Hs8; lia|].
  assert (length (take (length s) sp) = length s) as Hl by (by rewrite Hs).
  rewrite length_take in Hl. unfold zlen. lia.
Qed.

Lemma add_final_ok fuel pl final msg ctx :
  ctx_holds msg ctx → length final = 16%nat →
  ctx_holds (msg ++ final_bytes fuel pl final) (add_final w fuel pl final ctx).
Proof.
  intros Hc Hf. revert pl msg ctx Hc. induction fuel as [|fuel IH]; intros pl msg ctx Hc;
    cbn [final_bytes add_final]; [by rewrite app_nil_r|].
  destruct (Z.ltb_spec 0 pl); [|by rewrite app_nil_r]. rewrite app_assoc. apply IH.
  assert ((if 16 <? pl then 16 else pl) = Z.min pl 16) as -> by (destruct (Z.ltb_spec 16 pl); lia).
  apply update_ok; [done|lia|unfold zlen; lia].
Qed.

Lemma odd_bit i : negb (Z.land i 1 =? 0) = Z.odd i.
Proof.
  change 1 with (Z.ones 1). rewrite Z.land_ones by lia. change (2 ^ 1) with 2.
  rewrite Zmod_odd. by destruct (Z.odd i).
Qed.

Lemma add_weird_ok fuel i msg ctx :
  ctx_holds msg ctx → 0 ≤ i ≤ zlen pw →
  ctx_holds (msg ++ weird_bytes fuel i pw) (add_weird w fuel i (replicate 16 0) pw ctx).
Proof.
  revert i msg ctx. induction fuel as [|fuel IH]; intros i msg ctx Hc Hi;
    cbn [weird_bytes add_weird]; [by rewrite app_nil_r|].
  destruct (Z.eqb_spec i 0) as [|Hne]; [by rewrite app_nil_r|]. rewrite app_assoc. apply IH.
  - rewrite odd_bit. destruct (Z.odd i).
    + apply (update_ok msg ctx (replicate 16 0) 1); [done|lia|done].
    + apply (update_ok msg ctx pw 1); [done|lia|lia].
  - rewrite Z.shiftr_div_pow2 by lia. change (2 ^ 1) with 2.
    pose proof (Z.div_mod i 2 ltac:(lia)). pose proof (Z.mod_pos_bound i 2 ltac:(lia)). lia.
Qed.

Lemma stretch_round_ok i final ctx :
  length final = 16%nat → length (buffer ctx) = 64%nat →
  stretch_round w pw sp (zlen s) i (final, ctx) = (rfc_digest (round_message pw s i final), cleared_context).
Proof.
  intros Hf Hb. unfold stretch_round. apply MD5Final_ok; [done|]. rewrite odd_bit.
  pose proof (MD5Init_ok ctx Hb) as Hc. unfold round_message.
  assert (zlen final = 16) as Hz by (unfold zlen; lia).
  assert (∀ msg c, ctx_holds msg c → ctx_holds (msg ++ final) (update w c final 16)) as Hfin.
  { intros msg c Hm. pose proof (update_all msg c final Hm ltac:(lia)) as Hu. by rewrite Hz in Hu. }
  assert (∀ msg c, ctx_holds msg c → ctx_holds (msg ++ pw) (update w c pw (zlen pw))) as Hupw.
  { intros msg c Hm. by apply update_all. }
  pose proof update_salt as Hsalt. rewrite !app_assoc.
  destruct (Z.odd i), (i mod 3 =? 0), (i mod 7 =? 0); cbn [negb]; rewrite ?app_nil_r;
    repeat match goal with
    | |- ctx_holds (_ ++ final) _ => apply Hfin
    | |- ctx_holds (_ ++ pw) _ => apply Hupw
    | |- ctx_holds (_ ++ s) _ => apply Hsalt
    end; try done; rewrite <- (app_nil_l _); auto.
Qed.

Lemma stretch_ok rounds final ctx :
  length final = 16%nat → length (buffer ctx) = 64%nat →
  (stretch w rounds pw sp (zlen s) (final, ctx)).1 =
    foldl (λ final i, rfc_digest (round_message pw s i final)) final (seqZ 0 (Z.of_nat rounds)).
Proof.
  unfold stretch. generalize (seqZ 0 (Z.of_nat rounds)) as il. intros il.
  revert final ctx. induction il as [|i il IH]; intros final ctx Hf Hb; [done|].
  cbn [foldl]. rewrite stretch_round_ok by done. apply IH; [apply length_rfc_digest|done].
Qed.

Lemma hash_password_ok ctx ctx1 :
  length (buffer ctx) = 64%nat → length (buffer ctx1) = 64%nat →
  hash_password w ctx ctx1 pw sp (zlen s) = password_digest pw s.
Proof.
  intros Hb Hb1. unfold hash_password.
  pose proof (MD5Init_ok ctx Hb) as Hc. pose proof (MD5Init_ok ctx1 Hb1) as Hc1.
  apply update_all with (bs := pw) in Hc; [|done]. apply update_all with (bs := magic) in Hc; [|done].
  apply update_salt in Hc.
  apply update_all with (bs := pw) in Hc1; [|done]. apply update_salt in Hc1.
  apply update_all with (bs := pw) in Hc1; [|done].
  rewrite (MD5Final_ok w _ _ Hw Hc1). rewrite !app_nil_l, <- app_assoc in Hc1 |- *.
  apply (add_final_ok (length pw) (zlen pw) (rfc_digest (pw ++ s ++ pw))) in Hc; [|apply length_rfc_digest].
  apply (add_weird_ok 32 (zlen pw)) in Hc; [|split; [apply zlen_nonneg|done]].
  rewrite (MD5Final_ok w _ _ Hw Hc). rewrite app_nil_l, <- !app_assoc.
  apply (stretch_ok 1000); [apply length_rfc_digest|done].
Qed.
End hash.

(** ** The stored string *)

(** The salt proper of an argument. *)
Definition salt_of (salt : list Z) : list Z :=
  take (Z.to_nat (salt_length (skip_magic salt))) (skip_magic salt).

Definition crypt_string (pw s : list Z) : list Z :=
  magic ++ s ++ 36 :: encode_final (password_digest pw s).

Section string.
Implicit Types (sp s e bs l xs ys : list Z).

Lemma c_string_app s l : Forall (λ b, b ≠ 0) s → c_string (s ++ 0 :: l) = s.
Proof.
  induction 1 as [|b s Hb _ IH]; [done|]. cbn [app c_string].
  destruct (Z.eqb_spec b 0); [done|]. by rewrite IH.
Qed.

Lemma dsplice_here off bs xs ys :
  Z.of_nat (length xs) = off → (length bs ≤ length ys)%nat →
  dsplice off bs (xs ++ ys) = (xs ++ bs) ++ drop (length bs) ys.
Proof.
  intros <- Hl. unfold dsplice. rewrite Nat2Z.id, take_app_length, <- app_assoc. f_equal.
  rewrite take_ge by (rewrite length_app; lia). f_equal.
  rewrite <- (drop_drop _ _ (length xs)). by rewrite drop_app_length.
Qed.

Lemma dsplice_next off bs xs ys n :
  length ys = n → Z.of_nat (length xs) = off → (length bs ≤ n)%nat →
  ∃ ys', dsplice off bs (xs ++ ys) = (xs ++ bs) ++ ys' ∧ length ys' = (n - length bs)%nat.
Proof.
  intros <- Ho Hl. exists (drop (length bs) ys). by rewrite dsplice_here, length_drop.
Qed.

(** [salt_end] stops at eight characters, the NUL or the dollar sign. *)
Lemma salt_end_ok sp fuel k :
  0 ≤ k ≤ 8 → 8 < k + Z.of_nat fuel →
  k ≤ salt_end sp k fuel ≤ 8 ∧
  (∀ j, k ≤ j < salt_end sp k fuel → byte_of sp j ≠ 0 ∧ byte_of sp j ≠ 36) ∧
  (salt_end sp k fuel < 8 → byte_of sp (salt_end sp k fuel) = 0 ∨ byte_of sp (salt_end sp k fuel) = 36).
Proof.
  revert k. induction fuel as [|fuel IH]; intros k Hk Hf; [lia|]. cbn [salt_end].
  destruct (Z.eqb_spec (byte_of sp k) 0), (Z.eqb_spec (byte_of sp k) 36), (Z.ltb_spec k 8);
    cbn [negb andb]; try (split; [lia|]; split; [intros; lia|intros; lia || tauto]).
  destruct (IH (k + 1)) as (Hr & Hin & Hend); [lia|lia|]. split; [lia|]. split; [|done].
  intros j Hj. destruct (Z.eq_dec j k) as [->|]; [done|]. apply Hin. lia.
Qed.

Lemma salt_length_ok sp : 0 ≤ salt_length sp ≤ 8 ∧ salt_length sp ≤ zlen sp.
Proof.
  destruct (salt_end_ok sp 9 0) as (Hr & Hin & _); [lia|lia|]. split; [done|].
  change (salt_end sp 0 9) with (salt_length sp) in *. destruct (Z.lt_ge_cases (zlen sp) (salt_length sp)); [|lia].
  destruct (Hin (zlen sp)) as [H0 _]; [unfold zlen in *; lia|].
  exfalso. apply H0. unfold byte_of, zlen. rewrite Nat2Z.id. by apply nth_overflow.
Qed.

Lemma salt_of_ok salt :
  Forall (λ b, b ≠ 0 ∧ b ≠ 36) (salt_of salt) ∧ zlen (salt_of salt) = salt_length (skip_magic salt).
Proof.
  unfold salt_of. set (sp := skip_magic salt). destruct (salt_length_ok sp) as [Hr Hl].
  destruct (salt_end_ok sp 9 0) as (_ & Hin & _); [lia|lia|].
  change (salt_end sp 0 9) with (salt_length sp) in Hin. unfold zlen in Hl. split.
  - apply Forall_lookup. intros j b Hj. apply lookup_take_Some in Hj as [Hj Hlt].
    destruct (Hin (Z.of_nat j)) as [H0 H36]; [lia|]. unfold byte_of in *. rewrite Nat2Z.id in *.
    by rewrite (nth_lookup_Some _ _ _ _ Hj) in *.
  - unfold zlen. rewrite length_take. lia.
Qed.

(** What a salt or a dollar sign after it does to the scan. *)
Lemma salt_end_app s l fuel k :
  Forall (λ b, b ≠ 0 ∧ b ≠ 36) s → 0 ≤ k ≤ zlen s → zlen s ≤ 8 → 8 < k + Z.of_nat fuel →
  salt_end (s ++ 36 :: l) k fuel = zlen s.
Proof.
  intros Hs Hk Hs8 Hf. destruct (salt_end_ok (s ++ 36 :: l) fuel k) as (Hr & Hin & Hend); [lia|lia|].
  set (r := salt_end (s ++ 36 :: l) k fuel) in *. unfold zlen in *.
  assert (∀ j, 0 ≤ j < Z.of_nat (length s) → byte_of (s ++ 36 :: l) j ≠ 0 ∧ byte_of (s ++ 36 :: l) j ≠ 36) as Hsalt.
  { intros j Hj. unfold byte_of. rewrite app_nth1 by lia.
    rewrite Forall_lookup in Hs. destruct (lookup_lt_is_Some_2 s (Z.to_nat j)) as [b Hb]; [lia|].
    rewrite (nth_lookup_Some _ _ _ _ Hb). by apply (Hs _ _ Hb). }
  assert (byte_of (s ++ 36 :: l) (Z.of_nat (length s)) = 36) as Hd.
  { unfold byte_of. by rewrite Nat2Z.id, nth_middle. }
  destruct (Z.lt_trichotomy r (Z.of_nat (length s))) as [Hlt|[|Hgt]]; [|done|].
  - destruct (Hsalt r) as [? ?]; [lia|]. destruct (Hend ltac:(lia)); done.
  - destruct (Hin (Z.of_nat (length s))) as [_ ?]; [lia|done].
Qed.

Lemma salt_of_crypt_string pw s :
  Forall (λ b, b ≠ 0 ∧ b ≠ 36) s → zlen s ≤ 8 → salt_of (crypt_string pw s) = s.
Proof.
  intros Hs Hs8. unfold salt_of, skip_magic, crypt_string. rewrite decide_True by done.
  change (drop 3 (magic ++ ?l)) with l. unfold salt_length.
  rewrite salt_end_app by (done || unfold zlen; lia). unfold zlen. by rewrite Nat2Z.id, take_app_length.
Qed.

Lemma to64_ok v n : length (to64 v n) = n ∧ Forall (λ b, b ∈ itoa64) (to64 v n).
Proof.
  revert v. induction n as [|n IH]; intros v; [done|]. cbn [to64]. destruct (IH (Z.shiftr v 6)) as [Hl Hf].
  split; [cbn [length]; by rewrite Hl|]. constructor; [|done].
  apply list_elem_of_In, nth_In. change 63 with (Z.ones 6). rewrite Z.land_ones by lia.
  pose proof (Z.mod_pos_bound v (2 ^ 6) ltac:(lia)). change (length itoa64) with 64%nat. lia.
Qed.

Lemma encode_final_ok final :
  length (encode_final final) = 22%nat ∧ Forall (λ b, b ∈ itoa64) (encode_final final).
Proof.
  unfold encode_final. rewrite !length_app, !Forall_app, !(proj1 (to64_ok _ _)).
  split; [done|]. split_and!; apply to64_ok.
Qed.

Lemma itoa64_nonzero b : b ∈ itoa64 → b ≠ 0.
Proof.
  assert (Forall (λ b, b ≠ 0) itoa64) as Hf by (apply (bool_decide_unpack _); vm_compute; exact Logic.I).
  rewrite Forall_forall in Hf. apply Hf.
Qed.
End string.

(** The C string the function returns. *)
Lemma md5crypt_ok w ctx ctx1 passwd pw salt :
  (w = 32 ∨ w = 64) → zlen pw < 2 ^ 29 → length passwd = 120%nat →
  length (buffer ctx) = 64%nat → length (buffer ctx1) = 64%nat →
  length (md5crypt w ctx ctx1 passwd pw salt) = 120%nat ∧
  c_string (md5crypt w ctx ctx1 passwd pw salt) = crypt_string pw (salt_of salt).
Proof.
  intros Hw Hpw Hp Hb Hb1. destruct (salt_of_ok salt) as [Hs Hsl].
  destruct (salt_length_ok (skip_magic salt)) as [Hs8 _].
  unfold md5crypt. split; [by rewrite !length_dsplice|].
  change (take (Z.to_nat (salt_length (skip_magic salt))) (skip_magic salt)) with (salt_of salt).
  assert (take (length (salt_of salt)) (skip_magic salt) = salt_of salt) as Htake.
  { unfold salt_of at 2. rewrite <- Hsl. unfold zlen. by rewrite Nat2Z.id. }
  rewrite <- Hsl in *. rewrite (hash_password_ok w pw (skip_magic salt) (salt_of salt)); try done; [|lia].
  set (s := salt_of salt) in *. set (d := password_digest pw s). unfold zlen in *.
  destruct (encode_final_ok d) as [He Hf].
  change passwd with ([] ++ passwd).
  destruct (dsplice_next 0 (magic ++ [0]) [] passwd 120) as (y1 & -> & Hy1); [done..|cbn; lia|].
  rewrite app_nil_l, <- (app_assoc magic). cbn [length app magic Nat.sub] in Hy1.
  destruct (dsplice_next 3 s magic ([0] ++ y1) 117) as (y2 & -> & Hy2); [by cbn; rewrite Hy1|done|lia|].
  assert (length (magic ++ s) = 3 + length s)%nat as Hms by (by rewrite length_app).
  destruct (dsplice_next (Z.of_nat (length s) + 3) [36] (magic ++ s) y2 (117 - length s))
    as (y3 & -> & Hy3); [done|lia|cbn; lia|].
  assert (length ((magic ++ s) ++ [36%Z]) = 4 + length s)%nat as Hmd by (rewrite length_app, Hms; cbn; lia).
  destruct (dsplice_next (Z.of_nat (length s) + 4) [0] ((magic ++ s) ++ [36]) y3 (116 - length s))
    as (y4 & -> & Hy4); [cbn in Hy3; lia|lia|cbn; lia|].
  assert (Forall (λ b, b ≠ 0) ((magic ++ s) ++ [36])) as Hnz.
  { rewrite !Forall_app. split_and!; [by repeat constructor| |by repeat constructor].
    eapply Forall_impl; [exact Hs|]. by intros b [? _]. }
  rewrite <- (app_assoc (_ ++ _) [0] y4). cbn [app]. rewrite (c_string_app ((magic ++ s) ++ [36])) by done.
  destruct (dsplice_next (Z.of_nat (length ((magic ++ s) ++ [36]))) (encode_final d ++ [0])
    ((magic ++ s) ++ [36]) (0 :: y4) (116 - length s)) as (y5 & -> & _);
    [cbn in Hy4 |- *; lia|done|rewrite length_app, He; cbn; lia|].
  rewrite app_assoc, <- (app_assoc _ [0]). cbn [app]. rewrite c_string_app.
  - unfold crypt_string. by rewrite <- !app_assoc.
  - rewrite Forall_app. split; [done|]. eapply Forall_impl; [exact Hf|]. apply itoa64_nonzero.
Qed.

(** ** Theorem *)

(** [md5crypt] returns a dollar-separated string of the magic, at most
    eight salt characters and 22 printable ones for the digest, which is that
    of the RFC over the password and the salt alone: the buffer it
    returns fits in [passwd], the uninitialised contexts and what [passwd]
    held do not show, and a stored string given back as the salt verifies:
    hashing the same password with it reproduces it. *)
Theorem md5crypt_verifies w ctx ctx1 ctx' ctx1' passwd passwd' pw salt :
  (w = 32 ∨ w = 64) → zlen pw < 2 ^ 29 → length passwd = 120%nat → length passwd' = 120%nat →
  length (buffer ctx) = 64%nat → length (buffer ctx1) = 64%nat →
  length (buffer ctx') = 64%nat → length (buffer ctx1') = 64%nat →
  let stored := c_string (md5crypt w ctx ctx1 passwd pw salt) in
  (∃ s e, stored = magic ++ s ++ 36 :: e ∧ zlen s ≤ 8 ∧ length e = 22%nat ∧
    Forall (λ b, b ∈ itoa64) e ∧ s = salt_of salt ∧ e = encode_final (password_digest pw s)) ∧
  c_string (md5crypt w ctx' ctx1' passwd' pw stored) = stored.
Proof.
  intros Hw Hpw Hp Hp' Hb Hb1 Hb' Hb1' stored.
  destruct (md5crypt_ok w ctx ctx1 passwd pw salt) as [_ E]; [done..|]. fold stored in E.
  destruct (salt_of_ok salt) as [Hs Hsl]. destruct (salt_length_ok (skip_magic salt)) as [Hs8 _].
  assert (zlen (salt_of salt) ≤ 8) as Hz by lia. rewrite E. split.
  - exists (salt_of salt), (encode_final (password_digest pw (salt_of salt))).
    destruct (encode_final_ok (password_digest pw (salt_of salt))). by split_and!.
  - destruct (md5crypt_ok w ctx' ctx1' passwd' pw (crypt_string pw (salt_of salt))) as [_ ->]; [done..|].
    by rewrite salt_of_crypt_string.
Qed.

Lemma md5crypt_verifies_witness :
  let crypt := md5crypt 32 cleared_context cleared_context (replicate 120 0) [112; 119] in
  c_string (crypt (c_string (crypt [36; 49; 36; 115; 97; 108; 116]))) = c_string (crypt [36; 49; 36; 115; 97; 108; 116]).
Proof. by apply (md5crypt_verifies 32); [left| | | | | | |]. Defined.
