(* ===== verification/CMemory.v ===== *)
(** * Byte-addressed memory with blocks

    The memory the XDR filters of the C library work on: bytes at addresses,
    and for each block [malloc] gave out a cell that holds its size.  Lemmas
    speak of a memory by the parts it splits into ([splits]), so that an
    operation on one part leaves the others as they are. *)
From S2P Require Import Prelude Posix.
Local Open Scope Z_scope.

(** ** Cells *)

(** The byte at an address, or the block that starts there. *)
Inductive cell : Type :=
| Byte (a : Z)
| Block (p : Z).

#[export] Instance cell_eq_dec : EqDecision cell.
Proof. solve_decision. Defined.
#[export] Instance cell_countable : Countable cell.
Proof.
  refine (inj_countable' (λ c, match c with Byte a => inl a | Block p => inr p end)
    (λ s, match s with inl a => Byte a | inr p => Block p end) _).
  by intros [].
Defined.

(** A memory, or a part of one. *)
Abbreviation mem := (gmap cell Z).

Implicit Types (m h k : mem) (hs ks : list mem) (p n : Z) (bs xs ys : list Z).

Fixpoint bytes p bs : mem :=
  match bs with
  | [] => ∅
  | b :: bs => <[Byte p := b]> (bytes (p + 1) bs)
  end.

(** A block as [malloc] gives it: its size and its bytes. *)
Definition block p bs : mem := <[Block p := zlen bs]> (bytes p bs).

(** ** Splitting *)

Fixpoint splits m hs : Prop :=
  match hs with
  | [] => m = ∅
  | h :: hs => ∃ m', m = h ∪ m' ∧ h ##ₘ m' ∧ splits m' hs
  end.

#[export] Instance splits_permutation m : Proper ((≡ₚ) ==> iff) (splits m).
Proof.
  assert (∀ hs ks, hs ≡ₚ ks → ∀ m, splits m hs → splits m ks) as Hp.
  { induction 1 as [|h hs ks _ IH|h1 h2 hs|hs1 hs2 hs3 _ IH1 _ IH2]; intros m' Hm; [done| | |by auto].
    - destruct Hm as (m1 & -> & Hd & Hs). exists m1. by auto.
    - destruct Hm as (m1 & -> & Hd1 & m2 & -> & Hd2 & Hs).
      apply map_disjoint_union_r in Hd1 as [Hd12 Hd1].
      exists (h2 ∪ m2). rewrite !map_union_assoc, (map_union_comm h1 h2) by done. split; [done|].
      split; [by apply map_disjoint_union_r|]. by exists m2. }
  intros hs ks Heq. split; apply Hp; [done|by symmetry].
Qed.

Lemma splits_perm m hs ks : splits m hs → hs ≡ₚ ks → splits m ks.
Proof. by intros Hs <-. Qed.

Lemma splits_swap m h k hs : splits m (h :: k :: hs) ↔ splits m (k :: h :: hs).
Proof. by rewrite Permutation_swap. Qed.

Lemma splits_nil_l m hs : splits m (∅ :: hs) ↔ splits m hs.
Proof.
  split.
  - intros (m' & -> & _ & Hs). by rewrite map_empty_union.
  - intros Hs. exists m. rewrite map_empty_union. split_and!; [done|apply map_disjoint_empty_l|done].
Qed.

Lemma splits_one m h : splits m [h] ↔ m = h.
Proof.
  split.
  - intros (m' & -> & _ & ->). apply map_union_empty.
  - intros ->. exists ∅. rewrite map_union_empty. split_and!; [done|apply map_disjoint_empty_r|done].
Qed.

Lemma splits_app m hs ks :
  splits m (hs ++ ks) ↔ ∃ h k, m = h ∪ k ∧ h ##ₘ k ∧ splits h hs ∧ splits k ks.
Proof.
  revert m. induction hs as [|h hs IH]; intros m; cbn [splits app].
  - split.
    + intros Hs. exists ∅, m. rewrite map_empty_union. split_and!; [done|apply map_disjoint_empty_l|done|done].
    + intros (h & k & -> & _ & -> & Hs). by rewrite map_empty_union.
  - split.
    + intros (m' & -> & Hd & Hs). apply IH in Hs as (h' & k & -> & Hd' & Hh & Hk).
      apply map_disjoint_union_r in Hd as [Hd1 Hd2]. exists (h ∪ h'), k.
      rewrite map_union_assoc. split; [done|]. split; [by apply map_disjoint_union_l|]. split; [|done].
      by exists h'.
    + intros (h0 & k & -> & Hd & (m' & -> & Hd' & Hs) & Hk).
      apply map_disjoint_union_l in Hd as [Hd1 Hd2]. exists (m' ∪ k).
      rewrite map_union_assoc. split; [done|]. split; [by apply map_disjoint_union_r|].
      apply IH. by exists m', k.
Qed.

(** A part may be split further, and parts joined. *)
Lemma splits_nest m h hs ks : splits m (h :: hs) → splits h ks → splits m (ks ++ hs).
Proof. intros (m' & -> & Hd & Hs) Hk. apply splits_app. by exists h, m'. Qed.

Lemma splits_join m hs ks : splits m (ks ++ hs) → ∃ h, splits h ks ∧ splits m (h :: hs).
Proof. intros (h & k & -> & Hd & Hh & Hk)%splits_app. exists h. split; [done|]. by exists k. Qed.

Lemma splits_inj m m' hs : splits m hs → splits m' hs → m = m'.
Proof.
  revert m m'. induction hs as [|h hs IH]; intros m m'; cbn [splits].
  - by intros -> ->.
  - intros (k & -> & _ & Hk) (k' & -> & _ & Hk'). by rewrite (IH k k').
Qed.

(** The converse of [splits_nest]. *)
Lemma splits_rejoin m h hs ks : splits h ks → splits m (ks ++ hs) → splits m (h :: hs).
Proof. intros Hh (h' & Hh' & Hm)%splits_join. by rewrite (splits_inj h h' ks). Qed.

Lemma splits_lookup m h hs c v : splits m (h :: hs) → h !! c = Some v → m !! c = Some v.
Proof. intros (m' & -> & _ & _) Hc. by apply lookup_union_Some_l. Qed.

(** An update inside a part. *)
Lemma splits_insert m h hs c v v' :
  splits m (h :: hs) → h !! c = Some v → splits (<[c := v']> m) (<[c := v']> h :: hs).
Proof.
  intros (m' & -> & Hd & Hs) Hc. exists m'. rewrite insert_union_l. split_and!; [done| |done].
  apply map_disjoint_insert_l. split; [|done]. by eapply map_disjoint_Some_l.
Qed.

(** ** Bytes *)

Lemma bytes_lookup p bs a :
  bytes p bs !! Byte a = if decide (p ≤ a) then bs !! Z.to_nat (a - p) else None.
Proof.
  revert p. induction bs as [|b bs IH]; intros p; cbn [bytes].
  { case_decide; by rewrite ?lookup_empty, ?lookup_nil. }
  destruct (decide (a = p)) as [->|Hne].
  - rewrite lookup_insert_eq, decide_True by lia. by rewrite Z.sub_diag.
  - rewrite lookup_insert_ne by congruence. rewrite IH. repeat case_decide; try done; try lia.
    replace (Z.to_nat (a - p)) with (S (Z.to_nat (a - (p + 1)))) by lia. done.
Qed.

Lemma bytes_lookup_block p bs q : bytes p bs !! Block q = None.
Proof. revert p. induction bs as [|b bs IH]; intros p; cbn [bytes]; [done|]. by rewrite lookup_insert_ne. Qed.

Lemma bytes_disjoint p bs h :
  (∀ a, p ≤ a < p + zlen bs → h !! Byte a = None) → bytes p bs ##ₘ h.
Proof.
  intros Hn. apply map_disjoint_spec. intros [a|q] x y Hx Hy; [|by rewrite bytes_lookup_block in Hx].
  rewrite bytes_lookup in Hx. case_decide; [|done]. apply lookup_lt_Some in Hx.
  rewrite Hn in Hy; [done|]. unfold zlen. lia.
Qed.

Lemma bytes_app p xs ys : splits (bytes p (xs ++ ys)) [bytes p xs; bytes (p + zlen xs) ys].
Proof.
  exists (bytes (p + zlen xs) ys). split; [|split; [|by apply splits_one]].
  - revert p. induction xs as [|x xs IH]; intros p; cbn [app bytes].
    { rewrite map_empty_union. f_equal. unfold zlen. cbn [length]. lia. }
    replace (p + zlen (x :: xs)) with (p + 1 + zlen xs) by (unfold zlen; cbn [length]; lia).
    by rewrite IH, insert_union_l.
  - apply bytes_disjoint. intros a Ha. rewrite bytes_lookup, decide_False; [done|]. lia.
Qed.

(** Joining the two halves again. *)
Lemma splits_bytes_app m p xs ys hs :
  splits m (bytes p xs :: bytes (p + zlen xs) ys :: hs) ↔ splits m (bytes p (xs ++ ys) :: hs).
Proof.
  split.
  - intros Hs. apply (splits_join m hs [_; _]) in Hs as (h & Hh & Hs).
    assert (h = bytes p (xs ++ ys)) as <-; [|done].
    destruct Hh as (m1 & -> & _ & Hm1). destruct (bytes_app p xs ys) as (m2 & -> & _ & Hm2).
    apply splits_one in Hm1 as ->. apply splits_one in Hm2 as ->. done.
  - intros Hs. exact (splits_nest _ _ _ _ Hs (bytes_app p xs ys)).
Qed.

Lemma splits_block m p bs hs :
  splits m (block p bs :: hs) ↔ splits m ({[Block p := zlen bs]} :: bytes p bs :: hs).
Proof.
  assert (splits (block p bs) [{[Block p := zlen bs]}; bytes p bs]) as Hb.
  { exists (bytes p bs). unfold block. rewrite insert_union_singleton_l. split; [done|].
    split; [|by apply splits_one]. apply map_disjoint_singleton_l_2, bytes_lookup_block. }
  split.
  - intros Hs. exact (splits_nest _ _ _ _ Hs Hb).
  - intros Hs. apply (splits_join m hs [_; _]) in Hs as (h & Hh & Hs).
    assert (h = block p bs) as <-; [|done].
    destruct Hh as (m1 & -> & _ & Hm1). destruct Hb as (m2 & -> & _ & Hm2).
    apply splits_one in Hm1 as ->. apply splits_one in Hm2 as ->. done.
Qed.

(** Prove a splitting by one of the same parts in another order. *)
Ltac reorder Hs := eapply splits_perm; [exact Hs|solve_Permutation].

(** ** Parts put together *)

Definition join hs : mem := foldr (∪) ∅ hs.

Fixpoint apart hs : bool :=
  match hs with
  | [] => true
  | h :: hs => bool_decide (h ##ₘ join hs) && apart hs
  end.

Lemma splits_apart hs : apart hs = true → splits (join hs) hs.
Proof.
  induction hs as [|h hs IH]; cbn [apart splits join foldr]; [done|].
  intros [Hd Hs]%andb_true_iff. exists (join hs). split; [done|]. split; [by apply bool_decide_eq_true in Hd|auto].
Qed.

(** A cell of one part is not in the others. *)
Lemma splits_elsewhere m h hs c v :
  splits m (h :: hs) → h !! c = Some v → Forall (λ k : mem, k !! c = None) hs.
Proof.
  intros (m' & -> & Hd & Hs) Hc.
  assert (m' !! c = None) as Hm' by by eapply map_disjoint_Some_l. clear Hd.
  revert m' Hs Hm'. induction hs as [|k hs IH]; intros m' Hs Hm'; [done|].
  destruct Hs as (m'' & -> & Hd & Hs). apply lookup_union_None in Hm' as [Hk Hm'']. constructor; [done|]. by apply (IH m'').
Qed.

Lemma splits_nowhere m hs c : splits m hs → Forall (λ k : mem, k !! c = None) hs → m !! c = None.
Proof.
  revert m. induction hs as [|k hs IH]; intros m Hs Hn; [by rewrite Hs, lookup_empty|].
  destruct Hs as (m' & -> & _ & Hs). apply Forall_cons in Hn as [Hk Hn]. apply lookup_union_None. by auto.
Qed.
