(* ===== verification/Xdr.v ===== *)
(** * XDR filters

    [uuu/lib/c/librpc/xdr.c], [xdr_array.c] and [xdr_reference.c] for a
    machine of 32-bit words, little-endian.  A filter is one function for the
    three operations; the stream it works on is an interface ([XdrOps]), the
    [x_ops] vector of the C handle.  An object lives in the memory of
    [CMemory.v]; [mem_alloc] is an allocator that promises fresh blocks. *)
From S2P Require Import Prelude Posix CMemory.
Local Open Scope Z_scope.

Inductive xdr_op : Type := XDR_ENCODE | XDR_DECODE | XDR_FREE.
#[export] Instance xdr_op_eq_dec : EqDecision xdr_op.
Proof. solve_decision. Defined.

Definition BYTES_PER_XDR_UNIT : Z := 4.
Definition LASTUNSIGNED : Z := 2 ^ 32 - 1.
Definition MAX_NETOBJ_SZ : Z := 1024.
Definition sizeof_int : Z := 4.
Definition sizeof_long : Z := 4.
Definition sizeof_short : Z := 2.
Definition sizeof_sizecheck : Z := 4.

Definition i8 (z : Z) : Z := (z + 2 ^ 7) mod 2 ^ 8 - 2 ^ 7.
Definition i16 (z : Z) : Z := (z + 2 ^ 15) mod 2 ^ 16 - 2 ^ 15.

(** ** Interfaces *)

(** The first four operations of [struct xdr_ops].  [x_getlong] gives no
    value and [x_getbytes] the bytes it copied before it failed. *)
Class XdrOps (S : Type) := {
  x_getlong : M S (option Z);
  x_putlong : Z → M S bool;
  x_getbytes : Z → M S (bool * list Z);
  x_putbytes : list Z → M S bool
}.

(** [malloc], which may depend on the answers it gave, granted or not, the
    latest first: an address and what the
    block happens to hold.  [CAllocSpec.malloc_gives_block] shows the
    library's own to be fresh and apart from the live blocks. *)
Class Allocator := {
  place : list bool → mem → Z → option (Z * list Z);
  place_ok t m n p junk :
    0 ≤ n → place t m n = Some (p, junk) →
    0 < p ∧ p + n < 2 ^ 32 ∧ zlen junk = n ∧ Forall byte_ok junk ∧ block p junk ##ₘ m
}.

(** ** The handle and the memory *)

Record xdr_handle (S : Type) : Type := Xdr {
  x_op : xdr_op;
  x_stream : S;
  x_mem : mem;
  x_answers : list bool
}.
Arguments Xdr {S} _ _ _ _.
Arguments x_op {S} _.
Arguments x_stream {S} _.
Arguments x_mem {S} _.
Arguments x_answers {S} _.

Section world.
Context {S : Type}.

Definition set_x_op v (x : xdr_handle S) := Xdr v (x_stream x) (x_mem x) (x_answers x).
Definition set_x_mem v (x : xdr_handle S) := Xdr (x_op x) (x_stream x) v (x_answers x).

Definition on_stream {A} (c : M S A) : M (xdr_handle S) A := λ x,
  match c (x_stream x) with
  | Ok a s => Ok a (Xdr (x_op x) s (x_mem x) (x_answers x))
  | Exit code s => Exit code (Xdr (x_op x) s (x_mem x) (x_answers x))
  | Stuck => Stuck
  | NoFuel => NoFuel
  end.

Definition load_byte (p : Z) : M (xdr_handle S) Z :=
  m ← gets x_mem;
  deref (m !! Byte p).

Fixpoint load_bytes (n : nat) (p : Z) : M (xdr_handle S) (list Z) :=
  match n with
  | O => mret []
  | Datatypes.S n =>
      b ← load_byte p;
      bs ← load_bytes n (p + 1);
      mret (b :: bs)
  end.

Definition store_byte (p b : Z) : M (xdr_handle S) unit :=
  load_byte p;;
  modify (λ x, set_x_mem (<[Byte p := b]> (x_mem x)) x).

Fixpoint store_bytes (p : Z) (bs : list Z) : M (xdr_handle S) unit :=
  match bs with
  | [] => mret tt
  | b :: bs => store_byte p b;; store_bytes (p + 1) bs
  end.

(** Objects of 1, 2 and 4 bytes. *)
Definition load_int (n : nat) (p : Z) : M (xdr_handle S) Z :=
  bs ← load_bytes n p;
  mret (le_value bs).
Definition store_int (n : nat) (p v : Z) : M (xdr_handle S) unit := store_bytes p (le_bytes n v).

Definition load_long p : M (xdr_handle S) Z := v ← load_int 4 p; mret (i32 v).
Definition load_ulong p : M (xdr_handle S) Z := load_int 4 p.
Definition load_short p : M (xdr_handle S) Z := v ← load_int 2 p; mret (i16 v).
Definition load_ushort p : M (xdr_handle S) Z := load_int 2 p.
Definition load_char p : M (xdr_handle S) Z := v ← load_int 1 p; mret (i8 v).
Definition load_uchar p : M (xdr_handle S) Z := load_int 1 p.

(** [strlen]: the fuel is more than the bytes there are. *)
Fixpoint strlen_loop (fuel : nat) (p : Z) : M (xdr_handle S) Z :=
  match fuel with
  | O => no_fuel
  | Datatypes.S fuel =>
      b ← load_byte p;
      if b =? 0 then mret 0 else
      n ← strlen_loop fuel (p + 1);
      mret (n + 1)
  end.
Definition strlen (p : Z) : M (xdr_handle S) Z :=
  m ← gets x_mem;
  strlen_loop (Datatypes.S (size m)) p.

Fixpoint delete_bytes (n : nat) (p : Z) (m : mem) : mem :=
  match n with
  | O => m
  | Datatypes.S n => delete_bytes n (p + 1) (delete (Byte p) m)
  end.

(** [free]: the pointer is null or that of a block. *)
Definition mem_free (p : Z) : M (xdr_handle S) unit :=
  if p =? 0 then mret tt else
  m ← gets x_mem;
  n ← deref (m !! Block p);
  modify (set_x_mem (delete (Block p) (delete_bytes (Z.to_nat n) p m))).

Definition mem_alloc `{Allocator} (n : Z) : M (xdr_handle S) Z := λ x,
  match place (x_answers x) (x_mem x) n with
  | None => Ok 0 (Xdr (x_op x) (x_stream x) (x_mem x) (false :: x_answers x))
  | Some (p, junk) =>
      Ok p (Xdr (x_op x) (x_stream x) (block p junk ∪ x_mem x) (true :: x_answers x))
  end.
End world.

(** ** Integers

    A filter of an integer reads it when it encodes and gives the value to
    assign when it decodes; its pointer argument may be that of an object in
    memory or of a local variable. *)

Section filters.
Context {S : Type} `{XdrOps S} `{Allocator}.
Local Abbreviation X := (M (xdr_handle S)).

Definition xdr_void : X bool := mret true.

(** [( *proc)(&x, objp)] on a handle of its own. *)
Definition xdr_free (proc : Z → Z → X bool) (objp : Z) : X unit :=
  op ← gets x_op;
  modify (set_x_op XDR_FREE);;
  proc objp 0;;
  modify (set_x_op op).

Definition xdr_long_via (lp : X Z) : X (bool * option Z) :=
  op ← gets x_op;
  match op with
  | XDR_ENCODE =>
      l ← lp;
      if (4 =? sizeof_long) || (i32 l =? l) then
        ok ← on_stream (x_putlong l);
        mret (ok, None)
      else mret (false, None)
  | XDR_DECODE =>
      r ← on_stream x_getlong;
      mret (bool_decide (is_Some r), r)
  | XDR_FREE => mret (true, None)
  end.

Definition xdr_u_long_via (ulp : X Z) : X (bool * option Z) :=
  op ← gets x_op;
  match op with
  | XDR_DECODE =>
      r ← on_stream x_getlong;
      mret (bool_decide (is_Some r), u32 <$> r)
  | XDR_ENCODE =>
      l ← ulp;
      if negb (4 =? sizeof_long) && negb (u32 l =? l) then mret (false, None) else
      ok ← on_stream (x_putlong (i32 l));
      mret (ok, None)
  | XDR_FREE => mret (true, None)
  end.

(** The [switch] of [xdr_short] and of the other branches of [xdr_int],
    [xdr_u_int], [xdr_bool] and [xdr_enum]: the long that is sent, and the value of
    the one that is received. *)
Definition xdr_switch (put get : Z → Z) (ip : X Z) : X (bool * option Z) :=
  op ← gets x_op;
  match op with
  | XDR_ENCODE =>
      v ← ip;
      ok ← on_stream (x_putlong (put v));
      mret (ok, None)
  | XDR_DECODE =>
      r ← on_stream x_getlong;
      mret (bool_decide (is_Some r), get <$> r)
  | XDR_FREE => mret (true, None)
  end.

Definition xdr_short_via : X Z → X (bool * option Z) := xdr_switch id i16.
Definition xdr_u_short_via : X Z → X (bool * option Z) := xdr_switch id u16.

Definition xdr_int_via (ip : X Z) : X (bool * option Z) :=
  if sizeof_int =? sizeof_long then xdr_long_via ip
  else if sizeof_int <? sizeof_long then xdr_switch id i32 ip
  else xdr_short_via ip.

Definition xdr_u_int_via (up : X Z) : X (bool * option Z) :=
  if sizeof_int =? sizeof_long then xdr_u_long_via up
  else if sizeof_int <? sizeof_long then xdr_switch id u32 up
  else xdr_short_via up.

Definition xdr_bool_via : X Z → X (bool * option Z) :=
  xdr_switch (λ b, if b =? 0 then 0 else 1) (λ l, if l =? 0 then 0 else 1).

Definition xdr_enum_via (ep : X Z) : X (bool * option Z) :=
  if sizeof_sizecheck =? sizeof_long then xdr_long_via ep
  else if sizeof_sizecheck =? sizeof_int then xdr_switch id i32 ep
  else if sizeof_sizecheck =? sizeof_short then xdr_short_via ep
  else mret (false, None).

(** The filter of an object in memory. *)
Definition at_object (via : X Z → X (bool * option Z)) (load : X Z) (store : Z → X unit) : X bool :=
  r ← via load;
  (match r.2 with Some v => store v | None => mret tt end);;
  mret r.1.

Definition xdr_long p : X bool := at_object xdr_long_via (load_long p) (store_int 4 p).
Definition xdr_u_long p : X bool := at_object xdr_u_long_via (load_ulong p) (store_int 4 p).
Definition xdr_int p : X bool := at_object xdr_int_via (load_long p) (store_int 4 p).
Definition xdr_u_int p : X bool := at_object xdr_u_int_via (load_ulong p) (store_int 4 p).
Definition xdr_short p : X bool := at_object xdr_short_via (load_short p) (store_int 2 p).
Definition xdr_u_short p : X bool := at_object xdr_u_short_via (load_ushort p) (store_int 2 p).
Definition xdr_bool p : X bool := at_object xdr_bool_via (load_long p) (store_int 4 p).
Definition xdr_enum p : X bool := at_object xdr_enum_via (load_long p) (store_int 4 p).

(** [i = ( *cp); if (!xdr_int(xdrs, &i)) return FALSE; *cp = i; return TRUE;] *)
Definition xdr_char cp : X bool :=
  i ← load_char cp;
  r ← xdr_int_via (mret i);
  if negb r.1 then mret false else
  store_int 1 cp (default i r.2);;
  mret true.

Definition xdr_u_char cp : X bool :=
  u ← load_uchar cp;
  r ← xdr_u_int_via (mret u);
  if negb r.1 then mret false else
  store_int 1 cp (default u r.2);;
  mret true.

(** ** Bytes *)

Definition get_bytes_at (addr n : Z) : X bool :=
  r ← on_stream (x_getbytes n);
  store_bytes addr r.2;;
  mret r.1.

Definition xdr_opaque (cp cnt : Z) : X bool :=
  if cnt =? 0 then mret true else
  let rndup := cnt mod BYTES_PER_XDR_UNIT in
  let rndup := if 0 <? rndup then BYTES_PER_XDR_UNIT - rndup else rndup in
  op ← gets x_op;
  match op with
  | XDR_DECODE =>
      ok ← get_bytes_at cp cnt;
      if negb ok then mret false else
      if rndup =? 0 then mret true else
      crud ← on_stream (x_getbytes rndup);
      mret crud.1
  | XDR_ENCODE =>
      bs ← load_bytes (Z.to_nat cnt) cp;
      ok ← on_stream (x_putbytes bs);
      if negb ok then mret false else
      if rndup =? 0 then mret true else
      on_stream (x_putbytes (replicate (Z.to_nat rndup) 0))
  | XDR_FREE => mret true
  end.

Definition xdr_bytes (cpp sizep maxsize : Z) : X bool :=
  sp ← load_ulong cpp;
  ok ← xdr_u_int sizep;
  if negb ok then mret false else
  nodesize ← load_ulong sizep;
  op ← gets x_op;
  if (maxsize <? nodesize) && negb (bool_decide (op = XDR_FREE)) then mret false else
  match op with
  | XDR_DECODE =>
      if nodesize =? 0 then mret true else
      sp ← (if sp =? 0 then
              sp ← mem_alloc nodesize;
              store_int 4 cpp sp;;
              mret sp
            else mret sp);
      if sp =? 0 then mret false else
      xdr_opaque sp nodesize
  | XDR_ENCODE => xdr_opaque sp nodesize
  | XDR_FREE =>
      (if sp =? 0 then mret tt else mem_free sp;; store_int 4 cpp 0);;
      mret true
  end.

(** [struct netobj]: the length, then the pointer. *)
Definition xdr_netobj (np : Z) : X bool := xdr_bytes (np + 4) np MAX_NETOBJ_SZ.

Definition xdr_string (cpp maxsize : Z) : X bool :=
  sp ← load_ulong cpp;
  op ← gets x_op;
  if bool_decide (op = XDR_FREE) && (sp =? 0) then mret true else
  size ← (match op with
          | XDR_DECODE => mret None
          | _ => n ← strlen sp; mret (Some n)
          end);
  r ← xdr_u_int_via (deref size);
  if negb r.1 then mret false else
  size ← deref (match r.2 with Some v => Some v | None => size end);
  if maxsize <? size then mret false else
  let nodesize := u32 (size + 1) in
  match op with
  | XDR_DECODE =>
      if nodesize =? 0 then mret true else
      sp ← (if sp =? 0 then
              sp ← mem_alloc nodesize;
              store_int 4 cpp sp;;
              mret sp
            else mret sp);
      if sp =? 0 then mret false else
      store_byte (u32 (sp + size)) 0;;
      xdr_opaque sp size
  | XDR_ENCODE => xdr_opaque sp size
  | XDR_FREE =>
      mem_free sp;;
      store_int 4 cpp 0;;
      mret true
  end.

Definition xdr_wrapstring (cpp : Z) : X bool :=
  ok ← xdr_string cpp LASTUNSIGNED;
  if (ok : bool) then mret true else mret false.

(** ** Filters of filters

    [xdrproc_t]: the object and the argument callers pass on, which most
    filters do not look at. *)

Fixpoint find_choice (dscm : Z) (choices : list (Z * (Z → Z → X bool))) : option (Z → Z → X bool) :=
  match choices with
  | [] => None
  | (value, proc) :: choices => if value =? dscm then Some proc else find_choice dscm choices
  end.

(** [choices] up to the entry with the null procedure. *)
Definition xdr_union (dscmp unp : Z) (choices : list (Z * (Z → Z → X bool)))
    (dfault : option (Z → Z → X bool)) : X bool :=
  ok ← xdr_enum dscmp;
  if negb ok then mret false else
  dscm ← load_long dscmp;
  match find_choice dscm choices with
  | Some proc => proc unp LASTUNSIGNED
  | None => match dfault with None => mret false | Some proc => proc unp LASTUNSIGNED end
  end.

(** [for (i=c; i; --i)]: [None] when the sum of the sizes overflows. *)
Fixpoint nodesize_loop (i : nat) (elsize nodesize : Z) : option Z :=
  match i with
  | O => Some nodesize
  | Datatypes.S i =>
      let tmp := u32 (nodesize + elsize) in
      if tmp <? nodesize then None else nodesize_loop i elsize tmp
  end.

(** [for (i = 0; (i < c) && stat; i++)] *)
Fixpoint elements_loop (n : nat) (target elsize : Z) (elproc : Z → Z → X bool) : X bool :=
  match n with
  | O => mret true
  | Datatypes.S n =>
      stat ← elproc target LASTUNSIGNED;
      if negb stat then mret false else
      elements_loop n (u32 (target + elsize)) elsize elproc
  end.

Definition free_array (addrp : Z) (stat : bool) : X bool :=
  op ← gets x_op;
  (if bool_decide (op = XDR_FREE) then
     p ← load_ulong addrp;
     mem_free p;;
     store_int 4 addrp 0
   else mret tt);;
  mret stat.

Definition xdr_array (addrp sizep maxsize elsize : Z) (elproc : Z → Z → X bool) : X bool :=
  target ← load_ulong addrp;
  ok ← xdr_u_int sizep;
  if negb ok then mret false else
  c ← load_ulong sizep;
  op ← gets x_op;
  if (maxsize <? c) && negb (bool_decide (op = XDR_FREE)) then mret false else
  match nodesize_loop (Z.to_nat c) elsize 0 with
  | None => mret false
  | Some nodesize =>
      if (target =? 0) && bool_decide (op = XDR_DECODE) then
        if c =? 0 then mret true else
        target ← mem_alloc nodesize;
        store_int 4 addrp target;;
        if target =? 0 then mret false else
        store_bytes target (replicate (Z.to_nat nodesize) 0);;
        stat ← elements_loop (Z.to_nat c) target elsize elproc;
        free_array addrp stat
      else if (target =? 0) && bool_decide (op = XDR_FREE) then mret true else
      stat ← elements_loop (Z.to_nat c) target elsize elproc;
      free_array addrp stat
  end.

Fixpoint xdr_vector (basep : Z) (nelem : nat) (elemsize : Z) (xdr_elem : Z → Z → X bool) : X bool :=
  match nelem with
  | O => mret true
  | Datatypes.S nelem =>
      ok ← xdr_elem basep LASTUNSIGNED;
      if negb ok then mret false else
      xdr_vector (u32 (basep + elemsize)) nelem elemsize xdr_elem
  end.

(** The call of [proc] and what follows it. *)
Definition reference_target (pp loc : Z) (proc : Z → Z → X bool) : X bool :=
  stat ← proc loc LASTUNSIGNED;
  op ← gets x_op;
  (if bool_decide (op = XDR_FREE) then mem_free loc;; store_int 4 pp 0 else mret tt);;
  mret stat.

Definition xdr_reference (pp size : Z) (proc : Z → Z → X bool) : X bool :=
  loc ← load_ulong pp;
  op ← gets x_op;
  if (loc =? 0) && bool_decide (op = XDR_FREE) then mret true else
  if (loc =? 0) && bool_decide (op = XDR_DECODE) then
    loc ← mem_alloc size;
    store_int 4 pp loc;;
    if loc =? 0 then mret false else
    store_bytes loc (replicate (Z.to_nat size) 0);;
    reference_target pp loc proc
  else reference_target pp loc proc.

Definition xdr_pointer (objpp obj_size : Z) (xdr_obj : Z → Z → X bool) : X bool :=
  p ← load_ulong objpp;
  let more_data := if p =? 0 then 0 else 1 in
  r ← xdr_bool_via (mret more_data);
  if negb r.1 then mret false else
  if default more_data r.2 =? 0 then
    store_int 4 objpp 0;;
    mret true
  else xdr_reference objpp obj_size xdr_obj.
End filters.
