(* ===== verification/XdrMemory.v ===== *)
(** * What the memory operations of the filters do

    Loads, stores, allocation and release against the parts a memory splits
    into, and the interface of a stream: what a stream that holds some bytes
    delivers, and what one with room takes. *)
From S2P Require Import Prelude Posix CMemory Xdr.
Local Open Scope Z_scope.

(** ** Buffers *)

(** The [n] bytes at an offset of a buffer, and bytes put there; [None] is
    an access outside it. *)
Definition get_range (off n : Z) (l : list Z) : option (list Z) :=
  if (0 <=? off) && (off + n <=? zlen l) then Some (dread l off n) else None.

Definition put_range (off : Z) (bs l : list Z) : option (list Z) :=
  if (0 <=? off) && (off + zlen bs <=? zlen l) then Some (dsplice off bs l) else None.

Lemma get_range_app xs ys zs off n :
  off = zlen xs → n = zlen ys → get_range off n (xs ++ ys ++ zs) = Some ys.
Proof.
  intros -> ->. unfold get_range, dread, zlen. rewrite !length_app.
  destruct (Z.leb_spec 0 (Z.of_nat (length xs))); [|lia].
  destruct (Z.leb_spec (Z.of_nat (length xs) + Z.of_nat (length ys)) (Z.of_nat (length xs + (length ys + length zs)))); [|lia].
  by rewrite !Nat2Z.id, drop_app_length, take_app_length.
Qed.

Lemma put_range_app xs old zs off bs :
  off = zlen xs → length old = length bs → put_range off bs (xs ++ old ++ zs) = Some (xs ++ bs ++ zs).
Proof.
  intros -> Hl. unfold put_range, dsplice, zlen. rewrite !length_app.
  destruct (Z.leb_spec 0 (Z.of_nat (length xs))); [|lia].
  destruct (Z.leb_spec (Z.of_nat (length xs) + Z.of_nat (length bs)) (Z.of_nat (length xs + (length old + length zs)))); [|lia].
  cbn [andb]. rewrite !Nat2Z.id, take_app_length, take_ge, <- Hl by lia. do 3 f_equal.
  rewrite <- drop_drop, drop_app_length. apply drop_app_length.
Qed.

(** A buffer around a range of it. *)
Lemma range_split (l : list Z) off n :
  0 ≤ off → 0 ≤ n → off + n ≤ zlen l →
  ∃ xs ys zs, l = xs ++ ys ++ zs ∧ zlen xs = off ∧ zlen ys = n.
Proof.
  unfold zlen. intros Ho Hn Hl.
  exists (take (Z.to_nat off) l), (take (Z.to_nat n) (drop (Z.to_nat off) l)), (drop (Z.to_nat n) (drop (Z.to_nat off) l)).
  rewrite !take_drop, !length_take, length_drop. split; [done|]. lia.
Qed.

(** ** Streams *)

(** A long as XDR sends it: four bytes, the high one first. *)
Definition be_bytes (l : Z) : list Z := rev (le_bytes 4 l).

(** [reads bs s]: [bs] is what [s] delivers next.  [writes out n s]: [out]
    was sent through [s], which has room for [n] more bytes. *)
Class XdrStream (S : Type) `{XdrOps S} := {
  reads : list Z → S → Prop;
  writes : list Z → nat → S → Prop;
  stream_ok : S → Prop;
  getlong_reads l bs s :
    reads (be_bytes l ++ bs) s → ∃ s', x_getlong s = Ok (Some (i32 l)) s' ∧ reads bs s';
  getbytes_reads xs bs s :
    zlen xs < 2 ^ 31 → reads (xs ++ bs) s → ∃ s', x_getbytes (zlen xs) s = Ok (true, xs) s' ∧ reads bs s';
  putlong_writes l out n s :
    writes out (4 + n) s → ∃ s', x_putlong l s = Ok true s' ∧ writes (out ++ be_bytes l) n s';
  putbytes_writes xs out n s :
    zlen xs < 2 ^ 31 → writes out (length xs + n) s →
    ∃ s', x_putbytes xs s = Ok true s' ∧ writes (out ++ xs) n s';
  getlong_safe s :
    stream_ok s → ∃ r s', x_getlong s = Ok r s' ∧ stream_ok s' ∧
      ∀ l, r = Some l → - 2 ^ 31 ≤ l < 2 ^ 31;
  getbytes_safe n s :
    stream_ok s → 0 ≤ n < 2 ^ 31 → ∃ b bs s', x_getbytes n s = Ok (b, bs) s' ∧ stream_ok s' ∧
      zlen bs ≤ n ∧ (b = true → zlen bs = n)
}.

(** [ntohl] of four bytes. *)
Definition be_value (bs : list Z) : Z := le_value (rev bs).

Lemma be_value_bytes l : be_value (be_bytes l) = l mod 2 ^ 32.
Proof. unfold be_value, be_bytes. by rewrite rev_involutive, le_value_bytes. Qed.

Lemma length_be_bytes l : length (be_bytes l) = 4%nat.
Proof. done. Qed.

(** ** Memory *)

Section memory.
Context {S : Type}.
Implicit Types (x : xdr_handle S) (hs : list mem) (bs : list Z).

Lemma load_byte_ok p b x : x_mem x !! Byte p = Some b → load_byte p x = Ok b x.
Proof. intros Hb. unfold load_byte. rewrite bind_gets. by rewrite Hb. Qed.

Lemma load_bytes_ok p bs hs x :
  splits (x_mem x) (bytes p bs :: hs) → load_bytes (length bs) p x = Ok bs x.
Proof.
  intros Hs. assert (∀ i b, bs !! i = Some b → x_mem x !! Byte (p + Z.of_nat i) = Some b) as Hb.
  { intros i b Hi. eapply splits_lookup; [exact Hs|]. rewrite bytes_lookup, decide_True by lia.
    rewrite <- Hi. f_equal. lia. }
  clear Hs. revert p Hb. induction bs as [|b bs IH]; intros p Hb; [done|]. cbn [load_bytes length].
  step_with (load_byte_ok p b x ltac:(rewrite <- (Hb O b eq_refl); do 2 f_equal; lia)).
  rewrite (bind_Ok _ _ _ bs x); [done|]. apply IH. intros i c Hi.
  rewrite <- (Hb (Datatypes.S i) c Hi). do 2 f_equal. lia.
Qed.

Lemma bytes_cons_splits m p b bs hs :
  splits m (bytes p (b :: bs) :: hs) ↔ splits m (bytes p [b] :: bytes (p + 1) bs :: hs).
Proof. symmetry. apply (splits_bytes_app m p [b] bs hs). Qed.

Lemma store_byte_ok p old b hs x :
  splits (x_mem x) (bytes p [old] :: hs) →
  ∃ m, store_byte p b x = Ok tt (set_x_mem m x) ∧ splits m (bytes p [b] :: hs).
Proof.
  intros Hs. assert (bytes p [old] !! Byte p = Some old) as Hp by apply lookup_insert_eq.
  unfold store_byte. step_with (load_byte_ok p old x ltac:(by eapply splits_lookup)).
  exists (<[Byte p := b]> (x_mem x)). split; [done|].
  pose proof (splits_insert _ _ _ _ _ b Hs Hp) as Hs'. cbn [bytes] in Hs'.
  by rewrite insert_insert_eq in Hs'.
Qed.

Lemma store_bytes_ok p old bs hs x :
  splits (x_mem x) (bytes p old :: hs) → length old = length bs →
  ∃ m, store_bytes p bs x = Ok tt (set_x_mem m x) ∧ splits m (bytes p bs :: hs).
Proof.
  revert p old hs x. induction bs as [|b bs IH]; intros p old hs x Hs Hl.
  { destruct old; [|done]. exists (x_mem x). split; [|done]. by destruct x. }
  destruct old as [|o old]; [done|]. apply bytes_cons_splits in Hs.
  destruct (store_byte_ok p o b _ x Hs) as (m & E & Hm). cbn [store_bytes]. step_with E.
  apply splits_swap in Hm. destruct (IH (p + 1) old _ (set_x_mem m x) Hm) as (m' & E' & Hs'); [by injection Hl|].
  exists m'. rewrite E'. split; [done|]. by apply bytes_cons_splits, splits_swap.
Qed.

(** A prefix only. *)
Lemma store_prefix_ok p old bs hs x :
  splits (x_mem x) (bytes p old :: hs) → (length bs ≤ length old)%nat →
  ∃ m new, store_bytes p bs x = Ok tt (set_x_mem m x) ∧ splits m (bytes p new :: hs) ∧
    length new = length old ∧ take (length bs) new = bs.
Proof.
  intros Hs Hl. rewrite <- (take_drop (length bs) old) in Hs. apply splits_bytes_app in Hs.
  destruct (store_bytes_ok _ _ bs _ x Hs) as (m & E & Hm); [rewrite length_take; lia|].
  exists m, (bs ++ drop (length bs) old). split; [done|]. split.
  - apply splits_bytes_app. assert (zlen bs = zlen (take (length bs) old)) as ->; [|done].
    unfold zlen. rewrite length_take. lia.
  - rewrite length_app, length_drop, take_app_length. split; [lia|done].
Qed.

(** *** Allocation *)

Lemma mem_alloc_ok `{Allocator} n hs x :
  splits (x_mem x) hs → 0 ≤ n →
  ∃ p m b, mem_alloc n x = Ok p (Xdr (x_op x) (x_stream x) m (b :: x_answers x)) ∧
    ((b = false ∧ p = 0 ∧ m = x_mem x) ∨
     ∃ junk, b = true ∧ 0 < p ∧ p + n < 2 ^ 32 ∧ zlen junk = n ∧ splits m (block p junk :: hs)).
Proof.
  intros Hs Hn. unfold mem_alloc. destruct (place _ _ _) as [[p junk]|] eqn:Ep.
  - destruct (place_ok _ _ _ _ _ Hn Ep) as (Hp & Hb & Hj & _ & Hd). exists p, (block p junk ∪ x_mem x), true.
    split; [done|]. right. exists junk. split_and!; try lia. by exists (x_mem x).
  - exists 0, (x_mem x), false. split; [done|]. by left.
Qed.

Lemma delete_bytes_lookup n p m c :
  delete_bytes n p m !! c =
    match c with
    | Byte a => if decide (p ≤ a < p + Z.of_nat n) then None else m !! c
    | Block _ => m !! c
    end.
Proof.
  revert p m. induction n as [|n IH]; intros p m; cbn [delete_bytes].
  { destruct c; [|done]. by rewrite decide_False by lia. }
  rewrite IH. destruct c as [a|q]; [|by rewrite lookup_delete_ne].
  destruct (decide (a = p)) as [->|Hne].
  - rewrite lookup_delete_eq. repeat case_decide; (done || lia).
  - rewrite lookup_delete_ne by congruence. repeat case_decide; (done || lia).
Qed.

Lemma mem_free_ok p bs hs x :
  splits (x_mem x) (block p bs :: hs) → p ≠ 0 →
  ∃ m, mem_free p x = Ok tt (set_x_mem m x) ∧ splits m hs.
Proof.
  intros Hs Hp. unfold mem_free. destruct (Z.eqb_spec p 0); [done|]. rewrite bind_gets.
  assert (block p bs !! Block p = Some (zlen bs)) as Hb by apply lookup_insert_eq.
  rewrite (splits_lookup _ _ _ _ _ Hs Hb), bind_deref. eexists. split; [done|].
  destruct Hs as (m & -> & Hd & Hs). unfold zlen. rewrite Nat2Z.id.
  assert (delete (Block p) (delete_bytes (length bs) p (block p bs ∪ m)) = m) as ->; [|done].
  apply map_eq. intros c. rewrite map_disjoint_alt in Hd. specialize (Hd c).
  destruct (decide (c = Block p)) as [->|Hc].
  { rewrite lookup_delete_eq. destruct Hd as [Hd|Hd]; [|done]. by rewrite Hb in Hd. }
  rewrite lookup_delete_ne, delete_bytes_lookup by done.
  assert (block p bs !! c = bytes p bs !! c) as Eb by (by apply lookup_insert_ne).
  destruct c as [a|q]; [rewrite bytes_lookup in Eb|rewrite bytes_lookup_block in Eb].
  - destruct (decide (p ≤ a < p + Z.of_nat (length bs))) as [Ha|Ha].
    + rewrite decide_True in Eb by lia. destruct Hd as [Hd|Hd]; [|done]. exfalso.
      destruct (lookup_lt_is_Some_2 bs (Z.to_nat (a - p))) as [b Hbb]; [lia|]. congruence.
    + apply lookup_union_r. rewrite Eb. case_decide; [|done]. apply lookup_ge_None_2. lia.
  - by apply lookup_union_r.
Qed.

(** *** Strings *)

Lemma size_bytes p bs : size (bytes p bs) = length bs.
Proof.
  revert p. induction bs as [|b bs IH]; intros p; cbn [bytes length]; [done|].
  rewrite map_size_insert_None, IH; [done|]. rewrite bytes_lookup, decide_False; [done|lia].
Qed.

Lemma strlen_loop_ok fuel p s rest x :
  (∀ i b, (s ++ 0 :: rest) !! i = Some b → x_mem x !! Byte (p + Z.of_nat i) = Some b) →
  Forall (λ b, b ≠ 0) s → (length s < fuel)%nat → strlen_loop fuel p x = Ok (zlen s) x.
Proof.
  revert p s. induction fuel as [|fuel IH]; intros p s Hb Hs Hf; [lia|].
  destruct s as [|b s]; cbn [strlen_loop app] in *.
  - by step_with (load_byte_ok p 0 x ltac:(rewrite <- (Hb O 0 eq_refl); do 2 f_equal; lia)).
  - step_with (load_byte_ok p b x ltac:(rewrite <- (Hb O b eq_refl); do 2 f_equal; lia)).
    apply Forall_cons in Hs as [Hb0 Hs]. destruct (Z.eqb_spec b 0); [done|].
    rewrite (bind_Ok _ _ _ (zlen s) x).
    + f_equal. unfold zlen. cbn [length]. lia.
    + apply IH; [|done|cbn [length] in Hf; lia]. intros i c Hi.
      rewrite <- (Hb (Datatypes.S i) c Hi). do 2 f_equal. lia.
Qed.

Lemma strlen_ok p s rest hs x :
  splits (x_mem x) (bytes p (s ++ 0 :: rest) :: hs) → Forall (λ b, b ≠ 0) s →
  strlen p x = Ok (zlen s) x.
Proof.
  intros Hm Hs. unfold strlen. rewrite bind_gets. apply (strlen_loop_ok _ _ _ rest); [|done|].
  - intros i b Hi. eapply splits_lookup; [exact Hm|]. rewrite bytes_lookup, decide_True by lia.
    rewrite <- Hi. f_equal. lia.
  - destruct Hm as (m & -> & Hd & _).
    rewrite map_size_disj_union by done. rewrite size_bytes, length_app. cbn [length]. lia.
Qed.
End memory.
