(* ===== verification/XdrCodec.v ===== *)
(** * What a filter promises: codecs

    A codec is a filter with the values it carries: their encoding on the
    stream, how an object in memory represents one, and which objects a
    decoding that failed may leave.  [CodecOk] states the contract for the
    three operations; this file proves it for the integers. *)
From S2P Require Import Prelude Posix CMemory Xdr XdrMemory.
Local Open Scope Z_scope.

Definition zeros (n : nat) : list Z := replicate n 0.

(** An object of [n] bytes at [p]. *)
Definition addr_ok (p : Z) (n : nat) : Prop := 0 < p ∧ p + Z.of_nat n < 2 ^ 32.

(** What a decoding of a valid value answers: success and [P], or that an
    allocation it asked for was refused; [t] and [t'] are the answers before
    and after. *)
Definition alloc_fails (t t' : list bool) : Prop := ∃ k, t' = k ++ t ∧ false ∈ k.
Definition decoded (b : bool) (t t' : list bool) (P : Prop) : Prop :=
  t `suffix_of` t' ∧ if b then P else alloc_fails t t'.

Lemma decoded_same b t (P : Prop) : b = true → P → decoded b t t P.
Proof. by intros ->. Qed.

Lemma decoded_step b t t1 t2 (P Q : Prop) :
  t `suffix_of` t1 → decoded b t1 t2 P → (b = true → P → Q) → decoded b t t2 Q.
Proof.
  intros Hs [Hs' Hb] HPQ. split; [by trans t1|]. destruct b; [auto|].
  destruct Hb as (k & -> & Hk), Hs as (k' & ->). exists (k ++ k'). rewrite app_assoc. split; [done|].
  apply elem_of_app. by left.
Qed.

Lemma decoded_impl b t t' (P Q : Prop) : decoded b t t' P → (b = true → P → Q) → decoded b t t' Q.
Proof. by apply decoded_step. Qed.

(** An allocation was the last that was asked for. *)
Lemma decoded_refused t (P : Prop) : decoded false t (false :: t) P.
Proof. split; [by apply suffix_cons_r|]. exists [false]. split; [done|by left]. Qed.

Lemma decoded_granted b t t' (P : Prop) : b = true → P → t `suffix_of` t' → decoded b t t' P.
Proof. by intros ->. Qed.

Section codec.
Context {S : Type} `{XdrStream S} `{Allocator}.
Local Abbreviation X := (M (xdr_handle S)).

(** [c_part b p h]: [h] is an object of the type at [p], complete ([b]) or as
    far as a failed decoding got; freeing it is safe and, when complete,
    succeeds. *)
Record codec : Type := Codec {
  c_val : Type;
  c_size : nat;
  c_proc : Z → Z → X bool;
  c_enc : c_val → list Z;
  c_valid : c_val → Prop;
  c_rep : c_val → Z → mem → Prop;
  c_part : bool → Z → mem → Prop
}.

Class CodecOk (c : codec) : Prop := {
  c_encode v p arg m h hs s t out n :
    addr_ok p (c_size c) → c_valid c v → c_rep c v p h → splits m (h :: hs) →
    writes out (length (c_enc c v) + n) s →
    ∃ s' m' t', c_proc c p arg (Xdr XDR_ENCODE s m t) = Ok true (Xdr XDR_ENCODE s' m' t') ∧
      splits m' (h :: hs) ∧ writes (out ++ c_enc c v) n s';
  c_decode v p arg m hs s t bs :
    addr_ok p (c_size c) → c_valid c v → splits m (bytes p (zeros (c_size c)) :: hs) →
    reads (c_enc c v ++ bs) s →
    ∃ b s' m' t' h, c_proc c p arg (Xdr XDR_DECODE s m t) = Ok b (Xdr XDR_DECODE s' m' t') ∧
      splits m' (h :: hs) ∧
      decoded b t t' (reads bs s' ∧ c_rep c v p h);
  c_safe p arg m hs s t :
    addr_ok p (c_size c) → splits m (bytes p (zeros (c_size c)) :: hs) → stream_ok s →
    ∃ b s' m' t' h, c_proc c p arg (Xdr XDR_DECODE s m t) = Ok b (Xdr XDR_DECODE s' m' t') ∧
      splits m' (h :: hs) ∧ stream_ok s' ∧ c_part c b p h;
  c_free b p arg m h hs s t :
    addr_ok p (c_size c) → c_part c b p h → splits m (h :: hs) →
    ∃ r m' t' bs, c_proc c p arg (Xdr XDR_FREE s m t) = Ok r (Xdr XDR_FREE s m' t') ∧
      splits m' (bytes p bs :: hs) ∧ length bs = c_size c ∧ (b = true → r = true);
  c_zero p : ∃ b, c_part c b p (bytes p (zeros (c_size c)));
  c_rep_part v p h : c_valid c v → c_rep c v p h → c_part c true p h
}.

Lemma on_stream_ok {A} (c : M S A) a op s s' m t :
  c s = Ok a s' → on_stream c (Xdr op s m t) = Ok a (Xdr op s' m t).
Proof. intros E. unfold on_stream. cbn [x_stream]. by rewrite E. Qed.

(** ** Integers *)

Definition int_codec (n : nat) (lo hi : Z) (proc : Z → X bool) : codec :=
  Codec Z n (λ p _, proc p) be_bytes (λ v, lo ≤ v < hi)
    (λ v p h, h = bytes p (le_bytes n v))
    (λ _ p h, ∃ bs, length bs = n ∧ h = bytes p bs).

Lemma store_int_ok (n : nat) p v old hs op (s : S) m t :
  splits m (bytes p old :: hs) → length old = n →
  ∃ m', store_int n p v (Xdr op s m t) = Ok tt (Xdr op s m' t) ∧ splits m' (bytes p (le_bytes n v) :: hs).
Proof.
  intros Hs Hl. destruct (store_bytes_ok p old (le_bytes n v) hs (Xdr op s m t) Hs) as (m' & E & Hm).
  - by rewrite length_le_bytes.
  - exists m'. by split.
Qed.

Lemma load_int_ok (n : nat) p v hs (x : xdr_handle S) :
  splits (x_mem x) (bytes p (le_bytes n v) :: hs) →
  load_int n p x = Ok (v mod 256 ^ Z.of_nat n) x.
Proof.
  intros Hs. unfold load_int. pose proof (load_bytes_ok p _ hs x Hs) as E.
  rewrite length_le_bytes in E. step_with E. by rewrite le_value_bytes.
Qed.

(** A filter whose three operations are those of [xdr_switch]. *)
Section integer.
Context (n : nat) (lo hi : Z) (via : X Z → X (bool * option Z)) (load : Z → X Z).
Context (put get : Z → Z).
Context (Hvia : ∀ ip x, via ip x = xdr_switch put get ip x).
Context (Hload : ∀ v p hs x, lo ≤ v < hi → splits (x_mem x) (bytes p (le_bytes n v) :: hs) → load p x = Ok v x).
Context (Hput : ∀ v, lo ≤ v < hi → get (i32 (put v)) = v ∧ be_bytes (put v) = be_bytes v).

Lemma via_encode ip v m s t out k :
  lo ≤ v < hi → ip (Xdr XDR_ENCODE s m t) = Ok v (Xdr XDR_ENCODE s m t) → writes out (4 + k) s →
  ∃ s', via ip (Xdr XDR_ENCODE s m t) = Ok (true, None) (Xdr XDR_ENCODE s' m t) ∧
    writes (out ++ be_bytes v) k s'.
Proof.
  intros Hv Hip Hw. rewrite Hvia. unfold xdr_switch. rewrite bind_gets. cbn [x_op]. step_with Hip.
  destruct (putlong_writes (put v) out k s Hw) as (s' & E & Hw').
  step_with (on_stream_ok (x_putlong (put v)) true XDR_ENCODE s s' m t E).
  exists s'. split; [done|]. by rewrite <- (proj2 (Hput v Hv)).
Qed.

Lemma via_decode ip v m s t bs :
  lo ≤ v < hi → reads (be_bytes v ++ bs) s →
  ∃ s', via ip (Xdr XDR_DECODE s m t) = Ok (true, Some v) (Xdr XDR_DECODE s' m t) ∧ reads bs s'.
Proof.
  intros Hv Hr. rewrite Hvia. unfold xdr_switch. rewrite bind_gets. cbn [x_op].
  destruct (Hput v Hv) as [Hg Hb]. rewrite <- Hb in Hr.
  destruct (getlong_reads (put v) bs s Hr) as (s' & E & Hr').
  step_with (on_stream_ok _ _ XDR_DECODE s s' m t E). exists s'. split; [|done].
  cbn. by rewrite Hg.
Qed.

Lemma via_safe ip m s t :
  stream_ok s →
  ∃ r s', via ip (Xdr XDR_DECODE s m t) = Ok (bool_decide (is_Some r), r) (Xdr XDR_DECODE s' m t) ∧
    stream_ok s' ∧ (∀ v, r = Some v → ∃ l, - 2 ^ 31 ≤ l < 2 ^ 31 ∧ v = get l).
Proof.
  intros Hr. rewrite Hvia. unfold xdr_switch. rewrite bind_gets. cbn [x_op].
  destruct (getlong_safe s Hr) as (r & s' & E & Hr' & Hl).
  step_with (on_stream_ok _ _ XDR_DECODE s s' m t E). exists (get <$> r), s'. split.
  - unfold mret, M_ret. f_equal. f_equal. apply bool_decide_ext. by rewrite fmap_is_Some.
  - split; [done|]. intros v Hv. destruct r as [l|]; [|done]. injection Hv as <-. exists l. split; [by apply Hl|done].
Qed.

Lemma via_free ip m (s : S) t : via ip (Xdr XDR_FREE s m t) = Ok (true, None) (Xdr XDR_FREE s m t).
Proof. by rewrite Hvia. Qed.

Lemma int_codec_ok :
  CodecOk (int_codec n lo hi (λ p, at_object via (load p) (store_int n p))).
Proof.
  unfold at_object. split; cbn [int_codec c_proc c_size c_enc c_valid c_rep c_part c_val].
  - intros v p _ m h hs s t out k _ Hv -> Hs Hw.
    pose proof (Hload v p hs (Xdr XDR_ENCODE s m t) Hv Hs) as Hl.
    destruct (via_encode (load p) v m s t out k Hv Hl Hw) as (s' & E & Hw').
    exists s', m, t. step_with E. done.
  - intros v p _ m hs s t bs _ Hv Hs Hr.
    destruct (via_decode (load p) v m s t bs Hv Hr) as (s' & E & Hr').
    destruct (store_int_ok n p v (zeros n) hs XDR_DECODE s' m t Hs) as (m' & E' & Hm); [apply length_replicate|].
    eexists true, s', m', t, _. step_with E. cbn [fst snd]. by step_with E'.
  - intros p _ m hs s t _ Hs Hr. destruct (via_safe (load p) m s t Hr) as (r & s' & E & Hr' & _).
    destruct r as [v|]; cbn in E.
    + destruct (store_int_ok n p v (zeros n) hs XDR_DECODE s' m t Hs) as (m' & E' & Hm); [apply length_replicate|].
      eexists true, s', m', t, _. step_with E. cbn [fst snd]. step_with E'. split; [done|]. split; [done|].
      split; [done|]. eexists. split; [|done]. apply length_le_bytes.
    + eexists false, s', m, t, _. step_with E. split; [done|]. split; [done|]. split; [done|].
      exists (zeros n). split; [apply length_replicate|done].
  - intros b p _ m h hs s t _ (bs & Hb & ->) Hs. exists true, m, t, bs. by step_with (via_free (load p) m s t).
  - intros p. exists true, (zeros n). split; [apply length_replicate|done].
  - intros v p h _ ->. eexists. split; [|done]. apply length_le_bytes.
Qed.
End integer.
End codec.
