(* ===== verification/XdrScalars.v ===== *)
(** * The integer filters and opaque data

    [xdr_long], [xdr_u_long], [xdr_int], [xdr_u_int], [xdr_short],
    [xdr_u_short], [xdr_char], [xdr_u_char], [xdr_bool], [xdr_enum] and
    [xdr_opaque] keep the contract of [XdrCodec.v]. *)
From S2P Require Import Prelude Posix CMemory Xdr XdrMemory XdrCodec.
Local Open Scope Z_scope.

Section scalars.
Context {S : Type} `{XdrStream S} `{Allocator}.
Local Abbreviation X := (M (xdr_handle S)).
Implicit Types (ip : X Z) (x : xdr_handle S).

Lemma long_via_switch ip x : xdr_long_via ip x = xdr_switch id id ip x.
Proof.
  unfold xdr_long_via, xdr_switch. rewrite !bind_gets. destruct (x_op x); [done| |done].
  unfold mbind, M_bind. destruct (on_stream x_getlong x) as [r x'| | |]; [|done..]. by destruct r.
Qed.

Lemma u_long_via_switch ip x : xdr_u_long_via ip x = xdr_switch i32 u32 ip x.
Proof. unfold xdr_u_long_via, xdr_switch. rewrite !bind_gets. by destruct (x_op x). Qed.

Lemma int_via_switch ip x : xdr_int_via ip x = xdr_switch id id ip x.
Proof. apply long_via_switch. Qed.
Lemma u_int_via_switch ip x : xdr_u_int_via ip x = xdr_switch i32 u32 ip x.
Proof. apply u_long_via_switch. Qed.
Lemma enum_via_switch ip x : xdr_enum_via ip x = xdr_switch id id ip x.
Proof. apply long_via_switch. Qed.

Lemma i32_mod z : i32 z mod 2 ^ 32 = z mod 2 ^ 32.
Proof. unfold i32. rewrite Zminus_mod_idemp_l. f_equal. lia. Qed.
Lemma i32_u32 z : i32 (u32 z) = i32 z.
Proof. unfold i32, u32. by rewrite Z.add_mod_idemp_l. Qed.
Lemma be_bytes_i32 v : be_bytes (i32 v) = be_bytes v.
Proof.
  unfold be_bytes. f_equal. rewrite <- (le_bytes_mod 4 (i32 v)), <- (le_bytes_mod 4 v).
  change (256 ^ Z.of_nat 4) with (2 ^ 32). by rewrite i32_mod.
Qed.

Lemma i16_small z : - 2 ^ 15 ≤ z < 2 ^ 15 → i16 z = z.
Proof. intros ?. unfold i16. rewrite Z.mod_small; lia. Qed.
Lemma i8_small z : - 2 ^ 7 ≤ z < 2 ^ 7 → i8 z = z.
Proof. intros ?. unfold i8. rewrite Z.mod_small; lia. Qed.

(** Reading an integer back at its type. *)
Lemma load_long_ok v p hs x :
  - 2 ^ 31 ≤ v < 2 ^ 31 → splits (x_mem x) (bytes p (le_bytes 4 v) :: hs) → load_long p x = Ok v x.
Proof.
  intros Hv Hs. unfold load_long. step_with (load_int_ok 4 p v hs x Hs).
  change (256 ^ Z.of_nat 4) with (2 ^ 32). unfold mret, M_ret. f_equal.
  change (v mod 2 ^ 32) with (u32 v). by rewrite i32_u32, i32_small.
Qed.
Lemma load_ulong_ok v p hs x :
  0 ≤ v < 2 ^ 32 → splits (x_mem x) (bytes p (le_bytes 4 v) :: hs) → load_ulong p x = Ok v x.
Proof.
  intros Hv Hs. unfold load_ulong. rewrite (load_int_ok 4 p v hs x Hs). f_equal. by apply Z.mod_small.
Qed.
Lemma load_short_ok v p hs x :
  - 2 ^ 15 ≤ v < 2 ^ 15 → splits (x_mem x) (bytes p (le_bytes 2 v) :: hs) → load_short p x = Ok v x.
Proof.
  intros Hv Hs. unfold load_short. step_with (load_int_ok 2 p v hs x Hs). unfold mret, M_ret. f_equal.
  change (256 ^ Z.of_nat 2) with (2 ^ 16). unfold i16. rewrite Z.add_mod_idemp_l by lia.
  change (i16 v = v). by apply i16_small.
Qed.
Lemma load_ushort_ok v p hs x :
  0 ≤ v < 2 ^ 16 → splits (x_mem x) (bytes p (le_bytes 2 v) :: hs) → load_ushort p x = Ok v x.
Proof.
  intros Hv Hs. unfold load_ushort. rewrite (load_int_ok 2 p v hs x Hs). f_equal. by apply Z.mod_small.
Qed.
Lemma load_char_ok v p hs x :
  - 2 ^ 7 ≤ v < 2 ^ 7 → splits (x_mem x) (bytes p (le_bytes 1 v) :: hs) → load_char p x = Ok v x.
Proof.
  intros Hv Hs. unfold load_char. step_with (load_int_ok 1 p v hs x Hs). unfold mret, M_ret. f_equal.
  change (256 ^ Z.of_nat 1) with (2 ^ 8). unfold i8. rewrite Z.add_mod_idemp_l by lia.
  change (i8 v = v). by apply i8_small.
Qed.
Lemma load_uchar_ok v p hs x :
  0 ≤ v < 2 ^ 8 → splits (x_mem x) (bytes p (le_bytes 1 v) :: hs) → load_uchar p x = Ok v x.
Proof.
  intros Hv Hs. unfold load_uchar. rewrite (load_int_ok 1 p v hs x Hs). f_equal. by apply Z.mod_small.
Qed.

(** What is sent comes back as it was. *)
Lemma send_long v : - 2 ^ 31 ≤ v < 2 ^ 31 → id (i32 (id v)) = v ∧ be_bytes (id v) = be_bytes v.
Proof. intros Hv. split; [by apply i32_small|done]. Qed.
Lemma send_ulong v : 0 ≤ v < 2 ^ 32 → u32 (i32 (i32 v)) = v ∧ be_bytes (i32 v) = be_bytes v.
Proof. intros Hv. rewrite !u32_i32, be_bytes_i32. split; [by apply u32_small|done]. Qed.
Lemma send_short v : - 2 ^ 15 ≤ v < 2 ^ 15 → i16 (i32 (id v)) = v ∧ be_bytes (id v) = be_bytes v.
Proof. intros Hv. unfold id. rewrite i32_small by lia. split; [by apply i16_small|done]. Qed.
Lemma send_ushort v : 0 ≤ v < 2 ^ 16 → u16 (i32 (id v)) = v ∧ be_bytes (id v) = be_bytes v.
Proof. intros Hv. unfold id. rewrite i32_small by lia. split; [by apply u16_small|done]. Qed.
Lemma send_bool v :
  0 ≤ v < 2 → (if i32 (if v =? 0 then 0 else 1) =? 0 then 0 else 1) = v ∧
    be_bytes (if v =? 0 then 0 else 1) = be_bytes v.
Proof. intros Hv. assert (v = 0 ∨ v = 1) as [-> | ->] by lia; done. Qed.

Definition long_codec : codec := int_codec 4 (- 2 ^ 31) (2 ^ 31) xdr_long.
Definition u_long_codec : codec := int_codec 4 0 (2 ^ 32) xdr_u_long.
Definition int32_codec : codec := int_codec 4 (- 2 ^ 31) (2 ^ 31) xdr_int.
Definition u_int_codec : codec := int_codec 4 0 (2 ^ 32) xdr_u_int.
Definition short_codec : codec := int_codec 2 (- 2 ^ 15) (2 ^ 15) xdr_short.
Definition u_short_codec : codec := int_codec 2 0 (2 ^ 16) xdr_u_short.
Definition bool_codec : codec := int_codec 4 0 2 xdr_bool.
Definition enum_codec : codec := int_codec 4 (- 2 ^ 31) (2 ^ 31) xdr_enum.

#[export] Instance long_codec_ok : CodecOk long_codec.
Proof. apply (int_codec_ok _ _ _ _ _ _ _ long_via_switch load_long_ok send_long). Qed.
#[export] Instance u_long_codec_ok : CodecOk u_long_codec.
Proof. apply (int_codec_ok _ _ _ _ _ _ _ u_long_via_switch load_ulong_ok send_ulong). Qed.
#[export] Instance int32_codec_ok : CodecOk int32_codec.
Proof. apply (int_codec_ok _ _ _ _ _ _ _ int_via_switch load_long_ok send_long). Qed.
#[export] Instance u_int_codec_ok : CodecOk u_int_codec.
Proof. apply (int_codec_ok _ _ _ _ _ _ _ u_int_via_switch load_ulong_ok send_ulong). Qed.
#[export] Instance short_codec_ok : CodecOk short_codec.
Proof. by apply (int_codec_ok 2 (- 2 ^ 15) (2 ^ 15) _ _ id i16 (λ _ _, eq_refl) load_short_ok send_short). Qed.
#[export] Instance u_short_codec_ok : CodecOk u_short_codec.
Proof. by apply (int_codec_ok 2 0 (2 ^ 16) _ _ id u16 (λ _ _, eq_refl) load_ushort_ok send_ushort). Qed.
#[export] Instance enum_codec_ok : CodecOk enum_codec.
Proof. apply (int_codec_ok _ _ _ _ _ _ _ enum_via_switch load_long_ok send_long). Qed.
#[export] Instance bool_codec_ok : CodecOk bool_codec.
Proof.
  eapply (int_codec_ok 4 0 2 _ _ _ _ (λ _ _, eq_refl)); [|apply send_bool].
  intros v p hs x Hv. apply load_long_ok. lia.
Qed.

(** ** Characters: an [int] local in between *)

Section char.
Context (lo hi : Z) (via : X Z → X (bool * option Z)) (load : Z → X Z) (conv put get : Z → Z).
Context (Hvia : ∀ ip x, via ip x = xdr_switch put get ip x).
Context (Hload : ∀ p bs hs x, length bs = 1%nat → splits (x_mem x) (bytes p bs :: hs) →
  load p x = Ok (conv (le_value bs)) x).
Context (Hconv : ∀ v, lo ≤ v < hi → conv (le_value (le_bytes 1 v)) = v).
Context (Hput : ∀ v, lo ≤ v < hi → get (i32 (put v)) = v ∧ be_bytes (put v) = be_bytes v).

Definition char_proc (cp : Z) : X bool :=
  i ← load cp;
  r ← via (mret i);
  if negb r.1 then mret false else
  store_int 1 cp (default i r.2);;
  mret true.

Lemma char_proc_ok : CodecOk (int_codec 1 lo hi char_proc).
Proof.
  assert (∀ p bs hs op (s : S) m t, length bs = 1%nat → splits m (bytes p bs :: hs) →
    load p (Xdr op s m t) = Ok (conv (le_value bs)) (Xdr op s m t)) as Hl.
  { intros p bs hs op s m t Hb Hs. by apply (Hload p bs hs). }
  unfold char_proc. split; cbn [int_codec c_proc c_size c_enc c_valid c_rep c_part c_val].
  - intros v p _ m h hs s t out k _ Hv -> Hs Hw.
    step_with (Hl p (le_bytes 1 v) hs XDR_ENCODE s m t eq_refl Hs). rewrite Hconv by done.
    destruct (via_encode lo hi via put get Hvia Hput (mret v : X Z) v m s t out k Hv eq_refl Hw) as (s' & E & Hw').
    destruct (store_int_ok 1 p v (le_bytes 1 v) hs XDR_ENCODE s' m t Hs eq_refl) as (m' & E' & Hm).
    exists s', m', t. step_with E. cbn [fst snd negb default]. by step_with E'.
  - intros v p _ m hs s t bs _ Hv Hs Hr. step_with (Hl p (zeros 1) hs XDR_DECODE s m t eq_refl Hs).
    destruct (via_decode lo hi via put get Hvia Hput (mret (conv (le_value (zeros 1))) : X Z) v m s t bs Hv Hr)
      as (s' & E & Hr').
    destruct (store_int_ok 1 p v (zeros 1) hs XDR_DECODE s' m t Hs eq_refl) as (m' & E' & Hm).
    eexists true, s', m', t, _. step_with E. cbn [fst snd negb default]. by step_with E'.
  - intros p _ m hs s t _ Hs Hr. step_with (Hl p (zeros 1) hs XDR_DECODE s m t eq_refl Hs).
    destruct (via_safe via put get Hvia (mret (conv (le_value (zeros 1))) : X Z) m s t Hr) as (r & s' & E & Hr' & _).
    destruct r as [v|]; cbn in E.
    + destruct (store_int_ok 1 p v (zeros 1) hs XDR_DECODE s' m t Hs eq_refl) as (m' & E' & Hm).
      eexists true, s', m', t, _. step_with E. cbn [fst snd negb default]. step_with E'.
      split_and!; [done..|]. by exists (le_bytes 1 v).
    + eexists false, s', m, t, _. step_with E. split_and!; [done..|]. by exists (zeros 1).
  - intros b p _ m h hs s t _ (bs & Hb & ->) Hs. step_with (Hl p bs hs XDR_FREE s m t Hb Hs).
    step_with (via_free via put get Hvia (mret (conv (le_value bs)) : X Z) m s t). cbn [fst snd negb default].
    destruct (store_int_ok 1 p (conv (le_value bs)) bs hs XDR_FREE s m t Hs Hb) as (m' & E' & Hm).
    eexists true, m', t, _. by step_with E'.
  - intros p. by exists true, (zeros 1).
  - intros v p h _ ->. by exists (le_bytes 1 v).
Qed.
End char.

Definition char_codec : codec := int_codec 1 (- 2 ^ 7) (2 ^ 7) xdr_char.
Definition u_char_codec : codec := int_codec 1 0 (2 ^ 8) xdr_u_char.

Lemma load_int_bytes n p bs hs x :
  length bs = n → splits (x_mem x) (bytes p bs :: hs) → load_int n p x = Ok (le_value bs) x.
Proof. intros <- Hs. unfold load_int. by step_with (load_bytes_ok p bs hs x Hs). Qed.

#[export] Instance char_codec_ok : CodecOk char_codec.
Proof.
  apply (char_proc_ok _ _ xdr_int_via load_char i8 id id int_via_switch).
  - intros p bs hs x Hb Hs. unfold load_char. by step_with (load_int_bytes 1 p bs hs x Hb Hs).
  - intros v Hv. rewrite le_value_bytes. change (256 ^ Z.of_nat 1) with (2 ^ 8). unfold i8.
    rewrite Z.add_mod_idemp_l by lia. by apply i8_small.
  - intros v Hv. apply send_long. lia.
Qed.

#[export] Instance u_char_codec_ok : CodecOk u_char_codec.
Proof.
  apply (char_proc_ok _ _ xdr_u_int_via load_uchar id i32 u32 u_int_via_switch).
  - intros p bs hs x Hb Hs. by apply (load_int_bytes 1 p bs hs x).
  - intros v Hv. rewrite le_value_bytes. by apply Z.mod_small.
  - intros v Hv. apply send_ulong. lia.
Qed.
End scalars.

(** * Opaque data, counted bytes and strings

    [xdr_opaque], [xdr_bytes] and [xdr_string] keep the contract: what is
    decoded is allocated, bounded by the maximum the caller gives, and freed
    whatever the stream contained. *)

(** The bytes on the stream: whole units, filled up with zeros. *)
Definition padding (n : Z) : nat := Z.to_nat ((- n) mod 4).
Definition padded (bs : list Z) : list Z := bs ++ zeros (padding (zlen bs)).

Lemma padding_eq n :
  0 ≤ n →
  (if 0 <? n mod BYTES_PER_XDR_UNIT then BYTES_PER_XDR_UNIT - n mod BYTES_PER_XDR_UNIT
   else n mod BYTES_PER_XDR_UNIT) = Z.of_nat (padding n).
Proof.
  intros Hn. unfold padding, BYTES_PER_XDR_UNIT.
  pose proof (Z.mod_pos_bound n 4 ltac:(lia)). pose proof (Z.div_mod n 4 ltac:(lia)).
  destruct (Z.ltb_spec 0 (n mod 4)).
  - rewrite <- (Z.mod_unique (- n) 4 (- (n / 4) - 1) (4 - n mod 4)); lia.
  - rewrite <- (Z.mod_unique (- n) 4 (- (n / 4)) 0); lia.
Qed.

Lemma padding_lt n : (padding n < 4)%nat.
Proof. unfold padding. pose proof (Z.mod_pos_bound (- n) 4 ltac:(lia)). lia. Qed.

Section opaque.
Context {S : Type} `{XdrStream S} `{Allocator}.
Local Abbreviation X := (M (xdr_handle S)).
Implicit Types (hs : list mem) (bs : list Z) (s : S).

Lemma opaque_encode cp bs m hs s t out k :
  splits m (bytes cp bs :: hs) → zlen bs < 2 ^ 31 → writes out (length (padded bs) + k) s →
  ∃ s', xdr_opaque cp (zlen bs) (Xdr XDR_ENCODE s m t) = Ok true (Xdr XDR_ENCODE s' m t) ∧
    writes (out ++ padded bs) k s'.
Proof.
  intros Hm Hn Hw. unfold xdr_opaque. destruct (Z.eqb_spec (zlen bs) 0) as [Hz|Hz].
  { destruct bs as [|b bs]; [|done]. exists s. split; [done|]. by rewrite app_nil_r. }
  rewrite (padding_eq _ (zlen_nonneg bs)). rewrite bind_gets. cbn [x_op].
  assert (Z.to_nat (zlen bs) = length bs) as -> by (unfold zlen; lia).
  step_with (load_bytes_ok cp bs hs (Xdr XDR_ENCODE s m t) Hm).
  unfold padded in Hw |- *. unfold zeros in Hw at 1. rewrite length_app, length_replicate, <- Nat.add_assoc in Hw.
  destruct (putbytes_writes bs out _ s Hn Hw) as (s' & E & Hw').
  step_with (on_stream_ok (x_putbytes bs) true XDR_ENCODE s s' m t E). cbn [negb].
  destruct (Z.eqb_spec (Z.of_nat (padding (zlen bs))) 0) as [Hp|Hp].
  - exists s'. split; [done|]. assert (padding (zlen bs) = 0%nat) as Hp0 by lia. rewrite Hp0 in *.
    by rewrite app_nil_r.
  - rewrite Nat2Z.id. set (z := replicate _ _) in *. assert (length z = padding (zlen bs)) as Hlz by apply length_replicate.
    pose proof (padding_lt (zlen bs)).
    destruct (putbytes_writes z (out ++ bs) k s') as (s'' & E' & Hw''); [unfold zlen in *; lia|by rewrite Hlz|].
    exists s''. rewrite (on_stream_ok _ true XDR_ENCODE s' s'' m t E'). split; [done|].
    by rewrite <- app_assoc in Hw''.
Qed.

Lemma get_bytes_ok cp old bs m hs s t rest :
  splits m (bytes cp old :: hs) → length old = length bs → zlen bs < 2 ^ 31 → reads (bs ++ rest) s →
  ∃ s' m', get_bytes_at cp (zlen bs) (Xdr XDR_DECODE s m t) = Ok true (Xdr XDR_DECODE s' m' t) ∧
    splits m' (bytes cp bs :: hs) ∧ reads rest s'.
Proof.
  intros Hm Hl Hn Hr. unfold get_bytes_at. destruct (getbytes_reads bs rest s Hn Hr) as (s' & E & Hr').
  step_with (on_stream_ok _ _ XDR_DECODE s s' m t E).
  destruct (store_bytes_ok cp old bs hs (Xdr XDR_DECODE s' m t) Hm Hl) as (m' & E' & Hm').
  step_with E'. by exists s', m'.
Qed.

Lemma opaque_decode cp old bs m hs s t rest :
  splits m (bytes cp old :: hs) → length old = length bs → zlen bs < 2 ^ 31 →
  reads (padded bs ++ rest) s →
  ∃ s' m', xdr_opaque cp (zlen bs) (Xdr XDR_DECODE s m t) = Ok true (Xdr XDR_DECODE s' m' t) ∧
    splits m' (bytes cp bs :: hs) ∧ reads rest s'.
Proof.
  intros Hm Hl Hn Hr. unfold xdr_opaque. destruct (Z.eqb_spec (zlen bs) 0) as [Hz|Hz].
  { destruct bs as [|b bs]; [|done]. destruct old; [|done]. by exists s, m. }
  rewrite (padding_eq _ (zlen_nonneg bs)). rewrite bind_gets. cbn [x_op].
  unfold padded in Hr. rewrite <- app_assoc in Hr.
  destruct (get_bytes_ok cp old bs m hs s t _ Hm Hl Hn Hr) as (s' & m' & E & Hm' & Hr').
  step_with E. cbn [negb]. destruct (Z.eqb_spec (Z.of_nat (padding (zlen bs))) 0) as [Hp|Hp].
  - exists s', m'. split; [done|]. split; [done|]. assert (padding (zlen bs) = 0%nat) as Hp0 by lia.
    by rewrite Hp0 in Hr'.
  - set (z := zeros (padding (zlen bs))) in *. assert (zlen z = Z.of_nat (padding (zlen bs))) as Hlz
      by (unfold zlen, z, zeros; by rewrite length_replicate).
    pose proof (padding_lt (zlen bs)).
    destruct (getbytes_reads z rest s') as (s'' & E' & Hr''); [lia|done|]. rewrite Hlz in E'.
    step_with (on_stream_ok _ _ XDR_DECODE s' s'' m' t E'). by exists s'', m'.
Qed.

Lemma opaque_safe cp old m hs s t :
  splits m (bytes cp old :: hs) → zlen old < 2 ^ 31 → stream_ok s →
  ∃ b s' m' new, xdr_opaque cp (zlen old) (Xdr XDR_DECODE s m t) = Ok b (Xdr XDR_DECODE s' m' t) ∧
    splits m' (bytes cp new :: hs) ∧ length new = length old ∧ stream_ok s'.
Proof.
  intros Hm Hn Hr. unfold xdr_opaque. destruct (Z.eqb_spec (zlen old) 0) as [Hz|Hz].
  { by exists true, s, m, old. }
  rewrite (padding_eq _ (zlen_nonneg old)). rewrite bind_gets. cbn [x_op].
  unfold get_bytes_at. rewrite bind_assoc.
  destruct (getbytes_safe (zlen old) s Hr) as (b & bs & s' & E & Hr' & Hb & _); [pose proof (zlen_nonneg old); lia|].
  step_with (on_stream_ok _ _ XDR_DECODE s s' m t E). cbn [fst snd]. rewrite bind_assoc.
  destruct (store_prefix_ok cp old bs hs (Xdr XDR_DECODE s' m t) Hm) as (m' & new & E' & Hm' & Hl & _);
    [unfold zlen in Hb; lia|].
  step_with E'. rewrite bind_ret. destruct b; cbn [negb]; [|by exists false, s', m', new].
  destruct (Z.eqb_spec (Z.of_nat (padding (zlen old))) 0); [by exists true, s', m', new|].
  destruct (getbytes_safe (Z.of_nat (padding (zlen old))) s' Hr') as (b & cs & s'' & E'' & Hr'' & _);
    [pose proof (padding_lt (zlen old)); lia|].
  unfold set_x_mem. cbn [x_op x_stream x_answers].
  step_with (on_stream_ok _ _ XDR_DECODE s' s'' m' t E''). by exists b, s'', m', new.
Qed.

Lemma opaque_free cp n s m t : xdr_opaque cp n (Xdr XDR_FREE s m t) = Ok true (Xdr XDR_FREE s m t).
Proof. unfold xdr_opaque. by destruct (n =? 0). Qed.

(** A fixed number of bytes, such as a DES block. *)
Definition opaque_codec (n : nat) : codec :=
  Codec (list Z) n (λ p _, xdr_opaque p (Z.of_nat n)) padded (λ bs, length bs = n)
    (λ bs p h, h = bytes p bs) (λ _ p h, ∃ bs, length bs = n ∧ h = bytes p bs).

Lemma opaque_codec_ok n : Z.of_nat n < 2 ^ 31 → CodecOk (opaque_codec n).
Proof.
  intros Hn. split; cbn [opaque_codec c_proc c_size c_enc c_valid c_rep c_part c_val].
  - intros v p _ m h hs s t out k _ Hv -> Hs Hw.
    destruct (opaque_encode p v m hs s t out k Hs) as (s' & E & Hw'); [unfold zlen; lia|done|].
    unfold zlen in E. rewrite Hv in E. by exists s', m, t.
  - intros v p _ m hs s t bs _ Hv Hs Hr.
    destruct (opaque_decode p (zeros n) v m hs s t bs Hs) as (s' & m' & E & Hm & Hr');
      [unfold zeros; rewrite length_replicate; done|unfold zlen; lia|done|].
    unfold zlen in E. rewrite Hv in E. by exists true, s', m', t, (bytes p v).
  - intros p _ m hs s t _ Hs Hr. assert (length (zeros n) = n) as Hz by apply length_replicate.
    destruct (opaque_safe p (zeros n) m hs s t Hs) as (b & s' & m' & new & E & Hm & Hl & Hr');
      [unfold zlen; lia|done|]. unfold zlen in E. rewrite Hz in E, Hl.
    exists b, s', m', t, (bytes p new). split_and!; [done..|]. by exists new.
  - intros b p _ m h hs s t _ (bs & Hb & ->) Hs. exists true, m, t, bs. by rewrite opaque_free.
  - intros p. exists true, (zeros n). split; [apply length_replicate|done].
  - intros v p h Hv ->. by exists v.
Qed.
End opaque.
