(* ===== verification/XdrStrings.v ===== *)
(** * Counted bytes and strings

    The filters that allocate: [xdr_bytes] with its users, and [xdr_string]. *)
From S2P Require Import Prelude Posix CMemory Xdr XdrMemory XdrCodec XdrScalars.
Local Open Scope Z_scope.

(** The block behind a pointer that may be null. *)
Definition owned (q : Z) (bs : list Z) : list mem := if decide (q = 0) then [] else [block q bs].

(** A pointer and an unsigned integer. *)
Definition fields (cpp q sizep n : Z) : list mem :=
  [bytes cpp (le_bytes 4 q); bytes sizep (le_bytes 4 n)].

Definition word (z : Z) : Prop := 0 ≤ z < 2 ^ 32.

Section words.
Context {S : Type} `{XdrStream S} `{Allocator}.
Implicit Types (hs : list mem) (bs : list Z) (v : Z) (s : S) (x : xdr_handle S).

Lemma owned_null bs : owned 0 bs = [].
Proof. done. Qed.
Lemma owned_block q bs : q ≠ 0 → owned q bs = [block q bs].
Proof. intros Hq. unfold owned. by rewrite decide_False. Qed.

(** The bytes behind the pointer, and what is left of the memory. *)
Lemma splits_owned m q bs hs :
  (q = 0 → bs = []) → splits m (owned q bs ++ hs) →
  ∃ ks, splits m (bytes q bs :: ks ++ hs) ∧
    ∀ m', splits m' (bytes q bs :: ks ++ hs) → splits m' (owned q bs ++ hs).
Proof.
  intros Hq Hm. unfold owned in *. destruct (decide (q = 0)) as [E|Hne].
  - exists []. rewrite (Hq E). split; [by apply splits_nil_l|]. intros m'. by rewrite splits_nil_l.
  - exists [{[Block q := zlen bs]}]. split.
    + apply splits_block in Hm. reorder Hm.
    + intros m' Hm'. apply splits_block. reorder Hm'.
Qed.

(** *** [xdr_u_int] at an object of its own *)

Lemma u_int_encode p v m hs s t out k :
  word v → splits m (bytes p (le_bytes 4 v) :: hs) → writes out (4 + k) s →
  ∃ s', xdr_u_int p (Xdr XDR_ENCODE s m t) = Ok true (Xdr XDR_ENCODE s' m t) ∧
    writes (out ++ be_bytes v) k s'.
Proof.
  intros Hv Hm Hw. unfold xdr_u_int, at_object.
  destruct (via_encode 0 (2 ^ 32) xdr_u_int_via i32 u32 u_int_via_switch send_ulong (load_ulong p) v m s t out k Hv)
    as (s' & E & Hw'); [by apply (load_ulong_ok v p hs)|done|].
  exists s'. by step_with E.
Qed.

Lemma u_int_decode p v m hs s t bs old :
  word v → splits m (bytes p old :: hs) → length old = 4%nat → reads (be_bytes v ++ bs) s →
  ∃ s' m', xdr_u_int p (Xdr XDR_DECODE s m t) = Ok true (Xdr XDR_DECODE s' m' t) ∧
    splits m' (bytes p (le_bytes 4 v) :: hs) ∧ reads bs s'.
Proof.
  intros Hv Hm Hl Hr. unfold xdr_u_int, at_object.
  destruct (via_decode 0 (2 ^ 32) xdr_u_int_via i32 u32 u_int_via_switch send_ulong (load_ulong p) v m s t bs Hv Hr)
    as (s' & E & Hr').
  destruct (store_int_ok 4 p v old hs XDR_DECODE s' m t Hm Hl) as (m' & E' & Hm').
  exists s', m'. step_with E. cbn [fst snd]. by step_with E'.
Qed.

Lemma u_int_safe p v0 m hs s t :
  word v0 → splits m (bytes p (le_bytes 4 v0) :: hs) → stream_ok s →
  ∃ b s' m' v, xdr_u_int p (Xdr XDR_DECODE s m t) = Ok b (Xdr XDR_DECODE s' m' t) ∧
    splits m' (bytes p (le_bytes 4 v) :: hs) ∧ stream_ok s' ∧ word v ∧ (b = false → v = v0).
Proof.
  intros Hv0 Hm Hr. unfold xdr_u_int, at_object.
  destruct (via_safe xdr_u_int_via i32 u32 u_int_via_switch (load_ulong p) m s t Hr) as (r & s' & E & Hr' & Hv).
  destruct r as [v|]; cbn in E.
  - destruct (store_int_ok 4 p v (le_bytes 4 v0) hs XDR_DECODE s' m t Hm) as (m' & E' & Hm'); [done|].
    exists true, s', m', v. step_with E. cbn [fst snd]. step_with E'. split_and!; try done.
    destruct (Hv v eq_refl) as (l & _ & ->). apply u32_range.
  - exists false, s', m, v0. by step_with E.
Qed.

Lemma u_int_free p s m t : xdr_u_int p (Xdr XDR_FREE s m t) = Ok true (Xdr XDR_FREE s m t).
Proof. done. Qed.

(** *** Pointers *)

Lemma load_pointer p q hs op s m t :
  word q → splits m (bytes p (le_bytes 4 q) :: hs) →
  load_ulong p (Xdr op s m t) = Ok q (Xdr op s m t).
Proof. intros Hq Hm. by apply (load_ulong_ok q p hs). Qed.

(** [if (sp == NULL) *cpp = sp = mem_alloc(n)] *)
Definition alloc_at (cpp n : Z) : M (xdr_handle S) Z :=
  sp ← mem_alloc n;
  store_int 4 cpp sp;;
  mret sp.

Lemma alloc_at_ok cpp n m hs op s t :
  splits m (bytes cpp (le_bytes 4 0) :: hs) → 0 ≤ n →
  ∃ q m' b, alloc_at cpp n (Xdr op s m t) = Ok q (Xdr op s m' (b :: t)) ∧ word q ∧
    ((b = false ∧ q = 0 ∧ splits m' (bytes cpp (le_bytes 4 0) :: hs)) ∨
     ∃ junk, b = true ∧ q ≠ 0 ∧ q + n < 2 ^ 32 ∧ zlen junk = n ∧
       splits m' (bytes cpp (le_bytes 4 q) :: block q junk :: hs)).
Proof.
  intros Hm Hn. unfold alloc_at.
  destruct (mem_alloc_ok n _ (Xdr op s m t) Hm Hn) as (q & m1 & b & E & Hq).
  step_with E. cbn [x_op x_stream x_answers].
  destruct Hq as [(-> & -> & ->)|(junk & -> & Hq & Hb & Hj & Hm1)].
  - destruct (store_int_ok 4 cpp 0 _ hs op s m (false :: t) Hm eq_refl) as (m' & E' & Hm').
    exists 0, m', false. step_with E'. split; [done|]. split; [unfold word; lia|]. by left.
  - apply splits_swap in Hm1.
    destruct (store_int_ok 4 cpp q _ _ op s m1 (true :: t) Hm1 eq_refl) as (m' & E' & Hm').
    exists q, m', true. step_with E'. split; [done|]. split; [unfold word; lia|]. right. exists junk.
    split; [done|]. split_and!; [lia|done..].
Qed.

(** [mem_free(sp); *cpp = NULL;] *)
Lemma free_at_ok cpp q bs m hs op s t :
  splits m (bytes cpp (le_bytes 4 q) :: block q bs :: hs) → q ≠ 0 →
  ∃ m', (mem_free q;; store_int 4 cpp 0) (Xdr op s m t) = Ok tt (Xdr op s m' t) ∧
    splits m' (bytes cpp (le_bytes 4 0) :: hs).
Proof.
  intros Hm Hq. apply splits_swap in Hm.
  destruct (mem_free_ok q bs _ (Xdr op s m t) Hm Hq) as (m1 & E & Hm1).
  destruct (store_int_ok 4 cpp 0 _ hs op s m1 t Hm1 eq_refl) as (m' & E' & Hm').
  exists m'. by step_with E.
Qed.
End words.

(** ** [xdr_bytes] *)

Section bytes.
Context {S : Type} `{XdrStream S} `{Allocator}.
Implicit Types (hs : list mem) (bs v : list Z) (s : S).
Context (max : Z) (Hmax : 0 ≤ max < 2 ^ 31).

Lemma bytes_encode cpp sizep q v m hs s t out k :
  word q → (q = 0 → v = []) → zlen v ≤ max →
  splits m (fields cpp q sizep (zlen v) ++ owned q v ++ hs) →
  writes out (length (be_bytes (zlen v) ++ padded v) + k) s →
  ∃ s', xdr_bytes cpp sizep max (Xdr XDR_ENCODE s m t) = Ok true (Xdr XDR_ENCODE s' m t) ∧
    writes (out ++ be_bytes (zlen v) ++ padded v) k s'.
Proof.
  intros Hq Hv Hl Hm Hw. unfold xdr_bytes. rewrite length_app, length_be_bytes, <- Nat.add_assoc in Hw.
  pose proof (zlen_nonneg v).
  step_with (load_pointer cpp q _ XDR_ENCODE s m t Hq Hm). apply splits_swap in Hm.
  destruct (u_int_encode sizep (zlen v) m _ s t out _ ltac:(unfold word; lia) Hm Hw) as (s1 & E1 & Hw1).
  step_with E1. cbn [negb]. step_with (load_pointer sizep (zlen v) _ XDR_ENCODE s1 m t ltac:(unfold word; lia) Hm).
  rewrite bind_gets. cbn [x_op]. destruct (Z.ltb_spec max (zlen v)); [lia|]. cbn [andb].
  assert (splits m (owned q v ++ fields cpp q sizep (zlen v) ++ hs)) as Hm' by reorder Hm.
  apply splits_owned in Hm' as (ks & Hm' & _); [|done].
  destruct (opaque_encode q v m _ s1 t _ k Hm' ltac:(lia) Hw1) as (s2 & E2 & Hw2).
  exists s2. by rewrite <- app_assoc in Hw2.
Qed.

(** The length has been read: what is left of a decoding. *)
Lemma bytes_decode cpp sizep v m hs s t rest :
  zlen v ≤ max → splits m (fields cpp 0 sizep 0 ++ hs) → reads (be_bytes (zlen v) ++ padded v ++ rest) s →
  ∃ b s' m' t', xdr_bytes cpp sizep max (Xdr XDR_DECODE s m t) = Ok b (Xdr XDR_DECODE s' m' t') ∧
    ∃ q bs, word q ∧ (q = 0 → b = true → v = []) ∧ splits m' (fields cpp q sizep (zlen v) ++ owned q bs ++ hs) ∧
    decoded b t t' (reads rest s' ∧ (q ≠ 0 → bs = v)).
Proof.
  intros Hl Hm Hr. unfold xdr_bytes. pose proof (zlen_nonneg v).
  step_with (load_pointer cpp 0 _ XDR_DECODE s m t ltac:(unfold word; lia) Hm). apply splits_swap in Hm.
  destruct (u_int_decode sizep (zlen v) m _ s t _ _ ltac:(unfold word; lia) Hm eq_refl Hr) as (s1 & m1 & E1 & Hm1 & Hr1).
  step_with E1. cbn [negb]. step_with (load_pointer sizep (zlen v) _ XDR_DECODE s1 m1 t ltac:(unfold word; lia) Hm1).
  rewrite bind_gets. cbn [x_op]. destruct (Z.ltb_spec max (zlen v)); [lia|]. cbn [andb].
  destruct (Z.eqb_spec (zlen v) 0) as [Hz|Hz].
  { destruct v; [|done]. exists true, s1, m1, t. split; [done|]. exists 0, []. split; [unfold word; lia|].
    split; [done|]. split; [reorder Hm1|done]. }
  change (0 =? 0) with true. cbv iota. apply splits_swap in Hm1.
  destruct (alloc_at_ok cpp (zlen v) m1 _ XDR_DECODE s1 t Hm1 ltac:(lia)) as (q & m2 & b2 & E2 & Hq & Hcase).
  step_with E2. destruct Hcase as [(-> & -> & Hm2)|(junk & -> & Hne & Hb & Hj & Hm2)].
  { exists false, s1, m2, (false :: t). split; [done|]. exists 0, []. split_and!; [done..|apply decoded_refused]. }
  destruct (Z.eqb_spec q 0); [done|].
  assert (splits m2 (owned q junk ++ fields cpp q sizep (zlen v) ++ hs)) as Hm2'.
  { rewrite owned_block by done. reorder Hm2. }
  clear Hm2. unfold owned in Hm2'. rewrite decide_False in Hm2' by done. cbn [app] in Hm2'. apply splits_block, splits_swap in Hm2'.
  destruct (opaque_decode q junk v m2 _ s1 (true :: t) rest Hm2') as (s3 & m3 & E3 & Hm3 & Hr3);
    [unfold zlen in Hj; lia|lia|done|].
  exists true, s3, m3, (true :: t). split; [exact E3|]. exists q, v. split; [done|]. split; [done|].
  split; [|apply decoded_granted; [done|done|by apply suffix_cons_r]]. rewrite owned_block by done. apply splits_swap in Hm3. rewrite Hj in Hm3.
  apply splits_block in Hm3. reorder Hm3.
Qed.

Lemma bytes_safe cpp sizep m hs s t :
  splits m (fields cpp 0 sizep 0 ++ hs) → stream_ok s →
  ∃ b s' m' t', xdr_bytes cpp sizep max (Xdr XDR_DECODE s m t) = Ok b (Xdr XDR_DECODE s' m' t') ∧
    stream_ok s' ∧ ∃ q n bs, word q ∧ word n ∧ splits m' (fields cpp q sizep n ++ owned q bs ++ hs).
Proof.
  intros Hm Hr. unfold xdr_bytes.
  step_with (load_pointer cpp 0 _ XDR_DECODE s m t ltac:(unfold word; lia) Hm). apply splits_swap in Hm.
  destruct (u_int_safe sizep 0 m _ s t ltac:(unfold word; lia) Hm Hr) as (b & s1 & m1 & n & E1 & Hm1 & Hr1 & Hn & _).
  step_with E1. apply splits_swap in Hm1 as Hm1'.
  assert (∃ q n bs, word q ∧ word n ∧ splits m1 (fields cpp q sizep n ++ owned q bs ++ hs)) as Hstop.
  { exists 0, n, []. split; [unfold word; lia|]. split; [exact Hn|exact Hm1']. }
  destruct b; cbn [negb]; [|by exists false, s1, m1, t].
  step_with (load_pointer sizep n _ XDR_DECODE s1 m1 t Hn Hm1).
  rewrite bind_gets. cbn [x_op]. destruct (Z.ltb_spec max n); cbn [andb negb]; [by exists false, s1, m1, t|].
  destruct (Z.eqb_spec n 0) as [Hz|Hz]; [by exists true, s1, m1, t|].
  change (0 =? 0) with true. cbv iota. unfold word in Hn.
  destruct (alloc_at_ok cpp n m1 _ XDR_DECODE s1 t Hm1' ltac:(lia)) as (q & m2 & b2 & E2 & Hq & Hcase).
  step_with E2. destruct Hcase as [(-> & -> & Hm2)|(junk & -> & Hne & Hb & Hj & Hm2)].
  { exists false, s1, m2, (false :: t). split; [done|]. split; [done|]. by exists 0, n, []. }
  destruct (Z.eqb_spec q 0); [done|].
  assert (splits m2 (block q junk :: fields cpp q sizep n ++ hs)) as Hm2' by reorder Hm2.
  apply splits_block, splits_swap in Hm2'.
  destruct (opaque_safe q junk m2 _ s1 (true :: t) Hm2') as (b & s3 & m3 & new & E3 & Hm3 & Hl & Hr3); [lia|done|]. rewrite Hj in E3.
  exists b, s3, m3, (true :: t). split; [exact E3|]. split; [done|]. exists q, n, new. split; [done|]. split; [done|].
  rewrite owned_block by done. apply splits_swap in Hm3.
  assert (zlen junk = zlen new) as Ez by (unfold zlen; by rewrite Hl). rewrite Ez in Hm3.
  apply splits_block in Hm3. reorder Hm3.
Qed.

Lemma bytes_free cpp sizep q n bs m hs s t :
  word q → word n → splits m (fields cpp q sizep n ++ owned q bs ++ hs) →
  ∃ m', xdr_bytes cpp sizep max (Xdr XDR_FREE s m t) = Ok true (Xdr XDR_FREE s m' t) ∧
    splits m' (fields cpp 0 sizep n ++ hs).
Proof.
  intros Hq Hn Hm. unfold xdr_bytes. step_with (load_pointer cpp q _ XDR_FREE s m t Hq Hm).
  step_with (u_int_free sizep s m t). cbn [negb]. apply splits_swap in Hm.
  step_with (load_pointer sizep n _ XDR_FREE s m t Hn Hm).
  rewrite bind_gets. cbn [x_op]. rewrite (bool_decide_eq_true_2 (XDR_FREE = XDR_FREE)) by done. cbn [negb].
  rewrite andb_false_r. destruct (Z.eqb_spec q 0) as [->|Hne].
  - exists m. split; [done|]. apply splits_swap in Hm. exact Hm.
  - assert (splits m (bytes cpp (le_bytes 4 q) :: block q bs :: bytes sizep (le_bytes 4 n) :: hs)) as Hm'.
    { rewrite owned_block in Hm by done. reorder Hm. }
    destruct (free_at_ok cpp q bs m _ XDR_FREE s t Hm' Hne) as (m' & E & Hm'').
    exists m'. by step_with E.
Qed.
End bytes.

(** The codec of counted bytes: the pointer lies before the count, as in
    [struct opaque_auth], or behind it, as in [struct netobj]. *)
Definition pointer_at (first : bool) (p : Z) : Z := if first then p else p + 4.
Definition count_at (first : bool) (p : Z) : Z := if first then p + 4 else p.

Lemma fields_object (first : bool) p q n m hs :
  splits m (fields (pointer_at first p) q (count_at first p) n ++ hs) ↔
  splits m (bytes p (if first then le_bytes 4 q ++ le_bytes 4 n else le_bytes 4 n ++ le_bytes 4 q) :: hs).
Proof.
  destruct first; cbn [pointer_at count_at fields app].
  - rewrite <- splits_bytes_app. done.
  - rewrite splits_swap, <- splits_bytes_app. done.
Qed.

Section codecs.
Context {S : Type} `{XdrStream S} `{Allocator}.
Implicit Types (hs : list mem) (bs v : list Z) (s : S).

Definition bytes_codec (first : bool) (max : Z) : codec :=
  Codec (list Z) 8 (λ p _, xdr_bytes (pointer_at first p) (count_at first p) max)
    (λ v, be_bytes (zlen v) ++ padded v) (λ v, zlen v ≤ max)
    (λ v p h, ∃ q, word q ∧ (q = 0 → v = []) ∧
      splits h (fields (pointer_at first p) q (count_at first p) (zlen v) ++ owned q v))
    (λ _ p h, ∃ q n bs, word q ∧ word n ∧
      splits h (fields (pointer_at first p) q (count_at first p) n ++ owned q bs)).

Lemma fields_zero first p m hs :
  splits m (bytes p (zeros 8) :: hs) → splits m (fields (pointer_at first p) 0 (count_at first p) 0 ++ hs).
Proof. intros Hm. apply fields_object. by destruct first. Qed.

Lemma bytes_codec_ok first max : 0 ≤ max < 2 ^ 31 → CodecOk (bytes_codec first max).
Proof.
  intros Hmax. split; cbn [bytes_codec c_proc c_size c_enc c_valid c_rep c_part c_val].
  - intros v p _ m h hs s t out k _ Hv (q & Hq & Hnull & Hh) Hm Hw.
    pose proof (splits_nest _ _ _ _ Hm Hh) as Hm'. rewrite <- app_assoc in Hm'.
    destruct (bytes_encode max Hmax _ _ q v m hs s t out k Hq Hnull Hv Hm' Hw) as (s' & E & Hw').
    by exists s', m, t.
  - intros v p _ m hs s t bs _ Hv Hm Hr. apply (fields_zero first) in Hm. rewrite <- app_assoc in Hr.
    destruct (bytes_decode max Hmax _ _ v m hs s t bs Hv Hm Hr)
      as (b & s' & m' & t' & E & q & cs & Hq & Hnull & Hm' & Hb).
    rewrite app_assoc in Hm'. apply splits_join in Hm' as (h & Hh & Hm').
    exists b, s', m', t', h. split; [done|]. split; [done|]. apply (decoded_impl _ _ _ _ _ Hb). intros -> [Hr' Hcs].
    split; [done|]. exists q. split; [done|]. split; [auto|].
    destruct (decide (q = 0)) as [->|Hne]; [exact Hh|]. rewrite (Hcs Hne) in Hh. exact Hh.
  - intros p _ m hs s t _ Hm Hr. apply (fields_zero first) in Hm.
    destruct (bytes_safe max Hmax _ _ m hs s t Hm Hr) as (b & s' & m' & t' & E & Hr' & q & n & cs & Hq & Hn & Hm').
    rewrite app_assoc in Hm'. apply splits_join in Hm' as (h & Hh & Hm').
    exists b, s', m', t', h. split_and!; [done..|]. by exists q, n, cs.
  - intros b p _ m h hs s t _ (q & n & cs & Hq & Hn & Hh) Hm.
    pose proof (splits_nest _ _ _ _ Hm Hh) as Hm'. rewrite <- app_assoc in Hm'.
    destruct (bytes_free max _ _ q n cs m hs s t Hq Hn Hm') as (m' & E & Hm'').
    apply fields_object in Hm''. eexists true, m', t, _. split; [done|]. split; [done|]. split; [by destruct first|done].
  - intros p. exists true, 0, 0, []. split; [unfold word; lia|]. split; [unfold word; lia|].
    apply (fields_zero first p _ []). by apply splits_one.
  - intros v p h Hv (q & Hq & Hnull & Hh). pose proof (zlen_nonneg v).
    exists q, (zlen v), v. split; [done|]. split; [unfold word; lia|done].
Qed.
End codecs.

(** ** [xdr_string] *)

Section string.
Context {S : Type} `{XdrStream S} `{Allocator}.
Implicit Types (hs : list mem) (bs v : list Z) (s : S).
Context (max : Z) (Hmax : 0 ≤ max < 2 ^ 31).

Definition nonzero (v : list Z) : Prop := Forall (λ b, b ≠ 0) v.

(** A string at a pointer, and what lies behind its NUL. *)
Definition string_at (p q : Z) (v rest : list Z) : list mem :=
  [bytes p (le_bytes 4 q); block q (v ++ 0 :: rest)].

Lemma first_nul bs : ∃ v rest, bs ++ [0] = v ++ 0 :: rest ∧ nonzero v ∧ zlen v ≤ zlen bs.
Proof.
  induction bs as [|b bs IH]; [by exists [], []; split_and!; [|apply Forall_nil|]|].
  destruct (Z.eq_dec b 0) as [->|Hb].
  - exists [], (bs ++ [0]). split; [done|]. split; [by apply Forall_nil|]. unfold zlen. cbn [length]. lia.
  - destruct IH as (v & rest & E & Hv & Hl). exists (b :: v), rest. cbn [app]. rewrite E. split; [done|].
    split; [by apply Forall_cons|]. unfold zlen in *. cbn [length]. lia.
Qed.

(** [strlen] of a string, whose block is then open. *)
Lemma string_open p q v rest m hs op s t :
  word q → nonzero v → splits m (string_at p q v rest ++ hs) →
  strlen q (Xdr op s m t) = Ok (zlen v) (Xdr op s m t) ∧
  ∃ ks, splits m (bytes q v :: ks).
Proof.
  intros Hq Hv Hm. apply splits_swap, splits_block, splits_swap in Hm as Hm'. split.
  - by apply (strlen_ok q v rest _ (Xdr op s m t) Hm').
  - apply splits_bytes_app in Hm'. eexists. exact Hm'.
Qed.

Lemma string_encode p q v rest m hs s t out k :
  word q → nonzero v → zlen v ≤ max → splits m (string_at p q v rest ++ hs) →
  writes out (length (be_bytes (zlen v) ++ padded v) + k) s →
  ∃ s', xdr_string p max (Xdr XDR_ENCODE s m t) = Ok true (Xdr XDR_ENCODE s' m t) ∧
    writes (out ++ be_bytes (zlen v) ++ padded v) k s'.
Proof.
  intros Hq Hv Hl Hm Hw. unfold xdr_string. rewrite length_app, length_be_bytes, <- Nat.add_assoc in Hw.
  pose proof (zlen_nonneg v). destruct (string_open p q v rest m hs XDR_ENCODE s t Hq Hv Hm) as (En & ks & Hb).
  step_with (load_pointer p q _ XDR_ENCODE s m t Hq Hm). rewrite bind_gets. cbn [x_op].
  rewrite (bool_decide_eq_false_2 (XDR_ENCODE = XDR_FREE)) by done. cbn [andb]. rewrite bind_assoc. step_with En.
  rewrite bind_ret.
  destruct (via_encode 0 (2 ^ 32) xdr_u_int_via i32 u32 u_int_via_switch send_ulong (deref (Some (zlen v)))
    (zlen v) m s t out _ ltac:(lia) eq_refl Hw) as (s1 & E1 & Hw1).
  step_with E1. cbn [fst snd negb]. rewrite bind_deref. destruct (Z.ltb_spec max (zlen v)); [lia|].
  destruct (opaque_encode q v m _ s1 t _ k Hb ltac:(lia) Hw1) as (s2 & E2 & Hw2).
  exists s2. split; [exact E2|]. by rewrite <- app_assoc in Hw2.
Qed.

(** The string's bytes are stored behind the NUL that ends it. *)
Lemma string_space p q n junk m hs op s t :
  zlen junk = n + 1 → 0 ≤ n → 0 < q → q + (n + 1) < 2 ^ 32 →
  splits m (bytes p (le_bytes 4 q) :: block q junk :: hs) →
  ∃ m' old, store_byte (u32 (q + n)) 0 (Xdr op s m t) = Ok tt (Xdr op s m' t) ∧ zlen old = n ∧
    splits m' (bytes q old :: bytes (q + n) [0] :: {[Block q := n + 1]} :: bytes p (le_bytes 4 q) :: hs).
Proof.
  intros Hj Hn Hq Hb Hm. apply splits_swap, splits_block in Hm. rewrite (u32_small (q + n)) by lia.
  destruct (exists_last (l := junk)) as (old & z & ->); [intros ->; unfold zlen in Hj; cbn in Hj; lia|].
  rewrite zlen_app in Hj. change (zlen [z]) with 1 in Hj. rewrite zlen_app in Hm. change (zlen [z]) with 1 in Hm.
  apply splits_swap, splits_bytes_app in Hm.
  assert (splits m (bytes (q + n) [z] :: bytes q old :: {[Block q := n + 1]} :: bytes p (le_bytes 4 q) :: hs)) as Hm'.
  { replace (zlen old) with n in Hm by lia. reorder Hm. }
  destruct (store_byte_ok (q + n) z 0 _ (Xdr op s m t) Hm') as (m' & E & Hm'').
  exists m', old. split; [exact E|]. split; [lia|]. by apply splits_swap.
Qed.

Lemma string_close p q n bs m hs :
  zlen bs = n →
  splits m (bytes q bs :: bytes (q + n) [0] :: {[Block q := n + 1]} :: bytes p (le_bytes 4 q) :: hs) →
  splits m (bytes p (le_bytes 4 q) :: block q (bs ++ [0]) :: hs).
Proof.
  intros <- Hm. apply splits_bytes_app, splits_swap in Hm. apply splits_swap, splits_block.
  rewrite zlen_app. exact Hm.
Qed.

Lemma string_decode p v m hs s t rest :
  zlen v ≤ max → splits m (bytes p (le_bytes 4 0) :: hs) →
  reads (be_bytes (zlen v) ++ padded v ++ rest) s →
  ∃ b s' m' t', xdr_string p max (Xdr XDR_DECODE s m t) = Ok b (Xdr XDR_DECODE s' m' t') ∧
    (b = false → splits m' (bytes p (le_bytes 4 0) :: hs)) ∧
    decoded b t t' (reads rest s' ∧ ∃ q, 0 < q < 2 ^ 32 ∧ splits m' (string_at p q v [] ++ hs)).
Proof.
  intros Hl Hm Hr. unfold xdr_string. pose proof (zlen_nonneg v).
  step_with (load_pointer p 0 _ XDR_DECODE s m t ltac:(unfold word; lia) Hm). rewrite bind_gets. cbn [x_op].
  rewrite (bool_decide_eq_false_2 (XDR_DECODE = XDR_FREE)) by done. cbn [andb]. rewrite bind_ret.
  destruct (via_decode 0 (2 ^ 32) xdr_u_int_via i32 u32 u_int_via_switch send_ulong (deref None)
    (zlen v) m s t _ ltac:(lia) Hr) as (s1 & E1 & Hr1).
  step_with E1. cbn [fst snd negb]. rewrite bind_deref. destruct (Z.ltb_spec max (zlen v)); [lia|].
  rewrite (u32_small (zlen v + 1)) by lia. destruct (Z.eqb_spec (zlen v + 1) 0); [lia|].
  change (0 =? 0) with true. cbv iota.
  destruct (alloc_at_ok p (zlen v + 1) m hs XDR_DECODE s1 t Hm ltac:(lia)) as (q & m2 & b2 & E2 & Hq & Hcase).
  step_with E2. destruct Hcase as [(-> & -> & Hm2)|(junk & -> & Hne & Hb & Hj & Hm2)].
  { exists false, s1, m2, (false :: t). split; [done|]. split; [done|apply decoded_refused]. }
  unfold word in Hq. destruct (Z.eqb_spec q 0); [done|].
  destruct (string_space p q (zlen v) junk m2 hs XDR_DECODE s1 (true :: t)) as (m3 & old & E3 & Hold & Hm3);
    [done|lia|lia|lia|done|].
  step_with E3.
  destruct (opaque_decode q old v m3 _ s1 (true :: t) rest Hm3) as (s4 & m4 & E4 & Hm4 & Hr4);
    [unfold zlen in Hold; lia|lia|done|].
  exists true, s4, m4, (true :: t). split; [exact E4|]. split; [done|].
  apply decoded_granted; [done| |by apply suffix_cons_r]. split; [done|]. exists q. split; [lia|].
  by apply string_close in Hm4.
Qed.

Definition string_part (p : Z) (h : mem) : Prop :=
  h = bytes p (le_bytes 4 0) ∨
  ∃ q v rest, 0 < q < 2 ^ 32 ∧ nonzero v ∧ zlen v ≤ max ∧ splits h (string_at p q v rest).

Lemma string_safe p m hs s t :
  splits m (bytes p (le_bytes 4 0) :: hs) → stream_ok s →
  ∃ b s' m' t' h, xdr_string p max (Xdr XDR_DECODE s m t) = Ok b (Xdr XDR_DECODE s' m' t') ∧
    splits m' (h :: hs) ∧ stream_ok s' ∧ string_part p h.
Proof.
  intros Hm Hr. unfold xdr_string.
  step_with (load_pointer p 0 _ XDR_DECODE s m t ltac:(unfold word; lia) Hm). rewrite bind_gets. cbn [x_op].
  rewrite (bool_decide_eq_false_2 (XDR_DECODE = XDR_FREE)) by done. cbn [andb]. rewrite bind_ret.
  destruct (via_safe xdr_u_int_via i32 u32 u_int_via_switch (deref None) m s t Hr) as (r & s1 & E1 & Hr1 & Hv).
  step_with E1. cbn [fst snd].
  assert (∀ b, ∃ b' s' m' t' h, (mret b : M (xdr_handle S) bool) (Xdr XDR_DECODE s1 m t) = Ok b' (Xdr XDR_DECODE s' m' t') ∧
    splits m' (h :: hs) ∧ stream_ok s' ∧ string_part p h) as Hstop.
  { intros b. exists b, s1, m, t, (bytes p (le_bytes 4 0)). split_and!; [done..|by left]. }
  destruct r as [n|]; [|apply Hstop].
  destruct (Hv n eq_refl) as (l & _ & ->). pose proof (u32_range l) as Hn. set (n := u32 l) in *.
  rewrite bool_decide_eq_true_2 by done. cbn [negb]. rewrite bind_deref.
  destruct (Z.ltb_spec max n); [apply Hstop|].
  rewrite (u32_small (n + 1)) by lia. destruct (Z.eqb_spec (n + 1) 0); [lia|].
  change (0 =? 0) with true. cbv iota.
  destruct (alloc_at_ok p (n + 1) m hs XDR_DECODE s1 t Hm ltac:(lia)) as (q & m2 & b2 & E2 & Hq & Hcase).
  step_with E2. destruct Hcase as [(-> & -> & Hm2)|(junk & -> & Hne & Hb & Hj & Hm2)].
  { exists false, s1, m2, (false :: t), (bytes p (le_bytes 4 0)). split_and!; [done..|by left]. }
  unfold word in Hq. destruct (Z.eqb_spec q 0); [done|].
  destruct (string_space p q n junk m2 hs XDR_DECODE s1 (true :: t)) as (m3 & old & E3 & Hold & Hm3);
    [done|lia|lia|lia|done|].
  step_with E3. rewrite <- Hold.
  destruct (opaque_safe q old m3 _ s1 (true :: t) Hm3) as (b & s4 & m4 & new & E4 & Hm4 & Hl & Hr4); [lia|done|].
  destruct (first_nul new) as (v & rest & E & Hnz & Hvl).
  assert (zlen new = n) as Hzn by (unfold zlen in *; lia).
  apply string_close in Hm4; [|done]. rewrite E in Hm4.
  apply (splits_join m4 hs (string_at p q v rest)) in Hm4 as (h & Hh & Hm4).
  exists b, s4, m4, (true :: t), h. split_and!; [exact E4|done|done|]. right. exists q, v, rest.
  split; [lia|]. split; [done|]. split; [lia|done].
Qed.

Lemma string_free p h m hs s t :
  string_part p h → splits m (h :: hs) →
  ∃ m', xdr_string p max (Xdr XDR_FREE s m t) = Ok true (Xdr XDR_FREE s m' t) ∧
    splits m' (bytes p (le_bytes 4 0) :: hs).
Proof.
  intros [->|(q & v & rest & Hq & Hv & Hl & Hh)] Hm; unfold xdr_string.
  - step_with (load_pointer p 0 _ XDR_FREE s m t ltac:(unfold word; lia) Hm). rewrite bind_gets. cbn [x_op].
    exists m. by split.
  - apply (splits_nest _ _ _ _ Hm) in Hh. pose proof (zlen_nonneg v).
    step_with (load_pointer p q _ XDR_FREE s m t ltac:(unfold word; lia) Hh). rewrite bind_gets. cbn [x_op].
    destruct (Z.eqb_spec q 0); [lia|]. rewrite andb_false_r.
    destruct (string_open p q v rest m hs XDR_FREE s t) as (En & _); [unfold word; lia|done|done|].
    rewrite bind_assoc. step_with En. rewrite bind_ret.
    step_with (via_free xdr_u_int_via i32 u32 u_int_via_switch (deref (Some (zlen v))) m s t).
    cbn [fst snd negb]. rewrite bind_deref. destruct (Z.ltb_spec max (zlen v)); [lia|].
    destruct (free_at_ok p q (v ++ 0 :: rest) m hs XDR_FREE s t Hh ltac:(lia)) as (m' & E & Hm').
    exists m'. rewrite <- bind_assoc. by step_with E.
Qed.

Definition string_codec : codec :=
  Codec (list Z) 4 (λ p _, xdr_string p max) (λ v, be_bytes (zlen v) ++ padded v)
    (λ v, nonzero v ∧ zlen v ≤ max)
    (λ v p h, ∃ q rest, 0 < q < 2 ^ 32 ∧ splits h (string_at p q v rest))
    (λ _, string_part).

Lemma string_codec_ok : CodecOk string_codec.
Proof.
  split; cbn [string_codec c_proc c_size c_enc c_valid c_rep c_part c_val].
  - intros v p _ m h hs s t out k _ [Hv Hl] (q & rest & Hq & Hh) Hm Hw.
    apply (splits_nest _ _ _ _ Hm) in Hh.
    destruct (string_encode p q v rest m hs s t out k) as (s' & E & Hw'); [unfold word; lia|done..|].
    by exists s', m, t.
  - intros v p _ m hs s t bs _ [Hv Hl] Hm Hr. rewrite <- app_assoc in Hr.
    destruct (string_decode p v m hs s t bs Hl Hm Hr) as (b & s' & m' & t' & E & Hf & Hb). destruct b.
    + destruct Hb as (Hs & Hr' & q & Hq & Hm'). apply splits_join in Hm' as (h & Hh & Hm').
      exists true, s', m', t', h. split_and!; [done..|]. apply decoded_granted; [done| |done]. split; [done|]. by exists q, [].
    + exists false, s', m', t', (bytes p (le_bytes 4 0)). split_and!; [done|auto|]. by apply (decoded_impl _ _ _ _ _ Hb).
  - intros p _ m hs s t _ Hm Hr. destruct (string_safe p m hs s t Hm Hr) as (b & s' & m' & t' & h & E & Hm' & Hr' & Hh).
    by exists b, s', m', t', h.
  - intros b p _ m h hs s t _ Hh Hm. destruct (string_free p h m hs s t Hh Hm) as (m' & E & Hm').
    by exists true, m', t, (le_bytes 4 0).
  - intros p. exists true. by left.
  - intros v p h [Hv Hl] (q & rest & Hq & Hh). right. by exists q, v, rest.
Qed.
End string.
