(* ===== verification/XdrAggregates.v ===== *)
(** * Structures, vectors, arrays and pointers

    The filters that call filters, proved against the interface [CodecOk] of
    the ones they call: a filter of elements that keeps the contract gives an
    array, a reference or a union that keeps it. *)
From S2P Require Import Prelude Posix CMemory Xdr XdrMemory XdrCodec XdrScalars XdrStrings.
Local Open Scope Z_scope.

Section aggregates.
Context {S : Type} `{XdrStream S} `{Allocator}.
Implicit Types (hs : list mem) (bs : list Z) (s : S) (c : codec (S:=S)).
Local Abbreviation X := (M (xdr_handle S)).

(** Zeros and bytes in pieces. *)
Lemma bytes_two p n k bs m hs :
  length bs = (n + k)%nat → splits m (bytes p bs :: hs) →
  splits m (bytes p (take n bs) :: bytes (p + Z.of_nat n) (drop n bs) :: hs).
Proof.
  intros Hl Hm. rewrite <- (take_drop n bs) in Hm. apply splits_bytes_app in Hm.
  unfold zlen in Hm. rewrite length_take, Nat.min_l in Hm by lia. exact Hm.
Qed.

Lemma zeros_two p n k m hs :
  splits m (bytes p (zeros (n + k)) :: hs) →
  splits m (bytes p (zeros n) :: bytes (p + Z.of_nat n) (zeros k) :: hs).
Proof.
  intros Hm. apply (bytes_two p n k) in Hm; [|apply length_replicate].
  unfold zeros in *. rewrite take_replicate, drop_replicate, Nat.min_l in Hm by lia.
  by replace (n + k - n)%nat with k in Hm by lia.
Qed.

Lemma bytes_join p n xs ys m hs :
  length xs = n → splits m (bytes p xs :: bytes (p + Z.of_nat n) ys :: hs) → splits m (bytes p (xs ++ ys) :: hs).
Proof. intros <- Hm. by apply splits_bytes_app. Qed.

(** ** Structures: one filter after the other *)

Definition pair_proc (c1 : codec (S:=S)) (pad : nat) (c2 : codec (S:=S)) (p : Z) : X bool :=
  ok ← c_proc c1 p LASTUNSIGNED;
  if (ok : bool) then c_proc c2 (p + Z.of_nat (c_size c1 + pad)) LASTUNSIGNED else mret false.

Lemma pair_zeros c1 pad c2 p m hs :
  splits m (bytes p (zeros (c_size c1 + pad + c_size c2)) :: hs) →
  splits m (bytes p (zeros (c_size c1)) :: bytes (p + Z.of_nat (c_size c1)) (zeros pad) ::
            bytes (p + Z.of_nat (c_size c1 + pad)) (zeros (c_size c2)) :: hs).
Proof.
  intros Hm. apply zeros_two in Hm. apply zeros_two in Hm. reorder Hm.
Qed.

Section pair.
Context (c1 : codec (S:=S)) (pad : nat) (c2 : codec (S:=S)) `{!CodecOk c1} `{!CodecOk c2}.

Abbreviation size := (c_size c1 + pad + c_size c2)%nat.
Abbreviation middle p := (p + Z.of_nat (c_size c1)).
Abbreviation second p := (p + Z.of_nat (c_size c1 + pad)).

Lemma pair_addr p : addr_ok p size → addr_ok p (c_size c1) ∧ addr_ok (second p) (c_size c2).
Proof. unfold addr_ok. lia. Qed.

Lemma pair_encode v1 v2 p h1 bs h2 m hs s t out k :
  addr_ok p size → c_valid c1 v1 → c_valid c2 v2 → c_rep c1 v1 p h1 → c_rep c2 v2 (second p) h2 →
  splits m ([h1; bytes (middle p) bs; h2] ++ hs) →
  writes out (length (c_enc c1 v1 ++ c_enc c2 v2) + k) s →
  ∃ s' m' t', pair_proc c1 pad c2 p (Xdr XDR_ENCODE s m t) = Ok true (Xdr XDR_ENCODE s' m' t') ∧
    splits m' ([h1; bytes (middle p) bs; h2] ++ hs) ∧ writes (out ++ c_enc c1 v1 ++ c_enc c2 v2) k s'.
Proof.
  intros [Ha1 Ha2]%pair_addr Hv1 Hv2 Hr1 Hr2 Hm Hw. rewrite length_app, <- Nat.add_assoc in Hw. unfold pair_proc.
  destruct (c_encode v1 p LASTUNSIGNED m h1 _ s t out _ Ha1 Hv1 Hr1 Hm Hw) as (s1 & m1 & t1 & E1 & Hm1 & Hw1).
  step_with E1. assert (splits m1 (h2 :: h1 :: bytes (middle p) bs :: hs)) as Hm1' by reorder Hm1.
  destruct (c_encode v2 (second p) LASTUNSIGNED m1 h2 _ s1 t1 _ k Ha2 Hv2 Hr2 Hm1' Hw1)
    as (s2 & m2 & t2 & E2 & Hm2 & Hw2).
  exists s2, m2, t2. split; [done|]. split; [reorder Hm2|by rewrite app_assoc].
Qed.

Lemma pair_decode v1 v2 p m hs s t rest :
  addr_ok p size → c_valid c1 v1 → c_valid c2 v2 → splits m (bytes p (zeros size) :: hs) →
  reads (c_enc c1 v1 ++ c_enc c2 v2 ++ rest) s →
  ∃ b s' m' t' h1 h2, pair_proc c1 pad c2 p (Xdr XDR_DECODE s m t) = Ok b (Xdr XDR_DECODE s' m' t') ∧
    splits m' ([h1; bytes (middle p) (zeros pad); h2] ++ hs) ∧
    decoded b t t' (reads rest s' ∧ c_rep c1 v1 p h1 ∧ c_rep c2 v2 (second p) h2).
Proof.
  intros [Ha1 Ha2]%pair_addr Hv1 Hv2 Hm%pair_zeros Hr. unfold pair_proc.
  destruct (c_decode v1 p LASTUNSIGNED m _ s t _ Ha1 Hv1 Hm Hr) as (b1 & s1 & m1 & t1 & h1 & E1 & Hm1 & Hb1).
  step_with E1. destruct b1; cycle 1.
  { eexists false, s1, m1, t1, h1, _. split; [done|]. split; [exact Hm1|]. by apply (decoded_impl _ _ _ _ _ Hb1). }
  destruct Hb1 as (Hs1 & Hr1 & Hrep1).
  assert (splits m1 (bytes (second p) (zeros (c_size c2)) :: h1 :: bytes (middle p) (zeros pad) :: hs)) as Hm1'
    by reorder Hm1.
  destruct (c_decode v2 (second p) LASTUNSIGNED m1 _ s1 t1 rest Ha2 Hv2 Hm1' Hr1)
    as (b2 & s2 & m2 & t2 & h2 & E2 & Hm2 & Hb2).
  exists b2, s2, m2, t2, h1, h2. split; [done|]. split; [reorder Hm2|].
  apply (decoded_step _ _ _ _ _ _ Hs1 Hb2). by intros _ [].
Qed.

(** The two halves as far as a decoding got. *)
Definition pair_part (b : bool) (p : Z) (h1 h2 : mem) : Prop :=
  (c_part c1 true p h1 ∧ c_part c2 b (second p) h2) ∨
  (b = false ∧ c_part c1 false p h1 ∧ h2 = bytes (second p) (zeros (c_size c2))).

Lemma pair_safe p m hs s t :
  addr_ok p size → splits m (bytes p (zeros size) :: hs) → stream_ok s →
  ∃ b s' m' t' h1 h2, pair_proc c1 pad c2 p (Xdr XDR_DECODE s m t) = Ok b (Xdr XDR_DECODE s' m' t') ∧
    splits m' ([h1; bytes (middle p) (zeros pad); h2] ++ hs) ∧ stream_ok s' ∧ pair_part b p h1 h2.
Proof.
  intros [Ha1 Ha2]%pair_addr Hm%pair_zeros Hr. unfold pair_proc.
  destruct (c_safe p LASTUNSIGNED m _ s t Ha1 Hm Hr) as (b1 & s1 & m1 & t1 & h1 & E1 & Hm1 & Hr1 & Hp1).
  step_with E1. destruct b1; cycle 1.
  { eexists false, s1, m1, t1, h1, _. split_and!; [done|exact Hm1|done|by right]. }
  assert (splits m1 (bytes (second p) (zeros (c_size c2)) :: h1 :: bytes (middle p) (zeros pad) :: hs)) as Hm1'
    by reorder Hm1.
  destruct (c_safe (second p) LASTUNSIGNED m1 _ s1 t1 Ha2 Hm1' Hr1)
    as (b2 & s2 & m2 & t2 & h2 & E2 & Hm2 & Hr2 & Hp2).
  exists b2, s2, m2, t2, h1, h2. split; [done|]. split; [reorder Hm2|]. split; [done|by left].
Qed.

Lemma pair_join p xs bs ys m hs :
  length xs = c_size c1 → length bs = pad → length ys = c_size c2 →
  splits m (bytes p xs :: bytes (middle p) bs :: bytes (second p) ys :: hs) →
  splits m (bytes p (xs ++ bs ++ ys) :: hs) ∧ length (xs ++ bs ++ ys) = size.
Proof.
  intros Hx Hb Hy Hm. split; [|rewrite !length_app; lia]. rewrite app_assoc.
  apply (bytes_join p (c_size c1 + pad)); [rewrite length_app; lia|].
  by apply (bytes_join p (c_size c1) xs bs).
Qed.

Lemma pair_free b p h1 bs h2 m hs s t :
  addr_ok p size → length bs = pad → pair_part b p h1 h2 → splits m ([h1; bytes (middle p) bs; h2] ++ hs) →
  ∃ r m' t' xs, pair_proc c1 pad c2 p (Xdr XDR_FREE s m t) = Ok r (Xdr XDR_FREE s m' t') ∧
    splits m' (bytes p xs :: hs) ∧ length xs = size ∧ (b = true → r = true).
Proof.
  intros [Ha1 Ha2]%pair_addr Hbs Hp Hm. unfold pair_proc.
  assert (∃ b1 b2, c_part c1 b1 p h1 ∧ c_part c2 b2 (second p) h2 ∧ (b = true → b1 = true ∧ b2 = true) ∧
    (b1 = false → h2 = bytes (second p) (zeros (c_size c2)))) as (b1 & b2 & Hp1 & Hp2 & Hb & Hz).
  { destruct Hp as [[Hp1 Hp2]|(-> & Hp1 & ->)]; [by exists true, b|].
    destruct (c_zero (c:=c2) (second p)) as [b2 Hp2]. by exists false, b2. }
  destruct (c_free b1 p LASTUNSIGNED m h1 _ s t Ha1 Hp1 Hm) as (r1 & m1 & t1 & xs & E1 & Hm1 & Hx & Hr1).
  step_with E1. destruct r1; cycle 1.
  { destruct b1; [by discriminate Hr1|]. rewrite (Hz eq_refl) in Hm1.
    destruct (pair_join p xs bs (zeros (c_size c2)) m1 hs Hx Hbs (length_replicate _ _) Hm1) as [Hm' Hl].
    eexists false, m1, t1, _. split_and!; [done|exact Hm'|exact Hl|]. intros Hbt. by destruct (Hb Hbt). }
  assert (splits m1 (h2 :: bytes p xs :: bytes (middle p) bs :: hs)) as Hm1' by reorder Hm1.
  destruct (c_free b2 (second p) LASTUNSIGNED m1 h2 _ s t1 Ha2 Hp2 Hm1') as (r2 & m2 & t2 & ys & E2 & Hm2 & Hy & Hr2).
  destruct (pair_join p xs bs ys m2 hs Hx Hbs Hy) as [Hm' Hl]; [reorder Hm2|].
  eexists r2, m2, t2, _. split_and!; [done|exact Hm'|exact Hl|]. intros Hbt. apply Hr2. by destruct (Hb Hbt).
Qed.

Lemma pair_zero p :
  ∃ b, pair_part b p (bytes p (zeros (c_size c1))) (bytes (second p) (zeros (c_size c2))).
Proof.
  destruct (c_zero (c:=c1) p) as [b1 Hp1], (c_zero (c:=c2) (second p)) as [b2 Hp2].
  destruct b1; [exists b2; by left|exists false; by right].
Qed.
End pair.

(** [pad] bytes of alignment between the two. *)
Definition pair_codec (c1 : codec (S:=S)) (pad : nat) (c2 : codec (S:=S)) : codec (S:=S) :=
  Codec (c_val c1 * c_val c2) (c_size c1 + pad + c_size c2) (λ p _, pair_proc c1 pad c2 p)
    (λ v, c_enc c1 v.1 ++ c_enc c2 v.2) (λ v, c_valid c1 v.1 ∧ c_valid c2 v.2)
    (λ v p h, ∃ h1 bs h2, splits h [h1; bytes (p + Z.of_nat (c_size c1)) bs; h2] ∧ length bs = pad ∧
      c_rep c1 v.1 p h1 ∧ c_rep c2 v.2 (p + Z.of_nat (c_size c1 + pad)) h2)
    (λ b p h, ∃ h1 bs h2, splits h [h1; bytes (p + Z.of_nat (c_size c1)) bs; h2] ∧ length bs = pad ∧
      pair_part c1 pad c2 b p h1 h2).

#[export] Instance pair_codec_ok c1 pad c2 : CodecOk c1 → CodecOk c2 → CodecOk (pair_codec c1 pad c2).
Proof.
  intros H1' H2'. split; cbn [pair_codec c_proc c_size c_enc c_valid c_rep c_part c_val].
  - intros [v1 v2] p _ m h hs s t out k Ha [Hv1 Hv2] (h1 & bs & h2 & Hh & Hbs & Hr1 & Hr2) Hm Hw.
    pose proof (splits_nest _ _ _ _ Hm Hh) as Hm'.
    destruct (pair_encode c1 pad c2 v1 v2 p h1 bs h2 m hs s t out k Ha Hv1 Hv2 Hr1 Hr2 Hm' Hw)
      as (s' & m' & t' & E & Hm2 & Hw').
    exists s', m', t'. split; [done|]. split; [by apply (splits_rejoin _ _ _ _ Hh)|done].
  - intros [v1 v2] p _ m hs s t bs Ha [Hv1 Hv2] Hm Hr. cbn [fst snd] in *. rewrite <- app_assoc in Hr.
    destruct (pair_decode c1 pad c2 v1 v2 p m hs s t bs Ha Hv1 Hv2 Hm Hr)
      as (b & s' & m' & t' & h1 & h2 & E & Hm' & Hb).
    apply splits_join in Hm' as (h & Hh & Hm'). exists b, s', m', t', h. split; [done|]. split; [done|].
    apply (decoded_impl _ _ _ _ _ Hb). intros _ (Hr' & Hr1 & Hr2). split; [done|].
    exists h1, (zeros pad), h2. split_and!; [done|apply length_replicate|done..].
  - intros p _ m hs s t Ha Hm Hr.
    destruct (pair_safe c1 pad c2 p m hs s t Ha Hm Hr) as (b & s' & m' & t' & h1 & h2 & E & Hm' & Hr' & Hp).
    apply splits_join in Hm' as (h & Hh & Hm'). exists b, s', m', t', h. split_and!; [done..|].
    exists h1, (zeros pad), h2. split_and!; [done|apply length_replicate|done].
  - intros b p _ m h hs s t Ha (h1 & bs & h2 & Hh & Hbs & Hp) Hm.
    by apply (pair_free c1 pad c2 b p h1 bs h2 m hs s t Ha Hbs Hp), (splits_nest _ _ _ _ Hm).
  - intros p. destruct (pair_zero c1 pad c2 p) as [b Hp].
    exists b, (bytes p (zeros (c_size c1))), (zeros pad), (bytes (p + Z.of_nat (c_size c1 + pad)) (zeros (c_size c2))).
    split; [apply (pair_zeros c1 pad c2 p _ []); by apply splits_one|]. split; [apply length_replicate|done].
  - intros [v1 v2] p h [Hv1 Hv2] (h1 & bs & h2 & Hh & Hbs & Hr1 & Hr2). exists h1, bs, h2.
    split; [done|]. split; [done|]. left. split; by eapply c_rep_part.
Qed.

(** ** Elements in a row *)

Section elements.
Context (c : codec (S:=S)) `{!CodecOk c}.

Abbreviation next p := (p + Z.of_nat (c_size c)).

Fixpoint elems_rep (vs : list (c_val c)) (p : Z) (h : mem) : Prop :=
  match vs with
  | [] => h = ∅
  | v :: vs => ∃ h1 h2, splits h [h1; h2] ∧ c_rep c v p h1 ∧ elems_rep vs (next p) h2
  end.

(** [n] elements, of which a failed one is followed by zeros. *)
Fixpoint elems_part (b : bool) (n : nat) (p : Z) (h : mem) : Prop :=
  match n with
  | O => h = ∅ ∧ b = true
  | Datatypes.S n => ∃ h1 h2, splits h [h1; h2] ∧
      ((c_part c true p h1 ∧ elems_part b n (next p) h2) ∨
       (b = false ∧ c_part c false p h1 ∧ h2 = bytes (next p) (zeros (n * c_size c))))
  end.

Definition elems_enc (vs : list (c_val c)) : list Z := vs ≫= c_enc c.

Lemma next_addr p n :
  addr_ok p (Datatypes.S n * c_size c) →
  addr_ok p (c_size c) ∧ addr_ok (next p) (n * c_size c) ∧
  u32 (p + Z.of_nat (c_size c)) = p + Z.of_nat (c_size c).
Proof. unfold addr_ok. intros Ha. split; [lia|]. split; [lia|]. apply u32_small. lia. Qed.

Lemma elems_encode vs p m h hs s t out k :
  addr_ok p (length vs * c_size c) → Forall (c_valid c) vs → elems_rep vs p h → splits m (h :: hs) →
  writes out (length (elems_enc vs) + k) s →
  ∃ s' m' t', elements_loop (length vs) p (Z.of_nat (c_size c)) (c_proc c) (Xdr XDR_ENCODE s m t) =
      Ok true (Xdr XDR_ENCODE s' m' t') ∧ splits m' (h :: hs) ∧ writes (out ++ elems_enc vs) k s'.
Proof.
  revert p m h hs s t out. induction vs as [|v vs IH]; intros p m h hs s t out Ha Hv Hh Hm Hw.
  { exists s, m, t. split; [done|]. split; [done|]. by rewrite app_nil_r. }
  destruct Hh as (h1 & h2 & Hh & Hr & Hrs). apply Forall_cons in Hv as [Hv Hvs].
  destruct (next_addr p (length vs) Ha) as (Ha1 & Ha2 & Hu). pose proof (splits_nest _ _ _ _ Hm Hh) as Hm'.
  cbn [elems_enc mbind list_bind] in Hw |- *. rewrite length_app, <- Nat.add_assoc in Hw.
  destruct (c_encode v p LASTUNSIGNED m h1 _ s t out _ Ha1 Hv Hr Hm' Hw) as (s1 & m1 & t1 & E1 & Hm1 & Hw1).
  cbn [elements_loop length]. step_with E1. cbn [negb]. rewrite Hu. apply splits_swap in Hm1.
  destruct (IH _ m1 h2 _ s1 t1 _ Ha2 Hvs Hrs Hm1 Hw1) as (s2 & m2 & t2 & E2 & Hm2 & Hw2).
  exists s2, m2, t2. split; [done|]. split; [|by rewrite app_assoc].
  apply (splits_rejoin _ _ _ _ Hh). by apply splits_swap.
Qed.

Lemma elems_decode vs p m hs s t rest :
  addr_ok p (length vs * c_size c) → Forall (c_valid c) vs →
  splits m (bytes p (zeros (length vs * c_size c)) :: hs) → reads (elems_enc vs ++ rest) s →
  ∃ b s' m' t' h, elements_loop (length vs) p (Z.of_nat (c_size c)) (c_proc c) (Xdr XDR_DECODE s m t) =
      Ok b (Xdr XDR_DECODE s' m' t') ∧ splits m' (h :: hs) ∧
      decoded b t t' (reads rest s' ∧ elems_rep vs p h).
Proof.
  revert p m hs s t. induction vs as [|v vs IH]; intros p m hs s t Ha Hv Hm Hr.
  { exists true, s, m, t, ∅. by split_and!. }
  apply Forall_cons in Hv as [Hv Hvs]. destruct (next_addr p (length vs) Ha) as (Ha1 & Ha2 & Hu).
  cbn [length Nat.mul] in Hm. apply zeros_two in Hm.
  cbn [elems_enc mbind list_bind] in Hr. rewrite <- app_assoc in Hr.
  destruct (c_decode v p LASTUNSIGNED m _ s t _ Ha1 Hv Hm Hr) as (b1 & s1 & m1 & t1 & h1 & E1 & Hm1 & Hb1).
  cbn [elements_loop length]. step_with E1. destruct b1; cbn [negb]; cycle 1.
  { apply (splits_join m1 hs [_; _]) in Hm1 as (h & _ & Hm1). exists false, s1, m1, t1, h.
    split_and!; [done..|]. by apply (decoded_impl _ _ _ _ _ Hb1). }
  destruct Hb1 as (Hs1 & Hr1 & Hrep). rewrite Hu. apply splits_swap in Hm1.
  destruct (IH _ m1 _ s1 t1 Ha2 Hvs Hm1 Hr1) as (b2 & s2 & m2 & t2 & h2 & E2 & Hm2 & Hb2).
  apply splits_swap, (splits_join m2 hs [_; _]) in Hm2 as (h & Hh & Hm2).
  exists b2, s2, m2, t2, h. split; [done|]. split; [done|]. apply (decoded_step _ _ _ _ _ _ Hs1 Hb2). intros _ [Hr2 Hreps].
  split; [done|]. by exists h1, h2.
Qed.

Lemma elems_safe n p m hs s t :
  addr_ok p (n * c_size c) → splits m (bytes p (zeros (n * c_size c)) :: hs) → stream_ok s →
  ∃ b s' m' t' h, elements_loop n p (Z.of_nat (c_size c)) (c_proc c) (Xdr XDR_DECODE s m t) =
      Ok b (Xdr XDR_DECODE s' m' t') ∧ splits m' (h :: hs) ∧ stream_ok s' ∧ elems_part b n p h.
Proof.
  revert p m hs s t. induction n as [|n IH]; intros p m hs s t Ha Hm Hr.
  { exists true, s, m, t, ∅. by split_and!. }
  destruct (next_addr p n Ha) as (Ha1 & Ha2 & Hu). cbn [Nat.mul] in Hm. apply zeros_two in Hm.
  destruct (c_safe p LASTUNSIGNED m _ s t Ha1 Hm Hr) as (b1 & s1 & m1 & t1 & h1 & E1 & Hm1 & Hr1 & Hp1).
  cbn [elements_loop]. step_with E1. destruct b1; cbn [negb]; cycle 1.
  { apply (splits_join m1 hs [_; _]) in Hm1 as (h & Hh & Hm1). exists false, s1, m1, t1, h.
    split; [done|]. split; [done|]. split; [done|]. exists h1, (bytes (next p) (zeros (n * c_size c))).
    split; [done|]. by right. }
  rewrite Hu. apply splits_swap in Hm1.
  destruct (IH _ m1 _ s1 t1 Ha2 Hm1 Hr1) as (b2 & s2 & m2 & t2 & h2 & E2 & Hm2 & Hr2 & Hp2).
  apply splits_swap, (splits_join m2 hs [_; _]) in Hm2 as (h & Hh & Hm2).
  exists b2, s2, m2, t2, h. split; [done|]. split; [done|]. split; [done|]. exists h1, h2. split; [done|]. by left.
Qed.

Lemma elems_zero n p : ∃ b, elems_part b n p (bytes p (zeros (n * c_size c))).
Proof.
  revert p. induction n as [|n IH]; intros p; [by exists true|]. cbn [elems_part Nat.mul].
  assert (splits (bytes p (zeros (c_size c + n * c_size c)))
    [bytes p (zeros (c_size c)); bytes (next p) (zeros (n * c_size c))]) as Hs.
  { apply zeros_two. by apply splits_one. }
  destruct (c_zero p) as [[] Hp].
  - destruct (IH (next p)) as [b Hb]. exists b, (bytes p (zeros (c_size c))), (bytes (next p) (zeros (n * c_size c))).
    split; [exact Hs|by left].
  - exists false, (bytes p (zeros (c_size c))), (bytes (next p) (zeros (n * c_size c))). split; [exact Hs|by right].
Qed.

Lemma elems_free b n p m h hs s t :
  addr_ok p (n * c_size c) → elems_part b n p h → splits m (h :: hs) →
  ∃ r m' t' bs, elements_loop n p (Z.of_nat (c_size c)) (c_proc c) (Xdr XDR_FREE s m t) =
      Ok r (Xdr XDR_FREE s m' t') ∧ splits m' (bytes p bs :: hs) ∧ length bs = (n * c_size c)%nat ∧
      (b = true → r = true).
Proof.
  revert b p m h hs t. induction n as [|n IH]; intros b p m h hs t Ha Hp Hm.
  { destruct Hp as [-> ->]. by exists true, m, t, []. }
  destruct (next_addr p n Ha) as (Ha1 & Ha2 & Hu). destruct Hp as (h1 & h2 & Hh & Hp).
  apply (splits_nest _ _ _ _ Hm) in Hh. clear Hm.
  assert (∃ b1 b2, c_part c b1 p h1 ∧ elems_part b2 n (next p) h2 ∧ (b = true → b1 = true ∧ b2 = true) ∧
    (b1 = false → h2 = bytes (next p) (zeros (n * c_size c)))) as (b1 & b2 & Hp1 & Hp2 & Hb & Hz).
  { destruct Hp as [[Hp1 Hp2]|(-> & Hp1 & ->)]; [by exists true, b|].
    destruct (elems_zero n (next p)) as [b2 Hb2]. by exists false, b2. }
  destruct (c_free b1 p LASTUNSIGNED m h1 _ s t Ha1 Hp1 Hh) as (r1 & m1 & t1 & xs & E1 & Hm1 & Hx & Hr1).
  cbn [elements_loop]. step_with E1. destruct r1; cbn [negb]; cycle 1.
  { destruct b1; [by discriminate Hr1|]. rewrite (Hz eq_refl) in Hm1.
    exists false, m1, t1, (xs ++ zeros (n * c_size c)). split; [done|].
    split; [by apply (bytes_join p (c_size c))|]. split; [|by intros Hbt; destruct (Hb Hbt)].
    rewrite length_app, Hx. unfold zeros. by rewrite length_replicate. }
  rewrite Hu. apply splits_swap in Hm1.
  destruct (IH b2 _ m1 h2 _ t1 Ha2 Hp2 Hm1) as (r2 & m2 & t2 & ys & E2 & Hm2 & Hy & Hr2).
  exists r2, m2, t2, (xs ++ ys). split; [done|]. apply splits_swap in Hm2.
  split; [by apply (bytes_join p (c_size c))|]. split; [rewrite length_app; cbn [Nat.mul]; lia|].
  intros Hbt. apply Hr2. by destruct (Hb Hbt).
Qed.

Lemma elems_rep_part vs p h :
  Forall (c_valid c) vs → elems_rep vs p h → elems_part true (length vs) p h.
Proof.
  revert p h. induction vs as [|v vs IH]; intros p h Hv Hh; [done|]. apply Forall_cons in Hv as [Hv Hvs].
  destruct Hh as (h1 & h2 & Hh & Hr & Hrs). exists h1, h2. split; [done|]. left.
  split; [by eapply c_rep_part|by apply IH].
Qed.

(** *** Vectors *)

Lemma vector_loop n p sz (proc : Z → Z → X bool) x : xdr_vector p n sz proc x = elements_loop n p sz proc x.
Proof.
  revert p x. induction n as [|n IH]; intros p x; [done|]. cbn [xdr_vector elements_loop].
  unfold mbind, M_bind. destruct (proc p LASTUNSIGNED x) as [[] y| | |]; [apply IH|done..].
Qed.

Definition vector_codec (n : nat) : codec (S:=S) :=
  Codec (list (c_val c)) (n * c_size c) (λ p _, xdr_vector p n (Z.of_nat (c_size c)) (c_proc c))
    elems_enc (λ vs, length vs = n ∧ Forall (c_valid c) vs) elems_rep (λ b p h, elems_part b n p h).

Lemma vector_codec_ok n : CodecOk (vector_codec n).
Proof.
  split; cbn [vector_codec c_proc c_size c_enc c_valid c_rep c_part c_val].
  - intros vs p _ m h hs s t out k Ha [<- Hv] Hh Hm Hw. rewrite vector_loop. by apply (elems_encode vs p m h hs s t out k).
  - intros vs p _ m hs s t bs Ha [<- Hv] Hm Hr. rewrite vector_loop. by apply (elems_decode vs p m hs s t bs).
  - intros p _ m hs s t Ha Hm Hr. rewrite vector_loop. by apply elems_safe.
  - intros b p _ m h hs s t Ha Hp Hm. rewrite vector_loop. by apply (elems_free b n p m h hs s t).
  - intros p. apply elems_zero.
  - intros vs p h [<- Hv] Hh. by apply elems_rep_part.
Qed.
End elements.
End aggregates.
