(* ===== verification/XdrArrays.v ===== *)
(** * Counted arrays and pointers

    [xdr_array]: the count is bounded by the caller's maximum and the size
    may not overflow; the elements are those of a codec. *)
From S2P Require Import Prelude Posix CMemory Xdr XdrMemory XdrCodec XdrScalars XdrStrings XdrAggregates.
Local Open Scope Z_scope.

Lemma nodesize_loop_ok n elsize acc :
  0 ≤ acc < 2 ^ 32 → 0 ≤ elsize < 2 ^ 32 →
  nodesize_loop n elsize acc =
    if acc + Z.of_nat n * elsize <? 2 ^ 32 then Some (acc + Z.of_nat n * elsize) else None.
Proof.
  revert acc. induction n as [|n IH]; intros acc Ha He; cbn [nodesize_loop].
  { destruct (Z.ltb_spec (acc + Z.of_nat 0 * elsize) (2 ^ 32)); [f_equal|]; lia. }
  destruct (Z.lt_ge_cases (acc + elsize) (2 ^ 32)) as [Hlt|Hge].
  - rewrite u32_small by lia. destruct (Z.ltb_spec (acc + elsize) acc); [lia|]. rewrite IH by lia.
    replace (acc + Z.of_nat (Datatypes.S n) * elsize) with (acc + elsize + Z.of_nat n * elsize) by lia. done.
  - assert (u32 (acc + elsize) = acc + elsize - 2 ^ 32) as ->.
    { unfold u32. symmetry. apply (Z.mod_unique _ _ 1); lia. }
    destruct (Z.ltb_spec (acc + elsize - 2 ^ 32) acc); [|lia].
    destruct (Z.ltb_spec (acc + Z.of_nat (Datatypes.S n) * elsize) (2 ^ 32)); [nia|done].
Qed.

Section array.
Context {S : Type} `{XdrStream S} `{Allocator}.
Implicit Types (hs : list mem) (bs : list Z) (s : S).
Context (c : codec (S:=S)) `{!CodecOk c} (max : nat) (Hmax : Z.of_nat max * Z.of_nat (c_size c) < 2 ^ 32).
Context (Hword : Z.of_nat max < 2 ^ 32) (Hsize : Z.of_nat (c_size c) < 2 ^ 32).

Abbreviation elsize := (Z.of_nat (c_size c)).
Abbreviation block_size n := (Z.of_nat (n * c_size c)).

(** The two fields of an array of [n] elements at [q]. *)
Definition array_fields (first : bool) (p q : Z) (n : nat) : list mem :=
  fields (pointer_at first p) q (count_at first p) (Z.of_nat n).

Definition array_at (first : bool) (p q : Z) (n : nat) (he : mem) : list mem :=
  array_fields first p q n ++ [{[Block q := block_size n]}; he].

Lemma block_size_eq n : Z.of_nat n * elsize = block_size n.
Proof. by rewrite Nat2Z.inj_mul. Qed.

Lemma nodesize_some n : (n ≤ max)%nat → nodesize_loop n elsize 0 = Some (block_size n).
Proof.
  intros Hn. rewrite nodesize_loop_ok, Z.add_0_l, block_size_eq by lia.
  destruct (Z.ltb_spec (block_size n) (2 ^ 32)); [done|]. rewrite <- block_size_eq in *. nia.
Qed.

(** *** Encoding *)

Lemma array_encode first p q vs he m hs s t out k :
  addr_ok q (length vs * c_size c) → (length vs ≤ max)%nat → Forall (c_valid c) vs → elems_rep c vs q he →
  splits m (array_at first p q (length vs) he ++ hs) →
  writes out (length (be_bytes (Z.of_nat (length vs)) ++ elems_enc c vs) + k) s →
  ∃ s' m' t', xdr_array (pointer_at first p) (count_at first p) (Z.of_nat max) elsize (c_proc c)
      (Xdr XDR_ENCODE s m t) = Ok true (Xdr XDR_ENCODE s' m' t') ∧
    splits m' (array_at first p q (length vs) he ++ hs) ∧
    writes (out ++ be_bytes (Z.of_nat (length vs)) ++ elems_enc c vs) k s'.
Proof.
  intros Ha Hn Hv Hrep Hm Hw. unfold xdr_array. rewrite length_app, length_be_bytes, <- Nat.add_assoc in Hw.
  pose proof Ha as [Hq Hq2]. assert (word q) as Hwq by (unfold word; lia).
  assert (word (Z.of_nat (length vs))) as Hwn by (unfold word; lia).
  step_with (load_pointer (pointer_at first p) q _ XDR_ENCODE s m t Hwq Hm). pose proof Hm as Hm'. apply splits_swap in Hm'.
  destruct (u_int_encode (count_at first p) (Z.of_nat (length vs)) m _ s t out _ Hwn Hm' Hw) as (s1 & E1 & Hw1).
  step_with E1. cbn [negb]. step_with (load_pointer (count_at first p) (Z.of_nat (length vs)) _ XDR_ENCODE s1 m t Hwn Hm').
  rewrite bind_gets. cbn [x_op]. destruct (Z.ltb_spec (Z.of_nat max) (Z.of_nat (length vs))); [lia|].
  cbn [andb]. rewrite Nat2Z.id, nodesize_some by done.
  rewrite (bool_decide_eq_false_2 (XDR_ENCODE = XDR_DECODE)), (bool_decide_eq_false_2 (XDR_ENCODE = XDR_FREE)) by done.
  rewrite !andb_false_r.
  assert (splits m (he :: array_fields first p q (length vs) ++ {[Block q := block_size (length vs)]} :: hs)) as Hme
    by reorder Hm.
  destruct (elems_encode c vs q m he _ s1 t _ k Ha Hv Hrep Hme Hw1) as (s2 & m2 & t2 & E2 & Hm2 & Hw2).
  step_with E2. exists s2, m2, t2. split; [done|]. split; [reorder Hm2|]. by rewrite <- app_assoc in Hw2.
Qed.

Lemma array_encode_null first p m hs s t out k :
  splits m (array_fields first p 0 0 ++ hs) → writes out (4 + k) s →
  ∃ s', xdr_array (pointer_at first p) (count_at first p) (Z.of_nat max) elsize (c_proc c)
      (Xdr XDR_ENCODE s m t) = Ok true (Xdr XDR_ENCODE s' m t) ∧ writes (out ++ be_bytes 0) k s'.
Proof.
  intros Hm Hw. unfold xdr_array. assert (word 0) as Hzero by (unfold word; lia).
  step_with (load_pointer (pointer_at first p) 0 _ XDR_ENCODE s m t Hzero Hm). apply splits_swap in Hm.
  destruct (u_int_encode (count_at first p) 0 m _ s t out _ Hzero Hm Hw) as (s1 & E1 & Hw1).
  step_with E1. cbn [negb]. step_with (load_pointer (count_at first p) 0 _ XDR_ENCODE s1 m t Hzero Hm).
  rewrite bind_gets. cbn [x_op]. destruct (Z.ltb_spec (Z.of_nat max) 0); [lia|].
  by exists s1.
Qed.

(** *** Decoding: the block is allocated and cleared *)

Lemma alloc_at_bind {B} cpp n (K : Z → M (xdr_handle S) B) x :
  (q ← mem_alloc n; store_int 4 cpp q;; K q) x = (alloc_at cpp n ≫= K) x.
Proof.
  unfold alloc_at, mbind, M_bind. destruct (mem_alloc n x) as [q y| | |]; [|done..].
  by destruct (store_int 4 cpp q y).
Qed.

(** What follows the count. *)
Definition array_body (addrp : Z) (n : nat) : M (xdr_handle S) bool :=
  target ← mem_alloc (block_size n);
  store_int 4 addrp target;;
  if target =? 0 then mret false else
  store_bytes target (replicate (Z.to_nat (block_size n)) 0);;
  stat ← elements_loop n target elsize (c_proc c);
  free_array addrp stat.

Lemma array_body_ok first p n m hs s t :
  splits m (array_fields first p 0 n ++ hs) →
  ∃ q m',
    (array_body (pointer_at first p) n (Xdr XDR_DECODE s m t) = Ok false (Xdr XDR_DECODE s m' (false :: t)) ∧
     splits m' (array_fields first p 0 n ++ hs)) ∨
    (array_body (pointer_at first p) n (Xdr XDR_DECODE s m t) =
       (elements_loop n q elsize (c_proc c) ≫= free_array (pointer_at first p)) (Xdr XDR_DECODE s m' (true :: t)) ∧
     addr_ok q (n * c_size c) ∧ splits m' (array_at first p q n (bytes q (zeros (n * c_size c))) ++ hs)).
Proof.
  intros Hm. unfold array_body. rewrite alloc_at_bind.
  destruct (alloc_at_ok (pointer_at first p) (block_size n) m _ XDR_DECODE s t Hm ltac:(lia))
    as (q & m1 & b & E1 & Hq & Hcase). step_with E1. unfold word in Hq.
  destruct Hcase as [(-> & -> & Hm1)|(junk & -> & Hne & Hb & Hj & Hm1)].
  { exists 0, m1. by left. }
  destruct (Z.eqb_spec q 0); [done|]. apply splits_swap, splits_block in Hm1. rewrite Hj in Hm1. apply splits_swap in Hm1.
  destruct (store_bytes_ok q junk (replicate (Z.to_nat (block_size n)) 0) _ (Xdr XDR_DECODE s m1 (true :: t)) Hm1)
    as (m2 & E2 & Hm2); [rewrite length_replicate; unfold zlen in Hj; lia|].
  step_with E2. exists q, m2. right. split; [done|]. split; [unfold addr_ok; lia|].
  rewrite Nat2Z.id in Hm2. reorder Hm2.
Qed.

(** The call once the count is stored. *)
Lemma array_read first p n m hs s t s' m' :
  word n → splits m (array_fields first p 0 0 ++ hs) →
  xdr_u_int (count_at first p) (Xdr XDR_DECODE s m t) = Ok true (Xdr XDR_DECODE s' m' t) →
  splits m' (bytes (count_at first p) (le_bytes 4 n) :: bytes (pointer_at first p) (le_bytes 4 0) :: hs) →
  xdr_array (pointer_at first p) (count_at first p) (Z.of_nat max) elsize (c_proc c) (Xdr XDR_DECODE s m t) =
    (if Z.of_nat max <? n then mret false
     else if n =? 0 then mret true else array_body (pointer_at first p) (Z.to_nat n)) (Xdr XDR_DECODE s' m' t).
Proof.
  intros Hn Hm E Hm'. unfold xdr_array. assert (word 0) as Hzero by (unfold word; lia).
  step_with (load_pointer (pointer_at first p) 0 _ XDR_DECODE s m t Hzero Hm). step_with E. cbn [negb].
  step_with (load_pointer (count_at first p) n _ XDR_DECODE s' m' t Hn Hm'). rewrite bind_gets. cbn [x_op].
  change (negb (bool_decide (XDR_DECODE = XDR_FREE))) with true. rewrite andb_true_r. unfold word in Hn.
  destruct (Z.ltb_spec (Z.of_nat max) n); [done|]. rewrite nodesize_some by lia.
  change ((0 =? 0) && bool_decide (XDR_DECODE = XDR_DECODE)) with true. cbv iota.
  by destruct (Z.eqb_spec n 0).
Qed.

Lemma array_decode first p vs m hs s t rest :
  (length vs ≤ max)%nat → Forall (c_valid c) vs → splits m (array_fields first p 0 0 ++ hs) →
  reads (be_bytes (Z.of_nat (length vs)) ++ elems_enc c vs ++ rest) s →
  ∃ b s' m' t', xdr_array (pointer_at first p) (count_at first p) (Z.of_nat max) elsize (c_proc c)
      (Xdr XDR_DECODE s m t) = Ok b (Xdr XDR_DECODE s' m' t') ∧
    ((b = true ∧ t' = t ∧ vs = [] ∧ reads rest s' ∧ splits m' (array_fields first p 0 0 ++ hs)) ∨
     (b = false ∧ t' = false :: t ∧ splits m' (array_fields first p 0 (length vs) ++ hs)) ∨
     ∃ q he, addr_ok q (length vs * c_size c) ∧ splits m' (array_at first p q (length vs) he ++ hs) ∧
       decoded b t t' (reads rest s' ∧ elems_rep c vs q he)).
Proof.
  intros Hn Hv Hm Hr. assert (word (Z.of_nat (length vs))) as Hwn by (unfold word; lia).
  pose proof Hm as Hm0. apply splits_swap in Hm0.
  destruct (u_int_decode (count_at first p) (Z.of_nat (length vs)) m _ s t _ _ Hwn Hm0 eq_refl Hr)
    as (s1 & m1 & E1 & Hm1 & Hr1).
  rewrite (array_read first p _ m hs s t s1 m1 Hwn Hm E1 Hm1).
  destruct (Z.ltb_spec (Z.of_nat max) (Z.of_nat (length vs))); [lia|]. apply splits_swap in Hm1.
  destruct (Z.eqb_spec (Z.of_nat (length vs)) 0) as [Hz|Hz].
  { destruct vs; [|done]. exists true, s1, m1, t. split; [done|]. by left. }
  rewrite Nat2Z.id. destruct (array_body_ok first p (length vs) m1 hs s1 t Hm1)
    as (q & m2 & [(E2 & Hm2)|(E2 & Ha & Hm2)]).
  { exists false, s1, m2, (false :: t). split; [done|]. right. by left. }
  rewrite E2.
  assert (splits m2 (bytes q (zeros (length vs * c_size c)) :: array_fields first p q (length vs) ++
    {[Block q := block_size (length vs)]} :: hs)) as Hm2' by reorder Hm2.
  destruct (elems_decode c vs q m2 _ s1 (true :: t) rest Ha Hv Hm2' Hr1) as (b & s3 & m3 & t3 & he & E3 & Hm3 & Hb).
  step_with E3. exists b, s3, m3, t3. split; [done|]. right. right. exists q, he. split; [done|].
  split; [reorder Hm3|]. apply (decoded_step _ _ _ _ _ _ (suffix_cons_r t t true ltac:(done)) Hb). done.
Qed.

Lemma array_safe first p m hs s t :
  splits m (array_fields first p 0 0 ++ hs) → stream_ok s →
  ∃ b s' m' t' n, xdr_array (pointer_at first p) (count_at first p) (Z.of_nat max) elsize (c_proc c)
      (Xdr XDR_DECODE s m t) = Ok b (Xdr XDR_DECODE s' m' t') ∧ stream_ok s' ∧ word (Z.of_nat n) ∧
    ((splits m' (array_fields first p 0 n ++ hs) ∧ (b = true → n = 0%nat)) ∨
     ∃ q he, addr_ok q (n * c_size c) ∧ splits m' (array_at first p q n he ++ hs) ∧ elems_part c b n q he).
Proof.
  intros Hm Hr. pose proof Hm as Hm0. apply splits_swap in Hm0.
  destruct (u_int_safe (count_at first p) 0 m _ s t ltac:(unfold word; lia) Hm0 Hr)
    as (b & s1 & m1 & n & E1 & Hm1 & Hr1 & Hwn & Hb).
  destruct b; cycle 1.
  { exists false, s1, m1, t, O. split; [|split; [done|]; split; [unfold word; lia|]].
    - unfold xdr_array. step_with (load_pointer (pointer_at first p) 0 _ XDR_DECODE s m t ltac:(unfold word; lia) Hm).
      by step_with E1.
    - left. split; [|done]. apply splits_swap in Hm1. by rewrite (Hb eq_refl) in Hm1. }
  rewrite (array_read first p n m hs s t s1 m1 Hwn Hm E1 Hm1). apply splits_swap in Hm1.
  assert (n = Z.of_nat (Z.to_nat n)) as En by (unfold word in Hwn; lia). rewrite En in Hm1, Hwn.
  destruct (Z.ltb_spec (Z.of_nat max) n); [by exists false, s1, m1, t, (Z.to_nat n); split_and!; [done..|left]|].
  destruct (Z.eqb_spec n 0) as [->|Hz]; [by exists true, s1, m1, t, O; split_and!; [done..|left]|].
  destruct (array_body_ok first p (Z.to_nat n) m1 hs s1 t Hm1)
    as (q & m2 & [(E2 & Hm2)|(E2 & Ha & Hm2)]).
  { exists false, s1, m2, (false :: t), (Z.to_nat n). split_and!; [done..|by left]. }
  rewrite E2.
  assert (splits m2 (bytes q (zeros (Z.to_nat n * c_size c)) :: array_fields first p q (Z.to_nat n) ++
    {[Block q := block_size (Z.to_nat n)]} :: hs)) as Hm2' by reorder Hm2.
  destruct (elems_safe c (Z.to_nat n) q m2 _ s1 (true :: t) Ha Hm2' Hr1) as (b & s3 & m3 & t3 & he & E3 & Hm3 & Hr3 & Hp).
  step_with E3. exists b, s3, m3, t3, (Z.to_nat n). split; [done|]. split; [done|]. split; [done|]. right.
  exists q, he. split; [done|]. split; [reorder Hm3|done].
Qed.

(** *** Release *)

Lemma array_free first p q n he b m hs s t :
  word (Z.of_nat n) → addr_ok q (n * c_size c) → elems_part c b n q he →
  splits m (array_at first p q n he ++ hs) →
  ∃ r m' t', xdr_array (pointer_at first p) (count_at first p) (Z.of_nat max) elsize (c_proc c)
      (Xdr XDR_FREE s m t) = Ok r (Xdr XDR_FREE s m' t') ∧ (b = true → r = true) ∧
    splits m' (array_fields first p 0 n ++ hs).
Proof.
  intros Hwn Ha Hp Hm. unfold xdr_array. pose proof Ha as [Hq Hq2].
  assert (word q) as Hwq by (unfold word; lia).
  step_with (load_pointer (pointer_at first p) q _ XDR_FREE s m t Hwq Hm).
  step_with (u_int_free (count_at first p) s m t). cbn [negb]. pose proof Hm as Hm0. apply splits_swap in Hm0.
  step_with (load_pointer (count_at first p) (Z.of_nat n) _ XDR_FREE s m t Hwn Hm0). rewrite bind_gets. cbn [x_op].
  change (negb (bool_decide (XDR_FREE = XDR_FREE))) with false. rewrite andb_false_r, Nat2Z.id.
  rewrite nodesize_loop_ok, Z.add_0_l, block_size_eq by lia.
  destruct (Z.ltb_spec (block_size n) (2 ^ 32)); [|lia]. destruct (Z.eqb_spec q 0); [lia|]. cbn [andb].
  assert (splits m (he :: {[Block q := block_size n]} :: array_fields first p q n ++ hs)) as Hm1 by reorder Hm.
  destruct (elems_free c b n q m he _ s t Ha Hp Hm1) as (r & m2 & t2 & bs & E2 & Hm2 & Hbs & Hr).
  step_with E2. unfold free_array. rewrite bind_gets. cbn [x_op].
  change (bool_decide (XDR_FREE = XDR_FREE)) with true. cbv iota.
  apply splits_swap in Hm2. rewrite <- Hbs in Hm2. apply splits_block in Hm2. apply splits_swap in Hm2.
  rewrite bind_assoc. step_with (load_pointer (pointer_at first p) q _ XDR_FREE s m2 t2 Hwq Hm2).
  destruct (free_at_ok (pointer_at first p) q bs m2 _ XDR_FREE s t2 Hm2 ltac:(lia)) as (m3 & E3 & Hm3).
  step_with E3. exists r, m3, t2. by split_and!.
Qed.

Lemma array_free_null first p n m hs s t :
  word (Z.of_nat n) → splits m (array_fields first p 0 n ++ hs) →
  ∃ r, xdr_array (pointer_at first p) (count_at first p) (Z.of_nat max) elsize (c_proc c)
      (Xdr XDR_FREE s m t) = Ok r (Xdr XDR_FREE s m t) ∧ (n = 0%nat → r = true).
Proof.
  intros Hwn Hm. unfold xdr_array. assert (word 0) as Hzero by (unfold word; lia).
  step_with (load_pointer (pointer_at first p) 0 _ XDR_FREE s m t Hzero Hm).
  step_with (u_int_free (count_at first p) s m t). cbn [negb]. pose proof Hm as Hm0. apply splits_swap in Hm0.
  step_with (load_pointer (count_at first p) (Z.of_nat n) _ XDR_FREE s m t Hwn Hm0). rewrite bind_gets. cbn [x_op].
  change (negb (bool_decide (XDR_FREE = XDR_FREE))) with false. rewrite andb_false_r, Nat2Z.id.
  rewrite nodesize_loop_ok, Z.add_0_l, block_size_eq by lia.
  destruct (Z.ltb_spec (block_size n) (2 ^ 32)); [by exists true|]. exists false. split; [done|].
  intros ->. lia.
Qed.
End array.

(** ** The codec of a counted array *)

Section array_codec.
Context {S : Type} `{XdrStream S} `{Allocator}.
Context (c : codec (S:=S)) `{!CodecOk c}.

Definition array_codec (first : bool) (max : nat) : codec (S:=S) :=
  Codec (list (c_val c)) 8
    (λ p _, xdr_array (pointer_at first p) (count_at first p) (Z.of_nat max) (Z.of_nat (c_size c)) (c_proc c))
    (λ vs, be_bytes (Z.of_nat (length vs)) ++ elems_enc c vs)
    (λ vs, (length vs ≤ max)%nat ∧ Forall (c_valid c) vs)
    (λ vs p h, (vs = [] ∧ splits h (array_fields first p 0 0)) ∨
      ∃ q he, addr_ok q (length vs * c_size c) ∧ elems_rep c vs q he ∧
        splits h (array_at c first p q (length vs) he))
    (λ b p h, ∃ n, word (Z.of_nat n) ∧
      ((splits h (array_fields first p 0 n) ∧ (b = true → n = 0%nat)) ∨
       ∃ q he, addr_ok q (n * c_size c) ∧ elems_part c b n q he ∧ splits h (array_at c first p q n he))).

Lemma array_codec_ok first max :
  Z.of_nat max * Z.of_nat (c_size c) < 2 ^ 32 → Z.of_nat max < 2 ^ 32 → Z.of_nat (c_size c) < 2 ^ 32 →
  CodecOk (array_codec first max).
Proof.
  intros Hmax Hword Hsize.
  split; cbn [array_codec c_proc c_size c_enc c_valid c_rep c_part c_val].
  - intros vs p _ m h hs s t out k _ [Hn Hv] [[-> Hh]|(q & he & Ha & Hrep & Hh)] Hm Hw.
    + apply (splits_nest _ _ _ _ Hm) in Hh.
      destruct (array_encode_null c max first p m hs s t out k Hh Hw) as (s' & E & Hw').
      by exists s', m, t.
    + pose proof (splits_nest _ _ _ _ Hm Hh) as Hm'.
      destruct (array_encode c max Hmax Hword Hsize first p q vs he m hs s t out k Ha Hn Hv Hrep Hm' Hw)
        as (s' & m' & t' & E & Hm2 & Hw').
      exists s', m', t'. split; [done|]. split; [by apply (splits_rejoin _ _ _ _ Hh)|done].
  - intros vs p _ m hs s t bs _ [Hn Hv] Hm Hr. apply (fields_zero first) in Hm. rewrite <- app_assoc in Hr.
    destruct (array_decode c max Hmax Hword Hsize first p vs m hs s t bs Hn Hv Hm Hr) as (b & s' & m' & t' & E & Hcase).
    destruct Hcase as [(-> & -> & -> & Hr' & Hm')|[(-> & -> & Hm')|(q & he & Ha & Hm' & Hb)]];
      apply splits_join in Hm' as (h & Hh & Hm').
    + exists true, s', m', t, h. split_and!; [done..|]. apply decoded_same; [done|]. split; [done|by left].
    + exists false, s', m', (false :: t), h. split_and!; [done..|apply decoded_refused].
    + exists b, s', m', t', h. split; [done|]. split; [done|]. apply (decoded_impl _ _ _ _ _ Hb). intros _ [Hr' Hrep].
      split; [done|]. right. by exists q, he.
  - intros p _ m hs s t _ Hm Hr. apply (fields_zero first) in Hm.
    destruct (array_safe c max Hmax Hsize first p m hs s t Hm Hr) as (b & s' & m' & t' & n & E & Hr' & Hn & Hcase).
    destruct Hcase as [[Hm' Hb]|(q & he & Ha & Hm' & Hp)]; apply splits_join in Hm' as (h & Hh & Hm');
      exists b, s', m', t', h; (split; [done|]); (split; [done|]); (split; [done|]); exists n; (split; [done|]).
    + by left.
    + right. by exists q, he.
  - intros b p _ m h hs s t _ (n & Hn & Hcase) Hm.
    assert (∀ m', splits m' (array_fields first p 0 n ++ hs) → ∃ bs, splits m' (bytes p bs :: hs) ∧ length bs = 8%nat)
      as Hfin.
    { intros m' Hm'. apply fields_object in Hm'. eexists. split; [exact Hm'|]. by destruct first. }
    destruct Hcase as [[Hh Hb]|(q & he & Ha & Hp & Hh)]; apply (splits_nest _ _ _ _ Hm) in Hh.
    + destruct (array_free_null c max Hsize first p n m hs s t Hn Hh) as (r & E & Hr).
      destruct (Hfin m Hh) as (bs & Hbs & Hl). exists r, m, t, bs. split_and!; [done..|]. auto.
    + destruct (array_free c max Hsize first p q n he b m hs s t Hn Ha Hp Hh) as (r & m' & t' & E & Hr & Hm').
      destruct (Hfin m' Hm') as (bs & Hbs & Hl). by exists r, m', t', bs.
  - intros p. exists true, O. split; [unfold word; lia|]. left. split; [|done].
    apply (fields_zero first p _ []). by apply splits_one.
  - intros vs p h [Hn Hv] Hcase. exists (length vs). split; [unfold word; lia|].
    destruct Hcase as [[-> Hh]|(q & he & Ha & Hrep & Hh)]; [by left|right].
    exists q, he. split; [done|]. split; [by apply elems_rep_part|done].
Qed.
End array_codec.

(** * Pointers

    [xdr_reference] and [xdr_pointer] over the filter they are given. *)

Section reference.
Context {S : Type} `{XdrStream S} `{Allocator}.
Implicit Types (hs : list mem) (bs : list Z) (s : S).
Context (c : codec (S:=S)) `{!CodecOk c}.

Abbreviation sz := (Z.of_nat (c_size c)).

Definition reference_at (p q : Z) (hq : mem) : list mem :=
  [bytes p (le_bytes 4 q); {[Block q := sz]}; hq].

Lemma reference_encode p q v hq m hs s t out k :
  addr_ok q (c_size c) → c_valid c v → c_rep c v q hq → splits m (reference_at p q hq ++ hs) →
  writes out (length (c_enc c v) + k) s →
  ∃ s' m' t', xdr_reference p sz (c_proc c) (Xdr XDR_ENCODE s m t) = Ok true (Xdr XDR_ENCODE s' m' t') ∧
    splits m' (reference_at p q hq ++ hs) ∧ writes (out ++ c_enc c v) k s'.
Proof.
  intros Ha Hv Hrep Hm Hw. unfold xdr_reference. pose proof Ha as [Hq Hq2].
  step_with (load_pointer p q _ XDR_ENCODE s m t ltac:(unfold word; lia) Hm). rewrite bind_gets. cbn [x_op].
  destruct (Z.eqb_spec q 0); [lia|]. cbn [andb]. unfold reference_target.
  assert (splits m (hq :: bytes p (le_bytes 4 q) :: {[Block q := sz]} :: hs)) as Hm1 by reorder Hm.
  destruct (c_encode v q LASTUNSIGNED m hq _ s t out k Ha Hv Hrep Hm1 Hw) as (s' & m' & t' & E & Hm' & Hw').
  step_with E. exists s', m', t'. split; [done|]. split; [reorder Hm'|done].
Qed.

(** The object is allocated and cleared. *)
Lemma reference_space p m hs s t :
  splits m (bytes p (le_bytes 4 0) :: hs) →
  ∃ q m',
    (xdr_reference p sz (c_proc c) (Xdr XDR_DECODE s m t) = Ok false (Xdr XDR_DECODE s m' (false :: t)) ∧
     splits m' (bytes p (le_bytes 4 0) :: hs)) ∨
    (xdr_reference p sz (c_proc c) (Xdr XDR_DECODE s m t) = reference_target p q (c_proc c) (Xdr XDR_DECODE s m' (true :: t)) ∧
     addr_ok q (c_size c) ∧ splits m' (reference_at p q (bytes q (zeros (c_size c))) ++ hs)).
Proof.
  intros Hm. unfold xdr_reference.
  step_with (load_pointer p 0 _ XDR_DECODE s m t ltac:(unfold word; lia) Hm). rewrite bind_gets. cbn [x_op].
  change ((0 =? 0) && bool_decide (XDR_DECODE = XDR_FREE)) with false.
  change ((0 =? 0) && bool_decide (XDR_DECODE = XDR_DECODE)) with true. cbv iota. rewrite alloc_at_bind.
  destruct (alloc_at_ok p sz m _ XDR_DECODE s t Hm ltac:(lia)) as (q & m1 & b & E1 & Hq & Hcase).
  step_with E1. unfold word in Hq. destruct Hcase as [(-> & -> & Hm1)|(junk & -> & Hne & Hb & Hj & Hm1)].
  { exists 0, m1. by left. }
  destruct (Z.eqb_spec q 0); [done|]. apply splits_swap, splits_block in Hm1. rewrite Hj in Hm1. apply splits_swap in Hm1.
  destruct (store_bytes_ok q junk (replicate (Z.to_nat sz) 0) _ (Xdr XDR_DECODE s m1 (true :: t)) Hm1)
    as (m2 & E2 & Hm2); [rewrite length_replicate; unfold zlen in Hj; lia|].
  step_with E2. exists q, m2. right. split; [done|]. split; [unfold addr_ok; lia|].
  rewrite Nat2Z.id in Hm2. reorder Hm2.
Qed.

Lemma reference_decode p v m hs s t rest :
  c_valid c v → splits m (bytes p (le_bytes 4 0) :: hs) → reads (c_enc c v ++ rest) s →
  ∃ b s' m' t' h, xdr_reference p sz (c_proc c) (Xdr XDR_DECODE s m t) = Ok b (Xdr XDR_DECODE s' m' t') ∧
    splits m' (h :: hs) ∧
    decoded b t t' (reads rest s' ∧ ∃ q hq, addr_ok q (c_size c) ∧ c_rep c v q hq ∧ splits h (reference_at p q hq)).
Proof.
  intros Hv Hm Hr. destruct (reference_space p m hs s t Hm) as (q & m1 & [(E & Hm1)|(E & Ha & Hm1)]).
  { exists false, s, m1, (false :: t), (bytes p (le_bytes 4 0)). split_and!; [done..|apply decoded_refused]. }
  rewrite E. unfold reference_target.
  assert (splits m1 (bytes q (zeros (c_size c)) :: bytes p (le_bytes 4 q) :: {[Block q := sz]} :: hs)) as Hm1' by reorder Hm1.
  destruct (c_decode v q LASTUNSIGNED m1 _ s (true :: t) rest Ha Hv Hm1' Hr) as (b & s2 & m2 & t2 & hq & E2 & Hm2 & Hb).
  step_with E2. assert (splits m2 (reference_at p q hq ++ hs)) as Hm2' by reorder Hm2.
  apply splits_join in Hm2' as (h & Hh & Hm2'). exists b, s2, m2, t2, h. split; [done|]. split; [done|].
  apply (decoded_step _ _ _ _ _ _ (suffix_cons_r t t true ltac:(done)) Hb). intros _ [Hr' Hrep]. split; [done|]. by exists q, hq.
Qed.

(** Null, or an object as far as it was decoded. *)
Definition reference_part (b : bool) (p : Z) (h : mem) : Prop :=
  h = bytes p (le_bytes 4 0) ∨
  ∃ q hq, addr_ok q (c_size c) ∧ c_part c b q hq ∧ splits h (reference_at p q hq).

Lemma reference_safe p m hs s t :
  splits m (bytes p (le_bytes 4 0) :: hs) → stream_ok s →
  ∃ b s' m' t' h, xdr_reference p sz (c_proc c) (Xdr XDR_DECODE s m t) = Ok b (Xdr XDR_DECODE s' m' t') ∧
    splits m' (h :: hs) ∧ stream_ok s' ∧ reference_part b p h.
Proof.
  intros Hm Hr. destruct (reference_space p m hs s t Hm) as (q & m1 & [(E & Hm1)|(E & Ha & Hm1)]).
  { exists false, s, m1, (false :: t), (bytes p (le_bytes 4 0)). split_and!; [done..|by left]. }
  rewrite E. unfold reference_target.
  assert (splits m1 (bytes q (zeros (c_size c)) :: bytes p (le_bytes 4 q) :: {[Block q := sz]} :: hs)) as Hm1' by reorder Hm1.
  destruct (c_safe q LASTUNSIGNED m1 _ s (true :: t) Ha Hm1' Hr) as (b & s2 & m2 & t2 & hq & E2 & Hm2 & Hr2 & Hp).
  step_with E2. assert (splits m2 (reference_at p q hq ++ hs)) as Hm2' by reorder Hm2.
  apply splits_join in Hm2' as (h & Hh & Hm2'). exists b, s2, m2, t2, h. split_and!; [done..|]. right. by exists q, hq.
Qed.

Lemma reference_free b p h m hs s t :
  reference_part b p h → splits m (h :: hs) →
  ∃ r m' t', xdr_reference p sz (c_proc c) (Xdr XDR_FREE s m t) = Ok r (Xdr XDR_FREE s m' t') ∧
    splits m' (bytes p (le_bytes 4 0) :: hs) ∧ (b = true → r = true).
Proof.
  intros [->|(q & hq & Ha & Hp & Hh)] Hm; unfold xdr_reference.
  - step_with (load_pointer p 0 _ XDR_FREE s m t ltac:(unfold word; lia) Hm). rewrite bind_gets. cbn [x_op].
    by exists true, m, t.
  - apply (splits_nest _ _ _ _ Hm) in Hh. pose proof Ha as [Hq Hq2].
    step_with (load_pointer p q _ XDR_FREE s m t ltac:(unfold word; lia) Hh). rewrite bind_gets. cbn [x_op].
    destruct (Z.eqb_spec q 0); [lia|]. cbn [andb]. unfold reference_target.
    assert (splits m (hq :: {[Block q := sz]} :: bytes p (le_bytes 4 q) :: hs)) as Hm1 by reorder Hh.
    destruct (c_free b q LASTUNSIGNED m hq _ s t Ha Hp Hm1) as (r & m2 & t2 & bs & E2 & Hm2 & Hbs & Hr).
    step_with E2. rewrite bind_gets. cbn [x_op]. change (bool_decide (XDR_FREE = XDR_FREE)) with true. cbv iota.
    apply splits_swap in Hm2. rewrite <- Hbs in Hm2. apply splits_block, splits_swap in Hm2.
    destruct (free_at_ok p q bs m2 _ XDR_FREE s t2 Hm2 ltac:(lia)) as (m3 & E3 & Hm3).
    step_with E3. by exists r, m3, t2.
Qed.

Definition reference_codec : codec (S:=S) :=
  Codec (c_val c) 4 (λ p _, xdr_reference p sz (c_proc c)) (c_enc c) (c_valid c)
    (λ v p h, ∃ q hq, addr_ok q (c_size c) ∧ c_rep c v q hq ∧ splits h (reference_at p q hq))
    reference_part.

Lemma reference_codec_ok : CodecOk reference_codec.
Proof.
  split; cbn [reference_codec c_proc c_size c_enc c_valid c_rep c_part c_val].
  - intros v p _ m h hs s t out k _ Hv (q & hq & Ha & Hrep & Hh) Hm Hw.
    pose proof (splits_nest _ _ _ _ Hm Hh) as Hm'.
    destruct (reference_encode p q v hq m hs s t out k Ha Hv Hrep Hm' Hw) as (s' & m' & t' & E & Hm2 & Hw').
    exists s', m', t'. split; [done|]. split; [by apply (splits_rejoin _ _ _ _ Hh)|done].
  - intros v p _ m hs s t bs _ Hv Hm Hr. by apply (reference_decode p v m hs s t bs).
  - intros p _ m hs s t _ Hm Hr. by apply reference_safe.
  - intros b p _ m h hs s t _ Hp Hm. destruct (reference_free b p h m hs s t Hp Hm) as (r & m' & t' & E & Hm' & Hr).
    by exists r, m', t', (le_bytes 4 0).
  - intros p. exists true. by left.
  - intros v p h Hv (q & hq & Ha & Hrep & Hh). right. exists q, hq. split; [done|]. split; [by eapply c_rep_part|done].
Qed.

(** ** [xdr_pointer]: an object or none *)

Definition option_enc (o : option (c_val c)) : list Z :=
  match o with None => be_bytes 0 | Some v => be_bytes 1 ++ c_enc c v end.

Definition option_rep (o : option (c_val c)) (p : Z) (h : mem) : Prop :=
  match o with
  | None => h = bytes p (le_bytes 4 0)
  | Some v => c_rep reference_codec v p h
  end.

Definition pointer_codec : codec (S:=S) :=
  Codec (option (c_val c)) 4 (λ p _, xdr_pointer p sz (c_proc c)) option_enc
    (λ o, match o with None => True | Some v => c_valid c v end) option_rep reference_part.

Lemma bool_via_switch ip (x : xdr_handle S) :
  xdr_bool_via ip x = xdr_switch (λ b, if b =? 0 then 0 else 1) (λ l, if l =? 0 then 0 else 1) ip x.
Proof. done. Qed.

Lemma pointer_encode o p m h hs s t out k :
  match o with None => True | Some v => c_valid c v end → option_rep o p h → splits m (h :: hs) →
  writes out (length (option_enc o) + k) s →
  ∃ s' m' t', xdr_pointer p sz (c_proc c) (Xdr XDR_ENCODE s m t) = Ok true (Xdr XDR_ENCODE s' m' t') ∧
    splits m' (h :: hs) ∧ writes (out ++ option_enc o) k s'.
Proof.
  intros Hv Hrep Hm Hw. unfold xdr_pointer. destruct o as [v|]; cbn [option_rep option_enc] in *.
  - destruct Hrep as (q & hq & Ha & Hrep & Hh). pose proof (splits_nest _ _ _ _ Hm Hh) as Hm'. pose proof Ha as [Hq Hq2].
    step_with (load_pointer p q _ XDR_ENCODE s m t ltac:(unfold word; lia) Hm').
    destruct (Z.eqb_spec q 0); [lia|]. rewrite length_app, length_be_bytes, <- Nat.add_assoc in Hw.
    destruct (via_encode 0 2 xdr_bool_via _ _ bool_via_switch send_bool (mret 1 : M (xdr_handle S) Z) 1 m s t out _ ltac:(lia) eq_refl Hw)
      as (s1 & E1 & Hw1).
    step_with E1. cbn [fst snd negb from_option id]. change (1 =? 0) with false. cbv iota.
    destruct (reference_encode p q v hq m hs s1 t _ k Ha Hv Hrep Hm' Hw1) as (s' & m' & t' & E & Hm2 & Hw').
    exists s', m', t'. split; [done|]. split; [by apply (splits_rejoin _ _ _ _ Hh)|by rewrite app_assoc].
  - subst h. step_with (load_pointer p 0 _ XDR_ENCODE s m t ltac:(unfold word; lia) Hm).
    change (0 =? 0) with true. cbv iota.
    destruct (via_encode 0 2 xdr_bool_via _ _ bool_via_switch send_bool (mret 0 : M (xdr_handle S) Z) 0 m s t out _ ltac:(lia) eq_refl Hw)
      as (s1 & E1 & Hw1).
    step_with E1. cbn [fst snd negb from_option id]. change (0 =? 0) with true. cbv iota.
    destruct (store_int_ok 4 p 0 _ hs XDR_ENCODE s1 m t Hm eq_refl) as (m' & E' & Hm').
    step_with E'. by exists s1, m', t.
Qed.

Lemma pointer_decode o p m hs s t rest :
  match o with None => True | Some v => c_valid c v end → splits m (bytes p (le_bytes 4 0) :: hs) →
  reads (option_enc o ++ rest) s →
  ∃ b s' m' t' h, xdr_pointer p sz (c_proc c) (Xdr XDR_DECODE s m t) = Ok b (Xdr XDR_DECODE s' m' t') ∧
    splits m' (h :: hs) ∧ decoded b t t' (reads rest s' ∧ option_rep o p h).
Proof.
  intros Hv Hm Hr. unfold xdr_pointer.
  step_with (load_pointer p 0 _ XDR_DECODE s m t ltac:(unfold word; lia) Hm). change (0 =? 0) with true. cbv iota.
  destruct o as [v|]; cbn [option_enc] in Hr.
  - rewrite <- app_assoc in Hr.
    destruct (via_decode 0 2 xdr_bool_via _ _ bool_via_switch send_bool (mret 0 : M (xdr_handle S) Z) 1 m s t _ ltac:(lia) Hr)
      as (s1 & E1 & Hr1).
    step_with E1. cbn [fst snd negb from_option id]. change (1 =? 0) with false. cbv iota.
    destruct (reference_decode p v m hs s1 t rest Hv Hm Hr1) as (b & s' & m' & t' & h & E & Hm' & Hb).
    exists b, s', m', t', h. by split_and!.
  - destruct (via_decode 0 2 xdr_bool_via _ _ bool_via_switch send_bool (mret 0 : M (xdr_handle S) Z) 0 m s t _ ltac:(lia) Hr)
      as (s1 & E1 & Hr1).
    step_with E1. cbn [fst snd negb from_option id]. change (0 =? 0) with true. cbv iota.
    destruct (store_int_ok 4 p 0 _ hs XDR_DECODE s1 m t Hm eq_refl) as (m' & E' & Hm').
    step_with E'. by exists true, s1, m', t, (bytes p (le_bytes 4 0)).
Qed.

Lemma pointer_safe p m hs s t :
  splits m (bytes p (le_bytes 4 0) :: hs) → stream_ok s →
  ∃ b s' m' t' h, xdr_pointer p sz (c_proc c) (Xdr XDR_DECODE s m t) = Ok b (Xdr XDR_DECODE s' m' t') ∧
    splits m' (h :: hs) ∧ stream_ok s' ∧ reference_part b p h.
Proof.
  intros Hm Hr. unfold xdr_pointer.
  step_with (load_pointer p 0 _ XDR_DECODE s m t ltac:(unfold word; lia) Hm). change (0 =? 0) with true. cbv iota.
  destruct (via_safe xdr_bool_via _ _ bool_via_switch (mret 0 : M (xdr_handle S) Z) m s t Hr) as (r & s1 & E1 & Hr1 & _).
  step_with E1. destruct r as [v|]; cbn [fst snd].
  - rewrite bool_decide_eq_true_2 by done. cbn [negb from_option id]. destruct (v =? 0).
    + destruct (store_int_ok 4 p 0 _ hs XDR_DECODE s1 m t Hm eq_refl) as (m' & E' & Hm').
      step_with E'. exists true, s1, m', t, (bytes p (le_bytes 4 0)). split_and!; [done..|by left].
    + by apply reference_safe.
  - exists false, s1, m, t, (bytes p (le_bytes 4 0)). split_and!; [done..|by left].
Qed.

Lemma pointer_free b p h m hs s t :
  reference_part b p h → splits m (h :: hs) →
  ∃ r m' t', xdr_pointer p sz (c_proc c) (Xdr XDR_FREE s m t) = Ok r (Xdr XDR_FREE s m' t') ∧
    splits m' (bytes p (le_bytes 4 0) :: hs) ∧ (b = true → r = true).
Proof.
  intros Hp Hm. unfold xdr_pointer. pose proof Hp as Hp0.
  destruct Hp0 as [->|(q & hq & Ha & _ & Hh)].
  - step_with (load_pointer p 0 _ XDR_FREE s m t ltac:(unfold word; lia) Hm). change (0 =? 0) with true. cbv iota.
    step_with (via_free xdr_bool_via _ _ bool_via_switch (mret 0 : M (xdr_handle S) Z) m s t).
    cbn [fst snd negb from_option id]. change (0 =? 0) with true. cbv iota.
    destruct (store_int_ok 4 p 0 _ hs XDR_FREE s m t Hm eq_refl) as (m' & E' & Hm'). step_with E'.
    by exists true, m', t.
  - pose proof (splits_nest _ _ _ _ Hm Hh) as Hm'. destruct Ha as [Hq Hq2].
    step_with (load_pointer p q _ XDR_FREE s m t ltac:(unfold word; lia) Hm').
    destruct (Z.eqb_spec q 0); [lia|].
    step_with (via_free xdr_bool_via _ _ bool_via_switch (mret 1 : M (xdr_handle S) Z) m s t).
    cbn [fst snd negb from_option id]. change (1 =? 0) with false. cbv iota. by apply (reference_free b p h m hs s t).
Qed.

Lemma pointer_codec_ok : CodecOk pointer_codec.
Proof.
  split; cbn [pointer_codec c_proc c_size c_enc c_valid c_rep c_part c_val].
  - intros o p _ m h hs s t out k _. apply pointer_encode.
  - intros o p _ m hs s t bs _. apply pointer_decode.
  - intros p _ m hs s t _. apply pointer_safe.
  - intros b p _ m h hs s t _ Hp Hm. destruct (pointer_free b p h m hs s t Hp Hm) as (r & m' & t' & E & Hm' & Hr).
    by exists r, m', t', (le_bytes 4 0).
  - intros p. exists true. by left.
  - intros [v|] p h Hv Hrep; [|by left]. destruct Hrep as (q & hq & Ha & Hrep & Hh). right.
    exists q, hq. split; [done|]. split; [by eapply c_rep_part|done].
Qed.
End reference.
