(* ===== verification/XdrTypes.v ===== *)
(** * Discriminated unions

    [xdr_union] over the filters of its arms: the object is the discriminant
    and, behind it, room for the largest arm.  Decoding a discriminant no arm
    carries fails and leaves the room as it was. *)
From S2P Require Import Prelude Posix CMemory Xdr XdrMemory.
From S2P Require Import XdrCodec XdrScalars XdrStrings XdrAggregates XdrArrays.
Local Open Scope Z_scope.

Definition int32 (d : Z) : Prop := - 2 ^ 31 ≤ d < 2 ^ 31.

Section arms.
Context {S : Type} `{XdrStream S} `{Allocator}.
Implicit Types (hs : list mem) (bs : list Z) (s : S) (c : codec (S:=S)).
Context (room : nat).

(** ** One arm in the room of the union *)

Definition room_at c (p : Z) (h1 : mem) (rest : list Z) : list mem := [h1; bytes (p + Z.of_nat (c_size c)) rest].

Definition room_codec c : codec (S:=S) :=
  Codec (c_val c) room (c_proc c) (c_enc c) (c_valid c)
    (λ v p h, ∃ h1 rest, length rest = (room - c_size c)%nat ∧ splits h (room_at c p h1 rest) ∧ c_rep c v p h1)
    (λ b p h, ∃ h1 rest, length rest = (room - c_size c)%nat ∧ splits h (room_at c p h1 rest) ∧ c_part c b p h1).

Lemma room_zeros c p m hs :
  (c_size c ≤ room)%nat → splits m (bytes p (zeros room) :: hs) →
  splits m (room_at c p (bytes p (zeros (c_size c))) (zeros (room - c_size c)) ++ hs).
Proof. intros Hc Hm. apply zeros_two. by replace (c_size c + (room - c_size c))%nat with room by lia. Qed.

Lemma room_codec_ok c : CodecOk c → (c_size c ≤ room)%nat → CodecOk (room_codec c).
Proof.
  intros Hok Hc.
  assert (∀ p, addr_ok p room → addr_ok p (c_size c)) as Haddr by (unfold addr_ok; lia).
  split; cbn [room_codec c_proc c_size c_enc c_valid c_rep c_part c_val].
  - intros v p arg m h hs s t out k Ha Hv (h1 & rest & Hl & Hh & Hr) Hm Hw.
    pose proof (splits_nest _ _ _ _ Hm Hh) as Hm'.
    destruct (c_encode v p arg m h1 _ s t out k (Haddr p Ha) Hv Hr Hm' Hw) as (s' & m' & t' & E & Hm2 & Hw').
    exists s', m', t'. split; [done|]. split; [by apply (splits_rejoin _ _ _ _ Hh)|done].
  - intros v p arg m hs s t bs Ha Hv Hm Hr. apply (room_zeros c) in Hm; [|done].
    destruct (c_decode v p arg m _ s t bs (Haddr p Ha) Hv Hm Hr) as (b & s' & m' & t' & h1 & E & Hm' & Hb).
    apply (splits_join m' hs [_; _]) in Hm' as (h & Hh & Hm'). exists b, s', m', t', h. split_and!; [done..|].
    apply (decoded_impl _ _ _ _ _ Hb). intros _ [Hr' Hrep]. split; [done|]. exists h1, (zeros (room - c_size c)).
    split; [apply length_replicate|done].
  - intros p arg m hs s t Ha Hm Hr. apply (room_zeros c) in Hm; [|done].
    destruct (c_safe p arg m _ s t (Haddr p Ha) Hm Hr) as (b & s' & m' & t' & h1 & E & Hm' & Hr' & Hp).
    apply (splits_join m' hs [_; _]) in Hm' as (h & Hh & Hm'). exists b, s', m', t', h. split_and!; [done..|].
    exists h1, (zeros (room - c_size c)). split; [apply length_replicate|done].
  - intros b p arg m h hs s t Ha (h1 & rest & Hl & Hh & Hp) Hm.
    pose proof (splits_nest _ _ _ _ Hm Hh) as Hm'.
    destruct (c_free b p arg m h1 _ s t (Haddr p Ha) Hp Hm') as (r & m' & t' & bs & E & Hm2 & Hbs & Hr).
    exists r, m', t', (bs ++ rest). split; [done|]. split; [by apply (bytes_join p (c_size c))|].
    split; [rewrite length_app; lia|done].
  - intros p. destruct (c_zero p) as [b Hp]. exists b, (bytes p (zeros (c_size c))), (zeros (room - c_size c)).
    split; [apply length_replicate|]. split; [|done].
    apply (room_zeros c p _ [] Hc). by apply splits_one.
  - intros v p h Hv (h1 & rest & Hl & Hh & Hr). exists h1, rest. split_and!; [done..|]. by eapply c_rep_part.
Qed.

(** No arm: the call fails. *)
Definition none_codec : codec (S:=S) :=
  Codec Empty_set room (λ _ _, mret false) (λ _, []) (λ _, False) (λ _ _ _, False)
    (λ b p h, b = false ∧ ∃ bs, length bs = room ∧ h = bytes p bs).

Lemma none_codec_ok : CodecOk none_codec.
Proof.
  split; cbn [none_codec c_proc c_size c_enc c_valid c_rep c_part c_val]; [done..| | | |done].
  - intros p _ m hs s t _ Hm Hr. exists false, s, m, t, (bytes p (zeros room)).
    split_and!; [done..|]. exists (zeros room). split; [apply length_replicate|done].
  - intros b p _ m h hs s t _ (-> & bs & Hl & ->) Hm. by exists false, m, t, bs.
  - intros p. exists false. split; [done|]. exists (zeros room). split; [apply length_replicate|done].
Qed.

(** ** The discriminant *)

Lemma enum_decode d p m hs s t rest :
  int32 d → splits m (bytes p (zeros 4) :: hs) → reads (be_bytes d ++ rest) s →
  ∃ s' m', xdr_enum p (Xdr XDR_DECODE s m t) = Ok true (Xdr XDR_DECODE s' m' t) ∧
    splits m' (bytes p (le_bytes 4 d) :: hs) ∧ reads rest s'.
Proof.
  intros Hd Hm Hr. unfold xdr_enum, at_object.
  destruct (via_decode (- 2 ^ 31) (2 ^ 31) xdr_enum_via id id enum_via_switch send_long (load_long p) d m s t rest Hd Hr)
    as (s' & E & Hr'). step_with E. cbn [fst snd].
  destruct (store_int_ok 4 p d _ hs XDR_DECODE s' m t Hm eq_refl) as (m' & E' & Hm'). step_with E'. by exists s', m'.
Qed.

Lemma enum_safe p m hs s t :
  splits m (bytes p (zeros 4) :: hs) → stream_ok s →
  ∃ b s' m' d, xdr_enum p (Xdr XDR_DECODE s m t) = Ok b (Xdr XDR_DECODE s' m' t) ∧ int32 d ∧
    splits m' (bytes p (le_bytes 4 d) :: hs) ∧ stream_ok s' ∧ (b = false → d = 0).
Proof.
  intros Hm Hr. unfold xdr_enum, at_object.
  destruct (via_safe xdr_enum_via id id enum_via_switch (load_long p) m s t Hr) as (r & s' & E & Hr' & Hv). step_with E.
  destruct r as [d|]; cbn [fst snd].
  - destruct (Hv d eq_refl) as (l & Hl & ->).
    destruct (store_int_ok 4 p l _ hs XDR_DECODE s' m t Hm eq_refl) as (m' & E' & Hm'). step_with E'.
    exists true, s', m', l. split; [done|]. split; [done|done].
  - exists false, s', m, 0. by split_and!.
Qed.

(** ** The union *)

Context (arms : list (Z * codec (S:=S))) (dfault : option (codec (S:=S))).

Fixpoint find_arm (d : Z) (arms : list (Z * codec (S:=S))) : option (codec (S:=S)) :=
  match arms with
  | [] => dfault
  | (value, c) :: arms => if value =? d then Some c else find_arm d arms
  end.

Definition arm_codec (d : Z) : codec (S:=S) :=
  match find_arm d arms with Some c => room_codec c | None => none_codec end.

Context (Harms : ∀ d c, find_arm d arms = Some c → CodecOk c ∧ (c_size c ≤ room)%nat).

#[local] Instance arm_codec_ok d : CodecOk (arm_codec d).
Proof.
  unfold arm_codec. destruct (find_arm d arms) as [c|] eqn:E; [|apply none_codec_ok].
  destruct (Harms d c E). by apply room_codec_ok.
Qed.

Lemma size_arm d : c_size (arm_codec d) = room.
Proof. unfold arm_codec. by destruct (find_arm d arms). Qed.

Definition choices : list (Z * (Z → Z → M (xdr_handle S) bool)) := prod_map id c_proc <$> arms.

Lemma choices_arm d unp x :
  match find_choice d choices with
  | Some proc => proc unp LASTUNSIGNED
  | None => match c_proc <$> dfault with None => mret false | Some proc => proc unp LASTUNSIGNED end
  end x = c_proc (arm_codec d) unp LASTUNSIGNED x.
Proof.
  unfold arm_codec, choices. clear Harms. induction arms as [|[value c] l IH]; cbn [fmap list_fmap find_choice find_arm prod_map fst snd].
  - by destruct dfault.
  - cbn [id]. by destruct (value =? d).
Qed.

(** The part after the discriminant was stored or read. *)
Lemma union_arm p d (x y : xdr_handle S) hs :
  int32 d → xdr_enum p x = Ok true y → splits (x_mem y) (bytes p (le_bytes 4 d) :: hs) →
  xdr_union p (p + 4) choices (c_proc <$> dfault) x = c_proc (arm_codec d) (p + 4) LASTUNSIGNED y.
Proof.
  intros Hd E Hm. unfold xdr_union. step_with E. cbn [negb].
  step_with (load_long_ok d p hs y Hd Hm). apply choices_arm.
Qed.

Definition union_codec : codec (S:=S) :=
  Codec {d & c_val (arm_codec d)} (4 + room) (λ p _, xdr_union p (p + 4) choices (c_proc <$> dfault))
    (λ v, be_bytes (projT1 v) ++ c_enc (arm_codec (projT1 v)) (projT2 v))
    (λ v, int32 (projT1 v) ∧ c_valid (arm_codec (projT1 v)) (projT2 v))
    (λ v p h, ∃ h2, splits h [bytes p (le_bytes 4 (projT1 v)); h2] ∧
      c_rep (arm_codec (projT1 v)) (projT2 v) (p + 4) h2)
    (λ b p h, ∃ d b' h2, int32 d ∧ splits h [bytes p (le_bytes 4 d); h2] ∧ (b = true → b' = true) ∧
      c_part (arm_codec d) b' (p + 4) h2).

Lemma union_addr p d : addr_ok p (4 + room) → addr_ok p 4 ∧ addr_ok (p + 4) (c_size (arm_codec d)).
Proof. rewrite size_arm. unfold addr_ok. lia. Qed.

Lemma union_zeros p m hs :
  splits m (bytes p (zeros (4 + room)) :: hs) →
  splits m (bytes p (zeros 4) :: bytes (p + 4) (zeros room) :: hs).
Proof. intros Hm. exact (zeros_two p 4 room m hs Hm). Qed.

Lemma union_encode d v p h2 m hs s t out k :
  addr_ok p (4 + room) → int32 d → c_valid (arm_codec d) v → c_rep (arm_codec d) v (p + 4) h2 →
  splits m (bytes p (le_bytes 4 d) :: h2 :: hs) → writes out (length (be_bytes d ++ c_enc (arm_codec d) v) + k) s →
  ∃ s' m' t', xdr_union p (p + 4) choices (c_proc <$> dfault) (Xdr XDR_ENCODE s m t) = Ok true (Xdr XDR_ENCODE s' m' t') ∧
    splits m' (bytes p (le_bytes 4 d) :: h2 :: hs) ∧ writes (out ++ be_bytes d ++ c_enc (arm_codec d) v) k s'.
Proof.
  intros [Ha1 Ha2]%(union_addr p d) Hd Hv Hr Hm Hw. rewrite length_app, <- Nat.add_assoc in Hw.
  destruct (c_encode (c:=enum_codec) d p 0 m _ _ s t out _ Ha1 Hd eq_refl Hm Hw) as (s1 & m1 & t1 & E1 & Hm1 & Hw1).
  rewrite (union_arm p d _ (Xdr XDR_ENCODE s1 m1 t1) _ Hd E1 Hm1). apply splits_swap in Hm1.
  destruct (c_encode v (p + 4) LASTUNSIGNED m1 h2 _ s1 t1 _ k Ha2 Hv Hr Hm1 Hw1) as (s' & m' & t' & E & Hm2 & Hw').
  exists s', m', t'. split; [done|]. split; [by apply splits_swap|by rewrite app_assoc].
Qed.

Lemma union_decode d v p m hs s t rest :
  addr_ok p (4 + room) → int32 d → c_valid (arm_codec d) v → splits m (bytes p (zeros (4 + room)) :: hs) →
  reads (be_bytes d ++ c_enc (arm_codec d) v ++ rest) s →
  ∃ b s' m' t' h2, xdr_union p (p + 4) choices (c_proc <$> dfault) (Xdr XDR_DECODE s m t) =
      Ok b (Xdr XDR_DECODE s' m' t') ∧ splits m' (bytes p (le_bytes 4 d) :: h2 :: hs) ∧
    decoded b t t' (reads rest s' ∧ c_rep (arm_codec d) v (p + 4) h2).
Proof.
  intros [Ha1 Ha2]%(union_addr p d) Hd Hv Hm%union_zeros Hr.
  destruct (enum_decode d p m _ s t _ Hd Hm Hr) as (s1 & m1 & E1 & Hm1 & Hr1).
  rewrite (union_arm p d _ (Xdr XDR_DECODE s1 m1 t) _ Hd E1 Hm1). apply splits_swap in Hm1.
  rewrite <- (size_arm d) in Hm1.
  destruct (c_decode v (p + 4) LASTUNSIGNED m1 _ s1 t rest Ha2 Hv Hm1 Hr1) as (b & s' & m' & t' & h2 & E & Hm' & Hb).
  exists b, s', m', t', h2. split; [done|]. split; [by apply splits_swap|done].
Qed.

Lemma union_safe p m hs s t :
  addr_ok p (4 + room) → splits m (bytes p (zeros (4 + room)) :: hs) → stream_ok s →
  ∃ b s' m' t' d b' h2, xdr_union p (p + 4) choices (c_proc <$> dfault) (Xdr XDR_DECODE s m t) =
      Ok b (Xdr XDR_DECODE s' m' t') ∧ splits m' (bytes p (le_bytes 4 d) :: h2 :: hs) ∧ stream_ok s' ∧ int32 d ∧
    (b = true → b' = true) ∧ c_part (arm_codec d) b' (p + 4) h2.
Proof.
  intros Ha Hm%union_zeros Hr.
  destruct (enum_safe p m _ s t Hm Hr) as (b1 & s1 & m1 & d & E1 & Hd & Hm1 & Hr1 & Hb1).
  destruct (union_addr p d Ha) as [Ha1 Ha2]. destruct b1; cycle 1.
  { destruct (c_zero (c:=arm_codec d) (p + 4)) as [b' Hp]. rewrite size_arm in Hp.
    exists false, s1, m1, t, d, b', (bytes (p + 4) (zeros room)). split; [|by split_and!].
    unfold xdr_union. by step_with E1. }
  rewrite (union_arm p d _ (Xdr XDR_DECODE s1 m1 t) _ Hd E1 Hm1). apply splits_swap in Hm1.
  rewrite <- (size_arm d) in Hm1.
  destruct (c_safe (p + 4) LASTUNSIGNED m1 _ s1 t Ha2 Hm1 Hr1) as (b & s' & m' & t' & h2 & E & Hm' & Hr' & Hp).
  exists b, s', m', t', d, b, h2. split; [done|]. split; [by apply splits_swap|]. by split_and!.
Qed.

Lemma union_free d b p h2 m hs s t :
  addr_ok p (4 + room) → int32 d → c_part (arm_codec d) b (p + 4) h2 →
  splits m (bytes p (le_bytes 4 d) :: h2 :: hs) →
  ∃ r m' t' bs, xdr_union p (p + 4) choices (c_proc <$> dfault) (Xdr XDR_FREE s m t) = Ok r (Xdr XDR_FREE s m' t') ∧
    splits m' (bytes p bs :: hs) ∧ length bs = (4 + room)%nat ∧ (b = true → r = true).
Proof.
  intros [Ha1 Ha2]%(union_addr p d) Hd Hp Hm.
  assert (xdr_enum p (Xdr XDR_FREE s m t) = Ok true (Xdr XDR_FREE s m t)) as E1 by done.
  rewrite (union_arm p d _ (Xdr XDR_FREE s m t) _ Hd E1 Hm). apply splits_swap in Hm.
  destruct (c_free b (p + 4) LASTUNSIGNED m h2 _ s t Ha2 Hp Hm) as (r & m' & t' & bs & E & Hm' & Hbs & Hr).
  exists r, m', t', (le_bytes 4 d ++ bs). split; [done|].
  split; [apply (bytes_join p 4); [done|by apply splits_swap]|]. split; [|done].
  rewrite length_app, Hbs, size_arm. done.
Qed.

Lemma union_codec_ok : CodecOk union_codec.
Proof.
  split; cbn [union_codec c_proc c_size c_enc c_valid c_rep c_part c_val].
  - intros [d v] p _ m h hs s t out k Ha [Hd Hv] (h2 & Hh & Hr) Hm Hw. cbn [projT1 projT2] in *.
    pose proof (splits_nest _ _ _ _ Hm Hh) as Hm'.
    destruct (union_encode d v p h2 m hs s t out k Ha Hd Hv Hr Hm' Hw) as (s' & m' & t' & E & Hm2 & Hw').
    exists s', m', t'. split; [done|]. split; [by apply (splits_rejoin _ _ _ _ Hh)|done].
  - intros [d v] p _ m hs s t bs Ha [Hd Hv] Hm Hr. cbn [projT1 projT2] in *. rewrite <- app_assoc in Hr.
    destruct (union_decode d v p m hs s t bs Ha Hd Hv Hm Hr) as (b & s' & m' & t' & h2 & E & Hm' & Hb).
    apply (splits_join m' hs [_; _]) in Hm' as (h & Hh & Hm'). exists b, s', m', t', h. split_and!; [done..|].
    apply (decoded_impl _ _ _ _ _ Hb). intros _ [Hr' Hrep]. split; [done|]. by exists h2.
  - intros p _ m hs s t Ha Hm Hr.
    destruct (union_safe p m hs s t Ha Hm Hr) as (b & s' & m' & t' & d & b' & h2 & E & Hm' & Hr' & Hd & Hb & Hp).
    apply (splits_join m' hs [_; _]) in Hm' as (h & Hh & Hm'). exists b, s', m', t', h. split_and!; [done..|].
    by exists d, b', h2.
  - intros b p _ m h hs s t Ha (d & b' & h2 & Hd & Hh & Hb & Hp) Hm.
    destruct (union_free d b' p h2 m hs s t Ha Hd Hp (splits_nest _ _ _ _ Hm Hh)) as (r & m' & t' & bs & E & Hm' & Hbs & Hr).
    exists r, m', t', bs. split_and!; [done..|]. auto.
  - intros p. destruct (c_zero (c:=arm_codec 0) (p + 4)) as [b Hp]. rewrite size_arm in Hp.
    exists b, 0, b, (bytes (p + 4) (zeros room)). split; [unfold int32; lia|]. split; [|done].
    apply (union_zeros p _ []). by apply splits_one.
  - intros [d v] p h [Hd Hv] (h2 & Hh & Hr). exists d, true, h2. split_and!; [done..|]. by eapply c_rep_part.
Qed.
End arms.

(** * Types of XDR data

    The descriptions a protocol is written in - what [rpcgen] reads - as a
    data type: each names a filter built of those of the library, and a well
    formed one keeps the contract [CodecOk] for every stream. *)

(** [TBytes first max] and [TArray first max t]: [first] tells whether the
    pointer precedes the count in the structure; [TPair t1 pad t2]: two
    fields with [pad] bytes of alignment between; [TUnion room arms]: an
    enumeration and [room] bytes for the arms. *)
Inductive xtype : Type :=
| TLong | TULong | TInt | TUInt | TShort | TUShort | TChar | TUChar | TBool | TEnum
| TOpaque (n : nat)
| TBytes (first : bool) (max : Z)
| TString (max : Z)
| TArray (first : bool) (max : nat) (t : xtype)
| TVector (n : nat) (t : xtype)
| TReference (t : xtype)
| TPointer (t : xtype)
| TPair (t1 : xtype) (pad : nat) (t2 : xtype)
| TUnion (room : nat) (arms : xarms)
with xarms : Type :=
| ANone
| ADefault (t : xtype)
| ACase (d : Z) (t : xtype) (arms : xarms).

Scheme xtype_xarms_ind := Induction for xtype Sort Prop
  with xarms_xtype_ind := Induction for xarms Sort Prop.

Section codec_of.
Context {S : Type} `{XdrStream S} `{Allocator}.

Fixpoint codec_of (t : xtype) : codec (S:=S) :=
  match t with
  | TLong => long_codec
  | TULong => u_long_codec
  | TInt => int32_codec
  | TUInt => u_int_codec
  | TShort => short_codec
  | TUShort => u_short_codec
  | TChar => char_codec
  | TUChar => u_char_codec
  | TBool => bool_codec
  | TEnum => enum_codec
  | TOpaque n => opaque_codec n
  | TBytes first max => bytes_codec first max
  | TString max => string_codec max
  | TArray first max t => array_codec (codec_of t) first max
  | TVector n t => vector_codec (codec_of t) n
  | TReference t => reference_codec (codec_of t)
  | TPointer t => pointer_codec (codec_of t)
  | TPair t1 pad t2 => pair_codec (codec_of t1) pad (codec_of t2)
  | TUnion room arms => union_codec room (cases_of arms) (default_of arms)
  end
with cases_of (arms : xarms) : list (Z * codec (S:=S)) :=
  match arms with
  | ACase d t arms => (d, codec_of t) :: cases_of arms
  | _ => []
  end
with default_of (arms : xarms) : option (codec (S:=S)) :=
  match arms with
  | ANone => None
  | ADefault t => Some (codec_of t)
  | ACase _ _ arms => default_of arms
  end.
End codec_of.

(** The size of an object, on a machine of 32 bits. *)
Fixpoint sizeof (t : xtype) : nat :=
  match t with
  | TChar | TUChar => 1
  | TShort | TUShort => 2
  | TOpaque n => n
  | TBytes _ _ | TArray _ _ _ => 8
  | TVector n t => n * sizeof t
  | TPair t1 pad t2 => sizeof t1 + pad + sizeof t2
  | TUnion room _ => 4 + room
  | _ => 4
  end.

(** Lengths fit their fields and arms the room of their union. *)
Fixpoint well_formed (t : xtype) : bool :=
  match t with
  | TOpaque n => Z.of_nat n <? 2 ^ 31
  | TBytes _ max | TString max => (0 <=? max) && (max <? 2 ^ 31)
  | TArray _ max t =>
      (Z.of_nat max * Z.of_nat (sizeof t) <? 2 ^ 32) && (Z.of_nat max <? 2 ^ 32) &&
      (Z.of_nat (sizeof t) <? 2 ^ 32) && well_formed t
  | TVector _ t | TReference t | TPointer t => well_formed t
  | TPair t1 _ t2 => well_formed t1 && well_formed t2
  | TUnion room arms => arms_formed room arms
  | _ => true
  end
with arms_formed (room : nat) (arms : xarms) : bool :=
  match arms with
  | ANone => true
  | ADefault t => well_formed t && (sizeof t <=? room)%nat
  | ACase _ t arms => well_formed t && (sizeof t <=? room)%nat && arms_formed room arms
  end.

Section contract.
Context {S : Type} `{XdrStream S} `{Allocator}.

Lemma size_codec_of t : c_size (codec_of (S:=S) t) = sizeof t.
Proof.
  induction t using xtype_xarms_ind with (P0 := λ _, True); try done; cbn [codec_of sizeof vector_codec pair_codec c_size]; congruence.
Qed.

Lemma codec_of_ok t : well_formed t = true → CodecOk (codec_of (S:=S) t).
Proof.
  induction t using xtype_xarms_ind with (P0 := λ arms, ∀ room, arms_formed room arms = true →
    ∀ d c, find_arm (default_of arms) d (cases_of arms) = Some c → CodecOk c ∧ (c_size c ≤ room)%nat);
    cbn [well_formed arms_formed codec_of cases_of default_of find_arm];
    repeat setoid_rewrite andb_true_iff; try (intros; apply _); try done.
  - intros Hn. apply opaque_codec_ok. lia.
  - intros Hm. apply bytes_codec_ok. lia.
  - intros Hm. apply string_codec_ok. lia.
  - intros (((Hm & Hw) & Hs) & Ht). pose proof (size_codec_of t) as Hsize. specialize (IHt Ht).
    apply array_codec_ok; rewrite ?Hsize; (done || lia).
  - intros Ht. apply vector_codec_ok. auto.
  - intros Ht. apply reference_codec_ok. auto.
  - intros Ht. apply pointer_codec_ok. auto.
  - intros [Ht1 Ht2]. apply pair_codec_ok; auto.
  - intros Ha. apply union_codec_ok. intros d c. by apply IHt.
  - intros room [Ht Hs] d c [= <-]. rewrite size_codec_of. split; [by apply IHt|by apply Nat.leb_le].
  - intros room [[Ht Hs] Ha] d' c. destruct (d =? d'); [|by apply IHt0]. intros [= <-].
    rewrite size_codec_of. split; [by apply IHt|by apply Nat.leb_le].
Qed.
End contract.
