(* ===== verification/XdrMem.v ===== *)
(** * The memory stream

    [uuu/lib/c/librpc/xdr_mem.c]: a stream over a buffer of the caller.  The
    three private fields of the handle are addresses and a count, as in the
    code; the buffer is the bytes from [x_base] on. *)
From S2P Require Import Prelude Posix CMemory Xdr XdrMemory XdrCodec XdrScalars.
Local Open Scope Z_scope.

Record xdrmem : Type := Xdrmem {
  x_private : Z;
  x_base : Z;
  x_handy : Z;
  x_buffer : list Z
}.

(** [x_handy -= n; x_private += n;] *)
Definition advance (n : Z) (x : xdrmem) : xdrmem :=
  Xdrmem (u32 (x_private x + n)) (x_base x) (u32 (x_handy x - n)) (x_buffer x).

Definition xdrmem_create (addr : Z) (buffer : list Z) (size : Z) : xdrmem := Xdrmem addr addr size buffer.

Definition xdrmem_getlong : M xdrmem (option Z) :=
  x ← gets id;
  if x_handy x <? 4 then mret None else
  bs ← deref (get_range (x_private x - x_base x) 4 (x_buffer x));
  modify (advance 4);;
  mret (Some (i32 (be_value bs))).

Definition put_at (p : Z) (bs : list Z) : M xdrmem unit :=
  x ← gets id;
  buffer ← deref (put_range (p - x_base x) bs (x_buffer x));
  modify (λ x, Xdrmem (x_private x) (x_base x) (x_handy x) buffer).

Definition xdrmem_putlong (l : Z) : M xdrmem bool :=
  x ← gets id;
  if x_handy x <? 4 then mret false else
  put_at (x_private x) (be_bytes l);;
  modify (advance 4);;
  mret true.

Definition xdrmem_getbytes (len : Z) : M xdrmem (bool * list Z) :=
  x ← gets id;
  if x_handy x <? len then mret (false, []) else
  bs ← deref (get_range (x_private x - x_base x) len (x_buffer x));
  modify (advance len);;
  mret (true, bs).

Definition xdrmem_putbytes (bs : list Z) : M xdrmem bool :=
  x ← gets id;
  if x_handy x <? zlen bs then mret false else
  put_at (x_private x) bs;;
  modify (advance (zlen bs));;
  mret true.

Definition xdrmem_getpos (x : xdrmem) : Z := u32 (x_private x - x_base x).

(** [UINT_MAX < LONG_MAX] does not hold here. *)
Definition xdrmem_setpos (pos : Z) : M xdrmem bool :=
  x ← gets id;
  let newaddr := u32 (x_base x + pos) in
  let lastaddr := u32 (x_private x + x_handy x) in
  if (i32 lastaddr <? i32 newaddr) ||
     ((2 ^ 32 - 1 <? 2 ^ 31 - 1) && (2 ^ 32 - 1 <? i32 lastaddr - i32 newaddr))
  then mret false else
  modify (λ x, Xdrmem newaddr (x_base x) (u32 (i32 lastaddr - i32 newaddr)) (x_buffer x));;
  mret true.

(** The address of [len] bytes to be used in place, or null. *)
Definition xdrmem_inline (len : Z) : M xdrmem Z :=
  x ← gets id;
  if len <=? x_handy x then
    modify (advance len);;
    mret (x_private x)
  else mret 0.

#[export] Instance xdrmem_ops : XdrOps xdrmem := {
  x_getlong := xdrmem_getlong;
  x_putlong := xdrmem_putlong;
  x_getbytes := xdrmem_getbytes;
  x_putbytes := xdrmem_putbytes
}.

(** ** The contract of a stream *)

(** The position is in the buffer and [x_handy] bytes before its end. *)
Definition xdrmem_ok (x : xdrmem) : Prop :=
  0 ≤ x_base x ∧ x_base x + zlen (x_buffer x) < 2 ^ 32 ∧ x_base x ≤ x_private x ∧ 0 ≤ x_handy x ∧
  x_private x + x_handy x = x_base x + zlen (x_buffer x).

Definition xdrmem_out (x : xdrmem) : list Z := take (Z.to_nat (x_private x - x_base x)) (x_buffer x).
Definition xdrmem_rest (x : xdrmem) : list Z := drop (Z.to_nat (x_private x - x_base x)) (x_buffer x).

Definition xdrmem_reads (bs : list Z) (x : xdrmem) : Prop :=
  xdrmem_ok x ∧ ∃ tail, xdrmem_rest x = bs ++ tail.

Definition xdrmem_writes (out : list Z) (n : nat) (x : xdrmem) : Prop :=
  xdrmem_ok x ∧ xdrmem_out x = out ∧ Z.of_nat n ≤ x_handy x.

Lemma length_rest x : xdrmem_ok x → zlen (xdrmem_rest x) = x_handy x.
Proof. unfold xdrmem_ok, xdrmem_rest, zlen. rewrite length_drop. intros Hx. lia. Qed.

Lemma xdrmem_advance_ok n x :
  xdrmem_ok x → 0 ≤ n ≤ x_handy x →
  advance n x = Xdrmem (x_private x + n) (x_base x) (x_handy x - n) (x_buffer x) ∧ xdrmem_ok (advance n x).
Proof.
  unfold xdrmem_ok, zlen. intros Hx Hn.
  assert (advance n x = Xdrmem (x_private x + n) (x_base x) (x_handy x - n) (x_buffer x)) as ->; [|split; [done|cbn; lia]].
  unfold advance. rewrite !u32_small by lia. done.
Qed.

(** Reading [n] bytes that are there. *)
Lemma read_ok n x :
  xdrmem_ok x → 0 ≤ n ≤ x_handy x →
  get_range (x_private x - x_base x) n (x_buffer x) = Some (take (Z.to_nat n) (xdrmem_rest x)) ∧
  xdrmem_ok (advance n x) ∧ xdrmem_rest (advance n x) = drop (Z.to_nat n) (xdrmem_rest x).
Proof.
  intros Hx Hn. destruct (xdrmem_advance_ok n x Hx Hn) as [Ea Ha]. split; [|split; [done|]].
  - unfold get_range, xdrmem_rest, dread. unfold xdrmem_ok in Hx.
    destruct (Z.leb_spec 0 (x_private x - x_base x)); [|lia].
    destruct (Z.leb_spec (x_private x - x_base x + n) (zlen (x_buffer x))); [done|lia].
  - rewrite Ea. unfold xdrmem_rest. cbn. rewrite drop_drop. f_equal. unfold xdrmem_ok in Hx. lia.
Qed.

Lemma put_ok bs n out x :
  xdrmem_writes out (length bs + n) x →
  ∃ x', put_at (x_private x) bs x = Ok tt x' ∧ xdrmem_writes (out ++ bs) n (advance (zlen bs) x').
Proof.
  intros (Hx & Ho & Hn). unfold put_at. rewrite bind_gets. cbn [id].
  pose proof Hx as (Hb & Hlen & Hp & Hh & He).
  destruct (range_split (x_buffer x) (x_private x - x_base x) (zlen bs)) as (xs & old & zs & Hbuf & Hxs & Hold);
    [lia|unfold zlen; lia|unfold zlen in *; lia|].
  rewrite Hbuf, (put_range_app xs old zs) by (unfold zlen in *; lia). rewrite bind_deref.
  eexists. split; [done|]. cbn [x_private]. set (x' := Xdrmem _ _ _ _).
  assert (zlen (xs ++ bs ++ zs) = zlen (x_buffer x)) as Hl.
  { rewrite Hbuf. unfold zlen in *. rewrite !length_app. lia. }
  assert (xdrmem_ok x') as Hx' by (unfold xdrmem_ok, x'; cbn; rewrite Hl; lia).
  destruct (xdrmem_advance_ok (zlen bs) x' Hx') as [Ea Ha]; [unfold x'; cbn; unfold zlen; lia|].
  split; [done|]. rewrite Ea. unfold xdrmem_out, x'. cbn. split; [|unfold zlen; lia].
  unfold xdrmem_out in Ho. rewrite Hbuf in Ho. rewrite <- Ho, app_assoc.
  rewrite !take_app_length' by (unfold zlen in *; rewrite ?length_app; lia). done.
Qed.

#[export] Program Instance xdrmem_stream : XdrStream xdrmem := {
  reads := xdrmem_reads;
  writes := xdrmem_writes;
  stream_ok := xdrmem_ok
}.
Next Obligation.
  intros l bs x [Hx [tail Ht]]. cbn [x_getlong xdrmem_ops]. unfold xdrmem_getlong. rewrite bind_gets. cbn [id].
  pose proof (length_rest x Hx) as Hl. rewrite Ht, <- app_assoc in Hl. unfold zlen in Hl.
  rewrite length_app, length_be_bytes in Hl. rewrite <- app_assoc in Ht.
  destruct (Z.ltb_spec (x_handy x) 4); [lia|]. destruct (read_ok 4 x Hx ltac:(lia)) as (E & Ha & Hr).
  rewrite E, bind_deref. exists (advance 4 x). rewrite Ht in Hr |- *. split.
  - change (Z.to_nat 4) with (length (be_bytes l)). rewrite take_app_length, be_value_bytes.
    change (l mod 2 ^ 32) with (u32 l). by rewrite i32_u32.
  - split; [done|]. exists tail. rewrite Hr. change (Z.to_nat 4) with (length (be_bytes l)). apply drop_app_length.
Qed.
Next Obligation.
  intros xs bs x _ [Hx [tail Ht]]. cbn [x_getbytes xdrmem_ops]. unfold xdrmem_getbytes. rewrite bind_gets. cbn [id].
  pose proof (length_rest x Hx) as Hl. rewrite <- app_assoc in Ht. rewrite Ht in Hl. unfold zlen in Hl.
  rewrite length_app in Hl. unfold zlen.
  destruct (Z.ltb_spec (x_handy x) (Z.of_nat (length xs))); [lia|].
  destruct (read_ok (Z.of_nat (length xs)) x Hx ltac:(lia)) as (E & Ha & Hr).
  rewrite E, bind_deref. exists (advance (Z.of_nat (length xs)) x). rewrite Nat2Z.id, Ht in Hr |- *. split.
  - by rewrite take_app_length.
  - split; [done|]. exists tail. rewrite Hr. apply drop_app_length.
Qed.
Next Obligation.
  intros l out n x Hw. cbn [x_putlong xdrmem_ops]. unfold xdrmem_putlong. rewrite bind_gets. cbn [id].
  pose proof Hw as (_ & _ & Hn). destruct (Z.ltb_spec (x_handy x) 4); [lia|].
  destruct (put_ok (be_bytes l) n out x Hw) as (x' & E & Hw'). step_with E. by eexists.
Qed.
Next Obligation.
  intros xs out n x _ Hw. cbn [x_putbytes xdrmem_ops]. unfold xdrmem_putbytes. rewrite bind_gets. cbn [id].
  pose proof Hw as (_ & _ & Hn). destruct (Z.ltb_spec (x_handy x) (zlen xs)); [unfold zlen in *; lia|].
  destruct (put_ok xs n out x Hw) as (x' & E & Hw'). step_with E. by eexists.
Qed.
Next Obligation.
  intros x Hx. cbn [x_getlong xdrmem_ops]. unfold xdrmem_getlong. rewrite bind_gets. cbn [id].
  destruct (Z.ltb_spec (x_handy x) 4); [by exists None, x|].
  destruct (read_ok 4 x Hx ltac:(lia)) as (E & Ha & Hr). rewrite E, bind_deref. eexists _, _. split; [done|].
  split; [done|]. intros l [= <-]. apply i32_range.
Qed.
Next Obligation.
  intros n x Hx Hn. cbn [x_getbytes xdrmem_ops]. unfold xdrmem_getbytes. rewrite bind_gets. cbn [id].
  destruct (Z.ltb_spec (x_handy x) n).
  { exists false, [], x. split; [done|]. split; [done|]. unfold zlen. cbn. lia. }
  destruct (read_ok n x Hx ltac:(lia)) as (E & Ha & Hr). rewrite E, bind_deref. eexists true, _, _. split; [done|].
  split; [done|]. pose proof (length_rest x Hx) as Hl. unfold zlen in *. rewrite length_take. lia.
Qed.
