(* ===== verification/XdrRec.v ===== *)
(** * The record stream

    [uuu/lib/c/librpc/xdr_rec.c]: records over a connection of bytes, each
    cut into fragments with a header of four bytes.  The two halves of
    [RECSTREAM] do not meet and are states of their own.  Pointers into the
    buffers are offsets from [out_base] and [in_base], which the code aligns
    to four bytes.  The connection is the pieces in which incoming bytes will
    arrive, the bytes sent, and what the writes to come answer. *)
From S2P Require Import Prelude Posix CMemory Xdr XdrMemory.
Local Open Scope Z_scope.

Definition LAST_FRAG : Z := 2 ^ 31.

(** ** Sending *)

Record rec_out : Type := RecOut {
  out_buffer : list Z;
  out_finger : Z;
  out_boundry : Z;
  frag_header : Z;
  frag_sent : bool;
  sent : list Z;
  writes_ok : list bool
}.

Definition set_out_finger v r := RecOut (out_buffer r) v (out_boundry r) (frag_header r) (frag_sent r) (sent r) (writes_ok r).
Definition set_frag_header v r := RecOut (out_buffer r) (out_finger r) (out_boundry r) v (frag_sent r) (sent r) (writes_ok r).
Definition set_frag_sent v r := RecOut (out_buffer r) (out_finger r) (out_boundry r) (frag_header r) v (sent r) (writes_ok r).

Definition store_out (off : Z) (bs : list Z) : M rec_out unit :=
  r ← gets id;
  buffer ← deref (put_range off bs (out_buffer r));
  modify (λ r, RecOut buffer (out_finger r) (out_boundry r) (frag_header r) (frag_sent r) (sent r) (writes_ok r)).

(** [writeit(tcp_handle, out_base, len)]: all of the bytes, or -1. *)
Definition writeit (len : Z) : M rec_out Z :=
  r ← gets id;
  bs ← deref (get_range 0 len (out_buffer r));
  if hd true (writes_ok r) then
    modify (λ r, RecOut (out_buffer r) (out_finger r) (out_boundry r) (frag_header r) (frag_sent r)
      (sent r ++ bs) (tl (writes_ok r)));;
    mret (i32 len)
  else
    modify (λ r, RecOut (out_buffer r) (out_finger r) (out_boundry r) (frag_header r) (frag_sent r)
      (sent r) (tl (writes_ok r)));;
    mret (-1).

Definition flush_out (eor : bool) : M rec_out bool :=
  let eormask := if eor then LAST_FRAG else 0 in
  r ← gets id;
  let len := u32 (out_finger r - frag_header r - BYTES_PER_XDR_UNIT) in
  store_out (frag_header r) (be_bytes (Z.lor len eormask));;
  let len := out_finger r in
  n ← writeit len;
  if negb (n =? i32 len) then mret false else
  modify (set_frag_header 0);;
  modify (set_out_finger BYTES_PER_XDR_UNIT);;
  mret true.

Definition xdrrec_putlong (l : Z) : M rec_out bool :=
  r ← gets id;
  let dest_lp := out_finger r in
  modify (set_out_finger (out_finger r + BYTES_PER_XDR_UNIT));;
  if out_boundry r <? out_finger r + BYTES_PER_XDR_UNIT then
    modify (set_out_finger (out_finger r));;
    modify (set_frag_sent true);;
    ok ← flush_out false;
    if negb ok then mret false else
    r ← gets id;
    modify (set_out_finger (out_finger r + BYTES_PER_XDR_UNIT));;
    store_out (out_finger r) (be_bytes l);;
    mret true
  else
    store_out dest_lp (be_bytes l);;
    mret true.

(** The loop of [xdrrec_putbytes]: each round sends something or flushes. *)
Fixpoint putbytes_loop (fuel : nat) (bs : list Z) : M rec_out bool :=
  if zlen bs =? 0 then mret true else
  match fuel with
  | O => no_fuel
  | Datatypes.S fuel =>
      r ← gets id;
      let current := u32 (out_boundry r - out_finger r) in
      let current := if zlen bs <? current then zlen bs else current in
      store_out (out_finger r) (take (Z.to_nat current) bs);;
      modify (set_out_finger (out_finger r + current));;
      let bs := drop (Z.to_nat current) bs in
      if out_finger r + current =? out_boundry r then
        modify (set_frag_sent true);;
        ok ← flush_out false;
        if negb ok then mret false else putbytes_loop fuel bs
      else putbytes_loop fuel bs
  end.
Definition xdrrec_putbytes (bs : list Z) : M rec_out bool := putbytes_loop (2 + length bs) bs.

Definition xdrrec_endofrecord (sendnow : bool) : M rec_out bool :=
  r ← gets id;
  if sendnow || frag_sent r || (out_boundry r <=? out_finger r + BYTES_PER_XDR_UNIT) then
    modify (set_frag_sent false);;
    flush_out true
  else
    let len := u32 (out_finger r - frag_header r - BYTES_PER_XDR_UNIT) in
    store_out (frag_header r) (be_bytes (Z.lor len LAST_FRAG));;
    modify (set_frag_header (out_finger r));;
    modify (set_out_finger (out_finger r + BYTES_PER_XDR_UNIT));;
    mret true.

(** ** Receiving *)

Record rec_in : Type := RecIn {
  in_buffer : list Z;
  in_size : Z;
  in_finger : Z;
  in_boundry : Z;
  fbtbc : Z;
  last_frag : bool;
  arriving : list (list Z)
}.

Definition set_in_finger v r := RecIn (in_buffer r) (in_size r) v (in_boundry r) (fbtbc r) (last_frag r) (arriving r).
Definition set_fbtbc v r := RecIn (in_buffer r) (in_size r) (in_finger r) (in_boundry r) v (last_frag r) (arriving r).
Definition set_last_frag v r := RecIn (in_buffer r) (in_size r) (in_finger r) (in_boundry r) (fbtbc r) v (arriving r).

(** [readit(tcp_handle, where, len)]: the next piece, or as much of it as
    there is room for; -1 when there are no more. *)
Definition readit (len : Z) : M rec_in (option (list Z)) := λ r,
  let leave pieces := RecIn (in_buffer r) (in_size r) (in_finger r) (in_boundry r) (fbtbc r) (last_frag r) pieces in
  match arriving r with
  | [] => Ok None r
  | piece :: pieces =>
      if zlen piece <=? len then Ok (Some piece) (leave pieces)
      else Ok (Some (take (Z.to_nat len) piece)) (leave (drop (Z.to_nat len) piece :: pieces))
  end.

Definition fill_input_buf : M rec_in bool :=
  r ← gets id;
  let i := in_boundry r mod BYTES_PER_XDR_UNIT in
  let len := i32 (in_size r - i) in
  bs ← readit len;
  match bs with
  | None => mret false
  | Some bs =>
      buffer ← deref (put_range i bs (in_buffer r));
      modify (λ r, RecIn buffer (in_size r) i (i + zlen bs) (fbtbc r) (last_frag r) (arriving r));;
      mret true
  end.

(** The loop of [get_input_bytes]: a round fills the buffer or takes what it
    holds.  The bytes copied come with the answer. *)
Fixpoint get_loop (fuel : nat) (len : Z) : M rec_in (bool * list Z) :=
  if len <=? 0 then mret (true, []) else
  match fuel with
  | O => no_fuel
  | Datatypes.S fuel =>
      r ← gets id;
      let current := i32 (in_boundry r - in_finger r) in
      if current =? 0 then
        ok ← fill_input_buf;
        if negb ok then mret (false, []) else get_loop fuel len
      else
        let current := if len <? current then len else current in
        bs ← deref (get_range (in_finger r) current (in_buffer r));
        modify (set_in_finger (in_finger r + current));;
        rest ← get_loop fuel (len - current);
        mret (rest.1, bs ++ rest.2)
  end.

(** What can still come bounds the rounds: a piece is filled in at most once
    for each byte. *)
Definition to_come (r : rec_in) : nat := length (concat (arriving r)) + length (arriving r).
Definition get_input_bytes (len : Z) : M rec_in (bool * list Z) :=
  r ← gets id;
  get_loop (2 * to_come r + 2) (i32 len).

Definition set_input_fragment : M rec_in bool :=
  r ← get_input_bytes 4;
  if negb r.1 then mret false else
  let header := u32 (be_value r.2) in
  modify (set_last_frag (negb (Z.land header LAST_FRAG =? 0)));;
  if header =? 0 then mret false else
  modify (set_fbtbc (Z.land header (LAST_FRAG - 1)));;
  mret true.

Fixpoint skip_loop (fuel : nat) (cnt : Z) : M rec_in bool :=
  if cnt <=? 0 then mret true else
  match fuel with
  | O => no_fuel
  | Datatypes.S fuel =>
      r ← gets id;
      let current := i32 (in_boundry r - in_finger r) in
      if current =? 0 then
        ok ← fill_input_buf;
        if negb ok then mret false else skip_loop fuel cnt
      else
        let current := if cnt <? current then cnt else current in
        modify (set_in_finger (in_finger r + current));;
        skip_loop fuel (cnt - current)
  end.
Definition skip_input_bytes (cnt : Z) : M rec_in bool :=
  r ← gets id;
  skip_loop (2 * to_come r + 2) cnt.

(** The loop of [xdrrec_getbytes]: a round reads a header or takes from the
    fragment at hand. *)
Fixpoint getbytes_loop (fuel : nat) (len : Z) : M rec_in (bool * list Z) :=
  if len =? 0 then mret (true, []) else
  match fuel with
  | O => no_fuel
  | Datatypes.S fuel =>
      r ← gets id;
      let current := u32 (fbtbc r) in
      if current =? 0 then
        if last_frag r then mret (false, []) else
        ok ← set_input_fragment;
        if negb ok then mret (false, []) else getbytes_loop fuel len
      else
        let current := if len <? current then len else current in
        got ← get_input_bytes current;
        if negb got.1 then mret got else
        modify (λ r, set_fbtbc (fbtbc r - current) r);;
        rest ← getbytes_loop fuel (len - current);
        mret (rest.1, got.2 ++ rest.2)
  end.

(** Headers to come are part of the bytes to come. *)
Definition buffered (r : rec_in) : Z := in_boundry r - in_finger r.
Definition xdrrec_getbytes (len : Z) : M rec_in (bool * list Z) :=
  r ← gets id;
  getbytes_loop (2 * (to_come r + Z.to_nat (buffered r)) + 3) len.

Definition xdrrec_getlong : M rec_in (option Z) :=
  r ← gets id;
  if (BYTES_PER_XDR_UNIT <=? fbtbc r) && (BYTES_PER_XDR_UNIT <=? in_boundry r - in_finger r) then
    bs ← deref (get_range (in_finger r) 4 (in_buffer r));
    modify (λ r, set_fbtbc (fbtbc r - BYTES_PER_XDR_UNIT) r);;
    modify (λ r, set_in_finger (in_finger r + BYTES_PER_XDR_UNIT) r);;
    mret (Some (i32 (be_value bs)))
  else
    got ← xdrrec_getbytes BYTES_PER_XDR_UNIT;
    mret (if negb got.1 then None else Some (i32 (be_value got.2))).

(** The loop [xdrrec_skiprecord] and [xdrrec_eof] share: [false] when the
    input ends first. *)
Fixpoint skip_fragments (fuel : nat) : M rec_in bool :=
  r ← gets id;
  if negb ((0 <? fbtbc r) || negb (last_frag r)) then mret true else
  match fuel with
  | O => no_fuel
  | Datatypes.S fuel =>
      ok ← skip_input_bytes (fbtbc r);
      if negb ok then mret false else
      modify (set_fbtbc 0);;
      r ← gets id;
      if last_frag r then skip_fragments fuel else
      ok ← set_input_fragment;
      if negb ok then mret false else skip_fragments fuel
  end.
Definition fragments_fuel (r : rec_in) : nat := to_come r + Z.to_nat (buffered r) + 2.

Definition xdrrec_skiprecord : M rec_in bool :=
  r ← gets id;
  ok ← skip_fragments (fragments_fuel r);
  if negb ok then mret false else
  modify (set_last_frag false);;
  mret true.

Definition xdrrec_eof : M rec_in bool :=
  r ← gets id;
  ok ← skip_fragments (fragments_fuel r);
  if negb ok then mret true else
  r ← gets id;
  mret (in_finger r =? in_boundry r).

(** ** The stream *)

Record recstream : Type := RecStream {
  r_out : rec_out;
  r_in : rec_in;
  sendsize : Z;
  recvsize : Z
}.

Definition on_out {A} (c : M rec_out A) : M recstream A := λ r,
  match c (r_out r) with
  | Ok a o => Ok a (RecStream o (r_in r) (sendsize r) (recvsize r))
  | Exit code o => Exit code (RecStream o (r_in r) (sendsize r) (recvsize r))
  | Stuck => Stuck
  | NoFuel => NoFuel
  end.

Definition on_in {A} (c : M rec_in A) : M recstream A := λ r,
  match c (r_in r) with
  | Ok a i => Ok a (RecStream (r_out r) i (sendsize r) (recvsize r))
  | Exit code i => Exit code (RecStream (r_out r) i (sendsize r) (recvsize r))
  | Stuck => Stuck
  | NoFuel => NoFuel
  end.

#[export] Instance recstream_ops : XdrOps recstream := {
  x_getlong := on_in xdrrec_getlong;
  x_putlong l := on_out (xdrrec_putlong l);
  x_getbytes n := on_in (xdrrec_getbytes n);
  x_putbytes bs := on_out (xdrrec_putbytes bs)
}.

Definition fix_buf_size (s : Z) : Z :=
  let s := if s <? 100 then 4000 else s in
  u32 (u32 (s + BYTES_PER_XDR_UNIT - 1) / BYTES_PER_XDR_UNIT * BYTES_PER_XDR_UNIT).

(** The stream over buffers that hold [junk] and a connection, once both
    allocations succeeded; when one fails the code leaves the handle as it is. *)
Definition xdrrec_create (send recv : Z) (junk : list Z * list Z) (pieces : list (list Z)) : recstream :=
  let send := fix_buf_size send in
  let recv := fix_buf_size recv in
  RecStream (RecOut junk.1 (0 + 4) (0 + send) 0 false [] [])
    (RecIn junk.2 recv recv recv 0 true pieces) send recv.

(** [lseek] gives the position of the handle, or -1. *)
Definition xdrrec_getpos (op : xdr_op) (seek : Z) (r : recstream) : Z :=
  u32 (if seek =? -1 then seek else
       match op with
       | XDR_ENCODE => seek + out_finger (r_out r)
       | XDR_DECODE => seek - (in_boundry (r_in r) - in_finger (r_in r))
       | XDR_FREE => u32 (-1)
       end).

Definition xdrrec_setpos (op : xdr_op) (seek pos : Z) : M recstream bool :=
  r ← gets id;
  let currpos := xdrrec_getpos op seek r in
  let delta := i32 (currpos - pos) in
  if i32 currpos =? -1 then mret false else
  match op with
  | XDR_ENCODE =>
      let newpos := out_finger (r_out r) - delta in
      if (frag_header (r_out r) <? newpos) && (newpos <? out_boundry (r_out r)) then
        on_out (modify (set_out_finger newpos));;
        mret true
      else mret false
  | XDR_DECODE =>
      let newpos := in_finger (r_in r) - delta in
      if (delta <? i32 (fbtbc (r_in r))) && (newpos <=? in_boundry (r_in r)) && (0 <=? newpos) then
        on_in (modify (set_in_finger newpos));;
        on_in (modify (λ i, set_fbtbc (fbtbc i - delta) i));;
        mret true
      else mret false
  | XDR_FREE => mret false
  end.

(** The offset of [len] bytes to be used in place, if there are. *)
Definition xdrrec_inline (op : xdr_op) (len : Z) : M recstream (option Z) :=
  r ← gets id;
  match op with
  | XDR_ENCODE =>
      if out_finger (r_out r) + len <=? out_boundry (r_out r) then
        on_out (modify (set_out_finger (out_finger (r_out r) + len)));;
        mret (Some (out_finger (r_out r)))
      else mret None
  | XDR_DECODE =>
      if (i32 len <=? fbtbc (r_in r)) && (in_finger (r_in r) + len <=? in_boundry (r_in r)) then
        on_in (modify (λ i, set_fbtbc (fbtbc i - len) i));;
        on_in (modify (set_in_finger (in_finger (r_in r) + len)));;
        mret (Some (in_finger (r_in r)))
      else mret None
  | XDR_FREE => mret None
  end.
