(* ===== verification/XdrRecProofs.v ===== *)
(** * Fragments and records

    What the bytes of a record stream mean: fragments with their headers, and
    the records the fragments make.  Neither end of the stream is here. *)
From S2P Require Import Prelude Posix CMemory Xdr XdrMemory XdrCodec XdrScalars XdrRec.
Local Open Scope Z_scope.

(** Whether it is the last of its record, and the data. *)
Definition fragment : Type := bool * list Z.
Implicit Types (f : fragment) (frs : list fragment) (open d x : list Z).

Definition header_of f : Z := Z.lor (zlen f.2) (if f.1 then LAST_FRAG else 0).
Definition fragment_bytes f : list Z := be_bytes (header_of f) ++ f.2.
Definition wire frs : list Z := frs ≫= fragment_bytes.

(** The length fits its field, and a fragment without data is the last one. *)
Definition fragment_ok f : Prop := zlen f.2 < 2 ^ 31 ∧ (f.1 = false → f.2 ≠ []).

(** The complete records, the first of which starts with [open], and the
    data of the one that is not complete. *)
Fixpoint records open frs : list (list Z) * list Z :=
  match frs with
  | [] => ([], open)
  | (last, d) :: frs =>
      if last : bool then let '(rs, o) := records [] frs in ((open ++ d) :: rs, o)
      else records (open ++ d) frs
  end.

Lemma wire_app frs frs' : wire (frs ++ frs') = wire frs ++ wire frs'.
Proof. apply bind_app. Qed.

Lemma records_app open frs frs' :
  records open (frs ++ frs') =
    ((records open frs).1 ++ (records (records open frs).2 frs').1, (records (records open frs).2 frs').2).
Proof.
  revert open. induction frs as [|[[] d] frs IH]; intros open; cbn [app records fst snd].
  - cbn [fst snd app]. by destruct (records open frs').
  - rewrite IH. by destruct (records [] frs) as [rs o].
  - apply IH.
Qed.

(** Data before the first fragment is data of the first record. *)
Lemma records_shift x open frs :
  records (x ++ open) frs =
    match (records open frs).1 with
    | [] => ([], x ++ (records open frs).2)
    | r :: rs => ((x ++ r) :: rs, (records open frs).2)
    end.
Proof.
  revert open. induction frs as [|[[] d] frs IH]; intros open; cbn [records]; [done| |].
  - destruct (records [] frs). cbn. by rewrite app_assoc.
  - rewrite <- app_assoc. apply IH.
Qed.

Lemma records_drop n d frs r rs o :
  (n ≤ length d)%nat → records d frs = (r :: rs, o) →
  records (drop n d) frs = (drop n r :: rs, o) ∧ take n d = take n r ∧ (length d ≤ length r)%nat.
Proof.
  intros Hn Hr. assert (length (take n d) = n) as Hl by (rewrite length_take; lia).
  pose proof (records_shift (take n d) (drop n d) frs) as Hs. rewrite take_drop, Hr in Hs.
  pose proof (records_shift d [] frs) as Hs'. rewrite app_nil_r, Hr in Hs'.
  destruct (records (drop n d) frs) as [[|r' rs'] o'] eqn:E; [done|]. cbn in Hs. injection Hs as -> <- <-.
  rewrite drop_app_length', take_app_length' by done. split; [done|]. split; [done|].
  destruct (records [] frs) as [[|r'' rs''] o'']; [done|]. cbn in Hs'. injection Hs' as Hr' _ _.
  rewrite Hr', length_app. lia.
Qed.

(** ** The header *)

Lemma bit31_small l : 0 ≤ l < 2 ^ 31 → Z.testbit l 31 = false.
Proof. intros Hl. rewrite Z.testbit_odd, Z.shiftr_div_pow2 by lia. by rewrite Z.div_small. Qed.

Lemma land_bit31 z : Z.land z LAST_FRAG = if Z.testbit z 31 then LAST_FRAG else 0.
Proof.
  unfold LAST_FRAG. apply Z.bits_inj'. intros i Hi. rewrite Z.land_spec, Z.pow2_bits_eqb by lia.
  destruct (Z.eqb_spec 31 i) as [<-|Hne].
  - rewrite andb_true_r. by destruct (Z.testbit z 31).
  - rewrite andb_false_r. destruct (Z.testbit z 31); [|by rewrite Z.bits_0].
    rewrite Z.pow2_bits_eqb by lia. by destruct (Z.eqb_spec 31 i).
Qed.

Lemma header_sum f : fragment_ok f → header_of f = zlen f.2 + (if f.1 then 2 ^ 31 else 0).
Proof.
  intros [Hl _]. unfold header_of. assert (0 ≤ zlen f.2) as Hz by (unfold zlen; lia).
  destruct f.1; [|by rewrite Z.lor_0_r, Z.add_0_r].
  assert (Z.land (zlen f.2) LAST_FRAG = 0) as Hd by (rewrite land_bit31, bit31_small by lia; done).
  by rewrite <- Z.lxor_lor, <- Z.add_nocarry_lxor.
Qed.

Lemma header_read f :
  fragment_ok f →
  0 ≤ header_of f < 2 ^ 32 ∧ negb (Z.land (header_of f) LAST_FRAG =? 0) = f.1 ∧
  Z.land (header_of f) (LAST_FRAG - 1) = zlen f.2 ∧ header_of f ≠ 0.
Proof.
  intros Hf. pose proof Hf as [Hl Hne]. assert (0 ≤ zlen f.2) as Hz by (unfold zlen; lia).
  split; [rewrite header_sum by done; destruct f.1; lia|]. split; [|split].
  - rewrite land_bit31. unfold header_of. rewrite Z.lor_spec, bit31_small by lia. by destruct f.1.
  - rewrite header_sum by done. change (LAST_FRAG - 1) with (Z.ones 31). rewrite Z.land_ones by lia.
    destruct f.1; [|rewrite Z.add_0_r; by apply Z.mod_small].
    rewrite <- (Z.mul_1_l (2 ^ 31)) at 1. rewrite Z_mod_plus_full. by apply Z.mod_small.
  - rewrite header_sum by done. destruct f.1; [lia|]. specialize (Hne eq_refl).
    destruct f.2; [done|]. unfold zlen. cbn [length]. lia.
Qed.

(** * Sending records

    What the output half of a record stream keeps true: the bytes sent and
    those before the open header are fragments, and what the open record holds
    so far is what was put. *)

(** The buffer: whole fragments [pre], the open header, its data [cur], and
    room [spare]. *)
Record out_layout (r : rec_out) (pre hdr cur spare : list Z) : Prop := OutLayout {
  ol_buffer : out_buffer r = pre ++ hdr ++ cur ++ spare;
  ol_header : frag_header r = zlen pre;
  ol_width : length hdr = 4%nat;
  ol_finger : out_finger r = zlen pre + 4 + zlen cur;
  ol_boundry : out_boundry r = out_finger r + zlen spare;
  ol_word : out_boundry r < 2 ^ 31;
  ol_space : zlen pre + 4 < out_boundry r;
  ol_align : zlen pre mod 4 = 0 ∧ out_boundry r mod 4 = 0;
  ol_writes : writes_ok r = []
}.

(** [done] are the records sent or in the buffer, [out] what the open one
    holds. *)
Definition rec_writes (done : list (list Z)) (out : list Z) (r : rec_out) : Prop :=
  ∃ pre hdr cur spare frs open,
    out_layout r pre hdr cur spare ∧ Forall fragment_ok frs ∧ sent r ++ pre = wire frs ∧
    records [] frs = (done, open) ∧ out = open ++ cur ∧ (frag_sent r = false → open = []).

Lemma length_zlen (xs : list Z) n : zlen xs = Z.of_nat n ↔ length xs = n.
Proof. unfold zlen. lia. Qed.

Lemma zlen_be l : zlen (be_bytes l) = 4.
Proof. done. Qed.

Lemma store_out_ok r xs old zs off bs :
  out_buffer r = xs ++ old ++ zs → off = zlen xs → length old = length bs →
  store_out off bs r = Ok tt (RecOut (xs ++ bs ++ zs) (out_finger r) (out_boundry r) (frag_header r) (frag_sent r)
    (sent r) (writes_ok r)).
Proof.
  intros Hb -> Hl. unfold store_out. rewrite bind_gets. cbn [id].
  by rewrite Hb, (put_range_app xs old zs _ bs) by done.
Qed.

(** Data behind [cur], the finger after it. *)
Lemma put_data r pre hdr cur spare bs :
  out_layout r pre hdr cur spare → zlen bs ≤ zlen spare →
  let finger := out_finger r + zlen bs in
  ∃ r', store_out (out_finger r) bs r = Ok tt r' ∧
    store_out (out_finger r) bs (set_out_finger finger r) = Ok tt (set_out_finger finger r') ∧
    out_layout (set_out_finger finger r') pre hdr (cur ++ bs) (drop (length bs) spare) ∧
    sent r' = sent r ∧ out_boundry r' = out_boundry r ∧ frag_sent r' = frag_sent r.
Proof.
  intros [Hb Hh Hw Hf Hbd Hword Hsp Ha Hwr] Hl finger.
  assert (out_buffer r = (pre ++ hdr ++ cur) ++ take (length bs) spare ++ drop (length bs) spare) as Hb'
    by by rewrite take_drop, <- !app_assoc.
  assert (out_finger r = zlen (pre ++ hdr ++ cur)) as Hf' by (rewrite !zlen_app, Hf; unfold zlen; lia).
  assert (length (take (length bs) spare) = length bs) as Ht by (rewrite length_take; unfold zlen in Hl; lia).
  eexists. split; [exact (store_out_ok r _ _ _ _ bs Hb' Hf' Ht)|].
  split; [exact (store_out_ok (set_out_finger finger r) _ _ _ _ bs Hb' Hf' Ht)|]. split; [|done].
  split; cbn; try done.
  - by rewrite <- !app_assoc.
  - unfold finger. rewrite zlen_app. lia.
  - unfold finger. rewrite Hbd. unfold zlen in *. rewrite length_drop. lia.
Qed.

(** The header is filled in and the buffer sent. *)
Lemma flush_ok eor r pre hdr cur spare frs open done :
  out_layout r pre hdr cur spare → Forall fragment_ok frs → sent r ++ pre = wire frs →
  records [] frs = (done, open) → (eor = false → cur ≠ []) →
  ∃ r' frs', flush_out eor r = Ok true r' ∧ Forall fragment_ok frs' ∧ sent r' = wire frs' ∧
    frs' = frs ++ [(eor, cur)] ∧ frag_sent r' = frag_sent r ∧
    ∃ hdr' spare', out_layout r' [] hdr' [] spare' ∧ 4 + zlen spare' = out_boundry r.
Proof.
  intros [Hb Hh Hw Hf Hbd Hword Hsp Ha Hwr] Hfrs Hs Hr Hne. unfold flush_out. rewrite bind_gets. cbn [id].
  pose proof (zlen_nonneg pre). pose proof (zlen_nonneg cur). pose proof (zlen_nonneg spare).
  rewrite Hh, Hf. unfold BYTES_PER_XDR_UNIT. rewrite u32_small by lia.
  replace (zlen pre + 4 + zlen cur - zlen pre - 4) with (zlen cur) by lia.
  assert (fragment_ok (eor, cur)) as Hfr by (split; cbn; [lia|done]).
  change (Z.lor (zlen cur) (if eor then LAST_FRAG else 0)) with (header_of (eor, cur)).
  rewrite (bind_Ok _ _ _ _ _ (store_out_ok r pre hdr (cur ++ spare) (zlen pre) (be_bytes (header_of (eor, cur)))
    Hb eq_refl Hw)).
  unfold writeit. cbn [out_buffer out_finger]. rewrite Hf, bind_assoc, bind_gets. cbn [id out_buffer writes_ok].
  rewrite bind_assoc.
  assert (get_range 0 (zlen pre + 4 + zlen cur) (pre ++ be_bytes (header_of (eor, cur)) ++ cur ++ spare) =
    Some (pre ++ fragment_bytes (eor, cur))) as ->.
  { rewrite app_assoc, (app_assoc _ cur spare). rewrite <- (app_assoc pre).
    apply (get_range_app [] _ spare); [done|]. rewrite zlen_app. unfold fragment_bytes. rewrite zlen_app, zlen_be.
    cbn [snd]. lia. }
  rewrite bind_deref, Hwr. cbn [hd tl]. rewrite bind_assoc, bind_modify, bind_ret.
  rewrite Z.eqb_refl. cbn [negb]. rewrite !bind_modify. cbn -[be_bytes].
  eexists _, (frs ++ [(eor, cur)]). split; [done|]. split; [by apply Forall_app; split; [|constructor]|]. cbn -[be_bytes].
  split; [|split; [done|split; [done|]]].
  - rewrite wire_app, <- Hs, <- app_assoc. unfold wire. cbn [mbind list_bind]. by rewrite app_nil_r.
  - set (buf := pre ++ _). assert (zlen buf = out_boundry r) as Hbuf.
    { unfold buf. rewrite !zlen_app, zlen_be, Hbd, Hf. lia. }
    exists (take 4 buf), (drop 4 buf). assert (4 ≤ length buf)%nat as H4.
    { apply (f_equal Z.to_nat) in Hbuf. unfold zlen in Hbuf. rewrite Nat2Z.id in Hbuf. rewrite Hbuf. lia. }
    assert (4 + zlen (drop 4 buf) = out_boundry r) as Hd by (rewrite <- Hbuf; unfold zlen; rewrite length_drop; lia).
    split; [|done].
    split; cbn -[zlen drop take]; try done.
    + by rewrite take_drop.
    + rewrite length_take. lia.
    + change (zlen []) with 0. lia.
    + split; [done|apply Ha].
Qed.

(** ** The operations *)

(** The buffer of a record that goes on is sent. *)
Lemma flush_writes r pre hdr cur spare frs open done :
  out_layout r pre hdr cur spare → Forall fragment_ok frs → sent r ++ pre = wire frs →
  records [] frs = (done, open) → cur ≠ [] → frag_sent r = true →
  ∃ r', flush_out false r = Ok true r' ∧ rec_writes done (open ++ cur) r' ∧
    out_finger r' = 4 ∧ out_boundry r' = out_boundry r ∧ 8 ≤ out_boundry r.
Proof.
  intros Hl Hfrs Hs Hr Hne Hflag.
  destruct (flush_ok false r pre hdr cur spare frs open done Hl Hfrs Hs Hr ltac:(done))
    as (r' & frs' & E & Hfrs' & Hs' & -> & Hf & hdr' & spare' & Hl' & Hsp').
  exists r'. split; [done|]. pose proof Hl' as [_ _ _ Hf' Hb' _ _ _ _]. pose proof Hl as [_ _ _ _ _ _ Hroom [Ha1 Ha2] _].
  change (out_finger r' = 4) in Hf'. pose proof (zlen_nonneg pre). pose proof (Z.div_mod (out_boundry r) 4).
  split; [|lia].
  exists [], hdr', [], spare', (frs ++ [(false, cur)]), (open ++ cur).
  rewrite !app_nil_r. split; [done|]. split; [done|]. split; [done|]. rewrite records_app, Hr. cbn.
  rewrite app_nil_r. split; [done|]. split; [done|]. by rewrite Hf, Hflag.
Qed.

(** A long where there is room. *)
Lemma put_long l r pre hdr cur spare frs open done :
  out_layout r pre hdr cur spare → Forall fragment_ok frs → sent r ++ pre = wire frs →
  records [] frs = (done, open) → 4 ≤ zlen spare → (frag_sent r = false → open = []) →
  ∃ r', store_out (out_finger r) (be_bytes l) (set_out_finger (out_finger r + 4) r) = Ok tt r' ∧
    rec_writes done (open ++ cur ++ be_bytes l) r'.
Proof.
  intros Hl Hfrs Hs Hr Hsp Hflag.
  destruct (put_data r pre hdr cur spare (be_bytes l) Hl Hsp) as (r1 & _ & E & Hl1 & Hs1 & _ & Hf1).
  eexists. split; [exact E|]. eexists pre, hdr, _, _, frs, open. split; [exact Hl1|].
  cbn [sent frag_sent set_out_finger]. by rewrite Hs1, Hf1.
Qed.

Lemma rec_putlong l done out r :
  rec_writes done out r → ∃ r', xdrrec_putlong l r = Ok true r' ∧ rec_writes done (out ++ be_bytes l) r'.
Proof.
  intros (pre & hdr & cur & spare & frs & open & Hl & Hfrs & Hs & Hr & -> & Hflag).
  pose proof Hl as [_ _ _ Hf Hb Hw Hsp [Ha1 Ha2] _]. unfold xdrrec_putlong, BYTES_PER_XDR_UNIT. rewrite bind_gets. cbn [id].
  rewrite bind_modify. destruct (Z.ltb_spec (out_boundry r) (out_finger r + 4)) as [Hfull|Hroom].
  - rewrite !bind_modify. set (r0 := set_frag_sent true _).
    assert (cur ≠ []) as Hne.
    { intros ->. change (zlen []) with 0 in Hf.
      pose proof (Z.div_mod (zlen pre) 4). pose proof (Z.div_mod (out_boundry r) 4). lia. }
    assert (out_layout r0 pre hdr cur spare) as Hl0 by (destruct Hl; by split).
    destruct (flush_writes r0 pre hdr cur spare frs open done Hl0 Hfrs Hs Hr Hne eq_refl) as (r1 & E & Hw1 & Hf1 & Hb1 & H8).
    step_with E. cbn [negb]. rewrite bind_gets. cbn [id]. rewrite bind_modify.
    destruct Hw1 as (pre' & hdr' & cur' & spare' & frs' & open' & Hl1 & Hfrs1 & Hs1 & Hr1 & Hout & Hflag1).
    pose proof Hl1 as [_ _ _ _ Hb' _ _ _ _].
    destruct (put_long l r1 pre' hdr' cur' spare' frs' open' done Hl1 Hfrs1 Hs1 Hr1 ltac:(lia) Hflag1) as (r2 & E2 & Hw2).
    step_with E2. exists r2. split; [done|]. by rewrite Hout, <- app_assoc.
  - destruct (put_long l r pre hdr cur spare frs open done Hl Hfrs Hs Hr ltac:(lia) Hflag) as (r2 & E2 & Hw2).
    step_with E2. exists r2. split; [done|]. by rewrite <- app_assoc.
Qed.

Lemma putbytes_loop_ok fuel bs done out r :
  rec_writes done out r → (length bs + (if decide (out_finger r = out_boundry r) then 1 else 0) < fuel)%nat →
  ∃ r', putbytes_loop fuel bs r = Ok true r' ∧ rec_writes done (out ++ bs) r'.
Proof.
  revert bs out r. induction fuel as [|fuel IH]; intros bs out r Hw Hfuel; [lia|]. cbn [putbytes_loop].
  destruct (Z.eqb_spec (zlen bs) 0) as [Hz|Hz].
  { destruct bs; [|done]. exists r. by rewrite app_nil_r. }
  destruct Hw as (pre & hdr & cur & spare & frs & open & Hl & Hfrs & Hs & Hr & -> & Hflag).
  pose proof Hl as [_ _ _ Hf Hb Hword Hsp [Ha1 Ha2] _]. rewrite bind_gets. cbn [id].
  pose proof (zlen_nonneg spare). pose proof (zlen_nonneg pre). pose proof (zlen_nonneg cur). pose proof (zlen_nonneg bs).
  assert (0 < length bs)%nat as Hpos by (unfold zlen in Hz; lia).
  rewrite u32_small by lia. replace (out_boundry r - out_finger r) with (zlen spare) by lia.
  set (k := if zlen bs <? zlen spare then zlen bs else zlen spare).
  assert (0 ≤ k ≤ zlen spare ∧ k ≤ zlen bs) as [Hk Hk2] by (unfold k; destruct (Z.ltb_spec (zlen bs) (zlen spare)); lia).
  assert (Z.to_nat k + (if decide (out_finger r = out_boundry r) then 1 else 0) ≥ 1)%nat as Hprogress.
  { destruct (decide _); [lia|]. unfold k. destruct (Z.ltb_spec (zlen bs) (zlen spare)); unfold zlen in *; lia. }
  assert (zlen (take (Z.to_nat k) bs) = k) as Hzk by (unfold zlen in *; rewrite length_take; lia).
  destruct (put_data r pre hdr cur spare (take (Z.to_nat k) bs) Hl ltac:(lia)) as (r1 & E & _ & Hl1 & Hs1 & Hb1 & Hf1).
  step_with E. rewrite bind_modify, Hzk in *. set (r2 := set_out_finger (out_finger r + k) r1) in *.
  assert (sent r2 ++ pre = wire frs) as Hs2 by (by rewrite <- Hs, <- Hs1).
  set (cur' := cur ++ take (Z.to_nat k) bs) in *. set (bs' := drop (Z.to_nat k) bs).
  assert ((open ++ cur) ++ bs = (open ++ cur') ++ bs') as ->.
  { unfold cur', bs'. rewrite <- !app_assoc. by rewrite take_drop. }
  assert (length bs' = length bs - Z.to_nat k)%nat as Hlb by apply length_drop.
  destruct (Z.eqb_spec (out_finger r + k) (out_boundry r)) as [Hend|Hend].
  - rewrite bind_modify. set (r3 := set_frag_sent true r2).
    assert (out_layout r3 pre hdr cur' (drop (length (take (Z.to_nat k) bs)) spare)) as Hl3 by (destruct Hl1; by split).
    assert (cur' ≠ []) as Hne.
    { intros Hnil. assert (zlen cur' = 0) as Hc by by rewrite Hnil. unfold cur' in Hc. rewrite zlen_app, Hzk in Hc. lia. }
    destruct (flush_writes r3 pre hdr cur' _ frs open done Hl3 Hfrs Hs2 Hr Hne eq_refl) as (r4 & E4 & Hw4 & Hf4 & Hb4 & H8).
    step_with E4. cbn [negb]. apply (IH bs' _ r4 Hw4).
    change (out_boundry r3) with (out_boundry r1) in H8, Hb4. rewrite decide_False by lia. lia.
  - apply (IH bs' (open ++ cur') r2).
    + exists pre, hdr, cur', (drop (length (take (Z.to_nat k) bs)) spare), frs, open.
      split; [done|]. unfold r2. cbn. by rewrite Hf1.
    + rewrite decide_False by (unfold r2; cbn; lia). lia.
Qed.

Lemma rec_putbytes bs done out r :
  rec_writes done out r → ∃ r', xdrrec_putbytes bs r = Ok true r' ∧ rec_writes done (out ++ bs) r'.
Proof. intros Hw. apply putbytes_loop_ok; [done|]. destruct (decide _); lia. Qed.

(** The end of a record: it is sent, or its last fragment waits in the
    buffer for the next one to follow.  The records are of whole units. *)
Lemma rec_endofrecord now done out r :
  rec_writes done out r → (4 | zlen out) →
  ∃ r', xdrrec_endofrecord now r = Ok true r' ∧ rec_writes (done ++ [out]) [] r' ∧
    (now = true → ∃ frs, Forall fragment_ok frs ∧ sent r' = wire frs ∧ records [] frs = (done ++ [out], [])).
Proof.
  intros (pre & hdr & cur & spare & frs & open & Hl & Hfrs & Hs & Hr & -> & Hflag) Hunit.
  unfold xdrrec_endofrecord, BYTES_PER_XDR_UNIT. rewrite bind_gets. cbn [id].
  destruct (_ || _ || _) eqn:Hnow.
  - rewrite bind_modify. set (r0 := set_frag_sent false r).
    assert (out_layout r0 pre hdr cur spare) as Hl0 by (destruct Hl; by split).
    destruct (flush_ok true r0 pre hdr cur spare frs open done Hl0 Hfrs Hs Hr ltac:(done))
      as (r' & frs' & E & Hfrs' & Hs' & Heq & Hf' & hdr' & spare' & Hl' & Hsp').
    assert (records [] frs' = (done ++ [open ++ cur], [])) as Hr'.
    { rewrite Heq, records_app, Hr. done. }
    exists r'. split; [done|]. split; [|intros _; by exists frs'].
    exists [], hdr', [], spare', frs', []. by rewrite !app_nil_r.
  - apply orb_false_iff in Hnow as [Hnow Hroom]. apply orb_false_iff in Hnow as [-> Hsent].
    rewrite (Hflag Hsent) in *. cbn [app] in Hunit |- *. pose proof Hl as [Hb Hh Hw Hf Hbd Hword Hsp [Ha1 Ha2] Hwr].
    pose proof (zlen_nonneg pre). pose proof (zlen_nonneg cur). apply Z.leb_gt in Hroom.
    rewrite u32_small by lia. rewrite Hh, Hf. replace (zlen pre + 4 + zlen cur - zlen pre - 4) with (zlen cur) by lia.
    change (Z.lor (zlen cur) LAST_FRAG) with (header_of (true, cur)).
    step_with (store_out_ok r pre hdr (cur ++ spare) (zlen pre) (be_bytes (header_of (true, cur))) Hb eq_refl Hw).
    rewrite !bind_modify. eexists. split; [done|]. split; [|done].
    exists (pre ++ fragment_bytes (true, cur)), (take 4 spare), [], (drop 4 spare), (frs ++ [(true, cur)]), [].
    assert (length (take 4 spare) = 4%nat) as H4 by (rewrite length_take; unfold zlen in *; lia).
    assert (zlen (pre ++ fragment_bytes (true, cur)) = zlen pre + 4 + zlen cur) as Hpre.
    { unfold fragment_bytes. rewrite !zlen_app, zlen_be. cbn [snd]. lia. }
    split; [|split; [|split; [|split; [|done]]]].
    + split; cbn -[be_bytes zlen drop take fragment_bytes]; try done.
      * rewrite take_drop. unfold fragment_bytes. by rewrite <- !app_assoc.
      * rewrite Hpre. change (zlen []) with 0. lia.
      * rewrite Hbd, Hf. unfold zlen in *. rewrite length_drop. lia.
      * rewrite Hpre. lia.
      * rewrite Hpre. split; [|done]. destruct Hunit as [u Hu].
        pose proof (Z.div_mod (zlen pre) 4 ltac:(lia)). rewrite Ha1 in *. rewrite Hu.
        replace (zlen pre + 4 + u * 4) with (0 + (zlen pre / 4 + 1 + u) * 4) by lia. by rewrite Z_mod_plus_full.
    + apply Forall_app. split; [done|]. constructor; [|done]. split; cbn; [lia|done].
    + cbn. rewrite app_assoc, Hs, wire_app. unfold wire at 3. cbn [mbind list_bind]. by rewrite app_nil_r.
    + rewrite records_app, Hr. done.
Qed.

(** * Receiving records

    What the input half of a record stream delivers: whatever the pieces in
    which bytes arrive, reading takes what is available, and what is available
    are the data of fragments. *)

(** The buffer holds what its size says and the finger is inside. *)
Record rec_in_ok (r : rec_in) : Prop := RecInOk {
  ri_size : zlen (in_buffer r) = in_size r;
  ri_bounds : 8 ≤ in_size r < 2 ^ 31;
  ri_finger : 0 ≤ in_finger r ≤ in_boundry r;
  ri_boundry : in_boundry r ≤ in_size r;
  ri_fbtbc : 0 ≤ fbtbc r < 2 ^ 31
}.

(** The bytes still to be had: those in the buffer, then those arriving. *)
Definition in_hand (r : rec_in) : list Z := dread (in_buffer r) (in_finger r) (buffered r).
Definition avail (r : rec_in) : list Z := in_hand r ++ concat (arriving r).

(** The fragment at hand is as it was. *)
Definition same_fragment (r r' : rec_in) : Prop := fbtbc r' = fbtbc r ∧ last_frag r' = last_frag r.

Lemma zlen_in_hand r : rec_in_ok r → zlen (in_hand r) = buffered r.
Proof.
  intros [Hs Hb Hf Hbd _]. unfold in_hand, dread, buffered, zlen in *. rewrite length_take, length_drop. lia.
Qed.

(** ** The input buffer *)

Definition set_arriving v r := RecIn (in_buffer r) (in_size r) (in_finger r) (in_boundry r) (fbtbc r) (last_frag r) v.

Lemma readit_ok len r :
  0 < len →
  (arriving r = [] ∧ readit len r = Ok None r) ∨
  ∃ bs pieces, readit len r = Ok (Some bs) (set_arriving pieces r) ∧ concat (arriving r) = bs ++ concat pieces ∧
    zlen bs ≤ len ∧ (to_come (set_arriving pieces r) < to_come r)%nat.
Proof.
  intros Hlen. unfold readit, to_come. destruct (arriving r) as [|piece pieces] eqn:Ea; [by left|right].
  destruct (Z.leb_spec (zlen piece) len).
  - exists piece, pieces. split; [done|]. split; [done|]. split; [done|]. cbn. rewrite length_app. lia.
  - exists (take (Z.to_nat len) piece), (drop (Z.to_nat len) piece :: pieces). split; [done|].
    unfold zlen in *. rewrite length_take. cbn [concat set_arriving arriving length].
    rewrite app_assoc, take_drop, !length_app, length_drop. split; [done|]. lia.
Qed.

(** New bytes in an empty buffer. *)
Lemma store_in_ok i bs r :
  rec_in_ok r → 0 ≤ i → i + zlen bs ≤ in_size r →
  ∃ buffer, put_range i bs (in_buffer r) = Some buffer ∧
    let r' := RecIn buffer (in_size r) i (i + zlen bs) (fbtbc r) (last_frag r) (arriving r) in
    rec_in_ok r' ∧ avail r' = bs ++ concat (arriving r).
Proof.
  intros [Hs Hb Hf Hbd Hfb] Hi Hl. pose proof (zlen_nonneg bs).
  destruct (range_split (in_buffer r) i (zlen bs)) as (xs & old & zs & Hbuf & Hxs & Hold); [lia|lia|lia|].
  exists (xs ++ bs ++ zs). split; [rewrite Hbuf; apply put_range_app; unfold zlen in *; lia|]. split.
  - assert (zlen (xs ++ bs ++ zs) = zlen (in_buffer r)) as Hz by (rewrite Hbuf, !zlen_app; lia).
    split; cbn -[zlen]; rewrite ?Hz; lia.
  - unfold avail, in_hand, dread, buffered. cbn -[zlen]. f_equal.
    replace (i + zlen bs - i) with (zlen bs) by lia. rewrite <- Hxs. unfold zlen. rewrite !Nat2Z.id.
    by rewrite drop_app_length, take_app_length.
Qed.

Lemma avail_empty r : rec_in_ok r → buffered r = 0 → avail r = concat (arriving r).
Proof.
  intros Hok Hempty. unfold avail. pose proof (zlen_in_hand r Hok) as Hz. rewrite Hempty in Hz.
  destruct (in_hand r); [done|]. unfold zlen in Hz. cbn [length] in Hz. lia.
Qed.

Lemma fill_ok r :
  rec_in_ok r → buffered r = 0 →
  (arriving r = [] ∧ fill_input_buf r = Ok false r) ∨
  ∃ r', fill_input_buf r = Ok true r' ∧ rec_in_ok r' ∧ avail r' = avail r ∧ same_fragment r r' ∧
    (to_come r' < to_come r)%nat.
Proof.
  intros Hok Hempty. pose proof Hok as [Hs Hb Hf Hbd Hfb]. unfold fill_input_buf, BYTES_PER_XDR_UNIT. rewrite bind_gets. cbn [id].
  pose proof (Z.mod_pos_bound (in_boundry r) 4 ltac:(lia)) as Hi. set (i := in_boundry r mod 4) in *.
  rewrite i32_small by lia.
  destruct (readit_ok (in_size r - i) r ltac:(lia)) as [[Ha E]|(bs & pieces & E & Hc & Hl & Hless)]; step_with E.
  { by left. }
  right. assert (rec_in_ok (set_arriving pieces r)) as Hok' by by split.
  destruct (store_in_ok i bs _ Hok' ltac:(lia) ltac:(cbn; lia)) as (buffer & Eb & Hr' & Hav). step_with (f_equal (λ o, deref o (set_arriving pieces r)) Eb). rewrite bind_modify.
  eexists. split; [done|]. split; [exact Hr'|]. split; [|done]. rewrite (avail_empty r), Hc by done. exact Hav.
Qed.

(** Bytes taken out of the buffer. *)
Lemma take_ok n r :
  rec_in_ok r → 0 ≤ n ≤ buffered r →
  get_range (in_finger r) n (in_buffer r) = Some (take (Z.to_nat n) (avail r)) ∧
  let r' := set_in_finger (in_finger r + n) r in
  rec_in_ok r' ∧ avail r' = drop (Z.to_nat n) (avail r) ∧ buffered r' = buffered r - n.
Proof.
  intros Hok Hn. pose proof Hok as [Hs Hb Hf Hbd Hfb]. pose proof (zlen_in_hand r Hok) as Hz. unfold buffered in *.
  split; [|split; [|split]].
  - unfold get_range. destruct (Z.leb_spec 0 (in_finger r)); [|lia].
    destruct (Z.leb_spec (in_finger r + n) (zlen (in_buffer r))); [|lia]. cbn [andb]. f_equal.
    unfold avail. rewrite take_app_le by (unfold zlen in Hz; lia). unfold in_hand, dread, buffered.
    rewrite take_take. f_equal. lia.
  - split; cbn; lia.
  - unfold avail. rewrite drop_app_le by (unfold zlen in Hz; lia). f_equal. unfold in_hand, dread, buffered. cbn.
    replace (Z.to_nat (in_finger r + n)) with (Z.to_nat (in_finger r) + Z.to_nat n)%nat by lia.
    rewrite <- drop_drop, skipn_firstn_comm. f_equal. lia.
  - cbn. lia.
Qed.

Lemma take_take_drop' {A} n k (l : list A) : take n l ++ take k (drop n l) = take (n + k) l.
Proof. by rewrite take_take_drop. Qed.

(** ** Whatever the pieces, reading takes what is available *)

Definition rounds (r : rec_in) : nat := 2 * to_come r + (if decide (buffered r = 0) then 0 else 1).

Lemma same_trans r r' r'' : same_fragment r r' → same_fragment r' r'' → same_fragment r r''.
Proof. unfold same_fragment. intros [-> ->]. done. Qed.

Lemma buffered_range r : rec_in_ok r → 0 ≤ buffered r < 2 ^ 31.
Proof. intros [_ Hb Hf Hbd _]. unfold buffered. lia. Qed.

Lemma take_rounds n r :
  0 < n → buffered r ≠ 0 → n = buffered r → (rounds (set_in_finger (in_finger r + n) r) < rounds r)%nat.
Proof.
  intros Hn Hne ->. unfold rounds, buffered, to_come in *. cbn. rewrite decide_True, decide_False by lia. lia.
Qed.

Lemma fill_rounds r r' : buffered r = 0 → (to_come r' < to_come r)%nat → (rounds r' < rounds r)%nat.
Proof. intros Hb Ht. unfold rounds. rewrite (decide_True (P:=buffered r = 0)) by done. destruct (decide _); lia. Qed.

Lemma get_loop_ok fuel len r :
  rec_in_ok r → 0 ≤ len → (rounds r < fuel)%nat →
  ∃ r', get_loop fuel len r = Ok (bool_decide (len ≤ zlen (avail r)), take (Z.to_nat len) (avail r)) r' ∧
    rec_in_ok r' ∧ avail r' = drop (Z.to_nat len) (avail r) ∧ same_fragment r r'.
Proof.
  revert len r. induction fuel as [|fuel IH]; intros len r Hok Hlen Hfuel; [lia|]. cbn [get_loop].
  pose proof (zlen_nonneg (avail r)) as Hz. pose proof (buffered_range r Hok) as Hbuf.
  destruct (Z.leb_spec len 0).
  { assert (len = 0) as -> by lia. exists r. rewrite bool_decide_eq_true_2 by lia. done. }
  rewrite bind_gets. cbn [id]. change (in_boundry r - in_finger r) with (buffered r). rewrite i32_small by lia.
  destruct (Z.eqb_spec (buffered r) 0) as [Hempty|Hne].
  - destruct (fill_ok r Hok Hempty) as [[Ha E]|(r1 & E & Hok1 & Hav & Hsame & Hless)]; step_with E; cbn [negb].
    + exists r. rewrite avail_empty, Ha by done. cbn [concat]. rewrite take_nil, drop_nil. change (zlen []) with 0.
      by rewrite bool_decide_eq_false_2 by lia.
    + destruct (IH len r1 Hok1 Hlen) as (r2 & E2 & Hok2 & Hav2 & Hsame2); [pose proof (fill_rounds r r1 Hempty Hless); lia|].
      rewrite Hav in E2, Hav2. exists r2. split_and!; [done..|by eapply same_trans].
  - set (n := if len <? buffered r then len else buffered r).
    assert (0 < n ≤ buffered r ∧ n ≤ len) as [Hn Hnl] by (unfold n; destruct (Z.ltb_spec len (buffered r)); lia).
    destruct (take_ok n r Hok ltac:(lia)) as (Eg & Hok1 & Hav & Hb1). rewrite Eg, bind_deref, bind_modify.
    set (r1 := set_in_finger (in_finger r + n) r) in *.
    assert (buffered r ≤ zlen (avail r)) as Hge.
    { unfold avail. rewrite zlen_app, zlen_in_hand by done. pose proof (zlen_nonneg (concat (arriving r))). lia. }
    assert (zlen (avail r1) = zlen (avail r) - n) as Hz1 by (rewrite Hav; unfold zlen in *; rewrite length_drop; lia).
    destruct (decide (n = len)) as [->|Hmore].
    { rewrite Z.sub_diag. exists r1. rewrite bool_decide_eq_true_2 by lia. split; [|done].
      destruct fuel; cbn [get_loop]; change (0 <=? 0) with true; cbv iota; rewrite bind_ret; cbn [fst snd]; by rewrite app_nil_r. }
    assert (n = buffered r) as Hnb by (unfold n in *; destruct (Z.ltb_spec len (buffered r)); [done|done]).
    destruct (IH (len - n) r1 Hok1 ltac:(lia)) as (r2 & E2 & Hok2 & Hav2 & Hsame2).
    { pose proof (take_rounds n r ltac:(lia) Hne Hnb). unfold r1. lia. }
    step_with E2. exists r2. cbn [fst snd]. split; [|split; [done|split; [|done]]].
    + rewrite Hz1, Hav. rewrite (bool_decide_ext (len - n ≤ zlen (avail r) - n) (len ≤ zlen (avail r))) by lia.
      by rewrite take_take_drop', <- Z2Nat.inj_add, Zplus_minus by lia.
    + rewrite Hav2, Hav, drop_drop. f_equal. lia.
Qed.

Lemma rounds_fuel r : (rounds r < 2 * to_come r + 2)%nat.
Proof. unfold rounds. destruct (decide _); lia. Qed.

Lemma get_input_ok len r :
  rec_in_ok r → 0 ≤ len < 2 ^ 31 →
  ∃ r', get_input_bytes len r = Ok (bool_decide (len ≤ zlen (avail r)), take (Z.to_nat len) (avail r)) r' ∧
    rec_in_ok r' ∧ avail r' = drop (Z.to_nat len) (avail r) ∧ same_fragment r r'.
Proof.
  intros Hok Hlen. unfold get_input_bytes. rewrite bind_gets. cbn [id]. rewrite i32_small by lia.
  apply get_loop_ok; [done|lia|apply rounds_fuel].
Qed.

Lemma skip_loop_ok fuel cnt r :
  rec_in_ok r → 0 ≤ cnt → (rounds r < fuel)%nat →
  ∃ r', skip_loop fuel cnt r = Ok (bool_decide (cnt ≤ zlen (avail r))) r' ∧
    rec_in_ok r' ∧ avail r' = drop (Z.to_nat cnt) (avail r) ∧ same_fragment r r'.
Proof.
  revert cnt r. induction fuel as [|fuel IH]; intros cnt r Hok Hcnt Hfuel; [lia|]. cbn [skip_loop].
  pose proof (zlen_nonneg (avail r)) as Hz. pose proof (buffered_range r Hok) as Hbuf.
  destruct (Z.leb_spec cnt 0).
  { assert (cnt = 0) as -> by lia. exists r. rewrite bool_decide_eq_true_2 by lia. done. }
  rewrite bind_gets. cbn [id]. change (in_boundry r - in_finger r) with (buffered r). rewrite i32_small by lia.
  destruct (Z.eqb_spec (buffered r) 0) as [Hempty|Hne].
  - destruct (fill_ok r Hok Hempty) as [[Ha E]|(r1 & E & Hok1 & Hav & Hsame & Hless)]; step_with E; cbn [negb].
    + exists r. rewrite avail_empty, Ha by done. cbn [concat]. rewrite drop_nil. change (zlen []) with 0.
      by rewrite bool_decide_eq_false_2 by lia.
    + destruct (IH cnt r1 Hok1 Hcnt) as (r2 & E2 & Hok2 & Hav2 & Hsame2); [pose proof (fill_rounds r r1 Hempty Hless); lia|].
      rewrite Hav in E2, Hav2. exists r2. split_and!; [done..|by eapply same_trans].
  - set (n := if cnt <? buffered r then cnt else buffered r).
    assert (0 < n ≤ buffered r ∧ n ≤ cnt) as [Hn Hnl] by (unfold n; destruct (Z.ltb_spec cnt (buffered r)); lia).
    destruct (take_ok n r Hok ltac:(lia)) as (_ & Hok1 & Hav & Hb1). rewrite bind_modify.
    set (r1 := set_in_finger (in_finger r + n) r) in *.
    assert (buffered r ≤ zlen (avail r)) as Hge.
    { unfold avail. rewrite zlen_app, zlen_in_hand by done. pose proof (zlen_nonneg (concat (arriving r))). lia. }
    assert (zlen (avail r1) = zlen (avail r) - n) as Hz1 by (rewrite Hav; unfold zlen in *; rewrite length_drop; lia).
    destruct (decide (n = cnt)) as [->|Hmore].
    { rewrite Z.sub_diag. exists r1. rewrite bool_decide_eq_true_2 by lia. split; [by destruct fuel|done]. }
    assert (n = buffered r) as Hnb by (unfold n in *; destruct (Z.ltb_spec cnt (buffered r)); done).
    destruct (IH (cnt - n) r1 Hok1 ltac:(lia)) as (r2 & E2 & Hok2 & Hav2 & Hsame2).
    { pose proof (take_rounds n r ltac:(lia) Hne Hnb). unfold r1. lia. }
    exists r2. rewrite E2, Hz1. split; [|split; [done|split; [|done]]].
    + by rewrite (bool_decide_ext (cnt - n ≤ zlen (avail r) - n) (cnt ≤ zlen (avail r))) by lia.
    + rewrite Hav2, Hav, drop_drop. f_equal. lia.
Qed.

(** ** Headers *)

Lemma header_ok r :
  rec_in_ok r →
  (zlen (avail r) < 4 ∧ ∃ r', set_input_fragment r = Ok false r' ∧ rec_in_ok r' ∧ avail r' = []) ∨
  ∃ h b r', 4 ≤ zlen (avail r) ∧ h = u32 (be_value (take 4 (avail r))) ∧ set_input_fragment r = Ok b r' ∧ rec_in_ok r' ∧
    avail r' = drop 4 (avail r) ∧ b = negb (h =? 0) ∧ last_frag r' = negb (Z.land h LAST_FRAG =? 0) ∧
    (b = true → fbtbc r' = Z.land h (LAST_FRAG - 1)).
Proof.
  intros Hok. unfold set_input_fragment. destruct (get_input_ok 4 r Hok ltac:(lia)) as (r1 & E & Hok1 & Hav & _).
  step_with E. cbn [fst snd]. destruct (bool_decide_reflect (4 ≤ zlen (avail r))) as [Hle|Hlt]; cbn [negb].
  - right. set (h := u32 (be_value (take (Z.to_nat 4) (avail r)))). rewrite bind_modify.
    destruct (Z.eqb_spec h 0) as [Hz|Hz].
    + exists h, false. eexists. split; [lia|]. split; [done|]. split; [done|]. split; [by destruct Hok1|].
      split; [exact Hav|]. rewrite Hz. done.
    + exists h, true. eexists. rewrite bind_modify. split; [lia|]. split; [done|]. split; [done|].
      split; [|split; [exact Hav|split; [by destruct (Z.eqb_spec h 0)|done]]].
      destruct Hok1 as [? ? ? ? ?]. split; cbn; try done. change (LAST_FRAG - 1) with (Z.ones 31).
      rewrite Z.land_ones by lia. apply Z.mod_pos_bound. lia.
  - left. split; [lia|]. exists r1. split; [done|]. split; [done|]. rewrite Hav. apply drop_ge. unfold zlen in Hlt. lia.
Qed.

(** ** Records *)

(** [rec] is what is left of the record at hand and [later] the complete
    records behind it, whatever follows. *)
Definition pending (rec : list Z) (later : list (list Z)) (r : rec_in) : Prop :=
  rec_in_ok r ∧ ∃ d frs o extra, avail r = d ++ wire frs ++ extra ∧ zlen d = fbtbc r ∧ Forall fragment_ok frs ∧
    records [] ((last_frag r, d) :: frs) = (rec :: later, o).

Lemma records_head n l d frs rec later o :
  (n ≤ length d)%nat → records [] ((l, d) :: frs) = (rec :: later, o) →
  records [] ((l, drop n d) :: frs) = (drop n rec :: later, o) ∧ take n d = take n rec ∧ (length d ≤ length rec)%nat.
Proof.
  intros Hn. destruct l; cbn [records app]; [|by apply records_drop].
  destruct (records [] frs) as [rs o']. intros [= -> -> ->]. done.
Qed.

(** The next fragment of a record whose fragment at hand is used up. *)
Lemma next_fragment rec later r :
  pending rec later r → fbtbc r = 0 → last_frag r = false →
  ∃ r', set_input_fragment r = Ok true r' ∧ pending rec later r' ∧ (length (avail r') + 4 = length (avail r))%nat.
Proof.
  intros (Hok & d & frs & o & extra & Hav & Hd & Hfrs & Hrec) Hz Hlast. rewrite Hz in Hd.
  destruct d; [|unfold zlen in Hd; cbn [length] in Hd; lia]. rewrite Hlast in Hrec. cbn [records app] in Hrec, Hav.
  destruct frs as [|f frs]; [done|]. apply Forall_cons in Hfrs as [Hf Hfrs].
  assert (avail r = be_bytes (header_of f) ++ f.2 ++ wire frs ++ extra) as Hav'.
  { rewrite Hav. unfold wire. cbn [mbind list_bind]. unfold fragment_bytes. by rewrite <- !app_assoc. }
  destruct (header_read f Hf) as (Hr & Hl & Hlen & Hne).
  destruct (header_ok r Hok) as [[Hlt _]|(h & b & r' & _ & Hh & E & Hok' & Hav2 & Hb & Hl' & Hfb)].
  { rewrite Hav', zlen_app, zlen_be in Hlt. pose proof (zlen_nonneg (f.2 ++ wire frs ++ extra)). lia. }
  assert (h = header_of f) as ->.
  { rewrite Hh, Hav'. change 4%nat with (length (be_bytes (header_of f))). rewrite take_app_length, be_value_bytes.
    change (header_of f mod 2 ^ 32) with (u32 (header_of f)). by rewrite !u32_small by (rewrite ?u32_small; lia). }
  destruct (Z.eqb_spec (header_of f) 0); [done|]. subst b. exists r'. split; [done|].
  assert (avail r' = f.2 ++ wire frs ++ extra) as Hav3.
  { rewrite Hav2, Hav'. change 4%nat with (length (be_bytes (header_of f))). apply drop_app_length. }
  split; [|rewrite Hav3, Hav', (length_app (be_bytes _)), length_be_bytes; lia].
  split; [done|]. exists f.2, frs, o, extra. split; [done|]. rewrite Hfb, Hlen by done. split; [done|]. split; [done|].
  rewrite Hl', Hl. by destruct f.
Qed.

(** Bytes of the fragment at hand. *)
Lemma take_fragment n rec later r :
  pending rec later r → 0 ≤ n ≤ fbtbc r →
  ∃ r', get_input_bytes n r = Ok (true, take (Z.to_nat n) rec) r' ∧
    pending (drop (Z.to_nat n) rec) later (set_fbtbc (fbtbc r' - n) r') ∧
    (length (avail r') + Z.to_nat n = length (avail r))%nat ∧ n ≤ zlen rec ∧ fbtbc r' = fbtbc r.
Proof.
  intros (Hok & d & frs & o & extra & Hav & Hd & Hfrs & Hrec) Hn. pose proof Hok as [_ _ _ _ Hfb].
  destruct (get_input_ok n r Hok ltac:(lia)) as (r' & E & Hok' & Hav' & [Hsf Hsl]).
  assert (Z.to_nat n ≤ length d)%nat as Hnd by (unfold zlen in Hd; lia).
  destruct (records_head (Z.to_nat n) _ d frs rec later o Hnd Hrec) as (Hrec' & Htake & Hlen).
  exists r'. rewrite bool_decide_eq_true_2 in E by (rewrite Hav, zlen_app; pose proof (zlen_nonneg (wire frs ++ extra)); lia).
  rewrite Hav, take_app_le, Htake in E by done. split; [done|]. split; [|split; [|unfold zlen in *; split; [lia|done]]].
  - split; [destruct Hok'; split; cbn; lia|]. exists (drop (Z.to_nat n) d), frs, o, extra.
    change (avail (set_fbtbc (fbtbc r' - n) r')) with (avail r'). rewrite Hav', Hav, drop_app_le by done.
    split; [done|]. cbn. rewrite Hsl. split; [|done]. unfold zlen in *. rewrite length_drop. lia.
  - rewrite Hav', length_drop. enough (Z.to_nat n ≤ length (avail r))%nat by lia. rewrite Hav, length_app. lia.
Qed.

Definition work (r : rec_in) : nat := 2 * length (avail r) + (if decide (fbtbc r = 0) then 0 else 1).

Lemma getbytes_loop_pending fuel len rec later r :
  pending rec later r → 0 ≤ len ≤ zlen rec → (work r < fuel)%nat →
  ∃ r', getbytes_loop fuel len r = Ok (true, take (Z.to_nat len) rec) r' ∧ pending (drop (Z.to_nat len) rec) later r'.
Proof.
  revert len rec r. induction fuel as [|fuel IH]; intros len rec r Hp Hlen Hfuel; [lia|]. cbn [getbytes_loop].
  destruct (Z.eqb_spec len 0) as [->|Hne]; [by exists r|]. rewrite bind_gets. cbn [id].
  pose proof Hp as ([_ _ _ _ Hfb] & d & frs & o & extra & Hav & Hd & Hfrs & Hrec). rewrite u32_small by lia.
  destruct (Z.eqb_spec (fbtbc r) 0) as [Hz|Hz].
  - destruct (last_frag r) eqn:Hlast.
    { cbn [records app] in Hrec. destruct (records [] frs). injection Hrec as -> _ _. lia. }
    destruct (next_fragment rec later r Hp Hz Hlast) as (r1 & E & Hp1 & Hless). step_with E. cbn [negb].
    apply (IH len rec r1 Hp1 Hlen). unfold work in *. destruct (decide (fbtbc r1 = 0)), (decide (fbtbc r = 0)); lia.
  - set (n := if len <? fbtbc r then len else fbtbc r).
    assert (0 < n ≤ fbtbc r ∧ n ≤ len) as [Hn Hnl] by (unfold n; destruct (Z.ltb_spec len (fbtbc r)); lia).
    destruct (take_fragment n rec later r Hp ltac:(lia)) as (r1 & E & Hp1 & Hless & Hnr & Hsf). step_with E. cbn [fst snd negb].
    rewrite bind_modify. set (r2 := set_fbtbc (fbtbc r1 - n) r1) in *.
    destruct (IH (len - n) (drop (Z.to_nat n) rec) r2 Hp1) as (r3 & E3 & Hp3).
    { unfold zlen in *. rewrite length_drop. lia. }
    { unfold work in *. change (avail r2) with (avail r1). rewrite (decide_False (P:=fbtbc r = 0)) in Hfuel by done.
      destruct (decide (fbtbc r2 = 0)); lia. }
    step_with E3. cbn [fst snd]. exists r3. rewrite take_take_drop'. rewrite drop_drop in Hp3.
    by replace (Z.to_nat n + Z.to_nat (len - n))%nat with (Z.to_nat len) in * by lia.
Qed.

Lemma work_fuel r : rec_in_ok r → (work r < 2 * (to_come r + Z.to_nat (buffered r)) + 3)%nat.
Proof.
  intros Hok. pose proof (zlen_in_hand r Hok) as Hz. unfold work, to_come, avail. rewrite length_app. unfold zlen in Hz.
  destruct (decide _); lia.
Qed.

Lemma rec_getbytes len rec later r :
  pending rec later r → 0 ≤ len ≤ zlen rec →
  ∃ r', xdrrec_getbytes len r = Ok (true, take (Z.to_nat len) rec) r' ∧ pending (drop (Z.to_nat len) rec) later r'.
Proof.
  intros Hp Hlen. unfold xdrrec_getbytes. rewrite bind_gets. cbn [id].
  apply getbytes_loop_pending; [done..|]. apply work_fuel, Hp.
Qed.

Lemma rec_getlong rec later r :
  pending rec later r → 4 ≤ zlen rec →
  ∃ r', xdrrec_getlong r = Ok (Some (i32 (be_value (take 4 rec)))) r' ∧ pending (drop 4 rec) later r'.
Proof.
  intros Hp Hlen. unfold xdrrec_getlong, BYTES_PER_XDR_UNIT. rewrite bind_gets. cbn [id].
  destruct ((4 <=? fbtbc r) && (4 <=? in_boundry r - in_finger r)) eqn:Hfast.
  - apply andb_true_iff in Hfast as [Hf Hb]. apply Z.leb_le in Hf, Hb.
    pose proof Hp as (Hok & d & frs & o & extra & Hav & Hd & Hfrs & Hrec).
    destruct (take_ok 4 r Hok ltac:(unfold buffered; lia)) as (Eg & Hok1 & Hav1 & _).
    assert (4 ≤ length d)%nat as Hnd by (unfold zlen in Hd; lia).
    destruct (records_head 4 _ d frs rec later o Hnd Hrec) as (Hrec' & Htake & _).
    rewrite Eg, bind_deref, !bind_modify. change (Z.to_nat 4) with 4%nat in *. rewrite Hav, take_app_le, Htake by done.
    eexists. split; [done|]. cbn. split.
    + pose proof Hok as [? ? ? ? ?]. split; cbn; lia.
    + exists (drop 4 d), frs, o, extra. split; [|split; [|done]].
      * rewrite <- drop_app_le by done. rewrite <- Hav. exact Hav1.
      * cbn. unfold zlen in *. rewrite length_drop. lia.
  - destruct (rec_getbytes 4 rec later r Hp ltac:(lia)) as (r' & E & Hp'). step_with E. by exists r'.
Qed.

(** ** The next record *)

(** A round more unless the record is over. *)
Definition more_rounds (r : rec_in) : nat :=
  if last_frag r then if decide (fbtbc r = 0) then 0 else 1 else 1.

Lemma skip_fragments_ok fuel rec later r :
  pending rec later r → (length (avail r) + more_rounds r < fuel)%nat →
  ∃ r', skip_fragments fuel r = Ok true r' ∧ pending [] later r' ∧ fbtbc r' = 0 ∧ last_frag r' = true.
Proof.
  revert rec r. induction fuel as [|fuel IH]; intros rec r Hp Hfuel; [lia|]. cbn [skip_fragments]. rewrite bind_gets. cbn [id].
  pose proof Hp as (Hok & d & frs & o & extra & Hav & Hd & Hfrs & Hrec). pose proof Hok as [_ _ _ _ Hfb].
  destruct ((0 <? fbtbc r) || negb (last_frag r)) eqn:Hmore; cbn [negb]; cycle 1.
  { apply orb_false_iff in Hmore as [Hz Hl]. apply Z.ltb_ge in Hz. apply negb_false_iff in Hl.
    assert (fbtbc r = 0) as Hf0 by lia. exists r. split; [done|]. split; [|done]. rewrite Hl in Hrec. cbn [records app] in Hrec.
    destruct d; [|unfold zlen in Hd; cbn [length] in Hd; lia]. split; [done|]. exists [], frs, o, extra. rewrite Hl.
    cbn [records app]. destruct (records [] frs). by injection Hrec as _ -> ->. }
  unfold skip_input_bytes. rewrite bind_assoc, bind_gets. cbn [id].
  destruct (skip_loop_ok _ (fbtbc r) r Hok ltac:(lia) (rounds_fuel r)) as (r1 & E & Hok1 & Hav1 & Hs1 & Hs2). step_with E.
  rewrite bool_decide_eq_true_2 by (rewrite Hav, zlen_app; pose proof (zlen_nonneg (wire frs ++ extra)); lia). cbn [negb].
  rewrite bind_modify, bind_gets. cbn [id]. set (r2 := set_fbtbc 0 r1).
  assert (length (avail r) = length (avail r2) + Z.to_nat (fbtbc r))%nat as Hless.
  { change (avail r2) with (avail r1). rewrite Hav1, Hav, length_drop, length_app. unfold zlen in Hd. lia. }
  destruct (records_head (length d) _ d frs rec later o ltac:(lia) Hrec) as (Hrec' & _ & _). rewrite drop_all in Hrec'.
  assert (pending (drop (length d) rec) later r2) as Hp2.
  { split; [destruct Hok1; split; cbn; lia|]. exists [], frs, o, extra. split; [|split; [done|split; [done|]]].
    - change (avail r2) with (avail r1). rewrite Hav1, Hav, <- Hd. unfold zlen. rewrite Nat2Z.id. apply drop_app_length.
    - cbn [last_frag r2 set_fbtbc]. by rewrite Hs2. }
  change (last_frag r2) with (last_frag r1). rewrite Hs2. destruct (last_frag r) eqn:Hlast.
  - apply (IH _ r2 Hp2). unfold more_rounds in *. change (last_frag r2) with (last_frag r1). rewrite Hs2.
    rewrite Hlast in Hfuel. change (fbtbc r2) with 0. rewrite (decide_True (P:=0 = 0)) by done. apply orb_true_iff in Hmore as [Hz%Z.ltb_lt|]; [lia|done].
  - destruct (next_fragment _ later r2 Hp2 eq_refl Hs2) as (r3 & E3 & Hp3 & Hless3). step_with E3. cbn [negb].
    apply (IH _ r3 Hp3). unfold more_rounds in *. rewrite Hlast in Hfuel.
    destruct (last_frag r3), (decide (fbtbc r3 = 0)); lia.
Qed.

Lemma rec_skiprecord rec next later r :
  pending rec (next :: later) r →
  ∃ r', xdrrec_skiprecord r = Ok true r' ∧ pending next later r'.
Proof.
  intros Hp. unfold xdrrec_skiprecord. rewrite bind_gets. cbn [id].
  destruct (skip_fragments_ok (fragments_fuel r) rec _ r Hp) as (r1 & E & Hp1 & Hz & Hl).
  { pose proof (work_fuel r (proj1 Hp)). pose proof (zlen_in_hand r (proj1 Hp)) as Hh.
    unfold fragments_fuel, more_rounds, to_come, avail. rewrite length_app. unfold zlen in Hh. repeat case_match; lia. }
  step_with E. cbn [negb]. rewrite bind_modify. eexists. split; [done|].
  destruct Hp1 as (Hok1 & d & frs & o & extra & Hav & Hd & Hfrs & Hrec). rewrite Hl in Hrec. rewrite Hz in Hd.
  destruct d; [|unfold zlen in Hd; cbn [length] in Hd; lia]. split; [by destruct Hok1|]. exists [], frs, o, extra.
  split; [done|]. split; [done|]. split; [done|]. cbn [records app last_frag set_last_frag] in Hrec |- *.
  destruct (records [] frs). by injection Hrec as -> ->.
Qed.

(** * The record stream as a stream

    Both halves together keep the contract [XdrStream]: for any records sent
    before and any to come, and on arbitrary input no operation leaves the
    buffers.  A new stream has sent nothing and is before the first record. *)

(** ** Arbitrary input *)

Lemma set_fbtbc_ok v r : rec_in_ok r → 0 ≤ v < 2 ^ 31 → rec_in_ok (set_fbtbc v r).
Proof. intros [] Hv. by split. Qed.

Lemma getbytes_loop_safe fuel len r :
  rec_in_ok r → 0 ≤ len < 2 ^ 31 → (work r < fuel)%nat →
  ∃ b bs r', getbytes_loop fuel len r = Ok (b, bs) r' ∧ rec_in_ok r' ∧ zlen bs ≤ len ∧ (b = true → zlen bs = len).
Proof.
  revert len r. induction fuel as [|fuel IH]; intros len r Hok Hlen Hfuel; [lia|]. cbn [getbytes_loop].
  destruct (Z.eqb_spec len 0) as [->|Hne]; [by exists true, [], r|]. rewrite bind_gets. cbn [id].
  pose proof Hok as [_ _ _ _ Hfb]. rewrite u32_small by lia. destruct (Z.eqb_spec (fbtbc r) 0) as [Hz|Hz].
  - destruct (last_frag r); [exists false, [], r; split_and!; [done..|unfold zlen; cbn; lia|done]|].
    destruct (header_ok r Hok) as [(_ & r1 & E & Hok1 & _)|(h & b & r1 & Hge & _ & E & Hok1 & Hav & Hb & _)]; step_with E.
    { exists false, [], r1. split_and!; [done..|unfold zlen; cbn; lia|done]. }
    destruct b; cbn [negb]; [|exists false, [], r1; split_and!; [done..|unfold zlen; cbn; lia|done]].
    apply (IH len r1 Hok1 Hlen). unfold work in *. rewrite Hav, length_drop. unfold zlen in Hge.
    destruct (decide (fbtbc r1 = 0)), (decide (fbtbc r = 0)); lia.
  - set (n := if len <? fbtbc r then len else fbtbc r).
    assert (0 < n ≤ fbtbc r ∧ n ≤ len) as [Hn Hnl] by (unfold n; destruct (Z.ltb_spec len (fbtbc r)); lia).
    destruct (get_input_ok n r Hok ltac:(lia)) as (r1 & E & Hok1 & Hav & [Hsf _]). step_with E. cbn [fst snd].
    assert (zlen (take (Z.to_nat n) (avail r)) ≤ n) as Htn by (unfold zlen; rewrite length_take; lia).
    destruct (bool_decide_reflect (n ≤ zlen (avail r))) as [Hle|Hgt]; cbn [negb].
    2:{ eexists false, _, r1. split; [done|]. split; [done|]. split; [lia|done]. }
    rewrite bind_modify. assert (rec_in_ok (set_fbtbc (fbtbc r1 - n) r1)) as Hok2 by (apply set_fbtbc_ok; [done|lia]).
    destruct (IH (len - n) _ Hok2 ltac:(lia)) as (b & bs & r3 & E3 & Hok3 & Hl & Hb).
    { unfold work in *. change (avail (set_fbtbc _ r1)) with (avail r1). rewrite Hav, length_drop.
      rewrite (decide_False (P:=fbtbc r = 0)) in Hfuel by done. unfold zlen in Hle. destruct (decide _); lia. }
    step_with E3. cbn [fst snd]. eexists b, _, r3. split; [done|]. split; [done|]. rewrite zlen_app. split; [lia|].
    intros Ht. specialize (Hb Ht). unfold zlen in *. rewrite length_take. lia.
Qed.

Lemma rec_getbytes_safe len r :
  rec_in_ok r → 0 ≤ len < 2 ^ 31 →
  ∃ b bs r', xdrrec_getbytes len r = Ok (b, bs) r' ∧ rec_in_ok r' ∧ zlen bs ≤ len ∧ (b = true → zlen bs = len).
Proof.
  intros Hok Hlen. unfold xdrrec_getbytes. rewrite bind_gets. cbn [id].
  apply getbytes_loop_safe; [done..|]. by apply work_fuel.
Qed.

Lemma rec_getlong_safe r :
  rec_in_ok r → ∃ v r', xdrrec_getlong r = Ok v r' ∧ rec_in_ok r' ∧ ∀ l, v = Some l → - 2 ^ 31 ≤ l < 2 ^ 31.
Proof.
  intros Hok. unfold xdrrec_getlong, BYTES_PER_XDR_UNIT. rewrite bind_gets. cbn [id].
  destruct ((4 <=? fbtbc r) && (4 <=? in_boundry r - in_finger r)) eqn:Hfast.
  - apply andb_true_iff in Hfast as [Hf Hb]. apply Z.leb_le in Hf, Hb. pose proof Hok as [_ _ _ _ Hfb].
    destruct (take_ok 4 r Hok ltac:(unfold buffered; lia)) as (Eg & Hok1 & _). rewrite Eg, bind_deref, !bind_modify.
    eexists _, _. split; [done|]. split; [by apply (set_fbtbc_ok (fbtbc r - 4)) in Hok1; [|cbn; lia]|].
    intros l [= <-]. apply i32_range.
  - destruct (rec_getbytes_safe 4 r Hok ltac:(lia)) as (b & bs & r1 & E & Hok1 & _). step_with E.
    eexists _, r1. split; [done|]. split; [done|]. destruct b; cbn [fst snd negb]; [|done]. intros l [= <-]. apply i32_range.
Qed.

(** ** The instance *)

Section stream.
Context (done later : list (list Z)).

Definition recstream_reads (bs : list Z) (r : recstream) : Prop := ∃ rest, pending (bs ++ rest) later (r_in r).
Definition recstream_writes (out : list Z) (n : nat) (r : recstream) : Prop := rec_writes done out (r_out r).
Definition recstream_ok (r : recstream) : Prop := rec_in_ok (r_in r).

Lemma on_in_ok {A} (c : M rec_in A) a i (r : recstream) :
  c (r_in r) = Ok a i → on_in c r = Ok a (RecStream (r_out r) i (sendsize r) (recvsize r)).
Proof. intros E. unfold on_in. by rewrite E. Qed.

Lemma on_out_ok {A} (c : M rec_out A) a o (r : recstream) :
  c (r_out r) = Ok a o → on_out c r = Ok a (RecStream o (r_in r) (sendsize r) (recvsize r)).
Proof. intros E. unfold on_out. by rewrite E. Qed.

#[export] Program Instance recstream_stream : XdrStream recstream := {
  reads := recstream_reads;
  writes := recstream_writes;
  stream_ok := recstream_ok
}.
Next Obligation.
  intros l bs r [rest Hp]. rewrite <- app_assoc in Hp. destruct (rec_getlong _ _ _ Hp) as (i & E & Hp').
  { rewrite zlen_app, zlen_be. pose proof (zlen_nonneg (bs ++ rest)). lia. }
  change 4%nat with (length (be_bytes l)) in E, Hp'. rewrite drop_app_length in Hp'.
  rewrite take_app_length, be_value_bytes in E. change (l mod 2 ^ 32) with (u32 l) in E. rewrite i32_u32 in E.
  eexists. split; [exact (on_in_ok _ _ _ _ E)|]. by exists rest.
Qed.
Next Obligation.
  intros xs bs r _ [rest Hp]. rewrite <- app_assoc in Hp. destruct (rec_getbytes (zlen xs) _ _ _ Hp) as (i & E & Hp').
  { rewrite zlen_app. pose proof (zlen_nonneg (bs ++ rest)). unfold zlen in *. lia. }
  unfold zlen in E, Hp' at 1. rewrite Nat2Z.id in E. rewrite take_app_length in E.
  unfold zlen in Hp'. rewrite Nat2Z.id, drop_app_length in Hp'.
  eexists. split; [exact (on_in_ok _ _ _ _ E)|]. by exists rest.
Qed.
Next Obligation.
  intros l out n r Hw. destruct (rec_putlong l done out _ Hw) as (o & E & Hw').
  eexists. split; [exact (on_out_ok _ _ _ _ E)|done].
Qed.
Next Obligation.
  intros xs out n r _ Hw. destruct (rec_putbytes xs done out _ Hw) as (o & E & Hw').
  eexists. split; [exact (on_out_ok _ _ _ _ E)|done].
Qed.
Next Obligation.
  intros r Hr. destruct (rec_getlong_safe _ Hr) as (v & i & E & Hok & Hv).
  eexists v, _. split; [exact (on_in_ok _ _ _ _ E)|done].
Qed.
Next Obligation.
  intros n r Hr Hn. destruct (rec_getbytes_safe n _ Hr Hn) as (b & bs & i & E & Hok & Hb).
  eexists b, bs, _. split; [exact (on_in_ok _ _ _ _ E)|done].
Qed.
End stream.

(** ** A new stream *)

Lemma fix_buf_size_ok s : 0 ≤ s < 2 ^ 30 → 100 ≤ fix_buf_size s < 2 ^ 31 ∧ fix_buf_size s mod 4 = 0.
Proof.
  intros Hs. unfold fix_buf_size, BYTES_PER_XDR_UNIT. set (t := if s <? 100 then 4000 else s).
  assert (100 ≤ t < 2 ^ 30) as Ht by (unfold t; destruct (Z.ltb_spec s 100); lia).
  rewrite (u32_small (t + 4 - 1)) by lia. pose proof (Z.div_mod (t + 4 - 1) 4 ltac:(lia)).
  pose proof (Z.mod_pos_bound (t + 4 - 1) 4 ltac:(lia)). rewrite u32_small by lia.
  split; [lia|]. by rewrite Z_mod_mult.
Qed.

Lemma create_writes send recv junk pieces :
  0 ≤ send < 2 ^ 30 → zlen junk.1 = fix_buf_size send →
  rec_writes [] [] (r_out (xdrrec_create send recv junk pieces)).
Proof.
  intros Hs Hj. destruct (fix_buf_size_ok send Hs) as [Hr Ha].
  exists [], (take 4 junk.1), [], (drop 4 junk.1), [], []. split; [|done].
  unfold zlen in Hj.
  split; cbn -[zlen drop take]; [by rewrite take_drop|done|rewrite length_take; lia|done| |lia| |by split|done].
  - unfold zlen. rewrite length_drop. lia.
  - change (zlen []) with 0. lia.
Qed.

Lemma create_reads send recv junk pieces frs rs o :
  0 ≤ recv < 2 ^ 30 → zlen junk.2 = fix_buf_size recv → concat pieces = wire frs → Forall fragment_ok frs →
  records [] frs = (rs, o) → pending [] rs (r_in (xdrrec_create send recv junk pieces)).
Proof.
  intros Hs Hj Hp Hfrs Hr. destruct (fix_buf_size_ok recv Hs) as [Hrange _]. split.
  - split; cbn; lia.
  - exists [], frs, o, []. unfold avail, in_hand, buffered, dread. cbn. rewrite Hr, Z.sub_diag. cbn.
    by rewrite app_nil_r.
Qed.

Lemma create_ok send recv junk pieces :
  0 ≤ recv < 2 ^ 30 → zlen junk.2 = fix_buf_size recv →
  rec_in_ok (r_in (xdrrec_create send recv junk pieces)).
Proof. intros Hs Hj. destruct (fix_buf_size_ok recv Hs) as [Hrange _]. split; cbn; lia. Qed.
