(* ===== verification/XdrSpec.v ===== *)
(** * What the XDR library promises

    Properties of the filters of any well formed type on the two streams of the
    library, and the library's slips. *)
From S2P Require Import Prelude Posix CMemory Xdr XdrMemory XdrCodec XdrScalars XdrStrings XdrAggregates.
From S2P Require Import XdrArrays XdrTypes XdrMem XdrRec XdrRecProofs.
Local Open Scope Z_scope.

(** ** An allocator *)

Definition cell_address (c : cell) : Z := match c with Byte a => a | Block p => p end.

(** The first address above everything. *)
Definition top (m : mem) : Z := map_fold (λ c _ n, n `max` (cell_address c + 1)) 4 m.

Lemma top_above m : 4 ≤ top m ∧ ∀ c v, m !! c = Some v → cell_address c < top m.
Proof.
  unfold top. apply (map_fold_weak_ind (λ n (m : mem), 4 ≤ n ∧ ∀ c v, m !! c = Some v → cell_address c < n)).
  - split; [lia|]. intros c v Hc. by rewrite lookup_empty in Hc.
  - intros c v m' n Hc [Hn Hm]. split; [lia|]. intros c' v'.
    rewrite lookup_insert_Some. intros [[-> _]|[_ Hc']]; [lia|]. specialize (Hm _ _ Hc'). lia.
Qed.

Program Definition top_allocator : Allocator :=
  {| place _ m n := if top m + n <? 2 ^ 32 then Some (top m, zeros (Z.to_nat n)) else None |}.
Next Obligation.
  intros t m n p junk Hn. cbv beta. destruct (Z.ltb_spec (top m + n) (2 ^ 32)); [|done]. intros [= <- <-].
  destruct (top_above m) as [Ht Hm]. assert (zlen (zeros (Z.to_nat n)) = n) as Hl.
  { unfold zlen, zeros. rewrite length_replicate. lia. }
  split; [lia|]. split; [lia|]. split; [done|]. split.
  - apply Forall_replicate. unfold byte_ok. lia.
  - unfold block. apply map_disjoint_insert_l. split.
    + destruct (m !! Block (top m)) as [v|] eqn:E; [|done]. apply Hm in E. cbn in E. lia.
    + apply bytes_disjoint. intros a Ha. destruct (m !! Byte a) as [v|] eqn:E; [|done]. apply Hm in E. cbn in E. lia.
Qed.

(** ** What is sent is whole units *)

Lemma units_app xs ys : (4 | zlen xs) → (4 | zlen ys) → (4 | zlen (xs ++ ys)).
Proof. intros Hx Hy. rewrite zlen_app. by apply Z.divide_add_r. Qed.

Lemma units_be l : (4 | zlen (be_bytes l)).
Proof. by exists 1. Qed.

Lemma units_padded bs : (4 | zlen (padded bs)).
Proof.
  unfold padded, padding. rewrite zlen_app. unfold zlen at 2, zeros. rewrite length_replicate.
  pose proof (Z.mod_pos_bound (- zlen bs) 4 ltac:(lia)). rewrite Z2Nat.id by lia.
  pose proof (Z.div_mod (- zlen bs) 4 ltac:(lia)). exists (- ((- zlen bs) / 4)). lia.
Qed.

Section units.
Context {S : Type} `{XdrStream S} `{Allocator}.

Lemma units_elems (c : codec (S:=S)) vs : (∀ v, (4 | zlen (c_enc c v))) → (4 | zlen (elems_enc c vs)).
Proof. intros Hc. induction vs as [|v vs IH]; [by exists 0|]. apply (units_app (c_enc c v)); [apply Hc|apply IH]. Qed.

Lemma units_enc t v : (4 | zlen (c_enc (codec_of (S:=S) t) v)).
Proof.
  revert v. induction t using xtype_xarms_ind with (P0 := λ arms, ∀ d c,
    find_arm (default_of (S:=S) arms) d (cases_of arms) = Some c → ∀ v, (4 | zlen (c_enc c v)));
    cbn [codec_of cases_of default_of find_arm]; intros v.
  1-10: apply units_be.
  - apply units_padded.
  - apply (units_app (be_bytes _)); [apply units_be|apply units_padded].
  - apply (units_app (be_bytes _)); [apply units_be|apply units_padded].
  - apply (units_app (be_bytes _)); [apply units_be|by apply units_elems].
  - by apply (units_elems (codec_of t)).
  - apply IHt.
  - destruct v as [v|]; [apply (units_app (be_bytes 1)); [apply units_be|apply IHt]|apply (units_be 0)].
  - apply (units_app (c_enc (codec_of t1) v.1)); [apply IHt1|apply IHt2].
  - destruct v as [d v]. apply (units_app (be_bytes d)); [apply units_be|]. cbn [projT2 projT1]. revert v.
    unfold arm_codec. destruct (find_arm _ d _) as [c|] eqn:E; [|done]. intros v. by apply (IHt d c E v).
  - done.
  - intros c [= <-]. apply IHt.
  - intros c. destruct (d =? v); [intros [= <-]; apply IHt|apply IHt0].
Qed.
End units.

(** ** The memory stream *)

Lemma mem_create_writes base buffer n :
  0 ≤ base → base + zlen buffer < 2 ^ 32 → (n ≤ length buffer)%nat →
  writes [] n (xdrmem_create base buffer (zlen buffer)).
Proof.
  intros Hb Hl Hn. split; [|split].
  - unfold xdrmem_ok, xdrmem_create, zlen in *. cbn. lia.
  - unfold xdrmem_out. cbn. by rewrite Z.sub_diag.
  - cbn. unfold zlen. lia.
Qed.

Lemma mem_create_reads base bs :
  0 ≤ base → base + zlen bs < 2 ^ 32 → reads bs (xdrmem_create base bs (zlen bs)).
Proof.
  intros Hb Hl. split; [unfold xdrmem_ok, xdrmem_create, zlen in *; cbn; lia|].
  exists []. unfold xdrmem_rest. cbn. by rewrite Z.sub_diag, app_nil_r.
Qed.

(** The bytes before the position. *)
Definition message (x : xdrmem) : list Z := take (Z.to_nat (xdrmem_getpos x)) (x_buffer x).

Lemma message_out x out n : xdrmem_writes out n x → message x = out.
Proof.
  intros (Hx & <- & _). unfold message, xdrmem_getpos, xdrmem_out. unfold xdrmem_ok in Hx.
  by rewrite u32_small by (unfold zlen in Hx; lia).
Qed.

(** C35: Any well formed type: an object that represents [v] is encoded into a
    buffer with room for it and stays as it was, and a zeroed object elsewhere,
    decoded from the bytes before the position, represents [v] as well.  When
    the decoding fails, an allocation it made was refused.  Memory around the
    objects is untouched both times. *)
Theorem xdr_roundtrip `{Allocator} t v p1 h1 hs1 m1 a1 base1 buffer p2 hs2 m2 a2 base2 :
  well_formed t = true → c_valid (codec_of (S:=xdrmem) t) v →
  addr_ok p1 (sizeof t) → c_rep (codec_of t) v p1 h1 → splits m1 (h1 :: hs1) →
  0 ≤ base1 → base1 + zlen buffer < 2 ^ 32 → (length (c_enc (codec_of t) v) ≤ length buffer)%nat →
  addr_ok p2 (sizeof t) → splits m2 (bytes p2 (zeros (sizeof t)) :: hs2) →
  0 ≤ base2 → base2 + zlen (c_enc (codec_of t) v) < 2 ^ 32 →
  ∃ s1 m1' a1',
    c_proc (codec_of t) p1 0 (Xdr XDR_ENCODE (xdrmem_create base1 buffer (zlen buffer)) m1 a1) =
      Ok true (Xdr XDR_ENCODE s1 m1' a1') ∧
    splits m1' (h1 :: hs1) ∧ message s1 = c_enc (codec_of t) v ∧
    ∃ b s2 m2' a2' h2,
      c_proc (codec_of t) p2 0 (Xdr XDR_DECODE (xdrmem_create base2 (message s1) (zlen (message s1))) m2 a2) =
        Ok b (Xdr XDR_DECODE s2 m2' a2') ∧
      splits m2' (h2 :: hs2) ∧ decoded b a2 a2' (c_rep (codec_of t) v p2 h2).
Proof.
  intros Hwf Hv Ha1 Hrep Hm1 Hb1 Hl1 Hroom Ha2 Hm2 Hb2 Hl2. pose proof (codec_of_ok t Hwf) as Hok.
  rewrite <- (size_codec_of (S:=xdrmem)) in Ha1, Ha2, Hm2.
  destruct (c_encode v p1 0 m1 h1 hs1 (xdrmem_create base1 buffer (zlen buffer)) a1 [] 0 Ha1 Hv Hrep Hm1)
    as (s1 & m1' & a1' & E1 & Hm1' & Hw); [apply mem_create_writes; [done|done|lia]|].
  exists s1, m1', a1'. split; [done|]. split; [done|]. assert (message s1 = c_enc (codec_of t) v) as Hmsg.
  { by apply (message_out s1 _ 0). }
  split; [done|]. rewrite Hmsg.
  destruct (c_decode v p2 0 m2 hs2 (xdrmem_create base2 (c_enc (codec_of t) v) (zlen (c_enc (codec_of t) v))) a2 [] Ha2 Hv Hm2)
    as (b & s2 & m2' & a2' & h2 & E2 & Hm2' & Hb); [rewrite app_nil_r; by apply mem_create_reads|].
  exists b, s2, m2', a2', h2. split; [done|]. split; [done|]. by apply (decoded_impl _ _ _ _ _ Hb); intros _ [].
Qed.

(** ** Arbitrary input *)

Lemma part_freed {S} `{XdrStream S, Allocator} t b p h op s m a hs :
  well_formed t = true → addr_ok p (sizeof t) → c_part (codec_of (S:=S) t) b p h → splits m (h :: hs) →
  ∃ m' a' bs, xdr_free (c_proc (codec_of t)) p (Xdr op s m a) = Ok tt (Xdr op s m' a') ∧
    splits m' (bytes p bs :: hs) ∧ length bs = sizeof t.
Proof.
  intros Hwf Ha Hp Hm. pose proof (codec_of_ok (S:=S) t Hwf) as Hok. rewrite <- (size_codec_of (S:=S)) in *.
  destruct (c_free b p 0 m h hs s a Ha Hp Hm) as (r & m' & a' & bs & E & Hm' & Hl & _).
  exists m', a', bs. split; [|done]. unfold xdr_free. rewrite bind_gets, bind_modify. cbn [x_op].
  change (set_x_op XDR_FREE (Xdr op s m a)) with (Xdr XDR_FREE s m a). by step_with E.
Qed.

(** C36: Whatever a stream holds, decoding an object of a well formed type
    never leaves the object, the blocks it allocated and the stream's buffer,
    and [xdr_free] then gives every block back: but for the bytes of the
    object, memory is what it was, whether or not the decoding succeeded. *)
Theorem xdr_decode_any_input {S} `{XdrStream S, Allocator} t p op m hs (s : S) a :
  well_formed t = true → addr_ok p (sizeof t) → splits m (bytes p (zeros (sizeof t)) :: hs) → stream_ok s →
  ∃ b s' m' a' h,
    c_proc (codec_of t) p 0 (Xdr XDR_DECODE s m a) = Ok b (Xdr XDR_DECODE s' m' a') ∧
    splits m' (h :: hs) ∧ stream_ok s' ∧ c_part (codec_of t) b p h ∧
    ∃ m'' a'' bs, xdr_free (c_proc (codec_of t)) p (Xdr op s' m' a') = Ok tt (Xdr op s' m'' a'') ∧
      splits m'' (bytes p bs :: hs) ∧ length bs = sizeof t.
Proof.
  intros Hwf Ha Hm Hs. pose proof (codec_of_ok (S:=S) t Hwf) as Hok.
  pose proof Ha as Ha'. pose proof Hm as Hm0. rewrite <- (size_codec_of (S:=S)) in Ha', Hm0.
  destruct (c_safe p 0 m hs s a Ha' Hm0 Hs) as (b & s' & m' & a' & h & E & Hm' & Hs' & Hp).
  exists b, s', m', a', h. split_and!; [done..|]. by apply (part_freed t b p h).
Qed.

(** ** The record stream *)

(** A client that sends records, each at once or not, and one that receives
    records of known lengths. *)
Fixpoint send_records (rs : list (bool * list Z)) : M recstream bool :=
  match rs with
  | [] => mret true
  | (sendnow, r) :: rs =>
      ok ← x_putbytes r;
      if negb ok then mret false else
      ok ← on_out (xdrrec_endofrecord sendnow);
      if negb ok then mret false else send_records rs
  end.

Fixpoint receive_records (ns : list Z) : M recstream (option (list (list Z))) :=
  match ns with
  | [] => mret (Some [])
  | n :: ns =>
      ok ← on_in xdrrec_skiprecord;
      if negb ok then mret None else
      got ← x_getbytes n;
      if negb got.1 then mret None else
      rest ← receive_records ns;
      mret (cons got.2 <$> rest)
  end.

Lemma send_ok past rs s :
  rec_writes past [] (r_out s) → Forall (λ r, (4 | zlen r.2)) rs → last rs.*1 = Some true →
  ∃ s' frs, send_records rs s = Ok true s' ∧ Forall fragment_ok frs ∧ sent (r_out s') = wire frs ∧
    records [] frs = (past ++ rs.*2, []).
Proof.
  revert past s. induction rs as [|[now r] rs IH]; intros past s Hw Hu Hlast; [done|]. apply Forall_cons in Hu as [Hr Hu].
  destruct (rec_putbytes r past [] _ Hw) as (o1 & E1 & Hw1).
  destruct (rec_endofrecord now past r o1 Hw1 Hr) as (o2 & E2 & Hw2 & Hnow).
  cbn [send_records]. step_with (on_out_ok _ _ _ s E1). cbn [negb].
  step_with (on_out_ok (xdrrec_endofrecord now) true o2 (RecStream o1 (r_in s) (sendsize s) (recvsize s)) E2). cbn [negb r_in sendsize recvsize].
  destruct rs as [|r' rs].
  - injection Hlast as ->. destruct (Hnow eq_refl) as (frs & Hfrs & Hs & Hrec).
    eexists _, frs. split; [done|]. done.
  - destruct (IH (past ++ [r]) (RecStream o2 (r_in s) (sendsize s) (recvsize s)) Hw2 Hu) as (s' & frs & E & Hfrs & Hs & Hrec); [done|].
    exists s', frs. split; [done|]. split; [done|]. split; [done|]. rewrite Hrec. cbn. by rewrite <- app_assoc.
Qed.

Lemma receive_ok rs later rec s :
  pending rec (rs ++ later) (r_in s) → ∃ s', receive_records (zlen <$> rs) s = Ok (Some rs) s'.
Proof.
  revert rec s. induction rs as [|r rs IH]; intros rec s Hp; [by exists s|]. cbn [fmap list_fmap receive_records].
  destruct (rec_skiprecord rec r (rs ++ later) _ Hp) as (i1 & E1 & Hp1).
  step_with (on_in_ok _ _ _ s E1). cbn [negb].
  destruct (rec_getbytes (zlen r) _ _ _ Hp1) as (i2 & E2 & Hp2); [unfold zlen; lia|].
  step_with (on_in_ok (xdrrec_getbytes (zlen r)) _ i2 (RecStream (r_out s) i1 (sendsize s) (recvsize s)) E2).
  cbn [fst snd negb r_out sendsize recvsize].
  destruct (IH _ (RecStream (r_out s) i2 (sendsize s) (recvsize s)) Hp2) as (s' & E). step_with E.
  exists s'. unfold zlen. rewrite Nat2Z.id. by rewrite firstn_all.
Qed.

(** C37: Records of whole units, sent each at once or gathered in the buffer
    until one is, arrive: whatever the sizes, below 2^30, of the two ends'
    buffers and the pieces in which the network delivers the bytes, the receiver gets
    exactly the records sent, in order. *)
Theorem records_arrive send recv junk1 junk2 send' recv' junk1' junk2' rs pieces :
  0 ≤ send < 2 ^ 30 → 0 ≤ recv' < 2 ^ 30 →
  zlen junk1 = fix_buf_size send → zlen junk2' = fix_buf_size recv' →
  Forall (λ r, (4 | zlen r.2)) rs → last rs.*1 = Some true →
  ∃ s, send_records rs (xdrrec_create send recv (junk1, junk2) []) = Ok true s ∧
    (concat pieces = sent (r_out s) →
     ∃ s', receive_records (zlen <$> rs.*2) (xdrrec_create send' recv' (junk1', junk2') pieces) = Ok (Some rs.*2) s').
Proof.
  intros Hs Hr Hj1 Hj2 Hu Hlast.
  destruct (send_ok [] rs (xdrrec_create send recv (junk1, junk2) []) (create_writes send recv (junk1, junk2) [] Hs Hj1) Hu Hlast)
    as (s & frs & E & Hfrs & Hsent & Hrec).
  exists s. split; [done|]. intros Hp. rewrite Hsent in Hp.
  pose proof (create_reads send' recv' (junk1', junk2') pieces frs _ _ Hr Hj2 Hp Hfrs Hrec) as Hpend.
  cbn [app] in Hpend. rewrite <- (app_nil_r rs.*2) in Hpend. by apply receive_ok in Hpend.
Qed.

(** C38: An object of a well formed type sent as a record over a connection is
    received as an object that represents the same value, whatever the sizes
    of the buffers and the pieces in which the bytes arrive; when the
    decoding fails, an allocation was refused. *)
Theorem xdr_record_roundtrip `{Allocator} t (v : c_val (codec_of (S:=recstream) t))
    p1 h1 hs1 m1 a1 send recv junk1 junk2 p2 hs2 m2 a2 send' recv' junk1' junk2' :
  well_formed t = true → c_valid (codec_of t) v →
  addr_ok p1 (sizeof t) → c_rep (codec_of t) v p1 h1 → splits m1 (h1 :: hs1) →
  0 ≤ send < 2 ^ 30 → zlen junk1 = fix_buf_size send →
  addr_ok p2 (sizeof t) → splits m2 (bytes p2 (zeros (sizeof t)) :: hs2) →
  0 ≤ recv' < 2 ^ 30 → zlen junk2' = fix_buf_size recv' →
  ∃ s1 m1' a1' s1',
    c_proc (codec_of t) p1 0 (Xdr XDR_ENCODE (xdrrec_create send recv (junk1, junk2) []) m1 a1) = Ok true (Xdr XDR_ENCODE s1 m1' a1') ∧
    splits m1' (h1 :: hs1) ∧ on_out (xdrrec_endofrecord true) s1 = Ok true s1' ∧
    ∀ pieces, concat pieces = sent (r_out s1') →
      ∃ b s2 s2' m2' a2' h2,
        on_in xdrrec_skiprecord (xdrrec_create send' recv' (junk1', junk2') pieces) = Ok true s2 ∧
        c_proc (codec_of (S:=recstream) t) p2 0 (Xdr XDR_DECODE s2 m2 a2) = Ok b (Xdr XDR_DECODE s2' m2' a2') ∧
        splits m2' (h2 :: hs2) ∧ decoded b a2 a2' (c_rep (codec_of (S:=recstream) t) v p2 h2).
Proof.
  intros Hwf Hv Ha1 Hrep Hm1 Hs Hj1 Ha2 Hm2 Hr Hj2.
  pose proof (codec_of_ok (S:=recstream) (H0:=recstream_stream [] []) t Hwf) as Hok.
  rewrite <- (size_codec_of (S:=recstream)) in Ha1, Ha2, Hm2.
  destruct (c_encode (H0:=recstream_stream [] []) v p1 0 m1 h1 hs1 (xdrrec_create send recv (junk1, junk2) []) a1 [] 0 Ha1 Hv Hrep Hm1)
    as (s1 & m1' & a1' & E1 & Hm1' & Hw); [by apply create_writes|].
  destruct (rec_endofrecord true [] _ _ Hw) as (o & E2 & _ & Hsent); [apply units_enc|].
  destruct (Hsent eq_refl) as (frs & Hfrs & Hwire & Hrec).
  eexists s1, m1', a1', _. split; [exact E1|]. split; [done|]. split; [exact (on_out_ok _ _ _ _ E2)|].
  intros pieces Hp. cbn [r_out] in Hp. rewrite Hwire in Hp.
  pose proof (create_reads send' recv' (junk1', junk2') pieces frs _ _ Hr Hj2 Hp Hfrs Hrec) as Hpend.
  destruct (rec_skiprecord _ _ _ _ Hpend) as (i & E3 & Hp3).
  destruct (c_decode (H0:=recstream_stream [] []) v p2 0 m2 hs2 (RecStream (r_out (xdrrec_create send' recv' (junk1', junk2') pieces)) i
    (fix_buf_size send') (fix_buf_size recv')) a2 [] Ha2 Hv Hm2) as (b & s2 & m2' & a2' & h2 & E4 & Hm2' & Hb).
  { exists []. by rewrite !app_nil_r. }
  eexists b, _, s2, m2', a2', h2. split; [exact (on_in_ok _ _ _ _ E3)|]. split; [exact E4|]. split; [done|].
  by apply (decoded_impl _ _ _ _ _ Hb); intros _ [].
Qed.

(** ** Witnesses *)

(** [struct { char c; char *s; long *l; }] with the string hi and a long. *)
Definition sample_type : xtype := TPair TChar 3 (TPair (TString 8) 0 (TPointer TLong)).

Section sample.
Context {S : Type} `{XdrOps S} `{Allocator}.
Definition sample_value : c_val (codec_of (S:=S) sample_type) := (65, ([104; 105], Some (-7))).
End sample.

Definition sample_string : mem := join [bytes 1004 (le_bytes 4 2000); block 2000 ([104; 105] ++ 0 :: [])].
Definition sample_pointer : mem := join [bytes 1008 (le_bytes 4 3000); {[Block 3000 := 4]}; bytes 3000 (le_bytes 4 (-7))].
Definition sample_tail : mem := join [sample_string; bytes 1008 []; sample_pointer].
Definition sample_object : mem := join [bytes 1000 (le_bytes 1 65); bytes 1001 [9; 9; 9]; sample_tail].

Lemma sample_rep {S} `{XdrOps S, Allocator} : c_rep (codec_of (S:=S) sample_type) sample_value 1000 sample_object.
Proof.
  exists (bytes 1000 (le_bytes 1 65)), [9; 9; 9], sample_tail. split; [by apply splits_apart; vm_compute|].
  split; [done|]. split; [done|]. exists sample_string, [], sample_pointer.
  split; [by apply splits_apart; vm_compute|]. split; [done|]. split.
  - exists 2000, []. split; [lia|]. by apply splits_apart; vm_compute.
  - exists 3000, (bytes 3000 (le_bytes 4 (-7))). split; [unfold addr_ok; cbn; lia|]. split; [done|].
    by apply splits_apart; vm_compute.
Qed.

Lemma sample_valid {S} `{XdrOps S, Allocator} : c_valid (codec_of (S:=S) sample_type) sample_value.
Proof. cbn. repeat split; try lia; repeat constructor; done || (unfold zlen; cbn; lia). Qed.

Lemma sample_addr p : 0 < p < 2 ^ 31 → addr_ok p (sizeof sample_type).
Proof. unfold addr_ok, sample_type. cbn. lia. Qed.

#[local] Existing Instance top_allocator.

Lemma xdr_roundtrip_witness :
  ∃ s1 m1' a1',
    c_proc (codec_of sample_type) 1000 0 (Xdr XDR_ENCODE (xdrmem_create 5000 (zeros 40) 40) sample_object []) =
      Ok true (Xdr XDR_ENCODE s1 m1' a1') ∧
    splits m1' [sample_object] ∧ message s1 = c_enc (codec_of sample_type) sample_value ∧
    ∃ b s2 m2' a2' h2,
      c_proc (codec_of sample_type) 100 0 (Xdr XDR_DECODE (xdrmem_create 600 (message s1) (zlen (message s1))) (bytes 100 (zeros 12)) []) =
        Ok b (Xdr XDR_DECODE s2 m2' a2') ∧
      splits m2' [h2] ∧ decoded b [] a2' (c_rep (codec_of sample_type) sample_value 100 h2).
Proof.
  apply (xdr_roundtrip sample_type sample_value 1000 sample_object [] sample_object [] 5000 (zeros 40) 100 [] (bytes 100 (zeros 12)) [] 600).
  - done.
  - apply sample_valid.
  - by apply sample_addr.
  - apply sample_rep.
  - by apply splits_one.
  - done.
  - done.
  - vm_compute. lia.
  - by apply sample_addr.
  - by apply splits_one.
  - done.
  - done.
Defined.

Lemma xdr_decode_any_input_witness :
  ∃ b s' m' a' h,
    c_proc (codec_of sample_type) 100 0
        (Xdr XDR_DECODE (xdrmem_create 600 [0; 0; 0; 65; 0; 0; 0; 3; 1; 0; 2; 255; 0; 0; 0; 9] 16) (bytes 100 (zeros 12)) []) =
      Ok b (Xdr XDR_DECODE s' m' a') ∧
    splits m' [h] ∧ stream_ok s' ∧ c_part (codec_of sample_type) b 100 h ∧
    ∃ m'' a'' bs, xdr_free (c_proc (codec_of sample_type)) 100 (Xdr XDR_DECODE s' m' a') = Ok tt (Xdr XDR_DECODE s' m'' a'') ∧
      splits m'' [bytes 100 bs] ∧ length bs = sizeof sample_type.
Proof.
  apply (xdr_decode_any_input (S:=xdrmem) (H0:=xdrmem_stream) sample_type 100 XDR_DECODE (bytes 100 (zeros 12)) []).
  - done.
  - by apply sample_addr.
  - by apply splits_one.
  - by refine (proj1 (mem_create_reads 600 [0; 0; 0; 65; 0; 0; 0; 3; 1; 0; 2; 255; 0; 0; 0; 9] _ _)).
Defined.

Definition junk (n : Z) : list Z := replicate (Z.to_nat n) 7.

Lemma records_arrive_witness :
  ∃ s, send_records [(false, [1; 2; 3; 4]); (false, []); (true, replicate 200 5)] (xdrrec_create 100 0 (junk 100, junk 4000) []) = Ok true s ∧
    (concat [take 3 (sent (r_out s)); drop 3 (sent (r_out s))] = sent (r_out s) →
     ∃ s', receive_records [4; 0; 200] (xdrrec_create 0 128 (junk 4000, junk 128) [take 3 (sent (r_out s)); drop 3 (sent (r_out s))]) =
       Ok (Some [[1; 2; 3; 4]; []; replicate 200 5]) s').
Proof.
  destruct (records_arrive 100 0 (junk 100) (junk 4000) 0 128 (junk 4000) (junk 128)
    [(false, [1; 2; 3; 4]); (false, []); (true, replicate 200 5)] []) as (s & E & _); [lia|lia|done|done| |done|].
  { repeat constructor; [by exists 1|by exists 0|by exists 50]. }
  exists s. split; [exact E|].
  destruct (records_arrive 100 0 (junk 100) (junk 4000) 0 128 (junk 4000) (junk 128)
    [(false, [1; 2; 3; 4]); (false, []); (true, replicate 200 5)] [take 3 (sent (r_out s)); drop 3 (sent (r_out s))])
    as (s0 & E0 & H0'); [lia|lia|done|done| |done|].
  { repeat constructor; [by exists 1|by exists 0|by exists 50]. }
  assert (s0 = s) as -> by congruence. exact H0'.
Defined.

Lemma xdr_record_roundtrip_witness :
  ∃ s1 m1' a1' s1',
    c_proc (codec_of sample_type) 1000 0 (Xdr XDR_ENCODE (xdrrec_create 100 0 (junk 100, []) []) sample_object []) =
      Ok true (Xdr XDR_ENCODE s1 m1' a1') ∧
    splits m1' [sample_object] ∧ on_out (xdrrec_endofrecord true) s1 = Ok true s1' ∧
    ∀ pieces, concat pieces = sent (r_out s1') →
      ∃ b s2 s2' m2' a2' h2,
        on_in xdrrec_skiprecord (xdrrec_create 0 128 ([], junk 128) pieces) = Ok true s2 ∧
        c_proc (codec_of sample_type) 100 0 (Xdr XDR_DECODE s2 (bytes 100 (zeros 12)) []) = Ok b (Xdr XDR_DECODE s2' m2' a2') ∧
        splits m2' [h2] ∧ decoded b [] a2' (c_rep (codec_of sample_type) sample_value 100 h2).
Proof.
  apply (xdr_record_roundtrip sample_type sample_value 1000 sample_object [] sample_object [] 100 0 (junk 100) []
    100 [] (bytes 100 (zeros 12)) [] 0 128 [] (junk 128)).
  - done.
  - apply sample_valid.
  - by apply sample_addr.
  - apply sample_rep.
  - by apply splits_one.
  - lia.
  - done.
  - by apply sample_addr.
  - by apply splits_one.
  - lia.
  - done.
Defined.
