(* ===== verification/Pmap.v ===== *)
(** * Port mapper data

    [uuu/lib/c/librpc/pmap_prot.c] and [pmap_prot2.c]: a mapping, and the
    list of mappings a port mapper dumps, which is sent element by element in
    a loop rather than by the recursion its type has. *)
From S2P Require Import Prelude Posix CMemory Xdr XdrMemory XdrCodec XdrScalars XdrStrings XdrAggregates.
From S2P Require Import XdrArrays XdrTypes.
Local Open Scope Z_scope.

Section filters.
Context {S : Type} `{XdrOps S} `{Allocator}.
Local Abbreviation X := (M (xdr_handle S)).

(** [struct pmap]: four longs. *)
Definition xdr_pmap (regs : Z) : X bool :=
  ok ← xdr_u_long regs;
  if negb ok then mret false else
  ok ← xdr_u_long (regs + 4);
  if negb ok then mret false else
  ok ← xdr_u_long (regs + 8);
  if negb ok then mret false else
  xdr_u_long (regs + 12).

(** [struct pmaplist]: a mapping and the next pointer. *)
Definition sizeof_pmaplist : Z := 20.
Definition pml_next (p : Z) : Z := p + 16.

(** The loop of [xdr_pmaplist]; a round for each element and the last one. *)
Fixpoint pmaplist_loop (fuel : nat) (rp : Z) : X bool :=
  match fuel with
  | O => no_fuel
  | Datatypes.S fuel =>
      op ← gets x_op;
      let freeing := bool_decide (op = XDR_FREE) in
      p ← load_ulong rp;
      let more_elements := if p =? 0 then 0 else 1 in
      r ← xdr_bool_via (mret more_elements);
      if negb r.1 then mret false else
      if default more_elements r.2 =? 0 then mret true else
      next ← (if freeing then p ← load_ulong rp; mret (pml_next p) else mret 0);
      ok ← xdr_reference rp sizeof_pmaplist (λ p _, xdr_pmap p);
      if negb ok then mret false else
      rp ← (if freeing then mret next else p ← load_ulong rp; mret (pml_next p));
      pmaplist_loop fuel rp
  end.
Definition xdr_pmaplist (fuel : nat) (rp : Z) : X bool := pmaplist_loop fuel rp.
End filters.

(** ** A mapping *)

Definition pmap_type : xtype := TPair TULong 0 (TPair TULong 0 (TPair TULong 0 TULong)).

Section lists.
Context {S : Type} `{XdrStream S} `{Allocator}.
Implicit Types (hs : list mem) (bs : list Z) (s : S).
Local Abbreviation X := (M (xdr_handle S)).

Definition pmap_codec : codec (S:=S) := codec_of pmap_type.

#[local] Instance pmap_codec_ok : CodecOk pmap_codec.
Proof. by apply codec_of_ok. Qed.

Lemma pmap_proc p arg x : c_proc pmap_codec p arg x = xdr_pmap p x.
Proof.
  unfold xdr_pmap. cbn [pmap_codec pmap_type codec_of pair_codec c_proc]. unfold pair_proc at 1.
  apply bind_ext. intros [] y; [|done]. cbn [pair_codec c_proc negb]. unfold pair_proc at 1.
  cbn [c_proc u_long_codec int_codec c_size]. change (p + Z.of_nat (4 + 0)) with (p + 4).
  apply bind_ext. intros [] z; [|done]. cbn [negb]. unfold pair_proc.
  cbn [c_proc u_long_codec int_codec c_size]. change (p + 4 + Z.of_nat (4 + 0)) with (p + 4 + 4).
  replace (p + 4 + 4) with (p + 8) by lia. apply bind_ext. intros [] z'; [|done].
  cbn [c_proc u_long_codec int_codec c_size negb]. replace (p + 8 + Z.of_nat (4 + 0)) with (p + 12) by lia. done.
Qed.

(** ** Lists of mappings *)

Fixpoint pmaplist_rep (l : list (c_val pmap_codec)) (rp : Z) (h : mem) : Prop :=
  match l with
  | [] => h = bytes rp (le_bytes 4 0)
  | v :: l => ∃ q h1 hn, addr_ok q 20 ∧ c_rep pmap_codec v q h1 ∧
      splits h [bytes rp (le_bytes 4 q); {[Block q := 20]}; h1; hn] ∧ pmaplist_rep l (pml_next q) hn
  end.

Fixpoint pmaplist_enc (l : list (c_val pmap_codec)) : list Z :=
  match l with
  | [] => be_bytes 0
  | v :: l => be_bytes 1 ++ c_enc pmap_codec v ++ pmaplist_enc l
  end.

Lemma bind_reference rp q op s m t hs :
  addr_ok q 20 → op ≠ XDR_FREE → splits m (bytes rp (le_bytes 4 q) :: hs) →
  xdr_reference rp sizeof_pmaplist (λ p _, xdr_pmap p) (Xdr op s m t) =
    reference_target rp q (λ p _, xdr_pmap p) (Xdr op s m t).
Proof.
  intros [Hq Hq2] Hop Hm. unfold xdr_reference.
  step_with (load_pointer rp q _ op s m t ltac:(unfold word; lia) Hm). rewrite bind_gets. cbn [x_op].
  destruct (Z.eqb_spec q 0); [lia|]. done.
Qed.

Lemma send_more b s m t out k :
  (0 ≤ b < 2) → writes out (4 + k) s →
  ∃ s', xdr_bool_via (mret b) (Xdr XDR_ENCODE s m t) = Ok (true, None) (Xdr XDR_ENCODE s' m t) ∧
    writes (out ++ be_bytes b) k s'.
Proof.
  intros Hb Hw. exact (via_encode 0 2 xdr_bool_via _ _ bool_via_switch send_bool (mret b : X Z) b m s t out k Hb eq_refl Hw).
Qed.

Lemma pmaplist_encode l fuel rp m h hs s t out k :
  Forall (c_valid pmap_codec) l → pmaplist_rep l rp h → (length l < fuel)%nat → splits m (h :: hs) →
  writes out (length (pmaplist_enc l) + k) s →
  ∃ s' m' t', xdr_pmaplist fuel rp (Xdr XDR_ENCODE s m t) = Ok true (Xdr XDR_ENCODE s' m' t') ∧
    splits m' (h :: hs) ∧ writes (out ++ pmaplist_enc l) k s'.
Proof.
  revert fuel rp m h hs s t out. induction l as [|v l IH]; intros fuel rp m h hs s t out Hv Hh Hfuel Hm Hw;
    (destruct fuel as [|fuel]; [lia|]); unfold xdr_pmaplist; cbn [pmaplist_loop]; rewrite bind_gets; cbn [x_op].
  - cbn in Hh. subst h. step_with (load_pointer rp 0 _ XDR_ENCODE s m t ltac:(unfold word; lia) Hm).
    change (0 =? 0) with true. cbv iota. destruct (send_more 0 s m t out k ltac:(lia) Hw) as (s' & E & Hw').
    step_with E. by exists s', m, t.
  - apply Forall_cons in Hv as [Hv Hvs]. destruct Hh as (q & h1 & hn & Ha & Hr & Hh & Hn). cbn [pmaplist_enc] in *.
    rewrite length_app, length_be_bytes, <- Nat.add_assoc, length_app, <- Nat.add_assoc in Hw.
    pose proof Ha as [Hq Hq2]. pose proof (splits_nest _ _ _ _ Hm Hh) as Hm0.
    step_with (load_pointer rp q _ XDR_ENCODE s m t ltac:(unfold word; lia) Hm0). destruct (Z.eqb_spec q 0); [lia|].
    destruct (send_more 1 s m t out _ ltac:(lia) Hw) as (s1 & E1 & Hw1). step_with E1.
    cbn [fst snd negb from_option id]. change (1 =? 0) with false. change (bool_decide (XDR_ENCODE = XDR_FREE)) with false. cbv iota.
    rewrite bind_ret.
    assert (splits m (h1 :: bytes rp (le_bytes 4 q) :: {[Block q := 20]} :: hn :: hs)) as Hm1 by reorder Hm0.
    assert (addr_ok q (c_size pmap_codec)) as Ha1 by (unfold addr_ok; cbn; lia).
    destruct (c_encode v q LASTUNSIGNED m h1 _ s1 t _ _ Ha1 Hv Hr Hm1 Hw1) as (s2 & m2 & t2 & E2 & Hm2 & Hw2).
    rewrite pmap_proc in E2.
    assert (xdr_reference rp sizeof_pmaplist (λ p _, xdr_pmap p) (Xdr XDR_ENCODE s1 m t) = Ok true (Xdr XDR_ENCODE s2 m2 t2)) as E3.
    { rewrite (bind_reference rp q XDR_ENCODE s1 m t _ Ha ltac:(done) Hm0). unfold reference_target. by step_with E2. }
    step_with E3. cbn [negb].
    assert (splits m2 (bytes rp (le_bytes 4 q) :: hn :: h1 :: {[Block q := 20]} :: hs)) as Hm2' by reorder Hm2.
    rewrite bind_assoc. step_with (load_pointer rp q _ XDR_ENCODE s2 m2 t2 ltac:(unfold word; lia) Hm2'). rewrite bind_ret.
    apply splits_swap in Hm2'.
    destruct (IH fuel (pml_next q) m2 hn _ s2 t2 _ Hvs Hn ltac:(cbn [length] in Hfuel; lia) Hm2' Hw2) as (s3 & m3 & t3 & E4 & Hm3 & Hw3).
    exists s3, m3, t3. split; [exact E4|]. split; [|by rewrite <- !app_assoc in Hw3].
    apply (splits_rejoin _ _ _ _ Hh). reorder Hm3.
Qed.

Lemma reference_ext pp n (f g : Z → Z → X bool) x :
  (∀ p arg y, f p arg y = g p arg y) → xdr_reference pp n f x = xdr_reference pp n g x.
Proof.
  intros Hfg. assert (∀ loc y, reference_target pp loc f y = reference_target pp loc g y) as Ht.
  { intros loc y. unfold reference_target, mbind, M_bind. by rewrite Hfg. }
  unfold xdr_reference. apply bind_ext. intros loc y. apply bind_ext. intros op z.
  destruct (_ && _); [done|]. destruct (_ && _); [|apply Ht].
  apply bind_ext. intros q z1. apply bind_ext. intros _ z2. destruct (q =? 0); [done|].
  apply bind_ext. intros _ z3. apply Ht.
Qed.

(** The mapping in a node. *)
Definition node : codec (S:=S) := room_codec 20 pmap_codec.

Lemma reference_node rp x :
  xdr_reference rp sizeof_pmaplist (λ p _, xdr_pmap p) x = xdr_reference rp (Z.of_nat (c_size node)) (c_proc node) x.
Proof. apply reference_ext. intros p arg y. symmetry. apply pmap_proc. Qed.

(** A list as far as a decoding got: null where it stopped. *)
Lemma pmaplist_decode l fuel rp m hs s t rest :
  Forall (c_valid pmap_codec) l → (length l < fuel)%nat → splits m (bytes rp (le_bytes 4 0) :: hs) →
  reads (pmaplist_enc l ++ rest) s →
  ∃ b s' m' t' h, xdr_pmaplist fuel rp (Xdr XDR_DECODE s m t) = Ok b (Xdr XDR_DECODE s' m' t') ∧
    splits m' (h :: hs) ∧ decoded b t t' (reads rest s' ∧ pmaplist_rep l rp h).
Proof.
  revert fuel rp m hs s t. induction l as [|v l IH]; intros fuel rp m hs s t Hv Hfuel Hm Hr;
    (destruct fuel as [|fuel]; [lia|]); unfold xdr_pmaplist; cbn [pmaplist_loop]; rewrite bind_gets; cbn [x_op];
    step_with (load_pointer rp 0 _ XDR_DECODE s m t ltac:(unfold word; lia) Hm); change (0 =? 0) with true; cbv iota;
    cbn [pmaplist_enc] in Hr; rewrite <- ?app_assoc in Hr.
  - destruct (via_decode 0 2 xdr_bool_via _ _ bool_via_switch send_bool (mret 0 : X Z) 0 m s t _ ltac:(lia) Hr)
      as (s1 & E1 & Hr1).
    step_with E1. exists true, s1, m, t, (bytes rp (le_bytes 4 0)). split; [done|]. split; [done|].
    by apply decoded_same.
  - apply Forall_cons in Hv as [Hv Hvs].
    destruct (via_decode 0 2 xdr_bool_via _ _ bool_via_switch send_bool (mret 0 : X Z) 1 m s t _ ltac:(lia) Hr)
      as (s1 & E1 & Hr1).
    step_with E1. cbn [fst snd negb from_option id]. change (1 =? 0) with false.
    change (bool_decide (XDR_DECODE = XDR_FREE)) with false. cbv iota. rewrite bind_ret.
    destruct (reference_space node rp m hs s1 t Hm) as (q & m1 & [(E & Hm1)|(E & Ha & Hm1)]).
    all: rewrite <- reference_node in E.
    { step_with E. exists false, s1, m1, (false :: t), (bytes rp (le_bytes 4 0)). split_and!; [done..|apply decoded_refused]. }
    unfold reference_target in E.
    assert (splits m1 (bytes q (zeros (16 + 4)) :: bytes rp (le_bytes 4 q) :: {[Block q := 20]} :: hs)) as Hm1' by reorder Hm1.
    apply zeros_two in Hm1'. pose proof Ha as [Hq Hq2].
    assert (addr_ok q (c_size pmap_codec)) as Ha1 by (unfold addr_ok in *; cbn in *; lia).
    destruct (c_decode v q LASTUNSIGNED m1 _ s1 (true :: t) _ Ha1 Hv Hm1' Hr1) as (b2 & s2 & m2 & t2 & h1 & E2 & Hm2 & Hb2).
    change (c_proc pmap_codec q) with (c_proc node q) in E2. rewrite (bind_Ok _ _ _ _ _ E2) in E.
    assert (t `suffix_of` true :: t) as Hs0 by by apply suffix_cons_r.
    assert (splits m2 (bytes rp (le_bytes 4 q) :: h1 :: bytes (q + Z.of_nat 16) (zeros 4) :: {[Block q := 20]} :: hs)) as Hm2' by reorder Hm2.
    rewrite bind_gets in E. cbn [x_op] in E. rewrite (bind_Ok _ _ _ tt (Xdr XDR_DECODE s2 m2 t2) eq_refl) in E.
    step_with E. destruct b2; cbn [negb]; cycle 1.
    { apply (splits_join m2 hs [_; _; _; _]) in Hm2' as (h & _ & Hm2'). exists false, s2, m2, t2, h.
      split_and!; [done..|]. apply (decoded_step _ _ _ _ _ _ Hs0 Hb2). done. }
    destruct Hb2 as (Hs2 & Hr2 & Hrep).
    rewrite bind_assoc. step_with (load_pointer rp q _ XDR_DECODE s2 m2 t2 ltac:(unfold word; lia) Hm2'). rewrite bind_ret.
    assert (splits m2 (bytes (pml_next q) (le_bytes 4 0) :: bytes rp (le_bytes 4 q) :: {[Block q := 20]} :: h1 :: hs)) as Hm3 by reorder Hm2'.
    destruct (IH fuel (pml_next q) m2 _ s2 t2 Hvs ltac:(cbn [length] in Hfuel; lia) Hm3 Hr2) as (b3 & s3 & m3 & t3 & hn & E3 & Hm4 & Hb3).
    assert (splits m3 ([bytes rp (le_bytes 4 q); {[Block q := 20]}; h1; hn] ++ hs)) as Hm5 by reorder Hm4.
    apply splits_join in Hm5 as (h & Hh & Hm5). exists b3, s3, m3, t3, h. split; [exact E3|]. split; [done|].
    assert (t `suffix_of` t2) as Hs3 by by trans (true :: t).
    apply (decoded_step _ _ _ _ _ _ Hs3 Hb3). intros _ [Hr3 Hn]. split; [done|].
    exists q, h1, hn. split; [done|]. by split_and!.
Qed.

(** ** Releasing a list *)

Lemma rep_head l p h : pmaplist_rep l p h → ∃ q h', word q ∧ splits h [bytes p (le_bytes 4 q); h'].
Proof.
  destruct l as [|v l]; cbn [pmaplist_rep].
  - intros ->. exists 0, ∅. split; [unfold word; lia|]. apply splits_swap, splits_nil_l. by apply splits_one.
  - intros (q & h1 & hn & [Hq Hq2] & _ & (m' & -> & Hd & _) & _). exists q, m'. split; [unfold word; lia|].
    exists m'. split; [done|]. split; [done|]. by apply splits_one.
Qed.

(** The next pointer is read from the node that was just given back: freeing
    a list that is not empty is undefined. *)
Lemma pmaplist_free_stuck fuel v l rp m h hs s t :
  c_valid pmap_codec v → pmaplist_rep (v :: l) rp h → (1 < fuel)%nat → splits m (h :: hs) →
  xdr_pmaplist fuel rp (Xdr XDR_FREE s m t) = Stuck.
Proof.
  intros Hv (q & h1 & hn & Ha & Hr & Hh & Hn) Hfuel Hm. destruct fuel as [|[|fuel]]; [lia..|].
  destruct (rep_head _ _ _ Hn) as (next & h' & Hw & Hhn). pose proof Ha as [Hq Hq2].
  pose proof (splits_nest _ _ _ _ Hm Hh) as Hm0. unfold xdr_pmaplist. cbn [pmaplist_loop]. rewrite bind_gets. cbn [x_op].
  step_with (load_pointer rp q _ XDR_FREE s m t ltac:(unfold word; lia) Hm0). destruct (Z.eqb_spec q 0); [lia|].
  step_with (via_free xdr_bool_via _ _ bool_via_switch (mret 1 : X Z) m s t). cbn [fst snd negb from_option id].
  change (1 =? 0) with false. change (bool_decide (XDR_FREE = XDR_FREE)) with true. cbv iota.
  rewrite bind_assoc. step_with (load_pointer rp q _ XDR_FREE s m t ltac:(unfold word; lia) Hm0). rewrite bind_ret.
  assert (splits m (h1 :: bytes rp (le_bytes 4 q) :: {[Block q := 20]} :: hn :: hs)) as Hm1 by reorder Hm0.
  assert (addr_ok q (c_size pmap_codec)) as Ha1 by (unfold addr_ok in *; cbn in *; lia).
  destruct (c_free true q LASTUNSIGNED m h1 _ s t Ha1 (c_rep_part v q h1 Hv Hr) Hm1)
    as (r & m2 & t2 & bs & E2 & Hm2 & Hbs & Htrue). rewrite (Htrue eq_refl), pmap_proc in E2.
  assert (splits m2 (hn :: bytes q bs :: bytes rp (le_bytes 4 q) :: {[Block q := 20]} :: hs)) as Hm3 by reorder Hm2.
  apply (splits_nest _ _ _ _ Hm3) in Hhn. clear Hm3.
  assert (splits m2 (bytes q (bs ++ le_bytes 4 next) :: {[Block q := 20]} :: bytes rp (le_bytes 4 q) :: h' :: hs)) as Hm3.
  { apply (bytes_join q 16); [done|]. reorder Hhn. }
  assert (zlen (bs ++ le_bytes 4 next) = 20) as Hlen by (unfold zlen; rewrite length_app, Hbs; done).
  rewrite <- Hlen in Hm3. apply splits_swap, splits_block in Hm3.
  assert (block q (bs ++ le_bytes 4 next) !! Byte (pml_next q) = Some (u8 next)) as Hc.
  { unfold block. rewrite lookup_insert_ne by done. unfold pml_next. rewrite bytes_lookup, decide_True by lia.
    replace (Z.to_nat (q + 16 - q)) with (length bs + 0)%nat by (rewrite Hbs; cbn; lia). by rewrite lookup_app_r, Nat.add_sub' by lia. }
  pose proof (splits_elsewhere _ _ _ _ _ Hm3 Hc) as Helse. apply splits_swap in Hm3.
  destruct (free_at_ok rp q _ m2 _ XDR_FREE s t2 Hm3 ltac:(lia)) as (m4 & E4 & Hm4).
  assert (xdr_reference rp sizeof_pmaplist (λ p _, xdr_pmap p) (Xdr XDR_FREE s m t) = Ok true (Xdr XDR_FREE s m4 t2)) as E5.
  { unfold xdr_reference. step_with (load_pointer rp q _ XDR_FREE s m t ltac:(unfold word; lia) Hm0).
    rewrite bind_gets. cbn [x_op]. destruct (Z.eqb_spec q 0); [lia|]. cbn [andb]. unfold reference_target.
    step_with E2. rewrite bind_gets. cbn [x_op]. change (bool_decide (XDR_FREE = XDR_FREE)) with true. cbv iota.
    by step_with E4. }
  step_with E5. cbn [negb]. rewrite bind_ret. cbn [pmaplist_loop]. rewrite bind_gets. cbn [x_op].
  assert (m4 !! Byte (pml_next q) = None) as Hnone.
  { apply (splits_nowhere m4 _ _ Hm4). apply Forall_cons in Helse as [Hrp Helse]. constructor; [|done].
    rewrite bytes_lookup in Hrp |- *. case_decide; [|done]. apply lookup_ge_None in Hrp. apply lookup_ge_None.
    by rewrite length_le_bytes in *. }
  apply bind_Stuck. unfold load_ulong, load_int. apply bind_Stuck. cbn [load_bytes]. apply bind_Stuck.
  unfold load_byte. rewrite bind_gets. cbn [x_mem]. by rewrite Hnone.
Qed.
End lists.
