(* ===== verification/RpcMsg.v ===== *)
(** * RPC messages

    [uuu/lib/c/librpc/rpc_prot.c] and [authunix_prot.c]: the filters of
    authenticators, call headers and replies, and what a client makes of a
    reply.  Structures are laid out as on a machine of 32 bits with user
    identities of 16; a pointer to a procedure is looked up in a table. *)
From S2P Require Import Prelude Posix CMemory Xdr XdrMemory XdrCodec XdrScalars XdrStrings XdrAggregates.
From S2P Require Import XdrArrays XdrTypes Pmap.
Local Open Scope Z_scope.

(** ** Constants *)

Definition MAX_AUTH_BYTES : Z := 400.
Definition MAX_MACHINE_NAME : Z := 255.
Definition NGRPS : nat := 16.
Definition RPC_MSG_VERSION : Z := 2.
Definition CALL : Z := 0.
Definition REPLY : Z := 1.
Definition MSG_ACCEPTED : Z := 0.
Definition MSG_DENIED : Z := 1.
Definition SUCCESS : Z := 0.
Definition PROG_UNAVAIL : Z := 1.
Definition PROG_MISMATCH : Z := 2.
Definition PROC_UNAVAIL : Z := 3.
Definition GARBAGE_ARGS : Z := 4.
Definition SYSTEM_ERR : Z := 5.
Definition RPC_MISMATCH : Z := 0.
Definition AUTH_ERROR : Z := 1.
Definition RPC_SUCCESS : Z := 0.
Definition RPC_VERSMISMATCH : Z := 6.
Definition RPC_AUTHERROR : Z := 7.
Definition RPC_PROGUNAVAIL : Z := 8.
Definition RPC_PROGVERSMISMATCH : Z := 9.
Definition RPC_PROCUNAVAIL : Z := 10.
Definition RPC_CANTDECODEARGS : Z := 11.
Definition RPC_SYSTEMERROR : Z := 12.
Definition RPC_FAILED : Z := 16.

(** ** Offsets *)

Definition oa_flavor (ap : Z) : Z := ap.
Definition oa_base (ap : Z) : Z := ap + 4.
Definition oa_length (ap : Z) : Z := ap + 8.
Definition ar_verf (ar : Z) : Z := ar.
Definition ar_stat (ar : Z) : Z := ar + 12.
Definition ar_vers_low (ar : Z) : Z := ar + 16.
Definition ar_vers_high (ar : Z) : Z := ar + 20.
Definition ar_results_where (ar : Z) : Z := ar + 16.
Definition ar_results_proc (ar : Z) : Z := ar + 20.
Definition rj_stat (rr : Z) : Z := rr.
Definition rj_vers_low (rr : Z) : Z := rr + 4.
Definition rj_vers_high (rr : Z) : Z := rr + 8.
Definition rj_why (rr : Z) : Z := rr + 4.
Definition rm_xid (msg : Z) : Z := msg.
Definition rm_direction (msg : Z) : Z := msg + 4.
Definition rp_stat (msg : Z) : Z := msg + 8.
Definition rp_ru (msg : Z) : Z := msg + 12.
Definition cb_rpcvers (msg : Z) : Z := msg + 8.
Definition cb_prog (msg : Z) : Z := msg + 12.
Definition cb_vers (msg : Z) : Z := msg + 16.
Definition re_status (error : Z) : Z := error.
Definition re_why (error : Z) : Z := error + 4.
Definition re_vers_low (error : Z) : Z := error + 4.
Definition re_vers_high (error : Z) : Z := error + 8.
Definition re_lb_s1 (error : Z) : Z := error + 4.
Definition re_lb_s2 (error : Z) : Z := error + 8.
Definition aup_time (p : Z) : Z := p.
Definition aup_machname (p : Z) : Z := p + 4.
Definition aup_uid (p : Z) : Z := p + 8.
Definition aup_gid (p : Z) : Z := p + 10.
Definition aup_len (p : Z) : Z := p + 12.
Definition aup_gids (p : Z) : Z := p + 16.

Section filters.
Context {S : Type} `{XdrOps S} `{Allocator}.
Context (procs : Z → option (Z → Z → M (xdr_handle S) bool)).
Local Abbreviation X := (M (xdr_handle S)).

(** ** Authenticators *)

Definition xdr_opaque_auth (ap : Z) : X bool :=
  ok ← xdr_enum (oa_flavor ap);
  if (ok : bool) then xdr_bytes (oa_base ap) (oa_length ap) MAX_AUTH_BYTES else mret false.

Definition xdr_des_block (blkp : Z) : X bool := xdr_opaque blkp 8.

(** The locals [a] and [b] hold nothing until they are decoded into. *)
Definition local_int (a : option Z) : X (bool * option Z) :=
  r ← xdr_int_via (deref a);
  mret (r.1, match r.2 with Some v => Some v | None => a end).

Definition xdr_authunix_parms (p : Z) : X bool :=
  ok ← xdr_u_long (aup_time p);
  if negb ok then mret false else
  ok ← xdr_string (aup_machname p) MAX_MACHINE_NAME;
  if negb ok then mret false else
  a ← local_int None;
  if negb a.1 then mret false else
  b ← local_int None;
  if negb b.1 then mret false else
  ok ← xdr_array (aup_gids p) (aup_len p) (Z.of_nat NGRPS) sizeof_int (λ q _, xdr_int q);
  if negb ok then mret false else
  uid ← deref a.2;
  store_int 2 (aup_uid p) (u16 uid);;
  gid ← deref b.2;
  store_int 2 (aup_gid p) (u16 gid);;
  mret true.

(** ** Replies *)

Definition xdr_accepted_reply (ar : Z) : X bool :=
  ok ← xdr_opaque_auth (ar_verf ar);
  if negb ok then mret false else
  ok ← xdr_enum (ar_stat ar);
  if negb ok then mret false else
  stat ← load_long (ar_stat ar);
  if stat =? SUCCESS then
    f ← load_ulong (ar_results_proc ar);
    proc ← deref (procs f);
    where_ ← load_ulong (ar_results_where ar);
    proc where_ 0
  else if stat =? PROG_MISMATCH then
    ok ← xdr_u_long (ar_vers_low ar);
    if negb ok then mret false else
    xdr_u_long (ar_vers_high ar)
  else mret true.

Definition xdr_rejected_reply (rr : Z) : X bool :=
  ok ← xdr_enum (rj_stat rr);
  if negb ok then mret false else
  stat ← load_long (rj_stat rr);
  if stat =? RPC_MISMATCH then
    ok ← xdr_u_long (rj_vers_low rr);
    if negb ok then mret false else
    xdr_u_long (rj_vers_high rr)
  else if stat =? AUTH_ERROR then xdr_enum (rj_why rr)
  else mret false.

Definition reply_dscrm : list (Z * (Z → Z → X bool)) :=
  [(MSG_ACCEPTED, λ p _, xdr_accepted_reply p); (MSG_DENIED, λ p _, xdr_rejected_reply p)].

Definition xdr_replymsg (rmsg : Z) : X bool :=
  ok ← xdr_u_long (rm_xid rmsg);
  if negb ok then mret false else
  ok ← xdr_enum (rm_direction rmsg);
  if negb ok then mret false else
  direction ← load_long (rm_direction rmsg);
  if direction =? REPLY then xdr_union (rp_stat rmsg) (rp_ru rmsg) reply_dscrm None
  else mret false.

(** ** Call headers *)

Definition xdr_callhdr (cmsg : Z) : X bool :=
  store_int 4 (rm_direction cmsg) CALL;;
  store_int 4 (cb_rpcvers cmsg) RPC_MSG_VERSION;;
  op ← gets x_op;
  if negb (bool_decide (op = XDR_ENCODE)) then mret false else
  ok ← xdr_u_long (rm_xid cmsg);
  if negb ok then mret false else
  ok ← xdr_enum (rm_direction cmsg);
  if negb ok then mret false else
  ok ← xdr_u_long (cb_rpcvers cmsg);
  if negb ok then mret false else
  ok ← xdr_u_long (cb_prog cmsg);
  if negb ok then mret false else
  xdr_u_long (cb_vers cmsg).

(** ** What the client makes of a reply *)

Definition accepted (acpt_stat error : Z) : X unit :=
  let status v := store_int 4 (re_status error) v in
  if acpt_stat =? PROG_UNAVAIL then status RPC_PROGUNAVAIL
  else if acpt_stat =? PROG_MISMATCH then status RPC_PROGVERSMISMATCH
  else if acpt_stat =? PROC_UNAVAIL then status RPC_PROCUNAVAIL
  else if acpt_stat =? GARBAGE_ARGS then status RPC_CANTDECODEARGS
  else if acpt_stat =? SYSTEM_ERR then status RPC_SYSTEMERROR
  else if acpt_stat =? SUCCESS then status RPC_SUCCESS
  else
    status RPC_FAILED;;
    store_int 4 (re_lb_s1 error) MSG_ACCEPTED;;
    store_int 4 (re_lb_s2 error) acpt_stat.

(** The first label is a client status, not the [RPC_MISMATCH] of replies. *)
Definition rejected (rjct_stat error : Z) : X unit :=
  let status v := store_int 4 (re_status error) v in
  if rjct_stat =? RPC_VERSMISMATCH then status RPC_VERSMISMATCH
  else if rjct_stat =? AUTH_ERROR then status RPC_AUTHERROR
  else
    status RPC_FAILED;;
    store_int 4 (re_lb_s1 error) MSG_DENIED;;
    store_int 4 (re_lb_s2 error) rjct_stat.

Definition copy_long (from to : Z) : X unit := v ← load_long from; store_int 4 to v.

Definition _seterr_reply (msg error : Z) : X unit :=
  rp ← load_long (rp_stat msg);
  success ← (if rp =? MSG_ACCEPTED then
      stat ← load_long (ar_stat (rp_ru msg));
      if stat =? SUCCESS then store_int 4 (re_status error) RPC_SUCCESS;; mret true
      else accepted stat error;; mret false
    else if rp =? MSG_DENIED then
      stat ← load_long (rj_stat (rp_ru msg));
      rejected stat error;; mret false
    else
      store_int 4 (re_status error) RPC_FAILED;;
      store_int 4 (re_lb_s1 error) rp;;
      mret false);
  if (success : bool) then mret tt else
  status ← load_long (re_status error);
  if status =? RPC_VERSMISMATCH then
    copy_long (rj_vers_low (rp_ru msg)) (re_vers_low error);;
    copy_long (rj_vers_high (rp_ru msg)) (re_vers_high error)
  else if status =? RPC_AUTHERROR then
    copy_long (rj_why (rp_ru msg)) (re_why error)
  else if status =? RPC_PROGVERSMISMATCH then
    copy_long (ar_vers_low (rp_ru msg)) (re_vers_low error);;
    copy_long (ar_vers_high (rp_ru msg)) (re_vers_high error)
  else mret tt.
End filters.
