(* ===== verification/RpcReply.v ===== *)
(** * What a client learns from a reply

    A reply as a server means it, its bytes, and the status a client that
    decodes them ends with; the parameters of Unix authentication, which are
    received but cannot be sent. *)
From S2P Require Import Prelude Posix CMemory Xdr XdrMemory XdrCodec XdrScalars.
From S2P Require Import XdrStrings XdrAggregates XdrArrays XdrTypes XdrMem XdrSpec Pmap RpcMsg.
Local Open Scope Z_scope.

Definition auth_type : xtype := TPair TEnum 0 (TBytes true 400).

(** A 32-bit field. *)
Definition field (p v : Z) : mem := bytes p (le_bytes 4 v).

Section fields.
Context {S : Type} `{XdrStream S} `{Allocator}.
Implicit Types (hs : list mem) (bs : list Z) (s : S).
Local Abbreviation X := (M (xdr_handle S)).

Lemma auth_proc ap arg x : c_proc (codec_of auth_type) ap arg x = xdr_opaque_auth ap x.
Proof.
  unfold xdr_opaque_auth. cbn [auth_type codec_of pair_codec c_proc]. unfold pair_proc. apply bind_ext.
  intros [] y; [|done]. cbn [bytes_codec c_proc enum_codec int_codec c_size pointer_at count_at].
  change (ap + Z.of_nat (4 + 0)) with (ap + 4). replace (ap + 4 + 4) with (ap + 8) by lia. done.
Qed.

Lemma ulong_decode p v old m hs s t rest :
  word v → length old = 4%nat → splits m (bytes p old :: hs) → reads (be_bytes v ++ rest) s →
  ∃ s' m', xdr_u_long p (Xdr XDR_DECODE s m t) = Ok true (Xdr XDR_DECODE s' m' t) ∧
    splits m' (field p v :: hs) ∧ reads rest s'.
Proof.
  intros Hv Hl Hm Hr. unfold xdr_u_long, at_object.
  destruct (via_decode 0 (2 ^ 32) xdr_u_long_via i32 u32 u_long_via_switch send_ulong (load_ulong p) v m s t rest Hv Hr)
    as (s' & E & Hr'). step_with E. cbn [fst snd].
  destruct (store_int_ok 4 p v old hs XDR_DECODE s' m t Hm Hl) as (m' & E' & Hm'). step_with E'. by exists s', m'.
Qed.

Lemma load_any p v hs (x : xdr_handle S) : splits (x_mem x) (field p v :: hs) → load_long p x = Ok (i32 v) x.
Proof.
  intros Hm. unfold load_long. step_with (load_int_ok 4 p v hs x Hm).
  change (v mod 256 ^ Z.of_nat 4) with (u32 v). by rewrite i32_u32.
Qed.

Lemma load_field p v hs (x : xdr_handle S) :
  int32 v → splits (x_mem x) (field p v :: hs) → load_long p x = Ok v x.
Proof. apply load_long_ok. Qed.

Lemma field_i32 p v : field p (i32 v) = field p v.
Proof.
  unfold field. f_equal. rewrite <- (rev_involutive (le_bytes 4 (i32 v))), <- (rev_involutive (le_bytes 4 v)).
  f_equal. exact (be_bytes_i32 v).
Qed.

Lemma load_word p v hs (x : xdr_handle S) :
  word v → splits (x_mem x) (field p v :: hs) → load_ulong p x = Ok v x.
Proof. apply load_ulong_ok. Qed.

(** ** The error a client reports *)

Definition err (e v0 v1 v2 : Z) : list mem := [field (re_status e) v0; field (re_lb_s1 e) v1; field (re_lb_s2 e) v2].

Lemma store_field p v old m hs op s t :
  splits m (field p old :: hs) →
  ∃ m', store_int 4 p v (Xdr op s m t) = Ok tt (Xdr op s m' t) ∧ splits m' (field p v :: hs).
Proof. intros Hm. by apply (store_int_ok 4 p v _ hs op s m t Hm). Qed.

Lemma copy_field from to v old m hs op s t :
  splits m (field from v :: field to old :: hs) →
  ∃ m', copy_long from to (Xdr op s m t) = Ok tt (Xdr op s m' t) ∧ splits m' (field from v :: field to v :: hs).
Proof.
  intros Hm. unfold copy_long. step_with (load_any from v _ (Xdr op s m t) Hm). apply splits_swap in Hm.
  destruct (store_field to (i32 v) old m _ op s t Hm) as (m' & E & Hm2). exists m'. split; [done|].
  rewrite field_i32 in Hm2. by apply splits_swap.
Qed.

(** Each store to the error, whatever else there is. *)
Lemma set_status e v v0 v1 v2 m hs op s t :
  splits m (err e v0 v1 v2 ++ hs) →
  ∃ m', store_int 4 (re_status e) v (Xdr op s m t) = Ok tt (Xdr op s m' t) ∧ splits m' (err e v v1 v2 ++ hs).
Proof. apply store_field. Qed.

Lemma set_s1 e v v0 v1 v2 m hs op s t :
  splits m (err e v0 v1 v2 ++ hs) →
  ∃ m', store_int 4 (re_lb_s1 e) v (Xdr op s m t) = Ok tt (Xdr op s m' t) ∧ splits m' (err e v0 v v2 ++ hs).
Proof.
  intros Hm. assert (splits m (field (re_lb_s1 e) v1 :: field (re_status e) v0 :: field (re_lb_s2 e) v2 :: hs)) as Hm' by reorder Hm.
  destruct (store_field _ v _ _ _ op s t Hm') as (m' & E & Hm2). exists m'. split; [done|reorder Hm2].
Qed.

Lemma set_s2 e v v0 v1 v2 m hs op s t :
  splits m (err e v0 v1 v2 ++ hs) →
  ∃ m', store_int 4 (re_lb_s2 e) v (Xdr op s m t) = Ok tt (Xdr op s m' t) ∧ splits m' (err e v0 v1 v ++ hs).
Proof.
  intros Hm. assert (splits m (field (re_lb_s2 e) v2 :: field (re_status e) v0 :: field (re_lb_s1 e) v1 :: hs)) as Hm' by reorder Hm.
  destruct (store_field _ v _ _ _ op s t Hm') as (m' & E & Hm2). exists m'. split; [done|reorder Hm2].
Qed.

(** [RPC_FAILED] with the two labels. *)
Lemma set_failed e a b v0 v1 v2 m hs op s t :
  splits m (err e v0 v1 v2 ++ hs) →
  ∃ m', (store_int 4 (re_status e) RPC_FAILED;; store_int 4 (re_lb_s1 e) a;; store_int 4 (re_lb_s2 e) b) (Xdr op s m t) =
      Ok tt (Xdr op s m' t) ∧ splits m' (err e RPC_FAILED a b ++ hs).
Proof.
  intros Hm. destruct (set_status e RPC_FAILED _ _ _ m hs op s t Hm) as (m1 & E1 & Hm1).
  destruct (set_s1 e a _ _ _ m1 hs op s t Hm1) as (m2 & E2 & Hm2).
  destruct (set_s2 e b _ _ _ m2 hs op s t Hm2) as (m3 & E3 & Hm3). exists m3. step_with E1. by step_with E2.
Qed.

(** What [accepted] and [rejected] leave in the error. *)
Definition accepted_error (stat v1 v2 : Z) : Z * Z * Z :=
  if stat =? SUCCESS then (RPC_SUCCESS, v1, v2)
  else if stat =? PROG_UNAVAIL then (RPC_PROGUNAVAIL, v1, v2)
  else if stat =? PROG_MISMATCH then (RPC_PROGVERSMISMATCH, v1, v2)
  else if stat =? PROC_UNAVAIL then (RPC_PROCUNAVAIL, v1, v2)
  else if stat =? GARBAGE_ARGS then (RPC_CANTDECODEARGS, v1, v2)
  else if stat =? SYSTEM_ERR then (RPC_SYSTEMERROR, v1, v2)
  else (RPC_FAILED, MSG_ACCEPTED, stat).

Definition rejected_error (stat v1 v2 : Z) : Z * Z * Z :=
  if stat =? RPC_VERSMISMATCH then (RPC_VERSMISMATCH, v1, v2)
  else if stat =? AUTH_ERROR then (RPC_AUTHERROR, v1, v2)
  else (RPC_FAILED, MSG_DENIED, stat).

Definition err_of (e : Z) (r : Z * Z * Z) : list mem := err e r.1.1 r.1.2 r.2.

Lemma accepted_ok stat e v0 v1 v2 m hs op s t :
  splits m (err e v0 v1 v2 ++ hs) →
  ∃ m', accepted stat e (Xdr op s m t) = Ok tt (Xdr op s m' t) ∧ splits m' (err_of e (accepted_error stat v1 v2) ++ hs).
Proof.
  intros Hm. unfold accepted, accepted_error, PROG_UNAVAIL, PROG_MISMATCH, PROC_UNAVAIL, GARBAGE_ARGS, SYSTEM_ERR, SUCCESS.
  destruct (Z.eqb_spec stat 0), (Z.eqb_spec stat 1), (Z.eqb_spec stat 2), (Z.eqb_spec stat 3), (Z.eqb_spec stat 4),
    (Z.eqb_spec stat 5); try lia; first [by apply (set_status e _ v0 v1 v2)|by apply (set_failed e _ _ v0 v1 v2)].
Qed.

Lemma rejected_ok stat e v0 v1 v2 m hs op s t :
  splits m (err e v0 v1 v2 ++ hs) →
  ∃ m', rejected stat e (Xdr op s m t) = Ok tt (Xdr op s m' t) ∧ splits m' (err_of e (rejected_error stat v1 v2) ++ hs).
Proof.
  intros Hm. unfold rejected, rejected_error. repeat destruct (_ =? _);
    first [by apply (set_status e _ v0 v1 v2)|by apply (set_failed e _ _ v0 v1 v2)].
Qed.
(** The versions or the reason the reply gave follow the status. *)
Lemma copy_to_err from1 from2 e v w v0 v1 v2 m hs op s t :
  splits m (field from1 v :: field from2 w :: err e v0 v1 v2 ++ hs) →
  ∃ m', (copy_long from1 (re_vers_low e);; copy_long from2 (re_vers_high e)) (Xdr op s m t) = Ok tt (Xdr op s m' t) ∧
    splits m' (field from1 v :: field from2 w :: err e v0 v w ++ hs).
Proof.
  intros Hm.
  assert (splits m (field from1 v :: field (re_vers_low e) v1 :: field from2 w :: field (re_status e) v0 ::
    field (re_lb_s2 e) v2 :: hs)) as Hm1 by reorder Hm.
  destruct (copy_field from1 (re_vers_low e) v v1 m _ op s t Hm1) as (m1 & E1 & Hm2). step_with E1.
  assert (splits m1 (field from2 w :: field (re_vers_high e) v2 :: field from1 v :: field (re_vers_low e) v ::
    field (re_status e) v0 :: hs)) as Hm3 by reorder Hm2.
  destruct (copy_field from2 (re_vers_high e) w v2 m1 _ op s t Hm3) as (m2 & E2 & Hm4).
  exists m2. split; [done|]. reorder Hm4.
Qed.

Definition accepted_report (stat low high v1 v2 : Z) : Z * Z * Z :=
  if stat =? PROG_MISMATCH then (RPC_PROGVERSMISMATCH, low, high) else accepted_error stat v1 v2.

Lemma accepted_quiet stat v1 v2 :
  stat ≠ PROG_MISMATCH →
  0 ≤ (accepted_error stat v1 v2).1.1 < 2 ^ 31 ∧ (accepted_error stat v1 v2).1.1 ≠ RPC_VERSMISMATCH ∧
  (accepted_error stat v1 v2).1.1 ≠ RPC_AUTHERROR ∧ (accepted_error stat v1 v2).1.1 ≠ RPC_PROGVERSMISMATCH.
Proof.
  intros Hpm. unfold accepted_error. destruct (Z.eqb_spec stat PROG_MISMATCH); [done|].
  repeat destruct (stat =? _); by cbn.
Qed.

Lemma seterr_accepted p e stat low high v0 v1 v2 m hs op s t :
  int32 stat →
  splits m ([field (rp_stat p) MSG_ACCEPTED; field (ar_stat (rp_ru p)) stat; field (ar_vers_low (rp_ru p)) low;
    field (ar_vers_high (rp_ru p)) high] ++ err e v0 v1 v2 ++ hs) →
  ∃ m', _seterr_reply p e (Xdr op s m t) = Ok tt (Xdr op s m' t) ∧
    splits m' ([field (rp_stat p) MSG_ACCEPTED; field (ar_stat (rp_ru p)) stat; field (ar_vers_low (rp_ru p)) low;
    field (ar_vers_high (rp_ru p)) high] ++ err_of e (accepted_report stat low high v1 v2) ++ hs).
Proof.
  intros Hstat Hm. unfold _seterr_reply. step_with (load_field (rp_stat p) MSG_ACCEPTED _ (Xdr op s m t) ltac:(unfold int32, MSG_ACCEPTED; lia) Hm).
  change (MSG_ACCEPTED =? MSG_ACCEPTED) with true. cbv iota.
  pose proof Hm as Hms. apply splits_swap in Hms.
  rewrite bind_assoc. step_with (load_field (ar_stat (rp_ru p)) stat _ (Xdr op s m t) Hstat Hms).
  assert (splits m (err e v0 v1 v2 ++ [field (rp_stat p) MSG_ACCEPTED; field (ar_stat (rp_ru p)) stat;
    field (ar_vers_low (rp_ru p)) low; field (ar_vers_high (rp_ru p)) high] ++ hs)) as Hme by reorder Hm.
  unfold accepted_report. destruct (Z.eqb_spec stat SUCCESS) as [->|Hne].
  { destruct (set_status e RPC_SUCCESS _ _ _ m _ op s t Hme) as (m1 & E1 & Hm1). rewrite bind_assoc. step_with E1.
    rewrite bind_ret. exists m1. split; [done|]. reorder Hm1. }
  destruct (accepted_ok stat e v0 v1 v2 m _ op s t Hme) as (m1 & E1 & Hm1). rewrite bind_assoc. step_with E1. rewrite bind_ret.
  unfold err_of in Hm1.
  assert (∀ w, (accepted_error stat v1 v2).1.1 = w → load_long (re_status e) (Xdr op s m1 t) = Ok (i32 w) (Xdr op s m1 t)) as Hload.
  { intros w <-. eapply load_any. exact Hm1. }
  destruct (Z.eqb_spec stat PROG_MISMATCH) as [->|Hpm].
  - step_with (Hload RPC_PROGVERSMISMATCH eq_refl).
    assert (splits m1 (field (ar_vers_low (rp_ru p)) low :: field (ar_vers_high (rp_ru p)) high ::
      err e RPC_PROGVERSMISMATCH v1 v2 ++ field (rp_stat p) MSG_ACCEPTED :: field (ar_stat (rp_ru p)) PROG_MISMATCH :: hs))
      as Hm2 by reorder Hm1.
    destruct (copy_to_err _ _ e _ _ _ _ _ m1 _ op s t Hm2) as (m2 & E2 & Hm3). exists m2. split; [exact E2|]. reorder Hm3.
  - destruct (accepted_quiet stat v1 v2 Hpm) as (Hw & H1' & H2' & H3').
    step_with (Hload _ eq_refl). rewrite i32_small by lia.
    apply Z.eqb_neq in H1', H2', H3'. rewrite H1', H2', H3'. exists m1. split; [done|]. unfold err_of. reorder Hm1.
Qed.

(** A reply that was denied; [why] is where the low version is. *)
Definition rejected_report (stat low high v1 v2 : Z) : Z * Z * Z :=
  if stat =? RPC_VERSMISMATCH then (RPC_VERSMISMATCH, low, high)
  else if stat =? AUTH_ERROR then (RPC_AUTHERROR, low, v2)
  else (RPC_FAILED, MSG_DENIED, stat).

Lemma seterr_denied p e stat low high v0 v1 v2 m hs op s t :
  int32 stat →
  splits m ([field (rp_stat p) MSG_DENIED; field (rj_stat (rp_ru p)) stat; field (rj_vers_low (rp_ru p)) low;
    field (rj_vers_high (rp_ru p)) high] ++ err e v0 v1 v2 ++ hs) →
  ∃ m', _seterr_reply p e (Xdr op s m t) = Ok tt (Xdr op s m' t) ∧
    splits m' ([field (rp_stat p) MSG_DENIED; field (rj_stat (rp_ru p)) stat; field (rj_vers_low (rp_ru p)) low;
    field (rj_vers_high (rp_ru p)) high] ++ err_of e (rejected_report stat low high v1 v2) ++ hs).
Proof.
  intros Hstat Hm. unfold _seterr_reply. step_with (load_field (rp_stat p) MSG_DENIED _ (Xdr op s m t) ltac:(unfold int32, MSG_DENIED; lia) Hm).
  change (MSG_DENIED =? MSG_ACCEPTED) with false. change (MSG_DENIED =? MSG_DENIED) with true. cbv iota.
  pose proof Hm as Hms. apply splits_swap in Hms.
  rewrite bind_assoc. step_with (load_field (rj_stat (rp_ru p)) stat _ (Xdr op s m t) Hstat Hms).
  assert (splits m (err e v0 v1 v2 ++ [field (rp_stat p) MSG_DENIED; field (rj_stat (rp_ru p)) stat;
    field (rj_vers_low (rp_ru p)) low; field (rj_vers_high (rp_ru p)) high] ++ hs)) as Hme by reorder Hm.
  destruct (rejected_ok stat e v0 v1 v2 m _ op s t Hme) as (m1 & E1 & Hm1). rewrite bind_assoc. step_with E1. rewrite bind_ret.
  unfold err_of in Hm1.
  assert (∀ w, (rejected_error stat v1 v2).1.1 = w → load_long (re_status e) (Xdr op s m1 t) = Ok (i32 w) (Xdr op s m1 t)) as Hload.
  { intros w <-. eapply load_any. exact Hm1. }
  unfold rejected_report, rejected_error in *. destruct (Z.eqb_spec stat RPC_VERSMISMATCH) as [Hv|Hv]; [|destruct (Z.eqb_spec stat AUTH_ERROR) as [Hs|Hs]].
  - step_with (Hload RPC_VERSMISMATCH eq_refl).
    assert (splits m1 (field (rj_vers_low (rp_ru p)) low :: field (rj_vers_high (rp_ru p)) high ::
      err e RPC_VERSMISMATCH v1 v2 ++ field (rp_stat p) MSG_DENIED :: field (rj_stat (rp_ru p)) stat :: hs)) as Hm2 by reorder Hm1.
    destruct (copy_to_err _ _ e _ _ _ _ _ m1 _ op s t Hm2) as (m2 & E2 & Hm3). exists m2. split; [exact E2|]. reorder Hm3.
  - step_with (Hload RPC_AUTHERROR eq_refl).
    assert (splits m1 (field (rj_why (rp_ru p)) low :: field (re_why e) v1 :: field (re_status e) RPC_AUTHERROR ::
      field (re_lb_s2 e) v2 :: field (rp_stat p) MSG_DENIED :: field (rj_stat (rp_ru p)) stat ::
      field (rj_vers_high (rp_ru p)) high :: hs)) as Hm2 by reorder Hm1.
    destruct (copy_field _ (re_why e) low v1 m1 _ op s t Hm2) as (m2 & E2 & Hm3). exists m2. split; [exact E2|]. reorder Hm3.
  - step_with (Hload RPC_FAILED eq_refl). exists m1. split; [done|]. unfold err_of. reorder Hm1.
Qed.
End fields.

(** * Replies received

    A server's replies as data, and what a client has after decoding one into
    a fresh message and asking for the error. *)

Inductive accepted_body (V : Type) : Type :=
| Results (v : V)
| Versions (low high : Z)
| Problem (stat : Z).
Arguments Results {V} _.
Arguments Versions {V} _ _.
Arguments Problem {V} _.

Inductive reply (V : Type) : Type :=
| Accepted (flavor : Z) (verf : list Z) (body : accepted_body V)
| Mismatch (low high : Z)
| AuthError (why : Z).
Arguments Accepted {V} _ _ _.
Arguments Mismatch {V} _ _.
Arguments AuthError {V} _.

Definition body_stat {V} (b : accepted_body V) : Z :=
  match b with Results _ => SUCCESS | Versions _ _ => PROG_MISMATCH | Problem stat => stat end.

Section reply.
Context {S : Type} `{XdrStream S} `{Allocator}.
Implicit Types (hs : list mem) (bs : list Z) (s : S).
Context (c : codec (S:=S)) `{!CodecOk c} (procs : Z → option (Z → Z → M (xdr_handle S) bool)).
Context (where_ pf : Z) (Hwhere : addr_ok where_ (c_size c)) (Hpf : word pf) (Hproc : procs pf = Some (c_proc c)).

#[local] Instance auth_codec_ok : CodecOk (codec_of (S:=S) auth_type).
Proof. by apply codec_of_ok. Qed.

Definition body_enc (b : accepted_body (c_val c)) : list Z :=
  be_bytes (body_stat b) ++
  match b with Results v => c_enc c v | Versions low high => be_bytes low ++ be_bytes high | Problem _ => [] end.

Definition body_valid (b : accepted_body (c_val c)) : Prop :=
  match b with
  | Results v => c_valid c v
  | Versions low high => word low ∧ word high
  | Problem stat => int32 stat ∧ stat ≠ SUCCESS ∧ stat ≠ PROG_MISMATCH
  end.

(** What the fields of [ar_results] and the object they point to become. *)
Definition body_rep (b : accepted_body (c_val c)) (low high : Z) (hres : mem) : Prop :=
  match b with
  | Results v => low = where_ ∧ high = pf ∧ c_rep c v where_ hres
  | Versions l h => low = l ∧ high = h ∧ hres = bytes where_ (zeros (c_size c))
  | Problem _ => low = where_ ∧ high = pf ∧ hres = bytes where_ (zeros (c_size c))
  end.

Definition accepted_space (ar : Z) : list mem :=
  [bytes ar (zeros 12); bytes (ar_stat ar) (zeros 4); field (ar_results_where ar) where_;
   field (ar_results_proc ar) pf; bytes where_ (zeros (c_size c))].

Definition accepted_at (ar stat : Z) (ha : mem) (low high : Z) (hres : mem) : list mem :=
  [ha; field (ar_stat ar) stat; field (ar_vers_low ar) low; field (ar_vers_high ar) high; hres].

Lemma body_decode b ar ha m hs s t rest :
  body_valid b → splits m (accepted_at ar (body_stat b) ha where_ pf (bytes where_ (zeros (c_size c))) ++ hs) →
  reads (match b with Results v => c_enc c v | Versions low high => be_bytes low ++ be_bytes high | Problem _ => [] end ++ rest) s →
  ∃ ok s' m' t' low high hres,
    (stat ← load_long (ar_stat ar);
     if stat =? SUCCESS then
       f ← load_ulong (ar_results_proc ar);
       proc ← deref (procs f);
       w ← load_ulong (ar_results_where ar);
       proc w 0
     else if stat =? PROG_MISMATCH then
       ok ← xdr_u_long (ar_vers_low ar);
       if negb ok then mret false else xdr_u_long (ar_vers_high ar)
     else mret true) (Xdr XDR_DECODE s m t) = Ok ok (Xdr XDR_DECODE s' m' t') ∧
    splits m' (accepted_at ar (body_stat b) ha low high hres ++ hs) ∧
    decoded ok t t' (reads rest s' ∧ body_rep b low high hres).
Proof.
  intros Hv Hm Hr. pose proof Hwhere as [Hw1 Hw2]. pose proof Hm as Hms. apply splits_swap in Hms.
  assert (int32 (body_stat b)) as Hstat.
  { destruct b; [unfold int32, body_stat, SUCCESS; lia|unfold int32, body_stat, PROG_MISMATCH; lia|apply Hv]. }
  step_with (load_field (ar_stat ar) _ _ (Xdr XDR_DECODE s m t) Hstat Hms). clear Hms.
  destruct b as [v|low high|stat]; cbn [body_stat body_valid body_rep] in *.
  - change (SUCCESS =? SUCCESS) with true. cbv iota.
    assert (splits m (field (ar_results_proc ar) pf :: field (ar_results_where ar) where_ :: bytes where_ (zeros (c_size c)) ::
      ha :: field (ar_stat ar) SUCCESS :: hs)) as Hm1 by reorder Hm.
    step_with (load_word _ pf _ (Xdr XDR_DECODE s m t) Hpf Hm1). rewrite Hproc, bind_deref. apply splits_swap in Hm1.
    step_with (load_word _ where_ _ (Xdr XDR_DECODE s m t) ltac:(unfold word; lia) Hm1).
    assert (splits m (bytes where_ (zeros (c_size c)) :: field (ar_results_where ar) where_ :: field (ar_results_proc ar) pf ::
      ha :: field (ar_stat ar) SUCCESS :: hs)) as Hm2 by reorder Hm1.
    destruct (c_decode v where_ 0 m _ s t rest Hwhere Hv Hm2 Hr) as (ok & s' & m' & t' & hres & E & Hm' & Hb).
    exists ok, s', m', t', where_, pf, hres. split; [exact E|]. split; [reorder Hm'|].
    apply (decoded_impl _ _ _ _ _ Hb). by intros _ [].
  - change (PROG_MISMATCH =? SUCCESS) with false. change (PROG_MISMATCH =? PROG_MISMATCH) with true. cbv iota.
    destruct Hv as [Hl Hh]. rewrite <- app_assoc in Hr.
    assert (splits m (field (ar_vers_low ar) where_ :: field (ar_vers_high ar) pf :: bytes where_ (zeros (c_size c)) ::
      ha :: field (ar_stat ar) PROG_MISMATCH :: hs)) as Hm1 by reorder Hm.
    destruct (ulong_decode (ar_vers_low ar) low _ m _ s t _ Hl (length_le_bytes _ _) Hm1 Hr) as (s1 & m1 & E1 & Hm2 & Hr1).
    step_with E1. cbn [negb]. apply splits_swap in Hm2.
    destruct (ulong_decode (ar_vers_high ar) high _ m1 _ s1 t _ Hh (length_le_bytes _ _) Hm2 Hr1) as (s2 & m2 & E2 & Hm3 & Hr2).
    exists true, s2, m2, t, low, high, (bytes where_ (zeros (c_size c))). split; [exact E2|]. split; [reorder Hm3|].
    by apply decoded_same.
  - destruct Hv as (_ & Hne1 & Hne2). destruct (Z.eqb_spec stat SUCCESS); [done|]. destruct (Z.eqb_spec stat PROG_MISMATCH); [done|].
    exists true, s, m, t, where_, pf, (bytes where_ (zeros (c_size c))). split; [done|]. split; [done|]. by apply decoded_same.
Qed.

Lemma accepted_decode flavor verf b ar m hs s t rest :
  addr_ok ar 24 → int32 flavor → zlen verf ≤ 400 → body_valid b → splits m (accepted_space ar ++ hs) →
  reads (be_bytes flavor ++ (be_bytes (zlen verf) ++ padded verf) ++ body_enc b ++ rest) s →
  ∃ ok s' m' t' h, xdr_accepted_reply procs ar (Xdr XDR_DECODE s m t) = Ok ok (Xdr XDR_DECODE s' m' t') ∧
    splits m' (h :: hs) ∧ decoded ok t t' (reads rest s' ∧
      ∃ ha low high hres, splits h (accepted_at ar (body_stat b) ha low high hres) ∧
        c_rep (codec_of auth_type) (flavor, verf) ar ha ∧ body_rep b low high hres).
Proof.
  intros Ha Hf Hl Hv Hm Hr. unfold xdr_accepted_reply.
  assert (addr_ok ar (c_size (codec_of (S:=S) auth_type))) as Ha1 by (unfold addr_ok in *; cbn; lia).
  rewrite (app_assoc (be_bytes flavor)) in Hr.
  destruct (c_decode (c:=codec_of auth_type) (flavor, verf) ar 0 m _ s t _ Ha1 (conj Hf Hl) Hm Hr)
    as (ok1 & s1 & m1 & t1 & ha & E1 & Hm1 & Hb1). rewrite auth_proc in E1. step_with E1.
  destruct ok1; cbn [negb]; cycle 1.
  { apply (splits_join m1 hs [_; _; _; _; _]) in Hm1 as (h & _ & Hm1). exists false, s1, m1, t1, h.
    split_and!; [done..|]. by apply (decoded_impl _ _ _ _ _ Hb1). }
  destruct Hb1 as (Hs1 & Hr1 & Hrep). unfold body_enc in Hr1. rewrite <- app_assoc in Hr1.
  assert (int32 (body_stat b)) as Hstat.
  { destruct b; [unfold int32, body_stat, SUCCESS; lia|unfold int32, body_stat, PROG_MISMATCH; lia|apply Hv]. }
  apply splits_swap in Hm1. destruct (enum_decode (body_stat b) _ m1 _ s1 t1 _ Hstat Hm1 Hr1) as (s2 & m2 & E2 & Hm2 & Hr2).
  step_with E2. cbn [negb]. apply splits_swap in Hm2.
  destruct (body_decode b ar ha m2 hs s2 t1 rest Hv Hm2 Hr2) as (ok & s3 & m3 & t3 & low & high & hres & E3 & Hm3 & Hb3).
  apply splits_join in Hm3 as (h & Hh & Hm3). exists ok, s3, m3, t3, h. split; [exact E3|]. split; [done|].
  apply (decoded_step _ _ _ _ _ _ Hs1 Hb3). intros _ [Hr3 Hbody]. split; [done|]. by exists ha, low, high, hres.
Qed.

(** ** Denied replies *)

Definition rejected_at (rr stat low high : Z) : list mem :=
  [field (rj_stat rr) stat; field (rj_vers_low rr) low; field (rj_vers_high rr) high].

Lemma rejected_space rr m hs :
  splits m (bytes rr (zeros 12) :: hs) → splits m (rejected_at rr 0 0 0 ++ hs).
Proof.
  intros Hm. apply (zeros_two rr 4 8) in Hm. apply splits_swap, (zeros_two _ 4 4) in Hm.
  replace (rr + Z.of_nat 4 + Z.of_nat 4) with (rr + 8) in Hm by lia. reorder Hm.
Qed.

Lemma mismatch_decode low high rr m hs s t rest :
  word low → word high → splits m (bytes rr (zeros 12) :: hs) →
  reads (be_bytes RPC_MISMATCH ++ be_bytes low ++ be_bytes high ++ rest) s →
  ∃ s' m', xdr_rejected_reply rr (Xdr XDR_DECODE s m t) = Ok true (Xdr XDR_DECODE s' m' t) ∧
    splits m' (rejected_at rr RPC_MISMATCH low high ++ hs) ∧ reads rest s'.
Proof.
  intros Hl Hh Hm%rejected_space Hr. unfold xdr_rejected_reply.
  assert (int32 RPC_MISMATCH) as Hs by (unfold int32, RPC_MISMATCH; lia).
  destruct (enum_decode RPC_MISMATCH rr m _ s t _ Hs Hm Hr) as (s1 & m1 & E1 & Hm1 & Hr1). step_with E1. cbn [negb].
  step_with (load_field (rj_stat rr) RPC_MISMATCH _ (Xdr XDR_DECODE s1 m1 t) Hs Hm1).
  change (RPC_MISMATCH =? RPC_MISMATCH) with true. cbv iota. apply splits_swap in Hm1.
  destruct (ulong_decode (rj_vers_low rr) low _ m1 _ s1 t _ Hl (length_le_bytes _ _) Hm1 Hr1) as (s2 & m2 & E2 & Hm2 & Hr2).
  step_with E2. cbn [negb].
  assert (splits m2 (field (rj_vers_high rr) 0 :: field (rj_stat rr) RPC_MISMATCH :: field (rj_vers_low rr) low :: hs)) as Hm3
    by reorder Hm2.
  destruct (ulong_decode (rj_vers_high rr) high _ m2 _ s2 t _ Hh (length_le_bytes _ _) Hm3 Hr2) as (s3 & m3 & E3 & Hm4 & Hr3).
  exists s3, m3. split; [exact E3|]. split; [reorder Hm4|done].
Qed.

Lemma auth_error_decode why rr m hs s t rest :
  int32 why → splits m (bytes rr (zeros 12) :: hs) → reads (be_bytes AUTH_ERROR ++ be_bytes why ++ rest) s →
  ∃ s' m', xdr_rejected_reply rr (Xdr XDR_DECODE s m t) = Ok true (Xdr XDR_DECODE s' m' t) ∧
    splits m' (rejected_at rr AUTH_ERROR why 0 ++ hs) ∧ reads rest s'.
Proof.
  intros Hw Hm%rejected_space Hr. unfold xdr_rejected_reply.
  assert (int32 AUTH_ERROR) as Hs by (unfold int32, AUTH_ERROR; lia).
  destruct (enum_decode AUTH_ERROR rr m _ s t _ Hs Hm Hr) as (s1 & m1 & E1 & Hm1 & Hr1). step_with E1. cbn [negb].
  step_with (load_field (rj_stat rr) AUTH_ERROR _ (Xdr XDR_DECODE s1 m1 t) Hs Hm1).
  change (AUTH_ERROR =? RPC_MISMATCH) with false. change (AUTH_ERROR =? AUTH_ERROR) with true. cbv iota. apply splits_swap in Hm1.
  destruct (enum_decode why (rj_why rr) m1 _ s1 t _ Hw Hm1 Hr1) as (s2 & m2 & E2 & Hm2 & Hr2).
  exists s2, m2. split; [exact E2|]. split; [reorder Hm2|done].
Qed.

(** ** The whole message *)

Definition reply_enc (xid : Z) (r : reply (c_val c)) : list Z :=
  be_bytes xid ++ be_bytes REPLY ++
  match r with
  | Accepted flavor verf b => be_bytes MSG_ACCEPTED ++ be_bytes flavor ++ (be_bytes (zlen verf) ++ padded verf) ++ body_enc b
  | Mismatch low high => be_bytes MSG_DENIED ++ be_bytes RPC_MISMATCH ++ be_bytes low ++ be_bytes high
  | AuthError why => be_bytes MSG_DENIED ++ be_bytes AUTH_ERROR ++ be_bytes why
  end.

Definition reply_valid (r : reply (c_val c)) : Prop :=
  match r with
  | Accepted flavor verf b => int32 flavor ∧ zlen verf ≤ 400 ∧ body_valid b
  | Mismatch low high => word low ∧ word high
  | AuthError why => int32 why
  end.

(** A fresh message, as a client prepares it for results at [where_]. *)
Definition reply_space (p : Z) : list mem :=
  [bytes (rm_xid p) (zeros 4); bytes (rm_direction p) (zeros 4); bytes (rp_stat p) (zeros 4)] ++ accepted_space (rp_ru p).

(** The body of the message, with the object for the results. *)
Definition reply_at (p : Z) (r : reply (c_val c)) (h : mem) : Prop :=
  match r with
  | Accepted flavor verf b => ∃ ha low high hres, splits h (accepted_at (rp_ru p) (body_stat b) ha low high hres) ∧
      c_rep (codec_of (S:=S) auth_type) (flavor, verf) (rp_ru p) ha ∧ body_rep b low high hres
  | Mismatch low high => ∃ h', splits h (rejected_at (rp_ru p) RPC_MISMATCH low high ++ [h'])
  | AuthError why => ∃ h', splits h (rejected_at (rp_ru p) AUTH_ERROR why 0 ++ [h'])
  end.

Definition reply_arm (r : reply (c_val c)) : Z := match r with Accepted _ _ _ => MSG_ACCEPTED | _ => MSG_DENIED end.

Lemma denied_rest p m hs :
  splits m (accepted_space (rp_ru p) ++ hs) →
  ∃ h', splits m (bytes (rp_ru p) (zeros 12) :: h' :: hs).
Proof.
  intros Hm. assert (splits m ([bytes (ar_stat (rp_ru p)) (zeros 4); field (ar_results_where (rp_ru p)) where_;
    field (ar_results_proc (rp_ru p)) pf; bytes where_ (zeros (c_size c))] ++ bytes (rp_ru p) (zeros 12) :: hs)) as Hm' by reorder Hm.
  apply splits_join in Hm' as (h' & _ & Hm'). exists h'. by apply splits_swap.
Qed.

Definition body_of (r : reply (c_val c)) : list Z :=
  match r with
  | Accepted flavor verf b => be_bytes flavor ++ (be_bytes (zlen verf) ++ padded verf) ++ body_enc b
  | Mismatch low high => be_bytes RPC_MISMATCH ++ be_bytes low ++ be_bytes high
  | AuthError why => be_bytes AUTH_ERROR ++ be_bytes why
  end.

Lemma reply_body_decode r p m hs s t rest :
  addr_ok (rp_ru p) 24 → reply_valid r → splits m (accepted_space (rp_ru p) ++ hs) → reads (body_of r ++ rest) s →
  ∃ ok s' m' t' h,
    (match r with Accepted _ _ _ => xdr_accepted_reply procs (rp_ru p) | _ => xdr_rejected_reply (rp_ru p) end)
      (Xdr XDR_DECODE s m t) = Ok ok (Xdr XDR_DECODE s' m' t') ∧
    splits m' (h :: hs) ∧ decoded ok t t' (reads rest s' ∧ reply_at p r h).
Proof.
  intros Ha Hv Hm Hr. destruct r as [flavor verf b|low high|why]; cbn [body_of reply_valid reply_at] in *; rewrite <- !app_assoc in Hr.
  - rewrite (app_assoc (be_bytes (zlen verf))) in Hr. destruct Hv as (Hf & Hl & Hv).
    by apply (accepted_decode flavor verf b (rp_ru p) m hs s t rest).
  - destruct (denied_rest p m hs Hm) as (h' & Hm'). destruct Hv as [Hl Hh].
    destruct (mismatch_decode low high (rp_ru p) m _ s t rest Hl Hh Hm' Hr) as (s' & m' & E & Hm2 & Hr2).
    assert (splits m' ((rejected_at (rp_ru p) RPC_MISMATCH low high ++ [h']) ++ hs)) as Hm3 by reorder Hm2.
    apply splits_join in Hm3 as (h & Hh3 & Hm3). exists true, s', m', t, h. split; [done|]. split; [done|].
    apply decoded_same; [done|]. split; [done|]. by exists h'.
  - destruct (denied_rest p m hs Hm) as (h' & Hm').
    destruct (auth_error_decode why (rp_ru p) m _ s t rest Hv Hm' Hr) as (s' & m' & E & Hm2 & Hr2).
    assert (splits m' ((rejected_at (rp_ru p) AUTH_ERROR why 0 ++ [h']) ++ hs)) as Hm3 by reorder Hm2.
    apply splits_join in Hm3 as (h & Hh3 & Hm3). exists true, s', m', t, h. split; [done|]. split; [done|].
    apply decoded_same; [done|]. split; [done|]. by exists h'.
Qed.

Lemma replymsg_decode xid r p m hs s t rest :
  addr_ok (rp_ru p) 24 → word xid → reply_valid r → splits m (reply_space p ++ hs) → reads (reply_enc xid r ++ rest) s →
  ∃ ok s' m' t' h, xdr_replymsg procs p (Xdr XDR_DECODE s m t) = Ok ok (Xdr XDR_DECODE s' m' t') ∧
    splits m' ([field (rm_xid p) xid; field (rm_direction p) REPLY; field (rp_stat p) (reply_arm r); h] ++ hs) ∧
    decoded ok t t' (reads rest s' ∧ reply_at p r h).
Proof.
  intros Ha Hx Hv Hm Hr. unfold xdr_replymsg.
  assert (reply_enc xid r ++ rest = be_bytes xid ++ be_bytes REPLY ++ be_bytes (reply_arm r) ++ body_of r ++ rest) as Henc.
  { unfold reply_enc. by destruct r; cbn [reply_arm body_of]; rewrite <- !app_assoc. }
  rewrite Henc in Hr. clear Henc.
  destruct (ulong_decode (rm_xid p) xid _ m _ s t _ Hx (length_replicate _ _) Hm Hr) as (s1 & m1 & E1 & Hm1 & Hr1).
  step_with E1. cbn [negb]. apply splits_swap in Hm1.
  assert (int32 REPLY) as Hrep by (unfold int32, REPLY; lia).
  destruct (enum_decode REPLY (rm_direction p) m1 _ s1 t _ Hrep Hm1 Hr1) as (s2 & m2 & E2 & Hm2 & Hr2). step_with E2. cbn [negb].
  step_with (load_field (rm_direction p) REPLY _ (Xdr XDR_DECODE s2 m2 t) Hrep Hm2). change (REPLY =? REPLY) with true. cbv iota.
  assert (splits m2 (bytes (rp_stat p) (zeros 4) :: field (rm_xid p) xid :: field (rm_direction p) REPLY ::
    accepted_space (rp_ru p) ++ hs)) as Hm2' by reorder Hm2.
  assert (int32 (reply_arm r)) as Harm by (unfold int32, reply_arm, MSG_ACCEPTED, MSG_DENIED; destruct r; lia).
  destruct (enum_decode (reply_arm r) (rp_stat p) m2 _ s2 t _ Harm Hm2' Hr2) as (s3 & m3 & E3 & Hm3 & Hr3).
  unfold xdr_union. step_with E3. cbn [negb].
  step_with (load_field (rp_stat p) (reply_arm r) _ (Xdr XDR_DECODE s3 m3 t) Harm Hm3).
  assert (splits m3 (accepted_space (rp_ru p) ++ [field (rm_xid p) xid; field (rm_direction p) REPLY;
    field (rp_stat p) (reply_arm r)] ++ hs)) as Hm4 by reorder Hm3.
  destruct (reply_body_decode r p m3 _ s3 t rest Ha Hv Hm4 Hr3) as (ok & s4 & m4 & t4 & h & E4 & Hm5 & Hb).
  exists ok, s4, m4, t4, h. split; [|split; [reorder Hm5|done]]. by destruct r.
Qed.

(** ** What is reported *)

(** Status and the two words behind it, which keep [v1] and [v2] where the
    code does not set them. *)
Definition report (r : reply (c_val c)) (v1 v2 : Z) : Z * Z * Z :=
  match r with
  | Accepted _ _ (Results _) => (RPC_SUCCESS, v1, v2)
  | Accepted _ _ (Versions low high) => (RPC_PROGVERSMISMATCH, low, high)
  | Accepted _ _ (Problem stat) => accepted_error stat v1 v2
  | Mismatch _ _ => (RPC_FAILED, MSG_DENIED, RPC_MISMATCH)
  | AuthError why => (RPC_AUTHERROR, why, v2)
  end.

Lemma seterr_reply r p h e v0 v1 v2 m hs op s t :
  reply_valid r → reply_at p r h → splits m (field (rp_stat p) (reply_arm r) :: h :: err e v0 v1 v2 ++ hs) →
  ∃ m', _seterr_reply p e (Xdr op s m t) = Ok tt (Xdr op s m' t) ∧
    splits m' (field (rp_stat p) (reply_arm r) :: h :: err_of e (report r v1 v2) ++ hs).
Proof.
  intros Hv Hat Hm. apply splits_swap in Hm.
  assert (∀ m' ks k, splits h ks → splits m' (ks ++ k :: err_of e (report r v1 v2) ++ hs) →
    splits m' (k :: h :: err_of e (report r v1 v2) ++ hs)) as Hback.
  { intros m' ks k Hh Hm'. apply splits_swap. by apply (splits_rejoin _ _ _ _ Hh). }
  destruct r as [flavor verf b|low high|why]; cbn [reply_at reply_arm report reply_valid] in *.
  - destruct Hat as (ha & l & g & hres & Hh & _ & Hb). pose proof (splits_nest _ _ _ _ Hm Hh) as Hm1.
    assert (int32 (body_stat b)) as Hstat.
    { destruct b; [unfold int32, body_stat, SUCCESS; lia|unfold int32, body_stat, PROG_MISMATCH; lia|apply Hv]. }
    assert (splits m ([field (rp_stat p) MSG_ACCEPTED; field (ar_stat (rp_ru p)) (body_stat b); field (ar_vers_low (rp_ru p)) l;
      field (ar_vers_high (rp_ru p)) g] ++ err e v0 v1 v2 ++ ha :: hres :: hs)) as Hm2 by reorder Hm1.
    destruct (seterr_accepted p e _ l g v0 v1 v2 m _ op s t Hstat Hm2) as (m' & E & Hm3). exists m'. split; [done|].
    apply (Hback m' _ _ Hh).
    assert (accepted_report (body_stat b) l g v1 v2 =
      match b with Results _ => (RPC_SUCCESS, v1, v2) | Versions low high => (RPC_PROGVERSMISMATCH, low, high)
      | Problem stat => accepted_error stat v1 v2 end) as <-; [|reorder Hm3].
    destruct b; cbn in *; [done|by destruct Hb as (-> & -> & _)|]. unfold accepted_report.
    destruct (Z.eqb_spec stat PROG_MISMATCH); [by destruct Hv as (_ & _ & _ & _ & ?)|done].
  - destruct Hat as (h' & Hh). pose proof (splits_nest _ _ _ _ Hm Hh) as Hm1.
    assert (splits m ([field (rp_stat p) MSG_DENIED; field (rj_stat (rp_ru p)) RPC_MISMATCH; field (rj_vers_low (rp_ru p)) low;
      field (rj_vers_high (rp_ru p)) high] ++ err e v0 v1 v2 ++ h' :: hs)) as Hm2 by reorder Hm1.
    destruct (seterr_denied p e RPC_MISMATCH low high v0 v1 v2 m _ op s t ltac:(unfold int32, RPC_MISMATCH; lia) Hm2) as (m' & E & Hm3).
    exists m'. split; [done|]. apply (Hback m' _ _ Hh). reorder Hm3.
  - destruct Hat as (h' & Hh). pose proof (splits_nest _ _ _ _ Hm Hh) as Hm1.
    assert (splits m ([field (rp_stat p) MSG_DENIED; field (rj_stat (rp_ru p)) AUTH_ERROR; field (rj_vers_low (rp_ru p)) why;
      field (rj_vers_high (rp_ru p)) 0] ++ err e v0 v1 v2 ++ h' :: hs)) as Hm2 by reorder Hm1.
    destruct (seterr_denied p e AUTH_ERROR why 0 v0 v1 v2 m _ op s t ltac:(unfold int32, AUTH_ERROR; lia) Hm2) as (m' & E & Hm3).
    exists m'. split; [done|]. apply (Hback m' _ _ Hh). reorder Hm3.
Qed.
End reply.
