(* ===== verification/RpcSpec.v ===== *)
(** * Replies, lists of mappings and Unix credentials

    The properties of the RPC message filters and of the port mapper's list. *)
From S2P Require Import Prelude Posix CMemory Xdr XdrMemory XdrCodec XdrScalars XdrStrings XdrAggregates.
From S2P Require Import XdrArrays XdrTypes XdrMem XdrSpec Pmap RpcMsg RpcReply.
Local Open Scope Z_scope.

(** C40: A client that decodes the bytes of any reply of the protocol into a fresh
    message has, unless an allocation was refused, the reply: the results at
    the address it gave when they are ones, and [_seterr_reply] reports the
    status with the versions or the reason.  A version mismatch is the one
    reply the report does not name: it comes out as [RPC_FAILED]. *)
Theorem reply_reported {S} `{XdrStream S, Allocator} (c : codec (S:=S)) procs where_ pf xid r p e v0 v1 v2 m hs (s : S) t rest :
  CodecOk c → addr_ok where_ (c_size c) → word pf → procs pf = Some (c_proc c) →
  addr_ok (rp_ru p) 24 → word xid → reply_valid c r →
  splits m (reply_space c where_ pf p ++ err e v0 v1 v2 ++ hs) → reads (reply_enc c xid r ++ rest) s →
  ∃ ok s' m' t' h, xdr_replymsg procs p (Xdr XDR_DECODE s m t) = Ok ok (Xdr XDR_DECODE s' m' t') ∧
    splits m' ([field (rm_xid p) xid; field (rm_direction p) REPLY; field (rp_stat p) (reply_arm c r); h] ++
      err e v0 v1 v2 ++ hs) ∧
    decoded ok t t' (reads rest s' ∧ reply_at c where_ pf p r h ∧
      ∃ m'', _seterr_reply p e (Xdr XDR_DECODE s' m' t') = Ok tt (Xdr XDR_DECODE s' m'' t') ∧
        splits m'' ([field (rm_xid p) xid; field (rm_direction p) REPLY; field (rp_stat p) (reply_arm c r); h] ++
          err_of e (report c r v1 v2) ++ hs)).
Proof.
  intros Hok Hw Hpf Hproc Hp Hx Hv Hm Hr.
  destruct (replymsg_decode c procs where_ pf Hw Hpf Hproc xid r p m _ s t rest Hp Hx Hv Hm Hr)
    as (ok & s' & m' & t' & h & E & Hm' & Hb).
  exists ok, s', m', t', h. split; [done|]. split; [done|]. apply (decoded_impl _ _ _ _ _ Hb). intros _ [Hr' Hat].
  split; [done|]. split; [done|].
  assert (splits m' (field (rp_stat p) (reply_arm c r) :: h :: err e v0 v1 v2 ++ field (rm_xid p) xid ::
    field (rm_direction p) REPLY :: hs)) as Hm2 by reorder Hm'.
  destruct (seterr_reply c where_ pf r p h e v0 v1 v2 m' _ XDR_DECODE s' t' Hv Hat Hm2) as (m'' & E2 & Hm3).
  exists m''. split; [done|]. reorder Hm3.
Qed.

(** ** Lists of mappings *)

(** A list of mappings, sent element by element by the loop of
    [xdr_pmaplist], is received as a list of the same mappings in fresh nodes,
    and what is sent is the recursive type a list is: before each element
    that more follows, at the end that none does. *)
Theorem pmaplist_roundtrip `{Allocator} (l : list (c_val (pmap_codec (S:=xdrmem)))) rp1 h1 m1 hs1 a1 base1 buffer rp2 m2 hs2 a2 base2 :
  Forall (c_valid pmap_codec) l → pmaplist_rep l rp1 h1 → splits m1 (h1 :: hs1) →
  0 ≤ base1 → base1 + zlen buffer < 2 ^ 32 → (length (pmaplist_enc l) ≤ length buffer)%nat →
  splits m2 (bytes rp2 (le_bytes 4 0) :: hs2) → 0 ≤ base2 → base2 + zlen (pmaplist_enc l) < 2 ^ 32 →
  ∃ s1 m1' a1',
    xdr_pmaplist (length l + 1) rp1 (Xdr XDR_ENCODE (xdrmem_create base1 buffer (zlen buffer)) m1 a1) =
      Ok true (Xdr XDR_ENCODE s1 m1' a1') ∧ splits m1' (h1 :: hs1) ∧ message s1 = pmaplist_enc l ∧
    ∃ b s2 m2' a2' h2,
      xdr_pmaplist (length l + 1) rp2 (Xdr XDR_DECODE (xdrmem_create base2 (message s1) (zlen (message s1))) m2 a2) =
        Ok b (Xdr XDR_DECODE s2 m2' a2') ∧ splits m2' (h2 :: hs2) ∧ decoded b a2 a2' (pmaplist_rep l rp2 h2).
Proof.
  intros Hv Hrep Hm1 Hb1 Hl1 Hroom Hm2 Hb2 Hl2.
  destruct (pmaplist_encode l (length l + 1) rp1 m1 h1 hs1 (xdrmem_create base1 buffer (zlen buffer)) a1 [] 0 Hv Hrep
    ltac:(lia) Hm1) as (s1 & m1' & a1' & E1 & Hm1' & Hw); [apply mem_create_writes; [done|done|lia]|].
  exists s1, m1', a1'. split; [done|]. split; [done|]. assert (message s1 = pmaplist_enc l) as Hmsg by by apply (message_out s1 _ 0).
  split; [done|]. rewrite Hmsg.
  destruct (pmaplist_decode l (length l + 1) rp2 m2 hs2 (xdrmem_create base2 (pmaplist_enc l) (zlen (pmaplist_enc l))) a2 []
    Hv ltac:(lia) Hm2) as (b & s2 & m2' & a2' & h2 & E2 & Hm2' & Hb); [rewrite app_nil_r; by apply mem_create_reads|].
  exists b, s2, m2', a2', h2. split; [done|]. split; [done|]. by apply (decoded_impl _ _ _ _ _ Hb); intros _ [].
Qed.

(** ** Unix credentials *)

Record authunix : Type := Authunix {
  au_time : Z;
  au_name : list Z;
  au_uid : Z;
  au_gid : Z;
  au_gids : list Z
}.

Section authunix.
Context {S : Type} `{XdrStream S} `{Allocator}.
Implicit Types (hs : list mem) (bs : list Z) (s : S) (a : authunix).
Local Abbreviation X := (M (xdr_handle S)).

Definition gids_codec : codec (S:=S) := array_codec int32_codec false NGRPS.
Definition name_codec : codec (S:=S) := string_codec 255.

#[local] Instance gids_codec_ok : CodecOk gids_codec.
Proof. apply array_codec_ok; [apply _|vm_compute; done..]. Qed.
#[local] Instance name_codec_ok : CodecOk name_codec.
Proof. apply string_codec_ok. lia. Qed.

Definition authunix_valid a : Prop :=
  word (au_time a) ∧ c_valid name_codec (au_name a) ∧ int32 (au_uid a) ∧ int32 (au_gid a) ∧
  c_valid gids_codec (au_gids a).

Definition authunix_enc a : list Z :=
  be_bytes (au_time a) ++ c_enc name_codec (au_name a) ++ be_bytes (au_uid a) ++ be_bytes (au_gid a) ++
  c_enc gids_codec (au_gids a).

(** The structure; the identities are 16 bits wide. *)
Definition authunix_at (p : Z) a (hn hg : mem) : list mem :=
  [field (aup_time p) (au_time a); hn; bytes (aup_uid p) (le_bytes 2 (u16 (au_uid a)));
   bytes (aup_gid p) (le_bytes 2 (u16 (au_gid a))); hg].

Lemma local_decode v m s t rest :
  int32 v → reads (be_bytes v ++ rest) s →
  ∃ s', local_int None (Xdr XDR_DECODE s m t) = Ok (true, Some v) (Xdr XDR_DECODE s' m t) ∧ reads rest s'.
Proof.
  intros Hv Hr. unfold local_int.
  destruct (via_decode (- 2 ^ 31) (2 ^ 31) xdr_int_via id id int_via_switch send_long (deref None : X Z) v m s t rest Hv Hr)
    as (s' & E & Hr'). step_with E. by exists s'.
Qed.

Lemma authunix_space p m hs :
  splits m (bytes p (zeros 20) :: hs) →
  splits m (bytes (aup_time p) (zeros 4) :: bytes (aup_machname p) (zeros 4) :: bytes (aup_uid p) (zeros 4) ::
    bytes (aup_len p) (zeros 8) :: hs).
Proof.
  intros Hm. apply (zeros_two p 4 16) in Hm. apply splits_swap, (zeros_two _ 4 12) in Hm.
  apply splits_swap, (zeros_two _ 4 8) in Hm. unfold aup_time, aup_machname, aup_uid, aup_len.
  replace (p + 12) with (p + Z.of_nat 4 + Z.of_nat 4 + Z.of_nat 4) by lia.
  replace (p + 8) with (p + Z.of_nat 4 + Z.of_nat 4) by lia. reorder Hm.
Qed.

Lemma gids_proc p x :
  xdr_array (aup_gids p) (aup_len p) (Z.of_nat NGRPS) sizeof_int (λ q _, xdr_int q) x = c_proc gids_codec (aup_len p) 0 x.
Proof.
  cbn [gids_codec array_codec c_proc pointer_at count_at]. unfold aup_gids, aup_len.
  by replace (p + 12 + 4) with (p + 16) by lia.
Qed.

(** The last two assignments. *)
Lemma store_identities p uid gid m hs op s t :
  splits m (bytes (aup_uid p) (zeros 4) :: hs) →
  ∃ m', (u ← deref (Some uid); store_int 2 (aup_uid p) (u16 u);; g ← deref (Some gid); store_int 2 (aup_gid p) (u16 g);;
      mret true) (Xdr op s m t) = Ok true (Xdr op s m' t) ∧
    splits m' (bytes (aup_uid p) (le_bytes 2 (u16 uid)) :: bytes (aup_gid p) (le_bytes 2 (u16 gid)) :: hs).
Proof.
  intros Hm. rewrite bind_deref. apply (zeros_two _ 2 2) in Hm.
  replace (aup_uid p + Z.of_nat 2) with (aup_gid p) in Hm by (unfold aup_uid, aup_gid; lia).
  destruct (store_int_ok 2 (aup_uid p) (u16 uid) _ _ op s m t Hm eq_refl) as (m1 & E1 & Hm1).
  step_with E1. rewrite bind_deref. apply splits_swap in Hm1.
  destruct (store_int_ok 2 (aup_gid p) (u16 gid) _ _ op s m1 t Hm1 eq_refl) as (m2 & E2 & Hm2).
  step_with E2. exists m2. split; [done|]. by apply splits_swap.
Qed.

Lemma authunix_decode a p m hs s t rest :
  addr_ok p 20 → authunix_valid a → splits m (bytes p (zeros 20) :: hs) → reads (authunix_enc a ++ rest) s →
  ∃ ok s' m' t' h, xdr_authunix_parms p (Xdr XDR_DECODE s m t) = Ok ok (Xdr XDR_DECODE s' m' t') ∧ splits m' (h :: hs) ∧
    decoded ok t t' (reads rest s' ∧ ∃ hn hg, splits h (authunix_at p a hn hg) ∧
      c_rep name_codec (au_name a) (aup_machname p) hn ∧ c_rep gids_codec (au_gids a) (aup_len p) hg).
Proof.
  intros Ha (Ht & Hn & Hu & Hg & Hgs) Hm Hr. unfold xdr_authunix_parms, authunix_enc in *. rewrite <- !app_assoc in Hr.
  apply authunix_space in Hm.
  destruct (ulong_decode (aup_time p) (au_time a) _ m _ s t _ Ht (length_replicate _ _) Hm Hr) as (s1 & m1 & E1 & Hm1 & Hr1).
  step_with E1. cbn [negb]. apply splits_swap in Hm1.
  destruct (c_decode (c:=name_codec) (au_name a) (aup_machname p) 0 m1 _ s1 t _
    ltac:(unfold addr_ok, aup_machname in *; cbn; lia) Hn Hm1 Hr1) as (b2 & s2 & m2 & t2 & hn & E2 & Hm2 & Hb2).
  cbn [name_codec string_codec c_proc] in E2. step_with E2. destruct b2; cbn [negb]; cycle 1.
  { apply (splits_join m2 hs [_; _; _; _]) in Hm2 as (h & _ & Hm2). exists false, s2, m2, t2, h.
    split_and!; [done..|]. by apply (decoded_impl _ _ _ _ _ Hb2). }
  destruct Hb2 as (Hs2 & Hr2 & Hrn).
  destruct (local_decode (au_uid a) m2 s2 t2 _ Hu Hr2) as (s3 & E3 & Hr3). step_with E3. cbn [fst snd negb].
  destruct (local_decode (au_gid a) m2 s3 t2 _ Hg Hr3) as (s4 & E4 & Hr4). step_with E4. cbn [fst snd negb].
  assert (splits m2 (bytes (aup_len p) (zeros 8) :: hn :: field (aup_time p) (au_time a) :: bytes (aup_uid p) (zeros 4) :: hs)) as Hm3
    by reorder Hm2.
  destruct (c_decode (c:=gids_codec) (au_gids a) (aup_len p) 0 m2 _ s4 t2 rest
    ltac:(unfold addr_ok, aup_len in *; cbn; lia) Hgs Hm3 Hr4) as (b5 & s5 & m5 & t5 & hg & E5 & Hm5 & Hb5).
  rewrite <- gids_proc in E5.
  step_with E5. destruct b5; cbn [negb]; cycle 1.
  { apply (splits_join m5 hs [_; _; _; _]) in Hm5 as (h & _ & Hm5). exists false, s5, m5, t5, h.
    split_and!; [done..|]. by apply (decoded_step _ _ _ _ _ _ Hs2 Hb5). }
  destruct Hb5 as (Hs5 & Hr5 & Hrg).
  assert (splits m5 (bytes (aup_uid p) (zeros 4) :: hg :: hn :: field (aup_time p) (au_time a) :: hs)) as Hm6 by reorder Hm5.
  destruct (store_identities p (au_uid a) (au_gid a) m5 _ XDR_DECODE s5 t5 Hm6) as (m7 & E7 & Hm7).
  assert (splits m7 (authunix_at p a hn hg ++ hs)) as Hm9 by reorder Hm7.
  apply splits_join in Hm9 as (h & Hh & Hm9). exists true, s5, m7, t5, h. split; [exact E7|]. split; [done|].
  apply decoded_granted; [done| |by trans t2]. split; [done|]. by exists hn, hg.
Qed.

(** What is sent for the user is a local that was never assigned. *)
Lemma authunix_encode_stuck a p m hn hs s t out k :
  addr_ok p 20 → word (au_time a) → c_valid name_codec (au_name a) →
  c_rep name_codec (au_name a) (aup_machname p) hn → splits m (field (aup_time p) (au_time a) :: hn :: hs) →
  writes out (length (be_bytes (au_time a)) + (length (c_enc name_codec (au_name a)) + k)) s →
  xdr_authunix_parms p (Xdr XDR_ENCODE s m t) = Stuck.
Proof.
  intros Ha Ht Hn Hrep Hm Hw. unfold xdr_authunix_parms.
  destruct (c_encode (c:=u_long_codec) (au_time a) (aup_time p) 0 m _ _ s t out _ ltac:(unfold addr_ok, aup_time in *; cbn; lia)
    Ht eq_refl Hm Hw) as (s1 & m1 & t1 & E1 & Hm1 & Hw1).
  cbn [u_long_codec int_codec c_proc] in E1. step_with E1. cbn [negb]. apply splits_swap in Hm1.
  destruct (c_encode (c:=name_codec) (au_name a) (aup_machname p) 0 m1 _ _ s1 t1 _ _
    ltac:(unfold addr_ok, aup_machname in *; cbn; lia) Hn Hrep Hm1 Hw1) as (s2 & m2 & t2 & E2 & _).
  cbn [name_codec string_codec c_proc] in E2. step_with E2. cbn [negb]. by apply bind_Stuck.
Qed.
End authunix.

(** Unix credentials of the protocol, decoded into a zeroed structure: the
    time, the name, the identities cut to the 16 bits of their fields, and
    the groups, unless an allocation was refused.  Encoding such a structure,
    in contrast, is undefined once the name is sent: what the code passes on
    for the user is a local it did not assign. *)
Theorem authunix_received {S} `{XdrStream S, Allocator} (a : authunix) p m hs (s : S) t rest :
  addr_ok p 20 → authunix_valid a → splits m (bytes p (zeros 20) :: hs) → reads (authunix_enc a ++ rest) s →
  (∃ ok s' m' t' h, xdr_authunix_parms p (Xdr XDR_DECODE s m t) = Ok ok (Xdr XDR_DECODE s' m' t') ∧ splits m' (h :: hs) ∧
    decoded ok t t' (reads rest s' ∧ ∃ hn hg, splits h (authunix_at p a hn hg) ∧
      c_rep name_codec (au_name a) (aup_machname p) hn ∧ c_rep gids_codec (au_gids a) (aup_len p) hg)) ∧
  (∀ m2 hn2 hs2 (s2 : S) t2 out k,
    c_rep name_codec (au_name a) (aup_machname p) hn2 → splits m2 (field (aup_time p) (au_time a) :: hn2 :: hs2) →
    writes out (length (be_bytes (au_time a)) + (length (c_enc name_codec (au_name a)) + k)) s2 →
    xdr_authunix_parms p (Xdr XDR_ENCODE s2 m2 t2) = Stuck).
Proof.
  intros Ha Hv Hm Hr. split; [by apply authunix_decode|]. intros m2 hn2 hs2 s2 t2 out k Hrep Hm2 Hw.
  destruct Hv as (Ht & Hn & _). by apply (authunix_encode_stuck a p m2 hn2 hs2 s2 t2 out k).
Qed.

(** ** Witnesses *)

#[local] Existing Instance top_allocator.

Definition sample_procs (f : Z) : option (Z → Z → M (xdr_handle xdrmem) bool) :=
  if f =? 77 then Some (λ p _, xdr_long p) else None.

Definition sample_reply : reply Z := Accepted 0 [] (Versions 1 3).

Lemma reply_reported_witness :
  ∃ ok s' m' t' h,
    xdr_replymsg sample_procs 100 (Xdr XDR_DECODE (xdrmem_create 600 (reply_enc long_codec 5 sample_reply) 32)
      (join (reply_space long_codec 400 77 100 ++ err 200 0 0 0)) []) = Ok ok (Xdr XDR_DECODE s' m' t') ∧
    splits m' ([field 100 5; field 104 REPLY; field 108 MSG_ACCEPTED; h] ++ err 200 0 0 0 ++ []) ∧
    decoded ok [] t' (reads [] s' ∧ reply_at long_codec 400 77 100 sample_reply h ∧
      ∃ m'', _seterr_reply 100 200 (Xdr XDR_DECODE s' m' t') = Ok tt (Xdr XDR_DECODE s' m'' t') ∧
        splits m'' ([field 100 5; field 104 REPLY; field 108 MSG_ACCEPTED; h] ++ err 200 RPC_PROGVERSMISMATCH 1 3 ++ [])).
Proof.
  apply (reply_reported (long_codec (S:=xdrmem)) sample_procs 400 77 5 sample_reply 100 200 0 0 0
    (join (reply_space long_codec 400 77 100 ++ err 200 0 0 0)) []
    (xdrmem_create 600 (reply_enc long_codec 5 sample_reply) 32) [] []).
  - apply _.
  - unfold addr_ok. cbn. lia.
  - unfold word. lia.
  - done.
  - unfold addr_ok, rp_ru. lia.
  - unfold word. lia.
  - cbn. unfold int32, word, zlen. cbn. lia.
  - apply splits_apart. by vm_compute.
  - rewrite app_nil_r. by apply (mem_create_reads 600 (reply_enc long_codec 5 sample_reply)).
Defined.

Definition sample_pmap : c_val (pmap_codec (S:=xdrmem)) := (100000, (2, (6, 111))).
Definition sample_node : mem :=
  join [bytes 1000 (le_bytes 4 2000); {[Block 2000 := 20]};
    bytes 2000 (le_bytes 4 100000 ++ le_bytes 4 2 ++ le_bytes 4 6 ++ le_bytes 4 111); bytes 2016 (le_bytes 4 0)].

Lemma sample_pmap_rep : c_rep (pmap_codec (S:=xdrmem)) sample_pmap 2000
  (bytes 2000 (le_bytes 4 100000 ++ le_bytes 4 2 ++ le_bytes 4 6 ++ le_bytes 4 111)).
Proof.
  assert (∀ p bs cs, length bs = 4%nat →
    splits (bytes p (bs ++ cs)) [bytes p bs; bytes (p + 4) []; bytes (p + Z.of_nat (4 + 0)) cs]) as Hpair.
  { intros p bs cs Hl. pose proof (bytes_app p bs cs) as Hs. apply splits_swap, splits_nil_l. unfold zlen in Hs. rewrite Hl in Hs. exact Hs. }
  exists (bytes 2000 (le_bytes 4 100000)), [], (bytes 2004 (le_bytes 4 2 ++ le_bytes 4 6 ++ le_bytes 4 111)).
  split; [by apply Hpair|]. split; [done|]. split; [done|].
  exists (bytes 2004 (le_bytes 4 2)), [], (bytes 2008 (le_bytes 4 6 ++ le_bytes 4 111)).
  split; [by apply (Hpair 2004)|]. split; [done|]. split; [done|].
  exists (bytes 2008 (le_bytes 4 6)), [], (bytes 2012 (le_bytes 4 111)).
  split; [by apply (Hpair 2008)|]. done.
Qed.

Lemma pmaplist_roundtrip_witness :
  ∃ s1 m1' a1',
    xdr_pmaplist 2 1000 (Xdr XDR_ENCODE (xdrmem_create 5000 (zeros 40) 40) sample_node []) = Ok true (Xdr XDR_ENCODE s1 m1' a1') ∧
    splits m1' [sample_node] ∧ message s1 = pmaplist_enc [sample_pmap] ∧
    ∃ b s2 m2' a2' h2,
      xdr_pmaplist 2 100 (Xdr XDR_DECODE (xdrmem_create 600 (message s1) (zlen (message s1))) (bytes 100 (le_bytes 4 0)) []) =
        Ok b (Xdr XDR_DECODE s2 m2' a2') ∧ splits m2' [h2] ∧ decoded b [] a2' (pmaplist_rep [sample_pmap] 100 h2).
Proof.
  apply (pmaplist_roundtrip [sample_pmap] 1000 sample_node sample_node [] [] 5000 (zeros 40) 100 (bytes 100 (le_bytes 4 0)) [] [] 600).
  - constructor; [|constructor]. cbn. lia.
  - exists 2000, (bytes 2000 (le_bytes 4 100000 ++ le_bytes 4 2 ++ le_bytes 4 6 ++ le_bytes 4 111)), (bytes 2016 (le_bytes 4 0)).
    split; [unfold addr_ok; lia|]. split; [apply sample_pmap_rep|]. split; [by apply splits_apart; vm_compute|done].
  - by apply splits_one.
  - done.
  - done.
  - vm_compute. lia.
  - by apply splits_one.
  - done.
  - done.
Defined.

Definition sample_unix : authunix := Authunix 1000000 [111; 120] 70000 5 [].

Lemma authunix_received_witness :
  (∃ ok s' m' t' h, xdr_authunix_parms 100 (Xdr XDR_DECODE (xdrmem_create 600 (authunix_enc (S:=xdrmem) sample_unix) 24)
        (bytes 100 (zeros 20)) []) = Ok ok (Xdr XDR_DECODE s' m' t') ∧ splits m' [h] ∧
    decoded ok [] t' (reads [] s' ∧ ∃ hn hg, splits h (authunix_at 100 sample_unix hn hg) ∧
      c_rep name_codec (au_name sample_unix) 104 hn ∧ c_rep gids_codec (au_gids sample_unix) 112 hg)) ∧
  (∀ m2 hn2 hs2 (s2 : xdrmem) t2 out k,
    c_rep name_codec (au_name sample_unix) 104 hn2 → splits m2 (field 100 1000000 :: hn2 :: hs2) →
    writes out (4 + (length (c_enc (S:=xdrmem) name_codec (au_name sample_unix)) + k)) s2 →
    xdr_authunix_parms 100 (Xdr XDR_ENCODE s2 m2 t2) = Stuck).
Proof.
  apply (authunix_received sample_unix 100 (bytes 100 (zeros 20)) [] (xdrmem_create 600 (authunix_enc (S:=xdrmem) sample_unix) 24) [] []).
  - unfold addr_ok. lia.
  - unfold authunix_valid, word, int32. cbn. repeat split; try lia; repeat constructor; done.
  - by apply splits_one.
  - rewrite app_nil_r. by apply (mem_create_reads 600 (authunix_enc (S:=xdrmem) sample_unix)).
Defined.
