(* ===== verification/EvtTypes.v ===== *)
(** * Events, code pages and the state of the event library

    [snap/include/event.h], the structure [EVT] of [snap/src/pm/gevent.c],
    the US English code page and, in [machine], what the DOS version of the
    library has from the hardware and the BIOS. *)
From S2P Require Import Prelude.
Local Open Scope Z_scope.

(** ** Event codes and masks *)

Definition EVT_NULLEVT : Z := 0x00000000.
Definition EVT_KEYDOWN : Z := 0x00000001.
Definition EVT_KEYREPEAT : Z := 0x00000002.
Definition EVT_KEYUP : Z := 0x00000004.
Definition EVT_MOUSEDOWN : Z := 0x00000008.
Definition EVT_MOUSEAUTO : Z := 0x00000010.
Definition EVT_MOUSEUP : Z := 0x00000020.
Definition EVT_MOUSEMOVE : Z := 0x00000040.
Definition EVT_JOYCLICK : Z := 0x00000080.
Definition EVT_JOYMOVE : Z := 0x00000100.
Definition EVT_REPAINT : Z := 0x00000200.
Definition EVT_MOUSEWHEEL : Z := 0x00000400.
Definition EVT_USEREVT : Z := 0x00001000.

Definition EVT_KEYEVT : Z := Z.lor (Z.lor EVT_KEYDOWN EVT_KEYREPEAT) EVT_KEYUP.
Definition EVT_MOUSEEVT : Z := Z.lor (Z.lor (Z.lor (Z.lor EVT_MOUSEDOWN EVT_MOUSEAUTO) EVT_MOUSEUP) EVT_MOUSEMOVE) EVT_MOUSEWHEEL.
Definition EVT_JOYEVT : Z := Z.lor EVT_JOYCLICK EVT_JOYMOVE.
Definition EVT_EVERYEVT : Z := 0x7FFFFFFF.

Definition EVT_LEFTBMASK : Z := 0x00000001.
Definition EVT_RIGHTBMASK : Z := 0x00000002.
Definition EVT_MIDDLEBMASK : Z := 0x00000004.
Definition EVT_DBLCLICK : Z := 0x00010000.

Definition EVT_RIGHTSHIFT : Z := 0x00000008.
Definition EVT_LEFTSHIFT : Z := 0x00000010.
Definition EVT_RIGHTCTRL : Z := 0x00000020.
Definition EVT_RIGHTALT : Z := 0x00000040.
Definition EVT_LEFTCTRL : Z := 0x00000080.
Definition EVT_LEFTALT : Z := 0x00000100.
Definition EVT_SHIFTKEY : Z := 0x00000018.
Definition EVT_CTRLSTATE : Z := 0x000000A0.
Definition EVT_ALTSTATE : Z := 0x00000140.
Definition EVT_SCROLLLOCK : Z := 0x00000200.
Definition EVT_NUMLOCK : Z := 0x00000400.
Definition EVT_CAPSLOCK : Z := 0x00000800.

Definition EVT_JOY_AXIS_X1 : Z := 0x00000001.
Definition EVT_JOY_AXIS_ALL : Z := 0x0000000F.

(** ** Scan codes *)

Definition KB_padEnter : Z := 0x60.
Definition KB_padTimes : Z := 0x37.
Definition KB_padDivide : Z := 0x61.
Definition KB_padLeft : Z := 0x62.
Definition KB_padRight : Z := 0x63.
Definition KB_padUp : Z := 0x64.
Definition KB_padDown : Z := 0x65.
Definition KB_padInsert : Z := 0x66.
Definition KB_padDelete : Z := 0x67.
Definition KB_padHome : Z := 0x68.
Definition KB_padEnd : Z := 0x69.
Definition KB_padPageUp : Z := 0x6A.
Definition KB_padPageDown : Z := 0x6B.
Definition KB_left : Z := 0x4B.
Definition KB_right : Z := 0x4D.
Definition KB_up : Z := 0x48.
Definition KB_down : Z := 0x50.
Definition KB_insert : Z := 0x52.
Definition KB_delete : Z := 0x53.
Definition KB_home : Z := 0x47.
Definition KB_end : Z := 0x4F.
Definition KB_pageUp : Z := 0x49.
Definition KB_pageDown : Z := 0x51.
Definition KB_capsLock : Z := 0x3A.
Definition KB_numLock : Z := 0x45.
Definition KB_scrollLock : Z := 0x46.
Definition KB_leftShift : Z := 0x2A.
Definition KB_rightShift : Z := 0x36.
Definition KB_leftCtrl : Z := 0x1D.
Definition KB_rightCtrl : Z := 0x6C.
Definition KB_leftAlt : Z := 0x38.
Definition KB_rightAlt : Z := 0x6D.
Definition KB_sysReq : Z := 0x54.
Definition KB_enter : Z := 0x1C.
Definition KB_divide : Z := 0x35.

Definition EVT_asciiCode (m : Z) : Z := Z.land m 0xFF.
Definition EVT_scanCode (m : Z) : Z := Z.shiftr (Z.land m 0xFF00) 8.
Definition EVT_repeatCount (m : Z) : Z := Z.shiftr (Z.land m 0x7FFF0000) 16.

(** [a & b] as a condition. *)
Definition has (a b : Z) : bool := negb (Z.land a b =? 0).

(** ** Events *)

Record event_t : Type := Event {
  e_which : Z;
  e_what : Z;
  e_when : Z;
  e_where_x : Z;
  e_where_y : Z;
  e_relative_x : Z;
  e_relative_y : Z;
  e_message : Z;
  e_modifiers : Z;
  e_next : Z;
  e_prev : Z
}.

Definition set_e_which (v : Z) (r : event_t) : event_t :=
  Event v (e_what r) (e_when r) (e_where_x r) (e_where_y r) (e_relative_x r) (e_relative_y r)
    (e_message r) (e_modifiers r) (e_next r) (e_prev r).
Definition set_e_what (v : Z) (r : event_t) : event_t :=
  Event (e_which r) v (e_when r) (e_where_x r) (e_where_y r) (e_relative_x r) (e_relative_y r)
    (e_message r) (e_modifiers r) (e_next r) (e_prev r).
Definition set_e_when (v : Z) (r : event_t) : event_t :=
  Event (e_which r) (e_what r) v (e_where_x r) (e_where_y r) (e_relative_x r) (e_relative_y r)
    (e_message r) (e_modifiers r) (e_next r) (e_prev r).
Definition set_e_where_x (v : Z) (r : event_t) : event_t :=
  Event (e_which r) (e_what r) (e_when r) v (e_where_y r) (e_relative_x r) (e_relative_y r)
    (e_message r) (e_modifiers r) (e_next r) (e_prev r).
Definition set_e_where_y (v : Z) (r : event_t) : event_t :=
  Event (e_which r) (e_what r) (e_when r) (e_where_x r) v (e_relative_x r) (e_relative_y r)
    (e_message r) (e_modifiers r) (e_next r) (e_prev r).
Definition set_e_relative_x (v : Z) (r : event_t) : event_t :=
  Event (e_which r) (e_what r) (e_when r) (e_where_x r) (e_where_y r) v (e_relative_y r)
    (e_message r) (e_modifiers r) (e_next r) (e_prev r).
Definition set_e_relative_y (v : Z) (r : event_t) : event_t :=
  Event (e_which r) (e_what r) (e_when r) (e_where_x r) (e_where_y r) (e_relative_x r) v
    (e_message r) (e_modifiers r) (e_next r) (e_prev r).
Definition set_e_message (v : Z) (r : event_t) : event_t :=
  Event (e_which r) (e_what r) (e_when r) (e_where_x r) (e_where_y r) (e_relative_x r)
    (e_relative_y r) v (e_modifiers r) (e_next r) (e_prev r).
Definition set_e_modifiers (v : Z) (r : event_t) : event_t :=
  Event (e_which r) (e_what r) (e_when r) (e_where_x r) (e_where_y r) (e_relative_x r)
    (e_relative_y r) (e_message r) v (e_next r) (e_prev r).
Definition set_e_next (v : Z) (r : event_t) : event_t :=
  Event (e_which r) (e_what r) (e_when r) (e_where_x r) (e_where_y r) (e_relative_x r)
    (e_relative_y r) (e_message r) (e_modifiers r) v (e_prev r).
Definition set_e_prev (v : Z) (r : event_t) : event_t :=
  Event (e_which r) (e_what r) (e_when r) (e_where_x r) (e_where_y r) (e_relative_x r)
    (e_relative_y r) (e_message r) (e_modifiers r) (e_next r) v.

(** ** Code pages *)

(** The scan code and the ASCII code. *)
Definition codepage_entry_t : Type := Z * Z.

(** A table with its length is a list. *)
Record codepage_t : Type := CodePage {
  cp_normal : list codepage_entry_t;
  cp_caps : list codepage_entry_t;
  cp_shift : list codepage_entry_t;
  cp_shiftCaps : list codepage_entry_t;
  cp_ctrl : list codepage_entry_t;
  cp_numPad : list codepage_entry_t
}.

Definition US_normal : list codepage_entry_t :=
  [(1, 27); (2, 49); (3, 50); (4, 51); (5, 52); (6, 53); (7, 54); (8, 55); (9, 56); (10,
   57); (11, 48); (12, 45); (13, 61); (14, 8); (15, 9); (16, 113); (17, 119); (18, 101);
   (19, 114); (20, 116); (21, 121); (22, 117); (23, 105); (24, 111); (25, 112); (26, 91);
   (27, 93); (28, 13); (30, 97); (31, 115); (32, 100); (33, 102); (34, 103); (35, 104); (36,
   106); (37, 107); (38, 108); (39, 59); (40, 39); (41, 96); (43, 92); (44, 122); (45, 120);
   (46, 99); (47, 118); (48, 98); (49, 110); (50, 109); (51, 44); (52, 46); (53, 47); (55,
   42); (57, 32); (74, 45); (78, 43); (96, 13); (97, 47)].
Definition US_caps : list codepage_entry_t :=
  [(16, 81); (17, 87); (18, 69); (19, 82); (20, 84); (21, 89); (22, 85); (23, 73); (24, 79);
   (25, 80); (30, 65); (31, 83); (32, 68); (33, 70); (34, 71); (35, 72); (36, 74); (37, 75);
   (38, 76); (44, 90); (45, 88); (46, 67); (47, 86); (48, 66); (49, 78); (50, 77)].
Definition US_shift : list codepage_entry_t :=
  [(2, 33); (3, 64); (4, 35); (5, 36); (6, 37); (7, 94); (8, 38); (9, 42); (10, 40); (11,
   41); (12, 95); (13, 43); (16, 81); (17, 87); (18, 69); (19, 82); (20, 84); (21, 89); (22,
   85); (23, 73); (24, 79); (25, 80); (26, 123); (27, 125); (30, 65); (31, 83); (32, 68);
   (33, 70); (34, 71); (35, 72); (36, 74); (37, 75); (38, 76); (39, 58); (40, 34); (41,
   126); (43, 124); (44, 90); (45, 88); (46, 67); (47, 86); (48, 66); (49, 78); (50, 77);
   (51, 60); (52, 62); (53, 63)].
Definition US_shiftCaps : list codepage_entry_t :=
  [(16, 113); (17, 119); (18, 101); (19, 114); (20, 116); (21, 121); (22, 117); (23, 105);
   (24, 111); (25, 112); (30, 97); (31, 115); (32, 100); (33, 102); (34, 103); (35, 104);
   (36, 106); (37, 107); (38, 108); (44, 122); (45, 120); (46, 99); (47, 118); (48, 98);
   (49, 110); (50, 109)].
Definition US_ctrl : list codepage_entry_t :=
  [(1, 27); (6, 30); (12, 31); (14, 127); (16, 17); (17, 23); (18, 5); (19, 18); (20, 20);
   (21, 25); (22, 22); (23, 9); (24, 15); (25, 16); (26, 27); (27, 29); (28, 10); (30, 1);
   (31, 19); (32, 4); (33, 6); (34, 7); (35, 8); (36, 10); (37, 11); (38, 12); (43, 28);
   (44, 26); (45, 24); (46, 3); (47, 22); (48, 2); (49, 14); (50, 13); (57, 32)].
Definition US_numPad : list codepage_entry_t :=
  [(76, 53); (98, 52); (99, 54); (100, 56); (101, 50); (102, 48); (103, 46); (104, 55);
   (105, 49); (106, 57); (107, 51)].

Definition _CP_US_English : codepage_t :=
  CodePage US_normal US_caps US_shift US_shiftCaps US_ctrl US_numPad.

(** ** Interrupts

    A mouse interrupt with the arguments the mouse driver calls the handler
    with, a keyboard interrupt with the scan code the port gives.  The mouse
    handler runs with interrupts on but for its three critical sections:
    [keys1], [keys2] and [keys3] are the scan codes of the keyboard interrupts
    that arrive behind each of them. *)
Inductive interrupt : Type :=
| MouseInt (mask butstate x y mickeyX mickeyY : Z) (keys1 keys2 keys3 : list Z)
| KeyInt (scan : Z).

(** The callbacks of the application: moving the cursor, and the heartbeat
    with its function and argument. *)
Inductive call : Type :=
| MouseMove (x y : Z)
| HeartBeat (callback params : Z).

(** ** The state

    The fields of [EVT] in groups.  [kb_pauseLoop] and [kb_extended] are the
    static variables of [processRawScanCode]. *)

Definition EVENTQSIZE : Z := 100.
Definition JOY_NUM_AXES : nat := 4.

Record event_queue : Type := EventQueue {
  q_head : Z;
  q_tail : Z;
  q_freeHead : Z;
  q_count : Z;
  q_evtq : list event_t;
  q_oldMove : Z;
  q_oldKey : Z;
  q_oldJoyMove : Z
}.

Definition set_q_head (v : Z) (r : event_queue) : event_queue :=
  EventQueue v (q_tail r) (q_freeHead r) (q_count r) (q_evtq r) (q_oldMove r) (q_oldKey r)
    (q_oldJoyMove r).
Definition set_q_tail (v : Z) (r : event_queue) : event_queue :=
  EventQueue (q_head r) v (q_freeHead r) (q_count r) (q_evtq r) (q_oldMove r) (q_oldKey r)
    (q_oldJoyMove r).
Definition set_q_freeHead (v : Z) (r : event_queue) : event_queue :=
  EventQueue (q_head r) (q_tail r) v (q_count r) (q_evtq r) (q_oldMove r) (q_oldKey r)
    (q_oldJoyMove r).
Definition set_q_count (v : Z) (r : event_queue) : event_queue :=
  EventQueue (q_head r) (q_tail r) (q_freeHead r) v (q_evtq r) (q_oldMove r) (q_oldKey r)
    (q_oldJoyMove r).
Definition set_q_evtq (v : list event_t) (r : event_queue) : event_queue :=
  EventQueue (q_head r) (q_tail r) (q_freeHead r) (q_count r) v (q_oldMove r) (q_oldKey r)
    (q_oldJoyMove r).
Definition set_q_oldMove (v : Z) (r : event_queue) : event_queue :=
  EventQueue (q_head r) (q_tail r) (q_freeHead r) (q_count r) (q_evtq r) v (q_oldKey r)
    (q_oldJoyMove r).
Definition set_q_oldKey (v : Z) (r : event_queue) : event_queue :=
  EventQueue (q_head r) (q_tail r) (q_freeHead r) (q_count r) (q_evtq r) (q_oldMove r) v
    (q_oldJoyMove r).
Definition set_q_oldJoyMove (v : Z) (r : event_queue) : event_queue :=
  EventQueue (q_head r) (q_tail r) (q_freeHead r) (q_count r) (q_evtq r) (q_oldMove r) (q_oldKey
    r) v.

Record mouse_state : Type := MouseState {
  ms_mx : Z;
  ms_my : Z;
  ms_doubleClick : Z;
  ms_autoRepeat : Z;
  ms_autoDelay : Z;
  ms_autoTicks : Z;
  ms_doubleClickThresh : Z;
  ms_firstAuto : Z;
  ms_autoMouse_x : Z;
  ms_autoMouse_y : Z;
  ms_downMouse : event_t
}.

Definition set_ms_mx (v : Z) (r : mouse_state) : mouse_state :=
  MouseState v (ms_my r) (ms_doubleClick r) (ms_autoRepeat r) (ms_autoDelay r) (ms_autoTicks r)
    (ms_doubleClickThresh r) (ms_firstAuto r) (ms_autoMouse_x r) (ms_autoMouse_y r)
    (ms_downMouse r).
Definition set_ms_my (v : Z) (r : mouse_state) : mouse_state :=
  MouseState (ms_mx r) v (ms_doubleClick r) (ms_autoRepeat r) (ms_autoDelay r) (ms_autoTicks r)
    (ms_doubleClickThresh r) (ms_firstAuto r) (ms_autoMouse_x r) (ms_autoMouse_y r)
    (ms_downMouse r).
Definition set_ms_autoTicks (v : Z) (r : mouse_state) : mouse_state :=
  MouseState (ms_mx r) (ms_my r) (ms_doubleClick r) (ms_autoRepeat r) (ms_autoDelay r) v
    (ms_doubleClickThresh r) (ms_firstAuto r) (ms_autoMouse_x r) (ms_autoMouse_y r)
    (ms_downMouse r).
Definition set_ms_firstAuto (v : Z) (r : mouse_state) : mouse_state :=
  MouseState (ms_mx r) (ms_my r) (ms_doubleClick r) (ms_autoRepeat r) (ms_autoDelay r)
    (ms_autoTicks r) (ms_doubleClickThresh r) v (ms_autoMouse_x r) (ms_autoMouse_y r)
    (ms_downMouse r).
Definition set_ms_autoMouse_x (v : Z) (r : mouse_state) : mouse_state :=
  MouseState (ms_mx r) (ms_my r) (ms_doubleClick r) (ms_autoRepeat r) (ms_autoDelay r)
    (ms_autoTicks r) (ms_doubleClickThresh r) (ms_firstAuto r) v (ms_autoMouse_y r)
    (ms_downMouse r).
Definition set_ms_autoMouse_y (v : Z) (r : mouse_state) : mouse_state :=
  MouseState (ms_mx r) (ms_my r) (ms_doubleClick r) (ms_autoRepeat r) (ms_autoDelay r)
    (ms_autoTicks r) (ms_doubleClickThresh r) (ms_firstAuto r) (ms_autoMouse_x r) v
    (ms_downMouse r).
Definition set_ms_downMouse (v : event_t) (r : mouse_state) : mouse_state :=
  MouseState (ms_mx r) (ms_my r) (ms_doubleClick r) (ms_autoRepeat r) (ms_autoDelay r)
    (ms_autoTicks r) (ms_doubleClickThresh r) (ms_firstAuto r) (ms_autoMouse_x r)
    (ms_autoMouse_y r) v.

Record joy_state : Type := JoyState {
  js_joyMask : Z;
  js_joyMin : list Z;
  js_joyCenter : list Z;
  js_joyMax : list Z;
  js_joyPrev : list Z;
  js_joyButState : Z
}.

Definition set_js_joyMask (v : Z) (r : joy_state) : joy_state :=
  JoyState v (js_joyMin r) (js_joyCenter r) (js_joyMax r) (js_joyPrev r) (js_joyButState r).
Definition set_js_joyMin (v : list Z) (r : joy_state) : joy_state :=
  JoyState (js_joyMask r) v (js_joyCenter r) (js_joyMax r) (js_joyPrev r) (js_joyButState r).
Definition set_js_joyCenter (v : list Z) (r : joy_state) : joy_state :=
  JoyState (js_joyMask r) (js_joyMin r) v (js_joyMax r) (js_joyPrev r) (js_joyButState r).
Definition set_js_joyMax (v : list Z) (r : joy_state) : joy_state :=
  JoyState (js_joyMask r) (js_joyMin r) (js_joyCenter r) v (js_joyPrev r) (js_joyButState r).
Definition set_js_joyPrev (v : list Z) (r : joy_state) : joy_state :=
  JoyState (js_joyMask r) (js_joyMin r) (js_joyCenter r) (js_joyMax r) v (js_joyButState r).
Definition set_js_joyButState (v : Z) (r : joy_state) : joy_state :=
  JoyState (js_joyMask r) (js_joyMin r) (js_joyCenter r) (js_joyMax r) (js_joyPrev r) v.

Record kbd_state : Type := KbdState {
  kb_keyModifiers : Z;
  kb_keyTable : list Z;
  kb_allowLEDS : bool;
  kb_pauseLoop : Z;
  kb_extended : bool
}.

Definition set_kb_keyModifiers (v : Z) (r : kbd_state) : kbd_state :=
  KbdState v (kb_keyTable r) (kb_allowLEDS r) (kb_pauseLoop r) (kb_extended r).
Definition set_kb_keyTable (v : list Z) (r : kbd_state) : kbd_state :=
  KbdState (kb_keyModifiers r) v (kb_allowLEDS r) (kb_pauseLoop r) (kb_extended r).
Definition set_kb_allowLEDS (v : bool) (r : kbd_state) : kbd_state :=
  KbdState (kb_keyModifiers r) (kb_keyTable r) v (kb_pauseLoop r) (kb_extended r).
Definition set_kb_pauseLoop (v : Z) (r : kbd_state) : kbd_state :=
  KbdState (kb_keyModifiers r) (kb_keyTable r) (kb_allowLEDS r) v (kb_extended r).
Definition set_kb_extended (v : bool) (r : kbd_state) : kbd_state :=
  KbdState (kb_keyModifiers r) (kb_keyTable r) (kb_allowLEDS r) (kb_pauseLoop r) v.

(** A filter may change the event and tells whether it is to be kept. *)
Record hooks : Type := Hooks {
  hk_userEventCallback : option (event_t → bool * event_t);
  hk_heartBeat : option (Z * Z);
  hk_codePage : codepage_t
}.

Definition set_hk_userEventCallback (v : option (event_t → bool * event_t)) (r : hooks) : hooks :=
  Hooks v (hk_heartBeat r) (hk_codePage r).
Definition set_hk_heartBeat (v : option (Z * Z)) (r : hooks) : hooks :=
  Hooks (hk_userEventCallback r) v (hk_codePage r).
Definition set_hk_codePage (v : codepage_t) (r : hooks) : hooks :=
  Hooks (hk_userEventCallback r) (hk_heartBeat r) v.

(** What is outside of the library: the readings of the BIOS clock to come,
    the interrupts that arrive whenever they are enabled, the readings of the
    joysticks, their buttons and the keyboard controller's ports, what was
    written to ports, the callbacks called, the keyboard flags
    and the key buffer of the BIOS, the answers of the page locking services, and the flags
    [_EVT_installed] and [locked]. *)
Record machine : Type := Machine {
  mc_clock : list Z;
  mc_arrivals : list (list interrupt);
  mc_joysticks : list (list (option Z));
  mc_buttons : list Z;
  mc_ports : list Z;
  mc_written : list (Z * Z);
  mc_calls : list call;
  mc_shift_flags : Z;
  mc_key_buffer : list Z;
  mc_locks : list bool;
  mc_installed : bool;
  mc_locked : bool
}.

Definition set_mc_clock (v : list Z) (r : machine) : machine :=
  Machine v (mc_arrivals r) (mc_joysticks r) (mc_buttons r) (mc_ports r) (mc_written r)
    (mc_calls r) (mc_shift_flags r) (mc_key_buffer r) (mc_locks r) (mc_installed r) (mc_locked
    r).
Definition set_mc_arrivals (v : list (list interrupt)) (r : machine) : machine :=
  Machine (mc_clock r) v (mc_joysticks r) (mc_buttons r) (mc_ports r) (mc_written r) (mc_calls
    r) (mc_shift_flags r) (mc_key_buffer r) (mc_locks r) (mc_installed r) (mc_locked r).
Definition set_mc_joysticks (v : list (list (option Z))) (r : machine) : machine :=
  Machine (mc_clock r) (mc_arrivals r) v (mc_buttons r) (mc_ports r) (mc_written r) (mc_calls r)
    (mc_shift_flags r) (mc_key_buffer r) (mc_locks r) (mc_installed r) (mc_locked r).
Definition set_mc_buttons (v : list Z) (r : machine) : machine :=
  Machine (mc_clock r) (mc_arrivals r) (mc_joysticks r) v (mc_ports r) (mc_written r) (mc_calls
    r) (mc_shift_flags r) (mc_key_buffer r) (mc_locks r) (mc_installed r) (mc_locked r).
Definition set_mc_ports (v : list Z) (r : machine) : machine :=
  Machine (mc_clock r) (mc_arrivals r) (mc_joysticks r) (mc_buttons r) v (mc_written r)
    (mc_calls r) (mc_shift_flags r) (mc_key_buffer r) (mc_locks r) (mc_installed r) (mc_locked
    r).
Definition set_mc_written (v : list (Z * Z)) (r : machine) : machine :=
  Machine (mc_clock r) (mc_arrivals r) (mc_joysticks r) (mc_buttons r) (mc_ports r) v (mc_calls
    r) (mc_shift_flags r) (mc_key_buffer r) (mc_locks r) (mc_installed r) (mc_locked r).
Definition set_mc_calls (v : list call) (r : machine) : machine :=
  Machine (mc_clock r) (mc_arrivals r) (mc_joysticks r) (mc_buttons r) (mc_ports r) (mc_written
    r) v (mc_shift_flags r) (mc_key_buffer r) (mc_locks r) (mc_installed r) (mc_locked r).
Definition set_mc_shift_flags (v : Z) (r : machine) : machine :=
  Machine (mc_clock r) (mc_arrivals r) (mc_joysticks r) (mc_buttons r) (mc_ports r) (mc_written
    r) (mc_calls r) v (mc_key_buffer r) (mc_locks r) (mc_installed r) (mc_locked r).
Definition set_mc_key_buffer (v : list Z) (r : machine) : machine :=
  Machine (mc_clock r) (mc_arrivals r) (mc_joysticks r) (mc_buttons r) (mc_ports r) (mc_written
    r) (mc_calls r) (mc_shift_flags r) v (mc_locks r) (mc_installed r) (mc_locked r).
Definition set_mc_locks (v : list bool) (r : machine) : machine :=
  Machine (mc_clock r) (mc_arrivals r) (mc_joysticks r) (mc_buttons r) (mc_ports r) (mc_written
    r) (mc_calls r) (mc_shift_flags r) (mc_key_buffer r) v (mc_installed r) (mc_locked r).
Definition set_mc_installed (v : bool) (r : machine) : machine :=
  Machine (mc_clock r) (mc_arrivals r) (mc_joysticks r) (mc_buttons r) (mc_ports r) (mc_written
    r) (mc_calls r) (mc_shift_flags r) (mc_key_buffer r) (mc_locks r) v (mc_locked r).
Definition set_mc_locked (v : bool) (r : machine) : machine :=
  Machine (mc_clock r) (mc_arrivals r) (mc_joysticks r) (mc_buttons r) (mc_ports r) (mc_written
    r) (mc_calls r) (mc_shift_flags r) (mc_key_buffer r) (mc_locks r) (mc_installed r) v.

Record evt_world : Type := EvtWorld {
  w_queue : event_queue;
  w_mouse : mouse_state;
  w_joy : joy_state;
  w_kbd : kbd_state;
  w_hooks : hooks;
  w_machine : machine
}.

Definition set_w_queue (v : event_queue) (r : evt_world) : evt_world :=
  EvtWorld v (w_mouse r) (w_joy r) (w_kbd r) (w_hooks r) (w_machine r).
Definition set_w_mouse (v : mouse_state) (r : evt_world) : evt_world :=
  EvtWorld (w_queue r) v (w_joy r) (w_kbd r) (w_hooks r) (w_machine r).
Definition set_w_joy (v : joy_state) (r : evt_world) : evt_world :=
  EvtWorld (w_queue r) (w_mouse r) v (w_kbd r) (w_hooks r) (w_machine r).
Definition set_w_kbd (v : kbd_state) (r : evt_world) : evt_world :=
  EvtWorld (w_queue r) (w_mouse r) (w_joy r) v (w_hooks r) (w_machine r).
Definition set_w_hooks (v : hooks) (r : evt_world) : evt_world :=
  EvtWorld (w_queue r) (w_mouse r) (w_joy r) (w_kbd r) v (w_machine r).
Definition set_w_machine (v : machine) (r : evt_world) : evt_world :=
  EvtWorld (w_queue r) (w_mouse r) (w_joy r) (w_kbd r) (w_hooks r) v.

(** ** Access to the groups *)

Abbreviation EVT := (M evt_world).

Definition on_queue (f : event_queue → event_queue) : EVT unit := modify (λ w, set_w_queue (f (w_queue w)) w).
Definition on_mouse (f : mouse_state → mouse_state) : EVT unit := modify (λ w, set_w_mouse (f (w_mouse w)) w).
Definition on_joy (f : joy_state → joy_state) : EVT unit := modify (λ w, set_w_joy (f (w_joy w)) w).
Definition on_kbd (f : kbd_state → kbd_state) : EVT unit := modify (λ w, set_w_kbd (f (w_kbd w)) w).
Definition on_hooks (f : hooks → hooks) : EVT unit := modify (λ w, set_w_hooks (f (w_hooks w)) w).
Definition on_machine (f : machine → machine) : EVT unit := modify (λ w, set_w_machine (f (w_machine w)) w).

(** An element of the array [EVT.evtq]; an index outside of it is undefined. *)
Definition at_index {A} (i : Z) (l : list A) : option A := if i <? 0 then None else l !! Z.to_nat i.

Definition get_event (i : Z) : EVT event_t := evtq ← gets (λ w, q_evtq (w_queue w)); deref (at_index i evtq).
Definition put_event (i : Z) (e : event_t) : EVT unit :=
  get_event i;;
  on_queue (λ q, set_q_evtq (<[Z.to_nat i := e]> (q_evtq q)) q).
Definition update_event (i : Z) (f : event_t → event_t) : EVT unit :=
  e ← get_event i;
  put_event i (f e).
