(* ===== verification/Evt.v ===== *)
(** * The event queue and the interrupt handlers

    The first part of [snap/src/pm/gevent.c], and what it includes for DOS:
    [common/keyboard.c] and [dos/event.c].  A local [event_t] that is not
    initialised is an argument, [stack], with what it happens to hold.

    The functions that add events are called with the interrupts off by the
    handlers, and with the interrupts on by [EVT_init]: their definitions that
    end in [_with] take as [pause] what happens between two statements, which
    is nothing for the former and [interrupts], below, for the latter. *)
From S2P Require Import Prelude EvtTypes.
Local Open Scope Z_scope.

(** The next reading of a list of them, [d] when there is none left. *)
Definition take_reading {A} (d : A) (get : machine → list A) (set : list A → machine → machine) : EVT A :=
  rs ← gets (λ w, get (w_machine w));
  on_machine (set (tl rs));;
  mret (hd d rs).

Definition PM_inpb (port : Z) : EVT Z := take_reading 0 mc_ports set_mc_ports.
Definition PM_outpb (port v : Z) : EVT unit := on_machine (λ m, set_mc_written (mc_written m ++ [(port, u8 v)]) m).

(** [PM_getLong(_EVT_biosPtr+0x6C) * 55] *)
Definition _EVT_getTicks : EVT Z :=
  t ← take_reading 0 mc_clock set_mc_clock;
  mret (u32 (t * 55)).

(** ** The queue *)

(** The mouse part of [addEvent]: double clicks. *)
Definition note_mouse (evt : event_t) : EVT event_t :=
  if negb (has (e_what evt) EVT_MOUSEEVT) then mret evt else
  on_mouse (set_ms_autoMouse_x (e_where_x evt));;
  on_mouse (set_ms_autoMouse_y (e_where_y evt));;
  if has (e_what evt) EVT_MOUSEDOWN && negb (has (e_message evt) EVT_DBLCLICK) then
    m ← gets w_mouse;
    let down := ms_downMouse m in
    let diff_x := u32 (Z.abs (i32 (e_where_x evt - e_where_x down))) in
    let diff_y := u32 (Z.abs (i32 (e_where_y evt - e_where_y down))) in
    evt ← (if (e_message evt =? e_message down)
              && (u32 (e_when evt - e_when down) <=? ms_doubleClick m)
              && (diff_x <=? ms_doubleClickThresh m) && (diff_y <=? ms_doubleClickThresh m) then
             let evt := set_e_message (Z.lor (e_message evt) EVT_DBLCLICK) evt in
             on_mouse (set_ms_downMouse (set_e_when 0 evt));;
             mret evt
           else
             on_mouse (set_ms_downMouse evt);;
             mret evt);
    ticks ← _EVT_getTicks;
    on_mouse (set_ms_autoTicks ticks);;
    mret evt
  else if has (e_what evt) EVT_MOUSEUP then
    on_mouse (λ m, set_ms_downMouse (set_e_what EVT_NULLEVT (ms_downMouse m)) m);;
    on_mouse (set_ms_firstAuto 1);;
    mret evt
  else mret evt.

(** The rest of [addEvent]: into the spot at the head of the free list. *)
Definition append_event_with (pause : EVT unit) (evt : event_t) : EVT unit :=
  evtID ← gets (λ w, q_freeHead (w_queue w));
  pause;;
  freeHead ← gets (λ w, q_freeHead (w_queue w));
  spot ← get_event freeHead;
  on_queue (set_q_freeHead (e_next spot));;
  pause;;
  tail ← gets (λ w, q_tail (w_queue w));
  let evt := set_e_prev tail (set_e_next (-1) evt) in
  pause;;
  tail ← gets (λ w, q_tail (w_queue w));
  (if tail =? -1 then on_queue (set_q_head evtID) else update_event tail (set_e_next evtID));;
  pause;;
  on_queue (set_q_tail evtID);;
  pause;;
  put_event evtID evt;;
  pause;;
  on_queue (λ q, set_q_count (i32 (q_count q + 1)) q).

Definition addEvent_with (pause : EVT unit) (evt : event_t) : EVT unit :=
  evt ← note_mouse evt;
  filter ← gets (λ w, hk_userEventCallback (w_hooks w));
  let kept := match filter with Some f => f evt | None => (true, evt) end in
  if negb kept.1 then mret tt else pause;; append_event_with pause kept.2.

(** The interrupts are off. *)
Definition append_event (evt : event_t) : EVT unit := append_event_with (mret tt) evt.
Definition addEvent (evt : event_t) : EVT unit := addEvent_with (mret tt) evt.

(** [_EVT_readJoyAxis(mask, axis)]: the axes of the mask that answered are
    stored and the mask of these is returned; [None] for an axis that did
    not. *)
Definition _EVT_readJoyAxis (mask : Z) : EVT (Z * list (option Z)) :=
  reading ← take_reading [] mc_joysticks set_mc_joysticks;
  let axis := map (λ i, if Z.testbit mask (Z.of_nat i) then default None (reading !! i) else None) (seq 0 JOY_NUM_AXES) in
  mret (foldr (λ a m, 2 * m + (if a is Some _ then 1 else 0)) 0 axis, axis).

Definition store_axes (axis : list (option Z)) (old : list Z) : list Z :=
  zip_with (λ a o, default o a) axis old.

Definition _EVT_readJoyButtons : EVT Z := take_reading 0 mc_buttons set_mc_buttons.

Definition EVT_joyIsPresent : EVT Z :=
  on_joy (λ j, JoyState (js_joyMask j) (replicate JOY_NUM_AXES 0) (replicate JOY_NUM_AXES 0)
    (replicate JOY_NUM_AXES 0) (replicate JOY_NUM_AXES 0) 0);;
  r ← _EVT_readJoyAxis EVT_JOY_AXIS_ALL;
  on_joy (λ j, set_js_joyCenter (store_axes r.2 (js_joyCenter j)) j);;
  (if r.1 =? 0 then mret tt
   else on_joy (λ j, set_js_joyMax (map (λ c, i32 (c * 2)) (js_joyCenter j)) j));;
  mret r.1.

Definition scaleJoyAxis (raw : Z) (center min max : Z) : Z :=
  if i32 (center - min) <? 5 then raw else
  if i32 (max - center) <? 5 then raw else
  let raw := i32 (raw - center) in
  let range := if raw <? 0 then i32 (center - min) else i32 (max - center) in
  let scaled := Z.quot (i32 (raw * 128)) range in
  let scaled := if scaled <? -128 then -128 else scaled in
  if 127 <? scaled then 127 else scaled.

(** ** The keyboard *)

(** The loop of [translateScan]; [table] is what is behind the pointer. *)
Fixpoint translate_loop (fuel : nat) (scanCode : Z) (table : list codepage_entry_t) (n : Z) : EVT Z :=
  if n <=? 0 then mret 0 else
  match fuel with
  | O => no_fuel
  | S fuel =>
      let pivot := Z.shiftr n 1 in
      test ← deref (at_index pivot table);
      let val := scanCode - test.1 in
      if val <? 0 then translate_loop fuel scanCode table pivot
      else if val =? 0 then mret test.2
      else translate_loop fuel scanCode (drop (Z.to_nat (pivot + 1)) table) (n - (pivot + 1))
  end.
Definition translateScan (scanCode : Z) (table : list codepage_entry_t) : EVT Z :=
  translate_loop (length table) scanCode table (Z.of_nat (length table)).

Definition _EVT_maskKeyCode (evt : event_t) : EVT event_t :=
  let scan := EVT_scanCode (e_message evt) in
  let evt := set_e_message (Z.ldiff (e_message evt) 0xFF) evt in
  let found ascii := set_e_message (Z.lor (e_message evt) ascii) evt in
  page ← gets (λ w, hk_codePage (w_hooks w));
  ascii ← (if has (e_modifiers evt) EVT_NUMLOCK then translateScan scan (cp_numPad page) else mret 0);
  if negb (ascii =? 0) then mret (found ascii) else
  if has (e_modifiers evt) EVT_CTRLSTATE then
    ascii ← translateScan scan (cp_ctrl page);
    mret (found ascii)
  else
  ascii ← (if has (e_modifiers evt) EVT_CAPSLOCK then
             if has (e_modifiers evt) EVT_SHIFTKEY then translateScan scan (cp_shiftCaps page)
             else translateScan scan (cp_caps page)
           else mret 0);
  if negb (ascii =? 0) then mret (found ascii) else
  ascii ← (if has (e_modifiers evt) EVT_SHIFTKEY then translateScan scan (cp_shift page) else mret 0);
  if negb (ascii =? 0) then mret (found ascii) else
  ascii ← translateScan scan (cp_normal page);
  mret (found ascii).

Definition _EVT_isKeyDown (scanCode : Z) : EVT bool :=
  if 0x7F <? scanCode then mret false else
  table ← gets (λ w, kb_keyTable (w_kbd w));
  v ← deref (at_index scanCode table);
  mret (negb (v =? 0)).

Definition addKeyEvent_with (pause : EVT unit) (stack : event_t) (what message : Z) : EVT unit :=
  count ← gets (λ w, q_count (w_queue w));
  if negb (count <? EVENTQSIZE) then mret tt else
  pause;;
  ticks ← _EVT_getTicks;
  pause;;
  modifiers ← gets (λ w, kb_keyModifiers (w_kbd w));
  let evt := Event (e_which stack) what ticks 0 0 0 0 (Z.lor message 0x10000) modifiers (e_next stack) (e_prev stack) in
  pause;;
  (if what =? EVT_KEYREPEAT then
     oldKey ← gets (λ w, q_oldKey (w_queue w));
     if negb (oldKey =? -1) then
       pause;;
       oldKey ← gets (λ w, q_oldKey (w_queue w));
       update_event oldKey (λ e, set_e_message (u32 (e_message e + 0x10000)) e)
     else
       freeHead ← gets (λ w, q_freeHead (w_queue w));
       on_queue (set_q_oldKey freeHead);;
       pause;;
       addEvent_with pause evt
   else addEvent_with pause evt);;
  pause;;
  on_queue (set_q_oldMove (-1)).

(** The interrupts are off. *)
Definition addKeyEvent (stack : event_t) (what message : Z) : EVT unit := addKeyEvent_with (mret tt) stack what message.

(** [kbWaitForWriteReady], [kbWaitForReadReady]: whether the controller's
    status gets there in [timeout] readings. *)
Fixpoint kb_wait (ready : Z → bool) (timeout : nat) : EVT bool :=
  match timeout with
  | O => mret false
  | S timeout =>
      status ← PM_inpb 0x64;
      if ready status then mret true else kb_wait ready timeout
  end.
Definition kbWaitForWriteReady : EVT bool := kb_wait (λ s, negb (has s 0x02)) (Z.to_nat 8192).
Definition kbWaitForReadReady : EVT bool := kb_wait (λ s, has s 0x01) (Z.to_nat 8192).

(** The inner loop of [kbSendData]: [Some] answer of the function, or [None]
    for another round when [true], the end of the timeout when [false]. *)
Fixpoint kb_answer (timeout : nat) : EVT (option bool * bool) :=
  match timeout with
  | O | S O => mret (None, false)
  | S timeout =>
      ready ← kbWaitForReadReady;
      if negb ready then mret (Some false, true) else
      temp ← PM_inpb 0x60;
      if temp =? 0xFA then mret (Some true, true)
      else if temp =? 0xFE then mret (None, true)
      else kb_answer timeout
  end.

(** The outer loop; [resends] rounds may follow this one. *)
Fixpoint kb_send (resends : nat) (data : Z) : EVT bool :=
  ready ← kbWaitForWriteReady;
  if negb ready then mret false else
  PM_outpb 0x60 data;;
  r ← kb_answer (Z.to_nat 8192);
  match fst r, resends with
  | Some b, _ => mret b
  | None, O => mret false
  | None, S resends => if (snd r : bool) then kb_send resends data else mret false
  end.
Definition kbSendData (data : Z) : EVT bool := kb_send 4 data.

Definition setLEDS (modifiers : Z) : EVT unit :=
  allow ← gets (λ w, kb_allowLEDS (w_kbd w));
  if negb allow then mret tt else
  sent ← kbSendData 0xED;
  sent ← (if negb sent then mret false else kbSendData (Z.land (Z.shiftr modifiers 9) 7));
  if negb sent then kbSendData 0xF4;; mret tt else mret tt.

(** The virtual scan code of a code that came behind 0xE0. *)
Definition extended_code (scan : Z) : Z :=
  if scan =? KB_leftCtrl then KB_rightCtrl
  else if scan =? KB_leftAlt then KB_rightAlt
  else if scan =? KB_divide then KB_padDivide
  else if scan =? KB_enter then KB_padEnter
  else if scan =? KB_padTimes then KB_sysReq
  else scan.

(** That of one that did not. *)
Definition regular_code (scan : Z) : Z :=
  if scan =? KB_left then KB_padLeft
  else if scan =? KB_right then KB_padRight
  else if scan =? KB_up then KB_padUp
  else if scan =? KB_down then KB_padDown
  else if scan =? KB_insert then KB_padInsert
  else if scan =? KB_delete then KB_padDelete
  else if scan =? KB_home then KB_padHome
  else if scan =? KB_end then KB_padEnd
  else if scan =? KB_pageUp then KB_padPageUp
  else if scan =? KB_pageDown then KB_padPageDown
  else scan.

Definition toggle (what flag : Z) : EVT unit :=
  (if what =? EVT_KEYDOWN then on_kbd (λ k, set_kb_keyModifiers (Z.lxor (kb_keyModifiers k) flag) k) else mret tt);;
  modifiers ← gets (λ w, kb_keyModifiers (w_kbd w));
  setLEDS modifiers.

Definition hold (what flag : Z) : EVT unit :=
  on_kbd (λ k, set_kb_keyModifiers
    (if what =? EVT_KEYUP then Z.ldiff (kb_keyModifiers k) flag else Z.lor (kb_keyModifiers k) flag) k).

(** Restarting the machine ends the run. *)
Definition Reboot {A} : EVT A := exit_with 0.

(** The modifiers a key that is not repeated changes. *)
Definition shift_keys (what scan : Z) : EVT unit :=
  if scan =? KB_capsLock then toggle what EVT_CAPSLOCK
  else if scan =? KB_numLock then toggle what EVT_NUMLOCK
  else if scan =? KB_scrollLock then toggle what EVT_SCROLLLOCK
  else if scan =? KB_leftShift then hold what EVT_LEFTSHIFT
  else if scan =? KB_rightShift then hold what EVT_RIGHTSHIFT
  else if scan =? KB_leftCtrl then hold what EVT_LEFTCTRL
  else if scan =? KB_rightCtrl then hold what EVT_RIGHTCTRL
  else if scan =? KB_leftAlt then hold what EVT_LEFTALT
  else if scan =? KB_rightAlt then hold what EVT_RIGHTALT
  else if scan =? KB_delete then
    modifiers ← gets (λ w, kb_keyModifiers (w_kbd w));
    if has modifiers EVT_CTRLSTATE && has modifiers EVT_ALTSTATE then Reboot else mret tt
  else mret tt.

Definition processRawScanCode (stack : event_t) (scan : Z) : EVT unit :=
  k ← gets w_kbd;
  if negb (kb_pauseLoop k =? 0) then on_kbd (set_kb_pauseLoop (i32 (kb_pauseLoop k - 1)))
  else if scan =? 0xE0 then on_kbd (set_kb_extended true)
  else if scan =? 0xE1 then on_kbd (set_kb_pauseLoop 5)
  else
    let what := if has scan 0x80 then EVT_KEYUP else EVT_KEYDOWN in
    let scan := Z.land scan 0x7F in
    (if kb_extended k then on_kbd (set_kb_extended false) else mret tt);;
    if kb_extended k && ((scan =? 0x2A) || (scan =? 0x36)) then mret tt else
    let scan := if kb_extended k then extended_code scan else regular_code scan in
    table ← gets (λ w, kb_keyTable (w_kbd w));
    down ← deref (at_index scan table);
    let set v := on_kbd (λ k, set_kb_keyTable (<[Z.to_nat scan := v]> (kb_keyTable k)) k) in
    what ← (if what =? EVT_KEYDOWN then
              if negb (down =? 0) then mret EVT_KEYREPEAT
              else set scan;; mret what
            else set 0;; mret what);
    (if what =? EVT_KEYREPEAT then mret tt else shift_keys what scan);;
    addKeyEvent stack what (Z.shiftl scan 8).

Definition EVT_allowLEDS (enable : bool) : EVT unit :=
  on_kbd (set_kb_allowLEDS true);;
  modifiers ← gets (λ w, kb_keyModifiers (w_kbd w));
  setLEDS (if enable then modifiers else 0);;
  on_kbd (set_kb_allowLEDS enable).

(** ** The DOS version *)

Definition addMouseEvent (stack : event_t) (what message x y mickeyX mickeyY but_stat : Z) : EVT unit :=
  count ← gets (λ w, q_count (w_queue w));
  if negb (count <? EVENTQSIZE) then mret tt else
  ticks ← _EVT_getTicks;
  modifiers ← gets (λ w, kb_keyModifiers (w_kbd w));
  addEvent (Event (e_which stack) what ticks x y mickeyX mickeyY message (Z.lor but_stat modifiers)
    (e_next stack) (e_prev stack)).

(** The buttons a mask tells of, with its bits for left, right and middle. *)
Definition button_mask (mask left right middle : Z) : Z :=
  Z.lor (Z.lor (if has mask left then EVT_LEFTBMASK else 0) (if has mask right then EVT_RIGHTBMASK else 0))
    (if has mask middle then EVT_MIDDLEBMASK else 0).

(** [keyboardISR], the port's scan code being the argument. *)
Definition keyboardISR (stack : event_t) (scan : Z) : EVT unit :=
  processRawScanCode stack scan;;
  kbval ← PM_inpb 0x61;
  PM_outpb 0x61 (Z.lor kbval 0x80);;
  PM_outpb 0x61 kbval;;
  PM_outpb 0x20 0x20.

Fixpoint keyboard_interrupts (stack : event_t) (keys : list Z) : EVT unit :=
  match keys with
  | [] => mret tt
  | scan :: keys => keyboardISR stack scan;; keyboard_interrupts stack keys
  end.

(** The critical sections of [mouseISR]. *)
Definition move_section (stack : event_t) (butstate x y mickeyX mickeyY : Z) : EVT unit :=
  on_mouse (λ m, set_ms_my y (set_ms_mx x m));;
  oldMove ← gets (λ w, q_oldMove (w_queue w));
  if negb (oldMove =? -1) then
    update_event oldMove (λ e,
      set_e_relative_y (i32 (e_relative_y e + mickeyY)) (set_e_relative_x (i32 (e_relative_x e + mickeyX))
        (set_e_where_y y (set_e_where_x x e))))
  else
    freeHead ← gets (λ w, q_freeHead (w_queue w));
    on_queue (set_q_oldMove freeHead);;
    addMouseEvent stack EVT_MOUSEMOVE 0 x y mickeyX mickeyY butstate.

Definition button_section (stack : event_t) (what buttonMask butstate x y : Z) : EVT unit :=
  addMouseEvent stack what buttonMask x y 0 0 butstate;;
  on_queue (set_q_oldMove (-1)).

Definition mouseISR (stack : event_t) (mask butstate x y mickeyX mickeyY : Z) (keys1 keys2 keys3 : list Z) : EVT unit :=
  (if has mask 1 then move_section stack butstate x y mickeyX mickeyY else mret tt);;
  keyboard_interrupts stack keys1;;
  (if has mask 0x2A then button_section stack EVT_MOUSEDOWN (button_mask mask 2 8 32) butstate x y else mret tt);;
  keyboard_interrupts stack keys2;;
  (if has mask 0x54 then button_section stack EVT_MOUSEUP (button_mask mask 4 16 64) butstate x y else mret tt);;
  keyboard_interrupts stack keys3;;
  on_queue (set_q_oldKey (-1)).

(** ** Interrupts *)

Definition handle (stack : event_t) (i : interrupt) : EVT unit :=
  match i with
  | MouseInt mask butstate x y mickeyX mickeyY keys1 keys2 keys3 =>
      mouseISR stack mask butstate x y mickeyX mickeyY keys1 keys2 keys3
  | KeyInt scan => keyboardISR stack scan
  end.

Fixpoint handle_all (stack : event_t) (batch : list interrupt) : EVT unit :=
  match batch with
  | [] => mret tt
  | i :: batch => handle stack i;; handle_all stack batch
  end.

(** The interrupts that arrive while they are on: those of the next of the
    batches to come, if the handlers are installed. *)
Definition interrupts (stack : event_t) : EVT unit :=
  installed ← gets (λ w, mc_installed (w_machine w));
  if negb installed then mret tt else
  batch ← take_reading [] mc_arrivals set_mc_arrivals;
  handle_all stack batch.

(** ** Starting and stopping *)

(** The loop of [initEventQueue] with its [n] rounds from [i] on. *)
Fixpoint link_spots (pause : EVT unit) (i : Z) (n : nat) : EVT unit :=
  match n with
  | O => mret tt
  | S n =>
      update_event i (set_e_next (i + 1));;
      pause;;
      link_spots pause (i + 1) n
  end.

Definition cleared_event : event_t := Event 0 0 0 0 0 0 0 0 0 0 0.

(** It is called with the interrupts on. *)
Definition initEventQueue_with (pause : EVT unit) : EVT unit :=
  link_spots pause 0 (Z.to_nat EVENTQSIZE);;
  update_event (EVENTQSIZE - 1) (set_e_next (-1));;
  pause;;
  on_queue (λ q, set_q_count 0 (set_q_freeHead 0 q));;
  pause;;
  on_queue (λ q, set_q_head (-1) (set_q_tail (-1) q));;
  pause;;
  on_queue (set_q_oldMove (-1));;
  pause;;
  on_queue (set_q_oldKey (-1));;
  pause;;
  on_queue (set_q_oldJoyMove (-1));;
  pause;;
  on_joy (set_js_joyButState 0);;
  pause;;
  on_mouse (λ m, set_ms_mx 0 (set_ms_my 0 m));;
  pause;;
  on_kbd (set_kb_keyModifiers 0);;
  pause;;
  on_kbd (set_kb_allowLEDS true);;
  pause;;
  on_mouse (λ m, MouseState (ms_mx m) (ms_my m) 440 55 330 0 5 (ms_firstAuto m) (ms_autoMouse_x m) (ms_autoMouse_y m) (ms_downMouse m));;
  pause;;
  on_mouse (set_ms_firstAuto 1);;
  pause;;
  on_mouse (λ m, set_ms_autoMouse_x 0 (set_ms_autoMouse_y 0 m));;
  pause;;
  on_mouse (set_ms_downMouse cleared_event);;
  pause;;
  on_hooks (set_hk_userEventCallback None);;
  pause;;
  on_hooks (set_hk_codePage _CP_US_English);;
  pause;;
  mask ← EVT_joyIsPresent;
  pause;;
  on_joy (set_js_joyMask mask).

Definition initEventQueue (stack : event_t) : EVT unit := initEventQueue_with (interrupts stack).

(** The handlers are installed between [initEventQueue] and the statements
    behind it, where the interrupts may then arrive.  The flag that they are,
    [mc_installed], is [_EVT_installed] too, which the code sets in the end;
    nothing between them reads it.  The pages of the handlers are locked
    once. *)
Definition EVT_resume (stack : event_t) : EVT unit :=
  initEventQueue stack;;
  on_machine (set_mc_installed true);;
  interrupts stack;;
  on_kbd (set_kb_keyModifiers 0);;
  interrupts stack;;
  flags ← gets (λ w, mc_shift_flags (w_machine w));
  let raise flag modifier :=
    (if has flags flag then on_kbd (λ k, set_kb_keyModifiers (Z.lor (kb_keyModifiers k) modifier) k) else mret tt) in
  raise 0x10 EVT_SCROLLLOCK;;
  interrupts stack;;
  raise 0x20 EVT_NUMLOCK;;
  interrupts stack;;
  raise 0x40 EVT_CAPSLOCK;;
  interrupts stack;;
  locked ← gets (λ w, mc_locked (w_machine w));
  (if (locked : bool) then mret tt else
     ok ← gets (λ w, forallb id (mc_locks (w_machine w)));
     if negb ok then exit_with 1 else on_machine (set_mc_locked true));;
  interrupts stack.

(** The handlers are removed first: no interrupt comes to the library in the
    rest of the function. *)
Definition EVT_suspend : EVT unit :=
  installed ← gets (λ w, mc_installed (w_machine w));
  if negb installed then mret tt else
  on_machine (set_mc_installed false);;
  EVT_allowLEDS true;;
  m ← gets (λ w, kb_keyModifiers (w_kbd w));
  on_machine (λ mc, set_mc_shift_flags
    (Z.lor (Z.lor (Z.lor (Z.ldiff (mc_shift_flags mc) 0x70) (if has m EVT_SCROLLLOCK then 0x10 else 0))
       (if has m EVT_NUMLOCK then 0x20 else 0)) (if has m EVT_CAPSLOCK then 0x40 else 0)) mc).

Definition EVT_exit : EVT unit := EVT_suspend.

(** The keys in the buffer of the BIOS become events; [_EVT_getKeyCode] gives
    0 when there is none.  The handlers are installed and the interrupts on,
    in front of each round and between any two statements of
    [addKeyEvent]. *)
Fixpoint drain_keys (fuel : nat) (stack : event_t) : EVT unit :=
  match fuel with
  | O => no_fuel
  | S fuel =>
      interrupts stack;;
      i ← take_reading 0 mc_key_buffer set_mc_key_buffer;
      if i =? 0 then mret tt else
      addKeyEvent_with (interrupts stack) stack EVT_KEYDOWN i;;
      drain_keys fuel stack
  end.

Definition EVT_init (stack : event_t) : EVT unit :=
  EVT_resume stack;;
  keys ← gets (λ w, length (mc_key_buffer (w_machine w)));
  drain_keys (S keys) stack.
