(* ===== verification/EvtApi.v ===== *)
(** * The interface of the event library

    The public functions of [snap/src/pm/gevent.c].  Interrupts arrive where
    [interrupts] stands: whenever the source has them on between two uses of
    the queue. *)
From S2P Require Import Prelude EvtTypes Evt.
Local Open Scope Z_scope.

Section api.
(** What uninitialised locals hold. *)
Context (stack : event_t).

Definition EVT_pollJoystick : EVT unit :=
  j ← gets w_joy;
  if js_joyMask j =? 0 then mret tt else
  r ← _EVT_readJoyAxis (js_joyMask j);
  newButState ← _EVT_readJoyButtons;
  let axis := imap (λ i prev, match r.2 !! i with
                              | Some (Some raw) => scaleJoyAxis raw (nth i (js_joyCenter j) 0) (nth i (js_joyMin j) 0) (nth i (js_joyMax j) 0)
                              | _ => prev
                              end) (js_joyPrev j) in
  let coord i := nth i axis 0 in
  (if bool_decide (axis = js_joyPrev j) then mret tt else
     interrupts stack;;
     on_joy (set_js_joyPrev axis);;
     oldJoyMove ← gets (λ w, q_oldJoyMove (w_queue w));
     count ← gets (λ w, q_count (w_queue w));
     if negb (oldJoyMove =? -1) then
       update_event oldJoyMove (λ e,
         set_e_relative_y (coord 3%nat) (set_e_relative_x (coord 2%nat)
           (set_e_where_y (coord 1%nat) (set_e_where_x (coord 0%nat) (set_e_message newButState e)))))
     else if count <? EVENTQSIZE then
       freeHead ← gets (λ w, q_freeHead (w_queue w));
       on_queue (set_q_oldJoyMove freeHead);;
       addEvent (Event 0 EVT_JOYMOVE 0 (coord 0%nat) (coord 1%nat) (coord 2%nat) (coord 3%nat) (js_joyButState j) 0 0 0)
     else mret tt);;
  if newButState =? js_joyButState j then mret tt else
  interrupts stack;;
  count ← gets (λ w, q_count (w_queue w));
  (if negb (count <? EVENTQSIZE) then mret tt else
     oldJoyMove ← gets (λ w, q_oldJoyMove (w_queue w));
     prev ← gets (λ w, js_joyPrev (w_joy w));
     update_event oldJoyMove (λ e,
       set_e_relative_y (nth 3 prev 0) (set_e_relative_x (nth 2 prev 0)
         (set_e_where_y (nth 1 prev 0) (set_e_where_x (nth 0 prev 0) e))));;
     addEvent (Event 0 EVT_JOYCLICK 0 0 0 0 0 newButState 0 0 0));;
  on_joy (set_js_joyButState newButState).

Definition EVT_joySetUpperLeft : EVT unit :=
  r ← _EVT_readJoyAxis EVT_JOY_AXIS_ALL;
  on_joy (λ j, set_js_joyMin (store_axes r.2 (js_joyMin j)) j).
Definition EVT_joySetLowerRight : EVT unit :=
  r ← _EVT_readJoyAxis EVT_JOY_AXIS_ALL;
  on_joy (λ j, set_js_joyMax (store_axes r.2 (js_joyMax j)) j).
Definition EVT_joySetCenter : EVT unit :=
  r ← _EVT_readJoyAxis EVT_JOY_AXIS_ALL;
  on_joy (λ j, set_js_joyCenter (store_axes r.2 (js_joyCenter j)) j).

Definition EVT_post (which what message modifiers : Z) : EVT bool :=
  count ← gets (λ w, q_count (w_queue w));
  if negb (count <? EVENTQSIZE) then mret false else
  ticks ← _EVT_getTicks;
  interrupts stack;;
  addEvent (Event which what ticks (e_where_x stack) (e_where_y stack) (e_relative_x stack) (e_relative_y stack)
    message modifiers (e_next stack) (e_prev stack));;
  mret true.

(** The search: the first event of the list from [evtID] on that is in the
    mask, -1 when there is none.  A list has at most [EVENTQSIZE] events. *)
Fixpoint find_event (fuel : nat) (evtID mask : Z) : EVT Z :=
  if evtID =? -1 then mret (-1) else
  match fuel with
  | O => no_fuel
  | S fuel =>
      e ← get_event evtID;
      if has (e_what e) mask then mret evtID else find_event fuel (e_next e) mask
  end.

(** What both functions that look for events do first. *)
Definition attend : EVT unit :=
  beat ← gets (λ w, hk_heartBeat (w_hooks w));
  (match beat with
   | Some b => on_machine (λ m, set_mc_calls (mc_calls m ++ [HeartBeat b.1 b.2]) m)
   | None => mret tt
   end);;
  interrupts stack;;
  m ← gets w_mouse;
  on_machine (λ mc, set_mc_calls (mc_calls mc ++ [MouseMove (ms_mx m) (ms_my m)]) mc).

Definition mask_key (evt : event_t) : EVT event_t :=
  if has (e_what evt) EVT_KEYEVT then _EVT_maskKeyCode evt else mret evt.

Definition EVT_peekNext (evt : event_t) (mask : Z) : EVT (bool * event_t) :=
  attend;;
  let evt := set_e_what EVT_NULLEVT evt in
  count ← gets (λ w, q_count (w_queue w));
  if count =? 0 then mret (false, evt) else
  interrupts stack;;
  head ← gets (λ w, q_head (w_queue w));
  evtID ← find_event (Z.to_nat EVENTQSIZE) head mask;
  if evtID =? -1 then mret (false, evt) else
  evt ← get_event evtID;
  interrupts stack;;
  evt ← mask_key evt;
  mret (negb (e_what evt =? EVT_NULLEVT), evt).

(** Taking the event at [evtID] off the queue. *)
Definition take_event (evtID : Z) : EVT event_t :=
  e ← get_event evtID;
  let next := e_next e in
  let prev := e_prev e in
  (if prev =? -1 then on_queue (set_q_head next) else update_event prev (set_e_next next));;
  (if next =? -1 then on_queue (set_q_tail prev) else update_event next (set_e_prev prev));;
  evt ← get_event evtID;
  freeHead ← gets (λ w, q_freeHead (w_queue w));
  update_event evtID (set_e_next freeHead);;
  on_queue (set_q_freeHead evtID);;
  on_queue (λ q, set_q_count (i32 (q_count q - 1)) q);;
  (if e_what evt =? EVT_MOUSEMOVE then on_queue (set_q_oldMove (-1)) else mret tt);;
  (if e_what evt =? EVT_KEYREPEAT then on_queue (set_q_oldKey (-1)) else mret tt);;
  (if e_what evt =? EVT_JOYMOVE then on_queue (set_q_oldJoyMove (-1)) else mret tt);;
  mret evt.

(** The mouse event repeated while a button is down and nothing is pending. *)
Definition auto_mouse (evt : event_t) (mask : Z) : EVT event_t :=
  m ← gets w_mouse;
  if (e_what evt =? EVT_NULLEVT) && negb (ms_autoRepeat m =? 0) && has mask EVT_MOUSEAUTO
     && has (e_what (ms_downMouse m)) EVT_MOUSEDOWN then
    ticks ← _EVT_getTicks;
    if u32 (ms_autoRepeat m + (if ms_firstAuto m =? 0 then 0 else ms_autoDelay m)) <=? u32 (ticks - ms_autoTicks m) then
      on_mouse (set_ms_autoTicks ticks);;
      on_mouse (set_ms_firstAuto 0);;
      mret (Event (e_which evt) EVT_MOUSEAUTO ticks (ms_autoMouse_x m) (ms_autoMouse_y m) 0 0
        (e_message (ms_downMouse m)) (e_modifiers (ms_downMouse m)) (e_next evt) (e_prev evt))
    else mret evt
  else mret evt.

Definition EVT_getNext (evt : event_t) (mask : Z) : EVT (bool * event_t) :=
  attend;;
  let evt := set_e_what EVT_NULLEVT evt in
  let finish evt :=
    evt ← auto_mouse evt mask;
    mret (negb (e_what evt =? EVT_NULLEVT), evt) in
  count ← gets (λ w, q_count (w_queue w));
  if count =? 0 then finish evt else
  interrupts stack;;
  head ← gets (λ w, q_head (w_queue w));
  evtID ← find_event (Z.to_nat EVENTQSIZE) head mask;
  if evtID =? -1 then mret (false, evt) else
  evt ← take_event evtID;
  interrupts stack;;
  evt ← mask_key evt;
  finish evt.

Fixpoint EVT_flush (fuel : nat) (evt : event_t) (mask : Z) : EVT unit :=
  match fuel with
  | O => no_fuel
  | S fuel =>
      r ← EVT_getNext evt mask;
      if e_what r.2 =? EVT_NULLEVT then mret tt else EVT_flush fuel r.2 mask
  end.

Fixpoint EVT_halt (fuel : nat) (evt : event_t) (mask : Z) : EVT event_t :=
  match fuel with
  | O => no_fuel
  | S fuel =>
      (if has mask EVT_JOYEVT then EVT_pollJoystick else mret tt);;
      r ← EVT_getNext evt EVT_EVERYEVT;
      if has (e_what r.2) mask then mret r.2 else EVT_halt fuel r.2 mask
  end.

Definition EVT_setUserEventFilter (filter : option (event_t → bool * event_t)) : EVT unit :=
  on_hooks (set_hk_userEventCallback filter).
Definition EVT_setHeartBeatCallback (beat : option (Z * Z)) : EVT unit := on_hooks (set_hk_heartBeat beat).
Definition EVT_getHeartBeatCallback : EVT (option (Z * Z)) := gets (λ w, hk_heartBeat (w_hooks w)).
Definition EVT_isKeyDown (scanCode : Z) : EVT bool := _EVT_isKeyDown scanCode.

Definition EVT_setMousePos (x y : Z) : EVT unit :=
  on_mouse (λ m, set_ms_my y (set_ms_mx x m));;
  m ← gets w_mouse;
  on_machine (λ mc, set_mc_calls (mc_calls mc ++ [MouseMove (ms_mx m) (ms_my m)]) mc).
Definition EVT_getMousePos : EVT (Z * Z) := m ← gets w_mouse; mret (ms_mx m, ms_my m).
Definition EVT_getCodePage : EVT codepage_t := gets (λ w, hk_codePage (w_hooks w)).
Definition EVT_setCodePage (page : codepage_t) : EVT unit := on_hooks (set_hk_codePage page).
End api.
