(* ===== verification/EvtQueue.v ===== *)
(** * The event queue as a list

    The spots of [EVT.evtq] form two lists through their links, the events in
    order of arrival and the free spots.  [queue_shape] says so; [pending] is
    what the queue holds, and each operation is described by what it does to
    that. *)
From S2P Require Import Prelude EvtTypes Evt EvtApi.
Local Open Scope Z_scope.

Implicit Types (evtq es : list event_t) (ids free : list Z) (q : event_queue) (w : evt_world) (e : event_t).

(** ** Running a command on a group of the state *)

Section groups.
Context {A : Type} (w : evt_world) (k : unit → EVT A).
Lemma bind_queue f : (on_queue f ≫= k) w = k tt (set_w_queue (f (w_queue w)) w). Proof. done. Qed.
Lemma bind_mouse f : (on_mouse f ≫= k) w = k tt (set_w_mouse (f (w_mouse w)) w). Proof. done. Qed.
Lemma bind_joy f : (on_joy f ≫= k) w = k tt (set_w_joy (f (w_joy w)) w). Proof. done. Qed.
Lemma bind_kbd f : (on_kbd f ≫= k) w = k tt (set_w_kbd (f (w_kbd w)) w). Proof. done. Qed.
Lemma bind_hooks f : (on_hooks f ≫= k) w = k tt (set_w_hooks (f (w_hooks w)) w). Proof. done. Qed.
Lemma bind_machine f : (on_machine f ≫= k) w = k tt (set_w_machine (f (w_machine w)) w). Proof. done. Qed.
End groups.

Ltac esteps :=
  repeat first
    [ rewrite bind_ret | rewrite bind_gets | rewrite bind_queue | rewrite bind_mouse | rewrite bind_joy
    | rewrite bind_kbd | rewrite bind_hooks | rewrite bind_machine ].

(** ** Spots *)

Lemma at_index_Some {A} i (l : list A) x : at_index i l = Some x ↔ 0 ≤ i ∧ l !! Z.to_nat i = Some x.
Proof. unfold at_index. destruct (Z.ltb_spec i 0); naive_solver lia. Qed.

Lemma at_index_lt {A} i (l : list A) : 0 ≤ i < Z.of_nat (length l) → ∃ x, at_index i l = Some x.
Proof.
  intros Hi. destruct (lookup_lt_is_Some_2 l (Z.to_nat i)) as [x Hx]; [lia|].
  exists x. apply at_index_Some. naive_solver lia.
Qed.

Lemma at_index_insert {A} i (l : list A) x y :
  at_index i l = Some x → at_index i (<[Z.to_nat i := y]> l) = Some y.
Proof.
  intros [Hi Hx]%at_index_Some. apply at_index_Some. split; [done|].
  apply list_lookup_insert_eq, lookup_lt_is_Some. by eexists.
Qed.

Lemma at_index_insert_ne {A} i j (l : list A) y :
  0 ≤ j → i ≠ j → at_index i (<[Z.to_nat j := y]> l) = at_index i l.
Proof.
  intros Hj Hne. unfold at_index. destruct (Z.ltb_spec i 0); [done|].
  apply list_lookup_insert_ne. lia.
Qed.

(** The event in a spot without its links. *)
Definition strip e : event_t := set_e_prev 0 (set_e_next 0 e).

(** ** Segments of the two lists *)

Fixpoint dseg evtq (prev : Z) ids (after : Z) : Prop :=
  match ids with
  | [] => True
  | i :: ids => (∃ e, at_index i evtq = Some e ∧ e_prev e = prev ∧ e_next e = default after (head ids)) ∧ dseg evtq i ids after
  end.

Fixpoint fseg evtq free : Prop :=
  match free with
  | [] => True
  | i :: free => (∃ e, at_index i evtq = Some e ∧ e_next e = default (-1) (head free)) ∧ fseg evtq free
  end.

(** The last of [ids], or the one in front of them. *)
Definition behind (prev : Z) ids : Z := default prev (last ids).

Lemma behind_cons prev i ids : behind prev (i :: ids) = behind i ids.
Proof. unfold behind. rewrite last_cons. by destruct (last ids). Qed.
Lemma behind_snoc prev ids i : behind prev (ids ++ [i]) = i.
Proof. unfold behind. by rewrite last_snoc. Qed.

Lemma dseg_app evtq prev ids ids' after :
  dseg evtq prev (ids ++ ids') after ↔
  dseg evtq prev ids (default after (head ids')) ∧ dseg evtq (behind prev ids) ids' after.
Proof.
  revert prev. induction ids as [|i ids IH]; intros prev; cbn [app dseg].
  - unfold behind. cbn. tauto.
  - rewrite IH, behind_cons. destruct ids as [|j ids]; cbn [app head from_option id]; tauto.
Qed.

Lemma dseg_insert evtq prev ids after j e :
  0 ≤ j → j ∉ ids → dseg evtq prev ids after → dseg (<[Z.to_nat j := e]> evtq) prev ids after.
Proof.
  intros Hj. revert prev. induction ids as [|i ids IH]; intros prev Hn; [done|].
  apply not_elem_of_cons in Hn as [Hn1 Hn2]. cbn [dseg]. intros [H1 H2]. split; [|by apply IH].
  by rewrite at_index_insert_ne.
Qed.

Lemma fseg_insert evtq free j e :
  0 ≤ j → j ∉ free → fseg evtq free → fseg (<[Z.to_nat j := e]> evtq) free.
Proof.
  intros Hj. induction free as [|i free IH]; intros Hn; [done|].
  apply not_elem_of_cons in Hn as [Hn1 Hn2]. cbn [fseg]. intros [H1 H2]. split; [|by apply IH].
  by rewrite at_index_insert_ne.
Qed.

(** A change of an event that leaves its links changes no list. *)
Lemma dseg_update evtq prev ids after j e e' :
  at_index j evtq = Some e → e_prev e' = e_prev e → e_next e' = e_next e →
  dseg evtq prev ids after → dseg (<[Z.to_nat j := e']> evtq) prev ids after.
Proof.
  intros Hj Ep En. pose proof (proj1 (at_index_Some _ _ _) Hj) as [Hj0 _].
  revert prev. induction ids as [|i ids IH]; intros prev; [done|]. cbn [dseg].
  intros [(x & Hx & Hp & Hn) H2]. split; [|by apply IH].
  destruct (decide (i = j)) as [->|Hne].
  - exists e'. rewrite (at_index_insert _ _ e); [|done]. assert (x = e) as -> by congruence. by rewrite Ep, En.
  - exists x. by rewrite at_index_insert_ne.
Qed.

Lemma fseg_update evtq free j e e' :
  at_index j evtq = Some e → e_next e' = e_next e → fseg evtq free → fseg (<[Z.to_nat j := e']> evtq) free.
Proof.
  intros Hj En. pose proof (proj1 (at_index_Some _ _ _) Hj) as [Hj0 _].
  induction free as [|i free IH]; [done|]. cbn [fseg].
  intros [(x & Hx & Hn) H2]. split; [|by apply IH].
  destruct (decide (i = j)) as [->|Hne].
  - exists e'. rewrite (at_index_insert _ _ e); [|done]. assert (x = e) as -> by congruence. by rewrite En.
  - exists x. by rewrite at_index_insert_ne.
Qed.

(** ** The queue *)

Record queue_shape q ids free : Prop := QueueShape {
  qs_length : length (q_evtq q) = Z.to_nat EVENTQSIZE;
  qs_used : dseg (q_evtq q) (-1) ids (-1);
  qs_free : fseg (q_evtq q) free;
  qs_spots : ids ++ free ≡ₚ seqZ 0 EVENTQSIZE;
  qs_head : q_head q = default (-1) (head ids);
  qs_tail : q_tail q = behind (-1) ids;
  qs_freeHead : q_freeHead q = default (-1) (head free);
  qs_count : q_count q = Z.of_nat (length ids)
}.

(** The events in the spots [ids]. *)
Definition events_at evtq ids : list event_t := omap (λ i, strip <$> at_index i evtq) ids.

(** What the queue holds, by its own links. *)
Fixpoint walk (fuel : nat) evtq (i : Z) : list event_t :=
  match fuel with
  | O => []
  | S fuel => match at_index i evtq with
              | Some e => strip e :: walk fuel evtq (e_next e)
              | None => []
              end
  end.
Definition pending q : list event_t := walk (Z.to_nat EVENTQSIZE) (q_evtq q) (q_head q).

Section shape.
Context {q ids free} (Hq : queue_shape q ids free).

Lemma spot_range i : i ∈ ids ++ free → 0 ≤ i < EVENTQSIZE.
Proof. intros Hi. rewrite (qs_spots _ _ _ Hq) in Hi. apply elem_of_seqZ in Hi. lia. Qed.

Lemma spots_NoDup : NoDup (ids ++ free).
Proof. rewrite (qs_spots _ _ _ Hq). apply NoDup_seqZ. Qed.

Lemma spots_length : (length ids + length free = Z.to_nat EVENTQSIZE)%nat.
Proof. rewrite <- length_app, (qs_spots _ _ _ Hq), length_seqZ. done. Qed.

Lemma spot_event i : i ∈ ids ++ free → ∃ e, at_index i (q_evtq q) = Some e.
Proof. intros Hi%spot_range. apply at_index_lt. rewrite (qs_length _ _ _ Hq). unfold EVENTQSIZE in *. lia. Qed.

Lemma used_not_free i : i ∈ ids → i ∉ free.
Proof. pose proof spots_NoDup as H. apply NoDup_app in H as (_ & H & _). apply H. Qed.

Lemma used_range i : i ∈ ids → 0 ≤ i < EVENTQSIZE.
Proof. intros. apply spot_range, elem_of_app. by left. Qed.
End shape.

Lemma walk_events fuel evtq prev ids :
  (length ids ≤ fuel)%nat → dseg evtq prev ids (-1) →
  walk fuel evtq (default (-1) (head ids)) = events_at evtq ids.
Proof.
  revert fuel prev. induction ids as [|i ids IH]; intros fuel prev Hf H.
  - by destruct fuel.
  - destruct fuel as [|fuel]; [cbn in Hf; lia|]. destruct H as [(e & He & _ & Hn) H].
    unfold events_at. cbn [walk head default from_option id omap list_omap]. rewrite He. cbn. f_equal. rewrite Hn.
    apply (IH fuel i); [cbn in Hf; lia|done].
Qed.

Lemma pending_events q ids free : queue_shape q ids free → pending q = events_at (q_evtq q) ids.
Proof.
  intros Hq. unfold pending. rewrite (qs_head _ _ _ Hq). apply (walk_events _ _ (-1)); [|apply Hq].
  pose proof (spots_length Hq). lia.
Qed.

Lemma events_at_cons evtq i l :
  events_at evtq (i :: l) = match strip <$> at_index i evtq with
                            | Some e => e :: events_at evtq l
                            | None => events_at evtq l
                            end.
Proof. done. Qed.

Lemma events_at_length q ids free :
  queue_shape q ids free → length (events_at (q_evtq q) ids) = length ids.
Proof.
  intros Hq. assert (∀ i, i ∈ ids → is_Some (at_index i (q_evtq q))) as H.
  { intros i Hi. destruct (spot_event Hq i) as [e ->]; [by apply elem_of_app; left|by eexists]. }
  revert H. generalize ids as l. intros l H. induction l as [|i l IH]; [done|]. unfold events_at.
  cbn [omap list_omap]. destruct (H i) as [e ->]; [left|]. cbn. f_equal. apply IH. intros. apply H. by right.
Qed.

Lemma events_at_app evtq l k : events_at evtq (l ++ k) = events_at evtq l ++ events_at evtq k.
Proof. apply omap_app. Qed.

Lemma events_at_ext evtq evtq' l :
  (∀ i, i ∈ l → strip <$> at_index i evtq' = strip <$> at_index i evtq) → events_at evtq' l = events_at evtq l.
Proof.
  induction l as [|i l IH]; intros H; [done|]. rewrite !events_at_cons, (H i) by left.
  by rewrite (IH ltac:(intros; apply H; by right)).
Qed.

Lemma events_at_insert evtq l j e :
  0 ≤ j → j ∉ l → events_at (<[Z.to_nat j := e]> evtq) l = events_at evtq l.
Proof.
  intros Hj Hn. apply events_at_ext. intros i Hi. rewrite at_index_insert_ne; [done|done|].
  intros ->. done.
Qed.

(** A remembered event: none, or one of the queue with the code [what]. *)
Definition tracked (p what : Z) evtq ids : Prop :=
  p = -1 ∨ p ∈ ids ∧ e_what <$> at_index p evtq = Some what.

Record queue_ok q ids free : Prop := QueueOk {
  qo_shape :> queue_shape q ids free;
  qo_move : tracked (q_oldMove q) EVT_MOUSEMOVE (q_evtq q) ids;
  qo_key : tracked (q_oldKey q) EVT_KEYREPEAT (q_evtq q) ids;
  qo_joy : tracked (q_oldJoyMove q) EVT_JOYMOVE (q_evtq q) ids
}.

(** Two arrays with the same events in some spots, links aside. *)
Definition same_events evtq evtq' ids : Prop :=
  ∀ i, i ∈ ids → strip <$> at_index i evtq' = strip <$> at_index i evtq.

Lemma tracked_same evtq evtq' ids ids' p what :
  same_events evtq evtq' ids → ids ⊆ ids' → tracked p what evtq ids → tracked p what evtq' ids'.
Proof.
  intros Hs Hi [->|[Hp Hw]]; [by left|right]. split; [by apply Hi|]. pose proof (Hs p Hp) as H.
  destruct (at_index p evtq) as [e|] eqn:E; [|done]. destruct (at_index p evtq') as [e'|] eqn:E'; [|done].
  cbn in *. injection H. congruence.
Qed.

(** The remembered events are kept by a queue that is otherwise alike. *)
Definition same_marks q q' : Prop :=
  q_oldMove q' = q_oldMove q ∧ q_oldKey q' = q_oldKey q ∧ q_oldJoyMove q' = q_oldJoyMove q.

Lemma marks_kept q q' ids free ids' free' :
  queue_ok q ids free → queue_shape q' ids' free' → same_marks q q' → ids ⊆ ids' →
  same_events (q_evtq q) (q_evtq q') ids → queue_ok q' ids' free'.
Proof.
  intros [_ Hm Hk Hj] Hq' (Em & Ek & Ej) Hi Hs.
  split; [done| | |]; rewrite ?Em, ?Ek, ?Ej; by apply (tracked_same (q_evtq q) _ ids).
Qed.

(** ** Appending *)

Lemma get_event_ok i w e : at_index i (q_evtq (w_queue w)) = Some e → get_event i w = Ok e w.
Proof. intros H. unfold get_event. rewrite bind_gets, H. done. Qed.

Lemma put_event_ok i e' w e :
  at_index i (q_evtq (w_queue w)) = Some e →
  put_event i e' w = Ok tt (set_w_queue (set_q_evtq (<[Z.to_nat i := e']> (q_evtq (w_queue w))) (w_queue w)) w).
Proof. intros H. unfold put_event. by rewrite (bind_Ok _ _ _ _ _ (get_event_ok i w e H)). Qed.

Lemma update_event_ok i f w e :
  at_index i (q_evtq (w_queue w)) = Some e →
  update_event i f w = Ok tt (set_w_queue (set_q_evtq (<[Z.to_nat i := f e]> (q_evtq (w_queue w))) (w_queue w)) w).
Proof.
  intros H. unfold update_event. rewrite (bind_Ok _ _ _ _ _ (get_event_ok i w e H)). by apply (put_event_ok _ _ _ e).
Qed.

(** A changed link of the event in spot [t], unless there is none. *)
Definition relink (f : event_t → event_t) (t : Z) evtq : list event_t :=
  if t =? -1 then evtq else <[Z.to_nat t := f (default cleared_event (at_index t evtq))]> evtq.

(** The queue with an event more. *)
Definition appended evt i q : event_queue :=
  let spot := default cleared_event (at_index i (q_evtq q)) in
  EventQueue (if q_tail q =? -1 then i else q_head q) i (e_next spot) (i32 (q_count q + 1))
    (<[Z.to_nat i := set_e_prev (q_tail q) (set_e_next (-1) evt)]> (relink (set_e_next i) (q_tail q) (q_evtq q)))
    (q_oldMove q) (q_oldKey q) (q_oldJoyMove q).

Lemma behind_elem ids : ids ≠ [] → behind (-1) ids ∈ ids.
Proof.
  intros Hn. destruct (exists_last Hn) as (l & x & ->). rewrite behind_snoc. apply elem_of_app. right. left.
Qed.

Lemma tail_nil q ids free : queue_shape q ids free → (q_tail q =? -1) = bool_decide (ids = []).
Proof.
  intros Hq. rewrite (qs_tail _ _ _ Hq). destruct (decide (ids = [])) as [->|Hn]; [done|].
  rewrite bool_decide_eq_false_2 by done. pose proof (used_range Hq _ (behind_elem ids Hn)). lia.
Qed.

(** With the interrupts off nothing happens between the statements. *)
Lemma append_event_closed evt :
  append_event evt =
    (evtID ← gets (λ w, q_freeHead (w_queue w));
     spot ← get_event evtID;
     on_queue (set_q_freeHead (e_next spot));;
     tail ← gets (λ w, q_tail (w_queue w));
     let evt := set_e_prev tail (set_e_next (-1) evt) in
     (if tail =? -1 then on_queue (set_q_head evtID) else update_event tail (set_e_next evtID));;
     on_queue (set_q_tail evtID);;
     put_event evtID evt;;
     on_queue (λ q, set_q_count (i32 (q_count q + 1)) q)).
Proof. reflexivity. Qed.

Lemma addEvent_closed evt :
  addEvent evt =
    (evt ← note_mouse evt;
     filter ← gets (λ w, hk_userEventCallback (w_hooks w));
     let kept := match filter with Some f => f evt | None => (true, evt) end in
     if negb kept.1 then mret tt else append_event kept.2).
Proof. reflexivity. Qed.

Lemma addKeyEvent_closed stack what message w :
  addKeyEvent stack what message w =
    (count ← gets (λ w, q_count (w_queue w));
     if negb (count <? EVENTQSIZE) then mret tt else
     ticks ← _EVT_getTicks;
     modifiers ← gets (λ w, kb_keyModifiers (w_kbd w));
     let evt := Event (e_which stack) what ticks 0 0 0 0 (Z.lor message 0x10000) modifiers (e_next stack) (e_prev stack) in
     (if what =? EVT_KEYREPEAT then
        oldKey ← gets (λ w, q_oldKey (w_queue w));
        if negb (oldKey =? -1) then update_event oldKey (λ e, set_e_message (u32 (e_message e + 0x10000)) e)
        else
          freeHead ← gets (λ w, q_freeHead (w_queue w));
          on_queue (set_q_oldKey freeHead);;
          addEvent evt
      else addEvent evt);;
     on_queue (set_q_oldMove (-1))) w.
Proof.
  unfold addKeyEvent, addKeyEvent_with. rewrite !bind_gets. destruct (negb _); [done|]. rewrite bind_ret.
  apply bind_ext. intros ticks w1. rewrite bind_ret, !bind_gets. cbv zeta. rewrite bind_ret.
  destruct (what =? EVT_KEYREPEAT); [|done]. rewrite !bind_assoc, !bind_gets. by destruct (negb _).
Qed.

Lemma append_event_run evt w ids i free :
  queue_shape (w_queue w) ids (i :: free) →
  append_event evt w = Ok tt (set_w_queue (appended evt i (w_queue w)) w).
Proof.
  intros Hq. destruct (spot_event Hq i) as [spot Hi]; [apply elem_of_app; right; left|].
  rewrite append_event_closed. unfold appended, relink. rewrite bind_gets, (qs_freeHead _ _ _ Hq). cbn [head default from_option id].
  rewrite (bind_Ok _ _ _ _ _ (get_event_ok i w spot Hi)), Hi, (tail_nil _ _ _ Hq). cbn [from_option id].
  rewrite bind_queue, bind_gets. cbn [w_queue set_w_queue q_tail set_q_freeHead].
  rewrite (tail_nil _ _ _ Hq). case_bool_decide as Hn.
  - rewrite !bind_queue. erewrite bind_Ok; [|by apply (put_event_ok i _ _ spot)]. done.
  - destruct (spot_event Hq (q_tail (w_queue w))) as [last Hl].
    { apply elem_of_app. left. rewrite (qs_tail _ _ _ Hq). by apply behind_elem. }
    erewrite bind_Ok; [|by apply (update_event_ok _ _ _ last)].
    rewrite bind_queue.
    assert (q_tail (w_queue w) ≠ i) as Hne.
    { intros <-. pose proof (spots_NoDup Hq) as Hd. apply NoDup_app in Hd as (_ & Hd & _).
      apply (Hd (q_tail (w_queue w))); [|left]. rewrite (qs_tail _ _ _ Hq). by apply behind_elem. }
    erewrite bind_Ok.
    2: { apply (put_event_ok i _ _ spot). cbn. rewrite at_index_insert_ne; [done| |done]. apply at_index_Some in Hl. lia. }
    rewrite Hl. done.
Qed.

Lemma strip_links e n p : strip (set_e_prev p (set_e_next n e)) = strip e.
Proof. done. Qed.

Lemma same_events_insert evtq ids j e : 0 ≤ j → j ∉ ids → same_events evtq (<[Z.to_nat j := e]> evtq) ids.
Proof. intros Hj Hn i Hi. by rewrite at_index_insert_ne by (done || by intros ->). Qed.

Lemma same_events_links evtq ids j e e' :
  at_index j evtq = Some e → strip e' = strip e → same_events evtq (<[Z.to_nat j := e']> evtq) ids.
Proof.
  intros Hj Hs i Hi. pose proof (proj1 (at_index_Some _ _ _) Hj) as [Hj0 _].
  destruct (decide (i = j)) as [->|Hne].
  - rewrite (at_index_insert _ _ e), Hj by done. cbn. by rewrite Hs.
  - by rewrite at_index_insert_ne.
Qed.

Lemma same_events_trans evtq evtq' evtq'' ids :
  same_events evtq evtq' ids → same_events evtq' evtq'' ids → same_events evtq evtq'' ids.
Proof. intros H H' i Hi. by rewrite H', H. Qed.

Lemma length_relink f t evtq : length (relink f t evtq) = length evtq.
Proof. unfold relink. case_match; [done|]. apply length_insert. Qed.

Lemma relink_spot f t evtq e : 0 ≤ t → at_index t evtq = Some e → relink f t evtq = <[Z.to_nat t := f e]> evtq.
Proof. intros Ht He. unfold relink. rewrite He. destruct (Z.eqb_spec t (-1)); [lia|done]. Qed.

Lemma at_relink_ne f t evtq i : -1 ≤ t → i ≠ t → at_index i (relink f t evtq) = at_index i evtq.
Proof.
  intros Ht Hne. unfold relink. destruct (Z.eqb_spec t (-1)); [done|]. by rewrite at_index_insert_ne by lia.
Qed.

Lemma relink_same f t evtq ids : (∀ e, strip (f e) = strip e) → -1 ≤ t → same_events evtq (relink f t evtq) ids.
Proof.
  intros Hf Ht i Hi. destruct (decide (i = t)) as [->|Hne]; [|by rewrite at_relink_ne].
  destruct (at_index t evtq) as [e|] eqn:E.
  - rewrite (relink_spot _ _ _ e); [|by apply at_index_Some in E as []|done].
    rewrite (at_index_insert _ _ e) by done. cbn. by rewrite Hf.
  - unfold relink. rewrite E. destruct (Z.eqb_spec t (-1)); [by rewrite E|].
    unfold at_index in *. destruct (Z.ltb_spec t 0); [done|].
    rewrite list_insert_ge by (by apply lookup_ge_None). by rewrite E.
Qed.

Lemma relink_fseg f t evtq free : -1 ≤ t → t ∉ free → fseg evtq free → fseg (relink f t evtq) free.
Proof. intros ??. unfold relink. destruct (Z.eqb_spec t (-1)); [done|]. apply fseg_insert; [lia|done]. Qed.

Lemma relink_dseg f t evtq prev ids after :
  -1 ≤ t → t ∉ ids → dseg evtq prev ids after → dseg (relink f t evtq) prev ids after.
Proof. intros ??. unfold relink. destruct (Z.eqb_spec t (-1)); [done|]. apply dseg_insert; [lia|done]. Qed.

(** What follows a segment, and what is in front of it, is changed at its end. *)
Lemma relink_next evtq ids after n :
  NoDup ids → Forall (λ i, 0 ≤ i) ids → dseg evtq (-1) ids after →
  dseg (relink (set_e_next n) (behind (-1) ids) evtq) (-1) ids n.
Proof.
  destruct (decide (ids = [])) as [->|Hn]; [done|]. destruct (exists_last Hn) as (l & t & ->).
  intros (_ & Hd & _)%NoDup_app Hp Hs. rewrite behind_snoc. apply dseg_app in Hs as [Hl [(e & He & Hpe & _) _]].
  assert (0 ≤ t) as Ht by (by apply Forall_app in Hp as [_ Hp]; inversion_clear Hp).
  assert (t ∉ l) as Htl by (intros Hx; apply (Hd t Hx); left).
  rewrite (relink_spot _ _ _ e) by done. apply dseg_app. split; [by apply dseg_insert|].
  cbn [dseg]. split; [|done]. eexists. by rewrite (at_index_insert _ _ e).
Qed.

Lemma relink_prev evtq ids prev p after :
  NoDup ids → Forall (λ i, 0 ≤ i) ids → dseg evtq prev ids after →
  dseg (relink (set_e_prev p) (default (-1) (head ids)) evtq) p ids after.
Proof.
  destruct ids as [|t l]; [done|]. intros [Ht Hd]%NoDup_cons [Hp _]%Forall_cons [(e & He & _ & Hn) Hs].
  cbn [head from_option id default].
  rewrite (relink_spot _ _ _ e) by done. cbn [dseg]. split; [|by apply dseg_insert].
  eexists. by rewrite (at_index_insert _ _ e).
Qed.

Lemma behind_range q ids free : queue_shape q ids free → -1 ≤ behind (-1) ids.
Proof.
  intros Hq. destruct (decide (ids = [])) as [->|Hn]; [done|]. pose proof (used_range Hq _ (behind_elem ids Hn)). lia.
Qed.

Lemma spots_nonneg q ids free : queue_shape q ids free → Forall (λ i, 0 ≤ i) (ids ++ free).
Proof. intros Hq. apply Forall_forall. intros i Hi. pose proof (spot_range Hq i Hi). lia. Qed.

Lemma behind_notin q ids free : queue_shape q ids free → behind (-1) ids ∉ free.
Proof.
  intros Hq. destruct (decide (ids = [])) as [->|Hn].
  - intros Hx. assert (-1 ∈ [] ++ free) as Hx' by done. apply (spot_range Hq) in Hx'. lia.
  - apply (used_not_free Hq), behind_elem, Hn.
Qed.

(** The array behind [appended]. *)
Lemma appended_array evt i q ids free :
  queue_shape q ids (i :: free) →
  let evtq' := q_evtq (appended evt i q) in
  dseg evtq' (-1) (ids ++ [i]) (-1) ∧ fseg evtq' free ∧ same_events (q_evtq q) evtq' ids ∧
  length evtq' = length (q_evtq q) ∧ strip <$> at_index i evtq' = Some (strip evt).
Proof.
  intros Hq. destruct (spot_event Hq i) as [spot Hi]; [apply elem_of_app; right; left|].
  pose proof (spots_NoDup Hq) as (Hd1 & Hd2 & Hd3)%NoDup_app. apply NoDup_cons in Hd3 as [Hif Hdf].
  pose proof (proj1 (at_index_Some _ _ _) Hi) as [Hi0 _].
  assert (i ∉ ids) as Hii by (intros Hx; apply (Hd2 i Hx); left).
  pose proof (behind_range _ _ _ Hq) as Hb. pose proof (behind_notin _ _ _ Hq) as [Hbi Hbf]%not_elem_of_cons.
  pose proof (qs_free _ _ _ Hq) as [_ Hfree]. pose proof (spots_nonneg _ _ _ Hq) as [Hp _]%Forall_app.
  cbn zeta. unfold appended. cbn [q_evtq]. rewrite (qs_tail _ _ _ Hq).
  assert (at_index i (relink (set_e_next i) (behind (-1) ids) (q_evtq q)) = Some spot) as Hi' by (by rewrite at_relink_ne by done).
  split_and!.
  - apply dseg_app. cbn [head from_option id default]. split; [by apply dseg_insert, (relink_next _ _ (-1)); try apply Hq|].
    cbn [dseg]. split; [|done]. eexists. by rewrite (at_index_insert _ _ spot).
  - by apply fseg_insert, relink_fseg.
  - eapply same_events_trans; [by apply (relink_same (set_e_next i) (behind (-1) ids))|by apply same_events_insert].
  - by rewrite length_insert, length_relink.
  - by rewrite (at_index_insert _ _ spot).
Qed.

Lemma appended_ok evt i q ids free :
  queue_shape q ids (i :: free) →
  queue_shape (appended evt i q) (ids ++ [i]) free ∧ same_events (q_evtq q) (q_evtq (appended evt i q)) ids ∧
  pending (appended evt i q) = pending q ++ [strip evt].
Proof.
  intros Hq. pose proof (appended_array evt i q ids free Hq) as (Hu & Hf & Hs & Hlen & Hend). cbn zeta in *.
  pose proof (spots_length Hq) as Hsl. cbn [length] in Hsl. unfold EVENTQSIZE in Hsl.
  destruct (spot_event Hq i) as [spot Hi]; [apply elem_of_app; right; left|].
  assert (queue_shape (appended evt i q) (ids ++ [i]) free) as Hq'.
  { split; [by rewrite Hlen, (qs_length _ _ _ Hq)|done..| | | | |].
    - rewrite <- app_assoc. apply Hq.
    - unfold appended. cbn [q_head]. rewrite (tail_nil _ _ _ Hq), (qs_head _ _ _ Hq).
      by destruct ids; case_bool_decide.
    - by rewrite behind_snoc.
    - unfold appended. cbn [q_freeHead]. rewrite Hi. cbn. destruct (qs_free _ _ _ Hq) as [(e & He & Hn) _]. congruence.
    - unfold appended. cbn [q_count]. rewrite (qs_count _ _ _ Hq), length_app. cbn [length]. rewrite i32_small; lia. }
  split; [done|]. split; [done|].
  rewrite (pending_events _ _ _ Hq), (pending_events _ _ _ Hq'), events_at_app. f_equal; [by apply events_at_ext|].
  rewrite events_at_cons, Hend. done.
Qed.

(** ** Finding and taking *)

Definition no_match mask es : Prop := Forall (λ e, has (e_what e) mask = false) es.

Lemma strip_what e : e_what (strip e) = e_what e.
Proof. done. Qed.

(** The first event of a segment that is in the mask, or -1. *)
Lemma find_event_run mask w prev ids fuel :
  (length ids ≤ fuel)%nat → Forall (λ i, 0 ≤ i) ids → dseg (q_evtq (w_queue w)) prev ids (-1) →
  let es := events_at (q_evtq (w_queue w)) in
  (find_event fuel (default (-1) (head ids)) mask w = Ok (-1) w ∧ no_match mask (es ids)) ∨
  ∃ before i after e, ids = before ++ i :: after ∧ at_index i (q_evtq (w_queue w)) = Some e ∧
    has (e_what e) mask = true ∧ no_match mask (es before) ∧
    find_event fuel (default (-1) (head ids)) mask w = Ok i w.
Proof.
  cbn zeta. revert prev fuel. induction ids as [|i ids IH]; intros prev fuel Hf Hp Hs.
  { left. split; [by destruct fuel|constructor]. }
  destruct fuel as [|fuel]; [cbn in Hf; lia|]. apply Forall_cons in Hp as [Hi Hp].
  destruct Hs as [(e & He & _ & Hn) Hs]. cbn [head from_option id default find_event].
  destruct (Z.eqb_spec i (-1)); [lia|]. rewrite (bind_Ok _ _ _ _ _ (get_event_ok _ _ e He)).
  destruct (has (e_what e) mask) eqn:Ew.
  - right. exists [], i, ids, e. split_and!; [done..|constructor|done].
  - rewrite Hn. destruct (IH i fuel) as [[E Hno]|(before & j & after & e' & -> & Hj & Hm & Hno & E)]; [cbn in Hf; lia|done..| |].
    + left. split; [done|]. rewrite events_at_cons, He. by constructor.
    + right. exists (i :: before), j, after, e'. split_and!; [done..| |done].
      rewrite events_at_cons, He. by constructor.
Qed.

(** The queue without the event in spot [i]. *)
Definition unlinked i q : event_queue :=
  let e := default cleared_event (at_index i (q_evtq q)) in
  let evtq := relink (set_e_prev (e_prev e)) (e_next e) (relink (set_e_next (e_next e)) (e_prev e) (q_evtq q)) in
  let forget what p := if e_what e =? what then -1 else p in
  EventQueue (if e_prev e =? -1 then e_next e else q_head q) (if e_next e =? -1 then e_prev e else q_tail q) i (i32 (q_count q - 1))
    (<[Z.to_nat i := set_e_next (q_freeHead q) e]> evtq)
    (forget EVT_MOUSEMOVE (q_oldMove q)) (forget EVT_KEYREPEAT (q_oldKey q)) (forget EVT_JOYMOVE (q_oldJoyMove q)).

Lemma update_relink t f w :
  t ≠ -1 → is_Some (at_index t (q_evtq (w_queue w))) →
  update_event t f w = Ok tt (set_w_queue (set_q_evtq (relink f t (q_evtq (w_queue w))) (w_queue w)) w).
Proof.
  intros Hne [e He]. rewrite (update_event_ok _ _ _ e) by done. rewrite (relink_spot _ _ _ e); [done| |done].
  by apply at_index_Some in He as [].
Qed.

Section taking.
Context {q before i after free} (Hq : queue_shape q (before ++ i :: after) free).

Lemma taken_split : NoDup before ∧ NoDup after ∧ (i ∉ before) ∧ (i ∉ after) ∧ (i ∉ free) ∧
  (∀ x, x ∈ before → (x ∉ after) ∧ (x ∉ free)) ∧ (∀ x, x ∈ after → x ∉ free).
Proof.
  pose proof (spots_NoDup Hq) as ((Hb & Hx & Ha)%NoDup_app & Hf & _)%NoDup_app.
  apply NoDup_cons in Ha as [Hia Ha]. split_and!; try done.
  - intros Hi. apply (Hx i Hi). left.
  - apply Hf, elem_of_app. right. left.
  - intros x Hxb. split; [|apply Hf, elem_of_app; by left]. intros Hxa. apply (Hx x Hxb). by right.
  - intros x Hxa. apply Hf, elem_of_app. right. by right.
Qed.

Lemma taken_event : ∃ e, at_index i (q_evtq q) = Some e ∧ e_prev e = behind (-1) before ∧ e_next e = default (-1) (head after) ∧
  dseg (q_evtq q) (-1) before i ∧ dseg (q_evtq q) i after (-1).
Proof. destruct (proj1 (dseg_app _ _ _ _ _) (qs_used _ _ _ Hq)) as [Hb [(e & He & Hp & Hn) Ha]]. by exists e. Qed.

Lemma taken_range : -1 ≤ behind (-1) before ∧ -1 ≤ default (-1) (head after) ∧ 0 ≤ i ∧
  behind (-1) before ≠ i ∧ default (-1) (head after) ≠ i ∧
  (behind (-1) before ∉ after) ∧ (default (-1) (head after) ∉ before) ∧
  (behind (-1) before ∉ free) ∧ (default (-1) (head after) ∉ free).
Proof.
  destruct taken_split as (_ & _ & Hib & Hia & Hif & Hbx & Hax).
  assert (∀ x, x ∈ before ++ i :: after → 0 ≤ x) as Hr by (intros x Hx; pose proof (used_range Hq x Hx); lia).
  assert (-1 ∉ free) as Hneg.
  { intros Hx. assert (-1 ∈ (before ++ i :: after) ++ free) as Hx' by (apply elem_of_app; by right).
    apply (spot_range Hq) in Hx'. lia. }
  assert (0 ≤ i) as Hi by (apply Hr, elem_of_app; right; left).
  assert (behind (-1) before = -1 ∨ behind (-1) before ∈ before) as Hb.
  { destruct (decide (before = [])) as [->|Hn]; [by left|right; by apply behind_elem]. }
  assert (default (-1) (head after) = -1 ∨ default (-1) (head after) ∈ after) as Ha.
  { destruct after; [by left|right; left]. }
  assert (∀ x, x ∈ before → 0 ≤ x) as Hrb by (intros; apply Hr, elem_of_app; by left).
  assert (∀ x, x ∈ after → 0 ≤ x) as Hra by (intros; apply Hr, elem_of_app; right; by right).
  set (b := behind (-1) before) in *. set (a := default (-1) (head after)) in *. clearbody a b.
  assert (∀ x (l : list Z), x = -1 ∨ x ∈ l → (∀ y, y ∈ l → 0 ≤ y) → -1 ≤ x) as Hge by (intros x l [->|Hx] H; [|specialize (H _ Hx)]; lia).
  assert (∀ x y (l : list Z), x = -1 ∨ x ∈ l → 0 ≤ y → (y ∉ l) → x ≠ y) as Hne by (intros x y l Hx ? H ->; destruct Hx as [->|Hx]; [lia|done]).
  assert (∀ x (l k : list Z), x = -1 ∨ x ∈ l → (-1 ∉ k) → (∀ y, y ∈ l → (y ∉ k)) → (x ∉ k)) as Hni by (intros x l k [->|Hx] ? H; [done|by apply H]).
  assert (∀ l : list Z, (∀ y : Z, y ∈ l → 0 ≤ y) → -1 ∉ l) as Hm1 by (intros l H Hx; specialize (H _ Hx); lia).
  split; [by eapply Hge|]. split; [by eapply Hge|]. split; [done|]. split; [by eapply Hne|]. split; [by eapply Hne|].
  split; [eapply Hni; [done|by apply Hm1|naive_solver]|].
  split; [eapply Hni; [done|by apply Hm1|naive_solver]|].
  split; [eapply Hni; [done..|naive_solver]|eapply Hni; [done..|naive_solver]].
Qed.
End taking.

Lemma set_queue_twice q q' w : set_w_queue q' (set_w_queue q w) = set_w_queue q' w.
Proof. done. Qed.
Lemma set_queue_id w : set_w_queue (w_queue w) w = w.
Proof. by destruct w. Qed.

Lemma take_event_run w before i after free e :
  queue_shape (w_queue w) (before ++ i :: after) free → at_index i (q_evtq (w_queue w)) = Some e →
  take_event i w = Ok e (set_w_queue (unlinked i (w_queue w)) w).
Proof.
  intros Hq Hi. destruct (taken_event Hq) as (e' & He' & Hp & Hn & Hb & Ha). assert (e' = e) as -> by congruence.
  destruct (taken_range Hq) as (Hb1 & Ha1 & Hi0 & Hbi & Hai & Hba & Hab & _). rewrite <- Hp in *. rewrite <- Hn in *.
  assert (∀ t, t = behind (-1) before ∨ t = default (-1) (head after) → t ≠ -1 → is_Some (at_index t (q_evtq (w_queue w)))) as Hsome.
  { intros t Ht Hne. destruct (spot_event Hq t) as [x Hx]; [|by exists x]. apply elem_of_app. left. apply elem_of_app.
    destruct Ht as [-> | ->].
    - left. apply behind_elem. intros ->. done.
    - right. destruct after; [done|]. right. left. }
  rewrite <- Hp, <- Hn in Hsome.
  unfold take_event, unlinked. rewrite (bind_Ok _ _ _ _ _ (get_event_ok _ _ _ Hi)), Hi. cbn [from_option id default].
  set (n := e_next e) in *. set (p := e_prev e) in *.
  set (w1 := set_w_queue (let q := w_queue w in EventQueue (if p =? -1 then n else q_head q) (q_tail q) (q_freeHead q) (q_count q)
    (relink (set_e_next n) p (q_evtq q)) (q_oldMove q) (q_oldKey q) (q_oldJoyMove q)) w).
  assert ((if p =? -1 then on_queue (set_q_head n) else update_event p (set_e_next n)) w = Ok tt w1) as E1.
  { destruct (Z.eqb_spec p (-1)) as [E|E].
    - unfold w1, relink. rewrite E. done.
    - rewrite update_relink by auto. unfold w1. destruct (Z.eqb_spec p (-1)); [done|]. done. }
  rewrite (bind_Ok _ _ _ _ _ E1). clear E1.
  set (w2 := set_w_queue (let q := w_queue w1 in EventQueue (q_head q) (if n =? -1 then p else q_tail q) (q_freeHead q) (q_count q)
    (relink (set_e_prev p) n (q_evtq q)) (q_oldMove q) (q_oldKey q) (q_oldJoyMove q)) w).
  assert ((if n =? -1 then on_queue (set_q_tail p) else update_event n (set_e_prev p)) w1 = Ok tt w2) as E2.
  { destruct (Z.eqb_spec n (-1)) as [E|E].
    - unfold w2, relink. rewrite E. done.
    - rewrite update_relink; [|done|].
      + unfold w2. destruct (Z.eqb_spec n (-1)); [done|]. done.
      + cbn [w_queue w1 set_w_queue q_evtq]. destruct (decide (n = p)) as [Enp|Enp].
        * destruct (Hsome n) as [x Hx]; [auto..|]. rewrite <- Enp, (relink_spot _ _ _ x); [|lia|done].
          rewrite (at_index_insert _ _ x) by done. by eexists.
        * rewrite at_relink_ne by done. auto. }
  rewrite (bind_Ok _ _ _ _ _ E2). clear E2.
  assert (at_index i (q_evtq (w_queue w2)) = Some e) as Hi2.
  { cbn [w_queue w2 set_w_queue q_evtq w1]. rewrite !at_relink_ne by done. done. }
  rewrite (bind_Ok _ _ _ _ _ (get_event_ok _ _ _ Hi2)), bind_gets.
  rewrite (bind_Ok _ _ _ _ _ (update_event_ok _ _ _ _ Hi2)), !bind_queue.
  unfold unlinked. destruct (e_what e =? EVT_MOUSEMOVE), (e_what e =? EVT_KEYREPEAT), (e_what e =? EVT_JOYMOVE); done.
Qed.

Lemma default_head_app (d : Z) l k : default d (head (l ++ k)) = default (default d (head k)) (head l).
Proof. by destruct l. Qed.
Lemma behind_app d l k : behind d (l ++ k) = behind (behind d l) k.
Proof. revert d. induction l as [|x l IH]; intros d; [done|]. cbn [app]. rewrite !behind_cons. apply IH. Qed.
Lemma head_neg (l : list Z) : Forall (λ i, 0 ≤ i) l → (default (-1) (head l) =? -1) = bool_decide (l = []).
Proof. destruct l as [|x l]; [done|]. intros [Hx _]%Forall_cons. rewrite bool_decide_eq_false_2 by done. cbn. lia. Qed.
Lemma behind_neg (l : list Z) : Forall (λ i, 0 ≤ i) l → (behind (-1) l =? -1) = bool_decide (l = []).
Proof.
  intros Hl. destruct (decide (l = [])) as [->|Hn]; [done|]. rewrite bool_decide_eq_false_2 by done.
  pose proof (proj1 (Forall_forall _ _) Hl _ (behind_elem l Hn)). cbn beta in *. lia.
Qed.

Lemma unlinked_shape q before i after free :
  queue_shape q (before ++ i :: after) free →
  queue_shape (unlinked i q) (before ++ after) (i :: free) ∧ same_events (q_evtq q) (q_evtq (unlinked i q)) (before ++ after).
Proof.
  intros Hq. destruct (taken_event Hq) as (e & Hi & Hp & Hn & Hb & Ha).
  destruct (taken_range Hq) as (Hb1 & Ha1 & Hi0 & Hbi & Hai & Hba & Hab & Hbf & Haf).
  destruct (taken_split Hq) as (Hdb & Hda & Hib & Hia & Hif & _ & _).
  pose proof (spots_nonneg _ _ _ Hq) as [[Hpb [_ Hpa]%Forall_cons]%Forall_app Hpf]%Forall_app.
  pose proof (spots_length Hq) as Hsl. rewrite length_app in Hsl. cbn [length] in Hsl. unfold EVENTQSIZE in Hsl.
  unfold unlinked. rewrite Hi. cbn [from_option id]. rewrite Hp, Hn.
  set (p := behind (-1) before) in *. set (n := default (-1) (head after)) in *.
  set (evtq1 := relink (set_e_next n) p (q_evtq q)). set (evtq2 := relink (set_e_prev p) n evtq1).
  assert (at_index i evtq2 = Some e) as Hi2 by (unfold evtq2, evtq1; rewrite !at_relink_ne; done).
  assert (same_events (q_evtq q) (<[Z.to_nat i := set_e_next (q_freeHead q) e]> evtq2) (before ++ after)) as Hs.
  { eapply same_events_trans; [|apply same_events_insert; [done|rewrite elem_of_app; tauto]].
    eapply same_events_trans; [by apply (relink_same (set_e_next n) p)|by apply relink_same]. }
  split; [|done]. split; cbn [q_evtq q_head q_tail q_freeHead q_count].
  - unfold evtq2, evtq1. rewrite length_insert, !length_relink. apply Hq.
  - apply dseg_insert; [done|rewrite elem_of_app; tauto|]. apply dseg_app. fold n p. split.
    + apply relink_dseg; [done..|]. by apply (relink_next _ _ i).
    + apply (relink_prev _ _ i); [done..|]. by apply relink_dseg.
  - cbn [fseg]. split.
    + eexists. rewrite (at_index_insert _ _ e) by done. split; [done|]. cbn. apply Hq.
    + apply fseg_insert; [done..|]. apply relink_fseg; [done..|]. apply relink_fseg; [done..|]. apply Hq.
  - rewrite <- (qs_spots _ _ _ Hq). rewrite <- !app_assoc. cbn. by rewrite Permutation_middle.
  - unfold p. rewrite (behind_neg _ Hpb), (qs_head _ _ _ Hq), !default_head_app. fold n.
    case_bool_decide as E; [by rewrite E|]. by destruct before.
  - unfold n. rewrite (head_neg _ Hpa), (qs_tail _ _ _ Hq), !behind_app, behind_cons. fold p.
    case_bool_decide as E; [by rewrite E|]. unfold behind. destruct (last after) eqn:El; [done|]. by apply last_None in El.
  - done.
  - rewrite (qs_count _ _ _ Hq), !length_app. cbn [length]. rewrite i32_small; lia.
Qed.

Lemma unlinked_ok q before i after free :
  queue_ok q (before ++ i :: after) free →
  queue_ok (unlinked i q) (before ++ after) (i :: free) ∧
  pending (unlinked i q) = events_at (q_evtq q) before ++ events_at (q_evtq q) after.
Proof.
  intros [Hq Hm Hk Hj]. destruct (unlinked_shape _ _ _ _ _ Hq) as [Hq' Hs].
  destruct (taken_event Hq) as (e & Hi & _). split.
  - assert (∀ p what, tracked p what (q_evtq q) (before ++ i :: after) →
      tracked (if e_what e =? what then -1 else p) what (q_evtq (unlinked i q)) (before ++ after)) as Hkeep.
    { intros p what Hp. destruct (Z.eqb_spec (e_what e) what) as [E|E]; [by left|].
      apply (tracked_same (q_evtq q) _ (before ++ after)); [done..|].
      destruct Hp as [->|[Hp Hw]]; [by left|right]. split; [|done].
      rewrite elem_of_app, elem_of_cons in Hp. rewrite elem_of_app. destruct Hp as [Hp|[->|Hp]]; [tauto| |tauto].
      rewrite Hi in Hw. cbn in Hw. congruence. }
    split; [done| | |]; unfold unlinked at 1; cbn [q_oldMove q_oldKey q_oldJoyMove]; rewrite Hi; by apply Hkeep.
  - rewrite (pending_events _ _ _ Hq'), <- events_at_app. by apply events_at_ext.
Qed.

Lemma pending_around q before i after free e :
  queue_shape q (before ++ i :: after) free → at_index i (q_evtq q) = Some e →
  pending q = events_at (q_evtq q) before ++ strip e :: events_at (q_evtq q) after.
Proof. intros Hq Hi. by rewrite (pending_events _ _ _ Hq), events_at_app, events_at_cons, Hi. Qed.

(** ** A changed event *)

(** A change of an event of the queue that leaves its links and its code. *)
Definition payload_change (f : event_t → event_t) : Prop :=
  ∀ e, e_next (f e) = e_next e ∧ e_prev (f e) = e_prev e ∧ e_what (f e) = e_what e ∧ strip (f e) = f (strip e).

Definition changed (f : event_t → event_t) (i : Z) q : event_queue :=
  set_q_evtq (<[Z.to_nat i := f (default cleared_event (at_index i (q_evtq q)))]> (q_evtq q)) q.

Lemma changed_run f i w ids free :
  queue_shape (w_queue w) ids free → i ∈ ids → update_event i f w = Ok tt (set_w_queue (changed f i (w_queue w)) w).
Proof.
  intros Hq Hi. destruct (spot_event Hq i) as [e He]; [apply elem_of_app; by left|].
  rewrite (update_event_ok _ _ _ e) by done. unfold changed. by rewrite He.
Qed.

Lemma changed_ok f q before i after free :
  payload_change f → queue_ok q (before ++ i :: after) free →
  queue_ok (changed f i q) (before ++ i :: after) free ∧
  ∃ e, at_index i (q_evtq q) = Some e ∧
    pending q = events_at (q_evtq q) before ++ strip e :: events_at (q_evtq q) after ∧
    pending (changed f i q) = events_at (q_evtq q) before ++ f (strip e) :: events_at (q_evtq q) after.
Proof.
  intros Hf [Hq Hm Hk Hj]. destruct (taken_event Hq) as (e & Hi & _). destruct (Hf e) as (Fn & Fp & Fw & Fs).
  destruct (taken_split Hq) as (_ & _ & Hib & Hia & _). pose proof (taken_range Hq) as (_ & _ & Hi0 & _).
  unfold changed. rewrite Hi. cbn [from_option id].
  set (q' := set_q_evtq (<[Z.to_nat i := f e]> (q_evtq q)) q).
  assert (queue_shape q' (before ++ i :: after) free) as Hq'.
  { destruct Hq. split; try done; cbn [q' set_q_evtq q_evtq].
    - by rewrite length_insert.
    - by apply (dseg_update _ _ _ _ _ e).
    - by apply (fseg_update _ _ _ e). }
  split.
  - assert (∀ p what, tracked p what (q_evtq q) (before ++ i :: after) → tracked p what (q_evtq q') (before ++ i :: after)) as Hkeep.
    { intros p what [->|[Hp Hw]]; [by left|right]. split; [done|]. cbn [q' set_q_evtq q_evtq].
      destruct (decide (p = i)) as [->|Hne]; [|by rewrite at_index_insert_ne].
      rewrite (at_index_insert _ _ e) by done. rewrite Hi in Hw. cbn in *. congruence. }
    split; [done|by apply Hkeep..].
  - exists e. split; [done|]. split; [by apply (pending_around _ _ i _ free)|].
    rewrite (pending_around q' before i after free (f e)); [|done|cbn; by apply (at_index_insert _ _ e)].
    rewrite Fs. cbn [q' set_q_evtq q_evtq]. by rewrite !events_at_insert.
Qed.

(** ** Adding an event *)

(** The event [note_mouse] makes of one: a button pressed again is a double
    click. *)
Definition classify (m : mouse_state) e : event_t :=
  let down := ms_downMouse m in
  if has (e_what e) EVT_MOUSEEVT && (has (e_what e) EVT_MOUSEDOWN && negb (has (e_message e) EVT_DBLCLICK))
     && ((e_message e =? e_message down)
         && (u32 (e_when e - e_when down) <=? ms_doubleClick m)
         && (u32 (Z.abs (i32 (e_where_x e - e_where_x down))) <=? ms_doubleClickThresh m)
         && (u32 (Z.abs (i32 (e_where_y e - e_where_y down))) <=? ms_doubleClickThresh m))
  then set_e_message (Z.lor (e_message e) EVT_DBLCLICK) e else e.

(** A state that differs from [w] in the queue, the mouse and the clock. *)
Definition touched q (m : mouse_state) (c : list Z) w : evt_world :=
  EvtWorld q m (w_joy w) (w_kbd w) (w_hooks w) (set_mc_clock c (w_machine w)).

Lemma touched_id w : touched (w_queue w) (w_mouse w) (mc_clock (w_machine w)) w = w.
Proof. by destruct w as [?????[]]. Qed.

Lemma getTicks_run w : ∃ t c, _EVT_getTicks w = Ok t (touched (w_queue w) (w_mouse w) c w).
Proof. exists (u32 (hd 0 (mc_clock (w_machine w)) * 55)), (tl (mc_clock (w_machine w))). by destruct w. Qed.

Lemma note_mouse_run e w : ∃ m c, note_mouse e w = Ok (classify (w_mouse w) e) (touched (w_queue w) m c w).
Proof.
  unfold note_mouse, classify. destruct (has (e_what e) EVT_MOUSEEVT); cbn [negb andb].
  2: { exists (w_mouse w), (mc_clock (w_machine w)). by rewrite touched_id. }
  rewrite !bind_mouse. set (w0 := set_w_mouse _ _).
  destruct (has (e_what e) EVT_MOUSEDOWN && negb (has (e_message e) EVT_DBLCLICK)) eqn:E; cbn [andb].
  - rewrite bind_gets. cbn zeta.
    cbn [w0 set_w_mouse w_mouse ms_downMouse set_ms_autoMouse_y set_ms_autoMouse_x ms_doubleClick ms_doubleClickThresh].
    case_match.
    + rewrite bind_assoc, bind_mouse, bind_ret. set (w1 := set_w_mouse _ w0).
      destruct (getTicks_run w1) as (t & c & Ht). rewrite (bind_Ok _ _ _ _ _ Ht), bind_mouse. by exists (set_ms_autoTicks t (w_mouse w1)), c.
    + rewrite bind_assoc, bind_mouse, bind_ret. set (w1 := set_w_mouse _ w0).
      destruct (getTicks_run w1) as (t & c & Ht). rewrite (bind_Ok _ _ _ _ _ Ht), bind_mouse. by exists (set_ms_autoTicks t (w_mouse w1)), c.
  - destruct (has (e_what e) EVT_MOUSEUP).
    + rewrite !bind_mouse. exists (w_mouse (set_w_mouse (set_ms_firstAuto 1 (set_ms_downMouse (set_e_what EVT_NULLEVT
        (ms_downMouse (w_mouse w0))) (w_mouse w0))) w0)), (mc_clock (w_machine w)).
      by destruct w as [?????[]].
    + exists (w_mouse w0), (mc_clock (w_machine w)). by destruct w as [?????[]].
Qed.

(** What is added for [e]: what it is classified as, if the filter keeps it,
    the way the filter changes it. *)
Definition outcome w e : option event_t :=
  let e := classify (w_mouse w) e in
  match hk_userEventCallback (w_hooks w) with
  | None => Some e
  | Some f => if (f e).1 then Some (f e).2 else None
  end.

Lemma addEvent_run e w ids i free :
  queue_shape (w_queue w) ids (i :: free) →
  ∃ m c, addEvent e w = Ok tt (touched (if outcome w e is Some e' then appended e' i (w_queue w) else w_queue w) m c w).
Proof.
  intros Hq. destruct (note_mouse_run e w) as (m & c & E). exists m, c. rewrite addEvent_closed. unfold outcome.
  rewrite (bind_Ok _ _ _ _ _ E), bind_gets. cbn [touched w_hooks].
  destruct (hk_userEventCallback (w_hooks w)) as [f|]; cbn zeta.
  - destruct (f (classify (w_mouse w) e)) as [[] e']; [|done]. cbn [negb fst snd]. by rewrite (append_event_run _ _ ids i free).
  - cbn [negb fst snd]. by rewrite (append_event_run _ _ ids i free).
Qed.
