(* ===== verification/EvtSafe.v ===== *)
(** * What interrupts and calls keep

    [evt_ok]: the queue is well formed, whatever the remembered events are
    they are in it, and the key table is whole.  [keeps c]: from such a state
    [c] does nothing undefined, ends in such a state, and has at most added
    events at the end. *)
From S2P Require Import Prelude EvtTypes Evt EvtApi EvtQueue.
Local Open Scope Z_scope.

Implicit Types (q : event_queue) (w : evt_world) (e : event_t) (ids free : list Z) (es : list event_t).

(** The codes of the events that are changed while they wait. *)
Definition merging (what : Z) : Prop := what = EVT_MOUSEMOVE ∨ what = EVT_KEYREPEAT ∨ what = EVT_JOYMOVE.

(** A filter of the application keeps these and their codes. *)
Definition filter_ok (filter : option (event_t → bool * event_t)) : Prop :=
  match filter with
  | None => True
  | Some f => ∀ e, merging (e_what e) → (f e).1 = true ∧ e_what (f e).2 = e_what e
  end.

Record evt_ok w : Prop := EvtOk {
  eo_queue : ∃ ids free, queue_ok (w_queue w) ids free;
  eo_filter : filter_ok (hk_userEventCallback (w_hooks w));
  eo_table : length (kb_keyTable (w_kbd w)) = 128%nat
}.

(** ** Later states *)

Record later w w' : Prop := Later {
  lt_codes : (e_what <$> pending (w_queue w)) `prefix_of` (e_what <$> pending (w_queue w'));
  lt_hooks : w_hooks w' = w_hooks w;
  lt_arrivals : ∃ n, mc_arrivals (w_machine w') = drop n (mc_arrivals (w_machine w));
  lt_installed : mc_installed (w_machine w') = mc_installed (w_machine w);
  lt_keys : mc_key_buffer (w_machine w') = mc_key_buffer (w_machine w)
}.

#[export] Instance later_preorder : PreOrder later.
Proof.
  split.
  - intros w. split; try done. by exists 0%nat.
  - intros w1 w2 w3 [H1 H2 [n Hn] H4] [H1' H2' [n' Hn'] H4']. split; [by etrans|congruence| |congruence..].
    exists (n + n')%nat. by rewrite Hn', Hn, drop_drop.
Qed.

(** A state with the same events, hooks and interrupts to come. *)
Lemma later_same w w' :
  pending (w_queue w') = pending (w_queue w) → w_hooks w' = w_hooks w → mc_arrivals (w_machine w') = mc_arrivals (w_machine w) →
  mc_installed (w_machine w') = mc_installed (w_machine w) → mc_key_buffer (w_machine w') = mc_key_buffer (w_machine w) →
  later w w'.
Proof. intros Ep Eh Ea Ei Ek. split; [by rewrite Ep|done| |done..]. by exists 0%nat. Qed.

(** The state a command leaves, unless the machine was restarted. *)
Definition leads {A} (c : EVT A) w (Q : A → evt_world → Prop) : Prop :=
  match c w with Ok a w' => Q a w' | Exit _ _ => True | _ => False end.

Definition keeps {A} (c : EVT A) : Prop := ∀ w, evt_ok w → leads c w (λ _ w', evt_ok w' ∧ later w w').

Lemma leads_Ok {A} (c : EVT A) w a w' (Q : A → evt_world → Prop) : c w = Ok a w' → Q a w' → leads c w Q.
Proof. intros E HQ. unfold leads. by rewrite E. Qed.

Lemma leads_bind {A B} (c : EVT A) (k : A → EVT B) w P Q :
  leads c w P → (∀ a w', P a w' → leads (k a) w' Q) → leads (c ≫= k) w Q.
Proof.
  unfold leads, mbind, M_bind. destruct (c w) as [a w'|code w'| |]; [|done..]. intros HP Hk. exact (Hk a w' HP).
Qed.

Lemma leads_mono {A} (c : EVT A) w (P Q : A → evt_world → Prop) :
  leads c w P → (∀ a w', P a w' → Q a w') → leads c w Q.
Proof. unfold leads. destruct (c w) as [a w'|code w'| |]; [|done..]. intros HP Hm. exact (Hm a w' HP). Qed.

Lemma keeps_bind {A B} (c : EVT A) (k : A → EVT B) : keeps c → (∀ a, keeps (k a)) → keeps (c ≫= k).
Proof.
  intros Hc Hk w Hw. eapply leads_bind; [by apply Hc|]. intros a w' [Hw' Hl]. cbn beta.
  eapply leads_mono; [by apply Hk|]. intros b w'' [Hw'' Hl']. split; [done|by etrans].
Qed.

Lemma keeps_ret {A} (a : A) : keeps (mret a).
Proof. intros w Hw. split; [done|]. by apply later_same. Qed.
Lemma keeps_gets {A} (f : evt_world → A) : keeps (gets f).
Proof. intros w Hw. split; [done|]. by apply later_same. Qed.
Lemma keeps_if {A} (b : bool) (c d : EVT A) : keeps c → keeps d → keeps (if b then c else d).
Proof. by destruct b. Qed.

Lemma keeps_exit {A} code : keeps (exit_with (A:=A) code).
Proof. by intros w Hw. Qed.

Lemma keeps_kbd f : (∀ k, length (kb_keyTable (f k)) = length (kb_keyTable k)) → keeps (on_kbd f).
Proof. intros Hf w [Hq Hc Ht]. split; [|by apply later_same]. split; [done..|]. cbn. by rewrite Hf. Qed.

Lemma keeps_mouse f : keeps (on_mouse f).
Proof. intros w [Hq Hc Ht]. split; [|by apply later_same]. by split. Qed.
Lemma keeps_joy f : keeps (on_joy f).
Proof. intros w [Hq Hc Ht]. split; [|by apply later_same]. by split. Qed.

Lemma keeps_machine f :
  (∀ m, mc_arrivals (f m) = mc_arrivals m ∧ mc_installed (f m) = mc_installed m ∧ mc_key_buffer (f m) = mc_key_buffer m) →
  keeps (on_machine f).
Proof. intros Hf w [Hq Hc Ht]. destruct (Hf (w_machine w)) as (? & ? & ?). split; [|by apply later_same]. by split. Qed.

Create HintDb evt.
#[export] Hint Resolve keeps_ret keeps_gets keeps_mouse keeps_joy keeps_exit : evt.
#[export] Hint Extern 1 (keeps (on_kbd _)) => by apply keeps_kbd : evt.
#[export] Hint Extern 1 (keeps (on_machine _)) => by apply keeps_machine : evt.
Ltac keep := repeat first [solve [eauto with evt] | apply keeps_if | apply keeps_bind; [|intros ?]].

(** ** The keyboard controller *)

Lemma keeps_inpb port : keeps (PM_inpb port).
Proof. unfold PM_inpb, take_reading. keep. Qed.
Lemma keeps_outpb port v : keeps (PM_outpb port v).
Proof. by apply keeps_machine. Qed.
#[export] Hint Resolve keeps_inpb keeps_outpb : evt.

Lemma keeps_wait ready n : keeps (kb_wait ready n).
Proof. induction n as [|n IH]; cbn [kb_wait]; keep. Qed.
#[export] Hint Resolve keeps_wait : evt.

Lemma keeps_answer n : keeps (kb_answer n).
Proof.
  induction n as [|n IH]; [apply keeps_ret|]. destruct n as [|n]; [apply keeps_ret|].
  change (kb_answer (S (S n))) with
    (ready ← kbWaitForReadReady;
     if negb ready then mret (Some false, true) else
     temp ← PM_inpb 0x60;
     if temp =? 0xFA then mret (Some true, true) else if temp =? 0xFE then mret (None, true) else kb_answer (S n)).
  keep.
Qed.
#[export] Hint Resolve keeps_answer : evt.

Lemma keeps_send n data : keeps (kb_send n data).
Proof.
  induction n as [|n IH]; cbn [kb_send]; unfold kbWaitForWriteReady; keep.
  all: match goal with |- context [fst ?r] => destruct (fst r) end; keep.
Qed.

#[export] Hint Resolve keeps_send : evt.

Lemma keeps_LEDS modifiers : keeps (setLEDS modifiers).
Proof. unfold setLEDS, kbSendData. keep. Qed.
#[export] Hint Resolve keeps_LEDS : evt.

(** ** Adding events *)

Lemma free_spots q ids free : queue_shape q ids free → (q_count q <? EVENTQSIZE) = negb (bool_decide (free = [])).
Proof.
  intros Hq. rewrite (qs_count _ _ _ Hq). pose proof (spots_length Hq) as Hl. unfold EVENTQSIZE in *.
  destruct free; cbn [length] in Hl; [rewrite bool_decide_eq_true_2 by done|rewrite bool_decide_eq_false_2 by done]; cbn; lia.
Qed.

(** A state with another queue that has more events. *)
Lemma touched_ok q' m c w ids free :
  evt_ok w → queue_ok q' ids free → (e_what <$> pending (w_queue w)) `prefix_of` (e_what <$> pending q') →
  evt_ok (touched q' m c w) ∧ later w (touched q' m c w).
Proof.
  intros [_ Hc Ht] Hq Hp. split; [split; [by exists ids, free|done..]|]. split; [done..| |done|done]. by exists 0%nat.
Qed.

Lemma keeps_queue f :
  (∀ q ids free, queue_ok q ids free → queue_ok (f q) ids free ∧ pending (f q) = pending q) → keeps (on_queue f).
Proof.
  intros Hf w [(ids & free & Hq) Hc Ht]. destruct (Hf _ _ _ Hq) as [Hq' Hp].
  split; [split; [by exists ids, free|done..]|]. by apply later_same.
Qed.

Lemma set_marks q m k j ids free :
  queue_shape q ids free → queue_shape (EventQueue (q_head q) (q_tail q) (q_freeHead q) (q_count q) (q_evtq q) m k j) ids free.
Proof. intros []. by split. Qed.

Lemma keeps_no_move : keeps (on_queue (set_q_oldMove (-1))).
Proof. apply keeps_queue. intros q ids free [Hq Hm Hk Hj]. split; [|done]. split; [by apply set_marks|by left|done..]. Qed.
Lemma keeps_no_key : keeps (on_queue (set_q_oldKey (-1))).
Proof. apply keeps_queue. intros q ids free [Hq Hm Hk Hj]. split; [|done]. split; [by apply set_marks|done|by left|done]. Qed.
#[export] Hint Resolve keeps_no_move keeps_no_key : evt.

Lemma classify_what m e : e_what (classify m e) = e_what e.
Proof. unfold classify. by case_match. Qed.

(** An event that changes while it waits is kept as what it is. *)
Lemma outcome_merging w e :
  filter_ok (hk_userEventCallback (w_hooks w)) → merging (e_what e) → ∃ e', outcome w e = Some e' ∧ e_what e' = e_what e.
Proof.
  intros Hc He. unfold outcome. unfold filter_ok in Hc.
  destruct (hk_userEventCallback (w_hooks w)) as [f|].
  - rewrite <- (classify_what (w_mouse w) e) in He. destruct (Hc _ He) as [-> E].
    eexists. split; [done|]. by rewrite E, classify_what.
  - eexists. split; [done|]. apply classify_what.
Qed.

Lemma addEvent_keeps e w :
  evt_ok w → q_count (w_queue w) < EVENTQSIZE → leads (addEvent e) w (λ _ w', evt_ok w' ∧ later w w').
Proof.
  intros Hw Hc. pose proof Hw as [(ids & free & Hq) _ _]. pose proof (free_spots _ _ _ Hq) as Hf.
  destruct free as [|i free]; [rewrite bool_decide_eq_true_2 in Hf by done; cbn in Hf; lia|].
  destruct (addEvent_run e w ids i free Hq) as (m & c & E). eapply leads_Ok; [done|].
  destruct (outcome w e) as [e'|]; [|by eapply touched_ok].
  destruct (appended_ok e' i _ ids free Hq) as (Hq' & Hs & Hp). eapply touched_ok; [done| |].
  - apply (marks_kept (w_queue w) _ ids (i :: free)); [done..| |done]. intros x Hx. apply elem_of_app. by left.
  - rewrite Hp, fmap_app. by eexists.
Qed.

(** The three remembered events and their codes. *)
Definition mark_of (what : Z) (mark : Z → event_queue → event_queue) : Prop :=
  mark = set_q_oldMove ∧ what = EVT_MOUSEMOVE ∨ mark = set_q_oldKey ∧ what = EVT_KEYREPEAT ∨
  mark = set_q_oldJoyMove ∧ what = EVT_JOYMOVE.

(** Adding an event of the kind whose spot was just remembered. *)
Lemma add_marked mark e w m c :
  mark_of (e_what e) mark → evt_ok w → q_count (w_queue w) < EVENTQSIZE →
  leads (addEvent e) (touched (mark (q_freeHead (w_queue w)) (w_queue w)) m c w) (λ _ w', evt_ok w' ∧ later w w').
Proof.
  intros Hmark Hw Hc. pose proof Hw as [(ids & free & [Hq Hm Hk Hj]) Hfilter Htab]. pose proof (free_spots _ _ _ Hq) as Hf.
  destruct free as [|i free]; [rewrite bool_decide_eq_true_2 in Hf by done; cbn in Hf; lia|].
  rewrite (qs_freeHead _ _ _ Hq). cbn [head from_option id default]. set (q0 := mark i (w_queue w)).
  assert (queue_shape q0 ids (i :: free) ∧ q_evtq q0 = q_evtq (w_queue w) ∧ pending q0 = pending (w_queue w)) as (Hq0 & Eq & Ep).
  { unfold q0. destruct Hmark as [[-> _]|[[-> _]|[-> _]]]; split; try done; by apply set_marks. }
  destruct (addEvent_run e (touched q0 m c w) ids i free Hq0) as (m' & c' & E). eapply leads_Ok; [done|].
  destruct (outcome_merging (touched q0 m c w) e) as (e' & -> & Ee); [done|destruct Hmark; unfold merging; tauto|].
  destruct (appended_ok e' i _ ids free Hq0) as (Hq' & Hs & Hp).
  destruct (appended_array e' i _ ids free Hq0) as (_ & _ & _ & _ & Hend). cbn [touched w_queue] in *.
  assert (ids ⊆ ids ++ [i]) as Hsub by (intros x Hx; apply elem_of_app; by left).
  assert (tracked i (e_what e) (q_evtq (appended e' i q0)) (ids ++ [i])) as Hnew.
  { right. split; [apply elem_of_app; right; left|]. destruct (at_index i _) as [x|]; [|done]. cbn in *.
    injection Hend. congruence. }
  assert (∀ p k, tracked p k (q_evtq (w_queue w)) ids → tracked p k (q_evtq (appended e' i q0)) (ids ++ [i])) as Hold.
  { intros p k. apply tracked_same; [|done]. by rewrite <- Eq. }
  apply (touched_ok (appended e' i q0) m' c' w (ids ++ [i]) free); [done| |].
  - unfold q0. destruct Hmark as [[-> Hk0]|[[-> Hk0]|[-> Hk0]]]; rewrite Hk0 in Hnew; (split; [done| | |]); by first [apply Hnew|apply Hold].
  - rewrite Hp, Ep, fmap_app. by eexists.
Qed.

(** ** Handlers *)

Lemma touched_same m c w : evt_ok w → evt_ok (touched (w_queue w) m c w) ∧ later w (touched (w_queue w) m c w).
Proof. intros Hw. pose proof Hw as [(ids & free & Hq) _ _]. by apply (touched_ok _ _ _ _ ids free). Qed.

(** What a command leads to from a state like [w] it leads to from [w]. *)
Lemma leads_later {A} (c : EVT A) w w1 :
  later w w1 → leads c w1 (λ _ w', evt_ok w' ∧ later w1 w') → leads c w1 (λ _ w', evt_ok w' ∧ later w w').
Proof. intros Hl H. eapply leads_mono; [done|]. intros a w' [Hw' Hl']. split; [done|by etrans]. Qed.

(** Reading the clock before something that keeps the state. *)
Lemma ticks_keep {A} (k : Z → EVT A) w :
  evt_ok w →
  (∀ t c, let w1 := touched (w_queue w) (w_mouse w) c w in evt_ok w1 → leads (k t) w1 (λ _ w', evt_ok w' ∧ later w1 w')) →
  leads (_EVT_getTicks ≫= k) w (λ _ w', evt_ok w' ∧ later w w').
Proof.
  intros Hw Hk. destruct (getTicks_run w) as (t & c & Et). destruct (touched_same (w_mouse w) c w Hw) as [Hw1 Hl].
  unfold leads. rewrite (bind_Ok _ _ _ _ _ Et). apply (leads_later (k t) w _ Hl), (Hk t c Hw1).
Qed.

Lemma keeps_mouse_event stack what message x y mickeyX mickeyY but_stat :
  keeps (addMouseEvent stack what message x y mickeyX mickeyY but_stat).
Proof.
  intros w Hw. unfold addMouseEvent. unfold leads. rewrite bind_gets.
  destruct (Z.ltb_spec (q_count (w_queue w)) EVENTQSIZE) as [Hc|Hc]; cbn [negb]; [|by split; [|apply later_same]].
  apply (ticks_keep _ w Hw). cbn zeta. intros t c Hw1. unfold leads. rewrite bind_gets. by apply (addEvent_keeps _ _ Hw1).
Qed.
#[export] Hint Resolve keeps_mouse_event : evt.

Lemma queue_ok_full q ids : queue_shape q ids [] → q_freeHead q = -1.
Proof. intros Hq. by rewrite (qs_freeHead _ _ _ Hq). Qed.

Lemma payload_move x y dx dy :
  payload_change (λ e, set_e_relative_y (i32 (e_relative_y e + dy)) (set_e_relative_x (i32 (e_relative_x e + dx))
    (set_e_where_y y (set_e_where_x x e)))).
Proof. by intros e. Qed.
Lemma payload_repeat n : payload_change (λ e, set_e_message (u32 (e_message e + n)) e).
Proof. by intros e. Qed.

(** Changing a remembered event. *)
Lemma changed_keeps f i w ids free :
  payload_change f → evt_ok w → queue_ok (w_queue w) ids free → i ∈ ids →
  leads (update_event i f) w (λ _ w', evt_ok w' ∧ later w w').
Proof.
  intros Hf [_ Hc Ht] Hq Hi. eapply leads_Ok; [by apply (changed_run _ _ _ ids free); [apply Hq|]|].
  apply list_elem_of_split in Hi as (before & after & ->).
  destruct (changed_ok f _ _ _ _ _ Hf Hq) as (Hq' & e & He & Hp & Hp').
  split; [split; [by eexists _, _|done..]|]. split; [|done|by exists 0%nat|done|done]. cbn [w_queue set_w_queue]. rewrite Hp, Hp', !fmap_app, !fmap_cons.
  destruct (Hf (strip e)) as (_ & _ & -> & _). done.
Qed.

Lemma move_ok stack butstate x y mickeyX mickeyY w :
  evt_ok w → leads (move_section stack butstate x y mickeyX mickeyY) w (λ _ w', evt_ok w' ∧ later w w').
Proof.
  intros Hw0. unfold leads, move_section. rewrite bind_mouse, bind_gets. set (w1 := set_w_mouse _ w).
  destruct (keeps_mouse (λ m, set_ms_my y (set_ms_mx x m)) w Hw0) as [Hw Hl]. fold w1 in Hw, Hl. clearbody w1. clear Hw0.
  apply (leads_later _ w w1 Hl). pose proof Hw as [(ids & free & Hq) _ _].
  destruct (qo_move _ _ _ Hq) as [->|[Hi _]].
  2: { pose proof (used_range Hq _ Hi). destruct (Z.eqb_spec (q_oldMove (w_queue w1)) (-1)); [lia|]. cbn [negb].
       eapply changed_keeps; [apply payload_move|done..]. }
  cbn [negb Z.eqb Pos.eqb]. unfold leads. rewrite bind_gets, bind_queue. unfold addMouseEvent. rewrite bind_gets.
  cbn [w_queue set_w_queue q_count set_q_oldMove].
  destruct (Z.ltb_spec (q_count (w_queue w1)) EVENTQSIZE) as [Hc|Hc]; cbn [negb].
  - set (w2 := set_w_queue _ w1). destruct (getTicks_run w2) as (t & c & Et).
    rewrite (bind_Ok _ _ _ _ _ Et), bind_gets.
    change (touched (w_queue w2) (w_mouse w2) c w2) with
      (touched (set_q_oldMove (q_freeHead (w_queue w1)) (w_queue w1)) (w_mouse w1) c w1).
    apply (add_marked set_q_oldMove); [by left|done..].
  - pose proof (free_spots _ _ _ Hq) as Hf. destruct free as [|i free]; [|cbn in Hf; lia].
    rewrite (queue_ok_full _ ids) by apply Hq. apply (keeps_no_move w1 Hw).
Qed.

Lemma keeps_move_section stack butstate x y mickeyX mickeyY : keeps (move_section stack butstate x y mickeyX mickeyY).
Proof. intros w Hw. by apply move_ok. Qed.

Lemma keeps_key_event stack what message : keeps (addKeyEvent stack what message).
Proof.
  intros w Hw. unfold leads. rewrite addKeyEvent_closed, bind_gets.
  destruct (Z.ltb_spec (q_count (w_queue w)) EVENTQSIZE) as [Hc|Hc]; cbn [negb]; [|by split; [|apply later_same]].
  apply (ticks_keep _ w Hw). cbn zeta. intros t c Hw1. set (w1 := touched _ _ _ w) in *. unfold leads. rewrite bind_gets.
  eapply (leads_bind _ _ _ (λ _ w', evt_ok w' ∧ later w1 w')); [|intros _ w2 [Hw2 Hl]; apply (leads_later (on_queue (set_q_oldMove (-1))) w1 w2 Hl), (keeps_no_move w2 Hw2)].
  destruct (Z.eqb_spec what EVT_KEYREPEAT) as [->|Hne]; [|by apply (addEvent_keeps _ w1)].
  unfold leads. rewrite bind_gets. pose proof Hw1 as [(ids & free & Hq) _ _]. destruct (qo_key _ _ _ Hq) as [->|[Hi _]].
  - cbn [negb Z.eqb Pos.eqb]. rewrite bind_gets, bind_queue. set (w2 := set_w_queue _ w1).
    pose proof (add_marked set_q_oldKey (Event (e_which stack) EVT_KEYREPEAT t 0 0 0 0 (Z.lor message 65536)
      (kb_keyModifiers (w_kbd w1)) (e_next stack) (e_prev stack)) w1 (w_mouse w1) (mc_clock (w_machine w1))) as H.
    replace (touched _ _ _ w1) with w2 in H by (by rewrite <- (touched_id w2)). apply H; [right; left; done|done..].
  - pose proof (used_range Hq _ Hi). destruct (Z.eqb_spec (q_oldKey (w_queue w1)) (-1)); [lia|]. cbn [negb].
    eapply changed_keeps; [apply payload_repeat|done..].
Qed.
#[export] Hint Resolve keeps_move_section keeps_key_event : evt.

Lemma keeps_button_section stack what buttonMask butstate x y : keeps (button_section stack what buttonMask butstate x y).
Proof. unfold button_section. keep. Qed.
#[export] Hint Resolve keeps_button_section : evt.

Lemma keeps_shift_keys what scan : keeps (shift_keys what scan).
Proof.
  unfold shift_keys. repeat apply keeps_if; unfold toggle, hold, Reboot; keep.
Qed.
#[export] Hint Resolve keeps_shift_keys : evt.

Lemma scan_range scan : 0 ≤ Z.land scan 0x7F < 128.
Proof. change 0x7F with (Z.ones 7). rewrite Z.land_ones by lia. apply Z.mod_pos_bound. done. Qed.

Lemma virtual_code_range (b : bool) scan : 0 ≤ scan < 128 → 0 ≤ (if b then extended_code scan else regular_code scan) < 128.
Proof.
  intros Hs. destruct b; unfold extended_code, regular_code;
    repeat match goal with |- context [if ?a =? ?b then _ else _] => destruct (Z.eqb_spec a b) end;
    unfold KB_rightCtrl, KB_rightAlt, KB_padDivide, KB_padEnter, KB_sysReq, KB_padLeft, KB_padRight, KB_padUp, KB_padDown,
      KB_padInsert, KB_padDelete, KB_padHome, KB_padEnd, KB_padPageUp, KB_padPageDown; lia.
Qed.

Lemma keeps_scan_code stack scan : keeps (processRawScanCode stack scan).
Proof.
  intros w Hw. unfold leads, processRawScanCode. rewrite bind_gets.
  destruct (negb (kb_pauseLoop (w_kbd w) =? 0)); [by apply keeps_kbd|].
  destruct (scan =? 0xE0); [by apply keeps_kbd|]. destruct (scan =? 0xE1); [by apply keeps_kbd|].
  set (code := Z.land scan 0x7F). pose proof (scan_range scan) as Hr. fold code in Hr. cbn zeta.
  assert (∀ c : EVT unit, keeps c →
    leads ((if kb_extended (w_kbd w) then on_kbd (set_kb_extended false) else mret tt) ;; c) w (λ _ w', evt_ok w' ∧ later w w')) as Hext.
  { intros c Hc. apply keeps_bind; [|done|done]. apply keeps_if; [by apply keeps_kbd|apply keeps_ret]. }
  apply Hext. destruct (kb_extended (w_kbd w) && _); [apply keeps_ret|].
  pose proof (virtual_code_range (kb_extended (w_kbd w)) code Hr) as Hv.
  set (v := if kb_extended (w_kbd w) then extended_code code else regular_code code) in *. clearbody v. clear Hext Hw w.
  intros w Hw. unfold leads. rewrite bind_gets.
  destruct (at_index_lt v (kb_keyTable (w_kbd w))) as [down Hd]; [rewrite (eo_table _ Hw); lia|]. rewrite Hd, bind_deref.
  assert (∀ x, keeps (on_kbd (λ k, set_kb_keyTable (<[Z.to_nat v:=x]> (kb_keyTable k)) k))) as Hset.
  { intros x. apply keeps_kbd. intros k. cbn. by rewrite length_insert. }
  revert w Hw Hd. enough (keeps (
    what ← (if (if has scan 0x80 then EVT_KEYUP else EVT_KEYDOWN) =? EVT_KEYDOWN then
              if negb (down =? 0) then mret EVT_KEYREPEAT
              else on_kbd (λ k, set_kb_keyTable (<[Z.to_nat v:=v]> (kb_keyTable k)) k);; mret (if has scan 0x80 then EVT_KEYUP else EVT_KEYDOWN)
            else on_kbd (λ k, set_kb_keyTable (<[Z.to_nat v:=0]> (kb_keyTable k)) k);; mret (if has scan 0x80 then EVT_KEYUP else EVT_KEYDOWN));
    (if what =? EVT_KEYREPEAT then mret tt else shift_keys what v);;
    addKeyEvent stack what (Z.shiftl v 8))) as H by (intros w Hw _; by apply H).
  keep.
Qed.
#[export] Hint Resolve keeps_scan_code : evt.

Lemma keeps_keyboard stack scan : keeps (keyboardISR stack scan).
Proof. unfold keyboardISR. keep. Qed.
#[export] Hint Resolve keeps_keyboard : evt.

Lemma keeps_keyboard_all stack keys : keeps (keyboard_interrupts stack keys).
Proof. induction keys as [|k keys IH]; cbn [keyboard_interrupts]; keep. Qed.
#[export] Hint Resolve keeps_keyboard_all : evt.

Lemma keeps_handle stack i : keeps (handle stack i).
Proof. destruct i; cbn [handle]; unfold mouseISR; keep. Qed.
#[export] Hint Resolve keeps_handle : evt.

Lemma keeps_handle_all stack batch : keeps (handle_all stack batch).
Proof. induction batch as [|i batch IH]; cbn [handle_all]; keep. Qed.
#[export] Hint Resolve keeps_handle_all : evt.

(** ** The interface *)

Lemma keeps_interrupts stack : keeps (interrupts stack).
Proof.
  intros w Hw. unfold leads, interrupts, take_reading. rewrite bind_gets.
  destruct (mc_installed (w_machine w)) eqn:Ei; cbn [negb]; [|by split; [|apply later_same]].
  rewrite !bind_assoc, bind_gets, !bind_assoc, bind_machine, bind_ret. set (w1 := set_w_machine _ w).
  assert (evt_ok w1 ∧ later w w1) as [Hw1 Hl].
  { destruct Hw as [Hq Hc Ht]. split; [by split|]. split; [done..| |done|done]. exists 1%nat. cbn. by destruct (mc_arrivals _). }
  apply (leads_later (handle_all stack _) w w1 Hl). by apply keeps_handle_all.
Qed.
#[export] Hint Resolve keeps_interrupts : evt.

Lemma keeps_match_option {A B} (o : option A) (c : A → EVT B) d : (∀ a, keeps (c a)) → keeps d → keeps (match o with Some a => c a | None => d end).
Proof. by destruct o. Qed.

Lemma keeps_attend stack : keeps (attend stack).
Proof. unfold attend. keep. apply keeps_match_option; [intros beat|]; keep. Qed.
#[export] Hint Resolve keeps_attend : evt.

(** The search of a code page ends inside of the table and changes nothing. *)
Lemma translate_total scan w fuel table n :
  n ≤ Z.of_nat fuel → n ≤ Z.of_nat (length table) → ∃ v, translate_loop fuel scan table n w = Ok v w.
Proof.
  revert table n. induction fuel as [|fuel IH]; intros table n Hf Hn; cbn [translate_loop].
  - destruct (Z.leb_spec n 0); [by eexists|lia].
  - destruct (Z.leb_spec n 0); [by eexists|]. rewrite Z.shiftr_div_pow2 by done. change (2 ^ 1) with 2.
    assert (0 ≤ n / 2 < n) as Hp by (split; [apply Z.div_pos|apply Z.div_lt]; lia).
    destruct (at_index_lt (n / 2) table) as [test ->]; [lia|]. rewrite bind_deref.
    destruct (scan - test.1 <? 0); [apply IH; lia|]. destruct (scan - test.1 =? 0); [by eexists|].
    apply IH; [lia|]. rewrite length_drop. lia.
Qed.

Lemma translateScan_total scan table w : ∃ v, translateScan scan table w = Ok v w.
Proof. apply translate_total; lia. Qed.

Lemma keeps_translate scan table : keeps (translateScan scan table).
Proof. intros w Hw. destruct (translateScan_total scan table w) as [v E]. eapply leads_Ok; [done|]. split; [done|]. by apply later_same. Qed.
#[export] Hint Resolve keeps_translate : evt.

(** A translation reads the code page and changes nothing else than the
    event's message. *)
Lemma mask_key_total e w : ∃ n, mask_key e w = Ok (set_e_message n e) w.
Proof.
  unfold mask_key. destruct (has (e_what e) EVT_KEYEVT); [|exists (e_message e); by destruct e].
  unfold _EVT_maskKeyCode. cbn zeta. rewrite bind_gets. set (page := hk_codePage _).
  set (scan := EVT_scanCode (e_message e)). set (e0 := set_e_message _ e).
  assert (∀ (b : bool) table (k : Z → EVT event_t), (∀ v, ∃ n, k v w = Ok (set_e_message n e) w) →
    ∃ n, ((if b then translateScan scan table else mret 0) ≫= k) w = Ok (set_e_message n e) w) as Hstep.
  { intros b table k Hk. destruct b; [|apply (Hk 0)]. destruct (translateScan_total scan table w) as [v E].
    rewrite (bind_Ok _ _ _ _ _ E). apply Hk. }
  assert (∀ v, ∃ n, mret (M:=EVT) (set_e_message (Z.lor (e_message e0) v) e0) w = Ok (set_e_message n e) w) as Hret by (intros v; by eexists).
  apply Hstep. intros v1. destruct (negb (v1 =? 0)); [apply Hret|].
  destruct (has (e_modifiers e0) EVT_CTRLSTATE); [apply (Hstep true); intros v; apply Hret|].
  assert (∀ (k : Z → EVT event_t), (∀ v, ∃ n, k v w = Ok (set_e_message n e) w) →
    ∃ n, ((if has (e_modifiers e0) EVT_CAPSLOCK then if has (e_modifiers e0) EVT_SHIFTKEY then translateScan scan (cp_shiftCaps page)
      else translateScan scan (cp_caps page) else mret 0) ≫= k) w = Ok (set_e_message n e) w) as Hcaps.
  { intros k Hk. destruct (has (e_modifiers e0) EVT_CAPSLOCK); [|apply (Hk 0)].
    destruct (has (e_modifiers e0) EVT_SHIFTKEY); by apply (Hstep true). }
  apply Hcaps. intros v2. destruct (negb (v2 =? 0)); [apply Hret|].
  apply Hstep. intros v3. destruct (negb (v3 =? 0)); [apply Hret|]. apply (Hstep true). intros v. apply Hret.
Qed.

Lemma keeps_mask_key e : keeps (mask_key e).
Proof. intros w Hw. destruct (mask_key_total e w) as [n E]. eapply leads_Ok; [done|]. split; [done|]. by apply later_same. Qed.
#[export] Hint Resolve keeps_mask_key : evt.

Lemma keeps_ticks : keeps _EVT_getTicks.
Proof. unfold _EVT_getTicks, take_reading. keep. Qed.
#[export] Hint Resolve keeps_ticks : evt.

Lemma keeps_auto_mouse e mask : keeps (auto_mouse e mask).
Proof. unfold auto_mouse. keep. Qed.
#[export] Hint Resolve keeps_auto_mouse : evt.

(** The critical section of both functions that look for an event. *)
Lemma section_run mask w ids free :
  queue_ok (w_queue w) ids free →
  let find := find_event (Z.to_nat EVENTQSIZE) (q_head (w_queue w)) mask in
  (find w = Ok (-1) w ∧ no_match mask (pending (w_queue w))) ∨
  ∃ i e before after, find w = Ok i w ∧ i ≠ -1 ∧ at_index i (q_evtq (w_queue w)) = Some e ∧
    take_event i w = Ok e (set_w_queue (unlinked i (w_queue w)) w) ∧
    pending (w_queue w) = before ++ strip e :: after ∧ no_match mask before ∧ has (e_what e) mask = true ∧
    (∃ ids' free', queue_ok (unlinked i (w_queue w)) ids' free') ∧ pending (unlinked i (w_queue w)) = before ++ after.
Proof.
  intros Hq. cbn zeta. rewrite (qs_head _ _ _ Hq). pose proof (spots_length Hq) as Hl.
  pose proof (spots_nonneg _ _ _ Hq) as [Hp _]%Forall_app.
  destruct (find_event_run mask w (-1) ids (Z.to_nat EVENTQSIZE)) as [[E Hno]|(before & i & after & e & -> & Hi & Hm & Hno & E)]; [lia|done|apply Hq| |].
  - left. split; [done|]. by rewrite (pending_events _ _ _ Hq).
  - right. destruct (unlinked_ok _ _ _ _ _ Hq) as [Hq' Hp'].
    apply Forall_app in Hp as [_ [Hi0 _]%Forall_cons].
    exists i, e, (events_at (q_evtq (w_queue w)) before), (events_at (q_evtq (w_queue w)) after).
    split; [done|]. split; [lia|]. split; [done|]. split; [by eapply take_event_run; [apply Hq|]|].
    split; [by eapply pending_around; [apply Hq|]|]. split; [done|]. split; [done|]. split; [by eexists _, _|done].
Qed.

Lemma count_pending w ids free : queue_ok (w_queue w) ids free → (q_count (w_queue w) =? 0) = bool_decide (pending (w_queue w) = []).
Proof.
  intros Hq. rewrite (qs_count _ _ _ Hq), (pending_events _ _ _ Hq). pose proof (events_at_length _ _ _ Hq) as Hl.
  destruct (events_at _ ids) as [|e es]; cbn [length] in Hl.
  - rewrite <- Hl. done.
  - rewrite bool_decide_eq_false_2 by done. rewrite <- Hl. by apply Z.eqb_neq.
Qed.

Lemma keeps_peek stack e mask : keeps (EVT_peekNext stack e mask).
Proof.
  unfold EVT_peekNext. apply keeps_bind; [keep|intros _]. apply keeps_bind; [keep|intros n].
  apply keeps_if; [keep|]. apply keeps_bind; [keep|intros _]. intros w Hw. unfold leads. rewrite bind_gets. pose proof Hw as [(ids & free & Hq) _ _].
  destruct (section_run mask w ids free Hq) as [[E _]|(i & x & before & after & E & Hi & Hx & _)];
    rewrite (bind_Ok _ _ _ _ _ E).
  - split; [done|]. by apply later_same.
  - destruct (Z.eqb_spec i (-1)); [done|]. rewrite (bind_Ok _ _ _ _ _ (get_event_ok _ _ _ Hx)).
    match goal with |- match ?c w with _ => _ end => change (leads c w (λ _ w', evt_ok w' ∧ later w w')) end.
    assert (keeps (interrupts stack ;; evt ← mask_key x; mret (negb (e_what evt =? EVT_NULLEVT), evt))) as H by keep.
    by apply H.
Qed.
