(* ===== verification/EvtNext.v ===== *)
(** * Taking events

    [EVT_getNext] and [EVT_halt] against the list of the waiting events:
    what they take, and what else happened to the queue in the meantime. *)
From S2P Require Import Prelude EvtTypes Evt EvtApi EvtQueue EvtSafe.
Local Open Scope Z_scope.

Implicit Types (q : event_queue) (w : evt_world) (e : event_t) (ids free : list Z) (es : list event_t).

(** ** Both searches *)

(** The first waiting event in a mask, with its place. *)
Definition first_of (mask : Z) es : option (nat * event_t) := list_find (λ e, has (e_what e) mask = true) es.

Lemma first_of_none mask es : no_match mask es → first_of mask es = None.
Proof.
  intros Hno. apply list_find_None. eapply Forall_impl; [done|]. cbn. congruence.
Qed.

Lemma first_of_some mask before x after :
  no_match mask before → has (e_what x) mask = true → first_of mask (before ++ x :: after) = Some (length before, x).
Proof.
  intros Hno Hx. unfold first_of. apply list_find_Some. split; [by apply list_lookup_middle|]. split; [done|].
  intros j y Hy Hj. apply lookup_app_Some in Hy as [Hy|[Hl _]]; [|lia].
  pose proof (Forall_lookup_1 _ _ _ _ Hno Hy) as Hf. cbn in Hf. congruence.
Qed.

(** ** [EVT_getNext] *)

Lemma attend_run stack w : evt_ok w → leads (attend stack) w (λ _ w', evt_ok w' ∧ later w w').
Proof. apply keeps_attend. Qed.

(** What it does once it has looked at the clock and the interrupts. *)
Definition get_section (stack : event_t) (evt : event_t) (mask : Z) : EVT (bool * event_t) :=
  head ← gets (λ w, q_head (w_queue w));
  evtID ← find_event (Z.to_nat EVENTQSIZE) head mask;
  if evtID =? -1 then mret (false, evt) else
  evt ← take_event evtID;
  interrupts stack;;
  evt ← mask_key evt;
  evt ← auto_mouse evt mask;
  mret (negb (e_what evt =? EVT_NULLEVT), evt).

Lemma auto_mouse_idle e mask w : e_what e ≠ EVT_NULLEVT → auto_mouse e mask w = Ok e w.
Proof. intros He. unfold auto_mouse. rewrite bind_gets. by destruct (Z.eqb_spec (e_what e) EVT_NULLEVT). Qed.

Lemma has_nonzero a mask : has a mask = true → a ≠ EVT_NULLEVT.
Proof. by intros H ->. Qed.

Lemma get_section_run stack evt mask w :
  evt_ok w →
  match first_of mask (pending (w_queue w)) with
  | None => get_section stack evt mask w = Ok (false, evt) w
  | Some (n, x) => ∃ e q, strip e = x ∧ pending q = delete n (pending (w_queue w)) ∧ evt_ok (set_w_queue q w) ∧
      get_section stack evt mask w = (interrupts stack;; evt ← mask_key e; mret (true, evt)) (set_w_queue q w)
  end.
Proof.
  intros [(ids & free & Hq) Hc Ht]. unfold get_section.
  destruct (section_run mask w ids free Hq) as [[E Hno]|(i & e & before & after & E & Hi & He & Et & Hp & Hno & Hm & Hq' & Hp')].
  - rewrite first_of_none by done. rewrite bind_gets, (bind_Ok _ _ _ _ _ E). done.
  - rewrite Hp, (first_of_some mask before (strip e) after Hno) by done. exists e, (unlinked i (w_queue w)).
    split; [done|]. split; [by rewrite Hp', delete_middle|]. split; [by split|].
    rewrite bind_gets, (bind_Ok _ _ _ _ _ E). destruct (Z.eqb_spec i (-1)); [done|]. rewrite (bind_Ok _ _ _ _ _ Et).
    apply bind_ext. intros _ w'. destruct (mask_key_total e w') as [msg En]. rewrite !(bind_Ok _ _ _ _ _ En).
    apply has_nonzero in Hm. rewrite (bind_Ok _ _ _ _ _ (auto_mouse_idle (set_e_message msg e) mask w' Hm)).
    cbn [set_e_message e_what]. by destruct (Z.eqb_spec (e_what e) EVT_NULLEVT).
Qed.

Lemma getNext_unfold stack evt mask :
  EVT_getNext stack evt mask =
    (attend stack;;
     count ← gets (λ w, q_count (w_queue w));
     if count =? 0 then
       evt ← auto_mouse (set_e_what EVT_NULLEVT evt) mask;
       mret (negb (e_what evt =? EVT_NULLEVT), evt)
     else interrupts stack;; get_section stack (set_e_what EVT_NULLEVT evt) mask).
Proof. done. Qed.

(** What the call gives when nothing is pending. *)
Lemma auto_mouse_keeps_code e mask w :
  evt_ok w → e_what e = EVT_NULLEVT → leads (auto_mouse e mask) w (λ r w', evt_ok w' ∧ later w w' ∧
    (e_what r = EVT_NULLEVT ∨ e_what r = EVT_MOUSEAUTO ∧ has mask EVT_MOUSEAUTO = true) ∧ pending (w_queue w') = pending (w_queue w)).
Proof.
  intros Hw He. pose proof (keeps_auto_mouse e mask w Hw) as Hk. unfold leads, auto_mouse in *. rewrite bind_gets in *.
  destruct (_ && _) eqn:Eb; [|split_and!; [done|apply Hk|by left|done]].
  destruct (getTicks_run w) as (t & c & Et). rewrite (bind_Ok _ _ _ _ _ Et) in *.
  apply andb_true_iff in Eb as [[_ Hm]%andb_true_iff _].
  destruct (_ <=? _); [|split_and!; [apply Hk..|by left|done]].
  rewrite !bind_mouse in *. destruct Hk as [Hk1 Hk2]. split_and!; [done..|by right|done].
Qed.

(** Nothing, or the mouse event that repeats. *)
Definition no_event (mask what : Z) : Prop := what = EVT_NULLEVT ∨ what = EVT_MOUSEAUTO ∧ has mask EVT_MOUSEAUTO = true.

(** What a call of [EVT_getNext] did: it took the first event in the mask,
    and the queue lost this one and nothing else; or there was none. *)
Variant got (mask : Z) w (r : bool * event_t) w' : Prop :=
  | got_event w1 n x m q :
      later w w1 → first_of mask (pending (w_queue w1)) = Some (n, x) →
      strip r.2 = set_e_message m x → r.1 = true →
      pending q = delete n (pending (w_queue w1)) → later (set_w_queue q w1) w' → got mask w r w'
  | got_nothing : later w w' → first_of mask (pending (w_queue w')) = None → no_event mask (e_what r.2) → got mask w r w'.

Lemma getNext_leads stack evt mask w :
  evt_ok w → leads (EVT_getNext stack evt mask) w (λ r w', evt_ok w' ∧ got mask w r w').
Proof.
  intros Hw. rewrite getNext_unfold. eapply leads_bind; [by apply keeps_attend|]. intros _ wa [Hwa Hla]. cbn beta.
  unfold leads at 1. rewrite bind_gets. pose proof Hwa as [(ids & free & Hq) _ _]. rewrite (count_pending wa ids free Hq).
  case_bool_decide as Hn.
  - pose proof (auto_mouse_keeps_code (set_e_what EVT_NULLEVT evt) mask wa Hwa eq_refl) as H.
    apply (leads_bind _ _ _ _ (λ r w', evt_ok w' ∧ got mask w r w') H). intros r w' (Hw' & Hl & Hc & Hp).
    split; [done|]. apply got_nothing; [by etrans|by rewrite Hp, Hn|done].
  - apply (leads_bind _ _ _ _ (λ r w', evt_ok w' ∧ got mask w r w') (keeps_interrupts stack wa Hwa)).
    intros _ w1 [Hw1 Hl1]. assert (later w w1) as Hl by by etrans. unfold leads.
    pose proof (get_section_run stack (set_e_what EVT_NULLEVT evt) mask w1 Hw1) as H.
    destruct (first_of mask (pending (w_queue w1))) as [[n x]|] eqn:Ef.
    + destruct H as (e & q & He & Hp & Hw2 & ->).
      apply (leads_bind _ _ _ _ (λ r w', evt_ok w' ∧ got mask w r w') (keeps_interrupts stack _ Hw2)).
      intros _ w3 [Hw3 Hl3]. unfold leads. destruct (mask_key_total e w3) as [m Em]. rewrite (bind_Ok _ _ _ _ _ Em).
      split; [done|]. apply (got_event mask w _ _ w1 n x m q); try done. by rewrite <- He.
    + rewrite H. split; [done|]. apply got_nothing; [done..|by left].
Qed.

(** ** The order of the events in a mask *)

Lemma first_of_Some mask es p x :
  first_of mask es = Some (p, x) ↔
  es !! p = Some x ∧ has (e_what x) mask = true ∧ (∀ j y, es !! j = Some y → (j < p)%nat → has (e_what y) mask = false).
Proof.
  unfold first_of. rewrite list_find_Some. setoid_rewrite not_true_iff_false. done.
Qed.

Lemma codes_lookup es es' j x :
  (e_what <$> es) `prefix_of` (e_what <$> es') → es !! j = Some x → ∃ x', es' !! j = Some x' ∧ e_what x' = e_what x.
Proof.
  intros Hp Hx. assert ((e_what <$> es') !! j = Some (e_what x)) as H.
  { eapply prefix_lookup_Some; [|done]. by rewrite list_lookup_fmap, Hx. }
  rewrite list_lookup_fmap in H. destruct (es' !! j) as [x'|]; [|done]. cbn in H. injection H. by exists x'.
Qed.

(** The first event of a mask stays the first of it. *)
Lemma first_of_later w w' mask p x :
  later w w' → first_of mask (pending (w_queue w)) = Some (p, x) →
  ∃ x', first_of mask (pending (w_queue w')) = Some (p, x') ∧ e_what x' = e_what x.
Proof.
  intros [Hp _ _ _] (Hx & Hm & Hb)%first_of_Some. destruct (codes_lookup _ _ _ _ Hp Hx) as (x' & Hx' & Ex).
  exists x'. split; [|done]. apply first_of_Some. split; [done|]. split; [by rewrite Ex|]. intros j y Hy Hj.
  destruct (lookup_lt_is_Some_2 (pending (w_queue w)) j) as [z Hz]; [apply lookup_lt_Some in Hx; lia|].
  destruct (codes_lookup _ _ _ _ Hp Hz) as (y' & Hy' & Ey). assert (y' = y) as -> by congruence. rewrite Ey. by eapply Hb.
Qed.

Lemma has_subset mask all c : Z.land mask all = mask → has c mask = true → has c all = true.
Proof.
  unfold has. intros Hs Hc. destruct (Z.eqb_spec (Z.land c all) 0) as [E|]; [|done].
  rewrite <- Hs, (Z.land_comm mask), Z.land_assoc, E in Hc. done.
Qed.

(** Taking the first event of a larger mask: it is the first of the smaller
    one, or the latter moves up by one place. *)
Lemma first_of_delete mask all es p x :
  Z.land mask all = mask → first_of mask es = Some (p, x) →
  ∃ n y, first_of all es = Some (n, y) ∧
    (n = p ∧ y = x ∨ (n < p)%nat ∧ has (e_what y) mask = false ∧ first_of mask (delete n es) = Some (pred p, x)).
Proof.
  intros Hs (Hx & Hm & Hb)%first_of_Some. destruct (first_of all es) as [[n y]|] eqn:Ef.
  2: { apply list_find_None in Ef. pose proof (Forall_lookup_1 _ _ _ _ Ef Hx) as H. cbn in H.
       by rewrite (has_subset mask) in H. }
  exists n, y. split; [done|]. apply first_of_Some in Ef as (Hy & Hma & Hba).
  destruct (decide (n < p)%nat) as [Hn|Hn].
  - right. split; [done|]. split; [by eapply Hb|]. apply first_of_Some. split; [|split; [done|]].
    + rewrite list_lookup_delete_ge by lia. by replace (S (pred p)) with p by lia.
    + intros j z Hz Hj. destruct (decide (j < n)%nat).
      * rewrite list_lookup_delete_lt in Hz by done. eapply Hb; [done|lia].
      * rewrite list_lookup_delete_ge in Hz by lia. eapply Hb; [done|lia].
  - left. assert (n = p) as ->; [|split; congruence].
    destruct (decide (p < n)%nat) as [Hlt|]; [|lia]. pose proof (Hba p x Hx Hlt) as H. by rewrite (has_subset mask) in H.
Qed.

(** ** [EVT_halt] *)

Lemma halt_leads stack mask p : 
  has mask EVT_JOYEVT = false → Z.land mask EVT_EVERYEVT = mask →
  ∀ fuel evt w x, (p < fuel)%nat → evt_ok w → first_of mask (pending (w_queue w)) = Some (p, x) →
  leads (EVT_halt stack fuel evt mask) w (λ e w', e_what e = e_what x ∧ evt_ok w').
Proof.
  intros Hj Hs. induction p as [p IH] using lt_wf_ind. intros fuel evt w x Hf0 Hw Hx.
  destruct fuel as [|fuel]; [lia|]. unfold leads. cbn [EVT_halt]. rewrite Hj, bind_ret.
  apply (leads_bind _ _ _ _ (λ e w', e_what e = e_what x ∧ evt_ok w') (getNext_leads stack evt EVT_EVERYEVT w Hw)).
  intros r w' [Hw' [w1 n y m q Hl Hf Hr Ht Hd Hl'|Hl Hf Hr]].
  - destruct (first_of_later _ _ _ _ _ Hl Hx) as (x1 & Hx1 & Ex).
    destruct (first_of_delete mask EVT_EVERYEVT _ _ _ Hs Hx1) as (n' & y' & Hf' & Hcase).
    assert (n' = n ∧ y' = y) as [-> ->] by (split; congruence).
    assert (e_what r.2 = e_what y) as Er by by rewrite <- (strip_what r.2), Hr.
    destruct Hcase as [[-> ->]|(Hn & Hno & Hx2)].
    + unfold leads. apply first_of_Some in Hx1 as (_ & Hm & _). rewrite Er, Hm. split; [congruence|done].
    + rewrite Er, Hno. destruct p as [|p]; [lia|].
      destruct (first_of_later (set_w_queue q w1) w' mask p x1) as (x3 & Hx3 & Ex3); [done|by cbn; rewrite Hd|].
      rewrite <- Ex, <- Ex3. apply (IH p); [lia|lia|done|done].
  - destruct (first_of_later _ _ _ _ _ Hl Hx) as (x1 & Hx1 & Ex).
    destruct (first_of_delete mask EVT_EVERYEVT _ _ _ Hs Hx1) as (n' & y' & Hf' & _). congruence.
Qed.

(** ** Starting *)

(** The static variables have their lengths. *)
Definition statics w : Prop := length (q_evtq (w_queue w)) = Z.to_nat EVENTQSIZE ∧ length (kb_keyTable (w_kbd w)) = 128%nat.

Lemma evt_ok_statics w : evt_ok w → statics w.
Proof. intros [(ids & free & Hq) _ Ht]. split; [apply Hq|done]. Qed.

(** The links the loop makes: each spot to the next. *)
Lemma link_spots_run n k w :
  0 ≤ k → (Z.to_nat k + n ≤ length (q_evtq (w_queue w)))%nat →
  ∃ evtq, link_spots (mret tt) k n w = Ok tt (set_w_queue (set_q_evtq evtq (w_queue w)) w) ∧
    length evtq = length (q_evtq (w_queue w)) ∧
    (∀ i, 0 ≤ i < k → at_index i evtq = at_index i (q_evtq (w_queue w))) ∧
    (∀ i e, k ≤ i < k + Z.of_nat n → at_index i evtq = Some e → e_next e = i + 1).
Proof.
  revert k w. induction n as [|n IH]; intros k w Hk Hn; cbn [link_spots].
  { exists (q_evtq (w_queue w)). split; [by destruct w as [[]]|]. split; [done|]. split; [done|lia]. }
  destruct (at_index_lt k (q_evtq (w_queue w))) as [e He]; [lia|].
  rewrite (bind_Ok _ _ _ _ _ (update_event_ok k _ w e He)), bind_ret. set (w1 := set_w_queue _ w).
  destruct (IH (k + 1) w1) as (evtq & E & Hl & Hb & Ha); [lia|cbn; rewrite length_insert; lia|].
  exists evtq. rewrite E. split; [done|]. rewrite Hl. split; [cbn; by rewrite length_insert|]. split.
  - intros i Hi. rewrite Hb by lia. cbn. apply at_index_insert_ne; lia.
  - intros i x Hi Hx. destruct (decide (i = k)) as [->|]; [|apply Ha; [lia|done]].
    rewrite Hb in Hx by lia. cbn in Hx. rewrite (at_index_insert k _ e) in Hx by done. by injection Hx as <-.
Qed.

Lemma free_segment evtq n k :
  length evtq = Z.to_nat EVENTQSIZE → 0 ≤ k → k + Z.of_nat n = EVENTQSIZE →
  (∀ i e, k ≤ i < EVENTQSIZE → at_index i evtq = Some e → e_next e = if i =? EVENTQSIZE - 1 then -1 else i + 1) →
  fseg evtq (seqZ k (Z.of_nat n)).
Proof.
  intros Hl. revert k. induction n as [|n IH]; intros k Hk Hn Hlinks; [done|].
  rewrite seqZ_cons by lia. replace (Z.pred (Z.of_nat (S n))) with (Z.of_nat n) by lia.
  destruct (at_index_lt k evtq) as [e He]; [unfold EVENTQSIZE in *; lia|]. cbn [fseg]. split.
  - exists e. split; [done|]. rewrite (Hlinks k e) by (done || lia). destruct n as [|n].
    + destruct (Z.eqb_spec k (EVENTQSIZE - 1)); [done|lia].
    + rewrite (seqZ_cons (Z.succ k)) by lia. destruct (Z.eqb_spec k (EVENTQSIZE - 1)); [lia|done].
  - apply IH; [lia..|]. intros i x Hi. apply Hlinks. lia.
Qed.

Lemma joyIsPresent_run w : ∃ m j,
  EVT_joyIsPresent w = Ok m (set_w_machine (set_mc_joysticks (tl (mc_joysticks (w_machine w))) (w_machine w)) (set_w_joy j w)).
Proof.
  unfold EVT_joyIsPresent. rewrite bind_joy. unfold _EVT_readJoyAxis, take_reading.
  rewrite !bind_assoc, bind_gets, !bind_assoc, bind_machine, bind_ret, bind_ret, bind_joy. cbn [fst].
  set (m := foldr _ _ _). exists m. destruct (m =? 0); [rewrite bind_ret|rewrite bind_joy]; by eexists.
Qed.

(** One assignment and the pause behind it. *)
Ltac pass :=
  first [rewrite bind_queue|rewrite bind_mouse|rewrite bind_joy|rewrite bind_kbd|rewrite bind_hooks]; rewrite bind_ret;
  match goal with |- context [(_ ≫= _) ?w] => let w' := fresh "w" in set (w' := w) end.

(** While no interrupt comes. *)
Lemma initEventQueue_closed w :
  statics w → leads (initEventQueue_with (mret tt)) w (λ _ w', evt_ok w' ∧ pending (w_queue w') = []).
Proof.
  intros [Hl Ht]. unfold leads, initEventQueue_with.
  destruct (link_spots_run (Z.to_nat EVENTQSIZE) 0 w) as (evtq & E & Hl' & _ & Hlinks); [done|by rewrite Hl|].
  rewrite (bind_Ok _ _ _ _ _ E). set (w1 := set_w_queue _ w).
  destruct (at_index_lt (EVENTQSIZE - 1) evtq) as [e He]; [rewrite Hl', Hl; done|].
  rewrite (bind_Ok _ _ _ _ _ (update_event_ok (EVENTQSIZE - 1) _ w1 e He)), bind_ret.
  do 15 pass.
  match goal with |- context [(EVT_joyIsPresent ≫= _) ?w] => rename w into wq end.
  destruct (joyIsPresent_run wq) as (m & j & Ej). rewrite (bind_Ok _ _ _ _ _ Ej), bind_ret.
  assert (queue_ok (w_queue wq) [] (seqZ 0 EVENTQSIZE)) as Hq.
  { assert (length (q_evtq (w_queue wq)) = Z.to_nat EVENTQSIZE) as Hl2 by (cbn; by rewrite length_insert, Hl').
    split; [|by left..]. split; try done. apply (free_segment _ 100); [done..|]. intros i x Hi. cbn [wq w_queue set_w_queue].
    destruct (Z.eqb_spec i (EVENTQSIZE - 1)) as [->|Hne].
    - cbn -[at_index EVENTQSIZE Z.to_nat]. rewrite (at_index_insert _ _ e) by done. by intros [= <-].
    - cbn -[at_index EVENTQSIZE Z.to_nat]. rewrite at_index_insert_ne by done. apply Hlinks. done. }
  assert (pending (w_queue wq) = []) as Hp by by rewrite (pending_events _ _ _ Hq).
  split; [split; [by eexists _, _|done..]|done].
Qed.

(** ** Points at which no interrupt comes

    What was shown of a command with the interrupts off holds of it with the
    interrupts on as long as none comes at its points. *)

Definition calm (n : nat) w : bool :=
  negb (mc_installed (w_machine w)) ||
  forallb (λ b : list interrupt, if b is [] then true else false) (take n (mc_arrivals (w_machine w))).

Definition with_arrivals (arrivals : list (list interrupt)) w : evt_world :=
  set_w_machine (set_mc_arrivals arrivals (w_machine w)) w.

(** The same state, with other interrupts to come, none at [n] points. *)
Definition calm_copy (n : nat) w w' : Prop := (∃ arrivals, w' = with_arrivals arrivals w) ∧ calm n w' = true.

(** The second command does what the first does, with at most [n - m] points. *)
Definition same_run {A} (n m : nat) (c d : EVT A) : Prop :=
  ∀ w w', calm_copy n w w' →
  match c w, d w' with
  | Ok a w1, Ok b w1' => a = b ∧ calm_copy m w1 w1'
  | Exit _ _, Exit _ _ | Stuck, Stuck | NoFuel, NoFuel => True
  | _, _ => False
  end.

Lemma calm_fewer n m w : (m ≤ n)%nat → calm n w = true → calm m w = true.
Proof.
  intros Hm [Hi|Ha]%orb_true_iff; apply orb_true_iff; [by left|right].
  rewrite <- (take_drop m (take n _)), forallb_app, take_take, Nat.min_l in Ha by done. by apply andb_true_iff in Ha as [? _].
Qed.

Lemma calm_copy_self n w : calm n w = true → calm_copy n w w.
Proof. intros Hc. split; [|done]. exists (mc_arrivals (w_machine w)). by destruct w as [?????[]]. Qed.

Lemma same_bind {A B} n m p (c d : EVT A) (k l : A → EVT B) :
  same_run n m c d → (∀ a, same_run m p (k a) (l a)) → same_run n p (c ≫= k) (d ≫= l).
Proof.
  intros Hc Hk w w' Hw. specialize (Hc w w' Hw). unfold mbind, M_bind.
  destruct (c w) as [a w1| | |], (d w') as [b w1'| | |]; try done. destruct Hc as [<- Hw1]. by apply Hk.
Qed.

Lemma same_fewer {A} n m m' (c d : EVT A) : (m' ≤ m)%nat → same_run n m c d → same_run n m' c d.
Proof.
  intros Hm Hc w w' Hw. specialize (Hc w w' Hw). destruct (c w), (d w'); try done. destruct Hc as (-> & Ha & Hq).
  split; [done|]. split; [done|by eapply calm_fewer].
Qed.

Lemma same_ret {A} n (a : A) : same_run n n (mret a) (mret a).
Proof. by intros w w' Hw. Qed.
Lemma same_deref {A} n (o : option A) : same_run n n (deref o) (deref o).
Proof. intros w w' Hw. by destruct o. Qed.
Lemma same_if {A} n m (b : bool) (c d c' d' : EVT A) :
  same_run n m c c' → same_run n m d d' → same_run n m (if b then c else d) (if b then c' else d').
Proof. by destruct b. Qed.

(** Commands that do not look at the interrupts to come. *)
Lemma same_gets {A} n (f : evt_world → A) : (∀ w l, f (with_arrivals l w) = f w) → same_run n n (gets f) (gets f).
Proof. intros Hf w w' [[l ->] Hw]. split; [by rewrite Hf|]. by split; [exists l|]. Qed.
Lemma same_modify n f :
  (∀ w l, f (with_arrivals l w) = with_arrivals l (f w)) → (∀ w, mc_installed (w_machine (f w)) = mc_installed (w_machine w)) →
  same_run n n (modify f) (modify f).
Proof.
  intros Hf Hi w w' [[l ->] Hw]. split; [done|]. rewrite Hf. split; [by exists l|]. unfold calm in *. cbn in *. by rewrite Hi.
Qed.
Lemma same_machine n f :
  (∀ m l, f (set_mc_arrivals l m) = set_mc_arrivals l (f m)) → (∀ m, mc_installed (f m) = mc_installed m) →
  same_run n n (on_machine f) (on_machine f).
Proof. intros Hf Hi. apply same_modify; intros w; [intros l; unfold with_arrivals; cbn; by rewrite Hf|apply Hi]. Qed.

(** A point at which no interrupt comes. *)
Lemma same_pause stack n : same_run (S n) n (mret tt) (interrupts stack).
Proof.
  intros w w' [[l ->] Hw]. unfold interrupts, take_reading. rewrite bind_gets. cbn [mret M_ret]. unfold calm in Hw. cbn in Hw |- *.
  destruct (mc_installed (w_machine w)) eqn:Ei; cbn in *; [|split; [done|split; [by exists l|unfold calm; cbn; by rewrite Ei]]].
  destruct l as [|b l]; [split; [done|split; [by exists []|unfold calm; cbn; by rewrite Ei, take_nil]]|].
  cbn in Hw. destruct b as [|i b]; [|done]. split; [done|]. split; [by exists l|unfold calm; cbn; by rewrite Ei].
Qed.

Create HintDb same.
#[local] Hint Resolve same_ret same_deref : same.
#[local] Hint Extern 1 (same_run _ _ (gets _) (gets _)) => by apply same_gets : same.
#[local] Hint Extern 1 (same_run _ _ (on_machine _) (on_machine _)) => by apply same_machine : same.
#[local] Hint Extern 1 (same_run _ _ (on_queue _) (on_queue _)) => by apply same_modify : same.
#[local] Hint Extern 1 (same_run _ _ (on_mouse _) (on_mouse _)) => by apply same_modify : same.
#[local] Hint Extern 1 (same_run _ _ (on_joy _) (on_joy _)) => by apply same_modify : same.
#[local] Hint Extern 1 (same_run _ _ (on_kbd _) (on_kbd _)) => by apply same_modify : same.
#[local] Hint Extern 1 (same_run _ _ (on_hooks _) (on_hooks _)) => by apply same_modify : same.
Ltac same :=
  repeat lazymatch goal with
  | |- same_run _ _ (_ ≫= _) _ => eapply same_bind; [|intros ?]
  | |- same_run _ _ (if _ then _ else _) _ => apply same_if
  | |- same_run _ _ _ (interrupts _) => apply same_pause
  | |- same_run _ _ _ _ => solve [auto with same]
  end.

Lemma same_update n i f : same_run n n (update_event i f) (update_event i f).
Proof. unfold update_event, put_event, get_event. same. Qed.
Lemma same_put n i e : same_run n n (put_event i e) (put_event i e).
Proof. unfold put_event, get_event. same. Qed.
Lemma same_get n i : same_run n n (get_event i) (get_event i).
Proof. unfold get_event. same. Qed.
#[local] Hint Resolve same_update same_put same_get : same.

Lemma same_ticks n : same_run n n _EVT_getTicks _EVT_getTicks.
Proof. unfold _EVT_getTicks, take_reading. same. Qed.
Lemma same_present n : same_run n n EVT_joyIsPresent EVT_joyIsPresent.
Proof. unfold EVT_joyIsPresent, _EVT_readJoyAxis, take_reading. same. Qed.
#[local] Hint Resolve same_ticks same_present : same.

Lemma same_note n e : same_run n n (note_mouse e) (note_mouse e).
Proof. unfold note_mouse. same. Qed.
#[local] Hint Resolve same_note : same.

Lemma same_append stack n e : same_run (6 + n) n (append_event e) (append_event_with (interrupts stack) e).
Proof. unfold append_event, append_event_with. same. Qed.

Lemma same_add stack n e : same_run (7 + n) n (addEvent e) (addEvent_with (interrupts stack) e).
Proof.
  unfold addEvent, addEvent_with. eapply same_bind; [apply same_note|intros e']. eapply same_bind; [by apply same_gets|intros filter].
  cbv zeta. apply same_if; [apply (same_fewer _ (7 + n)); [lia|apply same_ret]|].
  eapply same_bind; [apply same_pause|intros _]. apply same_append.
Qed.

(** The points of [addKeyEvent] for a key that is not repeated. *)
Definition key_points : nat := 11.

Lemma same_key stack message :
  same_run key_points 0 (addKeyEvent stack EVT_KEYDOWN message) (addKeyEvent_with (interrupts stack) stack EVT_KEYDOWN message).
Proof.
  unfold addKeyEvent, addKeyEvent_with, key_points. eapply same_bind; [by apply same_gets|intros count].
  apply same_if; [apply (same_fewer _ 11); [lia|apply same_ret]|]. cbn [Z.eqb Pos.eqb EVT_KEYDOWN EVT_KEYREPEAT].
  eapply same_bind; [apply same_pause|intros _]. eapply same_bind; [apply same_ticks|intros ticks].
  eapply same_bind; [apply same_pause|intros _]. eapply same_bind; [by apply same_gets|intros modifiers]. cbv zeta.
  eapply same_bind; [apply same_pause|intros _]. eapply same_bind; [apply (same_add stack 1)|intros _]. same.
Qed.

(** Those of [initEventQueue]. *)
Definition init_points : nat := 117.

Lemma same_links stack i n m : same_run (n + m) m (link_spots (mret tt) i n) (link_spots (interrupts stack) i n).
Proof.
  revert i. induction n as [|n IH]; intros i; cbn [link_spots]; [apply same_ret|].
  eapply same_bind; [apply same_update|intros _]. eapply same_bind; [apply same_pause|intros _]. apply IH.
Qed.

Lemma same_init stack : same_run init_points 0 (initEventQueue_with (mret tt)) (initEventQueue stack).
Proof.
  unfold initEventQueue, initEventQueue_with. eapply same_bind; [apply (same_links stack 0 (Z.to_nat EVENTQSIZE) 17)|intros _]. same.
Qed.

(** What a command leads to in a copy of the state. *)
Lemma same_leads {A} n m (c d : EVT A) w (Q R : A → evt_world → Prop) :
  same_run n m c d → calm n w = true → leads c w Q → (∀ a w1 l, Q a w1 → R a (with_arrivals l w1)) → leads d w R.
Proof.
  intros Hs Hn Hc HR. specialize (Hs w w (calm_copy_self n w Hn)). unfold leads in *.
  destruct (c w), (d w); try done. destruct Hs as (-> & [l ->] & _). by apply HR.
Qed.

Lemma with_arrivals_ok l w : evt_ok w → evt_ok (with_arrivals l w).
Proof. intros [Hq Hc Ht]. by split. Qed.

Lemma initEventQueue_ok stack w :
  statics w → calm init_points w = true → leads (initEventQueue stack) w (λ _ w', evt_ok w' ∧ pending (w_queue w') = []).
Proof.
  intros Hw Hn. eapply (same_leads init_points 0); [apply same_init|done|by apply initEventQueue_closed|].
  intros _ w1 l [Hw1 Hp]. split; [by apply with_arrivals_ok|done].
Qed.

(** A key of the BIOS is queued while no interrupt comes. *)
Lemma quiet_key stack message w :
  evt_ok w → calm key_points w = true →
  leads (addKeyEvent_with (interrupts stack) stack EVT_KEYDOWN message) w (λ _ w',
    evt_ok w' ∧ mc_key_buffer (w_machine w') = mc_key_buffer (w_machine w)).
Proof.
  intros Hw Hn. eapply (same_leads key_points 0); [apply same_key|done|by apply keeps_key_event|].
  intros _ w1 l [Hw1 Hl]. split; [by apply with_arrivals_ok|apply Hl].
Qed.

(** ** The joystick *)

Lemma readJoyAxis_run mask w : ∃ r,
  _EVT_readJoyAxis mask w = Ok r (set_w_machine (set_mc_joysticks (tl (mc_joysticks (w_machine w))) (w_machine w)) w).
Proof. by eexists. Qed.

Lemma readJoyButtons_run w :
  _EVT_readJoyButtons w = Ok (hd 0 (mc_buttons (w_machine w))) (set_w_machine (set_mc_buttons (tl (mc_buttons (w_machine w))) (w_machine w)) w).
Proof. done. Qed.

Lemma payload_joy but x0 x1 x2 x3 :
  payload_change (λ e, set_e_relative_y x3 (set_e_relative_x x2 (set_e_where_y x1 (set_e_where_x x0 (set_e_message but e))))).
Proof. by intros e. Qed.

(** Adding a movement of the joystick or joining it to the one that waits. *)
Lemma keeps_joy_move (f : event_t → event_t) (new : joy_state → event_t) :
  payload_change f → (∀ j, e_what (new j) = EVT_JOYMOVE) →
  ∀ w, evt_ok w →
  leads (oldJoyMove ← gets (λ w, q_oldJoyMove (w_queue w));
     count ← gets (λ w, q_count (w_queue w));
     if negb (oldJoyMove =? -1) then update_event oldJoyMove f
     else if count <? EVENTQSIZE then
       freeHead ← gets (λ w, q_freeHead (w_queue w));
       on_queue (set_q_oldJoyMove freeHead);; addEvent (new (w_joy w))
     else mret tt) w (λ _ w', evt_ok w' ∧ later w w').
Proof.
  intros Hf Hn w Hw. unfold leads. rewrite bind_gets, bind_gets. pose proof Hw as [(ids & free & Hq) _ _].
  destruct (qo_joy _ _ _ Hq) as [->|[Hi _]].
  - cbn [negb Z.eqb Pos.eqb]. destruct (Z.ltb_spec (q_count (w_queue w)) EVENTQSIZE) as [Hc|]; [|by split; [|apply later_same]].
    rewrite bind_gets, bind_queue.
    pose proof (add_marked set_q_oldJoyMove (new (w_joy w)) w (w_mouse w) (mc_clock (w_machine w))) as H.
    set (w2 := set_w_queue _ w). replace (touched _ _ _ w) with w2 in H by (by rewrite <- (touched_id w2)).
    apply H; [by right; right; rewrite Hn|done..].
  - pose proof (used_range Hq _ Hi). destruct (Z.eqb_spec (q_oldJoyMove (w_queue w)) (-1)); [lia|]. cbn [negb].
    by eapply changed_keeps.
Qed.

(** Reading the joysticks while no button changes. *)
Lemma poll_ok stack w :
  evt_ok w → js_joyMask (w_joy w) = 0 ∨ hd 0 (mc_buttons (w_machine w)) = js_joyButState (w_joy w) →
  leads (EVT_pollJoystick stack) w (λ _ w', evt_ok w' ∧ later w w').
Proof.
  intros Hw Hb. unfold leads, EVT_pollJoystick. rewrite bind_gets.
  destruct (Z.eqb_spec (js_joyMask (w_joy w)) 0) as [|Hm]; [by split; [|apply later_same]|]. destruct Hb as [|Hb]; [done|].
  destruct (readJoyAxis_run (js_joyMask (w_joy w)) w) as [r E]. rewrite (bind_Ok _ _ _ _ _ E). set (w1 := set_w_machine _ w).
  rewrite (bind_Ok _ _ _ _ _ (readJoyButtons_run w1)). set (w2 := set_w_machine _ w1).
  change (hd 0 (mc_buttons (w_machine w1))) with (hd 0 (mc_buttons (w_machine w))). rewrite Hb.
  assert (evt_ok w2) as Hw2 by (destruct Hw; by split). assert (later w w2) as Hl by by apply later_same.
  cbv zeta. rewrite Z.eqb_refl. set (axis := imap _ _). clearbody axis w2.
  eapply (leads_bind _ _ _ (λ _ w', evt_ok w' ∧ later w w')); [|done].
  case_bool_decide; [done|]. eapply leads_bind; [by apply keeps_interrupts|]. intros _ w3 [Hw3 Hl3]. cbn beta.
  eapply leads_bind; [by apply keeps_joy|]. intros _ w4 [Hw4 Hl4]. cbn beta.
  eapply leads_mono.
  - apply (keeps_joy_move _ (λ _, Event 0 EVT_JOYMOVE 0 (nth 0 axis 0) (nth 1 axis 0) (nth 2 axis 0) (nth 3 axis 0) (js_joyButState (w_joy w)) 0 0 0));
      [apply payload_joy|done|done].
  - intros _ w5 [Hw5 Hl5]. split; [done|]. by repeat (etrans; [done|]).
Qed.

(** ** [EVT_post] *)

(** There is still room once the interrupts that may come before the critical
    section were served. *)
Definition room stack w : Prop :=
  leads (interrupts stack) (touched (w_queue w) (w_mouse w) (tl (mc_clock (w_machine w))) w) (λ _ w', q_count (w_queue w') < EVENTQSIZE).

Lemma post_ok stack which what message modifiers w :
  evt_ok w → EVENTQSIZE ≤ q_count (w_queue w) ∨ room stack w →
  leads (EVT_post stack which what message modifiers) w (λ _ w', evt_ok w' ∧ later w w').
Proof.
  intros Hw Hr. unfold leads, EVT_post. rewrite bind_gets.
  destruct (Z.ltb_spec (q_count (w_queue w)) EVENTQSIZE) as [Hc|]; [|by split; [|apply later_same]].
  destruct Hr as [|Hr]; [lia|]. cbn [negb].
  assert (∃ t, _EVT_getTicks w = Ok t (touched (w_queue w) (w_mouse w) (tl (mc_clock (w_machine w))) w)) as [t Et] by by eexists.
  rewrite (bind_Ok _ _ _ _ _ Et). destruct (touched_same (w_mouse w) (tl (mc_clock (w_machine w))) w Hw) as [Hw1 Hl1].
  unfold room in Hr. set (w1 := touched _ _ _ w) in *. clearbody w1. pose proof (keeps_interrupts stack w1 Hw1) as Hk.
  assert (leads (interrupts stack) w1 (λ _ w', evt_ok w' ∧ later w1 w' ∧ q_count (w_queue w') < EVENTQSIZE)) as H.
  { unfold leads in *. destruct (interrupts stack w1); naive_solver. }
  apply (leads_bind _ _ _ _ (λ _ w', evt_ok w' ∧ later w w') H). intros _ w2 (Hw2 & Hl2 & Hc2). cbn beta.
  eapply leads_bind; [by apply addEvent_keeps|]. intros _ w3 [Hw3 Hl3]. split; [done|]. by repeat (etrans; [done|]).
Qed.

(** ** Movements of the mouse *)

(** The event a movement joins. *)
Definition shifted (x y dx dy : Z) e : event_t :=
  set_e_relative_y (i32 (e_relative_y e + dy)) (set_e_relative_x (i32 (e_relative_x e + dx)) (set_e_where_y y (set_e_where_x x e))).

(** What a movement does to the waiting events. *)
Variant merged (x y dx dy : Z) es : list event_t → Prop :=
  | merged_new m : e_what m = EVT_MOUSEMOVE → e_where_x m = x → e_where_y m = y →
      e_relative_x m = dx → e_relative_y m = dy → merged x y dx dy es (es ++ [m])
  | merged_joined before m after : e_what m = EVT_MOUSEMOVE → es = before ++ m :: after →
      merged x y dx dy es (before ++ shifted x y dx dy m :: after).

Lemma move_merges stack butstate x y dx dy w :
  evt_ok w → hk_userEventCallback (w_hooks w) = None → q_oldMove (w_queue w) ≠ -1 ∨ q_count (w_queue w) < EVENTQSIZE →
  ∃ w', move_section stack butstate x y dx dy w = Ok tt w' ∧ q_oldMove (w_queue w') ≠ -1 ∧
    merged x y dx dy (pending (w_queue w)) (pending (w_queue w')) ∧
    (q_oldMove (w_queue w) ≠ -1 → length (pending (w_queue w')) = length (pending (w_queue w))).
Proof.
  intros [(ids & free & Hq) _ _] Hfilter Hroom. unfold move_section. rewrite bind_mouse, bind_gets. set (w1 := set_w_mouse _ w).
  change (q_oldMove (w_queue w1)) with (q_oldMove (w_queue w)). destruct (qo_move _ _ _ Hq) as [Eo|[Hi Hwhat]].
  - rewrite Eo. cbn [negb Z.eqb Pos.eqb]. destruct Hroom as [|Hc]; [done|]. rewrite bind_gets, bind_queue. unfold addMouseEvent.
    rewrite bind_gets. cbn [w1 set_w_queue w_queue set_w_mouse q_count set_q_oldMove].
    destruct (Z.ltb_spec (q_count (w_queue w)) EVENTQSIZE); [|lia]. cbn [negb]. set (w2 := set_w_queue _ w1).
    destruct (getTicks_run w2) as (t & c & Et). rewrite (bind_Ok _ _ _ _ _ Et), bind_gets. set (w3 := touched _ _ _ w2).
    pose proof (free_spots _ _ _ Hq) as Hf. destruct free as [|i free]; [rewrite bool_decide_eq_true_2 in Hf by done; cbn in Hf; lia|].
    assert (queue_shape (w_queue w3) ids (i :: free)) as Hq3 by apply set_marks, Hq.
    match goal with |- context [addEvent ?a] => set (e := a) end.
    destruct (addEvent_run e w3 ids i free Hq3) as (m & c' & E). eexists. split; [done|].
    assert (outcome w3 e = Some e) as ->.
    { unfold outcome. change (hk_userEventCallback (w_hooks w3)) with (hk_userEventCallback (w_hooks w)). by rewrite Hfilter. }
    destruct (appended_ok e i _ ids free Hq3) as (_ & _ & Hp). cbn [touched w_queue]. split.
    + cbn. rewrite (qs_freeHead _ _ _ Hq). cbn. pose proof (spot_range Hq i) as Hr. specialize (Hr ltac:(apply elem_of_app; right; left)). lia.
    + split; [|by intros Hne]. rewrite Hp. by apply merged_new.
  - pose proof (used_range Hq _ Hi). destruct (Z.eqb_spec (q_oldMove (w_queue w)) (-1)); [lia|]. cbn [negb].
    eexists. split; [apply (changed_run (shifted x y dx dy) _ w1 ids free); [apply Hq|done]|]. split; [done|].
    set (i := q_oldMove (w_queue w)) in *. apply list_elem_of_split in Hi as (before & after & Eids). rewrite Eids in Hq.
    destruct (changed_ok (shifted x y dx dy) (w_queue w) before i after free (payload_move x y dx dy) Hq) as (_ & e & He & Hp & Hp').
    cbn [w_queue set_w_queue]. change (w_queue w1) with (w_queue w). rewrite Hp', Hp. split; [|by rewrite !length_app].
    apply merged_joined; [|done].
    rewrite He in Hwhat. cbn in Hwhat. by injection Hwhat.
Qed.

(** How far the waiting movements go, along one axis. *)
Definition travel (axis : event_t → Z) es : Z :=
  foldr (λ e s, if e_what e =? EVT_MOUSEMOVE then axis e + s else s) 0 es.

Lemma travel_app axis es es' : travel axis (es ++ es') = travel axis es + travel axis es'.
Proof. induction es as [|e es IH]; [done|]. cbn [app travel foldr]. fold (travel axis (es ++ es')) (travel axis es). rewrite IH. case_match; lia. Qed.

Lemma i32_cong a b : (a - b) mod 2 ^ 32 = 0 → i32 a = i32 b.
Proof.
  intros H. unfold i32. f_equal. replace (a + 2 ^ 31) with ((b + 2 ^ 31) + (a - b)) by lia.
  by rewrite Z.add_mod, H, Z.add_0_r, Z.mod_mod by lia.
Qed.

Lemma i32_wraps a : (i32 a - a) mod 2 ^ 32 = 0.
Proof.
  unfold i32. rewrite (Z.mod_eq (a + 2 ^ 31)) by lia.
  replace (a + 2 ^ 31 - 2 ^ 32 * ((a + 2 ^ 31) / 2 ^ 32) - 2 ^ 31 - a) with (- ((a + 2 ^ 31) / 2 ^ 32) * 2 ^ 32) by lia.
  by apply Z.mod_mul.
Qed.

Lemma merged_travel x y dx dy es es' :
  merged x y dx dy es es' →
  i32 (travel e_relative_x es') = i32 (travel e_relative_x es + dx) ∧ i32 (travel e_relative_y es') = i32 (travel e_relative_y es + dy).
Proof.
  intros [m Hm _ _ <- <-|before m after Hm ->]; rewrite !travel_app; cbn [travel foldr shifted e_what set_e_relative_y set_e_relative_x
    set_e_where_y set_e_where_x e_relative_x e_relative_y]; rewrite Hm; cbn [Z.eqb Pos.eqb EVT_MOUSEMOVE].
  - split; f_equal; lia.
  - split; apply i32_cong; fold (travel e_relative_x after) (travel e_relative_y after).
    + pose proof (i32_wraps (e_relative_x m + dx)) as H. etrans; [|exact H]. f_equal. lia.
    + pose proof (i32_wraps (e_relative_y m + dy)) as H. etrans; [|exact H]. f_equal. lia.
Qed.

Lemma merged_length x y dx dy es es' : merged x y dx dy es es' → (length es' ≤ S (length es))%nat.
Proof. intros [m _ _ _ _ _|before m after _ ->]; rewrite !length_app; cbn [length]; lia. Qed.

Lemma merged_where x y dx dy es es' :
  merged x y dx dy es es' → ∃ e, e ∈ es' ∧ e_what e = EVT_MOUSEMOVE ∧ e_where_x e = x ∧ e_where_y e = y.
Proof.
  intros [m Hm Hx Hy _ _|before m after Hm ->]; eexists; (split; [apply elem_of_app; right; left|]); done.
Qed.

(** An interrupt that tells of a movement only. *)
Definition moving (i : interrupt) : Prop := ∃ butstate x y dx dy, i = MouseInt 1 butstate x y dx dy [] [] [].
Definition place (i : interrupt) : Z * Z := match i with MouseInt _ _ x y _ _ _ _ _ => (x, y) | KeyInt _ => (0, 0) end.
Definition mickeys (i : interrupt) : Z * Z := match i with MouseInt _ _ _ _ dx dy _ _ _ => (dx, dy) | KeyInt _ => (0, 0) end.
Definition total (axis : Z * Z → Z) (batch : list interrupt) : Z := foldr (λ i s, axis (mickeys i) + s) 0 batch.

Lemma i32_add a b c : i32 a = i32 b → i32 (a + c) = i32 (b + c).
Proof.
  intros H. apply i32_cong. pose proof (i32_wraps a) as Ha. pose proof (i32_wraps b) as Hb. rewrite H in Ha.
  replace (a + c - (b + c)) with ((i32 b - b) - (i32 b - a)) by lia. rewrite Zminus_mod, Ha, Hb. done.
Qed.

Lemma movements_run stack batch w :
  evt_ok w → hk_userEventCallback (w_hooks w) = None → q_oldMove (w_queue w) ≠ -1 ∨ q_count (w_queue w) < EVENTQSIZE →
  Forall moving batch →
  ∃ w', handle_all stack batch w = Ok tt w' ∧ evt_ok w' ∧ later w w' ∧
    (length (pending (w_queue w')) ≤ (if bool_decide (q_oldMove (w_queue w) = (-1)%Z) then S else id) (length (pending (w_queue w))))%nat ∧
    i32 (travel e_relative_x (pending (w_queue w'))) = i32 (travel e_relative_x (pending (w_queue w)) + total fst batch) ∧
    i32 (travel e_relative_y (pending (w_queue w'))) = i32 (travel e_relative_y (pending (w_queue w)) + total snd batch) ∧
    (∀ i, last batch = Some i →
       ∃ e, e ∈ pending (w_queue w') ∧ e_what e = EVT_MOUSEMOVE ∧ (e_where_x e, e_where_y e) = place i).
Proof.
  intros Hw Hfilter Hroom Hb. revert w Hw Hfilter Hroom. induction Hb as [|i batch (but & x & y & dx & dy & ->) Hb IH]; intros w Hw Hfilter Hroom.
  { exists w. split; [done|]. split; [done|]. split; [done|]. split; [case_match; cbn; lia|]. cbn. by rewrite !Z.add_0_r. }
  destruct (move_merges stack but x y dx dy w Hw Hfilter Hroom) as (w1 & E & Hold & Hm & Hlen).
  pose proof (keeps_handle stack (MouseInt 1 but x y dx dy [] [] []) w Hw) as Hk. unfold leads in Hk.
  set (w2 := set_w_queue (set_q_oldKey (-1) (w_queue w1)) w1).
  assert (handle stack (MouseInt 1 but x y dx dy [] [] []) w = Ok tt w2) as E2.
  { cbn [handle]. unfold mouseISR. by rewrite (bind_Ok _ _ _ _ _ E). }
  rewrite E2 in Hk. destruct Hk as [Hw2 Hl2]. assert (pending (w_queue w2) = pending (w_queue w1)) as Ep by done.
  destruct (IH w2) as (w' & E' & Hw' & Hl' & Hlen' & Hx & Hy & Hlast); [done|by rewrite (lt_hooks _ _ Hl2)|by left|].
  destruct (merged_travel _ _ _ _ _ _ Hm) as [Htx Hty]. exists w'. cbn [handle_all]. rewrite (bind_Ok _ _ _ _ _ E2).
  split; [done|]. split; [done|]. split; [by etrans|]. rewrite Ep in *. split; [|split; [|split]].
  - rewrite bool_decide_eq_false_2 in Hlen' by done. cbn in Hlen'. pose proof (merged_length _ _ _ _ _ _ Hm).
    case_bool_decide as Hd; [lia|]. rewrite (Hlen Hd) in Hlen'. cbn. lia.
  - rewrite Hx. cbn [total foldr mickeys fst]. fold (total fst batch). rewrite Z.add_assoc. by apply i32_add.
  - rewrite Hy. cbn [total foldr mickeys snd]. fold (total snd batch). rewrite Z.add_assoc. by apply i32_add.
  - intros i. destruct batch as [|j batch]; [|intros Hi; apply Hlast; exact Hi]. intros [= <-]. cbn in E'. injection E' as <-.
    rewrite Ep. destruct (merged_where _ _ _ _ _ _ Hm) as (e & He & Hwhat & <- & <-). by exists e.
Qed.
