(* ===== verification/EvtKeys.v ===== *)
(** * Keys

    The code pages as dictionaries, and what a key that is pressed is read
    as. *)
From Stdlib Require Import Sorting.Sorted.
From S2P Require Import Prelude EvtTypes Evt EvtApi EvtQueue EvtSafe EvtNext.
Local Open Scope Z_scope.

Implicit Types (w : evt_world) (e : event_t) (table : list codepage_entry_t).

(** ** Code pages *)

(** The character a code page has for a scan code, 0 when it has none. *)
Definition entry (scan : Z) table : Z := from_option (λ p, p.2.2) 0 (list_find (λ t, t.1 = scan) table).

Definition ascending table : Prop := StronglySorted Z.lt (map fst table).

Lemma entry_nil scan : entry scan [] = 0.
Proof. done. Qed.

Lemma entry_cons scan t table : entry scan (t :: table) = if decide (t.1 = scan) then t.2 else entry scan table.
Proof. unfold entry. cbn [list_find]. destruct (decide (t.1 = scan)); [done|]. by destruct (list_find (λ t, t.1 = scan) table) as [[? ?]|]. Qed.

Lemma entry_app scan table table' :
  Forall (λ t, t.1 ≠ scan) table → entry scan (table ++ table') = entry scan table'.
Proof.
  induction 1 as [|t table Ht _ IH]; [done|]. cbn [app]. rewrite entry_cons, IH. by rewrite decide_False.
Qed.

Lemma entry_absent scan table : Forall (λ t, t.1 ≠ scan) table → entry scan table = 0.
Proof. intros H. rewrite <- (app_nil_r table). by rewrite entry_app. Qed.

Lemma entry_prefix scan table table' :
  Forall (λ t, t.1 ≠ scan) table' → entry scan (table ++ table') = entry scan table.
Proof.
  intros H. induction table as [|t table IH]; [by apply entry_absent|]. cbn [app]. by rewrite !entry_cons, IH.
Qed.

Lemma ascending_app table table' :
  ascending (table ++ table') → ascending table ∧ ascending table' ∧ (∀ t t', t ∈ table → t' ∈ table' → t.1 < t'.1).
Proof.
  unfold ascending. rewrite map_app. induction table as [|t table IH]; cbn [map app].
  - intros H. split; [constructor|]. split; [done|]. intros t t' Ht. by apply not_elem_of_nil in Ht.
  - intros [H1 H2]%StronglySorted_inv. apply IH in H1 as (Ha & Hb & Hc). apply Forall_app in H2 as [H2 H3]. split; [by constructor|].
    split; [done|]. intros u u' [->|Hu]%elem_of_cons Hu'; [|by apply Hc].
    eapply Forall_forall in H3; [done|]. by apply list_elem_of_fmap_2.
Qed.

(** The search halves the table: it finds what a search of all of it finds. *)
Lemma translate_entry fuel scan table n w :
  ascending table → n ≤ Z.of_nat fuel → n ≤ Z.of_nat (length table) →
  translate_loop fuel scan table n w = Ok (entry scan (take (Z.to_nat n) table)) w.
Proof.
  revert table n. induction fuel as [|fuel IH]; intros table n Ha Hf Hn; cbn [translate_loop].
  - destruct (Z.leb_spec n 0); [|lia]. by replace (Z.to_nat n) with 0%nat by lia.
  - destruct (Z.leb_spec n 0); [by replace (Z.to_nat n) with 0%nat by lia|]. rewrite Z.shiftr_div_pow2 by done. change (2 ^ 1) with 2.
    assert (0 ≤ n / 2 < n) as Hp by (split; [apply Z.div_pos|apply Z.div_lt]; lia). set (p := n / 2) in *. clearbody p.
    destruct (lookup_lt_is_Some_2 table (Z.to_nat p)) as [t Ht]; [lia|].
    assert (at_index p table = Some t) as -> by (apply at_index_Some; naive_solver lia). rewrite bind_deref.
    pose proof (take_drop_middle table (Z.to_nat p) t Ht) as Esplit. replace (S (Z.to_nat p)) with (Z.to_nat (p + 1)) in Esplit by lia.
    set (low := take (Z.to_nat p) table) in *. set (high := drop (Z.to_nat (p + 1)) table) in *.
    assert (length low = Z.to_nat p) as Hlow by (subst low; rewrite length_take; lia).
    assert (take (Z.to_nat n) table = low ++ t :: take (Z.to_nat (n - (p + 1))) high) as Etake.
    { rewrite <- Esplit, take_app, Hlow. rewrite (take_ge low) by lia.
      by replace (Z.to_nat n - Z.to_nat p)%nat with (S (Z.to_nat (n - (p + 1)))) by lia. }
    rewrite Etake. clear Etake. pose proof Ha as Ha'. rewrite <- Esplit in Ha'. apply ascending_app in Ha' as (Hal & Hah & Hlt).
    apply (ascending_app [t] high) in Hah as (_ & Hah & Hlt').
    destruct (Z.ltb_spec (scan - t.1) 0); [|destruct (Z.eqb_spec (scan - t.1) 0)].
    + rewrite IH by (done || lia). f_equal. symmetry. apply entry_prefix. apply Forall_cons. split; [lia|].
      apply Forall_take, Forall_forall. intros t' Ht'. specialize (Hlt' t t' ltac:(left) Ht'). lia.
    + rewrite entry_app, entry_cons, decide_True by (lia || (apply Forall_forall; intros t' Ht'; specialize (Hlt t' t Ht' ltac:(left)); lia)). done.
    + rewrite IH by (try done; subst high; rewrite ?length_drop; lia). f_equal.
      rewrite entry_app, entry_cons, decide_False by (lia || (apply Forall_forall; intros t' Ht'; specialize (Hlt t' t Ht' ltac:(left)); lia)). done.
Qed.

Lemma translateScan_entry scan table w : ascending table → translateScan scan table w = Ok (entry scan table) w.
Proof. intros Ha. unfold translateScan. rewrite translate_entry by (done || lia). by rewrite Nat2Z.id, take_ge. Qed.

Definition page_ok (page : codepage_t) : Prop :=
  ascending (cp_normal page) ∧ ascending (cp_caps page) ∧ ascending (cp_shift page) ∧
  ascending (cp_shiftCaps page) ∧ ascending (cp_ctrl page) ∧ ascending (cp_numPad page).

(** The tables to look in, in their order, while these modifiers hold. *)
Definition tables_for (page : codepage_t) (modifiers : Z) : list (list codepage_entry_t) :=
  (if has modifiers EVT_NUMLOCK then [cp_numPad page] else []) ++
  if has modifiers EVT_CTRLSTATE then [cp_ctrl page] else
  (if has modifiers EVT_CAPSLOCK then [if has modifiers EVT_SHIFTKEY then cp_shiftCaps page else cp_caps page] else []) ++
  (if has modifiers EVT_SHIFTKEY then [cp_shift page] else []) ++ [cp_normal page].

(** The first that has a character for the key gives it. *)
Fixpoint first_entry (scan : Z) (tables : list (list codepage_entry_t)) : Z :=
  match tables with
  | [] => 0
  | t :: tables => if entry scan t =? 0 then first_entry scan tables else entry scan t
  end.

Definition character (page : codepage_t) (modifiers scan : Z) : Z := first_entry scan (tables_for page modifiers).

Lemma look_step (b : bool) scan table (found : Z → event_t) (rest : EVT event_t) tables w :
  ascending table → rest w = Ok (found (first_entry scan tables)) w →
  (ascii ← (if b then translateScan scan table else mret 0);
   if negb (ascii =? 0) then mret (found ascii) else rest) w =
    Ok (found (first_entry scan ((if b then [table] else []) ++ tables))) w.
Proof.
  intros Ht Hr. destruct b; [|done]. rewrite (bind_Ok _ _ _ _ _ (translateScan_entry scan table w Ht)).
  cbn [app first_entry]. by destruct (entry scan table =? 0).
Qed.

Lemma look_last scan table (found : Z → event_t) w :
  ascending table → (ascii ← translateScan scan table; mret (M:=EVT) (found ascii)) w = Ok (found (first_entry scan [table])) w.
Proof.
  intros Ht. rewrite (bind_Ok _ _ _ _ _ (translateScan_entry scan table w Ht)). cbn [first_entry].
  by destruct (Z.eqb_spec (entry scan table) 0) as [->|].
Qed.

Lemma maskKeyCode_run e w :
  page_ok (hk_codePage (w_hooks w)) →
  _EVT_maskKeyCode e w = Ok (set_e_message (Z.lor (Z.ldiff (e_message e) 0xFF)
    (character (hk_codePage (w_hooks w)) (e_modifiers e) (EVT_scanCode (e_message e)))) e) w.
Proof.
  intros (Hn & Hc & Hs & Hsc & Hct & Hnp). unfold _EVT_maskKeyCode, character, tables_for. cbv zeta. rewrite bind_gets.
  set (page := hk_codePage (w_hooks w)) in *. set (scan := EVT_scanCode (e_message e)).
  cbn [e_modifiers e_message set_e_message]. set (m := e_modifiers e).
  set (found a := set_e_message (Z.lor (Z.ldiff (e_message e) 0xFF) a) e).
  apply (look_step (has m EVT_NUMLOCK) scan _ found); [done|].
  destruct (has m EVT_CTRLSTATE); [by apply (look_last scan _ found)|].
  destruct (has m EVT_SHIFTKEY).
  - apply (look_step (has m EVT_CAPSLOCK) scan _ found); [done|]. apply (look_step true scan _ found); [done|]. by apply (look_last scan _ found).
  - apply (look_step (has m EVT_CAPSLOCK) scan _ found); [done|]. by apply (look_last scan _ found).
Qed.

Lemma mask_key_run e w :
  page_ok (hk_codePage (w_hooks w)) → has (e_what e) EVT_KEYEVT = true →
  mask_key e w = Ok (set_e_message (Z.lor (Z.ldiff (e_message e) 0xFF)
    (character (hk_codePage (w_hooks w)) (e_modifiers e) (EVT_scanCode (e_message e)))) e) w.
Proof. intros Hp He. unfold mask_key. rewrite He. by apply maskKeyCode_run. Qed.

Definition ascending_b table : bool := forallb (λ p, p.1 <? p.2) (zip (map fst table) (tl (map fst table))).

Lemma ascending_decided table : ascending_b table = true → ascending table.
Proof.
  unfold ascending_b, ascending. induction (map fst table) as [|a l IH]; intros H; [constructor|].
  apply Sorted_StronglySorted; [intros ???; apply Z.lt_trans|]. clear IH. revert a H. induction l as [|b l IH]; intros a H; [repeat constructor|].
  cbn in H. apply andb_true_iff in H as [Hab H]. constructor; [by apply IH|]. constructor. cbn in Hab. lia.
Qed.

Lemma US_page_ok : page_ok _CP_US_English.
Proof. unfold page_ok. split_and!; apply ascending_decided; vm_compute; reflexivity. Qed.

(** ** Reading while no interrupts arrive *)

Lemma interrupts_none stack w : mc_arrivals (w_machine w) = [] → interrupts stack w = Ok tt w.
Proof.
  intros Ha. unfold interrupts, take_reading. rewrite bind_gets. destruct (negb _); [done|].
  rewrite !bind_assoc, bind_gets, !bind_assoc, bind_machine, bind_ret, Ha.
  cbn [tl hd]. assert (set_w_machine (set_mc_arrivals [] (w_machine w)) w = w) as ->.
  { rewrite <- Ha. by destruct w as [?????[]]. }
  done.
Qed.

Lemma attend_none stack w :
  mc_arrivals (w_machine w) = [] → ∃ calls, attend stack w = Ok tt (set_w_machine (set_mc_calls calls (w_machine w)) w).
Proof.
  intros Ha. unfold attend. rewrite bind_gets.
  destruct (hk_heartBeat (w_hooks w)) as [b|]; [rewrite bind_machine|rewrite bind_ret]; eexists;
    (erewrite bind_Ok; [|by apply interrupts_none]); by rewrite bind_gets.
Qed.

Lemma getNext_quiet stack evt mask n x w :
  evt_ok w → mc_arrivals (w_machine w) = [] → page_ok (hk_codePage (w_hooks w)) → has (e_what x) EVT_KEYEVT = true →
  first_of mask (pending (w_queue w)) = Some (n, x) →
  ∃ e w', EVT_getNext stack evt mask w = Ok (true, e) w' ∧
    strip e = set_e_message (Z.lor (Z.ldiff (e_message x) 0xFF)
      (character (hk_codePage (w_hooks w)) (e_modifiers x) (EVT_scanCode (e_message x)))) x ∧
    evt_ok w' ∧ pending (w_queue w') = delete n (pending (w_queue w)) ∧ mc_arrivals (w_machine w') = [] ∧ w_hooks w' = w_hooks w.
Proof.
  intros [Hq Hc Ht] Ha Hpage Hx Hf. destruct (attend_none stack w Ha) as [calls E]. set (w1 := set_w_machine _ w) in E.
  assert (evt_ok w1) as Hw1 by by split. rewrite getNext_unfold, (bind_Ok _ _ _ _ _ E), bind_gets. pose proof Hq as (ids & free & Hq').
  rewrite (count_pending w1 ids free) by done. rewrite bool_decide_eq_false_2 by (change (w_queue w1) with (w_queue w); by intros En; rewrite En in Hf).
  rewrite (bind_Ok _ _ _ _ _ (interrupts_none stack w1 Ha)). pose proof (get_section_run stack (set_e_what EVT_NULLEVT evt) mask w1 Hw1) as H.
  change (w_queue w1) with (w_queue w) in H. rewrite Hf in H. destruct H as (e & q & <- & Hp & Hw2 & ->).
  set (w2 := set_w_queue q w1) in *. rewrite (bind_Ok _ _ _ _ _ (interrupts_none stack w2 Ha)).
  rewrite (bind_Ok _ _ _ _ _ (mask_key_run e w2 Hpage Hx)). eexists _, w2. split; [done|]. split; [done|]. by split.
Qed.

(** ** Typing *)

(** What one looks at of a key's event. *)
Definition brief e : Z * Z * Z := (e_what e, e_message e, e_modifiers e).

(** Any key of a keyboard without the grey keys that is not a modifier. *)
Definition plain (scan : Z) : bool :=
  (0 <=? scan) && (scan <? 0x60) &&
  negb (existsb (Z.eqb (regular_code scan))
    [KB_capsLock; KB_numLock; KB_scrollLock; KB_leftShift; KB_rightShift; KB_leftCtrl; KB_rightCtrl; KB_leftAlt; KB_rightAlt; KB_delete]).

(** The codes of pressing and releasing a key, and what they become. *)
Definition stroke (scan : Z) : list Z := [scan; Z.lor scan 0x80].
Definition stroke_brief (modifiers scan : Z) : list (Z * Z * Z) :=
  let message := Z.lor (Z.shiftl (regular_code scan) 8) 0x10000 in
  [(EVT_KEYDOWN, message, modifiers); (EVT_KEYUP, message, modifiers)].

Record listening w : Prop := Listening {
  ls_ok : evt_ok w;
  ls_filter : hk_userEventCallback (w_hooks w) = None;
  ls_arrivals : mc_arrivals (w_machine w) = [];
  ls_pause : kb_pauseLoop (w_kbd w) = 0;
  ls_extended : kb_extended (w_kbd w) = false;
  ls_table : kb_keyTable (w_kbd w) = replicate 128 0
}.

Lemma addKeyEvent_run stack what message w :
  evt_ok w → hk_userEventCallback (w_hooks w) = None → q_count (w_queue w) < EVENTQSIZE → what = EVT_KEYDOWN ∨ what = EVT_KEYUP →
  ∃ q m c, addKeyEvent stack what message w = Ok tt (touched q m c w) ∧ evt_ok (touched q m c w) ∧
    brief <$> pending q = (brief <$> pending (w_queue w)) ++ [(what, Z.lor message 0x10000, kb_keyModifiers (w_kbd w))].
Proof.
  intros Hw Hf Hc Hwhat. pose proof (keeps_key_event stack what message w Hw) as Hk. unfold leads in Hk.
  rewrite addKeyEvent_closed, bind_gets in *. destruct (Z.ltb_spec (q_count (w_queue w)) EVENTQSIZE); [|lia]. cbn [negb] in *.
  destruct (getTicks_run w) as (t & c & Et). rewrite (bind_Ok _ _ _ _ _ Et), bind_gets in *. set (w1 := touched _ _ _ w) in *.
  destruct Hw as [(ids & free & Hq) _ _]. pose proof (free_spots _ _ _ Hq) as Hfree.
  destruct free as [|i free]; [rewrite bool_decide_eq_true_2 in Hfree by done; cbn in Hfree; lia|].
  cbv zeta in *. match goal with |- context [addEvent ?a] => set (e := a) in * end.
  destruct (Z.eqb_spec what EVT_KEYREPEAT) as [->|_]; [by destruct Hwhat|].
  destruct (addEvent_run e w1 ids i free (qo_shape _ _ _ Hq)) as (m & c' & E).
  assert (outcome w1 e = Some e) as Eo.
  { unfold outcome. change (hk_userEventCallback (w_hooks w1)) with (hk_userEventCallback (w_hooks w)). rewrite Hf.
    unfold classify. by destruct Hwhat as [-> | ->]. }
  rewrite Eo in E. rewrite (bind_Ok _ _ _ _ _ E) in *. destruct (appended_ok e i _ ids free (qo_shape _ _ _ Hq)) as (_ & _ & Hp).
  eexists (set_q_oldMove (-1) (appended e i (w_queue w))), m, c'. split; [done|]. split; [apply Hk|].
  change (pending (set_q_oldMove (-1) (appended e i (w_queue w)))) with (pending (appended e i (w_queue w))).
  by rewrite Hp, fmap_app.
Qed.

Lemma codes_of_key scan : 0 ≤ scan < 0x60 →
  has scan 0x80 = false ∧ Z.land scan 0x7F = scan ∧ has (Z.lor scan 0x80) 0x80 = true ∧ Z.land (Z.lor scan 0x80) 0x7F = scan ∧
  (scan =? 0xE0) = false ∧ (scan =? 0xE1) = false ∧ (Z.lor scan 0x80 =? 0xE0) = false ∧ (Z.lor scan 0x80 =? 0xE1) = false ∧
  0 ≤ regular_code scan < 128 ∧ (scan ≠ 0 → regular_code scan ≠ 0).
Proof.
  intros Hs.
  set (test s := negb (has s 0x80) && (Z.land s 0x7F =? s) && has (Z.lor s 0x80) 0x80 && (Z.land (Z.lor s 0x80) 0x7F =? s) &&
    negb (Z.lor s 0x80 =? 0xE0) && negb (Z.lor s 0x80 =? 0xE1) && ((s =? 0) || negb (regular_code s =? 0))).
  assert (forallb test (seqZ 0 0x60) = true) as H by (vm_compute; reflexivity).
  rewrite forallb_forall in H. specialize (H scan). rewrite <- list_elem_of_In, elem_of_seqZ in H. specialize (H ltac:(lia)). unfold test in H.
  rewrite !andb_true_iff, !negb_true_iff, orb_true_iff, negb_true_iff, !Z.eqb_eq in H.
  destruct H as [[[[[[H1 H2] H3] H4] H5] H6] H7]. split_and!; try done; try lia.
  - pose proof (virtual_code_range false scan). lia.
  - pose proof (virtual_code_range false scan). lia.
Qed.

Lemma plain_range scan : plain scan = true → 0 ≤ scan < 0x60.
Proof. unfold plain. intros [[? ?]%andb_true_iff _]%andb_true_iff. lia. Qed.

Lemma plain_shift scan what : plain scan = true → shift_keys what (regular_code scan) = mret tt.
Proof.
  unfold plain. intros [_ H]%andb_true_iff. apply negb_true_iff in H. cbn [existsb] in H.
  repeat (apply orb_false_iff in H as [? H]). unfold shift_keys.
  by repeat match goal with E : (_ =? ?k) = false |- context [_ =? ?k] => rewrite E; clear E end.
Qed.

(** One code of a key. *)
Definition code_of (scan : Z) (press : bool) : Z := if press then scan else Z.lor scan 0x80.

Lemma process_run stack scan (press : bool) w :
  plain scan = true → evt_ok w → hk_userEventCallback (w_hooks w) = None →
  kb_pauseLoop (w_kbd w) = 0 → kb_extended (w_kbd w) = false →
  (if press then kb_keyTable (w_kbd w) !! Z.to_nat (regular_code scan) = Some 0 else True) →
  q_count (w_queue w) < EVENTQSIZE →
  let keys := <[Z.to_nat (regular_code scan):=(if press then regular_code scan else 0)]> (kb_keyTable (w_kbd w)) in
  let w1 := set_w_kbd (set_kb_keyTable keys (w_kbd w)) w in
  ∃ q m c, processRawScanCode stack (code_of scan press) w = Ok tt (touched q m c w1) ∧
    evt_ok (touched q m c w1) ∧
    brief <$> pending q = (brief <$> pending (w_queue w)) ++
      [(if press then EVT_KEYDOWN else EVT_KEYUP, Z.lor (Z.shiftl (regular_code scan) 8) 0x10000, kb_keyModifiers (w_kbd w))].
Proof.
  intros Hplain Hw Hf Hp Hx Hup Hc keys w1. pose proof (plain_range _ Hplain) as Hs.
  destruct (codes_of_key scan Hs) as (H1 & H2 & H3 & H4 & H5 & H6 & H7 & H8 & Hr & _).
  set (v := regular_code scan) in *.
  assert (evt_ok w1) as Hw1 by (destruct Hw; subst w1 keys; split; [done..|]; cbn; by rewrite length_insert).
  destruct (addKeyEvent_run stack (if press then EVT_KEYDOWN else EVT_KEYUP) (Z.shiftl v 8) w1 Hw1 Hf Hc) as (q & m & c & E & Hok & Hb);
    [destruct press; tauto|]. exists q, m, c. split; [|done].
  unfold processRawScanCode. rewrite bind_gets, Hp. cbn [negb Z.eqb].
  destruct (at_index_lt v (kb_keyTable (w_kbd w))) as [down Hd]; [rewrite (eo_table _ Hw); lia|].
  assert ((code_of scan press =? 0xE0) = false ∧ (code_of scan press =? 0xE1) = false ∧ has (code_of scan press) 0x80 = negb press ∧
    Z.land (code_of scan press) 0x7F = scan) as (-> & -> & -> & ->) by (by destruct press).
  rewrite Hx. cbn [andb negb]. cbv zeta. rewrite bind_ret. fold v. rewrite bind_gets, Hd, bind_deref.
  destruct press; cbn [negb].
  - assert (down = 0) as -> by (apply at_index_Some in Hd as [_ Hd]; congruence). cbn [Z.eqb Pos.eqb negb].
    change (EVT_KEYDOWN =? EVT_KEYDOWN) with true. cbv iota. rewrite bind_assoc, bind_kbd, bind_ret. fold keys. change (EVT_KEYDOWN =? EVT_KEYREPEAT) with false. cbv iota.
    unfold v at 2. rewrite plain_shift, bind_ret by done. exact E.
  - change (EVT_KEYUP =? EVT_KEYDOWN) with false. cbv iota. rewrite bind_assoc, bind_kbd, bind_ret. fold keys. change (EVT_KEYUP =? EVT_KEYREPEAT) with false. cbv iota.
    unfold v at 2. rewrite plain_shift, bind_ret by done. exact E.
Qed.

Lemma isr_run stack scan (press : bool) w :
  plain scan = true → evt_ok w → hk_userEventCallback (w_hooks w) = None →
  kb_pauseLoop (w_kbd w) = 0 → kb_extended (w_kbd w) = false →
  (if press then kb_keyTable (w_kbd w) !! Z.to_nat (regular_code scan) = Some 0 else True) →
  q_count (w_queue w) < EVENTQSIZE →
  ∃ w', keyboardISR stack (code_of scan press) w = Ok tt w' ∧ evt_ok w' ∧ w_hooks w' = w_hooks w ∧
    mc_arrivals (w_machine w') = mc_arrivals (w_machine w) ∧
    w_kbd w' = set_kb_keyTable (<[Z.to_nat (regular_code scan):=(if press then regular_code scan else 0)]> (kb_keyTable (w_kbd w))) (w_kbd w) ∧
    brief <$> pending (w_queue w') = (brief <$> pending (w_queue w)) ++
      [(if press then EVT_KEYDOWN else EVT_KEYUP, Z.lor (Z.shiftl (regular_code scan) 8) 0x10000, kb_keyModifiers (w_kbd w))].
Proof.
  intros Hplain Hw Hf Hp Hx Hup Hc.
  destruct (process_run stack scan press w Hplain Hw Hf Hp Hx Hup Hc) as (q & m & c & E & Hok & Hb).
  unfold keyboardISR. rewrite (bind_Ok _ _ _ _ _ E). eexists. split; [done|]. split; [destruct Hok; by split|done].
Qed.

Lemma count_length w : evt_ok w → q_count (w_queue w) = Z.of_nat (length (brief <$> pending (w_queue w))).
Proof.
  intros [(ids & free & Hq) _ _]. by rewrite length_fmap, (qs_count _ _ _ Hq), (pending_events _ _ _ Hq), (events_at_length _ _ _ Hq).
Qed.

(** A key pressed and released. *)
Lemma stroke_run stack scan w :
  plain scan = true → listening w → q_count (w_queue w) + 2 ≤ EVENTQSIZE →
  ∃ w', keyboard_interrupts stack (stroke scan) w = Ok tt w' ∧ listening w' ∧ w_hooks w' = w_hooks w ∧
    kb_keyModifiers (w_kbd w') = kb_keyModifiers (w_kbd w) ∧
    brief <$> pending (w_queue w') = (brief <$> pending (w_queue w)) ++ stroke_brief (kb_keyModifiers (w_kbd w)) scan.
Proof.
  intros Hplain [Hw Hf Ha Hp Hx Ht] Hc. pose proof (plain_range _ Hplain) as Hs.
  destruct (codes_of_key scan Hs) as (_ & _ & _ & _ & _ & _ & _ & _ & Hr & _).
  destruct (isr_run stack scan true w) as (w1 & E1 & Hw1 & Hh1 & Ha1 & Hk1 & Hb1); [done..| |lia|].
  { rewrite Ht. apply lookup_replicate_2. lia. }
  destruct (isr_run stack scan false w1) as (w2 & E2 & Hw2 & Hh2 & Ha2 & Hk2 & Hb2);
    [done|done|by rewrite Hh1|by rewrite Hk1|by rewrite Hk1|done|rewrite (count_length w1 Hw1), Hb1, length_app, Nat2Z.inj_add, <- (count_length w Hw); cbn; lia|].
  exists w2. unfold stroke. change scan with (code_of scan true) at 1. change (Z.lor scan 0x80) with (code_of scan false).
  cbn [keyboard_interrupts]. rewrite (bind_Ok _ _ _ _ _ E1), (bind_Ok _ _ _ _ _ E2). split; [done|].
  rewrite Hk1 in Hk2. cbn [kb_keyTable set_kb_keyTable] in Hk2. rewrite list_insert_insert_eq in Hk2.
  assert (<[Z.to_nat (regular_code scan):=0]> (kb_keyTable (w_kbd w)) = replicate 128 0) as E.
  { rewrite Ht. apply list_insert_id, lookup_replicate_2. lia. }
  rewrite E in Hk2. split; [|split; [congruence|split; [by rewrite Hk2|]]].
  - split; [done|by rewrite Hh2, Hh1|by rewrite Ha2, Ha1|by rewrite Hk2|by rewrite Hk2|by rewrite Hk2].
  - rewrite Hb2, Hb1, Hk1, <- app_assoc. done.
Qed.

Lemma keyboard_app stack keys keys' w :
  keyboard_interrupts stack (keys ++ keys') w = (keyboard_interrupts stack keys;; keyboard_interrupts stack keys') w.
Proof.
  revert w. induction keys as [|k keys IH]; intros w; [done|]. cbn [app keyboard_interrupts].
  rewrite bind_assoc. apply bind_ext. intros [] w'. apply IH.
Qed.

Definition strokes (scans : list Z) : list Z := mjoin (stroke <$> scans).
Definition strokes_brief (modifiers : Z) (scans : list Z) : list (Z * Z * Z) := mjoin (stroke_brief modifiers <$> scans).

Lemma strokes_run stack scans w :
  Forall (λ s, plain s = true) scans → listening w → q_count (w_queue w) + 2 * Z.of_nat (length scans) ≤ EVENTQSIZE →
  ∃ w', keyboard_interrupts stack (strokes scans) w = Ok tt w' ∧ listening w' ∧ w_hooks w' = w_hooks w ∧
    brief <$> pending (w_queue w') = (brief <$> pending (w_queue w)) ++ strokes_brief (kb_keyModifiers (w_kbd w)) scans.
Proof.
  intros Hplain. revert w. induction Hplain as [|s scans Hs _ IH]; intros w Hw Hc.
  { exists w. split_and!; [done..|]. by rewrite app_nil_r. }
  cbn [length] in Hc. destruct (stroke_run stack s w Hs Hw) as (w1 & E1 & Hw1 & Hh1 & Hm1 & Hb1); [lia|].
  destruct (IH w1 Hw1) as (w2 & E2 & Hw2 & Hh2 & Hb2).
  { rewrite (count_length w1 (ls_ok _ Hw1)), Hb1, length_app, Nat2Z.inj_add, <- (count_length w (ls_ok _ Hw)). cbn. lia. }
  exists w2. unfold strokes. cbn [fmap list_fmap mjoin list_join]. fold (strokes scans). rewrite keyboard_app, (bind_Ok _ _ _ _ _ E1).
  split; [done|]. split; [done|]. split; [congruence|]. rewrite Hb2, Hb1, Hm1, <- app_assoc. done.
Qed.

(** ** Reading what was typed *)

(** The program takes [n] events. *)
Fixpoint read_events (n : nat) (stack evt : event_t) (mask : Z) : EVT (list event_t) :=
  match n with
  | O => mret []
  | S n =>
      r ← EVT_getNext stack evt mask;
      es ← read_events n stack r.2 mask;
      mret (r.2 :: es)
  end.

(** The characters of a page are bytes. *)
Definition byte_page (page : codepage_t) : Prop :=
  Forall (Forall (λ t : codepage_entry_t, 0 ≤ t.2 < 256))
    [cp_normal page; cp_caps page; cp_shift page; cp_shiftCaps page; cp_ctrl page; cp_numPad page].

Lemma US_page_bytes : byte_page _CP_US_English.
Proof.
  unfold byte_page. apply (bool_decide_eq_true_1 _). vm_compute. reflexivity.
Qed.

Lemma entry_range scan table : Forall (λ t : codepage_entry_t, 0 ≤ t.2 < 256) table → 0 ≤ entry scan table < 256.
Proof. induction 1 as [|t table Ht _ IH]; [done|]. rewrite entry_cons. by case_decide. Qed.

Lemma first_entry_range scan tables :
  Forall (Forall (λ t : codepage_entry_t, 0 ≤ t.2 < 256)) tables → 0 ≤ first_entry scan tables < 256.
Proof.
  induction 1 as [|t tables Ht _ IH]; [done|]. cbn [first_entry]. case_match; [done|]. by apply entry_range.
Qed.

Lemma character_range page modifiers scan : byte_page page → 0 ≤ character page modifiers scan < 256.
Proof.
  unfold byte_page. rewrite !Forall_cons. intros (Hn & Hc & Hs & Hsc & Hct & Hnp & _). apply first_entry_range. unfold tables_for.
  apply Forall_app. split; [by case_match; repeat constructor|].
  destruct (has modifiers EVT_CTRLSTATE); [by repeat constructor|].
  repeat case_match; by repeat constructor.
Qed.

(** The fields of a key's message. *)
Lemma message_fields v ch :
  0 ≤ v < 128 → 0 ≤ ch < 256 →
  let message := Z.lor (Z.shiftl v 8) 0x10000 in
  let filled := Z.lor (Z.ldiff message 0xFF) ch in
  EVT_scanCode message = v ∧ EVT_scanCode filled = v ∧ EVT_asciiCode filled = ch ∧ EVT_repeatCount filled = 1.
Proof.
  intros Hv Hc message filled.
  assert (Z.land message 0xFF = 0 ∧ EVT_scanCode message = v ∧ Z.land message 0x7FFF0000 = 0x10000 ∧ Z.ldiff message 0xFF = message) as (M1 & M2 & M3 & M4).
  { set (test v := let m := Z.lor (Z.shiftl v 8) 0x10000 in
      (Z.land m 0xFF =? 0) && (EVT_scanCode m =? v) && (Z.land m 0x7FFF0000 =? 0x10000) && (Z.ldiff m 0xFF =? m)).
    assert (forallb test (seqZ 0 128) = true) as H by (vm_compute; reflexivity).
    rewrite forallb_forall in H. specialize (H v). rewrite <- list_elem_of_In, elem_of_seqZ in H. specialize (H ltac:(lia)).
    unfold test in H. rewrite !andb_true_iff, !Z.eqb_eq in H. naive_solver. }
  assert (Z.land ch 0xFF = ch ∧ Z.land ch 0xFF00 = 0 ∧ Z.land ch 0x7FFF0000 = 0) as (C1 & C2 & C3).
  { set (test c := (Z.land c 0xFF =? c) && (Z.land c 0xFF00 =? 0) && (Z.land c 0x7FFF0000 =? 0)).
    assert (forallb test (seqZ 0 256) = true) as H by (vm_compute; reflexivity).
    rewrite forallb_forall in H. specialize (H ch). rewrite <- list_elem_of_In, elem_of_seqZ in H. specialize (H ltac:(lia)).
    unfold test in H. rewrite !andb_true_iff, !Z.eqb_eq in H. naive_solver. }
  unfold filled. rewrite M4. unfold EVT_asciiCode, EVT_repeatCount. unfold EVT_scanCode at 2.
  rewrite !Z.land_lor_distr_l, M1, M3, C1, C2, C3, !Z.lor_0_r. done.
Qed.

(** The event of a key that was pressed. *)
Definition typed (page : codepage_t) (modifiers scan : Z) e : Prop :=
  e_what e = EVT_KEYDOWN ∧ EVT_scanCode (e_message e) = regular_code scan ∧
  EVT_asciiCode (e_message e) = character page modifiers (regular_code scan) ∧
  EVT_repeatCount (e_message e) = 1 ∧ e_modifiers e = modifiers.

Lemma briefs_first (ups : list (Z * Z * Z)) b rest es :
  brief <$> es = ups ++ b :: rest → Forall (λ u, has u.1.1 EVT_KEYDOWN = false) ups → has b.1.1 EVT_KEYDOWN = true →
  ∃ x, first_of EVT_KEYDOWN es = Some (length ups, x) ∧ brief x = b ∧ brief <$> delete (length ups) es = ups ++ rest.
Proof.
  intros (es1 & es' & -> & Hrest & ->)%fmap_app_inv Hu Hb. symmetry in Hrest. apply fmap_cons_inv in Hrest as (x & es2 & -> & -> & ->).
  exists x. rewrite length_fmap, delete_middle, fmap_app. split; [|done]. apply first_of_some; [|done].
  by rewrite Forall_fmap in Hu.
Qed.

Lemma typed_read stack modifiers scans ups evt w :
  evt_ok w → mc_arrivals (w_machine w) = [] → page_ok (hk_codePage (w_hooks w)) → byte_page (hk_codePage (w_hooks w)) →
  Forall (λ s, plain s = true) scans → Forall (λ u, has u.1.1 EVT_KEYDOWN = false) ups →
  brief <$> pending (w_queue w) = ups ++ strokes_brief modifiers scans →
  ∃ es w', read_events (length scans) stack evt EVT_KEYDOWN w = Ok es w' ∧ evt_ok w' ∧
    Forall2 (typed (hk_codePage (w_hooks w)) modifiers) scans es.
Proof.
  intros Hw Ha Hp Hbyte Hplain. revert ups evt w Hw Ha Hp Hbyte. induction Hplain as [|s scans Hs _ IH]; intros ups evt w Hw Ha Hp Hbyte Hups Hb.
  { exists [], w. split; [done|]. split; [done|]. constructor. }
  unfold strokes_brief in Hb. cbn [fmap list_fmap mjoin list_join stroke_brief app] in Hb.
  destruct (briefs_first _ _ _ _ Hb Hups eq_refl) as (x & Hf & Hx & Hdel). unfold brief in Hx.
  assert (e_what x = EVT_KEYDOWN ∧ e_message x = Z.lor (Z.shiftl (regular_code s) 8) 0x10000 ∧ e_modifiers x = modifiers) as (X1 & X2 & X3)
    by exact (conj (f_equal (λ b, b.1.1) Hx) (conj (f_equal (λ b, b.1.2) Hx) (f_equal snd Hx))).
  destruct (getNext_quiet stack evt EVT_KEYDOWN (length ups) x w) as (e & w1 & E & He & Hw1 & Hd1 & Ha1 & Hh1); [exact Hw|exact Ha|exact Hp|rewrite X1; reflexivity|exact Hf|].
  rewrite X2, X3 in He. pose proof (codes_of_key s (plain_range _ Hs)) as (_ & _ & _ & _ & _ & _ & _ & _ & Hr & _).
  assert (EVT_scanCode (Z.lor (Z.shiftl (regular_code s) 8) 0x10000) = regular_code s) as Hscan
    by exact (proj1 (message_fields (regular_code s) 0 Hr ltac:(lia))).
  rewrite Hscan in He. pose proof (character_range _ modifiers (regular_code s) Hbyte) as Hch.
  destruct (message_fields _ _ Hr Hch) as (_ & F1 & F2 & F3).
  assert (typed (hk_codePage (w_hooks w)) modifiers s e) as Hty.
  { unfold typed. rewrite <- (strip_what e). change (e_message e) with (e_message (strip e)). change (e_modifiers e) with (e_modifiers (strip e)).
    rewrite He. cbn [set_e_message e_message e_what e_modifiers]. done. }
  destruct (IH (ups ++ [(EVT_KEYUP, Z.lor (Z.shiftl (regular_code s) 8) 0x10000, modifiers)]) e w1) as (es & w2 & E2 & Hw2 & Hall);
    [done|done|by rewrite Hh1|by rewrite Hh1|by apply Forall_app; split; [|repeat constructor]|by rewrite Hd1, Hdel, <- app_assoc|].
  exists (e :: es), w2. cbn [length read_events]. rewrite (bind_Ok _ _ _ _ _ E), (bind_Ok _ _ _ _ _ E2). split; [done|]. split; [done|].
  constructor; [done|]. by rewrite <- Hh1.
Qed.
