(* ===== verification/EvtSpec.v ===== *)
(** * The event library's promises

    The properties of the event library: what its calls do in every state it
    can be in, with interrupts between them and inside of them, and where the
    library goes wrong. *)
From S2P Require Import Prelude EvtTypes Evt EvtApi EvtQueue EvtSafe EvtNext EvtKeys.
Local Open Scope Z_scope.

Implicit Types (w : evt_world) (e : event_t).

(** ** The calls of a program *)

Inductive request : Type :=
  | Next (evt : event_t) (mask : Z)
  | Peek (evt : event_t) (mask : Z)
  | Halt (fuel : nat) (evt : event_t) (mask : Z)
  | Flush (fuel : nat) (evt : event_t) (mask : Z)
  | Post (which what message modifiers : Z)
  | Poll
  | JoyUpperLeft
  | JoyLowerRight
  | JoyCenter
  | JoyIsPresent
  | Filter (filter : option (event_t → bool * event_t))
  | HeartBeatTo (beat : option (Z * Z))
  | HeartBeatOf
  | PageTo (page : codepage_t)
  | PageOf
  | MouseTo (x y : Z)
  | MouseAt
  | KeyDown (scanCode : Z)
  | LEDs (enable : bool)
  | Suspend
  | Resume
  | Quit
  | Init
  | Idle.

(** A call for its effect.  A program that is [Idle] does something else while
    interrupts arrive. *)
Definition serve (stack : event_t) (r : request) : EVT unit :=
  match r with
  | Next evt mask => EVT_getNext stack evt mask;; mret tt
  | Peek evt mask => EVT_peekNext stack evt mask;; mret tt
  | Halt fuel evt mask => EVT_halt stack fuel evt mask;; mret tt
  | Flush fuel evt mask => EVT_flush stack fuel evt mask
  | Post which what message modifiers => EVT_post stack which what message modifiers;; mret tt
  | Poll => EVT_pollJoystick stack
  | JoyUpperLeft => EVT_joySetUpperLeft
  | JoyLowerRight => EVT_joySetLowerRight
  | JoyCenter => EVT_joySetCenter
  | JoyIsPresent => EVT_joyIsPresent;; mret tt
  | Filter filter => EVT_setUserEventFilter filter
  | HeartBeatTo beat => EVT_setHeartBeatCallback beat
  | HeartBeatOf => EVT_getHeartBeatCallback;; mret tt
  | PageTo page => EVT_setCodePage page
  | PageOf => EVT_getCodePage;; mret tt
  | MouseTo x y => EVT_setMousePos x y
  | MouseAt => EVT_getMousePos;; mret tt
  | KeyDown scanCode => EVT_isKeyDown scanCode;; mret tt
  | LEDs enable => EVT_allowLEDS enable
  | Suspend => EVT_suspend
  | Resume => EVT_resume stack
  | Quit => EVT_exit
  | Init => EVT_init stack
  | Idle => interrupts stack
  end.

(** The calls that wait for others, for as many rounds as they are given. *)
Definition waits (r : request) : bool := match r with Halt _ _ _ | Flush _ _ _ => true | _ => false end.

(** No interrupt comes at the points of [addKeyEvent] while [drain_keys]
    queues a key: in front of each round they may. *)
Fixpoint undisturbed (fuel : nat) (stack : event_t) w : bool :=
  match fuel with
  | O => true
  | S fuel =>
      match interrupts stack w with
      | Ok _ w1 =>
          let keys := mc_key_buffer (w_machine w1) in
          let w2 := set_w_machine (set_mc_key_buffer (tl keys) (w_machine w1)) w1 in
          (hd 0 keys =? 0) || calm key_points w2 &&
            match addKeyEvent_with (interrupts stack) stack EVT_KEYDOWN (hd 0 keys) w2 with
            | Ok _ w3 => undisturbed fuel stack w3
            | _ => true
            end
      | _ => true
      end
  end.

(** None comes inside [initEventQueue] - there are none while the handlers are
    not installed - nor while a key of the BIOS is queued. *)
Definition starts (stack : event_t) w : bool :=
  calm init_points w &&
  match EVT_resume stack w with
  | Ok _ w1 => undisturbed (S (length (mc_key_buffer (w_machine w1)))) stack w1
  | _ => true
  end.

(** What the library leaves to its caller: a filter keeps the events that are
    changed while they wait; the races of [EVT_post], [EVT_resume] and
    [EVT_init] with the interrupts do not happen; no button of the joystick
    has changed when [EVT_pollJoystick] looks, which [EVT_halt] calls for a
    mask with joystick events. *)
Definition allowed (stack : event_t) w (r : request) : Prop :=
  match r with
  | Filter filter => filter_ok filter
  | Halt _ _ mask => has mask EVT_JOYEVT = false
  | Post _ _ _ _ => EVENTQSIZE ≤ q_count (w_queue w) ∨ room stack w
  | Poll => js_joyMask (w_joy w) = 0 ∨ hd 0 (mc_buttons (w_machine w)) = js_joyButState (w_joy w)
  | KeyDown scanCode => 0 ≤ scanCode
  | Resume => calm init_points w = true
  | Init => starts stack w = true
  | _ => True
  end.

(** The states of a program that starts the library and makes such calls. *)
Inductive reachable (stack : event_t) : evt_world → Prop :=
  | reach_init w w' : statics w → starts stack w = true → EVT_init stack w = Ok tt w' → reachable stack w'
  | reach_call w r w' : reachable stack w → allowed stack w r → serve stack r w = Ok tt w' → reachable stack w'.

(** Commands that end in good states. *)
Abbreviation good c w := (leads c w (λ _ w', evt_ok w')).

Lemma good_keeps {A} (c : EVT A) w : keeps c → evt_ok w → good c w.
Proof. intros Hc Hw. eapply leads_mono; [by apply Hc|]. by intros a w' [Hw' _]. Qed.

Lemma good_later {A} (c : EVT A) w : leads c w (λ _ w', evt_ok w' ∧ later w w') → good c w.
Proof. intros H. eapply leads_mono; [done|]. by intros a w' [Hw' _]. Qed.

Lemma leads_run {A} (c : EVT A) w a w' (Q : A → evt_world → Prop) : leads c w Q → c w = Ok a w' → Q a w'.
Proof. intros H E. unfold leads in H. by rewrite E in H. Qed.

Lemma good_bind {A B} (c : EVT A) (k : A → EVT B) w :
  good c w → (∀ a w', evt_ok w' → good (k a) w') → good (c ≫= k) w.
Proof. intros Hc Hk. by eapply leads_bind. Qed.

Lemma good_tt {A} (c : EVT A) w : good c w → good (c;; mret tt) w.
Proof. intros Hc. by apply good_bind. Qed.

Lemma good_machine f w : evt_ok w → good (on_machine f) w.
Proof. intros [Hq Hc Ht]. by split. Qed.

Lemma allowLEDS_keeps enable : keeps (EVT_allowLEDS enable).
Proof. unfold EVT_allowLEDS. keep. Qed.

Lemma suspend_good w : evt_ok w → good EVT_suspend w.
Proof.
  intros Hw. unfold EVT_suspend. apply good_bind; [by apply good_keeps; [keep|]|]. intros inst w1 Hw1.
  destruct (negb inst); [done|]. apply good_bind; [by apply good_machine|]. intros _ w2 Hw2.
  apply good_bind; [by apply good_keeps; [apply allowLEDS_keeps|]|]. intros _ w3 Hw3.
  apply good_bind; [by apply good_keeps; [keep|]|]. intros m w4 Hw4. by apply good_machine.
Qed.

Lemma resume_good stack w : statics w → calm init_points w = true → good (EVT_resume stack) w.
Proof.
  intros Hw Hn. unfold EVT_resume. eapply leads_bind; [by apply initEventQueue_ok|]. intros _ w1 [Hw1 _]. cbn beta.
  apply good_bind; [by apply good_machine|]. clear w Hw Hn w1 Hw1. intros _ w Hw. apply good_keeps; [|done]. cbv zeta. keep.
Qed.

Lemma key_taken w keys : evt_ok w → evt_ok (set_w_machine (set_mc_key_buffer keys (w_machine w)) w).
Proof. intros [Hq Hc Ht]. by split. Qed.

Lemma drain_good stack n w :
  evt_ok w → (length (mc_key_buffer (w_machine w)) < n)%nat → undisturbed n stack w = true → good (drain_keys n stack) w.
Proof.
  revert w. induction n as [|n IH]; intros w Hw Hn Hq; [lia|]. unfold leads. cbn [drain_keys undisturbed] in *.
  pose proof (keeps_interrupts stack w Hw) as Hi. unfold leads in Hi.
  destruct (interrupts stack w) as [[] w1| | |] eqn:Ei; [|by unfold mbind, M_bind; rewrite Ei|done..].
  rewrite (bind_Ok _ _ _ _ _ Ei). destruct Hi as [Hw1 Hl]. rewrite <- (lt_keys _ _ Hl) in Hn. clear w Hw Ei Hl.
  unfold take_reading. rewrite bind_assoc, bind_gets, bind_assoc, bind_machine, bind_ret.
  set (keys := mc_key_buffer (w_machine w1)) in *. set (w2 := set_w_machine _ w1) in *.
  assert (evt_ok w2) as Hw2 by by apply key_taken. destruct (hd 0 keys =? 0) eqn:Ek; [done|].
  apply andb_true_iff in Hq as [Hc Hq]. pose proof (quiet_key stack (hd 0 keys) w2 Hw2 Hc) as Hk. unfold leads in Hk.
  destruct (addKeyEvent_with _ stack EVT_KEYDOWN (hd 0 keys) w2) as [[] w3| | |] eqn:Ea; [|by unfold mbind, M_bind; rewrite Ea|done..].
  rewrite (bind_Ok _ _ _ _ _ Ea). destruct Hk as [Hw3 Hb]. apply IH; [done| |done]. rewrite Hb. cbn.
  destruct keys; [done|]. cbn in *. lia.
Qed.

Lemma init_good stack w : statics w → starts stack w = true → good (EVT_init stack) w.
Proof.
  intros Hw [Hn Hq]%andb_true_iff. pose proof (resume_good stack w Hw Hn) as Hr. unfold leads in *. unfold EVT_init.
  destruct (EVT_resume stack w) as [[] w1| | |] eqn:Er; [|by unfold mbind, M_bind; rewrite Er|done..].
  rewrite (bind_Ok _ _ _ _ _ Er), bind_gets. apply drain_good; [done|lia|done].
Qed.

Lemma isKeyDown_keeps scanCode w : 0 ≤ scanCode → evt_ok w → good (EVT_isKeyDown scanCode) w.
Proof.
  intros Hs Hw. unfold leads, EVT_isKeyDown, _EVT_isKeyDown. destruct (Z.ltb_spec 0x7F scanCode); [done|].
  rewrite bind_gets. destruct (at_index_lt scanCode (kb_keyTable (w_kbd w))) as [v ->]; [rewrite (eo_table _ Hw); lia|].
  by rewrite bind_deref.
Qed.

(** What every call does: a good state is left, the run ended, or the call is
    still waiting. *)
Definition served (may_wait : bool) (c : EVT unit) w : Prop :=
  match c w with Ok _ w' => evt_ok w' | Exit _ _ => True | NoFuel => may_wait = true | Stuck => False end.

Lemma good_served b c w : good c w → served b c w.
Proof. unfold leads, served. by destruct (c w). Qed.

Lemma flush_served stack fuel evt mask w : evt_ok w → served true (EVT_flush stack fuel evt mask) w.
Proof.
  revert evt w. induction fuel as [|fuel IH]; intros evt w Hw; [done|]. unfold served. cbn [EVT_flush].
  pose proof (getNext_leads stack evt mask w Hw) as Hg. unfold leads in Hg. unfold mbind, M_bind.
  destruct (EVT_getNext stack evt mask w) as [r w1| | |]; [|done..]. destruct Hg as [Hw1 _].
  destruct (e_what r.2 =? EVT_NULLEVT); [done|by apply IH].
Qed.

Lemma halt_served stack fuel evt mask w :
  has mask EVT_JOYEVT = false → evt_ok w → served true (EVT_halt stack fuel evt mask;; mret tt) w.
Proof.
  intros Hj. revert evt w. induction fuel as [|fuel IH]; intros evt w Hw; [done|]. unfold served. cbn [EVT_halt].
  rewrite Hj, bind_assoc, bind_ret, bind_assoc. pose proof (getNext_leads stack evt EVT_EVERYEVT w Hw) as Hg. unfold leads in Hg.
  unfold mbind at 1, M_bind at 1. destruct (EVT_getNext stack evt EVT_EVERYEVT w) as [r w1| | |]; [|done..].
  destruct Hg as [Hw1 _]. destruct (has (e_what r.2) mask); [done|by apply IH].
Qed.

Lemma keeps_axis mask : keeps (_EVT_readJoyAxis mask).
Proof. unfold _EVT_readJoyAxis, take_reading. keep. Qed.
#[local] Hint Resolve keeps_axis : evt.

Lemma serve_served stack r w : evt_ok w → allowed stack w r → served (waits r) (serve stack r) w.
Proof.
  intros Hw Ha. destruct r; cbn [serve allowed waits] in *;
    try solve [apply good_served, good_keeps;
      [unfold EVT_joySetUpperLeft, EVT_joySetLowerRight, EVT_joySetCenter, EVT_joyIsPresent, EVT_getHeartBeatCallback,
         EVT_getCodePage, EVT_getMousePos, EVT_setMousePos; keep|done]|destruct Hw; by split].
  - apply good_served, good_tt. eapply leads_mono; [by apply getNext_leads|]. by intros r w' [Hw' _].
  - by apply good_served, good_tt, good_keeps; [apply keeps_peek|].
  - by apply halt_served.
  - by apply flush_served.
  - by apply good_served, good_tt, good_later, post_ok.
  - by apply good_served, good_later, poll_ok.
  - by apply good_served, good_tt, isKeyDown_keeps.
  - by apply good_served, suspend_good.
  - by apply good_served, resume_good; [apply evt_ok_statics|].
  - by apply good_served, suspend_good.
  - by apply good_served, init_good; [apply evt_ok_statics|].
Qed.

(** A machine before the library is started, with keys in the buffer of the
    BIOS and the interrupts to come, and after it, without such keys: none
    comes while it starts. *)
Definition asleep (keys : list Z) (arrivals : list (list interrupt)) : evt_world :=
  EvtWorld (EventQueue 0 0 0 0 (replicate (Z.to_nat EVENTQSIZE) cleared_event) 0 0 0) (MouseState 0 0 0 0 0 0 0 0 0 0 cleared_event)
    (JoyState 0 [0;0;0;0] [0;0;0;0] [0;0;0;0] [0;0;0;0] 0) (KbdState 0 (replicate 128 0) true 0 false)
    (Hooks None None _CP_US_English) (Machine [] arrivals [] [] [] [] [] 0 keys [] false true).
Definition awake (arrivals : list (list interrupt)) : evt_world := asleep [] (replicate 7 [] ++ arrivals).
Definition boot (arrivals : list (list interrupt)) : evt_world :=
  match EVT_init cleared_event (awake arrivals) with Ok _ w => w | _ => awake arrivals end.

Lemma boot_ok arrivals : EVT_init cleared_event (awake arrivals) = Ok tt (boot arrivals).
Proof. vm_compute. reflexivity. Qed.

Lemma awake_starts arrivals : starts cleared_event (awake arrivals) = true.
Proof. vm_compute. reflexivity. Qed.

Lemma asleep_statics keys arrivals : statics (asleep keys arrivals).
Proof. by split. Qed.

Lemma boot_evt_ok arrivals : evt_ok (boot arrivals).
Proof.
  exact (leads_run _ _ tt _ (λ _ w', evt_ok w')
    (init_good cleared_event _ (asleep_statics _ _) (awake_starts arrivals)) (boot_ok arrivals)).
Qed.

(** The state after a command, if there is one. *)
Definition after {A} (c : EVT A) w : evt_world := match c w with Ok _ w' => w' | _ => w end.

Lemma after_evt_ok {A} (c : EVT A) w : keeps c → evt_ok w → evt_ok (after c w).
Proof.
  intros Hc Hw. specialize (Hc w Hw). unfold leads, after in *. destruct (c w); [apply Hc|done..].
Qed.

(** C8: the event library is safe as long as its caller keeps the conditions
    [starts] and [allowed].  EVT_init starts it from any contents of its
    variables, and then any calls of [request] follow, in any order; interrupts
    of keyboard and mouse, any of them, arrive between any two uses of the
    queue for which the code has them on and while the program is idle.  Then
    nothing undefined ever happens: the queue's two lists stay whole and disjoint, the
    events it remembers to change later are really waiting and of their kind,
    and every call but EVT_halt and EVT_flush, which wait, returns (or ends
    the run, as Ctrl-Alt-Del and a failure to lock pages do).
    The conditions: no interrupt arrives inside EVT_resume's or EVT_init's
    initEventQueue, which is so whenever the handlers are not installed yet or
    were removed by EVT_suspend; none arrives while EVT_init is queueing a key
    of the BIOS, between two keys it may; a user filter does not drop or
    recode the events that are merged; when EVT_post has seen room in the
    queue, the interrupts before its critical section leave some; no joystick
    button changed when EVT_pollJoystick reads it, and EVT_halt's mask has no
    joystick event (the scan code of EVT_isKeyDown is unsigned).  Without them the library does go wrong ([init_race],
    [resume_race], [post_race], [click_without_movement]). *)
Theorem library_safe stack :
  (∀ w, statics w → starts stack w = true → leads (EVT_init stack) w (λ _ w', evt_ok w')) ∧
  (∀ w r, reachable stack w → allowed stack w r → evt_ok w ∧
     match serve stack r w with
     | Ok _ w' => evt_ok w'
     | Exit _ _ => True
     | NoFuel => waits r = true
     | Stuck => False
     end).
Proof.
  split; [intros w Hw Hs; by apply init_good|]. intros w r Hw Ha. assert (evt_ok w) as Hok.
  { clear Ha. induction Hw as [w w' Hs Hq Hi|w r' w' _ Hok Ha Hr].
    - exact (leads_run _ _ tt _ (λ _ w', evt_ok w') (init_good stack w Hs Hq) Hi).
    - pose proof (serve_served stack r' w Hok Ha) as H. unfold served in H. by rewrite Hr in H. }
  split; [done|]. exact (serve_served stack r w Hok Ha).
Qed.

(** A machine with a key in the buffer of the BIOS; keys and movements
    arrive while the handlers are installed and behind the start, none while
    the key is queued. *)
Definition typing : evt_world :=
  asleep [0x1E61] ([[]; [MouseInt 1 0 3 3 2 2 [] [] []]] ++ replicate 4 [] ++ [[KeyInt 0x1F]] ++ replicate (S key_points) [] ++
    [[KeyInt 0x1E; MouseInt 3 1 4 5 1 (-1) [0x9E] [] []]; [KeyInt 0x1E]]).

Lemma typing_starts : starts cleared_event typing = true.
Proof. vm_compute. reflexivity. Qed.
Lemma typing_init : EVT_init cleared_event typing = Ok tt (after (EVT_init cleared_event) typing).
Proof. vm_compute. reflexivity. Qed.

Lemma library_safe_witness :
  (let w := after (EVT_init cleared_event) typing in
   evt_ok w ∧ e_what <$> pending (w_queue w) = [EVT_MOUSEMOVE; EVT_KEYDOWN; EVT_KEYDOWN]) ∧
  (let w := boot [[KeyInt 0x1E; MouseInt 3 1 4 5 1 (-1) [0x9E] [] []]; [KeyInt 0x1E]] in evt_ok w ∧
     match serve cleared_event (Next cleared_event EVT_EVERYEVT) w with
     | Ok _ w' => evt_ok w'
     | Exit _ _ => True
     | NoFuel => waits (Next cleared_event EVT_EVERYEVT) = true
     | Stuck => False
     end).
Proof.
  destruct (library_safe cleared_event) as [Hinit Hcalls]. split; [split|].
  - exact (leads_run _ _ tt _ (λ _ w', evt_ok w') (Hinit typing (asleep_statics _ _) typing_starts) typing_init).
  - vm_compute. reflexivity.
  - apply Hcalls; [|done]. by eapply reach_init; [apply asleep_statics|apply awake_starts|apply boot_ok].
Defined.

(** C9: EVT_getNext attends to the application's heart beat and the
    interrupts, then, in the critical section, takes the first of the waiting
    events that is in the mask - the others keep their order - and with the
    interrupts on again fills in the character of a key.  When none is in the
    mask it returns at once; only when nothing waits at all it may give a
    repeated mouse event. *)
Theorem getNext_takes_first stack evt mask w :
  evt_ok w →
  let nothing := set_e_what EVT_NULLEVT evt in
  leads (attend stack) w (λ _ wa,
    if bool_decide (pending (w_queue wa) = []) then
      EVT_getNext stack evt mask w = (e ← auto_mouse nothing mask; mret (negb (e_what e =? EVT_NULLEVT), e)) wa
    else leads (interrupts stack) wa (λ _ w1,
      match first_of mask (pending (w_queue w1)) with
      | None => EVT_getNext stack evt mask w = Ok (false, nothing) w1
      | Some (n, x) => ∃ e q, strip e = x ∧ pending q = delete n (pending (w_queue w1)) ∧ evt_ok (set_w_queue q w1) ∧
          EVT_getNext stack evt mask w = (interrupts stack;; e ← mask_key e; mret (true, e)) (set_w_queue q w1)
      end)).
Proof.
  intros Hw nothing. rewrite getNext_unfold. fold nothing. pose proof (keeps_attend stack w Hw) as Ha. unfold leads in *.
  destruct (attend stack w) as [[] wa|code wa| |] eqn:Ea; [|done..]. destruct Ha as [Hwa _].
  rewrite (bind_Ok _ _ _ _ _ Ea), bind_gets. pose proof Hwa as [(ids & free & Hq) _ _]. rewrite (count_pending wa ids free Hq).
  case_bool_decide; [done|]. pose proof (keeps_interrupts stack wa Hwa) as Hi. unfold leads in Hi.
  destruct (interrupts stack wa) as [[] w1|code w1| |] eqn:Ei; [|done..]. destruct Hi as [Hw1 _].
  rewrite (bind_Ok _ _ _ _ _ Ei). apply (get_section_run stack nothing mask w1 Hw1).
Qed.

Lemma getNext_takes_first_witness :
  let w := boot [[KeyInt 0x1E; MouseInt 3 1 4 5 1 (-1) [] [] []]; [KeyInt 0x9E]] in
  let nothing := cleared_event in
  leads (attend cleared_event) w (λ _ wa,
    if bool_decide (pending (w_queue wa) = []) then
      EVT_getNext cleared_event cleared_event EVT_MOUSEMOVE w =
        (e ← auto_mouse nothing EVT_MOUSEMOVE; mret (negb (e_what e =? EVT_NULLEVT), e)) wa
    else leads (interrupts cleared_event) wa (λ _ w1,
      match first_of EVT_MOUSEMOVE (pending (w_queue w1)) with
      | None => EVT_getNext cleared_event cleared_event EVT_MOUSEMOVE w = Ok (false, nothing) w1
      | Some (n, x) => ∃ e q, strip e = x ∧ pending q = delete n (pending (w_queue w1)) ∧ evt_ok (set_w_queue q w1) ∧
          EVT_getNext cleared_event cleared_event EVT_MOUSEMOVE w =
            (interrupts cleared_event;; e ← mask_key e; mret (true, e)) (set_w_queue q w1)
      end)).
Proof. apply (getNext_takes_first cleared_event cleared_event EVT_MOUSEMOVE), boot_evt_ok. Defined.

(** C15: while an event in the mask, which has no joystick event and nothing
    outside of EVT_EVERYEVT, waits EVT_halt returns: with p others in
    front of it after at most p + 1 rounds of EVT_getNext, whatever
    interrupts add in the meantime (unless they restart the machine), and with
    the kind of the event it was to wait for. *)
Theorem halt_returns stack fuel evt mask p x w :
  evt_ok w → has mask EVT_JOYEVT = false → Z.land mask EVT_EVERYEVT = mask →
  first_of mask (pending (w_queue w)) = Some (p, x) → (p < fuel)%nat →
  leads (EVT_halt stack fuel evt mask) w (λ e w', e_what e = e_what x ∧ evt_ok w').
Proof. intros Hw Hj Hs Hx Hf. by apply (halt_leads stack mask p). Qed.

Lemma halt_returns_witness :
  let w := after (interrupts cleared_event) (boot [[KeyInt 0x1E; KeyInt 0x9E; MouseInt 2 1 4 5 1 (-1) [] [] []]; []; []; [KeyInt 0x1F]; [KeyInt 0x9F]]) in
  leads (EVT_halt cleared_event 3 cleared_event EVT_MOUSEDOWN) w (λ e w', e_what e = EVT_MOUSEDOWN ∧ evt_ok w').
Proof.
  apply (halt_returns cleared_event 3 cleared_event EVT_MOUSEDOWN 2 (Event 0 EVT_MOUSEDOWN 0 4 5 0 0 EVT_LEFTBMASK 1 0 0)).
  - apply after_evt_ok; [apply keeps_interrupts|apply boot_evt_ok].
  - reflexivity.
  - reflexivity.
  - vm_compute. reflexivity.
  - lia.
Defined.

(** C17: interrupts that tell of mouse movements only, one after the other,
    without a filter of the user and with room in the queue: they lead to at most one more waiting event, the waiting movements go as
    far as they did before and the mouse did since, and the last place of the
    mouse is that of a waiting movement. *)
Theorem movements_merge stack batch w :
  evt_ok w → hk_userEventCallback (w_hooks w) = None → q_count (w_queue w) < EVENTQSIZE → Forall moving batch →
  ∃ w', handle_all stack batch w = Ok tt w' ∧ evt_ok w' ∧
    (e_what <$> pending (w_queue w)) `prefix_of` (e_what <$> pending (w_queue w')) ∧
    (length (pending (w_queue w')) ≤ S (length (pending (w_queue w))))%nat ∧
    i32 (travel e_relative_x (pending (w_queue w'))) = i32 (travel e_relative_x (pending (w_queue w)) + total fst batch) ∧
    i32 (travel e_relative_y (pending (w_queue w'))) = i32 (travel e_relative_y (pending (w_queue w)) + total snd batch) ∧
    (∀ i, last batch = Some i →
       ∃ e, e ∈ pending (w_queue w') ∧ e_what e = EVT_MOUSEMOVE ∧ (e_where_x e, e_where_y e) = place i).
Proof.
  intros Hw Hf Hc Hb. destruct (movements_run stack batch w Hw Hf (or_intror Hc) Hb) as (w' & E & Hw' & Hl & Hlen & H).
  exists w'. split; [done|]. split; [done|]. split; [apply Hl|]. split; [|done]. case_bool_decide; cbn in Hlen; lia.
Qed.

Lemma movements_merge_witness :
  let batch := [MouseInt 1 0 10 5 10 5 [] [] []; MouseInt 1 0 7 6 (-3) 1 [] [] []] in
  let w := after (interrupts cleared_event) (boot [[MouseInt 1 0 0 0 2 2 [] [] []; KeyInt 0x1E]]) in
  ∃ w', handle_all cleared_event batch w = Ok tt w' ∧ evt_ok w' ∧
    (e_what <$> pending (w_queue w)) `prefix_of` (e_what <$> pending (w_queue w')) ∧
    (length (pending (w_queue w')) ≤ S (length (pending (w_queue w))))%nat ∧
    i32 (travel e_relative_x (pending (w_queue w'))) = i32 (travel e_relative_x (pending (w_queue w)) + total fst batch) ∧
    i32 (travel e_relative_y (pending (w_queue w'))) = i32 (travel e_relative_y (pending (w_queue w)) + total snd batch) ∧
    (∀ i, last batch = Some i →
       ∃ e, e ∈ pending (w_queue w') ∧ e_what e = EVT_MOUSEMOVE ∧ (e_where_x e, e_where_y e) = place i).
Proof.
  apply (movements_merge cleared_event).
  - apply after_evt_ok; [apply keeps_interrupts|apply boot_evt_ok].
  - vm_compute. reflexivity.
  - vm_compute. reflexivity.
  - apply Forall_cons. split; [by eexists 0, 10, 5, 10, 5|]. apply Forall_cons. split; [by eexists 0, 7, 6, (-3), 1|]. by apply Forall_nil.
Defined.

(** C16: what is typed is what is read: keys pressed and released one after
    the other, without a filter of the user, with room for all of them, no
    key held before and no other interrupt to come, go from the interrupts
    with their scan codes through the queue and the code page and come out of
    EVT_getNext in their order, each with its scan code, the character that
    the page has for it while these modifiers hold, and a count of one.  The
    halving search of the page finds what a search of the whole page finds. *)
Theorem typed_text_read stack scans evt w :
  listening w → page_ok (hk_codePage (w_hooks w)) → byte_page (hk_codePage (w_hooks w)) →
  Forall (λ s, plain s = true) scans → no_match EVT_KEYDOWN (pending (w_queue w)) →
  q_count (w_queue w) + 2 * Z.of_nat (length scans) ≤ EVENTQSIZE →
  ∃ w1 es w2, keyboard_interrupts stack (strokes scans) w = Ok tt w1 ∧
    read_events (length scans) stack evt EVT_KEYDOWN w1 = Ok es w2 ∧
    Forall2 (typed (hk_codePage (w_hooks w)) (kb_keyModifiers (w_kbd w))) scans es.
Proof.
  intros Hw Hp Hb Hs Hno Hc. destruct (strokes_run stack scans w Hs Hw Hc) as (w1 & E1 & Hw1 & Hh & Hbrief).
  destruct (typed_read stack (kb_keyModifiers (w_kbd w)) scans (brief <$> pending (w_queue w)) evt w1) as (es & w2 & E2 & _ & H);
    [apply Hw1|apply Hw1|by rewrite Hh|by rewrite Hh|done|by apply Forall_fmap|done|].
  exists w1, es, w2. rewrite <- Hh. done.
Qed.

(** Hello *)
Lemma typed_text_read_witness :
  let w := boot [] in let scans := [0x23; 0x12; 0x26; 0x26; 0x18] in
  map (character _CP_US_English 0) scans = [0x68; 0x65; 0x6C; 0x6C; 0x6F] ∧
  ∃ w1 es w2, keyboard_interrupts cleared_event (strokes scans) w = Ok tt w1 ∧
    read_events (length scans) cleared_event cleared_event EVT_KEYDOWN w1 = Ok es w2 ∧
    Forall2 (typed (hk_codePage (w_hooks w)) (kb_keyModifiers (w_kbd w))) scans es.
Proof.
  split; [reflexivity|]. apply (typed_text_read cleared_event).
  - split; [apply boot_evt_ok|reflexivity..].
  - apply US_page_ok.
  - apply US_page_bytes.
  - apply Forall_forall. intros s Hs. repeat (apply elem_of_cons in Hs as [-> | Hs]; [reflexivity|]). by apply not_elem_of_nil in Hs.
  - by apply Forall_nil.
  - vm_compute. discriminate.
Defined.

Lemma readJoyAxis_none mask w : mc_joysticks (w_machine w) = [] → ∃ m,
  _EVT_readJoyAxis mask w = Ok (m, [None; None; None; None]) (set_w_machine (set_mc_joysticks [] (w_machine w)) w).
Proof.
  intros Hj. unfold _EVT_readJoyAxis, take_reading. rewrite bind_assoc, bind_gets, bind_assoc, bind_machine, bind_ret, Hj. cbn [hd tl].
  assert (map (λ i, if Z.testbit mask (Z.of_nat i) then default None (@nil (option Z) !! i) else None) (seq 0 JOY_NUM_AXES) =
    [None; None; None; None]) as -> by (cbn; by repeat case_match). by eexists.
Qed.

(** a click of the joystick while no movement of it waits writes its
    place to the spot in front of the array of events, which is undefined: the
    code meant the event that it adds next.  (With a movement waiting the poll
    is safe, and so it is without a click.) *)
Theorem click_without_movement stack w :
  mc_arrivals (w_machine w) = [] → js_joyMask (w_joy w) ≠ 0 → mc_joysticks (w_machine w) = [] →
  hd 0 (mc_buttons (w_machine w)) ≠ js_joyButState (w_joy w) → q_oldJoyMove (w_queue w) = -1 → q_count (w_queue w) < EVENTQSIZE →
  EVT_pollJoystick stack w = Stuck.
Proof.
  intros Ha Hmask Hj Hb Ho Hc. unfold EVT_pollJoystick. rewrite bind_gets. destruct (Z.eqb_spec (js_joyMask (w_joy w)) 0); [done|].
  destruct (readJoyAxis_none (js_joyMask (w_joy w)) w Hj) as [r E]. rewrite (bind_Ok _ _ _ _ _ E). set (w1 := set_w_machine _ w).
  rewrite (bind_Ok _ _ _ _ _ (readJoyButtons_run w1)). set (w2 := set_w_machine _ w1). cbv zeta. cbn [snd].
  change (hd 0 (mc_buttons (w_machine w1))) with (hd 0 (mc_buttons (w_machine w))). set (new := hd 0 _) in *.
  rewrite bool_decide_eq_true_2.
  2: { etrans; [|apply list_fmap_id]. rewrite <- imap_const. apply imap_ext. intros i prev _. by do 5 (destruct i as [|i]; [done|]). }
  rewrite bind_ret. destruct (Z.eqb_spec new (js_joyButState (w_joy w))); [done|].
  rewrite (bind_Ok _ _ _ _ _ (interrupts_none stack w2 Ha)), bind_gets. change (w_queue w2) with (w_queue w).
  destruct (Z.ltb_spec (q_count (w_queue w)) EVENTQSIZE); [|lia]. cbn [negb]. rewrite bind_assoc, bind_gets, bind_assoc, bind_gets.
  change (w_queue w2) with (w_queue w). by rewrite Ho.
Qed.

Lemma click_without_movement_witness :
  let w0 := boot [] in
  let w := set_w_machine (set_mc_buttons [1] (w_machine w0)) (set_w_joy (set_js_joyMask 3 (w_joy w0)) w0) in
  EVT_pollJoystick cleared_event w = Stuck.
Proof.
  apply (click_without_movement cleared_event); [reflexivity|vm_compute; discriminate|reflexivity|vm_compute; discriminate|reflexivity|reflexivity].
Defined.

(** [EVT_post] looks for room with the interrupts on: a key that arrives
    behind the check takes the last spot. *)
Lemma post_race :
  let keys := mjoin (replicate 49 [KeyInt 0x1E; KeyInt 0x9E]) ++ [KeyInt 0x1E] in
  EVT_post cleared_event 0 EVT_USEREVT 5 0 (after (interrupts cleared_event) (boot [keys; [KeyInt 0x9E]])) = Stuck.
Proof. vm_compute. reflexivity. Qed.

(** [EVT_init] queues the keys of the BIOS with the handlers installed and
    the interrupts on: a key that arrives between two statements of [addEvent]
    gets the same spot, and only one of the two is there, counted twice. *)
Lemma init_race :
  let w := after (EVT_init cleared_event) (asleep [0x1E61] (replicate 11 [] ++ [[KeyInt 0x1F]])) in
  q_count (w_queue w) = 2 ∧ length (pending (w_queue w)) = 1%nat.
Proof. vm_compute. by split. Qed.

(** [EVT_resume] with the handlers still installed: a key that arrives inside
    [initEventQueue] is counted and lost. *)
Lemma resume_race :
  let w := after (EVT_resume cleared_event) (boot (replicate 101 [] ++ [[KeyInt 0x1F]])) in
  q_count (w_queue w) = 1 ∧ pending (w_queue w) = [].
Proof. vm_compute. by split. Qed.
