(* ===== verification/CPrintf.v ===== *)
(** * Formatted output of the C library

    [uuu/lib/c/lib/__v_printf.c], [vsnprintf.c] and [__ltostr.c].  The format
    is the list of its bytes without the final zero; so is a string argument.
    A list of arguments has no floating-point ones. *)
From Stdlib Require Import Ascii.
From S2P Require Import Prelude CNumber.
Local Open Scope Z_scope.

Definition chr (c : ascii) : Z := Z.of_N (N_of_ascii c).

(** [__ltostr], for an [unsigned long] of 32 bits. *)
Definition ltostr (size i base : Z) (UpCase : bool) : list Z * Z :=
  let base := if (base =? 0) || (36 <? base) then 10 else base in
  let acc := if i =? 0 then [48] else lltostr_loop (Z.to_nat (size - 1)) i base UpCase [] in
  (acc, Z.of_nat (length acc)).

(** ** Arguments *)

(** What [va_arg] gives: a word ([int], [long], pointer), a [long long] or a
    string, which may be NULL. *)
Inductive arg : Type :=
| AWord (v : Z)
| ALong (v : Z)
| AString (s : option (list Z)).

(** The local variables of one directive. *)
Record locals : Type := Locals {
  l_in_sign : Z;
  l_upcase : bool;
  l_hash : Z;
  l_left : bool;
  l_space : bool;
  l_sign : bool;
  l_dot : bool;
  l_long : Z;
  l_width : Z;
  l_preci : Z;
  l_padwith : Z
}.

Definition no_flags : locals := Locals 0 false 0 false false false false 0 0 0 32.

Definition set_hash v l := Locals (l_in_sign l) (l_upcase l) v (l_left l) (l_space l) (l_sign l) (l_dot l) (l_long l) (l_width l) (l_preci l) (l_padwith l).
Definition set_left v l := Locals (l_in_sign l) (l_upcase l) (l_hash l) v (l_space l) (l_sign l) (l_dot l) (l_long l) (l_width l) (l_preci l) (l_padwith l).
Definition set_space v l := Locals (l_in_sign l) (l_upcase l) (l_hash l) (l_left l) v (l_sign l) (l_dot l) (l_long l) (l_width l) (l_preci l) (l_padwith l).
Definition set_sign v l := Locals (l_in_sign l) (l_upcase l) (l_hash l) (l_left l) (l_space l) v (l_dot l) (l_long l) (l_width l) (l_preci l) (l_padwith l).
Definition set_dot v l := Locals (l_in_sign l) (l_upcase l) (l_hash l) (l_left l) (l_space l) (l_sign l) v (l_long l) (l_width l) (l_preci l) (l_padwith l).
Definition set_long v l := Locals (l_in_sign l) (l_upcase l) (l_hash l) (l_left l) (l_space l) (l_sign l) (l_dot l) v (l_width l) (l_preci l) (l_padwith l).
Definition set_width v l := Locals (l_in_sign l) (l_upcase l) (l_hash l) (l_left l) (l_space l) (l_sign l) (l_dot l) (l_long l) v (l_preci l) (l_padwith l).
Definition set_preci v l := Locals (l_in_sign l) (l_upcase l) (l_hash l) (l_left l) (l_space l) (l_sign l) (l_dot l) (l_long l) (l_width l) v (l_padwith l).
Definition set_padwith v l := Locals (l_in_sign l) (l_upcase l) (l_hash l) (l_left l) (l_space l) (l_sign l) (l_dot l) (l_long l) (l_width l) (l_preci l) v.
Definition set_in_sign v l := Locals v (l_upcase l) (l_hash l) (l_left l) (l_space l) (l_sign l) (l_dot l) (l_long l) (l_width l) (l_preci l) (l_padwith l).
Definition set_upcase v l := Locals (l_in_sign l) v (l_hash l) (l_left l) (l_space l) (l_sign l) (l_dot l) (l_long l) (l_width l) (l_preci l) (l_padwith l).

(** The number of characters in front of a directive. *)
Fixpoint skip_to (format : list Z) : nat :=
  match format with
  | c :: t => if c =? chr "%" then O else S (skip_to t)
  | [] => O
  end.

Section printf.
Context {S : Type} (put : list Z → M S unit).

(** The loop of [write_pad]; a pad line has 16 characters. *)
Fixpoint pad_loop (fuel : nat) (len nr c : Z) : M S Z :=
  if 15 <? len then
    match fuel with
    | O => no_fuel
    | Datatypes.S fuel => put (replicate 16 c);; pad_loop fuel (len - 16) (nr + 16) c
    end
  else if 0 <? len then put (replicate (Z.to_nat len) c);; mret (nr + len)
  else mret nr.
Definition write_pad (len padwith : Z) : M S Z :=
  pad_loop (Z.to_nat len) len 0 (if padwith =? chr "0" then 48 else 32).

(** [A_WRITE] of a sign or prefix, if there is one. *)
Definition write_sign (sign : list Z) (todo : Z) (len : Z) : M S Z :=
  if todo =? 0 then mret len else put sign;; mret (i32 (len + todo)).

(** From [print_out:] on: [s] is what [sz] characters from [s] are. *)
Definition print_out (l : locals) (s : list Z) (len : Z) : M S Z :=
  let sz := Z.of_nat (length s) in
  if (l_width l =? 0) && (l_preci l =? 0) then put s;; mret (i32 (len + sz)) else
  let todo := if negb (l_in_sign l =? 0) then 1 else 0 in
  let todo := if 0 <? l_hash l then l_hash l else todo in
  let sign := take (Z.to_nat todo) s in
  let s := drop (Z.to_nat todo) s in
  let sz := u32 (sz - todo) in
  let width := u32 (l_width l - todo) in
  let preci := l_preci l in
  let vs := i32 (if sz <? preci then preci else sz) in
  if negb (l_left l) then
    len ← (if l_dot l then
             n ← write_pad (i32 (i32 width - vs)) 32;
             len ← write_sign sign todo (i32 (len + n));
             n ← write_pad (i32 (i32 preci - i32 sz)) 48;
             mret (i32 (len + n))
           else
             let first := negb (todo =? 0) && (l_padwith l =? chr "0") in
             len ← (if first then write_sign sign todo len else mret len);
             let todo := if first then 0 else todo in
             n ← write_pad (i32 (i32 width - i32 sz)) (l_padwith l);
             write_sign sign todo (i32 (len + n)));
    put s;;
    mret (i32 (len + sz))
  else
    len ← write_sign sign todo len;
    n ← write_pad (i32 (i32 preci - i32 sz)) 48;
    put s;;
    let len := i32 (i32 (len + n) + sz) in
    n ← write_pad (i32 (i32 width - vs)) 32;
    mret (i32 (len + n)).

(** What [num_printf:] does with its [number]; [prefix] is what [sz]
    characters from [s] on are. *)
Definition print_number (l : locals) (base : Z) (prefix : list Z) (wide : bool) (number len : Z) : M S Z :=
  let minus := negb (l_in_sign l =? 0) && (number <? 0) in
  let number := if minus then (if wide then i64 (- number) else i32 (- number)) else number in
  let in_sign := if minus then 2 else l_in_sign l in
  let number := if l_long l <? 0 then Z.land number 0xffff else number in
  let number := if l_long l <? -1 then Z.land number 0xff else number in
  let r := if wide then lltostr 123 (u64 number) base (l_upcase l) else ltostr 123 (u32 number) base (l_upcase l) in
  let zero := l_dot l && (r.2 =? 1) && (nth 0 r.1 0 =? 48) in
  let s := if zero then (if (l_preci l =? 0) || (0 <? l_hash l) then [] else prefix) else prefix ++ r.1 in
  let l := if zero then set_hash 0 l else l in
  if in_sign =? 2 then print_out (set_in_sign 2 l) (chr "-" :: s) len
  else if negb (in_sign =? 0) && (l_sign l || l_space l) then
    print_out (set_in_sign in_sign l) ((if l_sign l then chr "+" else 32) :: s) len
  else print_out (set_in_sign 0 l) s len.

(** [num_printf:] *)
Definition num_printf (l : locals) (base : Z) (prefix : list Z) (args : list arg) (len : Z) : M S (list arg * Z) :=
  a ← deref (head args);
  number ← match a with
           | ALong v => if 1 <? l_long l then mret v else stuck
           | AWord v => if 1 <? l_long l then stuck else mret (i32 v)
           | AString _ => stuck
           end;
  len ← print_number l base prefix (1 <? l_long l) number len;
  mret (tl args, len).

(** The conversion [ch]; floating point takes an argument there is not, and an
    unknown one does nothing. *)
Definition convert (ch : Z) (l : locals) (args : list arg) (len : Z) : M S (list arg * Z) :=
  if ch =? chr "c" then
    a ← deref (head args);
    match a with
    | AWord v => put [u8 v];; mret (tl args, i32 (len + 1))
    | _ => stuck
    end
  else if ch =? chr "%" then put [ch];; mret (args, i32 (len + 1))
  else if ch =? chr "s" then
    a ← deref (head args);
    match a with
    | AString o =>
        let s := default (map (λ c, chr c) ["("; "n"; "u"; "l"; "l"; ")"]%char) o in
        let sz := Z.of_nat (length s) in
        let s := if l_dot l && (l_preci l <? sz) then take (Z.to_nat (l_preci l)) s else s in
        len ← print_out (set_padwith 32 (set_dot false (set_preci 0 l))) s len;
        mret (tl args, len)
    | _ => stuck
    end
  else if ch =? chr "b" then num_printf l 2 [] args len
  else if (ch =? chr "p") || (ch =? chr "X") || (ch =? chr "x") then
    let l := if ch =? chr "p" then set_long 1 (set_hash 2 l) else l in
    let ch := if ch =? chr "p" then chr "x" else ch in
    let l := if ch =? chr "X" then set_upcase true l else l in
    let prefixed := negb (l_hash l =? 0) in
    let l := if prefixed then set_hash 2 l else l in
    let l := if l_width l <? l_preci l then set_width (l_preci l) l else l in
    num_printf l 16 (if prefixed then [chr "0"; ch] else []) args len
  else if (ch =? chr "d") || (ch =? chr "i") then num_printf (set_in_sign 1 l) 10 [] args len
  else if ch =? chr "u" then num_printf l 10 [] args len
  else if ch =? chr "o" then
    let prefixed := negb (l_hash l =? 0) in
    num_printf (if prefixed then set_hash 1 l else l) 8 (if prefixed then [chr "0"] else []) args len
  else if (ch =? chr "f") || (ch =? chr "g") then stuck
  else mret (args, len).

(** From [inn_printf:] on: the rest of the format, of the arguments and the
    length, or [None] when the format ends inside of the directive. *)
Fixpoint inn_printf (fuel : nat) (format : list Z) (l : locals) (args : list arg) (len : Z) : M S (option (list Z * list arg * Z)) :=
  match format with
  | [] => mret None
  | ch :: format' =>
      match fuel with
      | O => no_fuel
      | Datatypes.S fuel =>
          if ch =? chr "#" then inn_printf fuel format' (set_hash (-1) l) args len
          else if ch =? chr "z" then inn_printf fuel format' l args len
          else if ch =? chr "h" then inn_printf fuel format' (set_long (i8 (l_long l - 1)) l) args len
          else if (ch =? chr "q") || (ch =? chr "L") then inn_printf fuel format' (set_long (i8 (l_long l + 2)) l) args len
          else if ch =? chr "l" then inn_printf fuel format' (set_long (i8 (l_long l + 1)) l) args len
          else if ch =? chr "-" then inn_printf fuel format' (set_left true l) args len
          else if ch =? chr " " then inn_printf fuel format' (set_space true l) args len
          else if ch =? chr "+" then inn_printf fuel format' (set_sign true l) args len
          else if (chr "0" <=? ch) && (ch <=? chr "9") then
            if l_dot l then mret None else
            let c := strtoul format 10 in
            let l := set_width (cv_value c) l in
            let l := if (ch =? chr "0") && negb (l_left l) then set_padwith (chr "0") l else l in
            inn_printf fuel (default format' (cv_end c)) l args len
          else if ch =? chr "*" then
            a ← deref (head args);
            match a with
            | AWord v => inn_printf fuel format' (set_width (u32 v) l) (tl args) len
            | _ => stuck
            end
          else if ch =? chr "." then
            let l := set_dot true l in
            if nth 0 format' 0 =? chr "*" then
              a ← deref (head args);
              match a with
              | AWord v => inn_printf fuel (tl format') (set_preci (if i32 v <? 0 then 0 else i32 v) l) (tl args) len
              | _ => stuck
              end
            else
              let c := strtol format' 10 in
              inn_printf fuel (default format' (cv_end c)) (set_preci (if cv_value c <? 0 then 0 else cv_value c) l) args len
          else
            r ← convert ch l args len;
            mret (Some (format', r.1, r.2))
      end
  end.

Fixpoint v_printf_loop (fuel : nat) (format : list Z) (args : list arg) (len : Z) : M S Z :=
  match format with
  | [] => mret len
  | _ =>
      match fuel with
      | O => no_fuel
      | Datatypes.S fuel =>
          let sz := skip_to format in
          len ← (if (sz =? 0)%nat then mret len else put (take sz format);; mret (i32 (len + Z.of_nat sz)));
          match drop sz format with
          | [] => mret len
          | _ :: format =>
              r ← inn_printf (length format) format no_flags args len;
              match r with
              | None => mret (-1)
              | Some (format, args, len) => v_printf_loop fuel format args len
              end
          end
      end
  end.
Definition v_printf (format : list Z) (args : list arg) : M S Z := v_printf_loop (length format) format args 0.
End printf.

(** ** Into a buffer *)

(** [str_data], with the object [str] points into from there on. *)
Record str_data : Type := StrData {
  sd_str : option (list Z);
  sd_len : Z;
  sd_size : Z
}.

(** Storing bytes at an offset of an object; behind its end it is undefined. *)
Definition store_at (o : Z) (bs : list Z) (buf : list Z) : option (list Z) :=
  if (0 <=? o) && (o + Z.of_nat (length bs) <=? Z.of_nat (length buf))
  then Some (take (Z.to_nat o) buf ++ bs ++ drop (Z.to_nat o + length bs) buf) else None.
Definition put_bytes (o : Z) (bs : list Z) : M str_data unit :=
  d ← gets id;
  match sd_str d with
  | None => mret tt
  | Some buf =>
      buf ← deref (store_at o bs buf);
      modify (λ d, StrData (Some buf) (sd_len d) (sd_size d))
  end.

Definition swrite (bs : list Z) : M str_data unit :=
  d ← gets id;
  let tmp := u32 (sd_size d - sd_len d) in
  if 0 <? tmp then
    let len := if tmp <? Z.of_nat (length bs) then tmp else Z.of_nat (length bs) in
    put_bytes (sd_len d) (take (Z.to_nat len) bs);;
    put_bytes (sd_len d + len) [0];;
    modify (λ d, StrData (sd_str d) (u32 (sd_len d + len)) (sd_size d))
  else mret tt.

(** The count returned, and the object behind [str]. *)
Definition vsnprintf (str : option (list Z)) (size : Z) (format : list Z) (args : list arg) : result str_data Z :=
  (n ← v_printf swrite format args;
   d ← gets id;
   (match sd_str d with
    | None => mret tt
    | Some _ =>
        if negb (size =? 2 ^ 32 - 1) && (i32 size <? n) && (0 <? size) then put_bytes size [0] else put_bytes n [0]
    end);;
   mret n) (StrData str 0 (if size =? 0 then 0 else size - 1)).

Definition vsprintf (dest : list Z) (format : list Z) (args : list arg) : result str_data Z :=
  vsnprintf (Some dest) (2 ^ 32 - 1) format args.
