(* ===== verification/CPrintfSpec.v ===== *)
(** * printf against the C standard

    A format is a list of literal text and directives; [iso_text] is what the
    standard says they print.  For the directives of [directive_ok] the code
    prints that, in pieces, and [vsnprintf] stores it - as long as it fits.
    [printf_departs] has directives for which it prints something else. *)
From Stdlib Require Import Ascii.
From S2P Require Import Prelude CNumber CNumberSpec CPrintf.
Local Open Scope Z_scope.

(** ** Numbers *)

(** The digits of a number in a base, by their names. *)
Definition digit_name_of (d : Z) (up : bool) : Z := nth (Z.to_nat d) (digit_names up) 0.

Fixpoint digits_loop_of (fuel : nat) (base v : Z) (up : bool) : list Z :=
  match fuel with
  | O => []
  | S fuel => if v =? 0 then [] else digits_loop_of fuel base (v / base) up ++ [digit_name_of (v mod base) up]
  end.
Definition digits_text (base : Z) (up : bool) (v : Z) : list Z := if v =? 0 then [48] else digits_loop_of 122 base v up.

Lemma lltostr_loop_text fuel base v up acc :
  2 ≤ base ≤ 36 → lltostr_loop fuel v base up acc = digits_loop_of fuel base v up ++ acc.
Proof.
  intros Hb. revert v acc. induction fuel as [|fuel IH]; intros v acc; [done|]. cbn [lltostr_loop digits_loop_of].
  destruct (v =? 0); [done|]. pose proof (Z.mod_pos_bound v base ltac:(lia)).
  destruct (digit_char_class (v mod base) up) as [-> _]; [lia|]. by rewrite IH, <- app_assoc.
Qed.

Lemma lltostr_text base v up :
  2 ≤ base ≤ 36 → lltostr 123 v base up = (digits_text base up v, Z.of_nat (length (digits_text base up v))).
Proof.
  intros Hb. unfold lltostr, digits_text. replace ((base =? 0) || (36 <? base)) with false by lia. rewrite u64_small by lia.
  destruct (v =? 0); [done|]. by rewrite lltostr_loop_text, app_nil_r by done.
Qed.

Lemma ltostr_text base v up :
  2 ≤ base ≤ 36 → ltostr 123 v base up = (digits_text base up v, Z.of_nat (length (digits_text base up v))).
Proof.
  intros Hb. unfold ltostr, digits_text. replace ((base =? 0) || (36 <? base)) with false by lia.
  destruct (v =? 0); [done|]. by rewrite lltostr_loop_text, app_nil_r by done.
Qed.

(** Only zero is printed as the digit zero alone; no number takes more than
    the buffer has. *)
Lemma digits_text_zero base up v :
  2 ≤ base ≤ 36 → 0 ≤ v < 2 ^ 64 →
  (Z.of_nat (length (digits_text base up v)) =? 1) && (nth 0 (digits_text base up v) 0 =? 48) = (v =? 0) ∧
  (length (digits_text base up v) ≤ 122)%nat.
Proof.
  intros Hb Hv. assert (v < base ^ (123 - 1)) as Hlt.
  { assert (2 ^ (123 - 1) ≤ base ^ (123 - 1)) by (apply Z.pow_le_mono_l; lia). lia. }
  destruct (lltostr_ok base Hb up 123 v) as (ds & E & _ & _ & Hlen & Hval); [lia..|].
  rewrite lltostr_text in E by done. injection E as E _. rewrite E in *. split; [|lia].
  destruct (Z.eqb_spec v 0) as [E0|Hne].
  - unfold digits_text in E. rewrite E0 in E. cbn in E. by subst ds.
  - destruct ds as [|c [|c' ds]]; [done| |cbn [length]; by destruct (Z.eqb_spec (Z.of_nat (S (S (length ds)))) 1); [lia|]].
    cbn [length nth]. destruct (Z.eqb_spec c 48) as [->|]; [|apply andb_false_r]. by cbn in Hval.
Qed.

(** The number an argument is for a conversion. *)
Definition number_of (signed : bool) (a : arg) : Z :=
  match a with
  | AWord v => if signed then i32 v else u32 v
  | ALong v => if signed then i64 v else u64 v
  | AString _ => 0
  end.

(** ** Output in pieces *)

Section prints.
Context {S : Type} (put : list Z → M S unit).

Fixpoint put_all (chunks : list (list Z)) : M S unit :=
  match chunks with
  | [] => mret tt
  | c :: chunks => put c;; put_all chunks
  end.

(** The command puts [text], in some pieces, and gives [a]. *)
Definition prints {A} (c : M S A) (text : list Z) (a : A) : Prop :=
  ∃ chunks, mjoin chunks = text ∧ ∀ s, c s = (put_all chunks;; mret a) s.

Lemma put_all_app chunks chunks' s : put_all (chunks ++ chunks') s = (put_all chunks;; put_all chunks') s.
Proof.
  revert s. induction chunks as [|c chunks IH]; intros s; [done|]. cbn [app put_all]. rewrite bind_assoc. by apply bind_ext.
Qed.

Lemma prints_ret {A} (a : A) : prints (mret a) [] a.
Proof. by exists []. Qed.

Lemma prints_put c : prints (put c) c tt.
Proof.
  exists [c]. split; [apply app_nil_r|]. intros s. cbn [put_all]. rewrite bind_assoc. unfold mbind, M_bind, mret, M_ret. by destruct (put c s) as [[] s'| | |].
Qed.

Lemma prints_bind {A B} (c : M S A) (k : A → M S B) t t' a b :
  prints c t a → prints (k a) t' b → prints (c ≫= k) (t ++ t') b.
Proof.
  intros (l & <- & Hc) (l' & <- & Hk). exists (l ++ l'). split; [apply join_app|]. intros s.
  assert ((c ≫= k) s = ((put_all l;; mret a) ≫= k) s) as -> by (unfold mbind, M_bind; by rewrite Hc).
  rewrite bind_assoc. assert ((put_all (l ++ l');; mret b) s = ((put_all l;; put_all l');; mret b) s) as ->.
  { unfold mbind, M_bind. by rewrite put_all_app. }
  rewrite bind_assoc. apply bind_ext. intros [] s'. rewrite bind_ret. apply Hk.
Qed.

Lemma prints_eq {A} (c : M S A) t t' a a' : prints c t a → t = t' → a = a' → prints c t' a'.
Proof. by intros ? -> ->. Qed.

Lemma prints_then {A} (c : M S unit) (k : M S A) t t' a : prints c t tt → prints k t' a → prints (c;; k) (t ++ t') a.
Proof. intros Hc Hk. by eapply prints_bind. Qed.

(** ** Padding and fields *)

Lemma replicate_16 len (c : Z) : 15 < len → replicate (Z.to_nat len) c = replicate 16 c ++ replicate (Z.to_nat (len - 16)) c.
Proof. intros Hl. rewrite <- replicate_add. f_equal. lia. Qed.

Lemma pad_prints fuel len nr c :
  len ≤ Z.of_nat fuel → prints (pad_loop put fuel len nr c) (replicate (Z.to_nat len) c) (nr + Z.max 0 len).
Proof.
  revert len nr. induction fuel as [|fuel IH]; intros len nr Hf; cbn [pad_loop].
  - destruct (Z.ltb_spec 15 len); [lia|]. destruct (Z.ltb_spec 0 len); [lia|].
    eapply prints_eq; [apply prints_ret|by replace (Z.to_nat len) with 0%nat by lia|lia].
  - destruct (Z.ltb_spec 15 len).
    + rewrite replicate_16 by done. apply prints_then; [apply prints_put|]. eapply prints_eq; [apply IH; lia|done|lia].
    + destruct (Z.ltb_spec 0 len).
      * eapply prints_eq; [eapply prints_then; [apply prints_put|apply prints_ret]|by rewrite app_nil_r|lia].
      * eapply prints_eq; [apply prints_ret|by replace (Z.to_nat len) with 0%nat by lia|lia].
Qed.

Lemma write_pad_prints len c : c = 32 ∨ c = 48 → prints (write_pad put len c) (replicate (Z.to_nat len) c) (Z.max 0 len).
Proof.
  intros Hc. unfold write_pad. eapply prints_eq; [apply pad_prints; lia| |lia]. by destruct Hc as [-> | ->].
Qed.

Lemma write_sign_prints sign len :
  0 ≤ len → len + Z.of_nat (length sign) < 2 ^ 31 →
  prints (write_sign put sign (Z.of_nat (length sign)) len) sign (len + Z.of_nat (length sign)).
Proof.
  intros Hl Hb. unfold write_sign. destruct (Z.eqb_spec (Z.of_nat (length sign)) 0) as [E|E].
  - destruct sign; [|done]. eapply prints_eq; [apply prints_ret|done|cbn; lia].
  - rewrite i32_small by lia. eapply prints_eq; [eapply prints_then; [apply prints_put|apply prints_ret]|apply app_nil_r|done].
Qed.

(** A prefix and a body in a field: at its left, with zeros between them, or
    at its right. *)
Definition field (left zero : bool) (width : Z) (prefix body : list Z) : list Z :=
  let n := Z.to_nat (width - Z.of_nat (length prefix + length body)) in
  if left then prefix ++ body ++ replicate n 32
  else if zero then prefix ++ replicate n 48 ++ body
  else replicate n 32 ++ prefix ++ body.

Lemma field_length left zero width prefix body :
  Z.of_nat (length (field left zero width prefix body)) = Z.max width (Z.of_nat (length prefix + length body)).
Proof. unfold field. destruct left; [|destruct zero]; rewrite !length_app, length_replicate; lia. Qed.

Definition extended (preci : Z) (ds : list Z) : list Z := replicate (Z.to_nat (preci - Z.of_nat (length ds))) 48 ++ ds.

Lemma extended_length preci ds : Z.of_nat (length (extended preci ds)) = Z.max preci (Z.of_nat (length ds)).
Proof. unfold extended. rewrite length_app, length_replicate. lia. Qed.

Definition todo_of (l : locals) : Z :=
  let todo := if negb (l_in_sign l =? 0) then 1 else 0 in
  if 0 <? l_hash l then l_hash l else todo.

Lemma width_less width todo : 0 ≤ width < 2 ^ 30 → 0 ≤ todo ≤ 2 → i32 (u32 (width - todo)) = width - todo.
Proof.
  intros Hw Ht. unfold i32, u32. destruct (decide (width < todo)).
  - assert ((width - todo) mod 2 ^ 32 = width - todo + 2 ^ 32) as -> by (symmetry; apply Z.mod_unique with (-1); lia).
    assert ((width - todo + 2 ^ 32 + 2 ^ 31) mod 2 ^ 32 = width - todo + 2 ^ 31) as -> by (symmetry; apply Z.mod_unique with 1; lia). lia.
  - rewrite (Z.mod_small (width - todo)) by lia. rewrite Z.mod_small by lia. lia.
Qed.

(** What follows the shortcut for a field without a width. *)
Lemma print_out_body l sign ds len :
  let s := Z.of_nat (length sign) in let d := Z.of_nat (length ds) in
  let n := l_width l - s - Z.max (l_preci l) d in
  (l_dot l = false → l_preci l = 0) → l_padwith l = 32 ∨ l_padwith l = 48 → 0 ≤ len → 0 ≤ l_width l → 0 ≤ l_preci l →
  len + Z.max (l_width l) (s + Z.max (l_preci l) d) < 2 ^ 30 →
  prints
    (if negb (l_left l) then
       len ← (if l_dot l then
                n0 ← write_pad put n 32;
                len0 ← write_sign put sign s (i32 (len + n0));
                n1 ← write_pad put (l_preci l - d) 48;
                mret (i32 (len0 + n1))
              else
                len0 ← (if negb (s =? 0) && (l_padwith l =? chr "0") then write_sign put sign s len else mret len);
                n0 ← write_pad put (l_width l - s - d) (l_padwith l);
                write_sign put sign (if negb (s =? 0) && (l_padwith l =? chr "0") then 0 else s) (i32 (len0 + n0)));
       put ds;;
       mret (i32 (len + d))
     else
       len0 ← write_sign put sign s len;
       n0 ← write_pad put (l_preci l - d) 48;
       put ds;;
       n1 ← write_pad put n 32;
       mret (i32 (i32 (i32 (len0 + n0) + d) + n1)))
    (if l_left l then sign ++ extended (l_preci l) ds ++ replicate (Z.to_nat n) 32
     else if negb (l_dot l) && (l_padwith l =? 48) then sign ++ replicate (Z.to_nat n) 48 ++ extended (l_preci l) ds
     else replicate (Z.to_nat n) 32 ++ sign ++ extended (l_preci l) ds)
    (len + Z.max (l_width l) (s + Z.max (l_preci l) d)).
Proof.
  intros s d n Hdot Hpad Hlen Hw Hp Hb. assert (0 ≤ s ∧ 0 ≤ d) as [Hs Hd] by lia. unfold extended. fold d.
  destruct (l_left l); cbn [negb].
  - eapply prints_eq.
    + eapply prints_bind; [apply write_sign_prints; lia|]. eapply prints_bind; [apply write_pad_prints; by right|].
      eapply prints_then; [apply prints_put|]. eapply prints_bind; [apply write_pad_prints; by left|]. apply prints_ret.
    + by rewrite app_nil_r, <- !app_assoc.
    + fold s. rewrite (i32_small (len + s + Z.max 0 (l_preci l - d))), (i32_small (len + s + Z.max 0 (l_preci l - d) + d)), i32_small by lia. lia.
  - destruct (l_dot l); cbn [negb andb].
    + eapply prints_eq.
      * eapply prints_bind.
        { eapply prints_bind; [apply write_pad_prints; by left|]. rewrite i32_small by lia.
          eapply prints_bind; [apply write_sign_prints; lia|]. eapply prints_bind; [apply write_pad_prints; by right|]. apply prints_ret. }
        eapply prints_then; [apply prints_put|apply prints_ret].
      * by rewrite !app_nil_r, <- !app_assoc.
      * fold s. rewrite (i32_small (len + Z.max 0 n + s + Z.max 0 (l_preci l - d))), i32_small by lia. lia.
    + subst n. pose proof (Hdot eq_refl) as Ep. clear Hdot. rewrite Ep in *. replace (Z.to_nat (0 - d)) with 0%nat by lia. cbn [replicate app].
      assert (Z.max 0 d = d) as Ed by lia. rewrite Ed in *.
      assert (0 ≤ len + Z.max 0 (l_width l - s - d) < 2 ^ 30) as Hr by lia.
      change (chr "0") with 48. destruct (negb (s =? 0) && (l_padwith l =? 48)) eqn:Ez.
      * apply andb_true_iff in Ez as [_ ->%Z.eqb_eq]. change (48 =? 48) with true. cbv iota. eapply prints_eq.
        { eapply prints_bind.
          { eapply prints_bind; [apply write_sign_prints; lia|]. eapply prints_bind; [apply write_pad_prints; by right|]. apply prints_ret. }
          eapply prints_then; [apply prints_put|apply prints_ret]. }
        { by rewrite !app_nil_r, <- !app_assoc. }
        { fold s. rewrite (i32_small (len + s + Z.max 0 (l_width l - s - d))), i32_small by lia. lia. }
      * eapply prints_eq.
        { eapply prints_bind.
          { eapply prints_bind; [apply prints_ret|]. eapply prints_bind; [by apply write_pad_prints|]. rewrite i32_small by lia. apply write_sign_prints; lia. }
          eapply prints_then; [apply prints_put|apply prints_ret]. }
        { rewrite !app_nil_r. cbn [app]. rewrite <- !app_assoc. destruct Hpad as [-> | E48]; [done|]. rewrite E48 in *. change (48 =? 48) with true in *.
          rewrite andb_true_r in Ez. apply negb_false_iff, Z.eqb_eq in Ez. by destruct sign. }
        { fold s. rewrite i32_small by lia. lia. }
Qed.

Lemma print_out_field l sign ds len :
  todo_of l = Z.of_nat (length sign) → (length sign ≤ 2)%nat → 0 ≤ l_width l < 2 ^ 30 → 0 ≤ l_preci l < 2 ^ 30 →
  (l_dot l = false → l_preci l = 0) → l_padwith l = 32 ∨ l_padwith l = 48 → 0 ≤ len →
  let text := field (l_left l) (negb (l_dot l) && (l_padwith l =? 48)) (l_width l) sign (extended (l_preci l) ds) in
  len + Z.of_nat (length text) < 2 ^ 30 →
  prints (print_out put l (sign ++ ds) len) text (len + Z.of_nat (length text)).
Proof.
  intros Ht Hs Hw Hp Hdot Hpad Hlen text Hb.
  assert (Z.of_nat (length text) = Z.max (l_width l) (Z.of_nat (length sign) + Z.max (l_preci l) (Z.of_nat (length ds)))) as Htext.
  { unfold text. by rewrite field_length, Nat2Z.inj_add, extended_length. }
  rewrite Htext in *. unfold print_out. cbv zeta. fold (todo_of l). rewrite Ht, length_app, Nat2Z.inj_add.
  rewrite Nat2Z.id, take_app_length, drop_app_length.
  set (s := Z.of_nat (length sign)) in *. set (d := Z.of_nat (length ds)) in *. assert (0 ≤ s ≤ 2 ∧ 0 ≤ d) as [Hs' Hd] by lia.
  rewrite (width_less (l_width l) s Hw Hs'). replace (u32 (s + d - s)) with d by (rewrite u32_small; lia).
  rewrite (i32_small d), (i32_small (l_preci l)) by lia.
  assert (i32 (if d <? l_preci l then l_preci l else d) = Z.max (l_preci l) d) as -> by (rewrite i32_small; case_match; lia).
  assert (Z.of_nat (length sign + length (extended (l_preci l) ds)) = s + Z.max (l_preci l) d) as Hn by by rewrite Nat2Z.inj_add, extended_length.
  unfold text, field. rewrite Hn. clear Hn Htext text Ht. rewrite Z.sub_add_distr.
  destruct (Z.eqb_spec (l_width l) 0) as [Ew|Hnw]; [destruct (Z.eqb_spec (l_preci l) 0) as [Ep|Hnp]|]; cbn [andb].
  { rewrite i32_small by lia. eapply prints_eq; [eapply prints_then; [apply prints_put|apply prints_ret]| |lia].
    unfold extended. fold d. replace (Z.to_nat (l_width l - s - Z.max (l_preci l) d)) with 0%nat by lia.
    replace (Z.to_nat (l_preci l - d)) with 0%nat by lia. cbn [replicate app]. rewrite !app_nil_r. by repeat case_match. }
  all: rewrite (i32_small (l_width l - s - Z.max (l_preci l) d)), (i32_small (l_preci l - d)), (i32_small (l_width l - s - d)) by lia.
  all: apply print_out_body; done || lia.
Qed.

(** The body of a number with its precision, when there is one. *)
Definition number_body (prec : option Z) (base : Z) (up : bool) (v : Z) : list Z :=
  match prec with
  | None => digits_text base up v
  | Some p => if (v =? 0) && (p =? 0) then [] else extended p (digits_text base up v)
  end.

Definition sign_text (l : locals) (v : Z) : list Z :=
  if v <? 0 then [45] else if l_sign l then [43] else if l_space l then [32] else [].

Lemma prints_bind_ret {A B} (a : A) (k : A → M S B) t b : prints (k a) t b → prints (mret a ≫= k) t b.
Proof. done. Qed.

Definition magnitude (signed wide : bool) (number : Z) : Z :=
  if signed then Z.abs number else if wide then u64 number else u32 number.

Lemma extended_zero preci : 0 < preci → extended preci [48] = extended preci [].
Proof.
  intros Hp. unfold extended. cbn [length app]. replace (Z.to_nat (preci - Z.of_nat 0)) with (Z.to_nat (preci - Z.of_nat 1) + 1)%nat by lia.
  by rewrite replicate_add, <- app_assoc.
Qed.

Lemma number_body_extended (dot : bool) preci base up m :
  0 ≤ preci → (dot = false → preci = 0) →
  number_body (if dot then Some preci else None) base up m = extended preci (if dot && (m =? 0) then [] else digits_text base up m).
Proof.
  intros Hp Hdot. destruct dot; cbn [number_body andb].
  - destruct (Z.eqb_spec m 0) as [->|]; [|done]. cbn [andb]. destruct (Z.eqb_spec preci 0) as [->|]; [done|]. apply extended_zero. lia.
  - rewrite Hdot by done. unfold extended. by replace (Z.to_nat (0 - Z.of_nat (length (digits_text base up m)))) with 0%nat by lia.
Qed.

(** A number from its directive on: with a sign or a prefix. *)
Lemma print_number_prints l base prefix (signed wide : bool) number len :
  let m := magnitude signed wide number in
  let sign := if signed then sign_text l number else prefix in
  2 ≤ base ≤ 36 → 0 ≤ l_long l →
  (if wide then - 2 ^ 63 ≤ number < 2 ^ 63 else - 2 ^ 31 ≤ number < 2 ^ 31) →
  l_in_sign l = (if signed then 1 else 0) →
  (prefix = [] ∧ l_hash l ≤ 0 ∨ signed = false ∧ l_hash l = Z.of_nat (length prefix) ∧ 0 < l_hash l ≤ 2 ∧ m ≠ 0) →
  0 ≤ l_width l < 2 ^ 30 → 0 ≤ l_preci l < 2 ^ 30 → (l_dot l = false → l_preci l = 0) →
  l_padwith l = 32 ∨ l_padwith l = 48 → 0 ≤ len →
  let text := field (l_left l) (negb (l_dot l) && (l_padwith l =? 48)) (l_width l) sign
    (number_body (if l_dot l then Some (l_preci l) else None) base (l_upcase l) m) in
  len + Z.of_nat (length text) < 2 ^ 30 →
  prints (print_number put l base prefix wide number len) text (len + Z.of_nat (length text)).
Proof.
  intros m sign Hb Hlong Hn Hin Hpre Hw Hp Hdot Hpad Hlen text Hlt. unfold print_number. cbv zeta.
  replace (l_long l <? 0) with false by lia. replace (l_long l <? -1) with false by lia. rewrite Hin.
  set (minus := negb ((if signed then 1 else 0) =? 0) && (number <? 0)).
  assert (minus = signed && (number <? 0)) as Eminus by (unfold minus; by destruct signed). clearbody minus.
  set (shown := if minus then if wide then i64 (- number) else i32 (- number) else number).
  assert ((if wide then u64 shown else u32 shown) = m ∧ 0 ≤ m < 2 ^ 64) as [Em Hm].
  { subst shown m minus. unfold magnitude. destruct signed; cbn [andb].
    - destruct (Z.ltb_spec number 0); destruct wide; rewrite ?u64_i64, ?u32_i32, ?u64_small, ?u32_small by lia; lia.
    - destruct wide; [pose proof (u64_range number)|pose proof (u32_range number)]; lia. }
  destruct (digits_text_zero base (l_upcase l) m Hb Hm) as [Hz Hds].
  assert ((if wide then lltostr 123 (u64 shown) base (l_upcase l) else ltostr 123 (u32 shown) base (l_upcase l)) =
    (digits_text base (l_upcase l) m, Z.of_nat (length (digits_text base (l_upcase l) m)))) as ->.
  { rewrite <- Em. destruct wide; [by apply lltostr_text|by apply ltostr_text]. }
  cbn [fst snd]. rewrite <- andb_assoc, Hz. clear Hz shown Em.
  set (zero := l_dot l && (m =? 0)). set (ds := if zero then [] else digits_text base (l_upcase l) m).
  assert (number_body (if l_dot l then Some (l_preci l) else None) base (l_upcase l) m = extended (l_preci l) ds) as Ebody
    by (apply number_body_extended; [lia|done]).
  assert ((if zero then if (l_preci l =? 0) || (0 <? l_hash l) then [] else prefix else prefix ++ digits_text base (l_upcase l) m) = prefix ++ ds) as ->.
  { subst ds zero. destruct (l_dot l); [|done]. cbn [andb]. destruct (Z.eqb_spec m 0) as [E0|]; [|done].
    destruct Hpre as [[-> _]|(_ & _ & _ & ?)]; [by destruct ((l_preci l =? 0) || (0 <? l_hash l))|done]. }
  unfold text in *. rewrite Ebody in *. clear Ebody text. set (l1 := if zero then set_hash 0 l else l).
  assert (∀ v pre, todo_of (set_in_sign v l1) = Z.of_nat (length pre) → (length pre ≤ 2)%nat → sign = pre →
    prints (print_out put (set_in_sign v l1) (pre ++ ds) len) (field (l_left l) (negb (l_dot l) && (l_padwith l =? 48)) (l_width l) sign (extended (l_preci l) ds))
      (len + Z.of_nat (length (field (l_left l) (negb (l_dot l) && (l_padwith l =? 48)) (l_width l) sign (extended (l_preci l) ds))))) as Hout.
  { intros v pre Ht Hl <-. pose proof (print_out_field (set_in_sign v l1) sign ds len) as H.
    unfold l1 in *. destruct zero; apply H; done. }
  assert (signed = true → prefix = [] ∧ l_hash l1 ≤ 0) as Hsigned.
  { intros ->. destruct Hpre as [[-> Hh]|[? _]]; [|done]. unfold l1. by destruct zero. }
  assert (∀ v, l_hash l1 ≤ 0 → todo_of (set_in_sign v l1) = if negb (v =? 0) then 1 else 0) as Htodo.
  { intros v Hh. unfold todo_of. cbn [set_in_sign l_hash l_in_sign]. destruct (Z.ltb_spec 0 (l_hash l1)); [lia|done]. }
  destruct signed; cbn [andb] in Eminus.
  - destruct (Hsigned eq_refl) as [-> Hh]. clear Hsigned. unfold sign, sign_text in *. rewrite <- Eminus in *. destruct minus.
    + apply (Hout 2 [45]); [by rewrite Htodo|cbn; lia|done].
    + cbn [Z.eqb Pos.eqb negb andb orb]. assert (l_sign l1 = l_sign l ∧ l_space l1 = l_space l) as [-> ->] by (unfold l1; by destruct zero).
      destruct (l_sign l); [|destruct (l_space l)]; cbn [orb].
      * apply (Hout 1 [43]); [by rewrite Htodo|cbn; lia|done].
      * apply (Hout 1 [32]); [by rewrite Htodo|cbn; lia|done].
      * apply (Hout 0 []); [by rewrite Htodo|cbn; lia|done].
  - rewrite Eminus. cbn [Z.eqb negb andb]. apply (Hout 0 prefix); [|destruct Hpre as [[-> _]|(_ & E & ? & _)]; cbn; lia|done].
    destruct Hpre as [[-> Hh]|(_ & E & Hh & Hm0)].
    + rewrite Htodo; [done|]. unfold l1. by destruct zero.
    + unfold todo_of, l1, zero. destruct (Z.eqb_spec m 0) as [|_]; [done|]. rewrite andb_false_r. cbn [set_in_sign l_hash].
      destruct (Z.ltb_spec 0 (l_hash l)); [done|lia].
Qed.
End prints.

(** ** Directives *)

Inductive conversion_kind : Type :=
  | Signed (i : bool)
  | Unsigned
  | Hex (up : bool)
  | Octal
  | Text
  | Char
  | Percent.

Definition conv_char (c : conversion_kind) : Z :=
  match c with
  | Signed i => if i then chr "i" else chr "d"
  | Unsigned => chr "u"
  | Hex up => if up then chr "X" else chr "x"
  | Octal => chr "o"
  | Text => chr "s"
  | Char => chr "c"
  | Percent => chr "%"
  end.

(** Flags, digits of the width (the first may be the flag 0) and of the
    precision, [ll] or not, the conversion, and its argument. *)
Record directive : Type := Directive {
  d_flags : list Z;
  d_width : list Z;
  d_prec : option (list Z);
  d_wide : bool;
  d_conv : conversion_kind;
  d_arg : arg
}.

Definition has_flag (c : Z) (flags : list Z) : bool := existsb (Z.eqb c) flags.
Definition decimal_value (ds : list Z) : Z := value 10 0 ds.

Definition prec_text (prec : option (list Z)) : list Z := match prec with Some ds => chr "." :: ds | None => [] end.
Definition wide_text (wide : bool) : list Z := if wide then [chr "l"; chr "l"] else [].
Definition directive_text (d : directive) : list Z :=
  chr "%" :: d_flags d ++ d_width d ++ prec_text (d_prec d) ++ wide_text (d_wide d) ++ [conv_char (d_conv d)].

Definition zero_flag (d : directive) : bool := match d_width d with c :: _ => c =? chr "0" | [] => false end.

(** What the standard says a directive prints. *)
Definition iso_sign (flags : list Z) (v : Z) : list Z :=
  if v <? 0 then [chr "-"] else if has_flag (chr "+") flags then [chr "+"] else if has_flag (chr " ") flags then [chr " "] else [].

Definition iso_field (d : directive) (prefix body : list Z) : list Z :=
  field (has_flag (chr "-") (d_flags d)) (zero_flag d && bool_decide (d_prec d = None)) (decimal_value (d_width d)) prefix body.

Definition iso_number (d : directive) (base : Z) (up : bool) (prefix : list Z) (v : Z) : list Z :=
  iso_field d prefix (number_body (decimal_value <$> d_prec d) base up v).

Definition alternative (d : directive) (prefix : list Z) : list Z := if has_flag (chr "#") (d_flags d) then prefix else [].

Definition iso_directive (d : directive) : list Z :=
  let v := number_of true (d_arg d) in
  let u := number_of false (d_arg d) in
  match d_conv d with
  | Signed _ => iso_number d 10 false (iso_sign (d_flags d) v) (Z.abs v)
  | Unsigned => iso_number d 10 false [] u
  | Hex up => iso_number d 16 up (alternative d [chr "0"; if up then chr "X" else chr "x"]) u
  | Octal => iso_number d 8 false (alternative d [chr "0"]) u
  | Text =>
      match d_arg d with
      | AString (Some s) =>
          field (has_flag (chr "-") (d_flags d)) false (decimal_value (d_width d)) []
            (match d_prec d with Some ds => take (Z.to_nat (decimal_value ds)) s | None => s end)
      | _ => []
      end
  | Char => match d_arg d with AWord v => [u8 v] | _ => [] end
  | Percent => [chr "%"]
  end.

Definition wide_arg (wide : bool) (a : arg) : Prop :=
  match a with AWord _ => wide = false | ALong v => wide = true ∧ - 2 ^ 63 ≤ v < 2 ^ 63 | AString _ => False end.

(** The directives the theorems are about: the code keeps to the standard on
    them.  Not [%5c], [#] with zero or with [%.3o], where it does not, nor what
    the standard leaves undefined. *)
Definition directive_ok (d : directive) : Prop :=
  Forall (λ c, c ∈ [chr "#"; chr "-"; chr " "; chr "+"]) (d_flags d) ∧
  Forall (λ c, isdigit c = true) (d_width d) ∧ decimal_value (d_width d) < 2 ^ 30 ∧
  match d_prec d with Some ds => Forall (λ c, isdigit c = true) ds ∧ decimal_value ds < 2 ^ 30 | None => True end ∧
  let alt := has_flag (chr "#") (d_flags d) = true in
  match d_conv d with
  | Signed _ | Unsigned => wide_arg (d_wide d) (d_arg d) ∧ ¬ alt
  | Hex _ => wide_arg (d_wide d) (d_arg d) ∧ (alt → number_of false (d_arg d) ≠ 0)
  | Octal => wide_arg (d_wide d) (d_arg d) ∧ (alt → number_of false (d_arg d) ≠ 0 ∧ d_prec d = None)
  | Text => d_wide d = false ∧ ¬ alt ∧ match d_arg d with AString (Some _) => True | _ => False end
  | Char => d_wide d = false ∧ d_width d = [] ∧ d_prec d = None ∧ match d_arg d with AWord _ => True | _ => False end
  | Percent => d_wide d = false ∧ d_flags d = [] ∧ d_width d = [] ∧ d_prec d = None
  end.

Definition directive_args (d : directive) : list arg := match d_conv d with Percent => [] | _ => [d_arg d] end.

(** The code's variables once it has read the directive. *)
Definition directive_locals (d : directive) : locals :=
  let flags := d_flags d in
  Locals 0 false (if has_flag (chr "#") flags then -1 else 0) (has_flag (chr "-") flags) (has_flag (chr " ") flags) (has_flag (chr "+") flags)
    (bool_decide (d_prec d ≠ None)) (if d_wide d then 2 else 0) (decimal_value (d_width d)) (default 0 (decimal_value <$> d_prec d))
    (if zero_flag d && negb (has_flag (chr "-") flags) then 48 else 32).

(** ** Reading a directive *)

Section reading.
Context {S : Type} (put : list Z → M S unit).

Ltac decide_chars :=
  repeat match goal with
    | |- context [chr ?a =? chr ?b] => let v := eval vm_compute in (chr a =? chr b) in change (chr a =? chr b) with v
    | |- context [chr ?a <=? chr ?b] => let v := eval vm_compute in (chr a <=? chr b) in change (chr a <=? chr b) with v
    end; cbn [orb andb]; cbv iota.

Lemma digit_is_digit c : isdigit c = true → ∃ d, digit_of c = Some d ∧ d < 10.
Proof.
  unfold isdigit. intros [H1 H2]%andb_true_iff. exists (c - 48). split; [|lia].
  assert (c ∈ seqZ 48 10) as H by (apply elem_of_seqZ; lia).
  assert (Forall (λ c, digit_of c = Some (c - 48)) (seqZ 48 10)) as Hall by (apply (bool_decide_eq_true_1 _); vm_compute; reflexivity).
  rewrite Forall_forall in Hall. by apply Hall.
Qed.

Lemma digits_decimal ds : Forall (λ c, isdigit c = true) ds → digits 10 ds.
Proof. intros H. eapply Forall_impl; [done|]. apply digit_is_digit. Qed.

Definition add_flags (flags : list Z) (l : locals) : locals :=
  Locals (l_in_sign l) (l_upcase l) (if has_flag (chr "#") flags then -1 else l_hash l) (l_left l || has_flag (chr "-") flags)
    (l_space l || has_flag (chr " ") flags) (l_sign l || has_flag (chr "+") flags) (l_dot l) (l_long l) (l_width l) (l_preci l) (l_padwith l).

Lemma add_flags_cons flags c l l' :
  l' = (if c =? chr "#" then set_hash (-1) l else if c =? chr "-" then set_left true l
        else if c =? chr " " then set_space true l else if c =? chr "+" then set_sign true l else l) →
  add_flags flags l' = add_flags (c :: flags) l.
Proof.
  intros ->. unfold add_flags, has_flag. cbn [existsb]. rewrite (Z.eqb_sym (chr "#") c), (Z.eqb_sym (chr "-") c), (Z.eqb_sym (chr " ") c), (Z.eqb_sym (chr "+") c).
  destruct (Z.eqb_spec c (chr "#")) as [->|_]; [|destruct (Z.eqb_spec c (chr "-")) as [->|_]; [|destruct (Z.eqb_spec c (chr " ")) as [->|_]; [|destruct (Z.eqb_spec c (chr "+")) as [->|_]]]];
    repeat match goal with |- context [Z.eqb (chr ?a) (chr ?b)] => change (Z.eqb (chr a) (chr b)) with false end;
    destruct l; cbn -[chr existsb];
    rewrite ?orb_true_r; f_equal; by repeat case_match.
Qed.

Lemma inn_flags flags rest l args len fuel :
  Forall (λ c, c ∈ [chr "#"; chr "-"; chr " "; chr "+"]) flags → (length (flags ++ rest) ≤ fuel)%nat →
  ∃ fuel', (length rest ≤ fuel')%nat ∧ inn_printf put fuel (flags ++ rest) l args len = inn_printf put fuel' rest (add_flags flags l) args len.
Proof.
  intros Hf. revert fuel l. induction Hf as [|c flags Hc _ IH]; intros fuel l Hfuel.
  { exists fuel. split; [done|]. f_equal. unfold add_flags. cbn. rewrite !orb_false_r. by destruct l. }
  cbn [app length] in Hfuel. destruct fuel as [|fuel]; [lia|]. cbn [app inn_printf].
  repeat (apply elem_of_cons in Hc as [-> | Hc]; [decide_chars;
    match goal with |- context [inn_printf put fuel (flags ++ rest) ?l' args len] =>
      destruct (IH fuel l') as (fuel' & Hr & E); [lia|]; exists fuel'; split; [done|]; rewrite E end; f_equal; apply add_flags_cons; done|]).
  by apply not_elem_of_nil in Hc.
Qed.
(** What may follow a number in a directive. *)
Definition follows : list Z := chr "." :: chr "l" :: map conv_char [Signed true; Signed false; Unsigned; Hex true; Hex false; Octal; Text; Char; Percent].

Lemma follows_no_digit c : c ∈ follows → 10 ≤ digit_value c ∧ isspace c = false ∧ c ≠ 45 ∧ c ≠ 43 ∧ c ≠ 42 ∧ c ≠ 48 ∧ isdigit c = false.
Proof.
  intros Hc. assert (Forall (λ c, 10 ≤ digit_value c ∧ isspace c = false ∧ c ≠ 45 ∧ c ≠ 43 ∧ c ≠ 42 ∧ c ≠ 48 ∧ isdigit c = false) follows) as H
    by (apply (bool_decide_eq_true_1 _); vm_compute; reflexivity).
  rewrite Forall_forall in H. by apply H.
Qed.

Lemma follows_ends c t : c ∈ follows → no_digit 10 (c :: t).
Proof.
  intros Hc. unfold no_digit.
  assert (Forall (λ c, 0 ≤ c < 256 ∧ 10 ≤ default 10 (digit_of c)) follows) as H
    by (apply (bool_decide_eq_true_1 _); vm_compute; reflexivity).
  rewrite Forall_forall in H. destruct (H c Hc) as [H1 H2]. split; [done|]. destruct (digit_of c); cbn in *; [lia|done].
Qed.

Lemma conv_follows c : conv_char c ∈ follows.
Proof. assert (conv_char c ∈ map conv_char [Signed true; Signed false; Unsigned; Hex true; Hex false; Octal; Text; Char; Percent]) as H.
  { apply list_elem_of_In, in_map. destruct c as [[]| |[]| | | |]; cbn; tauto. }
  unfold follows. right. by right.
Qed.

Lemma numeral_before ds c t : Forall (λ c, isdigit c = true) ds → ds ≠ [] → c ∈ follows → numeral 10 ds (c :: t).
Proof. intros Hd Hne Hc. split; [by apply digits_decimal|done|by apply follows_ends|done]. Qed.

Lemma strtol_digits ds c t :
  Forall (λ c, isdigit c = true) ds → c ∈ follows → decimal_value ds < 2 ^ 30 →
  cv_value (strtol (ds ++ c :: t) 10) = decimal_value ds ∧ cv_end (strtol (ds ++ c :: t) 10) = Some (c :: t).
Proof.
  intros Hd Hc Hv. destruct (decide (ds = [])) as [->|Hne].
  - destruct (follows_no_digit c Hc) as (H1 & H2 & H3 & H4 & _). cbn [app]. unfold strtol. cbn [skip_spaces]. rewrite H2. cbv zeta.
    change (char_at (c :: t) 0) with c. replace (c =? 45) with false by lia. cbn [andb]. unfold strtoul. cbn [skip_spaces]. rewrite H2. cbv zeta.
    change (char_at (c :: t) 0) with c. replace (c =? 45) with false by lia. replace (c =? 43) with false by lia. cbn [orb andb negb Z.eqb Pos.eqb].
    replace (34 <? u32 (10 - 2)) with false by done. cbn [digits_loop]. destruct (Z.leb_spec 10 (digit_value c)); [|lia].
    rewrite Nat.eqb_refl. cbn. by rewrite Nat.eqb_refl.
  - pose proof (strtol_ok 10 ltac:(lia) [] false ds (c :: t) ltac:(constructor) (numeral_before ds c t Hd Hne Hc)) as (E1 & E2 & _).
    cbn [app sign_chars] in E1, E2. rewrite E1, E2. split; [|done]. unfold signed_value, decimal_value, LONG_MIN, LONG_MAX in *.
    pose proof (value_ge 10 ltac:(lia) ds 0 ltac:(lia)). lia.
Qed.

Lemma inn_width ds c t l args len fuel :
  Forall (λ c, isdigit c = true) ds → c ∈ follows → decimal_value ds < 2 ^ 30 → l_dot l = false → (length (ds ++ c :: t) ≤ fuel)%nat →
  l_width l = 0 →
  ∃ fuel', (length (c :: t) ≤ fuel')%nat ∧
    inn_printf put fuel (ds ++ c :: t) l args len =
    inn_printf put fuel' (c :: t) (set_width (decimal_value ds)
      (if match ds with x :: _ => x =? chr "0" | [] => false end && negb (l_left l) then set_padwith 48 l else l)) args len.
Proof.
  intros Hd Hc Hv Hdot Hf Hw. destruct ds as [|x ds].
  { exists fuel. split; [done|]. cbn [andb app]. f_equal. destruct l. cbn in *. by subst. }
  pose proof Hd as [Hx _]%Forall_cons. destruct fuel as [|fuel]; [cbn in Hf; lia|]. exists fuel. rewrite length_app in Hf. cbn [length] in *. split; [lia|].
  cbn [app inn_printf]. assert (chr "0" ≤ x ≤ chr "9") as Hr by (unfold isdigit in Hx; change (chr "0") with 48; change (chr "9") with 57; lia).
  assert (∀ k, k ∈ [35; 122; 104; 113; 76; 108; 45; 32; 43] → (x =? k) = false) as Hne.
  { intros k Hk. apply Z.eqb_neq. change (chr "0") with 48 in Hr. change (chr "9") with 57 in Hr.
    assert (Forall (λ k, k < 48 ∨ 57 < k) [35; 122; 104; 113; 76; 108; 45; 32; 43]) as Hall by (repeat constructor; lia).
    rewrite Forall_forall in Hall. specialize (Hall k Hk). cbn in Hall. lia. }
  rewrite !Hne by (apply (bool_decide_eq_true_1 _); reflexivity). cbn [orb].
  replace ((chr "0" <=? x) && (x <=? chr "9")) with true by lia. rewrite Hdot.
  pose proof (strtoul_ok 10 ltac:(lia) [] false (x :: ds) (c :: t) ltac:(constructor) (numeral_before _ c t Hd ltac:(done) Hc)) as E.
  cbn [app sign_chars] in E. rewrite E. unfold decimal_value in *. destruct (Z.leb_spec (2 ^ 32) (value 10 0 (x :: ds))); [lia|].
  cbn [cv_value cv_end from_option id]. f_equal. cbn [set_width l_left]. by destruct (_ && _).
Qed.

Lemma inn_prec prec c t l args len fuel :
  match prec with Some ds => Forall (λ c, isdigit c = true) ds ∧ decimal_value ds < 2 ^ 30 | None => True end →
  c ∈ follows → (length (prec_text prec ++ c :: t) ≤ fuel)%nat → l_dot l = false → l_preci l = 0 →
  ∃ fuel', (length (c :: t) ≤ fuel')%nat ∧
    inn_printf put fuel (prec_text prec ++ c :: t) l args len =
    inn_printf put fuel' (c :: t) (set_preci (default 0 (decimal_value <$> prec)) (set_dot (bool_decide (prec ≠ None)) l)) args len.
Proof.
  intros Hp Hc Hf Hdot Hpr. destruct prec as [ds|].
  2: { exists fuel. split; [done|]. cbn. f_equal. destruct l. cbn in *. by subst. }
  destruct Hp as [Hd Hv]. cbn [prec_text app length] in *. destruct fuel as [|fuel]; [lia|]. exists fuel.
  rewrite length_app in Hf. cbn [length] in *. split; [lia|]. cbn [inn_printf]. decide_chars.
  assert ((nth 0 (ds ++ c :: t) 0 =? chr "*") = false) as ->.
  { apply Z.eqb_neq. change (chr "*") with 42. destruct ds as [|x ds]; cbn [app nth]; [by apply follows_no_digit|].
    apply Forall_cons in Hd as [Hx _]. unfold isdigit in Hx. lia. }
  destruct (strtol_digits ds c t Hd Hc Hv) as [-> ->]. cbn [from_option id fmap option_fmap option_map].
  pose proof (value_ge 10 ltac:(lia) ds 0 ltac:(lia)) as Hge. unfold decimal_value in *. destruct (Z.ltb_spec (value 10 0 ds) 0); [lia|done].
Qed.

Lemma inn_wide (wide : bool) c t l args len fuel :
  (length (wide_text wide ++ c :: t) ≤ fuel)%nat → l_long l = 0 →
  ∃ fuel', (length (c :: t) ≤ fuel')%nat ∧
    inn_printf put fuel (wide_text wide ++ c :: t) l args len =
    inn_printf put fuel' (c :: t) (set_long (if wide then 2 else 0) l) args len.
Proof.
  intros Hf Hl. destruct wide; cbn [wide_text app length] in *.
  - destruct fuel as [|[|fuel]]; [lia..|]. exists fuel. split; [lia|]. cbn [inn_printf]. decide_chars. f_equal. destruct l. cbn in *. by subst.
  - exists fuel. split; [done|]. f_equal. destruct l. cbn in *. by subst.
Qed.
Lemma wide_follows wide c rest : ∃ x t, wide_text wide ++ conv_char c :: rest = x :: t ∧ x ∈ follows.
Proof.
  destruct wide; cbn [wide_text app]; eexists _, _; (split; [done|]); [unfold follows; right; left|apply conv_follows].
Qed.
Lemma prec_follows prec wide c rest : ∃ x t, prec_text prec ++ wide_text wide ++ conv_char c :: rest = x :: t ∧ x ∈ follows.
Proof.
  destruct prec as [ds|]; [|apply wide_follows]. cbn [prec_text app]. eexists _, _. split; [done|]. unfold follows. left.
Qed.

Lemma inn_conv c rest l args len fuel :
  (length (conv_char c :: rest) ≤ fuel)%nat →
  inn_printf put fuel (conv_char c :: rest) l args len =
  (r ← convert put (conv_char c) l args len; mret (Some (rest, r.1, r.2))).
Proof.
  intros Hf. destruct fuel as [|fuel]; [cbn in Hf; lia|].
  destruct c as [[]| |[]| | | |]; cbn [conv_char inn_printf]; decide_chars; done.
Qed.

(** A directive is read into its variables. *)
Lemma inn_directive d rest args len fuel :
  directive_ok d → (length (d_flags d ++ d_width d ++ prec_text (d_prec d) ++ wide_text (d_wide d) ++ conv_char (d_conv d) :: rest) ≤ fuel)%nat →
  inn_printf put fuel (d_flags d ++ d_width d ++ prec_text (d_prec d) ++ wide_text (d_wide d) ++ conv_char (d_conv d) :: rest) no_flags args len =
  (r ← convert put (conv_char (d_conv d)) (directive_locals d) args len; mret (Some (rest, r.1, r.2))).
Proof.
  intros (Hf & Hw & Hwv & Hp & _) Hfuel.
  destruct (inn_flags (d_flags d) _ no_flags args len fuel Hf Hfuel) as (f1 & H1 & ->).
  destruct (prec_follows (d_prec d) (d_wide d) (d_conv d) rest) as (x & t & Ex & Hx).
  rewrite Ex in *. destruct (inn_width (d_width d) x t (add_flags (d_flags d) no_flags) args len f1) as (f2 & H2 & ->); [done..|].
  rewrite <- Ex in *. destruct (wide_follows (d_wide d) (d_conv d) rest) as (y & u & Ey & Hy). rewrite Ey in *.
  destruct (inn_prec (d_prec d) y u (set_width (decimal_value (d_width d))
      (if zero_flag d && negb (l_left (add_flags (d_flags d) no_flags)) then set_padwith 48 (add_flags (d_flags d) no_flags) else add_flags (d_flags d) no_flags))
    args len f2) as (f3 & H3 & E3); [done..|by destruct (zero_flag d && _)|by destruct (zero_flag d && _)|].
  unfold zero_flag in E3 at 1. rewrite E3. clear E3. rewrite <- Ey in *.
  match goal with |- inn_printf put f3 _ ?l _ _ = _ => destruct (inn_wide (d_wide d) (conv_char (d_conv d)) rest l args len f3) as (f4 & H4 & E4) end;
    [done|by destruct (zero_flag d && _)|].
  rewrite E4. clear E4. rewrite inn_conv by done. f_equal. f_equal. unfold directive_locals, add_flags. cbn [no_flags l_left orb].
  by destruct (zero_flag d && negb (has_flag (chr "-") (d_flags d))).
Qed.

(** What it prints. *)
Lemma field_zero left zero zero' width prefix body : (left = false → zero = zero') → field left zero width prefix body = field left zero' width prefix body.
Proof. intros H. unfold field. destruct left; [done|]. by rewrite H. Qed.

Lemma locals_padding d : l_padwith (directive_locals d) = 32 ∨ l_padwith (directive_locals d) = 48.
Proof. cbn. destruct (_ && _); tauto. Qed.

Lemma field_locals d prefix body :
  field (l_left (directive_locals d)) (negb (l_dot (directive_locals d)) && (l_padwith (directive_locals d) =? 48)) (l_width (directive_locals d)) prefix body =
  iso_field d prefix body.
Proof.
  unfold iso_field. apply field_zero. cbn [directive_locals l_left l_dot l_padwith l_width]. intros ->. cbn [negb]. rewrite andb_true_r, andb_comm.
  f_equal; [by destruct (zero_flag d)|]. by destruct (d_prec d).
Qed.

Lemma body_locals d base up v :
  number_body (if l_dot (directive_locals d) then Some (l_preci (directive_locals d)) else None) base up v =
  number_body (decimal_value <$> d_prec d) base up v.
Proof. cbn. by destruct (d_prec d). Qed.

Record locals_ok (l : locals) : Prop := LocalsOk {
  lo_long : 0 ≤ l_long l;
  lo_width : 0 ≤ l_width l < 2 ^ 30;
  lo_preci : 0 ≤ l_preci l < 2 ^ 30;
  lo_dot : l_dot l = false → l_preci l = 0;
  lo_pad : l_padwith l = 32 ∨ l_padwith l = 48
}.

Lemma directive_locals_ok d : directive_ok d → locals_ok (directive_locals d).
Proof.
  intros (_ & _ & Hw & Hp & _). split; cbn [directive_locals l_long l_width l_preci l_dot l_padwith].
  - by destruct (d_wide d).
  - split; [|done]. by apply (value_ge 10 ltac:(lia)).
  - destruct (d_prec d) as [ds|]; cbn [fmap option_fmap option_map from_option id]; [|lia]. split; [|apply Hp]. by apply (value_ge 10 ltac:(lia)).
  - by destruct (d_prec d).
  - apply locals_padding.
Qed.

Lemma num_printf_prints l base prefix (signed : bool) wide a args len :
  wide_arg wide a → l_long l = (if wide then 2 else l_long l) → (wide = false → 0 ≤ l_long l ≤ 1) → locals_ok l →
  let m := number_of signed a in
  let sign := if signed then sign_text l m else prefix in
  2 ≤ base ≤ 36 → l_in_sign l = (if signed then 1 else 0) →
  (prefix = [] ∧ l_hash l ≤ 0 ∨ signed = false ∧ l_hash l = Z.of_nat (length prefix) ∧ 0 < l_hash l ≤ 2 ∧ m ≠ 0) → 0 ≤ len →
  let text := field (l_left l) (negb (l_dot l) && (l_padwith l =? 48)) (l_width l) sign
    (number_body (if l_dot l then Some (l_preci l) else None) base (l_upcase l) (Z.abs m)) in
  len + Z.of_nat (length text) < 2 ^ 30 →
  prints put (num_printf put l base prefix (a :: args) len) text (args, len + Z.of_nat (length text)).
Proof.
  intros Ha Hlong Hlong' [L1 L2 L3 L4 L5] m sign Hb Hin Hpre Hlen text Hlt. unfold num_printf. cbn [head tl]. apply (prints_bind_ret put a).
  set (number := match a with AWord v => i32 v | ALong v => v | AString _ => 0 end).
  assert ((1 <? l_long l) = wide ∧ (if wide then - 2 ^ 63 ≤ number < 2 ^ 63 else - 2 ^ 31 ≤ number < 2 ^ 31) ∧
    magnitude signed wide number = Z.abs m ∧ (signed = true → m = number)) as (Ew & Hr & Em & Es).
  { subst number m. unfold magnitude, number_of. destruct a as [v|v|]; [| |done].
    - cbn in Ha. subst wide. specialize (Hlong' eq_refl). split; [lia|]. split; [apply i32_range|]. destruct signed; [done|].
      rewrite u32_i32. pose proof (u32_range v). split; [lia|done].
    - cbn in Ha. destruct Ha as [-> Hv]. split; [lia|]. split; [done|]. rewrite i64_small by lia. destruct signed; [done|].
      pose proof (u64_range v). split; [lia|done]. }
  assert (match a with ALong v => if 1 <? l_long l then mret v else stuck | AWord v => if 1 <? l_long l then stuck else mret (i32 v) | AString _ => stuck end
    = mret (M:=M S) number) as ->.
  { subst number. rewrite Ew. destruct a as [v|v|]; [| |done]; cbn in Ha; [by subst|by destruct Ha as [-> _]]. }
  apply (prints_bind_ret put number). rewrite Ew.
  assert (sign = (if signed then sign_text l number else prefix)) as Esign by (unfold sign; destruct signed; [by rewrite Es|done]).
  eapply prints_eq.
  - eapply prints_bind; [|apply prints_ret]. apply (print_number_prints put l base prefix signed wide number len); try done.
    + rewrite Em. destruct Hpre as [?|(? & ? & ? & ?)]; [by left|right]. split_and!; try done; lia.
    + rewrite Em, <- Esign. done.
  - rewrite app_nil_r, Em, <- Esign. done.
  - cbn beta. by rewrite Em, <- Esign.
Qed.
Lemma field_wider left zero width preci prefix body :
  preci ≤ Z.of_nat (length body) → field left zero (if width <? preci then preci else width) prefix body = field left zero width prefix body.
Proof.
  intros Hp. destruct (Z.ltb_spec width preci); [|done]. unfold field.
  by replace (Z.to_nat (preci - Z.of_nat (length prefix + length body))) with (Z.to_nat (width - Z.of_nat (length prefix + length body))) by lia.
Qed.

Lemma number_body_length prec base up v :
  match prec with Some p => 0 ≤ p | None => True end → default 0 prec ≤ Z.of_nat (length (number_body prec base up v)).
Proof.
  destruct prec as [p|]; cbn [number_body from_option id]; [|lia]. intros Hp. destruct (Z.eqb_spec v 0); cbn [andb]; [destruct (Z.eqb_spec p 0); [cbn; lia|]|];
    rewrite extended_length; lia.
Qed.

Lemma prec_nonneg d : directive_ok d → match decimal_value <$> d_prec d with Some p => 0 ≤ p | None => True end.
Proof. intros _. destruct (d_prec d) as [ds|]; [|done]. cbn. by apply (value_ge 10 ltac:(lia)). Qed.

(** The variables of the code belong to the directive. *)
Record reads (d : directive) (l : locals) : Prop := Reads {
  rd_locals : locals_ok l;
  rd_long : l_long l = (if d_wide d then 2 else 0);
  rd_in_sign : l_in_sign l = 0;
  rd_upcase : l_upcase l = false;
  rd_hash : l_hash l = (if has_flag (chr "#") (d_flags d) then -1 else 0);
  rd_dot : l_dot l = bool_decide (d_prec d ≠ None);
  rd_preci : l_preci l = default 0 (decimal_value <$> d_prec d);
  rd_left : l_left l = has_flag (chr "-") (d_flags d);
  rd_width : l_width l = decimal_value (d_width d);
  rd_sign : l_sign l = has_flag (chr "+") (d_flags d);
  rd_space : l_space l = has_flag (chr " ") (d_flags d);
  rd_padwith : l_padwith l = l_padwith (directive_locals d)
}.

Lemma directive_reads d : directive_ok d → reads d (directive_locals d).
Proof. intros Hok. split; try done. by apply directive_locals_ok. Qed.

Section conversions.
Context {d : directive} {l : locals} (Hok : directive_ok d) (Hl : reads d l) (args : list arg) (len : Z) (Hlen : 0 ≤ len).

(** The code's field is the standard's, also when the width was raised to the
    precision. *)
Lemma number_field l' base up v prefix :
  l_left l' = l_left l → l_dot l' = l_dot l → l_padwith l' = l_padwith l → l_preci l' = l_preci l →
  l_width l' = l_width l ∨ l_width l' = (if l_width l <? l_preci l then l_preci l else l_width l) →
  field (l_left l') (negb (l_dot l') && (l_padwith l' =? 48)) (l_width l') prefix (number_body (if l_dot l' then Some (l_preci l') else None) base up v) =
  iso_number d base up prefix v.
Proof using Hok Hl.
  intros -> -> -> -> Hwidth. unfold iso_number. rewrite <- field_locals, <- (body_locals d), (rd_left _ _ Hl), (rd_padwith _ _ Hl).
  assert (l_dot l = l_dot (directive_locals d) ∧ l_preci l = l_preci (directive_locals d) ∧ l_width l = l_width (directive_locals d)) as (Ed & Ep & Ew)
    by (split_and!; by apply Hl). rewrite Ed, Ep, Ew in *.
  destruct Hwidth as [-> | ->]; [done|]. apply field_wider. rewrite body_locals. etrans; [|apply number_body_length, prec_nonneg, Hok].
  cbn. by destruct (d_prec d).
Qed.

Lemma long_wide : l_long l = (if d_wide d then 2 else l_long l) ∧ (d_wide d = false → 0 ≤ l_long l ≤ 1).
Proof using Hl. rewrite (rd_long _ _ Hl). by destruct (d_wide d). Qed.

Lemma number_nonneg a : 0 ≤ number_of false a.
Proof. unfold number_of. destruct a as [v|v|]; [pose proof (u32_range v)|pose proof (u64_range v)|]; lia. Qed.

(** An unsigned conversion, with the variables it has changed. *)
Lemma convert_number l' base up prefix :
  wide_arg (d_wide d) (d_arg d) → locals_ok l' → l_long l' = l_long l → l_in_sign l' = 0 → l_upcase l' = up →
  l_left l' = l_left l → l_dot l' = l_dot l → l_padwith l' = l_padwith l → l_preci l' = l_preci l →
  l_width l' = l_width l ∨ l_width l' = (if l_width l <? l_preci l then l_preci l else l_width l) → 2 ≤ base ≤ 36 →
  (prefix = [] ∧ l_hash l' ≤ 0 ∨ l_hash l' = Z.of_nat (length prefix) ∧ 0 < l_hash l' ≤ 2 ∧ number_of false (d_arg d) ≠ 0) →
  let text := iso_number d base up prefix (number_of false (d_arg d)) in
  len + Z.of_nat (length text) < 2 ^ 30 →
  prints put (num_printf put l' base prefix (d_arg d :: args) len) text (args, len + Z.of_nat (length text)).
Proof using Hok Hl Hlen.
  intros Ha Hlo Elong Ein Eup E1 E2 E3 E4 E5 Hb Hpre text Hlt. destruct long_wide as [Hl1 Hl2].
  pose proof (num_printf_prints l' base prefix false (d_wide d) (d_arg d) args len Ha) as H. cbv zeta in H.
  rewrite (number_field l') in H by done. rewrite Z.abs_eq, Eup in H by apply number_nonneg.
  apply H; [by rewrite Elong|by rewrite Elong|done|done|done| |done|done]. destruct Hpre; [by left|right; by split].
Qed.

Lemma convert_signed (i : bool) :
  wide_arg (d_wide d) (d_arg d) → has_flag (chr "#") (d_flags d) = false →
  let text := iso_number d 10 false (iso_sign (d_flags d) (number_of true (d_arg d))) (Z.abs (number_of true (d_arg d))) in
  len + Z.of_nat (length text) < 2 ^ 30 →
  prints put (convert put (if i then chr "i" else chr "d") l (d_arg d :: args) len) text (args, len + Z.of_nat (length text)).
Proof using Hok Hl Hlen.
  intros Ha Hno text Hlt. pose proof (rd_hash _ _ Hl) as Ehash. rewrite Hno in Ehash. destruct long_wide as [Hl1 Hl2].
  assert (convert put (if i then chr "i" else chr "d") l (d_arg d :: args) len = num_printf put (set_in_sign 1 l) 10 [] (d_arg d :: args) len) as ->
    by (destruct i; unfold convert; decide_chars; done).
  pose proof (num_printf_prints (set_in_sign 1 l) 10 [] true (d_wide d) (d_arg d) args len Ha) as H. cbv zeta in H.
  rewrite (number_field (set_in_sign 1 l)) in H by tauto. change (l_upcase (set_in_sign 1 l)) with (l_upcase l) in H. rewrite (rd_upcase _ _ Hl) in H.
  assert (sign_text (set_in_sign 1 l) (number_of true (d_arg d)) = iso_sign (d_flags d) (number_of true (d_arg d))) as Es
    by (unfold sign_text, iso_sign; rewrite <- (rd_sign _ _ Hl), <- (rd_space _ _ Hl); done).
  rewrite Es in H. apply H; [exact Hl1|exact Hl2|destruct Hl as [[]]; by split|lia|done|left; split; [done|]; change (l_hash l ≤ 0); lia|done|done].
Qed.

Lemma convert_hex (up : bool) :
  wide_arg (d_wide d) (d_arg d) → (has_flag (chr "#") (d_flags d) = true → number_of false (d_arg d) ≠ 0) →
  let text := iso_number d 16 up (alternative d [chr "0"; if up then chr "X" else chr "x"]) (number_of false (d_arg d)) in
  len + Z.of_nat (length text) < 2 ^ 30 →
  prints put (convert put (if up then chr "X" else chr "x") l (d_arg d :: args) len) text (args, len + Z.of_nat (length text)).
Proof using Hok Hl Hlen.
  intros Ha Halt. pose proof (rd_hash _ _ Hl) as Ehash. unfold alternative. set (alt := has_flag (chr "#") (d_flags d)) in *.
  set (l1 := if up then set_upcase true l else l). set (l2 := if alt then set_hash 2 l1 else l1).
  set (l3 := if l_width l2 <? l_preci l2 then set_width (l_preci l2) l2 else l2).
  set (prefix := if alt then [chr "0"; if up then chr "X" else chr "x"] else []).
  assert (convert put (if up then chr "X" else chr "x") l (d_arg d :: args) len = num_printf put l3 16 prefix (d_arg d :: args) len) as ->.
  { subst l3 l2 l1 prefix. destruct up; unfold convert; decide_chars; cbv zeta; decide_chars; cbn [set_upcase l_hash]; rewrite Ehash; by destruct alt. }
  assert (l_width l2 = l_width l ∧ l_preci l2 = l_preci l) as [W P] by (subst l2 l1; destruct alt, up; done).
  pose proof (rd_locals _ _ Hl) as [L1 L2 L3 L4 L5]. pose proof (rd_in_sign _ _ Hl). pose proof (rd_upcase _ _ Hl).
  subst l3. rewrite W, P. destruct (Z.ltb_spec (l_width l) (l_preci l)) as [Hwp|Hwp];
    (apply convert_number; subst l2 l1 prefix; [done|destruct alt, up; by split|by destruct alt, up..| |lia|]).
  1,3: destruct alt, up; (by left) || (right; destruct (Z.ltb_spec (l_width l) (l_preci l)); [done|lia]).
  all: destruct alt, up; cbn in *; first [left; split; [done|lia]|right; split; [done|split; [lia|by apply Halt]]].
Qed.

Lemma convert_octal :
  wide_arg (d_wide d) (d_arg d) → (has_flag (chr "#") (d_flags d) = true → number_of false (d_arg d) ≠ 0) →
  let text := iso_number d 8 false (alternative d [chr "0"]) (number_of false (d_arg d)) in
  len + Z.of_nat (length text) < 2 ^ 30 →
  prints put (convert put (chr "o") l (d_arg d :: args) len) text (args, len + Z.of_nat (length text)).
Proof using Hok Hl Hlen.
  intros Ha Halt. pose proof (rd_hash _ _ Hl) as Ehash. unfold alternative. set (alt := has_flag (chr "#") (d_flags d)) in *.
  set (l1 := if alt then set_hash 1 l else l). set (prefix := if alt then [chr "0"] else []).
  assert (convert put (chr "o") l (d_arg d :: args) len = num_printf put l1 8 prefix (d_arg d :: args) len) as ->.
  { subst l1 prefix. unfold convert; decide_chars; cbv zeta. rewrite Ehash. by destruct alt. }
  pose proof (rd_locals _ _ Hl) as []. pose proof (rd_in_sign _ _ Hl). pose proof (rd_upcase _ _ Hl).
  apply convert_number; subst l1 prefix; [done|destruct alt; by split|by destruct alt..|destruct alt; by left|lia|].
  destruct alt; [right; split; [done|split; [cbn; lia|by apply Halt]]|left; split; [done|lia]].
Qed.

Lemma convert_text s :
  d_arg d = AString (Some s) → has_flag (chr "#") (d_flags d) = false →
  let text := field (has_flag (chr "-") (d_flags d)) false (decimal_value (d_width d)) []
    (match d_prec d with Some ds => take (Z.to_nat (decimal_value ds)) s | None => s end) in
  len + Z.of_nat (length text) < 2 ^ 30 →
  prints put (convert put (chr "s") l (d_arg d :: args) len) text (args, len + Z.of_nat (length text)).
Proof using Hl Hlen.
  intros Ha Hno text Hlt. pose proof (rd_hash _ _ Hl) as Ehash. rewrite Hno in Ehash. rewrite Ha. pose proof (rd_locals _ _ Hl) as [].
  unfold convert; decide_chars. cbn [app head tl from_option id]. apply (prints_bind_ret put (AString (Some s))). cbv beta iota zeta.
  set (s' := if l_dot l && (l_preci l <? Z.of_nat (length s)) then take (Z.to_nat (l_preci l)) s else s).
  assert (s' = match d_prec d with Some ds => take (Z.to_nat (decimal_value ds)) s | None => s end) as Es.
  { subst s'. rewrite (rd_dot _ _ Hl), (rd_preci _ _ Hl). destruct (d_prec d) as [ds|]; [|done]. cbn.
    destruct (Z.ltb_spec (decimal_value ds) (Z.of_nat (length s))); [done|]. symmetry. apply take_ge. lia. }
  unfold text in *. rewrite <- Es in *. set (l' := set_padwith 32 (set_dot false (set_preci 0 l))).
  pose proof (print_out_field put l' [] s' len) as H. cbv zeta in H. cbn [app length] in H.
  assert (todo_of l' = 0) as Ht.
  { unfold todo_of. change (l_hash l') with (l_hash l). change (l_in_sign l') with (l_in_sign l). by rewrite Ehash, (rd_in_sign _ _ Hl). }
  assert (extended (l_preci l') s' = s') as Ee
    by (unfold extended; change (l_preci l') with 0; by replace (Z.to_nat (0 - Z.of_nat (length s'))) with 0%nat by lia).
  assert (field (l_left l') (negb (l_dot l') && (l_padwith l' =? 48)) (l_width l') [] s' =
    field (has_flag (chr "-") (d_flags d)) false (decimal_value (d_width d)) [] s') as Ef by (rewrite <- (rd_left _ _ Hl), <- (rd_width _ _ Hl); done).
  rewrite Ee, Ef in H. eapply prints_eq; [eapply prints_bind; [apply H|apply prints_ret]|apply app_nil_r|done]; try done; try lia.
  by left.
Qed.
End conversions.

Lemma convert_prints d args len :
  directive_ok d → 0 ≤ len → len + Z.of_nat (length (iso_directive d)) < 2 ^ 30 →
  prints put (convert put (conv_char (d_conv d)) (directive_locals d) (directive_args d ++ args) len) (iso_directive d)
    (args, len + Z.of_nat (length (iso_directive d))).
Proof.
  intros Hok Hlen Hlt. pose proof (directive_reads d Hok) as Hl. pose proof Hok as (_ & _ & _ & _ & Hc). unfold directive_args, iso_directive in *.
  destruct (d_conv d) as [i| |up| | | |]; cbn [conv_char app].
  - destruct Hc as [Ha Hno%not_true_is_false]. by apply (convert_signed Hok Hl).
  - destruct Hc as [Ha Hno%not_true_is_false]. unfold convert; decide_chars. pose proof (rd_hash _ _ Hl) as Ehash. rewrite Hno in Ehash.
    apply (convert_number Hok Hl); try done; [apply Hl|by left|left; split; [done|lia]].
  - destruct Hc. by apply (convert_hex Hok Hl).
  - destruct Hc as [Ha Halt]. apply (convert_octal Hok Hl); [done|done|intros H; by apply Halt|done].
  - destruct Hc as (_ & Hno%not_true_is_false & Ha). destruct (d_arg d) as [| |[s|]] eqn:Ea; [done..| |done]. rewrite <- Ea. by apply (convert_text Hl).
  - destruct Hc as (_ & _ & _ & Ha). destruct (d_arg d) as [v| |]; [|done..]. unfold convert; decide_chars. cbn [app head tl].
    apply (prints_bind_ret put (AWord v)). cbn [length]. rewrite i32_small by (cbn in Hlt; lia).
    eapply prints_eq; [eapply prints_then; [apply prints_put|apply prints_ret]|done|done].
  - unfold convert; decide_chars. cbn [app length]. rewrite i32_small by (cbn in Hlt; lia).
    eapply prints_eq; [eapply prints_then; [apply prints_put|apply prints_ret]|done|done].
Qed.
End reading.

(** ** Formats *)

(** Literal text and a directive behind it, again and again, and text at the
    end. *)
Definition format_text (parts : list (list Z * directive)) (tail : list Z) : list Z :=
  mjoin (map (λ p, p.1 ++ directive_text p.2) parts) ++ tail.
Definition format_args (parts : list (list Z * directive)) : list arg := mjoin (map (λ p, directive_args p.2) parts).
Definition iso_text (parts : list (list Z * directive)) (tail : list Z) : list Z :=
  mjoin (map (λ p, p.1 ++ iso_directive p.2) parts) ++ tail.

Definition literal (text : list Z) : Prop := Forall (λ c, c ≠ chr "%") text.
Definition parts_ok (parts : list (list Z * directive)) : Prop := Forall (λ p, literal p.1 ∧ directive_ok p.2) parts.

Lemma skip_literal text rest :
  literal text → match rest with [] => True | c :: _ => c = chr "%" end → skip_to (text ++ rest) = length text.
Proof.
  intros Ht Hr. induction Ht as [|c text Hc _ IH]; cbn [app skip_to].
  - destruct rest as [|c rest]; [done|]. subst. cbn [skip_to]. by rewrite Z.eqb_refl.
  - destruct (Z.eqb_spec c (chr "%")); [done|]. cbn [length]. by rewrite IH.
Qed.

Lemma format_text_cons text d parts tail : format_text ((text, d) :: parts) tail = text ++ directive_text d ++ format_text parts tail.
Proof. unfold format_text. cbn [map mjoin list_join fst snd]. by rewrite <- !app_assoc. Qed.
Lemma iso_text_cons text d parts tail : iso_text ((text, d) :: parts) tail = text ++ iso_directive d ++ iso_text parts tail.
Proof. unfold iso_text. cbn [map mjoin list_join fst snd]. by rewrite <- !app_assoc. Qed.
Lemma format_args_cons text d parts args : format_args ((text, d) :: parts) ++ args = directive_args d ++ format_args parts ++ args.
Proof. unfold format_args. cbn [map mjoin list_join fst snd]. by rewrite <- !app_assoc. Qed.

Section formats.
Context {S : Type} (put : list Z → M S unit).

Lemma literal_prints text len :
  0 ≤ len → len + Z.of_nat (length text) < 2 ^ 30 →
  prints put (if (length text =? 0)%nat then mret len else put text;; mret (i32 (len + Z.of_nat (length text)))) text (len + Z.of_nat (length text)).
Proof.
  intros Hl Hb. destruct text as [|c text]; [eapply prints_eq; [apply prints_ret|done|cbn; lia]|]. cbn [length Nat.eqb].
  rewrite i32_small by (cbn [length] in Hb; lia). eapply prints_eq; [eapply prints_then; [apply prints_put|apply prints_ret]|apply app_nil_r|done].
Qed.

Lemma loop_unfold fuel format args len :
  format ≠ [] →
  v_printf_loop put (Datatypes.S fuel) format args len =
    (len ← (if (skip_to format =? 0)%nat then mret len else put (take (skip_to format) format);; mret (i32 (len + Z.of_nat (skip_to format))));
     match drop (skip_to format) format with
     | [] => mret len
     | _ :: format =>
         r ← inn_printf put (length format) format no_flags args len;
         match r with None => mret (-1) | Some (format, args, len) => v_printf_loop put fuel format args len end
     end).
Proof. by destruct format. Qed.

Lemma loop_prints parts tail args fuel len :
  parts_ok parts → literal tail → (length (format_text parts tail) ≤ fuel)%nat → 0 ≤ len →
  len + Z.of_nat (length (iso_text parts tail)) < 2 ^ 30 →
  prints put (v_printf_loop put fuel (format_text parts tail) (format_args parts ++ args) len) (iso_text parts tail)
    (len + Z.of_nat (length (iso_text parts tail))).
Proof.
  intros Hp Ht. revert fuel len. induction Hp as [|[text d] parts [Htext Hd] _ IH]; intros fuel len Hf Hlen Hlt.
  - unfold format_text, iso_text, format_args in *. cbn [map mjoin list_join app] in *. destruct tail as [|c tail].
    { eapply prints_eq; [destruct fuel; apply prints_ret|done|cbn; lia]. }
    destruct fuel as [|fuel]; [cbn in Hf; lia|]. cbn [v_printf_loop]. set (t := c :: tail) in *.
    assert (skip_to t = length t) as -> by (rewrite <- (app_nil_r t) at 1; by apply skip_literal). rewrite drop_all, take_ge by done.
    eapply prints_eq; [eapply prints_bind; [by apply literal_prints|apply prints_ret]|apply app_nil_r|done].
  - cbn [fst snd] in Htext, Hd. rewrite format_args_cons, iso_text_cons in *. rewrite format_text_cons in *. rewrite !length_app, !Nat2Z.inj_add in Hlt. rewrite length_app in Hf.
    assert (0 < length (directive_text d))%nat as Hd1 by (cbn; lia).
    destruct fuel as [|fuel]; [rewrite length_app in Hf; lia|].
    set (fmt := text ++ directive_text d ++ format_text parts tail).
    assert (skip_to fmt = length text) as Eskip by by apply skip_literal.
    assert (v_printf_loop put (Datatypes.S fuel) fmt (directive_args d ++ format_args parts ++ args) len =
      (len ← (if (length text =? 0)%nat then mret len else put text;; mret (i32 (len + Z.of_nat (length text))));
       r ← inn_printf put (length (tl (directive_text d) ++ format_text parts tail)) (tl (directive_text d) ++ format_text parts tail)
             no_flags (directive_args d ++ format_args parts ++ args) len;
       match r with None => mret (-1) | Some (format, args, len) => v_printf_loop put fuel format args len end)) as ->.
    { rewrite loop_unfold by (subst fmt; by destruct text). rewrite Eskip. unfold fmt. rewrite take_app_length, drop_app_length. done. }
    assert (tl (directive_text d) ++ format_text parts tail =
      d_flags d ++ d_width d ++ prec_text (d_prec d) ++ wide_text (d_wide d) ++ conv_char (d_conv d) :: format_text parts tail) as Etl
      by (cbn [directive_text tl]; by rewrite <- !app_assoc).
    rewrite Etl.
    eapply prints_eq; [eapply prints_bind; [apply literal_prints; lia|]| |].
    + rewrite inn_directive by done. eapply prints_bind.
      { eapply prints_bind; [apply convert_prints; [done|lia|lia]|]. apply prints_ret. }
      cbn [fst snd]. apply IH; [|lia|lia]. rewrite length_app in Hf. lia.
    + by rewrite app_nil_r.
    + rewrite !length_app, !Nat2Z.inj_add. lia.
Qed.

Lemma v_printf_prints parts tail args :
  parts_ok parts → literal tail → Z.of_nat (length (iso_text parts tail)) < 2 ^ 30 →
  prints put (v_printf put (format_text parts tail) (format_args parts ++ args)) (iso_text parts tail) (Z.of_nat (length (iso_text parts tail))).
Proof. intros Hp Ht Hb. unfold v_printf. by apply (loop_prints parts tail args _ 0). Qed.
End formats.

(** ** Into a buffer *)










(** ** The properties *)

(** C25: on the formats of [parts_ok] printf prints what the C standard says:
    literal text and the directives d, i, u, x, X, o, s, c and %, with the
    flags [-], [+], blank, [0] and [#], a width and a precision written in
    digits and below 2^30, and an argument of one word, or of two with [ll].
    These are not all formats: [parts_ok] leaves out a width or precision for
    c, [#] for a zero and [#] with a precision in octal, where the code departs
    from the standard ([printf_departs]); [#] for d, i, u and s, which the
    standard does not define; and [*], the other lengths, p, b, f and g.  For a
    format of [parts_ok] whose text is shorter than 2^30 the code hands on, in
    pieces, exactly the text the standard defines - signs, prefixes, the zeros
    of the precision and of the field, blanks on either side - and returns its
    length, whatever it prints to. *)
Theorem printf_follows_iso {S : Type} (put : list Z → M S unit) parts tail args :
  parts_ok parts → literal tail → Z.of_nat (length (iso_text parts tail)) < 2 ^ 30 →
  ∃ chunks, mjoin chunks = iso_text parts tail ∧ ∀ s,
    v_printf put (format_text parts tail) (format_args parts ++ args) s =
    (put_all put chunks;; mret (Z.of_nat (length (iso_text parts tail)))) s.
Proof. intros Hp Ht Hb. exact (v_printf_prints put parts tail args Hp Ht Hb). Qed.

(** [x=%-+6d|%#06x|%.3s] with -42, 0xBE and a string *)
Definition sample_parts : list (list Z * directive) :=
  [([120; 61], Directive [45; 43] [54] None false (Signed false) (AWord (-42)));
   ([124], Directive [35] [48; 54] None false (Hex false) (AWord 0xBE));
   ([124], Directive [] [] (Some [51]) false Text (AString (Some [97; 98; 99; 100])))].

Lemma sample_parts_ok : parts_ok sample_parts.
Proof.
  repeat (apply Forall_cons; split; [|]); [| | |by apply Forall_nil]; (split; [apply (bool_decide_eq_true_1 _); vm_compute; reflexivity|]);
    (split; [apply (bool_decide_eq_true_1 _); vm_compute; reflexivity|]);
    (split; [apply (bool_decide_eq_true_1 _); vm_compute; reflexivity|]); (split; [vm_compute; reflexivity|]).
  - split; [done|]. cbn. split; [done|]. by intros [=].
  - split; [done|]. cbn. split; [done|]. intros _. vm_compute. discriminate.
  - split; [split; [apply (bool_decide_eq_true_1 _); vm_compute; reflexivity|vm_compute; reflexivity]|]. cbn. split; [done|]. split; [by intros [=]|done].
Qed.

Lemma printf_follows_iso_witness :
  iso_text sample_parts [10] = [120; 61; 45; 52; 50; 32; 32; 32; 124; 48; 120; 48; 48; 98; 101; 124; 97; 98; 99; 10] ∧
  ∃ chunks, mjoin chunks = iso_text sample_parts [10] ∧ ∀ s,
    v_printf swrite (format_text sample_parts [10]) (format_args sample_parts ++ []) s =
    (put_all swrite chunks;; mret (Z.of_nat (length (iso_text sample_parts [10])))) s.
Proof.
  split; [vm_compute; reflexivity|]. apply (printf_follows_iso swrite sample_parts [10] []); [apply sample_parts_ok| |vm_compute; reflexivity].
  apply Forall_cons. split; [done|by apply Forall_nil].
Defined.



(** ** Where the code departs from the standard *)

Definition printed (format : list Z) (args : list arg) : result (list Z) Z := v_printf (λ bs, modify (λ o, o ++ bs)) format args [].

(** [%3c] has no field, [%#x] of zero has a prefix, [%#.3o] counts it twice,
    and [%hd] does not convert to [short]. *)
Lemma printf_departs :
  printed [37; 51; 99] [AWord 65] = Ok 1 [65] ∧
  printed [37; 35; 120] [AWord 0] = Ok 3 [48; 120; 48] ∧
  printed [37; 35; 46; 51; 111] [AWord 8] = Ok 4 [48; 48; 49; 48] ∧
  printed [37; 104; 100] [AWord 40000] = Ok 5 [52; 48; 48; 48; 48].
Proof. vm_compute. split_and!; reflexivity. Qed.
